(* ===== verification/_CoqProject ===== *)
-Q . S2P
Prelude.v
Text.v
Float64.v
Sha256.v
Json.v
JsonParse.v
JsonFacts.v
Float64Facts.v
Addresses.v
IsoTime.v
IsoTimeFacts.v
Vendors.v
Outbound.v
OutboundTheorems.v
Rules.v
RuleMatch.v
RuleTheorems.v
RuleStore.v
RuleCodec.v
RuleStoreTheorems.v
GmailCodec.v
Locations.v
AutomationStore.v
AutomationSources.v
BodyState.v
BodyTheorems.v
ReconcileState.v
ReconcileTheorems.v
GmailStore.v
GmailRecovery.v
GmailInvariant.v
GmailSteps.v
GmailTheorems.v
GmailWitness.v
ConnectCodec.v
CertificateRecord.v
CertificateFacts.v
ConnectStore.v
ConnectQueue.v
ConnectJobs.v
RetainedSources.v
CertificateStore.v
ConnectTransition.v
CertificateReplay.v
CertificateLedger.v
ConnectReads.v
FireStore.v
ConnectSteps.v
CertificateRows.v
ConnectRows.v
ConnectInvariant.v
ConnectTheorems.v
QueueTheorems.v
CertificateTheorems.v
LedgerTheorems.v
ConnectWitness.v
CertificateWitness.v
AutomationOps.v
CalendarOps.v
AutomationRefine.v
AutomationInvariant.v
AutomationReach.v
AutomationTheorems.v
CalendarTheorems.v
AutomationWitness.v
StampOrder.v
AnalysisStore.v
AnalysisSystem.v
AnalysisExact.v
AnalysisTheorems.v
AnalysisWitness.v
RemovalKey.v
RemovalOps.v
RemovalAccept.v
RemovalSteps.v
RemovalTheorems.v
DerivedState.v
DerivedTheorems.v
