(* ===== verification/Prelude.v ===== *)
(** * EOM Email Watcher: a verification development (root file)

    ** The program

    [src/src/eom_email_watcher] is a mail watcher: it polls mailboxes, keeps what it
    learns in one SQLite database ([db.py], class [Store]), asks a local model to
    classify mail, follows vendor threads, fires user rules, prepares calendar
    proposals that a person confirms, and sends one monthly mail.  Every component
    works through the store: one operation is one transaction, which commits when it
    returns and is rolled back when it raises.  The providers (Gmail, IMAP, Microsoft
    365), the model server and the desktop shell are clients around it.

    ** How the code is modelled

    - A Python [str] is a list of code points ([text]), [bytes] a list of values
      below 256, an [int] a [Z].
    - A computation returns or raises ([py], with [exn] for the exceptions; messages
      are kept where they are constant).  A store operation is a function from the
      database to [py] of its result and the new database, so an exception carries
      no database: that is the rollback.
    - A table is a [gmap] on its primary key, or a list where the order of rows or
      repeated keys matter; constraints and triggers the operations rely on are part
      of the definitions that write the table.  SQL text is read as the boolean
      predicate it states, with NULL as [None].
    - The clock, random identifiers and tokens are arguments.
    - Parameters, as type classes: [Unicode] (case folding and character classes of
      the interpreter's tables), [AddressLib] ([email.utils.parseaddr] and the IDNA
      codec), [Zones] (the IANA time zones), [ConnectLib] (the capability and selection
      classes of the Connect packages, which are not part of the repository) and
      [MessageCapture] (the capture of a recovered message).  Nothing is assumed of them; concrete instances make the
      witnesses run.  The mail provider's answer to a send and the
      surroundings of a command are arguments ([Outbound.surroundings]).
    - Times: a stored time is text; [IsoTime] defines [isoformat] and
      [fromisoformat], and instants are microseconds.  The code compares epochs as
      floats; see [IsoTime.aware_iso_epoch] for why integers compare alike.

    ** Files

    - [Prelude]: text, the [py] monad, SQL booleans, shared lemmas and tactics
      ([peel] takes a returning computation apart, [bools] its guards).
    - [Text], [Float64], [Json], [JsonParse], [JsonFacts], [Sha256]: UTF-8, string
      methods, [repr] and reading of floats, [json.dumps] and [json.loads] with the
      round trip between them, SHA-256 (its constants are computed from the primes)
      for [text.py], and the canonical encodings the store hashes.
    - [Addresses]: addresses, selectors and the allowlist of [config.py].
    - [IsoTime], [IsoTimeFacts]: dates, and that what is printed is read back.
    - [Vendors]: [thread_state.py] ([VendorIndex.vendor_of], [attribute],
      [vendor_index]).
    - [Outbound], [OutboundTheorems]: the outbound ledger of [db.py], [_send_hours]
      and [_outbound_resolve] of [cli.py], and [outbound.py].  A command keeps the
      world after every committed effect, so that a process may die after any.
    - [Rules], [RuleMatch], [RuleTheorems]: [automation/rules.py], with the glob
      matching of [fnmatch].
    - [RuleStore], [RuleCodec], [RuleStoreTheorems]: the versioned rule store of [db.py]
      (rules, immutable versions, selections, revision) and its stored documents.
    - [GmailCodec], [GmailStore], [GmailRecovery]: mail accounts, label
      selectors, catalogue validations and the resumable Gmail recovery of [db.py];
      [GmailInvariant], [GmailSteps], [GmailTheorems], [GmailWitness]:
      the invariant of its rows, the reachable stores and the properties.
    - [ConnectCodec]: requests, fingerprints and results of Connect
      protocol 2.  [ConnectStore]: the tables of jobs, dispatches, fires, attempts,
      identities and confirmations.  [ConnectQueue], [ConnectJobs], [ConnectTransition],
      [ConnectReads]: the queue operations of [Store].  [FireStore]: the
      automation fires, and what the triggers do when a source is lost or a message
      deleted.  [ConnectSteps], [ConnectRows], [ConnectInvariant]: the step relation
      [queue_step], what it does to each row, the invariant and the reachable stores.
      [ConnectTheorems], [QueueTheorems], [ConnectWitness]: the properties and witnesses.
    - [CertificateRecord], [CertificateFacts]: the validation of an extracted certificate
      and its canonical form.  [RetainedSources]: the eligibility of retained sources
      ([removal.py]).  [CertificateStore], [CertificateReplay]: the certificate tables,
      recording, replays and joins, as operations of the queue.  [CertificateRows],
      [CertificateTheorems], [CertificateWitness]: their rows and properties.
      [CertificateLedger], [LedgerTheorems]: the expiry ledger.
    - [Locations]: [_record_locations] and
      [Store._clear_location_stamps] of [db.py].
    - [AutomationStore]: the tables of the scheduling automation (runs, events,
      extraction and proposal payloads, calendar writes) with their row constraints,
      and the message, follow and removal tables it reads.
    - [AutomationSources]: the source predicates ([_automation_source_available_sql],
      [_scheduling_source_join_sql], [removal.py: _Eligibility.available_sql]).
    - [BodyState], [BodyTheorems]: [body_state.py] (projection, work list, recording).
    - [ReconcileState], [ReconcileTheorems]: [reconcile_state.py].
    - [AutomationOps]: admission, source loss, extraction attempts, review and purge.
    - [CalendarOps]: proposals, decisions and calendar writes.
    - [AutomationRefine]: the abstract specification [ledger_step]
      of the automation and that every operation refines it.
    - [AutomationInvariant], [AutomationReach]: the invariant, by component, and the reachable stores.
    - [AutomationTheorems], [CalendarTheorems]: the properties of
      the automation; [AutomationWitness]: a concrete run from admission to a
      completed write, and the witnesses.
    - [StampOrder]: texts of [isoformat] compare like instants.  [AnalysisStore]: the life of a captured message in [db.py] (request, failures,
      [mark_analyzed] with rules, fires and scheduling admission, delivery), its work lists
      and the notification list.  [AnalysisSystem]: the rows, and the step relation of the
      store in which messages, rules, queue and runs work together.  [AnalysisExact],
      [AnalysisTheorems], [AnalysisWitness]: the properties.
    - [RemovalKey]: the signed keys of [removal.py].  [RemovalOps]: its tables, acceptance, freezing, receipts, completion, suppression,
      batches and retirement.  [RemovalAccept], [RemovalSteps]: the invariant, and what
      each operation does to the tables.  [RemovalTheorems]: the properties and witnesses.
    - [DerivedState]: the derived attributions and followed threads of [db.py]
      ([_recompute_derived], [_thread_member], [_follow_owner], the evidence of
      [_track_derived_rows]) and the cleanup of [body_state.recompute].  [DerivedTheorems]:
      what the tables should hold, that the evidence is enough, and the witnesses.
    - The other components carry their witnesses
      at the end of their theorem files ([OutboundDemo], [RuleDemo], [LocationDemo],
      [BodyDemo], [ReconcileDemo]).

    ** What the theorems show

    - Calendar writes.  A write exists only with the confirmation of exactly its
      proposal in the log ([write_has_consent]); a decision authorizes one only inside
      the proposal's window ([authorization_needs_open_proposal]), and inside it the
      confirmation succeeds ([confirm_progress]); cancelled and repeated
      confirmations replay ([cancelled_confirm_replays], [cancelled_begin_replays],
      [confirm_idempotent]).
    - Runs.  Every transaction refines the abstract ledger ([store_refines_ledger]),
      every reachable store satisfies the invariant ([reachable_inv]), the event log
      is a gapless account ([event_log_complete]), settled runs are final, runs do
      not touch each other, attempts are bounded, source loss cancels, and the purge
      spares what is being written.
    - Outbound mail.  No period is mailed twice without a release by the operator,
      across crashes ([outbound_at_most_once]); a recorded send is final; each branch
      of the monthly send ([send_hours_decides]).
    - Rules.  [match_rules] computes the declarative reading of the rules and fails
      only by its bounds ([match_rules_exact]); dumps are read back.
    - Rule store.  Versions are never rewritten ([rule_history_immutable]), a write is
      exactly one new version ([put_rule_exact]) or fails on a stale expected version
      ([stale_rule_writes_fail]), a fire's definition stays readable
      ([fire_definition_durable]) and the matcher sees the current rules
      ([match_rules_current]).
    - Gmail.  Reachable rows are sound ([gmail_store_sound]); a recovery moves the cursor
      only when its page and candidates are drained ([recovery_cursor_safe]), completes
      for every finite listing of pages ([recovery_completes]) and grants admission only to
      messages with a current label or sender ([recovery_admission_granted]); stored
      documents are read back ([gmail_codec_roundtrip]).
    - Certificates.  The canonical bytes of a record are validated to the same record
      again ([certificate_canonical_stable]), a review is asked for exactly what the record
      shows ([certificate_review_exact]), recorded evidence is never changed
      ([certificate_evidence_durable]) and a replay that differs fences it and refuses the
      fires ([replay_fences_certificate]).  The expiry ledger shows what the records say
      ([ledger_exact]) and can be read in every reachable store ([ledger_readable]).
    - Connect.  The queue and the fires keep their invariant ([connect_queue_sound]);
      provider work is never rewound ([provider_work_never_rewound]); claims serve lane
      heads ([claim_serves_lane_head]), expiry takes exactly what may expire
      ([expiry_exact]), creation joins, admits or refuses ([create_admits_or_joins]),
      resumption returns the paused time ([resume_extends_deadline]); stored results are
      read back ([result_roundtrip]).
    - Fires.  Every operation refines the fire state machine ([fires_follow_machine]); a
      receipt needs a decision ([receipt_needs_decision]); a retry needs proof that no
      work was done ([retry_needs_proof]); losing a source settles what depends on it
      ([source_loss_settles]).
    - Messages.  A reservation is made once ([reservation_stable]); a result is final
      ([analysis_final]); completion stores it and admits exactly the fires of the current
      rules ([mark_analyzed_exact]); failures set the retry times ([retry_window]); the
      invariants of the components hold together ([analysis_system_sound]); a listed
      notification can be acknowledged once ([listed_notification_acknowledged]).
    - Removal.  What a request names is withheld at once ([accepted_removal_withholds]),
      the tables stay consistent ([removal_tables_sound]), a completed unit is gone and
      suppressed ([completion_exact]), nothing stays pending once the locks are granted
      ([resume_completes]); repeated requests return their receipt ([repeated_accept]),
      receipts only grow until retirement ([receipt_until_retired]), and an issued key is
      valid until its expiry ([issued_key_valid]).
    - Derived state.  The recomputation from the evidence of a transaction equals the one of
      everything ([derived_incremental_exact]); a thread belongs to the vendor of its first
      attributed message ([thread_owner_first]).
    - Coverage.  Every operation refines the life of a mailbox ([reconcile_refines]);
      a change makes coverage stale and a completed pass makes it current; a pass
      completes only with its catch-up done; saves are exclusive.
    - Locations and bodies.  The confirmation cache agrees with its evidence, a gap
      withdraws it, bodies and markers exclude each other, a text is shown only when
      every guard holds, and the fetch work list shrinks.
    - Vendors.  Exact matches come before domain matches and own addresses never
      count ([attribute_exact_first]).

    ** Fuel

    [Text.decimal] has the bit size of its number as fuel and each step divides by
    ten; [IsoTime.month_of] twelve months; [Fnmatch.translate] the length of the
    pattern, of which every step consumes a character, and [Fnmatch.chunks_from] the
    length of the set, of which every chunk consumes its hyphen.  [JsonParse] reads a
    document with twice its length plus one, since every value and every member consumes a
    character, and a string with its length; [RemovalOps.deleted_with] follows the rows of a
    logical message with the number of messages, [RemovalOps.batches] cuts with the number
    of units; [Float64] prints at most the seventeen digits
    that determine a double.  Everything else is structural.

    ** Not modelled, and the plan

    Providers, the model client, the service loop, the engine API, notifications,
    deployment, file locks and the configuration file are input and output around the
    store.  Of the store, message capture with the logical identity and the IMAP thread keys,
    the choice of what a fresh unfollowing cancels ([derived_previous_followed]),
    the purge of old messages and the thread reads are not modelled; of [scheduling.py], the
    validation and time resolution of an extraction. *)

From Stdlib Require Export Ascii String ZifyBool ZifyN ZifyNat.
From stdpp Require Export base gmap strings list sorting numbers.
From stdpp Require Import options.

(** ** Text

    A Python [str] is a finite sequence of Unicode code points (surrogates
    included), so text is a list of [N].  [str] turns an ASCII literal into
    text; [bytes] are lists of [N] below 256. *)

Abbreviation text := (list N).
Abbreviation bytes := (list N).

Fixpoint str (s : string) : text :=
  match s with
  | EmptyString => []
  | String a s' => N_of_ascii a :: str s'
  end.
Global Arguments str : simpl never.

(** Truth value of an optional string, as in [x or ...] and [not x]. *)
Definition truthy (t : text) : bool := bool_decide (t ≠ []).

(** Truth value of a sequence. *)
Definition truthy_list {A} (l : list A) : bool := match l with [] => false | _ => true end.

(** [value[:n]] *)
Definition clip (n : nat) (t : text) : text := take n t.

(** ** Python computations

    A computation either returns or raises.  Store operations run inside
    one transaction ([Store.connection]): they return the new database, and a
    raised exception rolls the transaction back, so an exception carries no
    database. *)

Inductive exn :=
| ValueError (message : string)
| RuntimeError (message : string)
| TypeError (message : string)
| AssertionError (message : string)
| KeyError (key : text)
| PermissionError (message : string)
| OverflowError
| IndexError
| IntegrityError (constraint : string)
| AutomationSourceChanged (message : string)
| AutomationCalendarWriteStateChanged (message : string)
| AutomationFanoutLimit (message : string)
| RuleValidationError (reason : string)
| SendError (message : string)
| ConfigError (message : string)
| OperationLockBusy
| UnicodeEncodeError
| UnicodeDecodeError
| JSONDecodeError
| AttributeError
| AutomationRuleNotFound (rule_id : text)
| AutomationRuleStale (message : string)
| AutomationRuleLimitExceeded (message : string)
| AutomationRuleSystemProtected (message : string)
| MailboxIdentityChanged (message : string)
| GmailLabelStoreError (code : string)
| ConnectQueueFull (message : string)
| CertificateResultInvalid
| CertificateResultConflict
| RemovalRequestInvalid (message : string).

Inductive py (A : Type) :=
| Ret (a : A)
| Raise (e : exn).
Global Arguments Ret {A} a.
Global Arguments Raise {A} e.

Global Instance py_ret : MRet py := fun A a => Ret a.
Global Instance py_bind : MBind py := fun A B f m =>
  match m with Ret a => f a | Raise e => Raise e end.
Global Instance py_fmap : FMap py := fun A B f m =>
  match m with Ret a => Ret (f a) | Raise e => Raise e end.

(** [if not b: raise e] *)
Definition require (b : bool) (e : exn) : py unit := if b then Ret tt else Raise e.

(** [if o is None: raise e] *)
Definition require_some {A} (o : option A) (e : exn) : py A :=
  match o with Some a => Ret a | None => Raise e end.

Definition is_ret {A} (m : py A) : bool :=
  match m with Ret _ => true | Raise _ => false end.

Definition py_option {A} (m : py A) : option A :=
  match m with Ret a => Some a | Raise _ => None end.

Lemma bind_ret_inv {A B} (m : py A) (f : A → py B) b :
  m ≫= f = Ret b → ∃ a, m = Ret a ∧ f a = Ret b.
Proof. destruct m as [a|e]; simpl; [eauto | done]. Qed.

Lemma bind_cong {A B} (m m' : py A) (f f' : A → py B) :
  m = m' → (∀ a, m = Ret a → f a = f' a) → m ≫= f = m' ≫= f'.
Proof. intros <-. destruct m as [a|e]; simpl; auto. Qed.

Lemma require_ret_inv b e u : require b e = Ret u → b = true.
Proof. by destruct b. Qed.

Lemma require_some_ret_inv {A} (o : option A) e a : require_some o e = Ret a → o = Some a.
Proof. destruct o; simpl; congruence. Qed.

Lemma bind_raise_inv {A B} (m : py A) (f : A → py B) e :
  m ≫= f = Raise e → m = Raise e ∨ ∃ a, m = Ret a ∧ f a = Raise e.
Proof. destruct m as [a|e']; simpl; [eauto | intros [= ->]; by left]. Qed.

(** ** Booleans of the SQL predicates *)

(** [a IS b] on nullable columns. *)
Definition sql_is (a b : option text) : bool := bool_decide (a = b).

(** [a = b] where either side may be NULL: NULL is not true. *)
Definition sql_eq (a b : option text) : bool :=
  match a, b with Some x, Some y => bool_decide (x = y) | _, _ => false end.

Definition is_none {A} (o : option A) : bool :=
  match o with None => true | Some _ => false end.

Definition is_some {A} (o : option A) : bool := negb (is_none o).

(** Maximum of a list of naturals with default 0: [COALESCE(MAX(x),0)]. *)
Definition max0 (l : list nat) : nat := foldr Nat.max 0 l.

Lemma max0_ge l n : n ∈ l → n ≤ max0 l.
Proof. induction 1; simpl; lia. Qed.

Lemma existsb_exists_elem {A} (f : A → bool) l :
  existsb f l = true ↔ ∃ x, x ∈ l ∧ f x = true.
Proof.
  rewrite existsb_exists. split; intros (x & Hx & Hf); exists x; split; try done;
    by apply list_elem_of_In.
Qed.

Lemma existsb_false {A} (f : A → bool) l :
  existsb f l = false ↔ ∀ x, x ∈ l → f x = false.
Proof.
  rewrite <- not_true_iff_false, existsb_exists_elem. split.
  - intros H x Hx. destruct (f x) eqn:E; [|done]. destruct H; eauto.
  - intros H (x & Hx & Hf). rewrite (H x Hx) in Hf. done.
Qed.

Lemma forallb_elem {A} (f : A → bool) l :
  forallb f l = true ↔ ∀ x, x ∈ l → f x = true.
Proof.
  rewrite forallb_forall. split; intros H x Hx; apply H; by apply list_elem_of_In.
Qed.

(** [ORDER BY key]: a stable sort on an integer column. *)
Fixpoint insert_by {A} (key : A → Z) (x : A) (l : list A) : list A :=
  match l with
  | [] => [x]
  | y :: l' => if (key x <=? key y)%Z then x :: l else y :: insert_by key x l'
  end.

Definition order_by {A} (key : A → Z) (l : list A) : list A := foldr (insert_by key) [] l.

Lemma insert_by_perm {A} (key : A → Z) x l : insert_by key x l ≡ₚ x :: l.
Proof.
  induction l as [|y l IH]; simpl; [done|]. case_match; [done|].
  rewrite IH. apply Permutation_swap.
Qed.

Lemma order_by_perm {A} (key : A → Z) l : order_by key l ≡ₚ l.
Proof. induction l as [|x l IH]; simpl; [done|]. by rewrite insert_by_perm, IH. Qed.

(** Rows already in order are returned as they are. *)
Lemma order_by_sorted {A} (key : A → Z) l :
  (∀ i j x y, l !! i = Some x → l !! j = Some y → i < j → (key x <= key y)%Z) →
  order_by key l = l.
Proof.
  induction l as [|x l IH]; intros Hs; simpl; [done|].
  rewrite IH by (intros i j a b Ha Hb Hij; apply (Hs (S i) (S j)); simpl; (done || lia)).
  destruct l as [|y l]; [done|]. simpl.
  assert (key x <= key y)%Z by (apply (Hs 0 1); (done || lia)).
  destruct (Z.leb_spec (key x) (key y)); [done|lia].
Qed.

Lemma nodup_fmap_snoc {A B} (f : A → B) l x :
  NoDup (f <$> l) → (∀ o, o ∈ l → f o ≠ f x) → NoDup (f <$> (l ++ [x])%list).
Proof.
  intros Hl Hx. rewrite fmap_app. simpl. apply list.NoDup_app.
  split_and!; [done| |by apply NoDup_singleton].
  intros y Hy. rewrite list_elem_of_singleton. intros ->.
  apply list_elem_of_fmap in Hy as (o & Heq & Hin). by eapply (Hx o).
Qed.

(** ** Automation *)

Create HintDb watcher discriminated.
#[export] Hint Resolve max0_ge : watcher.

(** Peel one monadic layer of a hypothesis [... = Ret v]. *)
Ltac peel_in H :=
  match type of H with
  | (require ?b ?e ≫= _) = Ret _ =>
      let u := fresh "u" in let Hb := fresh "Hreq" in
      apply bind_ret_inv in H as (u & Hb & H); apply require_ret_inv in Hb
  | (require_some ?o ?e ≫= _) = Ret _ =>
      let a := fresh "a" in let Ha := fresh "Hsome" in
      apply bind_ret_inv in H as (a & Ha & H); apply require_some_ret_inv in Ha
  | (_ ≫= _) = Ret _ =>
      let a := fresh "a" in let Ha := fresh "Hbind" in
      apply bind_ret_inv in H as (a & Ha & H)
  | Ret _ = Ret _ => injection H as H
  | Raise _ = Ret _ => discriminate H
  | (match ?x with _ => _ end) = Ret _ =>
      let E := fresh "E" in destruct x eqn:E; try discriminate H
  end.

Ltac peel := repeat match goal with
  | H : _ = Ret _ |- _ => progress (peel_in H; try (lazy beta zeta iota in H))
  end.

(** Turn boolean guards into propositions. *)
Ltac bools := repeat match goal with
  | H : (_ && _) = true |- _ => apply andb_prop in H as [? ?]
  | H : (_ || _) = false |- _ => apply orb_false_elim in H as [? ?]
  | H : negb _ = true |- _ => apply negb_true_iff in H
  | H : negb _ = false |- _ => apply negb_false_iff in H
  | H : truthy _ = true |- _ => apply bool_decide_eq_true_1 in H
  | H : truthy _ = false |- _ => apply bool_decide_eq_false_1 in H
  | H : bool_decide _ = true |- _ => apply bool_decide_eq_true_1 in H
  | H : bool_decide _ = false |- _ => apply bool_decide_eq_false_1 in H
  end.
