(* ===== verification/Text.v ===== *)
(** * Text: UTF-8 sizes and the string operations the components share

    Models [src/src/eom_email_watcher/text.py] ([utf8_size],
    [within_utf8_bytes]) and the byte-bounded display name of
    [config.py] ([admission_sender_display_name]), over the UTF-8 codec of the
    language, which is defined here: encoding fails on a surrogate, and decoding
    with [errors="ignore"] drops every byte that starts no valid sequence. *)

From S2P Require Export Prelude.
From stdpp Require Import options.

Local Open Scope N_scope.

Module Utf8.

(** The bytes of one code point, [None] for a surrogate or a value above
    U+10FFFF. *)
Definition encode_char (c : N) : option bytes :=
  if c <? 128 then Some [c]
  else if c <? 2048 then Some [192 + c / 64; 128 + c mod 64]
  else if (55296 <=? c) && (c <=? 57343) then None
  else if c <? 65536 then
    Some [224 + c / 4096; 128 + c / 64 mod 64; 128 + c mod 64]
  else if c <? 1114112 then
    Some [240 + c / 262144; 128 + c / 4096 mod 64; 128 + c / 64 mod 64; 128 + c mod 64]
  else None.

(** [value.encode("utf-8")]; [None] is [UnicodeEncodeError]. *)
Fixpoint encode (t : text) : option bytes :=
  match t with
  | [] => Some []
  | c :: t' =>
      match encode_char c, encode t' with
      | Some b, Some bs => Some (b ++ bs)%list
      | _, _ => None
      end
  end.

(** The code point a leading sequence of [k] bytes would denote; an
    out-of-range value when fewer bytes are left. *)
Definition candidate (bs : bytes) (k : nat) : N :=
  match k, bs with
  | 1%nat, a :: _ => a
  | 2%nat, a :: b :: _ => (a - 192) * 64 + (b - 128)
  | 3%nat, a :: b :: c :: _ => (a - 224) * 4096 + (b - 128) * 64 + (c - 128)
  | 4%nat, a :: b :: c :: d :: _ =>
      (a - 240) * 262144 + (b - 128) * 4096 + (c - 128) * 64 + (d - 128)
  | _, _ => 1114112
  end.

(** The first [k] bytes are the canonical encoding of their code point. *)
Definition sequence_ok (bs : bytes) (k : nat) : bool :=
  bool_decide (encode_char (candidate bs k) = Some (take k bs)).

(** One decoding step: the code point and the number of bytes it uses. *)
Definition decode_char (bs : bytes) : option (N * nat) :=
  if sequence_ok bs 1 then Some (candidate bs 1, 1%nat)
  else if sequence_ok bs 2 then Some (candidate bs 2, 2%nat)
  else if sequence_ok bs 3 then Some (candidate bs 3, 3%nat)
  else if sequence_ok bs 4 then Some (candidate bs 4, 4%nat)
  else None.

(** [bs.decode("utf-8", errors="ignore")]: [skip] counts the bytes of the
    current character still to be passed over. *)
Fixpoint decode_ignore_from (skip : nat) (bs : bytes) : text :=
  match bs with
  | [] => []
  | b :: bs' =>
      match skip with
      | S k => decode_ignore_from k bs'
      | O =>
          match decode_char bs with
          | Some (c, k) => c :: decode_ignore_from (k - 1) bs'
          | None => decode_ignore_from O bs'
          end
      end
  end.

Definition decode_ignore (bs : bytes) : text := decode_ignore_from O bs.

(** Longest prefix of [t] whose characters fit in [n] bytes. *)
Fixpoint prefix_within (n : nat) (t : text) : text :=
  match t with
  | [] => []
  | c :: t' =>
      match encode_char c with
      | Some b =>
          if decide (length b <= n)%nat then c :: prefix_within (n - length b) t' else []
      | None => []
      end
  end.

End Utf8.

(** [text.py: utf8_size] *)
Definition utf8_size (value : text) : option nat :=
  match Utf8.encode value with
  | Some bs => Some (length bs)
  | None => None
  end.

(** [text.py: within_utf8_bytes] *)
Definition within_utf8_bytes (value : text) (maximum : nat) : bool :=
  match utf8_size value with
  | Some size => bool_decide (size <= maximum)%nat
  | None => false
  end.

(** [config.py: admission_sender_display_name], with its bound
    [MAX_SENDER_NAME_BYTES] as an argument of the helper. *)
Definition MAX_SENDER_NAME_BYTES : nat := 1024.

Definition admission_sender_display_name (value : option text) : option text :=
  match value with
  | None => None
  | Some v =>
      match Utf8.encode v with
      | None => None
      | Some encoded =>
          if decide (length encoded <= MAX_SENDER_NAME_BYTES)%nat then Some v
          else Some (Utf8.decode_ignore (take MAX_SENDER_NAME_BYTES encoded))
      end
  end.

(** ** String methods *)

Fixpoint starts_with (value prefix : text) : bool :=
  match prefix, value with
  | [], _ => true
  | p :: prefix', v :: value' => bool_decide (p = v) && starts_with value' prefix'
  | _ :: _, [] => false
  end.

(** [needle in value] *)
Fixpoint contains (value needle : text) : bool :=
  starts_with value needle ||
  match value with
  | [] => false
  | _ :: value' => contains value' needle
  end.

Definition ends_with (value suffix : text) : bool :=
  starts_with (reverse value) (reverse suffix).

(** [value.split(sep)] for a one-character separator. *)
Fixpoint split_on (sep : N) (value : text) : list text :=
  match value with
  | [] => [[]]
  | c :: value' =>
      if decide (c = sep) then [] :: split_on sep value'
      else match split_on sep value' with
           | [] => [[c]]
           | w :: ws => (c :: w) :: ws
           end
  end.

(** [value.rpartition(sep)]: head, found, tail; ([""], [false], [value]) when
    the separator is absent. *)
Fixpoint rpartition (sep : N) (value : text) : text * bool * text :=
  match value with
  | [] => ([], false, [])
  | c :: value' =>
      let '(head, found, tail) := rpartition sep value' in
      if found then (c :: head, true, tail)
      else if decide (c = sep) then ([], true, value')
      else ([], false, c :: tail)
  end.

(** [value.rsplit(sep, 1)[-1]] *)
Definition rsplit_last (sep : N) (value : text) : text := (rpartition sep value).2.

Fixpoint join (sep : text) (items : list text) : text :=
  match items with
  | [] => []
  | [x] => x
  | x :: rest => (x ++ sep ++ join sep rest)%list
  end.

(** [str(n)] for a natural number: decimal digits, most significant first. *)
Fixpoint decimal_fuel (fuel : nat) (n : N) (acc : text) : text :=
  match fuel with
  | O => acc
  | S fuel' =>
      let acc' := (48 + n mod 10) :: acc in
      if n <? 10 then acc' else decimal_fuel fuel' (n / 10) acc'
  end.

Definition decimal (n : N) : text := decimal_fuel (S (N.to_nat (N.size n))) n [].

Definition is_digit (c : N) : bool := (48 <=? c) && (c <=? 57).

Definition is_lower_hex (c : N) : bool :=
  is_digit c || ((97 <=? c) && (c <=? 102)).

Definition is_hex (c : N) : bool :=
  is_lower_hex c || ((65 <=? c) && (c <=? 70)).

(** ** The Unicode database

    Case folding and the character classes come from the interpreter's Unicode
    tables; the definitions that use them take them as a parameter. *)
Class Unicode := {
  uni_casefold : text → text;
  uni_isspace : N → bool;
  uni_isprintable : N → bool;
  uni_isalnum : N → bool;
  uni_islower : N → bool;
  (** the value of a decimal digit, [\d] in a pattern *)
  uni_decimal : N → option N }.

(** [value.strip()] *)
Fixpoint lstrip `{Unicode} (t : text) : text :=
  match t with
  | [] => []
  | c :: t' => if uni_isspace c then lstrip t' else t
  end.

Definition strip `{Unicode} (t : text) : text := reverse (lstrip (reverse (lstrip t))).

(** The ASCII fragment, used to evaluate the model on concrete inputs. *)
Definition ascii_lower (c : N) : N := if (65 <=? c) && (c <=? 90) then c + 32 else c.

Definition ascii_unicode : Unicode := {|
  uni_casefold := List.map ascii_lower;
  uni_isspace := fun c => ((9 <=? c) && (c <=? 13)) || ((28 <=? c) && (c <=? 32));
  uni_isprintable := fun c => (32 <=? c) && (c <=? 126);
  uni_isalnum := fun c => is_digit c || ((65 <=? c) && (c <=? 90)) || ((97 <=? c) && (c <=? 122));
  uni_islower := fun c => (97 <=? c) && (c <=? 122);
  uni_decimal := fun c => if is_digit c then Some (c - 48) else None |}.

(** ** Facts *)

Lemma utf8_encode_char_length c b : Utf8.encode_char c = Some b → (1 <= length b <= 4)%nat.
Proof.
  unfold Utf8.encode_char. repeat case_match; intros; simplify_eq; simpl; lia.
Qed.

Lemma utf8_encode_app t1 t2 b1 b2 :
  Utf8.encode t1 = Some b1 → Utf8.encode t2 = Some b2 →
  Utf8.encode (t1 ++ t2) = Some (b1 ++ b2)%list.
Proof.
  revert b1. induction t1 as [|c t1 IH]; simpl; intros b1 H1 H2; simplify_eq; [done|].
  destruct (Utf8.encode_char c) as [b|]; [|done].
  destruct (Utf8.encode t1) as [bs|]; [|done]. simplify_eq.
  rewrite (IH bs eq_refl H2). by rewrite app_assoc.
Qed.

(** The size of encodable text is the sum of the character widths, so it lies
    between the number of characters and four times that number. *)
Lemma utf8_size_bounds t n : utf8_size t = Some n → (length t <= n <= 4 * length t)%nat.
Proof.
  unfold utf8_size. destruct (Utf8.encode t) as [bs|] eqn:E; [|done]. intros [= <-].
  revert bs E. induction t as [|c t IH]; simpl; intros bs E; simplify_eq/=; [lia|].
  destruct (Utf8.encode_char c) as [b|] eqn:Ec; [|done].
  destruct (Utf8.encode t) as [bs'|]; [|done]. simplify_eq.
  rewrite length_app. apply utf8_encode_char_length in Ec. specialize (IH _ eq_refl). lia.
Qed.

Local Ltac Zify.zify_post_hook ::= Z.to_euclidean_division_equations.

Lemma cancel_lead (a b : N) : a + b - a = b.
Proof. lia. Qed.

(** A code point is recovered from its base-64 digits. *)
Lemma base64_digits c :
  c = c / 64 * 64 + c mod 64 ∧
  c = c / 4096 * 4096 + c / 64 mod 64 * 64 + c mod 64 ∧
  c = c / 262144 * 262144 + c / 4096 mod 64 * 4096 + c / 64 mod 64 * 64 + c mod 64.
Proof.
  assert (c / 4096 = c / 64 / 64) as -> by (rewrite N.Div0.div_div; reflexivity).
  assert (c / 262144 = c / 64 / 64 / 64) as -> by (rewrite !N.Div0.div_div; reflexivity).
  pose proof (N.Div0.div_mod c 64) as H1. pose proof (N.Div0.div_mod (c / 64) 64) as H2.
  pose proof (N.Div0.div_mod (c / 64 / 64) 64) as H3.
  revert H1 H2 H3. generalize (c / 64 / 64 / 64) (c / 64 / 64 mod 64) (c / 64 / 64).
  generalize (c / 64 mod 64) (c / 64) (c mod 64). intros. lia.
Qed.

Lemma candidate_encode c b rest :
  Utf8.encode_char c = Some b → Utf8.candidate (b ++ rest)%list (length b) = c.
Proof.
  pose proof (base64_digits c) as (E2 & E3 & E4). unfold Utf8.encode_char.
  repeat case_match; intros; simplify_eq; simpl; rewrite ?cancel_lead; done.
Qed.

Lemma sequence_ok_true b rest c :
  Utf8.encode_char c = Some b → Utf8.sequence_ok (b ++ rest)%list (length b) = true.
Proof.
  intros H. unfold Utf8.sequence_ok. rewrite (candidate_encode _ _ _ H), H.
  rewrite take_app_length. by apply bool_decide_eq_true_2.
Qed.

(** The first byte of an encoding determines its length. *)
Definition lead_length (a : N) : nat :=
  if a <? 128 then 1 else if a <? 192 then 0 else if a <? 224 then 2
  else if a <? 240 then 3 else 4.

Lemma encode_char_lead c b : Utf8.encode_char c = Some b →
  ∃ a b', b = a :: b' ∧ lead_length a = length b.
Proof.
  unfold Utf8.encode_char, lead_length. repeat case_match; intros; simplify_eq;
    eexists _, _; (split; [done|]); simpl; repeat case_match; try done; lia.
Qed.

Lemma candidate_short a bs k :
  (length bs < k)%nat → Utf8.candidate (a :: bs) (S k) = 1114112.
Proof.
  intros. destruct k as [|[|[|[|k]]]], bs as [|? [|? [|? ?]]]; simpl in *; done || lia.
Qed.

Lemma sequence_ok_lead a bs k :
  Utf8.sequence_ok (a :: bs) (S k) = true → lead_length a = S k.
Proof.
  unfold Utf8.sequence_ok. intros H%bool_decide_eq_true_1.
  pose proof (encode_char_lead _ _ H) as (a' & b' & Hb & Hl).
  simpl in Hb. simplify_eq. rewrite Hl. simpl.
  pose proof (utf8_encode_char_length _ _ H) as Hlen. simpl in Hlen.
  rewrite length_take in *.
  destruct (decide (k <= length bs)%nat); [lia|].
  exfalso. rewrite candidate_short in H by lia. done.
Qed.

Lemma decode_char_encode c b rest :
  Utf8.encode_char c = Some b → Utf8.decode_char (b ++ rest)%list = Some (c, length b).
Proof.
  intros H. pose proof (encode_char_lead _ _ H) as (a & b' & -> & Hl).
  pose proof (sequence_ok_true _ rest _ H) as Hok.
  pose proof (candidate_encode _ _ rest H) as Hc.
  assert (∀ k, S k ≠ lead_length a →
    Utf8.sequence_ok (a :: b' ++ rest)%list (S k) = false) as Hother.
  { intros k Hk. destruct (Utf8.sequence_ok (a :: b' ++ rest)%list (S k)) eqn:E; [|done].
    apply sequence_ok_lead in E. congruence. }
  pose proof (utf8_encode_char_length _ _ H) as Hlen.
  unfold Utf8.decode_char. simpl app in *. rewrite <- Hl in *.
  assert (lead_length a = 1 ∨ lead_length a = 2 ∨ lead_length a = 3 ∨ lead_length a = 4)%nat
    as [E|[E|[E|E]]] by lia; rewrite E in *;
    rewrite ?(Hother 0%nat), ?(Hother 1%nat), ?(Hother 2%nat) by done;
    rewrite Hok, Hc; done.
Qed.

Lemma decode_ignore_skip n bs :
  Utf8.decode_ignore_from n bs = Utf8.decode_ignore_from 0 (drop n bs).
Proof.
  revert n. induction bs as [|b bs IH]; intros [|n]; try done. simpl. apply IH.
Qed.

Lemma decode_ignore_app c b rest :
  Utf8.encode_char c = Some b →
  Utf8.decode_ignore (b ++ rest)%list = c :: Utf8.decode_ignore rest.
Proof.
  intros H. pose proof (decode_char_encode _ _ rest H) as Hd.
  pose proof (encode_char_lead _ _ H) as (a & b' & -> & Hl).
  unfold Utf8.decode_ignore. simpl app in *. simpl. rewrite Hd.
  rewrite decode_ignore_skip. simpl. rewrite Nat.sub_0_r, drop_app_length. done.
Qed.

Lemma continuation_lead y : lead_length (128 + y mod 64) = 0%nat.
Proof. pose proof (N.mod_lt y 64). unfold lead_length. repeat case_match; lia. Qed.

(** Every byte of a multi-byte encoding after the first is a continuation
    byte, which starts no sequence. *)
Lemma encode_char_tail c a b' :
  Utf8.encode_char c = Some (a :: b') → Forall (λ x, lead_length x = 0%nat) b'.
Proof.
  unfold Utf8.encode_char. repeat case_match; intros; simplify_eq;
    repeat constructor; apply continuation_lead.
Qed.

Lemma decode_char_none a bs :
  (∀ k, lead_length a = S k → (length bs < k)%nat) → Utf8.decode_char (a :: bs) = None.
Proof.
  intros Hk. unfold Utf8.decode_char.
  assert (∀ k, Utf8.sequence_ok (a :: bs) (S k) = false) as Hok.
  { intros k. destruct (Utf8.sequence_ok _ _) eqn:E; [|done].
    pose proof (sequence_ok_lead _ _ _ E) as Hl. specialize (Hk _ Hl).
    unfold Utf8.sequence_ok in E. apply bool_decide_eq_true_1 in E.
    pose proof (encode_char_lead _ _ E) as (a' & b' & Hb & Hl'). simpl in Hb. simplify_eq.
    rewrite Hl' in Hl. simpl in Hl. rewrite length_take in Hl. lia. }
  by rewrite !Hok.
Qed.

Lemma decode_ignore_continuations bs :
  Forall (λ x, lead_length x = 0%nat) bs → Utf8.decode_ignore bs = [].
Proof.
  unfold Utf8.decode_ignore. induction 1 as [|b bs Hb _ IH]; [done|]. simpl.
  rewrite decode_char_none; [done|]. intros k Hk. by rewrite Hb in Hk.
Qed.

(** A truncated encoding of one character decodes to nothing. *)
Lemma decode_ignore_truncated c b n :
  Utf8.encode_char c = Some b → (n < length b)%nat → Utf8.decode_ignore (take n b) = [].
Proof.
  intros H Hn. pose proof (encode_char_lead _ _ H) as (a & b' & -> & Hl).
  destruct n as [|n]; [done|]. unfold Utf8.decode_ignore. simpl.
  rewrite decode_char_none.
  - apply decode_ignore_continuations, Forall_take. by eapply encode_char_tail.
  - intros k Hk. rewrite length_take. simpl in *. lia.
Qed.

(** Decoding a byte prefix of an encoding with errors ignored yields the
    longest character prefix that fits. *)
Lemma decode_ignore_take t bs n :
  Utf8.encode t = Some bs → Utf8.decode_ignore (take n bs) = Utf8.prefix_within n t.
Proof.
  revert bs n. induction t as [|c t IH]; simpl; intros bs n H; simplify_eq.
  { by rewrite take_nil. }
  destruct (Utf8.encode_char c) as [b|] eqn:Ec; [|done].
  destruct (Utf8.encode t) as [bs'|]; [|done]. simplify_eq.
  rewrite take_app. case_decide.
  - rewrite take_ge by done. rewrite (decode_ignore_app _ _ _ Ec). f_equal. by apply IH.
  - replace (n - length b)%nat with 0%nat by lia.
    rewrite app_nil_r. eapply decode_ignore_truncated; [done|lia].
Qed.

Lemma prefix_within_prefix n t : Utf8.prefix_within n t `prefix_of` t.
Proof.
  revert n. induction t as [|c t IH]; intros n; simpl; [done|].
  repeat case_match; try apply prefix_nil. by apply prefix_cons.
Qed.

Lemma prefix_within_size n t bs :
  Utf8.encode t = Some bs → within_utf8_bytes (Utf8.prefix_within n t) n = true.
Proof.
  intros H. unfold within_utf8_bytes, utf8_size.
  assert (∃ b, Utf8.encode (Utf8.prefix_within n t) = Some b ∧ (length b <= n)%nat)
    as (b & -> & Hb); [|by apply bool_decide_eq_true_2].
  revert bs n H. induction t as [|c t IH]; simpl; intros bs n H; simplify_eq.
  { exists []. simpl. split; [done|lia]. }
  destruct (Utf8.encode_char c) as [b|] eqn:Ec; [|done].
  destruct (Utf8.encode t) as [bs'|]; [|done]. simplify_eq.
  case_decide; [|exists []; simpl; split; [done|lia]].
  destruct (IH _ (n - length b)%nat eq_refl) as (b2 & E2 & Hlen).
  exists (b ++ b2)%list. simpl. rewrite Ec, E2. split; [done|]. rewrite length_app. lia.
Qed.
