(* ===== verification/Float64.v ===== *)
(** * Python floats: binary64 values, [float(literal)] and [repr]

    A float is a [spec_float] of precision 53 and exponent bound 1024.  A JSON
    number literal is rounded to the nearest value, ties to even ([of_decimal]);
    [float_repr] is the shortest decimal literal that reads back as the value, in
    the layout of [float.__repr__] with the names [json.dumps] gives to the
    infinities and to not-a-number. *)

From Stdlib Require Export SpecFloat.
From S2P Require Export Text.
From stdpp Require Import options.

Local Open Scope Z_scope.

Abbreviation float64 := spec_float.

Global Instance spec_float_eq_dec : EqDecision spec_float.
Proof. solve_decision. Defined.

Module Float64.

Definition prec : Z := 53.
Definition emax : Z := 1024.

(** [m * 10^e], correctly rounded.  Beyond these exponents the result no longer
    depends on the exponent, so that powers stay small. *)
Definition of_decimal (negative : bool) (m : N) (e : Z) : float64 :=
  match m with
  | N0 => S754_zero negative
  | Npos p =>
      let magnitude := e + Z.of_nat (length (decimal m)) in
      if 310 <? magnitude then S754_infinity negative
      else if magnitude <? -330 then S754_zero negative
      else if 0 <=? e then
        binary_normalize prec emax ((if negative then -1 else 1) * Zpos p * 10 ^ e) 0 negative
      else
        let '(q, e', loc) := SFdiv_core_binary prec emax (Zpos p) 0 (10 ^ (- e)) 0 in
        binary_round_aux prec emax negative q e' loc
  end.

(** Numerator and denominator of [m * 2^e * 10^s]. *)
Definition scaled (m : positive) (e s : Z) : Z * Z :=
  (Zpos m * 2 ^ Z.max e 0 * 10 ^ Z.max s 0, 2 ^ Z.max (- e) 0 * 10 ^ Z.max (- s) 0).

(** The number [k] with [10^(k-1) <= m * 2^e < 10^k], from an estimate that is
    off by at most one. *)
Definition decimal_point (m : positive) (e : Z) : Z :=
  let est := (Zpos (digits2_pos m) - 1 + e) * 30103 / 100000 + 1 in
  let '(a, b) := scaled m e (1 - est) in
  let '(c, d) := scaled m e (- est) in
  if a <? b then est - 1 else if d <=? c then est + 1 else est.

(** The candidate literals of [n] significant digits around the value: the one
    that reads back as the value and is nearest to it. *)
Definition digits_within (m : positive) (e : Z) (k : Z) (n : Z) : option N :=
  let '(a, b) := scaled m e (n - k) in
  let d := a / b in
  let reads x := bool_decide (of_decimal false (Z.to_N x) (k - n) = S754_finite false m e) in
  let below := 2 * (a - d * b) in
  match reads d, reads (d + 1) with
  | true, false => Some (Z.to_N d)
  | false, true => Some (Z.to_N (d + 1))
  | true, true =>
      if (below <? b) || ((below =? b) && Z.even d) then Some (Z.to_N d) else Some (Z.to_N (d + 1))
  | false, false => None
  end.

Fixpoint shortest (m : positive) (e k : Z) (n : Z) (fuel : nat) : N * Z :=
  match fuel with
  | O => (0%N, 0)
  | S fuel' =>
      match digits_within m e k n with
      | Some d => (d, n)
      | None => shortest m e k (n + 1) fuel'
      end
  end.

Definition zeros (n : Z) : text := repeat 48%N (Z.to_nat n).

Fixpoint strip_zeros (reversed : text) : text :=
  match reversed with
  | [] => []
  | c :: rest =>
      if bool_decide (c = 48%N) && truthy rest then strip_zeros rest else reversed
  end.

(** The layout of [float.__repr__]: digits [ds] with the point after [decpt] of
    them. *)
Definition layout (ds : text) (decpt : Z) : text :=
  let n := Z.of_nat (length ds) in
  if (-4 <? decpt) && (decpt <=? 16) then
    if decpt <=? 0 then (str "0." ++ zeros (- decpt) ++ ds)%list
    else if decpt <? n then
      (take (Z.to_nat decpt) ds ++ str "." ++ drop (Z.to_nat decpt) ds)%list
    else (ds ++ zeros (decpt - n) ++ str ".0")%list
  else
    let exponent := decpt - 1 in
    let shown := decimal (Z.to_N (Z.abs exponent)) in
    (take 1 ds ++ (if 1 <? n then str "." ++ drop 1 ds else []) ++ str "e"
       ++ (if exponent <? 0 then str "-" else str "+")
       ++ (if Z.of_nat (length shown) <? 2 then str "0" else []) ++ shown)%list.

Definition float_repr (f : float64) : text :=
  match f with
  | S754_zero s => if s then str "-0.0" else str "0.0"
  | S754_infinity s => if s then str "-Infinity" else str "Infinity"
  | S754_nan => str "NaN"
  | S754_finite s m e =>
      let k := decimal_point m e in
      let '(d, n) := shortest m e k 1 17 in
      let ds := decimal d in
      let decpt := k - n + Z.of_nat (length ds) in
      ((if s then str "-" else []) ++ layout (reverse (strip_zeros (reverse ds))) decpt)%list
  end.

End Float64.

Example float_repr_tenth : Float64.float_repr (Float64.of_decimal false 1 (-1)) = str "0.1".
Proof. vm_compute. reflexivity. Qed.

Example float_repr_small :
  Float64.float_repr (Float64.of_decimal true 49406564584124654 (-340)) = str "-5e-324".
Proof. vm_compute. reflexivity. Qed.

Example float_repr_large :
  Float64.float_repr (Float64.of_decimal false 17976931348623157 292) = str "1.7976931348623157e+308".
Proof. vm_compute. reflexivity. Qed.
