(* ===== verification/Sha256.v ===== *)
(** * SHA-256: [hashlib.sha256(data).hexdigest()]

    The digest the stores key and bind records with ([_message_suppression_key],
    the proposal hash, the extraction result hash), as FIPS 180-4 defines it,
    on lists of bytes, with 32-bit words kept below 2^32. *)

From S2P Require Export Text.
From stdpp Require Import options.

Local Open Scope N_scope.

Module Sha256.

Definition w32 (x : N) : N := N.land x 4294967295.
Definition add32 (x y : N) : N := w32 (x + y).
Definition not32 (x : N) : N := N.lxor x 4294967295.
Definition rotr (n x : N) : N := w32 (N.lor (N.shiftr x n) (N.shiftl x (32 - n))).

Definition ch (x y z : N) : N := N.lxor (N.land x y) (N.land (not32 x) z).
Definition maj (x y z : N) : N := N.lxor (N.lxor (N.land x y) (N.land x z)) (N.land y z).
Definition Sigma0 (x : N) : N := N.lxor (N.lxor (rotr 2 x) (rotr 13 x)) (rotr 22 x).
Definition Sigma1 (x : N) : N := N.lxor (N.lxor (rotr 6 x) (rotr 11 x)) (rotr 25 x).
Definition sigma0 (x : N) : N := N.lxor (N.lxor (rotr 7 x) (rotr 18 x)) (N.shiftr x 3).
Definition sigma1 (x : N) : N := N.lxor (N.lxor (rotr 17 x) (rotr 19 x)) (N.shiftr x 10).

(** The round constants are the first 32 bits of the fractional parts of the cube
    roots of the first 64 primes, the initial state those of the square roots of
    the first 8. *)
Definition prime (n : nat) : bool :=
  forallb (fun d => negb (Nat.eqb (Nat.modulo n d) 0)) (seq 2 (n - 2)).

Definition primes (bound : nat) : list N :=
  N.of_nat <$> List.filter prime (seq 2 bound).

(** The largest [r + s], [s < 2^k], whose cube is at most [x]. *)
Fixpoint cube_root_from (k : nat) (r x : N) : N :=
  match k with
  | O => r
  | S k' =>
      let r' := r + N.shiftl 1 (N.of_nat k') in
      cube_root_from k' (if r' * r' * r' <=? x then r' else r) x
  end.

Definition K : list N := Eval vm_compute in
  (fun p => w32 (cube_root_from 36 0 (N.shiftl p 96))) <$> primes 310.

Definition H0 : list N := Eval vm_compute in
  (fun p => w32 (N.sqrt (N.shiftl p 64))) <$> primes 18.

(** Big-endian bytes of a [k]-byte word. *)
Fixpoint be_bytes (k : nat) (x : N) : bytes :=
  match k with
  | O => []
  | S k' => N.land (N.shiftr x (8 * N.of_nat k')) 255 :: be_bytes k' x
  end.

Definition pad (data : bytes) : bytes :=
  let len := N.of_nat (length data) in
  let zeros := N.to_nat ((119 - len mod 64) mod 64) in
  (data ++ [128] ++ replicate zeros 0 ++ be_bytes 8 (8 * len))%list.

Fixpoint words (data : bytes) : list N :=
  match data with
  | a :: b :: c :: d :: rest =>
      N.lor (N.shiftl a 24) (N.lor (N.shiftl b 16) (N.lor (N.shiftl c 8) d)) :: words rest
  | _ => []
  end.

(** The message schedule, kept newest first: [n] more words. *)
Fixpoint schedule (n : nat) (ws : list N) : list N :=
  match n with
  | O => ws
  | S n' =>
      let w i := nth i ws 0 in
      schedule n'
        (add32 (add32 (sigma1 (w 1%nat)) (w 6%nat)) (add32 (sigma0 (w 14%nat)) (w 15%nat)) :: ws)
  end.

Definition round (st : list N) (kw : N * N) : list N :=
  match st with
  | [a; b; c; d; e; f; g; h] =>
      let t1 := add32 (add32 h (Sigma1 e)) (add32 (ch e f g) (add32 kw.1 kw.2)) in
      let t2 := add32 (Sigma0 a) (maj a b c) in
      [add32 t1 t2; a; b; c; add32 d t1; e; f; g]
  | _ => st
  end.

Definition compress (st : list N) (block : list N) : list N :=
  let ws := reverse (schedule 48 (reverse block)) in
  zip_with add32 st (foldl round st (zip K ws)).

Fixpoint blocks (fuel : nat) (st : list N) (ws : list N) : list N :=
  match fuel, ws with
  | S fuel', _ :: _ => blocks fuel' (compress st (take 16 ws)) (drop 16 ws)
  | _, _ => st
  end.

Definition digest (data : bytes) : bytes :=
  let ws := words (pad data) in
  flat_map (be_bytes 4) (blocks (length ws) H0 ws).

Definition hex_digit (d : N) : N := if d <? 10 then 48 + d else 87 + d.

Definition hexdigest (data : bytes) : text :=
  flat_map (fun b => [hex_digit (N.shiftr b 4); hex_digit (N.land b 15)]) (digest data).

End Sha256.

(** FIPS test vectors. *)
Example sha256_empty :
  Sha256.hexdigest [] =
  str "e3b0c44298fc1c149afbf4c8996fb92427ae41e4649b934ca495991b7852b855".
Proof. vm_compute. reflexivity. Qed.

Example sha256_abc :
  Sha256.hexdigest (str "abc") =
  str "ba7816bf8f01cfea414140de5dae2223b00361a396177a9cb410ff61f20015ad".
Proof. vm_compute. reflexivity. Qed.

Example sha256_two_blocks :
  Sha256.hexdigest (str "abcdbcdecdefdefgefghfghighijhijkijkljklmklmnlmnomnopnopq") =
  str "248d6a61d20638b8e5c026930c3e6039a33ce45964ff2167f6ecedd419db06c1".
Proof. vm_compute. reflexivity. Qed.

(** A hex digest has 64 characters, all lower-case hexadecimal. *)
Lemma blocks_length fuel st ws :
  length st = 8%nat → length (Sha256.blocks fuel st ws) = 8%nat.
Proof.
  revert st ws. induction fuel as [|fuel IH]; intros st ws Hst; simpl; [done|].
  destruct ws as [|w ws]; [done|]. apply IH. unfold Sha256.compress.
  rewrite length_zip_with.
  assert (∀ kws st', length st' = 8%nat → length (foldl Sha256.round st' kws) = 8%nat) as Hr.
  { induction kws as [|kw kws IHk]; intros st' Hst'; simpl; [done|]. apply IHk.
    do 9 (destruct st' as [|? st']; try done). }
  rewrite Hr; lia.
Qed.

Lemma digest_length data : length (Sha256.digest data) = 32%nat.
Proof.
  unfold Sha256.digest.
  pose proof (blocks_length (length (Sha256.words (Sha256.pad data))) Sha256.H0
    (Sha256.words (Sha256.pad data)) eq_refl) as Hl.
  revert Hl. generalize (Sha256.blocks (length (Sha256.words (Sha256.pad data))) Sha256.H0
    (Sha256.words (Sha256.pad data))). intros st Hst.
  do 9 (destruct st as [|? st]; try done).
Qed.

Lemma flat_map_pair_length {A B} (f g : A → B) l :
  length (flat_map (fun b => [f b; g b]) l) = (2 * length l)%nat.
Proof. induction l as [|a l IH]; simpl; [done|]. rewrite IH. lia. Qed.

Lemma hexdigest_length data : length (Sha256.hexdigest data) = 64%nat.
Proof.
  unfold Sha256.hexdigest. rewrite flat_map_pair_length, digest_length. done.
Qed.
#[export] Hint Resolve hexdigest_length : watcher.
