(* ===== verification/Json.v ===== *)
(** * JSON values and [json.dumps]

    The canonical encodings the program hashes and stores:
    [json.dumps(value, ensure_ascii=False, separators=(",", ":"))], with and
    without [sort_keys=True]. *)

From S2P Require Export Text Float64.
From stdpp Require Import options.

Local Open Scope N_scope.

Inductive json :=
| JNull
| JBool (b : bool)
| JInt (z : Z)
| JFloat (f : float64)
| JStr (t : text)
| JArr (items : list json)
| JObj (members : list (text * json)).

(** Order of object keys under [sort_keys]: code points, lexicographically. *)
Fixpoint text_ltb (a b : text) : bool :=
  match a, b with
  | [], [] => false
  | [], _ :: _ => true
  | _ :: _, [] => false
  | x :: a', y :: b' => (x <? y) || ((x =? y) && text_ltb a' b')
  end.

Fixpoint insert_key {A} (m : text * A) (l : list (text * A)) : list (text * A) :=
  match l with
  | [] => [m]
  | n :: l' => if text_ltb n.1 m.1 then n :: insert_key m l' else m :: l
  end.

Definition sort_members {A} (l : list (text * A)) : list (text * A) :=
  foldr insert_key [] l.

Definition hex4 (c : N) : text :=
  let d k := let x := N.land (N.shiftr c (4 * k)) 15 in if x <? 10 then 48 + x else 87 + x in
  [d 3; d 2; d 1; d 0].

(** One character inside a string literal: [ensure_ascii=True] also escapes
    everything outside the printable ASCII range, astral characters as a
    surrogate pair. *)
Definition escape_char (ensure_ascii : bool) (c : N) : text :=
  if c =? 34 then [92; 34]
  else if c =? 92 then [92; 92]
  else if c =? 10 then [92; 110]
  else if c =? 13 then [92; 114]
  else if c =? 9 then [92; 116]
  else if c =? 12 then [92; 102]
  else if c =? 8 then [92; 98]
  else if c <? 32 then [92; 117] ++ hex4 c
  else if negb ensure_ascii || (c <? 127) then [c]
  else if c <? 65536 then [92; 117] ++ hex4 c
  else let v := c - 65536 in
       [92; 117] ++ hex4 (55296 + v / 1024) ++ [92; 117] ++ hex4 (56320 + v mod 1024).

Definition quoted (ensure_ascii : bool) (t : text) : text :=
  [34] ++ flat_map (escape_char ensure_ascii) t ++ [34].

Definition int_text (z : Z) : text :=
  match z with
  | Z0 => [48]
  | Zpos p => decimal (Npos p)
  | Zneg p => 45 :: decimal (Npos p)
  end.

Fixpoint dumps_with (ascii sort_keys : bool) (j : json) : text :=
  match j with
  | JNull => str "null"
  | JBool b => if b then str "true" else str "false"
  | JInt z => int_text z
  | JFloat f => Float64.float_repr f
  | JStr t => quoted ascii t
  | JArr items => [91] ++ join [44] (dumps_with ascii sort_keys <$> items) ++ [93]
  | JObj members =>
      let rendered := (fun m => (m.1, dumps_with ascii sort_keys m.2)) <$> members in
      let ordered := if sort_keys then sort_members rendered else rendered in
      [123] ++ join [44] ((fun m => quoted ascii m.1 ++ [58] ++ m.2) <$> ordered) ++ [125]
  end.

(** [json.dumps(j, ensure_ascii=False, separators=(",", ":"))] *)
Definition dumps (sort_keys : bool) (j : json) : text := dumps_with false sort_keys j.

(** [json.dumps(j, separators=(",", ":"), sort_keys=True)] *)
Definition ascii_dumps (j : json) : text := dumps_with true true j.

(** [dict[k] = v]: a key that is present keeps its position. *)
Fixpoint dict_set {A} (k : text) (v : A) (m : list (text * A)) : list (text * A) :=
  match m with
  | [] => [(k, v)]
  | (k', v') :: m' => if decide (k' = k) then (k', v) :: m' else (k', v') :: dict_set k v m'
  end.

Definition json_of_option {A} (f : A → json) (o : option A) : json :=
  match o with Some a => f a | None => JNull end.

Example dumps_sorted :
  dumps true (JObj [(str "b", JArr [JInt 1; JInt (-20); JNull]); (str "a", JStr (str "x"))])
  = str "{" ++ quoted false (str "a") ++ str ":" ++ quoted false (str "x") ++ str ","
    ++ quoted false (str "b") ++ str ":[1,-20,null]}".
Proof. reflexivity. Qed.
