(* ===== verification/JsonParse.v ===== *)
(** * [json.loads]

    The decoder of the standard library as its C scanner behaves: whitespace, the
    literals (the not-a-number and infinity names included), strict strings with
    their escapes and surrogate pairs, numbers with the 4300-digit limit of [int],
    objects whose last value of a key wins, and trailing data.  [loads_bytes] adds
    the detection of the encoding of a byte string.  Error messages are left out;
    the depth limit of the interpreter is not modelled. *)

From S2P Require Export Json.
From stdpp Require Import options.

Local Open Scope N_scope.

Module JsonParse.

Definition decode_error {A} : py A := Raise JSONDecodeError.

Definition is_ws (c : N) : bool :=
  bool_decide (c = 32) || bool_decide (c = 9) || bool_decide (c = 10) || bool_decide (c = 13).

Fixpoint skip_ws (t : text) : text :=
  match t with
  | [] => []
  | c :: t' => if is_ws c then skip_ws t' else t
  end.

(** The rest after a literal word. *)
Fixpoint after (word t : text) : option text :=
  match word, t with
  | [], _ => Some t
  | w :: word', c :: t' => if decide (w = c) then after word' t' else None
  | _ :: _, [] => None
  end.

Fixpoint digits (t : text) : text * text :=
  match t with
  | [] => ([], [])
  | c :: t' => if is_digit c then let '(a, b) := digits t' in (c :: a, b) else ([], t)
  end.

Definition number_of (ds : text) : N := fold_left (fun n c => 10 * n + (c - 48)) ds 0.

(** ** Strings *)

Definition hex_digit (c : N) : option N :=
  if is_digit c then Some (c - 48)
  else if (97 <=? c) && (c <=? 102) then Some (c - 87)
  else if (65 <=? c) && (c <=? 70) then Some (c - 55)
  else None.

(** Four hexadecimal digits and the rest. *)
Definition hex_quad (t : text) : option (N * text) :=
  match t with
  | a :: b :: c :: d :: t' =>
      match hex_digit a, hex_digit b, hex_digit c, hex_digit d with
      | Some a, Some b, Some c, Some d => Some (a * 4096 + b * 256 + c * 16 + d, t')
      | _, _, _, _ => None
      end
  | _ => None
  end.

Definition simple_escape (c : N) : option N :=
  if decide (c = 34) then Some 34
  else if decide (c = 92) then Some 92
  else if decide (c = 47) then Some 47
  else if decide (c = 98) then Some 8
  else if decide (c = 102) then Some 12
  else if decide (c = 110) then Some 10
  else if decide (c = 114) then Some 13
  else if decide (c = 116) then Some 9
  else None.

Definition is_high (c : N) : bool := (55296 <=? c) && (c <=? 56319).
Definition is_low (c : N) : bool := (56320 <=? c) && (c <=? 57343).
Definition join_pair (h l : N) : N := 65536 + (h - 55296) * 1024 + (l - 56320).

(** A [\u] escape, its first four digits still to be read: a high surrogate takes
    a low one that follows. *)
Definition unicode_escape (t : text) : option (N * text) :=
  '(c, t') ← hex_quad t;
  match after [92; 117] t' with
  | Some t'' =>
      if is_high c then
        '(c2, t3) ← hex_quad t'';
        Some (if is_low c2 then (join_pair c c2, t3) else (c, t'))
      else Some (c, t')
  | None => Some (c, t')
  end.

(** One character of a literal and the rest; [None] inside is the closing quote. *)
Definition scan_char (t : text) : option (option N * text) :=
  match t with
  | [] => None
  | c :: t' =>
      if decide (c = 34) then Some (None, t')
      else if decide (c = 92) then
        match t' with
        | [] => None
        | e :: t'' =>
            if decide (e = 117) then '(c, rest) ← unicode_escape t''; Some (Some c, rest)
            else c ← simple_escape e; Some (Some c, t'')
        end
      else if c <? 32 then None
      else Some (Some c, t')
  end.

(** [scanstring(s, end, strict=True)], after the opening quote. *)
Fixpoint scan_string (fuel : nat) (t : text) : option (text * text) :=
  match fuel with
  | O => None
  | S fuel' =>
      '(o, rest) ← scan_char t;
      match o with
      | None => Some ([], rest)
      | Some c => '(cs, rest') ← scan_string fuel' rest; Some (c :: cs, rest')
      end
  end.

Definition scanstring (t : text) : py (text * text) :=
  match scan_string (length t) t with Some r => Ret r | None => decode_error end.

(** ** Numbers *)

Definition INT_MAX_STR_DIGITS : nat := 4300.

(** The optional fraction: a point needs a digit after it. *)
Definition fraction (t : text) : text * text :=
  match after [46] t with
  | Some t' => match digits t' with ([], _) => ([], t) | r => r end
  | None => ([], t)
  end.

(** An optional sign: a plus only where [plus] allows one. *)
Definition sign (plus : bool) (t : text) : bool * text :=
  match after [45] t with
  | Some u => (true, u)
  | None =>
      match after [43] t with
      | Some u => (false, if plus then u else t)
      | None => (false, t)
      end
  end.

(** The optional exponent, likewise. *)
Definition exponent (t : text) : option Z * text :=
  match t with
  | c :: t' =>
      if bool_decide (c = 101) || bool_decide (c = 69) then
        let '(negative, t'') := sign true t' in
        match digits t'' with
        | ([], _) => (None, t)
        | (ds, rest) =>
            let n := Z.of_N (number_of ds) in (Some (if negative then (- n)%Z else n), rest)
        end
      else (None, t)
  | [] => (None, [])
  end.

(** The digits of the integer part: a leading zero stands alone. *)
Definition integer_digits (t : text) : option (text * text) :=
  match after [48] t with
  | Some t' => Some ([48], t')
  | None => match digits t with ([], _) => None | r => Some r end
  end.

Definition signed (negative : bool) (n : N) : Z :=
  if negative then (- Z.of_N n)%Z else Z.of_N n.

Definition parse_number (t : text) : py (json * text) :=
  let '(negative, t1) := sign false t in
  match integer_digits t1 with
  | None => decode_error
  | Some (ds, t2) =>
      let '(fs, t3) := fraction t2 in
      let '(e, t4) := exponent t3 in
      match fs, e with
      | [], None =>
          if decide (length ds <= INT_MAX_STR_DIGITS)%nat
          then Ret (JInt (signed negative (number_of ds)), t4)
          else Raise (ValueError "Exceeds the limit for integer string conversion")
      | _, _ =>
          Ret (JFloat (Float64.of_decimal negative (number_of (ds ++ fs))
                         (default 0%Z e - Z.of_nat (length fs))), t4)
      end
  end.

(** The words of the scanner, in the order it tries them. *)
Definition words : list (text * json) :=
  [(str "null", JNull); (str "true", JBool true); (str "false", JBool false);
   (str "NaN", JFloat S754_nan); (str "Infinity", JFloat (S754_infinity false));
   (str "-Infinity", JFloat (S754_infinity true))].

Fixpoint parse_word (ws : list (text * json)) (t : text) : option (json * text) :=
  match ws with
  | [] => None
  | (w, j) :: ws' =>
      match after w t with Some rest => Some (j, rest) | None => parse_word ws' t end
  end.

(** ** Values

    [scan_once] and its object and array scanners; [parse_items] and [parse_members]
    stand before an element.  What an object becomes is left to the hook
    ([object_pairs_hook]), which gets its members in order. *)
Section Scanner.
Variable hook : list (text * json) → py json.

Fixpoint parse_value (fuel : nat) (t : text) : py (json * text) :=
  match fuel with
  | O => decode_error
  | S fuel' =>
      match t with
      | [] => decode_error
      | c :: t' =>
          if decide (c = 34) then
            '(s, rest) ← scanstring t'; Ret (JStr s, rest)
          else if decide (c = 123) then
            match after [125] (skip_ws t') with
            | Some rest => j ← hook []; Ret (j, rest)
            | None =>
                '(m, rest) ← parse_members fuel' (skip_ws t'); j ← hook m; Ret (j, rest)
            end
          else if decide (c = 91) then
            match after [93] (skip_ws t') with
            | Some rest => Ret (JArr [], rest)
            | None => '(l, rest) ← parse_items fuel' (skip_ws t'); Ret (JArr l, rest)
            end
          else
            match parse_word words t with
            | Some r => Ret r
            | None => parse_number t
            end
      end
  end
with parse_items (fuel : nat) (t : text) : py (list json * text) :=
  match fuel with
  | O => decode_error
  | S fuel' =>
      '(v, rest) ← parse_value fuel' t;
      match after [93] (skip_ws rest), after [44] (skip_ws rest) with
      | Some rest', _ => Ret ([v], rest')
      | None, Some rest' =>
          '(l, rest'') ← parse_items fuel' (skip_ws rest'); Ret (v :: l, rest'')
      | None, None => decode_error
      end
  end
with parse_members (fuel : nat) (t : text) : py (list (text * json) * text) :=
  match fuel with
  | O => decode_error
  | S fuel' =>
      match after [34] t with
      | Some t' =>
          '(k, rest) ← scanstring t';
          match after [58] (skip_ws rest) with
          | Some rest1 =>
              '(v, rest2) ← parse_value fuel' (skip_ws rest1);
              match after [125] (skip_ws rest2), after [44] (skip_ws rest2) with
              | Some rest3, _ => Ret ([(k, v)], rest3)
              | None, Some rest3 =>
                  '(m, rest4) ← parse_members fuel' (skip_ws rest3); Ret ((k, v) :: m, rest4)
              | None, None => decode_error
              end
          | None => decode_error
          end
      | None => decode_error
      end
  end.

(** Enough fuel for a text: see [JsonFacts]. *)
Definition fuel_of (t : text) : nat := 2 * length t + 1.

(** [json.loads(t, object_pairs_hook=hook)] for a [str]. *)
Definition loads_with (t : text) : py json :=
  match after [65279] t with
  | Some _ => decode_error
  | None =>
      '(j, rest) ← (let u := skip_ws t in parse_value (fuel_of u) u);
      match skip_ws rest with [] => Ret j | _ => decode_error end
  end.

End Scanner.

(** The dictionary of the members: the last value of a key wins. *)
Definition dict_of (m : list (text * json)) : list (text * json) :=
  fold_left (fun d e => dict_set e.1 e.2 d) m [].

(** [json.loads(t)] *)
Definition loads (t : text) : py json := loads_with (fun m => Ret (JObj (dict_of m))) t.

(** ** Bytes: [detect_encoding] and [decode(..., "surrogatepass")] *)

Definition surrogate_bytes (c : N) : option bytes :=
  if is_high c || is_low c
  then Some [224 + c / 4096; 128 + c / 64 mod 64; 128 + c mod 64] else Utf8.encode_char c.

Definition pass_ok (bs : bytes) (k : nat) : bool :=
  bool_decide (surrogate_bytes (Utf8.candidate bs k) = Some (take k bs)).

Definition pass_char (bs : bytes) : option (N * nat) :=
  let try k := if pass_ok bs k then Some (Utf8.candidate bs k, k) else None in
  match try 1%nat with
  | Some r => Some r
  | None =>
      match try 2%nat with
      | Some r => Some r
      | None => match try 3%nat with Some r => Some r | None => try 4%nat end
      end
  end.

(** One UTF-16 character: a pair is joined, a lone surrogate passes. *)
Definition unit16 (little : bool) (a b : N) : N := if little then b * 256 + a else a * 256 + b.

Definition char16 (little : bool) (bs : bytes) : option (N * nat) :=
  match bs with
  | a :: b :: c :: d :: _ =>
      let u := unit16 little a b in
      let v := unit16 little c d in
      Some (if is_high u && is_low v then (join_pair u v, 4%nat) else (u, 2%nat))
  | a :: b :: _ => Some (unit16 little a b, 2%nat)
  | _ => None
  end.

Definition char32 (little : bool) (bs : bytes) : option (N * nat) :=
  match bs with
  | a :: b :: c :: d :: _ =>
      let v := if little then ((d * 256 + c) * 256 + b) * 256 + a
               else ((a * 256 + b) * 256 + c) * 256 + d in
      if v <? 1114112 then Some (v, 4%nat) else None
  | _ => None
  end.

(** All characters of a byte string: [skip] counts the bytes of the current
    character still to be passed over. *)
Fixpoint decode_all (char : bytes → option (N * nat)) (skip : nat) (bs : bytes) : option text :=
  match bs with
  | [] => Some []
  | b :: bs' =>
      match skip with
      | S k => decode_all char k bs'
      | O => '(c, k) ← char bs; cs ← decode_all char (k - 1) bs'; Some (c :: cs)
      end
  end.

Inductive encoding := EncUtf8 | EncUtf16 (little : bool) | EncUtf32 (little : bool).

(** The encoding and the length of the byte-order mark it drops. *)
Definition detect_encoding (b : bytes) : encoding * nat :=
  if starts_with b [0; 0; 254; 255] then (EncUtf32 false, 4%nat)
  else if starts_with b [255; 254; 0; 0] then (EncUtf32 true, 4%nat)
  else if starts_with b [254; 255] then (EncUtf16 false, 2%nat)
  else if starts_with b [255; 254] then (EncUtf16 true, 2%nat)
  else if starts_with b [239; 187; 191] then (EncUtf8, 3%nat)
  else
    match b with
    | b0 :: b1 :: b2 :: b3 :: _ =>
        if decide (b0 = 0) then ((if decide (b1 = 0) then EncUtf32 false else EncUtf16 false), 0%nat)
        else if decide (b1 = 0) then
          ((if decide (b2 = 0 ∧ b3 = 0) then EncUtf32 true else EncUtf16 true), 0%nat)
        else (EncUtf8, 0%nat)
    | [b0; b1] =>
        if decide (b0 = 0) then (EncUtf16 false, 0%nat)
        else if decide (b1 = 0) then (EncUtf16 true, 0%nat)
        else (EncUtf8, 0%nat)
    | _ => (EncUtf8, 0%nat)
    end.

Definition decode_bytes (b : bytes) : option text :=
  let '(enc, mark) := detect_encoding b in
  decode_all (match enc with
              | EncUtf8 => pass_char
              | EncUtf16 little => char16 little
              | EncUtf32 little => char32 little
              end) 0 (drop mark b).

(** [json.loads(b)] for [bytes]. *)
Definition loads_bytes (b : bytes) : py json :=
  match decode_bytes b with
  | Some t => loads t
  | None => Raise UnicodeDecodeError
  end.

End JsonParse.
