(* ===== verification/JsonFacts.v ===== *)
(** * Facts on [json.dumps] and [json.loads]

    The fuel of the decoder is enough for every text, and what [dumps] writes is
    read back, with the members of every object in the order of their keys when
    [sort_keys] is set. *)

From S2P Require Export JsonParse.
From stdpp Require Import options.

Local Open Scope N_scope.

Import JsonParse.
#[local] Arguments fuel_of : simpl never.

(** ** The order of keys *)

Lemma text_ltb_antisym a b : text_ltb a b = false → text_ltb b a = false → a = b.
Proof.
  revert b. induction a as [|x a IH]; intros [|y b]; simpl; try done.
  intros H1 H2. bools. assert (x = y) as -> by lia. rewrite N.eqb_refl in *. simpl in *.
  f_equal. by apply IH.
Qed.

Lemma text_ltb_asym a b : text_ltb a b = true → text_ltb b a = false.
Proof.
  revert b. induction a as [|x a IH]; intros [|y b]; simpl; try done.
  intros H1. destruct (N.ltb_spec x y), (N.ltb_spec y x), (N.eqb_spec x y), (N.eqb_spec y x);
    simpl in *; try lia; try done. by apply IH.
Qed.

(** Not less, read as at most, is transitive. *)
Lemma text_leb_trans a b c :
  text_ltb b a = false → text_ltb c b = false → text_ltb c a = false.
Proof.
  revert b c. induction a as [|x a IH]; intros [|y b] [|z c]; simpl; try done.
  intros H1 H2. bools.
  destruct (N.ltb_spec z x); simpl; [lia|]. destruct (N.eqb_spec z x); simpl; [|done].
  assert (y = x) as -> by lia. subst z. rewrite N.eqb_refl in *. simpl in *. by eapply IH.
Qed.

(** ** Consumption

    Every successful scan leaves a shorter rest. *)

Lemma skip_ws_length t : (length (skip_ws t) <= length t)%nat.
Proof. induction t as [|c t IH]; simpl; [done|]. case_match; simpl; lia. Qed.

Lemma after_length w t rest : after w t = Some rest → length t = (length w + length rest)%nat.
Proof.
  revert t. induction w as [|x w IH]; intros [|c t]; simpl; try (by intros [= <-]); try done.
  case_decide; [|done]. intros Ht. by rewrite (IH _ Ht).
Qed.

Lemma digits_length t ds rest : digits t = (ds, rest) → length t = (length ds + length rest)%nat.
Proof.
  revert ds rest. induction t as [|c t IH]; simpl; intros ds rest; [by intros [= <- <-]|].
  destruct (is_digit c); [|by intros [= <- <-]].
  destruct (digits t) as [a b]. intros [= <- <-]. simpl. by rewrite (IH a b eq_refl).
Qed.

Lemma hex_quad_length t c rest : hex_quad t = Some (c, rest) → length t = (4 + length rest)%nat.
Proof.
  unfold hex_quad. destruct t as [|? [|? [|? [|? ?]]]]; try done.
  repeat case_match; try done. by intros [= _ <-].
Qed.

Lemma unicode_escape_length t c rest :
  unicode_escape t = Some (c, rest) → (length rest < length t)%nat.
Proof.
  unfold unicode_escape. destruct (hex_quad t) as [[c1 t1]|] eqn:E; [|done].
  cbn [mbind option_bind]. apply hex_quad_length in E.
  destruct (after [92; 117] t1) as [t2|] eqn:E2; [|intros [= <- <-]; lia].
  apply after_length in E2. destruct (is_high c1); [|intros [= <- <-]; lia].
  destruct (hex_quad t2) as [[c2 t3]|] eqn:E3; [|done]. cbn [mbind option_bind].
  apply hex_quad_length in E3. simpl in *. case_match; intros [= <- <-]; lia.
Qed.

Lemma scan_char_length t o rest : scan_char t = Some (o, rest) → (length rest < length t)%nat.
Proof.
  unfold scan_char. intros H.
  repeat (case_match; try discriminate); try (injection H as <- <-; simpl; lia).
  - destruct (unicode_escape _) as [[c' t']|] eqn:E; [|done]. simpl in H.
    injection H as <- <-. apply unicode_escape_length in E. simpl. lia.
  - destruct (simple_escape _); [|done]. injection H as <- <-. simpl. lia.
Qed.

Lemma scan_string_length f t s rest :
  scan_string f t = Some (s, rest) → (length rest < length t)%nat.
Proof.
  revert t s rest. induction f as [|f IH]; [done|]. intros t s rest. simpl.
  destruct (scan_char t) as [[[c|] u]|] eqn:E; [| |done]; apply scan_char_length in E; simpl.
  - destruct (scan_string f u) as [[cs v]|] eqn:E2; [|done]. intros [= <- <-].
    apply IH in E2. lia.
  - intros [= <- <-]. done.
Qed.

(** A literal has at most one character per step, so the length is enough fuel. *)
Lemma scan_string_fuel f g t : (length t <= f)%nat → (length t <= g)%nat →
  scan_string f t = scan_string g t.
Proof.
  revert g t. induction f as [|f IH]; intros [|g] t Hf Hg;
    try (destruct t; simpl in *; [done|exfalso; lia]).
  simpl. destruct (scan_char t) as [[[c|] u]|] eqn:E; [| done | done]. simpl.
  apply scan_char_length in E. rewrite (IH g u) by lia. done.
Qed.

Lemma scanstring_length t s rest : scanstring t = Ret (s, rest) → (length rest < length t)%nat.
Proof.
  unfold scanstring. case_match eqn:E; [|done]. intros [= ->]. by eapply scan_string_length.
Qed.

Lemma fraction_length t fs rest : fraction t = (fs, rest) → (length rest <= length t)%nat.
Proof.
  unfold fraction. destruct (after [46] t) as [u|] eqn:E; [|by intros [= <- <-]].
  apply after_length in E. destruct (digits u) as [[|d ds] v] eqn:E2; intros [= <- <-]; [done|].
  apply digits_length in E2. simpl in *. lia.
Qed.

Lemma sign_length plus t neg rest : sign plus t = (neg, rest) → (length rest <= length t)%nat.
Proof.
  unfold sign. destruct (after [45] t) eqn:E; [apply after_length in E; intros [= <- <-]; lia|].
  destruct (after [43] t) eqn:E2; [apply after_length in E2|]; destruct plus;
    intros [= <- <-]; lia.
Qed.

Lemma exponent_length t e rest : exponent t = (e, rest) → (length rest <= length t)%nat.
Proof.
  unfold exponent. destruct t as [|c t]; [by intros [= <- <-]|].
  destruct (_ || _); [|by intros [= <- <-]].
  destruct (sign true t) as [neg u] eqn:Hs. apply sign_length in Hs.
  destruct (digits u) as [ds v] eqn:E. apply digits_length in E.
  destruct ds; intros [= <- <-]; simpl in *; lia.
Qed.

Lemma integer_digits_length t ds rest :
  integer_digits t = Some (ds, rest) → (length rest < length t)%nat.
Proof.
  unfold integer_digits. destruct (after [48] t) eqn:E.
  { apply after_length in E. intros [= <- <-]. simpl in *. lia. }
  destruct (digits t) as [[|d l] u] eqn:E2; [done|]. intros [= <- <-].
  apply digits_length in E2. simpl in *. lia.
Qed.

Lemma parse_number_length t j rest : parse_number t = Ret (j, rest) → (length rest < length t)%nat.
Proof.
  unfold parse_number. destruct (sign false t) as [neg t1] eqn:Hp. apply sign_length in Hp.
  destruct (integer_digits t1) as [[ds t2]|] eqn:E1; [|done]. apply integer_digits_length in E1.
  destruct (fraction t2) as [fs t3] eqn:E2. apply fraction_length in E2.
  destruct (exponent t3) as [e t4] eqn:E3. apply exponent_length in E3.
  destruct fs, e; try case_decide; intros Hr; peel; simplify_eq; lia.
Qed.

Lemma parse_word_length ws t j rest :
  Forall (λ w, w.1 ≠ []) ws → parse_word ws t = Some (j, rest) → (length rest < length t)%nat.
Proof.
  induction 1 as [|[w j'] ws Hw _ IH]; simpl; [done|].
  destruct (after w t) as [u|] eqn:E; [|done]. intros [= <- <-].
  apply after_length in E. destruct w; simpl in *; [done|lia].
Qed.

Lemma scan_word_length t j rest : parse_word words t = Some (j, rest) → (length rest < length t)%nat.
Proof. apply parse_word_length. repeat constructor; done. Qed.

Definition consumes {A} (m : py (A * text)) (t : text) : Prop :=
  ∀ a rest, m = Ret (a, rest) → (length rest < length t)%nat.

Lemma consumes_after w t u : after w t = Some u → (length u <= length t)%nat.
Proof. intros E%after_length. lia. Qed.

Ltac known_ws t :=
  lazymatch goal with
  | _ : (length (skip_ws t) <= length t)%nat |- _ => fail
  | _ => pose proof (skip_ws_length t)
  end.

Ltac shorten := repeat match goal with
  | E : after _ _ = Some _ |- _ => apply after_length in E
  | E : scanstring _ = Ret (_, _) |- _ => apply scanstring_length in E
  | _ : context [length (skip_ws ?t)] |- _ => known_ws t
  | |- context [length (skip_ws ?t)] => known_ws t
  end; simpl in *; try lia.

Ltac consume IHv IHi IHm :=
  repeat match goal with
  | E : parse_value _ _ _ = Ret _ |- _ => apply IHv in E
  | E : parse_items _ _ _ = Ret _ |- _ => apply IHi in E
  | E : parse_members _ _ _ = Ret _ |- _ => apply IHm in E
  | E : parse_number _ = Ret _ |- _ => apply parse_number_length in E
  | E : parse_word words _ = Some _ |- _ => apply scan_word_length in E
  end; shorten.

Lemma parse_consumes hook f :
  (∀ t, consumes (parse_value hook f t) t) ∧ (∀ t, consumes (parse_items hook f t) t) ∧
  (∀ t, consumes (parse_members hook f t) t).
Proof.
  induction f as [|f (IHv & IHi & IHm)]; [done|].
  split_and!.
  - intros [|c t] j rest Hr; [done|]. cbn [parse_value] in Hr.
    repeat case_decide; peel; simplify_eq; consume IHv IHi IHm.
  - intros t l rest Hr. cbn [parse_items] in Hr. peel; simplify_eq; consume IHv IHi IHm.
  - intros t m rest Hr. cbn [parse_members] in Hr. peel; simplify_eq; consume IHv IHi IHm.
Qed.

#[local] Arguments parse_word : simpl never.
#[local] Arguments after : simpl never.

(** ** Fuel

    Two units of fuel per character are enough: more fuel changes nothing. *)
Lemma parse_fuel hook f :
  (∀ g t, (2 * length t + 1 <= f)%nat → (2 * length t + 1 <= g)%nat →
    parse_value hook f t = parse_value hook g t) ∧
  (∀ g t, (2 * length t + 2 <= f)%nat → (2 * length t + 2 <= g)%nat →
    parse_items hook f t = parse_items hook g t) ∧
  (∀ g t, (2 * length t + 2 <= f)%nat → (2 * length t + 2 <= g)%nat →
    parse_members hook f t = parse_members hook g t).
Proof.
  induction f as [|f (IHv & IHi & IHm)]; [split_and!; intros; lia|].
  split_and!; intros [|g] t; [lia| |lia| |lia|].
  - intros Hf Hg. destruct t as [|c t]; [done|]. cbn [parse_value].
    pose proof (skip_ws_length t). simpl in *.
    destruct (decide (c = 34)); [done|]. destruct (decide (c = 123)).
    { destruct (after [125] (skip_ws t)); [done|]. rewrite (IHm g) by lia. done. }
    destruct (decide (c = 91)); [|done].
    destruct (after [93] (skip_ws t)); [done|]. by rewrite (IHi g) by lia.
  - intros Hf Hg. cbn [parse_items]. apply bind_cong; [apply IHv; lia|].
    intros [v rest] Hv. apply parse_consumes in Hv.
    destruct (after [93] (skip_ws rest)); [done|].
    destruct (after [44] (skip_ws rest)) eqn:E; [|done].
    rewrite (IHi g); [done|shorten|shorten].
  - intros Hf Hg. cbn [parse_members]. destruct (after [34] t) as [t1|] eqn:E1; [|done].
    apply bind_cong; [done|]. intros [k rest] Hk.
    destruct (after [58] (skip_ws rest)) as [t2|] eqn:E2; [|done].
    apply bind_cong; [apply IHv; shorten|]. intros [v rest2] Hv. apply parse_consumes in Hv.
    destruct (after [125] (skip_ws rest2)); [done|].
    destruct (after [44] (skip_ws rest2)) eqn:E3; [|done].
    rewrite (IHm g); [done|shorten|shorten].
Qed.

(** [loads] does not depend on the fuel it gives its scanner. *)
Lemma loads_fuel hook f t : (fuel_of (skip_ws t) <= f)%nat →
  parse_value hook (fuel_of (skip_ws t)) (skip_ws t) = parse_value hook f (skip_ws t).
Proof. intros Hf. apply parse_fuel; [done|]. done. Qed.

(** ** Round trip *)

Lemma number_of_snoc ds c : number_of (ds ++ [c]) = 10 * number_of ds + (c - 48).
Proof. unfold number_of. by rewrite fold_left_app. Qed.

Lemma number_of_app ds es :
  number_of (ds ++ es) = number_of ds * 10 ^ N.of_nat (length es) + number_of es.
Proof.
  induction es as [|c es IH] using rev_ind; [rewrite app_nil_r; simpl; unfold number_of at 3; simpl; lia|].
  rewrite app_assoc, !number_of_snoc, IH, length_app. simpl.
  replace (N.of_nat (length es + 1)) with (N.succ (N.of_nat (length es))) by lia.
  rewrite N.pow_succ_r'. lia.
Qed.

Lemma digit_of_mod n : is_digit (48 + n mod 10) = true ∧ 48 + n mod 10 - 48 = n mod 10.
Proof. pose proof (N.mod_lt n 10). unfold is_digit. split; lia. Qed.

(** The digits of a number: they are digits, spell the number, and start with a
    zero only for zero. *)
Lemma decimal_fuel_spec f n acc : n < 2 ^ N.of_nat f →
  ∃ ds, decimal_fuel (S f) n acc = (ds ++ acc)%list ∧ forallb is_digit ds = true ∧
    number_of ds = n ∧ ds ≠ [] ∧ (0 < n → head ds ≠ Some 48).
Proof.
  revert n acc. induction f as [|f IH]; intros n acc Hn.
  { assert (n = 0) as -> by (simpl in Hn; lia). by exists [48]. }
  destruct (digit_of_mod n) as [Hd Hv].
  change (decimal_fuel (S (S f)) n acc) with
    (if n <? 10 then (48 + n mod 10) :: acc else decimal_fuel (S f) (n / 10) ((48 + n mod 10) :: acc)).
  destruct (N.ltb_spec n 10).
  - exists [48 + n mod 10]. rewrite N.mod_small in * by done.
    split_and!; [done|simpl; by rewrite Hd|unfold number_of; simpl; lia|done|].
    intros Hpos [= E]. lia.
  - assert (n / 10 < 2 ^ N.of_nat f) as Hq.
    { replace (N.of_nat (S f)) with (N.succ (N.of_nat f)) in Hn by lia.
      rewrite N.pow_succ_r' in Hn. apply N.Div0.div_lt_upper_bound. lia. }
    destruct (IH (n / 10) ((48 + n mod 10) :: acc) Hq) as (ds & -> & Hall & Hnum & Hne & Hz).
    exists (ds ++ [48 + n mod 10])%list. split_and!.
    + by rewrite <- app_assoc.
    + rewrite forallb_app, Hall. simpl. by rewrite Hd.
    + rewrite number_of_snoc, Hnum, Hv. symmetry. apply N.Div0.div_mod.
    + by destruct ds.
    + intros _. assert (0 < n / 10) by (apply N.div_str_pos; lia).
      destruct ds; [done|]. by apply Hz.
Qed.

Lemma decimal_spec n : forallb is_digit (decimal n) = true ∧ number_of (decimal n) = n ∧
  decimal n ≠ [] ∧ (0 < n → head (decimal n) ≠ Some 48).
Proof.
  unfold decimal. destruct (decimal_fuel_spec (N.to_nat (N.size n)) n []) as (ds & -> & H).
  { rewrite N2Nat.id. apply N.size_gt. }
  by rewrite app_nil_r.
Qed.

(** What may follow a number: nothing that would extend it. *)
Definition delimited (t : text) : Prop :=
  match t with
  | [] => True
  | c :: _ => is_digit c = false ∧ c ≠ 46 ∧ c ≠ 101 ∧ c ≠ 69
  end.

Lemma after_cons w c t : after [w] (c :: t) = if decide (w = c) then Some t else None.
Proof. reflexivity. Qed.

Lemma after_step w ws c t : after (w :: ws) (c :: t) = if decide (w = c) then after ws t else None.
Proof. reflexivity. Qed.

Lemma parse_word_step w j ws t : parse_word ((w, j) :: ws) t =
  match after w t with Some rest => Some (j, rest) | None => parse_word ws t end.
Proof. reflexivity. Qed.

Lemma after_nil w : after [w] [] = None.
Proof. reflexivity. Qed.

Lemma digits_stop t : delimited t → digits t = ([], t).
Proof. destruct t as [|c t]; simpl; [done|]. by intros (-> & _). Qed.

Lemma digits_app ds t : forallb is_digit ds = true → delimited t → digits (ds ++ t) = (ds, t).
Proof.
  intros Hds Ht. induction ds as [|c ds IH]; simpl in *; [by apply digits_stop|].
  bools. rewrite H, IH by done. done.
Qed.

Lemma no_fraction t : delimited t → fraction t = ([], t).
Proof.
  unfold fraction. destruct t as [|c t]; [done|]. intros (_ & Hc & _).
  rewrite after_cons, decide_False by done. done.
Qed.

Lemma no_exponent t : delimited t → exponent t = (None, t).
Proof.
  unfold exponent. destruct t as [|c t]; [done|]. intros (_ & _ & H1 & H2).
  rewrite !bool_decide_eq_false_2 by done. done.
Qed.

Lemma integer_digits_decimal n t : delimited t →
  integer_digits (decimal n ++ t) = Some (decimal n, t).
Proof.
  intros Ht. destruct (N.eq_dec n 0) as [->|Hn]; [done|].
  destruct (decimal_spec n) as (Hall & _ & Hne & Hz). unfold integer_digits.
  rewrite digits_app by done.
  destruct (decimal n) as [|c ds] eqn:E; [done|]. simpl. rewrite after_cons.
  rewrite decide_False; [done|]. intros <-. by apply Hz; [lia|].
Qed.

Lemma digit_not_sign c : is_digit c = true → c ≠ 45 ∧ c ≠ 43 ∧ c ≠ 34 ∧ c ≠ 123 ∧ c ≠ 91 ∧
  c ≠ 110 ∧ c ≠ 116 ∧ c ≠ 102 ∧ c ≠ 78 ∧ c ≠ 73.
Proof. unfold is_digit. intros. lia. Qed.

Lemma sign_digits ds c t : is_digit c = true → sign false (c :: ds ++ t) = (false, c :: ds ++ t)%list.
Proof.
  intros Hc. apply digit_not_sign in Hc. unfold sign. rewrite !after_cons, !decide_False by lia.
  done.
Qed.

Lemma parse_number_int z t :
  (length (decimal (Z.abs_N z)) <= INT_MAX_STR_DIGITS)%nat → delimited t →
  parse_number (int_text z ++ t) = Ret (JInt z, t).
Proof.
  intros Hlen Ht.
  assert (∀ neg n, (length (decimal n) <= INT_MAX_STR_DIGITS)%nat →
    sign false ((if neg : bool then [45] else []) ++ decimal n ++ t) = (neg, decimal n ++ t)%list →
    parse_number ((if neg then [45] else []) ++ decimal n ++ t) = Ret (JInt (signed neg n), t)) as Hgen.
  { intros neg n Hn Hs. unfold parse_number. rewrite Hs, integer_digits_decimal by done.
    rewrite no_fraction, no_exponent by done. rewrite decide_True by done.
    by destruct (decimal_spec n) as (_ & -> & _). }
  assert (∀ n, sign false (decimal n ++ t) = (false, decimal n ++ t)%list) as Hsign.
  { intros n. destruct (decimal_spec n) as (Hall & _ & Hne & _).
    destruct (decimal n) as [|c ds]; [done|]. simpl in *. bools. by apply sign_digits. }
  destruct z as [|p|p].
  - apply (Hgen false 0); [exact Hlen|]. apply (Hsign 0).
  - apply (Hgen false (Npos p)); [exact Hlen|]. apply Hsign.
  - apply (Hgen true (Npos p)); [exact Hlen|]. reflexivity.
Qed.

(** ** Strings *)

Lemma hex_digit_nibble x : x < 16 →
  hex_digit (if x <? 10 then 48 + x else 87 + x) = Some x.
Proof.
  intros Hx. unfold hex_digit, is_digit.
  destruct (N.ltb_spec x 10).
  - rewrite (proj2 (N.leb_le 48 (48 + x))), (proj2 (N.leb_le (48 + x) 57)) by lia.
    simpl. f_equal. lia.
  - rewrite (proj2 (N.leb_gt (87 + x) 57)), andb_false_r by lia.
    rewrite (proj2 (N.leb_le 97 (87 + x))), (proj2 (N.leb_le (87 + x) 102)) by lia.
    simpl. f_equal. lia.
Qed.

Lemma hex_quad_hex4 c t : c < 65536 → hex_quad (hex4 c ++ t) = Some (c, t).
Proof.
  intros Hc. unfold hex4, hex_quad. simpl app.
  assert (∀ k, N.land (N.shiftr c k) 15 = c / 2 ^ k mod 16) as Hn.
  { intros k. rewrite N.shiftr_div_pow2. change 15 with (N.ones 4). by rewrite N.land_ones. }
  rewrite !Hn. rewrite !hex_digit_nibble by (apply N.mod_lt; done).
  do 2 f_equal.
  change (2 ^ (4 * 3)) with (16 * 16 * 16). change (2 ^ (4 * 2)) with (16 * 16).
  change (2 ^ (4 * 1)) with 16. change (2 ^ (4 * 0)) with 1.
  rewrite N.div_1_r, <- !N.Div0.div_div.
  rewrite (N.mod_small (c / 16 / 16 / 16)) by
    (rewrite !N.Div0.div_div; apply N.Div0.div_lt_upper_bound; exact Hc).
  pose proof (N.Div0.div_mod c 16) as H1. pose proof (N.Div0.div_mod (c / 16) 16) as H2.
  pose proof (N.Div0.div_mod (c / 16 / 16) 16) as H3. revert H1 H2 H3. clear Hn Hc.
  generalize (c / 16 / 16 / 16) (c / 16 / 16 mod 16) (c / 16 / 16).
  generalize (c / 16 mod 16) (c / 16) (c mod 16). lia.
Qed.

Lemma escape_char_read c t : scan_char (escape_char false c ++ t) = Some (Some c, t).
Proof.
  unfold escape_char.
  repeat match goal with
  | |- context [if ?a =? ?b then _ else _] => destruct (N.eqb_spec a b) as [->|]; [done|]
  end.
  destruct (N.ltb_spec c 32).
  - change (([92; 117] ++ hex4 c) ++ t)%list with (92 :: 117 :: hex4 c ++ t)%list.
    unfold scan_char. rewrite decide_False by done. rewrite !decide_True by done.
    unfold unicode_escape. rewrite (hex_quad_hex4 c t) by lia. cbn [mbind option_bind].
    assert (is_high c = false) as -> by (unfold is_high; lia). by destruct (after [92; 117] t).
  - simpl. unfold scan_char. rewrite !decide_False by done.
    by rewrite (proj2 (N.ltb_ge c 32)) by done.
Qed.

Lemma scan_string_quoted s t f : (length s < f)%nat →
  scan_string f (flat_map (escape_char false) s ++ 34 :: t) = Some (s, t).
Proof.
  revert f. induction s as [|c s IH]; intros [|f] Hf; simpl in *; try lia; [done|].
  rewrite <- app_assoc, escape_char_read. cbn [mbind option_bind].
  rewrite IH by lia. done.
Qed.

Lemma escape_char_length c : (1 <= length (escape_char false c))%nat.
Proof. unfold escape_char. repeat case_match; simpl; lia. Qed.

Lemma scanstring_quoted s t :
  scanstring (flat_map (escape_char false) s ++ 34 :: t) = Ret (s, t).
Proof.
  unfold scanstring. rewrite scan_string_quoted; [done|].
  rewrite length_app. simpl. enough (length s <= length (flat_map (escape_char false) s))%nat by lia.
  induction s as [|c s IH]; simpl; [done|]. rewrite length_app.
  pose proof (escape_char_length c). lia.
Qed.

(** ** Floats *)

(** The printed float reads back as itself. *)
Definition float_reads (f : float64) : bool :=
  match parse_number (Float64.float_repr f) with
  | Ret (JFloat g, []) => bool_decide (f = g)
  | _ => false
  end.

Lemma digits_local u t : delimited t → digits (u ++ t) = ((digits u).1, (digits u).2 ++ t)%list.
Proof.
  intros Ht. induction u as [|c u IH]; simpl; [by rewrite digits_stop|].
  destruct (is_digit c); [|done]. rewrite IH. by destruct (digits u).
Qed.

Lemma sign_local b u t : u ≠ [] → sign b (u ++ t) = ((sign b u).1, (sign b u).2 ++ t)%list.
Proof.
  destruct u as [|c u]; [done|]. intros _. unfold sign. simpl app. rewrite !after_cons.
  destruct (decide (45 = c)); [done|]. destruct (decide (43 = c)); [by destruct b|done].
Qed.

Lemma fraction_local u t : delimited t → fraction (u ++ t) = ((fraction u).1, (fraction u).2 ++ t)%list.
Proof.
  intros Ht. destruct u as [|c u]; [by apply no_fraction|]. unfold fraction. simpl app. rewrite !after_cons.
  destruct (decide (46 = c)); [|done]. rewrite digits_local by done.
  by destruct (digits u) as [[|d ds] r].
Qed.

Lemma exponent_local u e t : delimited t → exponent u = (e, []) → exponent (u ++ t) = (e, t).
Proof.
  intros Ht. destruct u as [|c u]; simpl; [intros [= <-]; by apply no_exponent|].
  destruct (_ || _); [|done].
  destruct u as [|d u]; [done|]. rewrite sign_local by done.
  destruct (sign true (d :: u)) as [neg v]. simpl. rewrite digits_local by done.
  by destruct (digits v) as [[|x ds] r]; simpl; [|intros [= <- ->]].
Qed.

Lemma integer_digits_local u ds r t : delimited t →
  integer_digits u = Some (ds, r) → integer_digits (u ++ t) = Some (ds, r ++ t)%list.
Proof.
  intros Ht. destruct u as [|c u]; [done|]. unfold integer_digits. simpl app. rewrite !after_cons.
  destruct (decide (48 = c)); [by intros [= <- <-]|].
  change (c :: u ++ t)%list with ((c :: u) ++ t)%list. rewrite digits_local by done.
  destruct (digits (c :: u)) as [[|x l] r']; [done|]. by intros [= <- <-].
Qed.

Lemma integer_digits_head u ds r : integer_digits u = Some (ds, r) → ∃ c v, u = c :: v ∧ is_digit c = true.
Proof.
  destruct u as [|c u]; [done|]. unfold integer_digits. rewrite after_cons.
  destruct (decide (48 = c)) as [<-|]; [by eauto|]. simpl. destruct (is_digit c) eqn:E; [by eauto|done].
Qed.

Lemma parse_number_local u j t : delimited t → parse_number u = Ret (j, []) → parse_number (u ++ t) = Ret (j, t).
Proof.
  intros Ht. unfold parse_number. destruct u as [|c u]; [done|]. rewrite sign_local by done.
  destruct (sign false (c :: u)) as [neg t1]. cbn [fst snd].
  destruct (integer_digits t1) as [[ds t2]|] eqn:Ed; [|done]. rewrite (integer_digits_local _ _ _ _ Ht Ed).
  rewrite fraction_local by done. destruct (fraction t2) as [fs t3]. cbn [fst snd].
  destruct (exponent t3) as [e t4] eqn:Ee.
  assert (t4 = [] → exponent (t3 ++ t) = (e, t)) as Hloc by (intros ->; by apply exponent_local).
  destruct fs, e; try case_decide; try done; intros [= <- ->]; by rewrite (Hloc eq_refl).
Qed.

(** A number starts with a digit, or with a sign and a digit. *)
Lemma parse_number_head u j r : parse_number u = Ret (j, r) →
  ∃ c v, u = c :: v ∧ (is_digit c = true ∨ c = 45 ∧ ∃ d w, v = d :: w ∧ is_digit d = true).
Proof.
  unfold parse_number. destruct (sign false u) as [neg t1] eqn:Es.
  destruct (integer_digits t1) as [[ds t2]|] eqn:Ed; [|done]. intros _.
  apply integer_digits_head in Ed as (c & v & -> & Hc). unfold sign in Es.
  destruct u as [|x u]; [done|]. rewrite !after_cons in Es.
  destruct (decide (45 = x)) as [<-|].
  - injection Es as <- ->. exists 45, (c :: v). split; [done|]. right. eauto.
  - exists c, v. split; [|by left]. destruct (decide (43 = x)); congruence.
Qed.

(** ** Values *)

Section json_induction.
Variable P : json → Prop.
Hypothesis P_null : P JNull.
Hypothesis P_bool : ∀ b, P (JBool b).
Hypothesis P_int : ∀ z, P (JInt z).
Hypothesis P_float : ∀ f, P (JFloat f).
Hypothesis P_str : ∀ t, P (JStr t).
Hypothesis P_arr : ∀ l, Forall P l → P (JArr l).
Hypothesis P_obj : ∀ m, Forall (λ e, P e.2) m → P (JObj m).

Fixpoint json_induction (j : json) : P j :=
  match j with
  | JNull => P_null
  | JBool b => P_bool b
  | JInt z => P_int z
  | JFloat f => P_float f
  | JStr t => P_str t
  | JArr l =>
      P_arr l ((fix go l : Forall P l :=
        match l with [] => List.Forall_nil P | x :: l' => List.Forall_cons P x l' (json_induction x) (go l') end) l)
  | JObj m =>
      P_obj m ((fix go m : Forall (λ e, P e.2) m :=
        match m with
        | [] => List.Forall_nil _
        | e :: m' => List.Forall_cons _ e m' (json_induction e.2) (go m')
        end) m)
  end.
End json_induction.

(** A value the decoder can return and the encoder writes exactly: one member per
    key, integers within the digit limit, floats that read back. *)
Fixpoint json_ok (j : json) : Prop :=
  match j with
  | JInt z => (length (decimal (Z.abs_N z)) <= INT_MAX_STR_DIGITS)%nat
  | JFloat f => float_reads f = true
  | JArr l => foldr (fun x acc => json_ok x ∧ acc) True l
  | JObj m => NoDup m.*1 ∧ foldr (fun e acc => json_ok e.2 ∧ acc) True m
  | _ => True
  end.

(** The value as it comes back: members in the order they are written. *)
Fixpoint canon (sort_keys : bool) (j : json) : json :=
  match j with
  | JArr l => JArr (canon sort_keys <$> l)
  | JObj m =>
      let members := (fun e => (e.1, canon sort_keys e.2)) <$> m in
      JObj (if sort_keys then sort_members members else members)
  | _ => j
  end.

Lemma foldr_and_Forall {A} (Q : A → Prop) l : foldr (fun x acc => Q x ∧ acc) True l ↔ Forall Q l.
Proof. induction l; simpl; rewrite ?list.Forall_cons; naive_solver. Qed.

Lemma insert_key_perm {A} (e : text * A) l : insert_key e l ≡ₚ e :: l.
Proof.
  induction l as [|x l IH]; simpl; [done|]. case_match; [|done].
  rewrite IH. apply Permutation_swap.
Qed.

Lemma sort_members_perm {A} (l : list (text * A)) : sort_members l ≡ₚ l.
Proof. induction l as [|e l IH]; simpl; [done|]. by rewrite insert_key_perm, IH. Qed.

Lemma insert_key_map {A B} (g : A → B) (e : text * A) l :
  insert_key (e.1, g e.2) ((fun x => (x.1, g x.2)) <$> l) = (fun x => (x.1, g x.2)) <$> insert_key e l.
Proof. induction l as [|x l IH]; simpl; [done|]. case_match; [|done]. simpl. f_equal. exact IH. Qed.

Lemma sort_members_map {A B} (g : A → B) (l : list (text * A)) :
  sort_members ((fun x => (x.1, g x.2)) <$> l) = (fun x => (x.1, g x.2)) <$> sort_members l.
Proof.
  induction l as [|e l IH]; [done|].
  change (insert_key (e.1, g e.2) (sort_members ((fun x => (x.1, g x.2)) <$> l))
          = (fun x => (x.1, g x.2)) <$> insert_key e (sort_members l)).
  by rewrite IH, insert_key_map.
Qed.

Lemma dict_set_fresh {A} k (v : A) m : k ∉ m.*1 → dict_set k v m = (m ++ [(k, v)])%list.
Proof.
  induction m as [|[k' v'] m IH]; simpl; [done|]. intros Hk.
  rewrite not_elem_of_cons in Hk. rewrite decide_False by naive_solver.
  by rewrite IH by naive_solver.
Qed.

(** The first character of a value is no space and closes nothing. *)
Definition opens (t : text) : Prop :=
  ∃ c u, t = c :: u ∧ is_ws c = false ∧ c ≠ 93 ∧ c ≠ 125 ∧ c ≠ 65279.

Lemma opens_app t u : opens t → opens (t ++ u).
Proof. intros (c & v & -> & H). by exists c, (v ++ u)%list. Qed.

Lemma join_opens x l : opens x → opens (join [44] (x :: l)).
Proof. intros Hx. destruct l; simpl; [done|by apply opens_app]. Qed.

Lemma float_opens f : float_reads f = true → opens (Float64.float_repr f).
Proof.
  unfold float_reads. destruct (parse_number _) as [[j r]|] eqn:E; [|done]. intros _.
  apply parse_number_head in E as (c & v & -> & Hc). exists c, v. split; [done|].
  unfold is_digit, is_ws in *. destruct Hc as [Hc|[-> _]]; [|done].
  rewrite !bool_decide_eq_false_2 by lia. split_and!; try done; lia.
Qed.

Lemma dumps_opens b j : json_ok j → opens (dumps b j).
Proof.
  destruct j as [|[]|z|fl| | |]; simpl; intros Hok; try done; try (by eexists _, _; split_and!); [|by apply float_opens].
  assert (∀ n, opens (decimal n)) as Hd.
  { intros n. destruct (decimal_spec n) as (Hall & _ & Hne & _).
    destruct (decimal n) as [|c ds]; [done|]. simpl in Hall. bools.
    exists c, ds. unfold is_digit, is_ws in *. split_and!; try lia; [done|].
    rewrite !bool_decide_eq_false_2 by lia. done. }
  destruct z; simpl; [by apply (Hd 0)|apply Hd|by eexists _, _; split_and!].
Qed.

Lemma opens_skip t : opens t → skip_ws t = t.
Proof. intros (c & u & -> & Hw & _). simpl. by rewrite Hw. Qed.

Lemma opens_not_close t c : opens t → c = 93 ∨ c = 125 → after [c] t = None.
Proof.
  intros (d & u & -> & _ & H1 & H2 & _) [-> | ->]; rewrite after_cons, decide_False; done.
Qed.

Lemma delimited_close c t : c ∈ [44; 93; 125] → delimited (c :: t).
Proof. intros H. repeat (apply elem_of_cons in H as [->|H]; [done|]). set_solver. Qed.

Section RoundTrip.
Set Default Proof Using "Type*".
Variable hook : list (text * json) → py json.
Hypothesis hook_distinct : ∀ m, NoDup m.*1 → hook m = Ret (JObj m).

(** [j] is read back from what is written, whatever follows. *)
Definition reads (b : bool) (j : json) : Prop :=
  ∀ f t, delimited t → (2 * length (dumps b j ++ t) + 1 <= f)%nat →
    parse_value hook f (dumps b j ++ t) = Ret (canon b j, t).

Lemma parse_items_dumps b l f t :
  l ≠ [] → Forall json_ok l → Forall (reads b) l →
  (2 * length (join [44] (dumps b <$> l) ++ 93 :: t)%N + 2 <= f)%nat →
  parse_items hook f (join [44] (dumps b <$> l) ++ 93 :: t) = Ret (canon b <$> l, t).
Proof.
  intros Hne Hok Hl. revert f Hne. induction Hl as [|j l Hj Hl IH]; [done|].
  intros [|f] _ Hf; [lia|]. apply list.Forall_cons in Hok as [Hokj Hok].
  cbn [parse_items]. destruct l as [|j2 l].
  - simpl in *. rewrite Hj; [|by apply delimited_close; set_solver|lia].
    done.
  - change (join [44] (dumps b <$> j :: j2 :: l)) with
      (dumps b j ++ [44] ++ join [44] (dumps b <$> j2 :: l))%list in *.
    assert (opens (join [44] (dumps b <$> j2 :: l))) as Ho.
    { apply (join_opens (dumps b j2)), dumps_opens. by apply list.Forall_cons in Hok as [? _]. }
    remember (join [44] (dumps b <$> j2 :: l)) as tail eqn:Etail.
    rewrite <- !app_assoc in *. cbn [app] in *.
    rewrite Hj; [|by apply delimited_close; set_solver|lia].
    cbn [mbind py_bind]. rewrite (opens_skip (44 :: _)) by (by eexists _, _; split_and!).
    rewrite !after_cons, decide_False, decide_True by done.
    rewrite (opens_skip (tail ++ _)) by (by apply opens_app).
    rewrite length_app in Hf. simpl length in Hf. subst tail. rewrite IH; [done|done|done|]. lia.
Qed.

(** One member as it is written. *)
Definition member_text (b : bool) (e : text * json) : text :=
  (quoted false e.1 ++ [58] ++ dumps b e.2)%list.

#[local] Arguments member_text : simpl never.

Lemma member_text_app b e t :
  (member_text b e ++ t)%list =
  (34 :: flat_map (escape_char false) e.1 ++ 34 :: 58 :: dumps b e.2 ++ t)%list.
Proof. unfold member_text, quoted. simpl. rewrite <- !app_assoc. done. Qed.

Lemma member_opens b e : opens (member_text b e).
Proof. by eexists _, _; split_and!. Qed.

Lemma parse_members_dumps b l f t :
  l ≠ [] → Forall (λ e, json_ok e.2) l → Forall (λ e, reads b e.2) l →
  (2 * length (join [44] (member_text b <$> l) ++ 125 :: t)%N + 2 <= f)%nat →
  parse_members hook f (join [44] (member_text b <$> l) ++ 125 :: t)
  = Ret ((fun e => (e.1, canon b e.2)) <$> l, t)%list.
Proof.
  intros Hne Hok Hl. revert f Hne. induction Hl as [|e l He Hl IH]; [done|].
  intros [|f] _ Hf; [lia|]. apply list.Forall_cons in Hok as [Hoke Hok].
  assert (∀ u, delimited u → (2 * length (member_text b e ++ u) + 2 <= S f)%nat →
    parse_members hook (S f) (member_text b e ++ u) =
      match after [125] (skip_ws u), after [44] (skip_ws u) with
      | Some r, _ => Ret ([(e.1, canon b e.2)], r)%list
      | None, Some r => '(m, rest) ← parse_members hook f (skip_ws r);
                        Ret ((e.1, canon b e.2) :: m, rest)
      | None, None => decode_error
      end) as Hone.
  { intros u Hu Hfu. cbn [parse_members]. rewrite member_text_app in *.
    rewrite after_cons, decide_True by done. rewrite scanstring_quoted. cbn [mbind py_bind].
    rewrite (opens_skip (58 :: _)) by (by eexists _, _; split_and!).
    rewrite after_cons, decide_True by done.
    rewrite opens_skip by (by apply opens_app, dumps_opens).
    rewrite He; [done|done|].
    simpl in Hfu. rewrite !length_app in Hfu. simpl in Hfu. rewrite length_app in Hfu.
    rewrite length_app. lia. }
  destruct l as [|e2 l].
  - simpl join in *. rewrite Hone by (done || by apply delimited_close; set_solver).
    replace (skip_ws (125 :: t)) with (125 :: t) by done.
    rewrite after_cons, decide_True by done. done.
  - change (join [44] (member_text b <$> e :: e2 :: l)) with
      (member_text b e ++ [44] ++ join [44] (member_text b <$> e2 :: l))%list in *.
    assert (opens (join [44] (member_text b <$> e2 :: l))) as Ho.
    { apply (join_opens (member_text b e2)), member_opens. }
    remember (join [44] (member_text b <$> e2 :: l)) as tail eqn:Etail.
    rewrite <- !app_assoc in *. cbn [app] in *.
    rewrite Hone by (done || by apply delimited_close; set_solver).
    rewrite (opens_skip (44 :: _)) by (by eexists _, _; split_and!).
    rewrite !after_cons, decide_False, decide_True by done.
    rewrite opens_skip by (by apply opens_app).
    rewrite length_app in Hf. simpl length in Hf.
    assert (1 <= length (member_text b e))%nat by (unfold member_text, quoted; simpl; lia).
    subst tail. rewrite IH; [done|done|done|]. lia.
Qed.

Lemma word_none c t : c ≠ 110 → c ≠ 116 → c ≠ 102 → c ≠ 78 → c ≠ 73 →
  (c = 45 → ∀ d u, t = d :: u → d ≠ 73) → parse_word words (c :: t) = None.
Proof.
  intros H1 H2 H3 H4 H5 H6.
  assert (∀ w ws, w ≠ c → after (w :: ws) (c :: t) = None) as Hw.
  { intros w ws Hne. by rewrite after_step, decide_False. }
  unfold words. rewrite !parse_word_step.
  assert (after (str "null") (c :: t) = None) as -> by (by apply (Hw 110)).
  assert (after (str "true") (c :: t) = None) as -> by (by apply (Hw 116)).
  assert (after (str "false") (c :: t) = None) as -> by (by apply (Hw 102)).
  assert (after (str "NaN") (c :: t) = None) as -> by (by apply (Hw 78)).
  assert (after (str "Infinity") (c :: t) = None) as -> by (by apply (Hw 73)).
  assert (after (str "-Infinity") (c :: t) = None) as ->; [|done].
  destruct (decide (c = 45)) as [->|]; [|by apply (Hw 45)].
  destruct t as [|d u]; [done|].
  change (str "-Infinity") with (45 :: 73 :: str "nfinity").
  rewrite !after_step, decide_True by done.
  rewrite decide_False; [done|]. intros <-. by eapply H6.
Qed.

Lemma parse_value_number u j f t : parse_number u = Ret (j, []) → delimited t →
  parse_value hook (S f) (u ++ t) = Ret (j, t).
Proof.
  intros Hu Ht. pose proof (parse_number_local _ _ _ Ht Hu) as Hn.
  apply parse_number_head in Hu as (c & v & -> & Hc). cbn [app parse_value].
  assert (c ≠ 34 ∧ c ≠ 123 ∧ c ≠ 91 ∧ c ≠ 110 ∧ c ≠ 116 ∧ c ≠ 102 ∧ c ≠ 78 ∧ c ≠ 73) as Hne.
  { destruct Hc as [Hc | [-> _]]; [|lia]. apply digit_not_sign in Hc. lia. }
  rewrite !decide_False by lia. rewrite word_none; [exact Hn|lia..|].
  intros -> d w Hv. destruct Hc as [Hc | (_ & d' & v' & -> & Hd)]; [done|].
  simplify_eq/=. apply digit_not_sign in Hd. lia.
Qed.

Lemma parse_value_int b z f t : json_ok (JInt z) → delimited t →
  parse_value hook (S f) (dumps b (JInt z) ++ t) = Ret (JInt z, t).
Proof.
  intros Hok Ht. apply parse_value_number; [|done].
  pose proof (parse_number_int z [] Hok I) as Hn. by rewrite app_nil_r in Hn.
Qed.

Lemma parse_value_float b fl f t : json_ok (JFloat fl) → delimited t →
  parse_value hook (S f) (dumps b (JFloat fl) ++ t) = Ret (JFloat fl, t).
Proof.
  intros Hok Ht. apply parse_value_number; [|done].
  change (json_ok (JFloat fl)) with (float_reads fl = true) in Hok. unfold float_reads in Hok.
  change (dumps b (JFloat fl)) with (Float64.float_repr fl).
  destruct (parse_number _) as [[[| | |g| | |] [|]]|]; try done. bools. by subst.
Qed.

Lemma dumps_obj b m : dumps b (JObj m) =
  (123 :: join [44] (member_text b <$> (if b then sort_members m else m)) ++ [125])%list.
Proof.
  unfold dumps. simpl. do 2 f_equal. destruct b.
  - rewrite (sort_members_map (dumps_with false true)), <- list_fmap_compose. done.
  - rewrite <- list_fmap_compose. done.
Qed.

Lemma canon_obj b m : canon b (JObj m) =
  JObj ((fun e => (e.1, canon b e.2)) <$> (if b then sort_members m else m)).
Proof. simpl. destruct b; [by rewrite (sort_members_map (canon true))|done]. Qed.

Lemma dumps_reads b j : json_ok j → reads b j.
Proof.
  induction j as [|bb|z|fl|s|l IH|m IH] using json_induction; intros Hok [|f] t Ht Hf;
    try lia; try done.
  - by destruct bb.
  - by apply parse_value_int.
  - by apply parse_value_float.
  - change (dumps b (JStr s) ++ t)%list with (34 :: (flat_map (escape_char false) s ++ [34]) ++ t)%list.
    cbn [parse_value]. rewrite decide_True by done. rewrite <- app_assoc. simpl.
    by rewrite scanstring_quoted.
  - simpl in Hok. apply foldr_and_Forall in Hok.
    assert (Forall (reads b) l) as Hl.
    { rewrite list.Forall_forall in IH, Hok |- *. auto. }
    change (dumps b (JArr l)) with (91 :: join [44] (dumps b <$> l) ++ [93])%list in *.
    cbn [app] in *. rewrite <- app_assoc in *. cbn [app parse_value length] in *.
    rewrite !decide_False by done. rewrite decide_True by done.
    destruct l as [|j l]; [done|].
    assert (opens (join [44] (dumps b <$> j :: l))) as Ho.
    { apply (join_opens (dumps b j)), dumps_opens. by apply list.Forall_cons in Hok as [? _]. }
    rewrite opens_skip by (by apply opens_app).
    rewrite opens_not_close; [|by apply opens_app|by auto].
    rewrite parse_items_dumps; [done|done|done|done|]. lia.
  - destruct Hok as [Hnd Hok]. apply foldr_and_Forall in Hok.
    rewrite dumps_obj, canon_obj in *.
    set (l := if b then sort_members m else m) in *.
    assert (l ≡ₚ m) as Hp by (unfold l; destruct b; [apply sort_members_perm|done]).
    rewrite <- Hp in Hok, IH, Hnd. clearbody l. clear Hp.
    assert (Forall (λ e, reads b e.2) l) as Hl.
    { rewrite list.Forall_forall in IH, Hok |- *. auto. }
    cbn [app] in *. rewrite <- app_assoc in *. cbn [app parse_value length] in *.
    rewrite decide_False by done. rewrite decide_True by done.
    destruct l as [|e l]; [by simpl; rewrite hook_distinct by constructor|].
    assert (opens (join [44] (member_text b <$> e :: l))) as Ho.
    { apply (join_opens (member_text b e)), member_opens. }
    rewrite opens_skip by (by apply opens_app).
    rewrite opens_not_close; [|by apply opens_app|by auto].
    rewrite parse_members_dumps; [|done|done|done|lia]. cbn [mbind py_bind].
    rewrite hook_distinct; [done|]. rewrite <- list_fmap_compose. exact Hnd.
Qed.

(** What is written is read back, its members in the order they were written. *)
Lemma loads_with_dumps b j : json_ok j → loads_with hook (dumps b j) = Ret (canon b j).
Proof.
  intros Hok. unfold loads_with. pose proof (dumps_opens b j Hok) as Ho.
  assert (after [65279] (dumps b j) = None) as ->.
  { destruct Ho as (c & u & -> & _ & _ & _ & Hc). by rewrite after_cons, decide_False. }
  rewrite opens_skip by done. pose proof (dumps_reads b j Hok (fuel_of (dumps b j)) []) as H.
  rewrite app_nil_r in H. rewrite H; [done|done|]. done.
Qed.

End RoundTrip.
Set Default Proof Using "Type".

Lemma dict_of_distinct_from d (m : list (text * json)) : NoDup (d ++ m).*1 →
  fold_left (fun d e => dict_set e.1 e.2 d) m d = (d ++ m)%list.
Proof.
  revert d. induction m as [|[k v] m IH]; intros d Hnd; simpl; [by rewrite app_nil_r|].
  rewrite dict_set_fresh.
  - rewrite IH; rewrite <- app_assoc; done.
  - rewrite fmap_app in Hnd. simpl in Hnd. apply list.NoDup_app in Hnd. set_solver.
Qed.

Lemma dict_of_distinct m : NoDup m.*1 → dict_of m = m.
Proof. apply (dict_of_distinct_from []). Qed.

Lemma loads_dumps b j : json_ok j → loads (dumps b j) = Ret (canon b j).
Proof. apply loads_with_dumps. intros m Hm. by rewrite dict_of_distinct. Qed.

Definition canon_members (b : bool) (m : list (text * json)) : list (text * json) :=
  (fun e => (e.1, canon b e.2)) <$> m.

Lemma canon_obj_ext b m m' :
  canon_members b m = canon_members b m' → canon b (JObj m) = canon b (JObj m').
Proof.
  unfold canon_members. intros E. change (JObj (if b then sort_members ((fun e => (e.1, canon b e.2)) <$> m)
    else ((fun e => (e.1, canon b e.2)) <$> m)) = JObj (if b then sort_members ((fun e => (e.1, canon b e.2)) <$> m')
    else ((fun e => (e.1, canon b e.2)) <$> m'))). by rewrite E.
Qed.

(** ** Sorting members twice *)

Definition key_le {A} (a b : text * A) : Prop := text_ltb b.1 a.1 = false.

Lemma insert_key_head {A} (m : text * A) l : Forall (key_le m) l → insert_key m l = m :: l.
Proof. destruct l as [|n l]; [done|]. intros Hm. inv Hm. simpl. by rewrite H1. Qed.

Lemma insert_key_sorted {A} (m : text * A) l :
  StronglySorted key_le l → StronglySorted key_le (insert_key m l).
Proof.
  induction 1 as [|n l Hs IH Hn]; simpl; [repeat constructor|].
  destruct (text_ltb n.1 m.1) eqn:E.
  - constructor; [done|]. rewrite insert_key_perm. constructor; [|done].
    by apply text_ltb_asym.
  - constructor; [by constructor|]. constructor; [done|].
    eapply list.Forall_impl; [done|]. intros x Hx. by eapply text_leb_trans.
Qed.

Lemma sort_members_sorted {A} (l : list (text * A)) : StronglySorted key_le (sort_members l).
Proof. induction l; simpl; [constructor|by apply insert_key_sorted]. Qed.

Lemma sort_members_id {A} (l : list (text * A)) : StronglySorted key_le l → sort_members l = l.
Proof.
  induction 1 as [|n l Hs IH Hn]; [done|].
  change (insert_key n (sort_members l) = n :: l). rewrite IH. by apply insert_key_head.
Qed.

Lemma sort_members_idemp {A} (l : list (text * A)) : sort_members (sort_members l) = sort_members l.
Proof. apply sort_members_id, sort_members_sorted. Qed.

(** Writing does not see the order of members. *)
Lemma dumps_canon j : dumps true (canon true j) = dumps true j.
Proof.
  induction j as [| | | | |l IH|m IH] using json_induction; try done.
  - change (91%N :: join [44%N] (dumps true <$> (canon true <$> l)) ++ [93%N]
      = 91%N :: join [44%N] (dumps true <$> l) ++ [93%N])%list.
    rewrite <- list_fmap_compose. do 3 f_equal. apply list_fmap_ext. intros i x Hx.
    by eapply (Forall_lookup_1 _ _ _ _ IH).
  - rewrite canon_obj, !dumps_obj. rewrite (sort_members_map (canon true)), sort_members_idemp.
    rewrite <- list_fmap_compose. do 3 f_equal. apply list_fmap_ext. intros i x Hx.
    unfold member_text; simpl. do 3 f_equal.
    rewrite <- (sort_members_perm m) in IH. by apply (Forall_lookup_1 _ _ _ _ IH Hx).
Qed.

(** ** Bytes *)

Lemma surrogate_bytes_lead c b : surrogate_bytes c = Some b →
  ∃ a b', b = a :: b' ∧ lead_length a = length b.
Proof.
  unfold surrogate_bytes. destruct (_ || _) eqn:E; [|apply encode_char_lead].
  intros [= <-]. eexists _, _. split; [done|]. unfold is_high, is_low in E.
  assert (c / 4096 = 13) as ->; [|done].
  symmetry. apply (N.div_unique _ _ _ (c - 53248)); lia.
Qed.

Lemma pass_ok_lead a bs k : pass_ok (a :: bs) (S k) = true → lead_length a = S k.
Proof.
  unfold pass_ok. intros H%bool_decide_eq_true_1.
  pose proof (surrogate_bytes_lead _ _ H) as (a' & b' & Hb & Hl).
  simpl in Hb. simplify_eq. rewrite Hl. simpl. rewrite length_take in *.
  destruct (decide (k <= length bs)%nat); [lia|].
  exfalso. rewrite candidate_short in H by lia. done.
Qed.

Lemma pass_char_encode c b rest :
  Utf8.encode_char c = Some b → pass_char (b ++ rest)%list = Some (c, length b).
Proof.
  intros H. pose proof (candidate_encode _ _ rest H) as Hc.
  assert (pass_ok (b ++ rest) (length b) = true) as Hok.
  { unfold pass_ok. rewrite Hc, take_app_length. apply bool_decide_eq_true_2.
    unfold surrogate_bytes. destruct (_ || _) eqn:E; [|done]. unfold is_high, is_low in E.
    unfold Utf8.encode_char in H. repeat case_match; try done; lia. }
  pose proof (utf8_encode_char_length _ _ H) as Hlen.
  pose proof (encode_char_lead _ _ H) as (a & b' & -> & Hl).
  assert (∀ k, S k ≠ lead_length a → pass_ok (a :: b' ++ rest)%list (S k) = false) as Hother.
  { intros k Hk. destruct (pass_ok (a :: b' ++ rest)%list (S k)) eqn:E; [|done].
    apply pass_ok_lead in E. congruence. }
  unfold pass_char. cbn [app] in *. rewrite <- Hl in *.
  assert (lead_length a = 1 ∨ lead_length a = 2 ∨ lead_length a = 3 ∨ lead_length a = 4)%nat
    as [E|[E|[E|E]]] by lia; rewrite E in *;
    rewrite ?(Hother 0%nat), ?(Hother 1%nat), ?(Hother 2%nat) by done;
    rewrite Hok, Hc; done.
Qed.

Lemma decode_all_skip char n bs : decode_all char n bs = decode_all char 0 (drop n bs).
Proof. revert n. induction bs as [|b bs IH]; intros [|n]; try done. simpl. apply IH. Qed.

Lemma decode_all_encode char t raw :
  (∀ c b rest, Utf8.encode_char c = Some b → char (b ++ rest)%list = Some (c, length b)) →
  Utf8.encode t = Some raw → decode_all char 0 raw = Some t.
Proof.
  intros Hchar. revert raw. induction t as [|c t IH]; simpl; intros raw Hr; simplify_eq; [done|].
  destruct (Utf8.encode_char c) as [b|] eqn:Ec; [|done].
  destruct (Utf8.encode t) as [bs|]; [|done]. simplify_eq.
  pose proof (Hchar _ _ bs Ec) as Hp.
  pose proof (encode_char_lead _ _ Ec) as (a & b' & -> & Hl). simpl in *. rewrite Hp. simpl.
  rewrite decode_all_skip, Nat.sub_0_r, drop_app_length, (IH bs eq_refl). done.
Qed.

Lemma ascii_first c t raw : c < 128 → Utf8.encode (c :: t) = Some raw →
  ∃ raw', raw = c :: raw' ∧ Utf8.encode t = Some raw'.
Proof.
  intros Hc. simpl. unfold Utf8.encode_char. rewrite (proj2 (N.ltb_lt c 128)) by done.
  destruct (Utf8.encode t) as [r|]; [|done]. intros [= <-]. eauto.
Qed.

(** An encoded object is decoded as UTF-8. *)
Lemma loads_bytes_dumps b m raw : json_ok (JObj m) →
  Utf8.encode (dumps b (JObj m)) = Some raw → loads_bytes raw = Ret (canon b (JObj m)).
Proof.
  intros Hok Hr. unfold loads_bytes, decode_bytes.
  assert (detect_encoding raw = (EncUtf8, 0%nat)) as ->.
  { rewrite dumps_obj in Hr.
    assert (∃ c u, join [44] (member_text b <$> (if b then sort_members m else m)) ++ [125]
      = c :: u ∧ c < 128 ∧ c ≠ 0)%list as (c & u & E & Hc & Hz).
    { destruct (if b then _ else _) as [|e l]; [by exists 125, []|].
      exists 34. destruct l as [|e2 l]; eexists; by split_and!. }
    rewrite E in Hr. apply ascii_first in Hr as (r1 & -> & Hr); [|done].
    apply ascii_first in Hr as (r2 & -> & _); [|done].
    unfold detect_encoding.
    rewrite ?bool_decide_eq_false_2 by lia.
    cbn [starts_with]. rewrite ?bool_decide_eq_false_2 by lia. simpl.
    destruct r2 as [|? [|? ?]]; rewrite ?decide_False by done; done. }
  rewrite drop_0, (decode_all_encode _ _ _ pass_char_encode Hr). by apply loads_dumps.
Qed.

(** ** Digits and numbers *)

Lemma number_of_bound ds : forallb is_digit ds = true → number_of ds < 10 ^ N.of_nat (length ds).
Proof.
  induction ds as [|c ds IH] using rev_ind; [done|]. rewrite forallb_app. intros Hd. bools.
  rewrite number_of_snoc, length_app. simpl length. replace (N.of_nat (length ds + 1)) with (N.succ (N.of_nat (length ds))) by lia.
  rewrite N.pow_succ_r'. match goal with E : forallb is_digit [c] = true |- _ => simpl in E; unfold is_digit in E end.
  bools. specialize (IH ltac:(done)). lia.
Qed.

Lemma number_of_lower c ds : is_digit c = true → c ≠ 48 →
  10 ^ N.of_nat (length ds) <= number_of (c :: ds).
Proof.
  intros Hc Hz. change (c :: ds) with ([c] ++ ds)%list. rewrite number_of_app.
  unfold is_digit in Hc. bools. change (number_of [c]) with (0 + (c - 48)). nia.
Qed.

Lemma decimal_number_length ds : ds ≠ [] → forallb is_digit ds = true →
  (length (decimal (number_of ds)) <= length ds)%nat.
Proof.
  intros Hne Hds. pose proof (number_of_bound _ Hds) as Hub.
  destruct (decimal_spec (number_of ds)) as (Hall & Hn & _ & Hz).
  destruct (N.eq_dec (number_of ds) 0) as [E|E].
  { rewrite E. destruct ds; [done|]. simpl. lia. }
  destruct (decimal (number_of ds)) as [|c es]; [simpl; lia|]. simpl in Hall. bools.
  assert (c ≠ 48) as Hc by (intros ->; apply Hz; [lia|done]).
  pose proof (number_of_lower c es ltac:(done) Hc) as Hlb. rewrite Hn in Hlb.
  assert (10 ^ N.of_nat (length es) < 10 ^ N.of_nat (length ds)) as Hlt by lia.
  apply N.pow_lt_mono_r_iff in Hlt; [|lia]. simpl. lia.
Qed.

Lemma digits_all t : forallb is_digit (digits t).1 = true.
Proof.
  induction t as [|c t IH]; simpl; [done|]. destruct (is_digit c) eqn:E; [|done].
  destruct (digits t). simpl in *. by rewrite E.
Qed.
