(* ===== verification/Float64Facts.v ===== *)
(** * Floats read back from their shortest literal

    [Float64.of_decimal] rounds a decimal literal correctly: what it returns depends only
    on the value of the literal, and a literal closer to a finite float than a quarter of
    its last place is read as that float.  Seventeen digits are enough for that, so
    [Float64.float_repr] always finds a literal, and the JSON scanner reads it as the float
    it was printed from ([float_repr_reads]).

    The values are scaled by [2^1074], the inverse of the smallest float, so that exponents
    are natural numbers: the value [A / B] has the exponent [F] when its last place is
    [2^F]. *)

From S2P Require Export JsonFacts.
From stdpp Require Import options.

Local Open Scope Z_scope.

Import JsonParse Float64.

(** ** Where a value lies between two integers *)

Definition located (m : Z) (l : location) (A B : Z) : Prop :=
  match l with
  | loc_Exact => A = m * B
  | loc_Inexact Lt => m * B < A ∧ 2 * A < (2 * m + 1) * B
  | loc_Inexact Eq => 2 * A = (2 * m + 1) * B
  | loc_Inexact Gt => (2 * m + 1) * B < 2 * A ∧ A < (m + 1) * B
  end.

Definition location_of (A B : Z) : location :=
  if A mod B =? 0 then loc_Exact else loc_Inexact (2 * (A mod B) ?= B).

Lemma located_bounds m l A B : 0 < B → located m l A B → m * B <= A < (m + 1) * B.
Proof. intros HB. destruct l as [|[]]; simpl; nia. Qed.

Lemma located_of A B : 0 < B → located (A / B) (location_of A B) A B.
Proof.
  intros HB. pose proof (Z.div_mod A B ltac:(lia)) as E. pose proof (Z.mod_pos_bound A B HB) as Hr.
  unfold location_of. destruct (Z.eqb_spec (A mod B) 0) as [Hz|Hz]; simpl; [lia|].
  destruct (Z.compare_spec (2 * (A mod B)) B); simpl; nia.
Qed.

Lemma located_unique m l A B : 0 < B → located m l A B → m = A / B ∧ l = location_of A B.
Proof.
  intros HB Hl. pose proof (located_bounds _ _ _ _ HB Hl) as Hb.
  assert (m = A / B) as -> by (apply (Z.div_unique_pos _ _ _ (A - m * B)); lia). split; [done|].
  pose proof (Z.div_mod A B ltac:(lia)) as E. unfold location_of.
  destruct l as [|[]]; simpl in Hl.
  - by rewrite (proj2 (Z.eqb_eq (A mod B) 0)) by nia.
  - rewrite (proj2 (Z.eqb_neq (A mod B) 0)) by lia. by rewrite (proj2 (Z.compare_eq_iff _ _)) by nia.
  - rewrite (proj2 (Z.eqb_neq (A mod B) 0)) by nia. by rewrite (proj2 (Z.compare_lt_iff _ _)) by nia.
  - rewrite (proj2 (Z.eqb_neq (A mod B) 0)) by nia. by rewrite (proj2 (Z.compare_gt_iff _ _)) by nia.
Qed.

Lemma located_scale m l A B c : 0 < c → located m l A B → located m l (A * c) (B * c).
Proof. intros Hc. destruct l as [|[]]; simpl; nia. Qed.

Lemma location_scale A B c : 0 < B → 0 < c → location_of (A * c) (B * c) = location_of A B.
Proof.
  intros HB Hc. symmetry. apply (located_unique (A / B) (location_of A B) (A * c) (B * c)); [lia|].
  apply located_scale; [done|]. by apply located_of.
Qed.

(** ** Shifting a value to the right *)

Definition tracked (r : shr_record) (A B : Z) : Prop :=
  0 <= shr_m r ∧ located (shr_m r) (loc_of_shr_record r) A B.

Lemma tracked_shr_1 r A B : 0 < B → tracked r A B → tracked (shr_1 r) A (B * 2).
Proof.
  intros HB [Hm Hl]. destruct r as [m r s]. unfold tracked in *. simpl in Hm.
  destruct m as [|[p|p|]|p]; [..|lia]; destruct r, s; simpl in *; lia || (split; lia).
Qed.

Lemma tracked_iter p : ∀ r A B, 0 < B → tracked r A B → tracked (SpecFloat.iter_pos shr_1 p r) A (B * 2 ^ Zpos p).
Proof.
  induction p as [p IH|p IH|]; intros r A B HB Hr; simpl.
  - replace (B * 2 ^ Z.pos p~1) with ((B * 2) * 2 ^ Zpos p * 2 ^ Zpos p)
      by (replace (Zpos p~1) with (1 + Zpos p + Zpos p) by lia; rewrite !Z.pow_add_r by lia; lia).
    apply IH; [nia|]. apply IH; [lia|]. by apply tracked_shr_1.
  - replace (B * 2 ^ Z.pos p~0) with (B * 2 ^ Zpos p * 2 ^ Zpos p)
      by (replace (Zpos p~0) with (Zpos p + Zpos p) by lia; rewrite !Z.pow_add_r by lia; lia).
    apply IH; [nia|]. by apply IH.
  - by apply tracked_shr_1.
Qed.

Lemma tracked_of_loc m l A B : 0 <= m → located m l A B → tracked (shr_record_of_loc m l) A B.
Proof. intros Hm Hl. split; by destruct l as [|[]]. Qed.

(** ** The exponent of a value *)

Definition shift : Z := 1074.

(** The last place of [A / B]. *)
Definition exponent_of (A B : Z) : Z := Z.max 0 (Z.log2 (A / B) - 52).

Lemma digits2_log p : Zpos (digits2_pos p) = Z.log2 (Zpos p) + 1.
Proof.
  induction p as [p IH|p IH|]; [..|done]; simpl digits2_pos; rewrite Pos2Z.inj_succ, IH.
  - change (Zpos p~1) with (2 * Zpos p + 1). rewrite Z.log2_succ_double by lia. lia.
  - change (Zpos p~0) with (2 * Zpos p). rewrite Z.log2_double by lia. lia.
Qed.

Lemma Zdigits2_log m : 0 < m → Zdigits2 m = Z.log2 m + 1.
Proof. destruct m as [|p|p]; try lia. intros _. apply digits2_log. Qed.

Lemma log2_div_pow n f : 0 <= f → 0 < n / 2 ^ f → Z.log2 (n / 2 ^ f) = Z.log2 n - f.
Proof.
  intros Hf Hq. assert (0 < 2 ^ f) by (apply Z.pow_pos_nonneg; lia).
  assert (2 ^ f <= n) as Hle.
  { destruct (Z.le_gt_cases (2 ^ f) n) as [|Hlt]; [done|]. destruct (Z.le_gt_cases 0 n).
    - rewrite Z.div_small in Hq by lia. lia.
    - pose proof (Z.div_lt_upper_bound n (2 ^ f) 0). lia. }
  rewrite <- Z.shiftr_div_pow2 by lia. rewrite Z.log2_shiftr by nia.
  apply Z.log2_le_mono in Hle. rewrite Z.log2_pow2 in Hle by lia. lia.
Qed.

Lemma fexp_shifted n : fexp prec emax (n - shift) = Z.max 0 (n - 53) - shift.
Proof. unfold fexp, emin, prec, emax, shift. lia. Qed.

Lemma exponent_digits A B f : 0 < B → 0 <= A → 0 <= f <= exponent_of A B →
  fexp prec emax (Zdigits2 (A / (B * 2 ^ f)) + (f - shift)) = exponent_of A B - shift.
Proof.
  intros HB HA Hf. assert (0 < 2 ^ f) as Hp by (apply Z.pow_pos_nonneg; lia).
  replace (Zdigits2 (A / (B * 2 ^ f)) + (f - shift)) with (Zdigits2 (A / (B * 2 ^ f)) + f - shift) by lia.
  rewrite fexp_shifted. f_equal. rewrite <- Z.div_div by lia. unfold exponent_of in *.
  assert (0 <= A / B) as Hq by (apply Z.div_pos; lia).
  destruct (Z.eq_dec (A / B / 2 ^ f) 0) as [E|E].
  - rewrite E. simpl Zdigits2. enough (Z.log2 (A / B) - 52 <= 0) by lia.
    destruct (Z.le_gt_cases (Z.log2 (A / B) - 52) 0) as [|Hlt]; [done|].
    assert (2 ^ f <= A / B) as Hle.
    { destruct (Z.eq_dec (A / B) 0) as [Ez|Ez]; [rewrite Ez in Hlt; simpl in Hlt; lia|].
      etrans; [|apply Z.log2_spec; lia]. apply Z.pow_le_mono_r; lia. }
    assert (1 <= A / B / 2 ^ f) by (apply Z.div_le_lower_bound; lia). lia.
  - assert (0 < A / B / 2 ^ f) as Hpos by (pose proof (Z.div_pos (A / B) (2 ^ f)); lia).
    rewrite Zdigits2_log, log2_div_pow by lia. lia.
Qed.

Lemma shr_first A B f q l : 0 < B → 0 <= A → 0 <= f <= exponent_of A B → located q l A (B * 2 ^ f) →
  ∃ r, shr_fexp prec emax q (f - shift) l = (r, exponent_of A B - shift) ∧
    shr_m r = A / (B * 2 ^ exponent_of A B) ∧ loc_of_shr_record r = location_of A (B * 2 ^ exponent_of A B).
Proof.
  intros HB HA Hf Hl. assert (0 < 2 ^ f) as Hp by (apply Z.pow_pos_nonneg; lia).
  destruct (located_unique q l A (B * 2 ^ f) ltac:(nia) Hl) as [-> ->]. unfold shr_fexp. rewrite exponent_digits by done.
  replace (exponent_of A B - shift - (f - shift)) with (exponent_of A B - f) by lia.
  assert (tracked (shr_record_of_loc (A / (B * 2 ^ f)) (location_of A (B * 2 ^ f))) A (B * 2 ^ f)) as Ht.
  { apply tracked_of_loc; [apply Z.div_pos; nia|done]. }
  assert (0 < 2 ^ exponent_of A B) as Hpe by (apply Z.pow_pos_nonneg; lia).
  destruct (exponent_of A B - f) as [|p|p] eqn:E; [..|lia]; simpl.
  - assert (f = exponent_of A B) as <- by lia. eexists. split; [reflexivity|].
    destruct Ht as [_ Ht]. apply located_unique in Ht; [done|nia].
  - eexists. split; [f_equal; lia|]. apply (tracked_iter p) in Ht as [_ Ht]; [|nia].
    replace (B * 2 ^ f * 2 ^ Zpos p) with (B * 2 ^ exponent_of A B) in Ht.
    + apply located_unique in Ht; [done|nia].
    + replace (exponent_of A B) with (f + Zpos p) by lia. rewrite Z.pow_add_r by lia. lia.
Qed.

(** ** The rounded value *)

(** A mantissa of at most 53 bits and its exponent. *)
Definition pack (s : bool) (m F : Z) : float64 :=
  let '(m, F) := if m =? 2 ^ 53 then (2 ^ 52, F + 1) else (m, F) in
  match m with
  | Z0 => S754_zero s
  | Zpos p => if F - shift <=? 971 then S754_finite s p (F - shift) else S754_infinity s
  | Zneg _ => S754_nan
  end.

Definition rounded (s : bool) (A B : Z) : float64 :=
  let F := exponent_of A B in
  pack s (round_nearest_even (A / (B * 2 ^ F)) (location_of A (B * 2 ^ F))) F.

Lemma mantissa_bounds A B : 0 < B → 0 <= A → let F := exponent_of A B in let m := A / (B * 2 ^ F) in
  0 <= m < 2 ^ 53 ∧ (F = 0 ∨ 2 ^ 52 <= m).
Proof.
  intros HB HA F m. assert (0 <= F) as HF by (unfold F, exponent_of; lia).
  assert (0 < 2 ^ F) as Hp by (apply Z.pow_pos_nonneg; lia).
  assert (0 <= A / B) as Hq by (apply Z.div_pos; lia).
  assert (m = A / B / 2 ^ F) as -> by (unfold m; by rewrite Z.div_div by lia).
  assert (A / B < 2 ^ (53 + F)) as Hlt.
  { destruct (Z.eq_dec (A / B) 0) as [->|E]; [apply Z.pow_pos_nonneg; lia|].
    destruct (Z.log2_spec (A / B) ltac:(lia)) as [_ Hl]. eapply Z.lt_le_trans; [exact Hl|].
    apply Z.pow_le_mono_r; [lia|]. unfold F, exponent_of. lia. }
  rewrite Z.pow_add_r in Hlt by lia. split.
  - split; [by apply Z.div_pos|]. apply Z.div_lt_upper_bound; lia.
  - destruct (Z.eq_dec F 0) as [|HF0]; [by left|right]. apply Z.div_le_lower_bound; [lia|].
    rewrite Z.mul_comm, <- Z.pow_add_r by lia.
    assert (A / B ≠ 0) as Ez by (intros E; unfold F, exponent_of in HF0; rewrite E in HF0; simpl in HF0; lia).
    etrans; [|apply Z.log2_spec; lia]. apply Z.pow_le_mono_r; [lia|]. unfold F, exponent_of in *. lia.
Qed.

Lemma round_bounds m l : 0 <= m → m <= round_nearest_even m l <= m + 1.
Proof. intros Hm. destruct l as [|[]]; simpl; try case_match; lia. Qed.

Lemma shr_second m F : 0 <= F → 0 <= m <= 2 ^ 53 → (F = 0 ∨ 2 ^ 52 <= m) →
  shr_fexp prec emax m (F - shift) loc_Exact =
    if m =? 2 ^ 53 then ({| shr_m := 2 ^ 52; shr_r := false; shr_s := false |}, F + 1 - shift)
    else ({| shr_m := m; shr_r := false; shr_s := false |}, F - shift).
Proof.
  intros HF Hm Hc. unfold shr_fexp. simpl shr_record_of_loc.
  replace (Zdigits2 m + (F - shift)) with (Zdigits2 m + F - shift) by lia. rewrite fexp_shifted.
  destruct (Z.eqb_spec m (2 ^ 53)) as [->|Hne].
  - change (Zdigits2 (2 ^ 53)) with 54.
    replace (Z.max 0 (54 + F - 53) - shift - (F - shift)) with 1 by lia. simpl. f_equal. lia.
  - assert (Zdigits2 m <= 53) as Hd.
    { destruct (Z.eq_dec m 0) as [->|]; [done|]. rewrite Zdigits2_log by lia.
      enough (Z.log2 m < 53) by lia. apply Z.log2_lt_pow2; lia. }
    destruct (Z.max 0 (Zdigits2 m + F - 53) - shift - (F - shift)) as [|p|p] eqn:E; simpl; done || lia.
Qed.

Lemma round_aux_rounded s A B f q l : 0 < B → 0 <= A → 0 <= f <= exponent_of A B → located q l A (B * 2 ^ f) →
  binary_round_aux prec emax s q (f - shift) l = rounded s A B.
Proof.
  intros HB HA Hf Hl. destruct (shr_first A B f q l HB HA Hf Hl) as (r & Hr & Hm & Ho).
  unfold binary_round_aux. rewrite Hr, Hm, Ho. destruct (mantissa_bounds A B HB HA) as [Hb Hc].
  unfold rounded. set (F := exponent_of A B) in *. set (l0 := location_of _ _).
  pose proof (round_bounds (A / (B * 2 ^ F)) l0 (proj1 Hb)) as Hrb.
  rewrite shr_second by lia. unfold pack. destruct (_ =? 2 ^ 53); simpl; [done|].
  by destruct (round_nearest_even _ _).
Qed.

Lemma rounded_scale s A B c : 0 < B → 0 < c → rounded s (A * c) (B * c) = rounded s A B.
Proof.
  intros HB Hc. assert (exponent_of (A * c) (B * c) = exponent_of A B) as E.
  { unfold exponent_of. by rewrite Z.div_mul_cancel_r by lia. }
  unfold rounded. rewrite E. assert (0 < 2 ^ exponent_of A B) by (apply Z.pow_pos_nonneg; unfold exponent_of; lia).
  replace (B * c * 2 ^ exponent_of A B) with (B * 2 ^ exponent_of A B * c) by lia.
  by rewrite Z.div_mul_cancel_r, location_scale by nia.
Qed.

Lemma rounded_same s A B A' B' : 0 < B → 0 < B' → A * B' = A' * B → rounded s A B = rounded s A' B'.
Proof.
  intros HB HB' E. rewrite <- (rounded_scale s A B B'), <- (rounded_scale s A' B' B) by lia. f_equal; lia.
Qed.

(** ** Reading a literal *)

(** The value [m * 10^e], as a fraction of the smallest float. *)
Definition numerator (m e : Z) : Z := m * 10 ^ Z.max e 0 * 2 ^ shift.
Definition denominator (e : Z) : Z := 10 ^ Z.max (- e) 0.

Lemma pow_pos b e : 0 < b → 0 <= e → 0 < b ^ e.
Proof. intros. by apply Z.pow_pos_nonneg. Qed.

Lemma denominator_pos e : 0 < denominator e.
Proof. apply pow_pos; lia. Qed.

Lemma iter_xO p d : Zpos (Pos.iter xO p d) = Zpos p * 2 ^ Zpos d.
Proof.
  induction d as [|d IH] using Pos.peano_ind; [simpl; lia|].
  rewrite Pos.iter_succ, Pos2Z.inj_succ, Z.pow_succ_r by lia. rewrite Pos2Z.inj_xO, IH. lia.
Qed.

Lemma exponent_int M : 0 < M → exponent_of (M * 2 ^ shift) 1 = Z.max 0 (Z.log2 M + 1022).
Proof.
  intros HM. unfold exponent_of. rewrite Z.div_1_r, Z.log2_mul_pow2 by (unfold shift; lia). unfold shift. lia.
Qed.

Lemma round_int s p : binary_round prec emax s p 0 = rounded s (Zpos p * 2 ^ shift) 1.
Proof.
  unfold binary_round. set (F := exponent_of (Zpos p * 2 ^ shift) 1).
  assert (fexp prec emax (Z.pos (digits2_pos p) + 0) = F - shift) as ->.
  { unfold F. rewrite exponent_int, digits2_log by lia. unfold fexp, emin, prec, emax, shift. lia. }
  assert (0 <= F) as HF by (unfold F, exponent_of; lia).
  unfold shl_align. destruct (F - shift - 0) as [|d|d] eqn:E.
  - replace 0 with (shift - shift) at 1 by lia. apply round_aux_rounded; [lia|nia|lia|]. simpl. lia.
  - replace 0 with (shift - shift) at 1 by lia.
    apply round_aux_rounded; [lia|nia|fold F; unfold shift in *; lia|]. simpl. lia.
  - apply round_aux_rounded; [lia|nia|fold F; lia|]. simpl located. rewrite iter_xO.
    replace shift with (Zpos d + F) by lia. rewrite Z.pow_add_r by lia. lia.
Qed.

Lemma div_round p B : 0 < B → ∃ q f l, SFdiv_core_binary prec emax (Zpos p) 0 B 0 = (q, f - shift, l) ∧
  0 <= f <= exponent_of (Zpos p * 2 ^ shift) B ∧ located q l (Zpos p * 2 ^ shift) (B * 2 ^ f).
Proof.
  intros HB. unfold SFdiv_core_binary.
  set (e' := Z.min (fexp prec emax (Zdigits2 (Z.pos p) + 0 - (Zdigits2 B + 0))) (0 - 0)).
  assert (- shift <= e' <= 0) as He by (unfold e', fexp, emin, prec, emax, shift; lia).
  assert (match 0 - 0 - e' with Z0 => Zpos p | Zpos _ => Z.shiftl (Zpos p) (0 - 0 - e') | Zneg _ => 0 end
          = Zpos p * 2 ^ (- e')) as ->.
  { destruct (0 - 0 - e') as [|n|n] eqn:E; [replace (- e') with 0 by lia; lia| |lia].
    rewrite Z.shiftl_mul_pow2 by lia. do 2 f_equal. lia. }
  destruct (Z.div_eucl (Z.pos p * 2 ^ (- e')) B) as [q r] eqn:Eq.
  pose proof (Z_div_mod (Z.pos p * 2 ^ (- e')) B ltac:(lia)) as Hd. rewrite Eq in Hd. destruct Hd as [Ed Hr].
  exists q, (e' + shift), (new_location B r). split; [f_equal; f_equal; lia|].
  assert (located q (new_location B r) (Z.pos p * 2 ^ (- e')) B) as Hl.
  { rewrite Ed. unfold new_location, new_location_even, new_location_odd.
    destruct (Z.even B) eqn:Ev; destruct (Z.eqb_spec r 0) as [->|]; simpl; try lia.
    - destruct (Z.compare_spec (2 * r) B); simpl; nia.
    - assert (Z.odd B = true) as Ho by (by rewrite <- Z.negb_even, Ev).
      apply Z.odd_spec in Ho as [h ->]. destruct (Z.compare_spec (2 * r + 1) (2 * h + 1)); simpl; nia. }
  split.
  - split; [lia|]. unfold e'. rewrite !Zdigits2_log by lia. unfold exponent_of, fexp, emin, prec, emax.
    destruct (Z.le_gt_cases (Z.log2 (Zpos p) - Z.log2 B + 1021) 0) as [|Hlt]; [unfold shift; lia|].
    enough (Z.log2 (Zpos p) - Z.log2 B + 1073 <= Z.log2 (Zpos p * 2 ^ shift / B)) by (unfold shift in *; lia).
    apply Z.log2_le_pow2; [apply Z.div_str_pos; split; [done|]|apply Z.div_le_lower_bound; [done|]].
    + destruct (Z.log2_spec B HB) as [_ Hu]. destruct (Z.log2_spec (Zpos p) ltac:(lia)) as [Hlo _].
      assert (2 ^ Z.succ (Z.log2 B) <= 2 ^ Z.log2 (Zpos p) * 2 ^ shift).
      { rewrite <- Z.pow_add_r by (unfold shift; lia || apply Z.log2_nonneg). apply Z.pow_le_mono_r; unfold shift; lia. }
      pose proof (pow_pos 2 shift ltac:(lia) ltac:(unfold shift; lia)). nia.
    + destruct (Z.log2_spec B HB) as [_ Hu]. destruct (Z.log2_spec (Zpos p) ltac:(lia)) as [Hlo _].
      pose proof (Z.log2_nonneg B). pose proof (Z.log2_nonneg (Zpos p)).
      assert (2 ^ Z.succ (Z.log2 B) * 2 ^ (Z.log2 (Zpos p) - Z.log2 B + 1073) = 2 ^ Z.log2 (Zpos p) * 2 ^ shift) as E.
      { rewrite <- !Z.pow_add_r by (unfold shift; lia). f_equal. unfold shift. lia. }
      pose proof (pow_pos 2 shift ltac:(lia) ltac:(unfold shift; lia)).
      pose proof (pow_pos 2 (Z.log2 (Zpos p) - Z.log2 B + 1073) ltac:(lia) ltac:(lia)). nia.
  - replace (Z.pos p * 2 ^ shift) with (Z.pos p * 2 ^ (- e') * 2 ^ (e' + shift)).
    + apply located_scale; [apply pow_pos; lia|done].
    + rewrite <- Z.mul_assoc, <- Z.pow_add_r by lia. do 2 f_equal. lia.
Qed.

(** The decimal order of magnitude. *)
Definition magnitude (m : N) (e : Z) : Z := e + Z.of_nat (length (decimal m)).

Lemma of_decimal_rounded s p e :
  of_decimal s (Npos p) e =
    if 310 <? magnitude (Npos p) e then S754_infinity s
    else if magnitude (Npos p) e <? -330 then S754_zero s
    else rounded s (numerator (Zpos p) e) (denominator e).
Proof.
  unfold of_decimal. fold (magnitude (Npos p) e). case_match; [done|]. case_match; [done|].
  unfold numerator, denominator. destruct (Z.leb_spec 0 e) as [He|He].
  - rewrite (Z.max_l e 0), (Z.max_r (- e) 0) by lia. change (10 ^ 0) with 1.
    assert (0 < Zpos p * 10 ^ e) as Hpos by (pose proof (pow_pos 10 e); lia).
    destruct (Zpos p * 10 ^ e) as [|M|M] eqn:E; [lia| |lia]. rewrite <- round_int.
    destruct s.
    + by replace (-1 * Z.pos p * 10 ^ e) with (Zneg M) by lia.
    + by replace (1 * Z.pos p * 10 ^ e) with (Zpos M) by lia.
  - rewrite (Z.max_r e 0), (Z.max_l (- e) 0) by lia. change (10 ^ 0) with 1. rewrite Z.mul_1_r.
    destruct (div_round p (10 ^ (- e))) as (q & f & l & -> & Hf & Hl); [apply pow_pos; lia|].
    apply round_aux_rounded; [apply pow_pos; lia|pose proof (pow_pos 2 shift); unfold shift in *; lia|done|done].
Qed.

Lemma decimal_bounds n : (0 < n)%N →
  10 ^ (Z.of_nat (length (decimal n)) - 1) <= Z.of_N n < 10 ^ Z.of_nat (length (decimal n)) ∧
  (0 < length (decimal n))%nat.
Proof.
  intros Hn. destruct (decimal_spec n) as (Hall & Hnum & Hne & Hz). specialize (Hz Hn).
  pose proof (number_of_bound _ Hall) as Hub. rewrite Hnum in Hub.
  destruct (decimal n) as [|c ds] eqn:E; [done|]. simpl in Hall. apply andb_true_iff in Hall as [Hc _].
  assert (c ≠ 48%N) as Hc48 by (intros ->; by apply Hz).
  pose proof (number_of_lower c ds Hc Hc48) as Hlo. rewrite Hnum in Hlo.
  apply N2Z.inj_le in Hlo. apply N2Z.inj_lt in Hub. rewrite !N2Z.inj_pow, !nat_N_Z in Hlo, Hub.
  simpl length. change (Z.of_N 10) with 10 in *. replace (Z.of_nat (S (length ds)) - 1) with (Z.of_nat (length ds)) by lia.
  split; [split; [exact Hlo|exact Hub]|lia].
Qed.

Lemma length_unique n l : (0 < n)%N → 10 ^ (l - 1) <= Z.of_N n < 10 ^ l → 1 <= l → Z.of_nat (length (decimal n)) = l.
Proof.
  intros Hn Hl Hpos. destruct (decimal_bounds n Hn) as [Hb Hp].
  assert (Z.of_nat (length (decimal n)) - 1 < l) by (apply (Z.pow_lt_mono_r_iff 10); lia).
  assert (l - 1 < Z.of_nat (length (decimal n))) by (apply (Z.pow_lt_mono_r_iff 10); lia). lia.
Qed.

(** What a literal is read as depends on its value only. *)
Lemma of_decimal_ten s m e : of_decimal s (10 * m) e = of_decimal s m (e + 1).
Proof.
  destruct m as [|p]; [done|]. assert (0 < N.pos p)%N as Hp by lia.
  destruct (decimal_bounds (Npos p) Hp) as [Hb Hpos].
  assert (magnitude (10 * Npos p) e = magnitude (Npos p) (e + 1)) as Em.
  { unfold magnitude. rewrite (length_unique (10 * Npos p) (Z.of_nat (length (decimal (Npos p))) + 1)); [lia|lia| |lia].
    rewrite N2Z.inj_mul. change (Z.of_N 10) with 10. rewrite Z.pow_add_r by lia.
    replace (Z.of_nat (length (decimal (Npos p))) + 1 - 1) with (Z.succ (Z.of_nat (length (decimal (Npos p))) - 1)) by lia.
    rewrite Z.pow_succ_r by lia. lia. }
  change (10 * Npos p)%N with (Npos (10 * p)) in *. rewrite !of_decimal_rounded, Em.
  case_match; [done|]. case_match; [done|]. apply rounded_same; [apply denominator_pos..|].
  unfold numerator, denominator. rewrite Pos2Z.inj_mul. destruct (Z.le_gt_cases 0 e).
  - rewrite (Z.max_l e 0), (Z.max_l (e + 1) 0), !Z.max_r, Z.pow_add_r by lia. lia.
  - replace (Z.max e 0) with 0 by lia. replace (Z.max (e + 1) 0) with 0 by lia.
    replace (Z.max (- e) 0) with (Z.succ (Z.max (- (e + 1)) 0)) by lia. rewrite Z.pow_succ_r by lia. lia.
Qed.

Lemma of_decimal_tens s m e n : of_decimal s (m * 10 ^ N.of_nat n) e = of_decimal s m (e + Z.of_nat n).
Proof.
  revert m e. induction n as [|n IH]; intros m e; [simpl; f_equal; lia|].
  replace (N.of_nat (S n)) with (N.succ (N.of_nat n)) by lia. rewrite N.pow_succ_r'.
  replace (m * (10 * 10 ^ N.of_nat n))%N with (10 * m * 10 ^ N.of_nat n)%N by lia.
  rewrite IH, of_decimal_ten. f_equal. lia.
Qed.

Lemma of_decimal_sign s m e p x : of_decimal false m e = S754_finite false p x → of_decimal s m e = S754_finite s p x.
Proof.
  destruct m as [|q]; [done|]. rewrite !of_decimal_rounded. case_match; [done|]. case_match; [done|].
  unfold rounded, pack. destruct (if _ =? 2 ^ 53 then (2 ^ 52, _) else (_, _)) as [[|q'|q'] F]; try done.
  case_match; [|done]. by intros [= -> ->].
Qed.

(** ** Finite floats *)

(** The finite floats: 53 bits, or the smallest exponent. *)
Definition float_ok (f : float64) : Prop :=
  match f with
  | S754_finite _ m e => Zpos m < 2 ^ 53 ∧ (2 ^ 52 <= Zpos m ∨ e = - shift) ∧ - shift <= e <= 971
  | _ => True
  end.

Lemma pack_ok s m F : 0 <= F → 0 <= m <= 2 ^ 53 → (F = 0 ∨ 2 ^ 52 <= m) → float_ok (pack s m F).
Proof.
  intros HF Hm Hc. unfold pack. destruct (Z.eqb_spec m (2 ^ 53)) as [->|Hne].
  - change (2 ^ 52) with (Zpos (2 ^ 52)). cbv iota beta. destruct (Z.leb_spec (F + 1 - shift) 971); [|done]. split_and!; try done; lia.
  - destruct m as [|p|p]; [done| |done]. destruct (Z.leb_spec (F - shift) 971); [|done]. simpl. lia.
Qed.

Lemma rounded_ok s A B : 0 < B → 0 <= A → float_ok (rounded s A B).
Proof.
  intros HB HA. destruct (mantissa_bounds A B HB HA) as [Hm Hc]. unfold rounded.
  pose proof (round_bounds (A / (B * 2 ^ exponent_of A B)) (location_of A (B * 2 ^ exponent_of A B)) (proj1 Hm)) as Hr.
  apply pack_ok; [unfold exponent_of; lia|lia|lia].
Qed.

Lemma of_decimal_ok s m e : float_ok (of_decimal s m e).
Proof.
  destruct m as [|p]; [done|]. rewrite of_decimal_rounded. case_match; [done|]. case_match; [done|].
  apply rounded_ok; [apply denominator_pos|]. unfold numerator.
  pose proof (pow_pos 10 (Z.max e 0)). pose proof (pow_pos 2 shift). unfold shift in *. nia.
Qed.

(** ** Literals close to a float *)

Lemma exponent_is A B f : 0 < B → 0 <= f → (f = 0 ∨ 2 ^ (52 + f) * B <= A) → A < 2 ^ (53 + f) * B → 0 <= A →
  exponent_of A B = f.
Proof.
  intros HB Hf Hlo Hhi HA. unfold exponent_of.
  assert (A / B < 2 ^ (53 + f)) as Hq by (apply Z.div_lt_upper_bound; lia).
  assert (0 <= A / B) as Hq0 by (apply Z.div_pos; lia). destruct Hlo as [->|Hlo].
  - destruct (Z.eq_dec (A / B) 0) as [->|]; [done|]. assert (Z.log2 (A / B) < 53) by (apply Z.log2_lt_pow2; lia). lia.
  - assert (2 ^ (52 + f) <= A / B) as Hq1 by (apply Z.div_le_lower_bound; lia).
    pose proof (pow_pos 2 (52 + f)). assert (Z.log2 (A / B) = 52 + f) as ->; [|lia].
    apply Z.log2_unique; [lia|]. split; [lia|]. by replace (Z.succ (52 + f)) with (53 + f) by lia.
Qed.

Lemma rounded_at s A B F m l : 0 < B → exponent_of A B = F → 0 <= F → located m l A (B * 2 ^ F) →
  rounded s A B = pack s (round_nearest_even m l) F.
Proof.
  intros HB HF HF0 Hl. unfold rounded. rewrite HF. pose proof (pow_pos 2 F).
  destruct (located_unique m l A (B * 2 ^ F) ltac:(nia) Hl) as [<- <-]. done.
Qed.

(** Just below a power of two the last place is half as large. *)
Lemma rounded_binade s A B m f : 0 < B → 0 < f → Zpos m = 2 ^ 52 → f - shift <= 971 → A < Zpos m * (2 ^ f * B) →
  Z.abs (A - Zpos m * (2 ^ f * B)) * 2 ^ 54 < Zpos m * (2 ^ f * B) →
  rounded s A B = S754_finite s m (f - shift).
Proof.
  intros HB Hf Em Hmax Hdown Hnear. set (g := f - 1). pose proof (pow_pos 2 g ltac:(lia) ltac:(lia)) as Hg.
  assert (2 ^ f = 2 * 2 ^ g) as Eg by (unfold g; rewrite <- Z.pow_succ_r by lia; f_equal; lia).
  rewrite Em, Eg in *. set (W := 2 ^ g * B) in *. assert (0 < W) as HW by (unfold W; nia).
  replace (2 * 2 ^ g * B) with (2 * W) in * by (unfold W; lia).
  assert (2 ^ (53 + g) * B = 2 ^ 53 * W ∧ 2 ^ (52 + g) * B = 2 ^ 52 * W) as [E53 E52]
    by (unfold W; rewrite !Z.pow_add_r by lia; lia).
  assert (exponent_of A B = g) as HF by (apply exponent_is; rewrite ?E53, ?E52; lia).
  rewrite (rounded_at s A B g (2 ^ 53 - 1) (loc_Inexact Gt)); [|done|done|lia|].
  - simpl round_nearest_even. unfold pack. change (2 ^ 53 - 1 + 1 =? 2 ^ 53) with true. cbv iota beta.
    change (2 ^ 52) with (Zpos (2 ^ 52)) in *. assert (m = 2 ^ 52)%positive as -> by congruence.
    rewrite (proj2 (Z.leb_le _ _)) by lia. f_equal. lia.
  - simpl. replace (B * 2 ^ g) with W by (unfold W; lia). lia.
Qed.

(** A value closer to [m * 2^f] than [2^-54] of it is rounded to it. *)
Lemma rounded_near s A B m f : 0 < B → 0 <= f → Zpos m < 2 ^ 53 → (2 ^ 52 <= Zpos m ∨ f = 0) → f - shift <= 971 →
  Z.abs (A - Zpos m * 2 ^ f * B) * 2 ^ 54 < Zpos m * 2 ^ f * B →
  rounded s A B = S754_finite s m (f - shift).
Proof.
  intros HB Hf Hm Hc Hmax Hnear. pose proof (pow_pos 2 f ltac:(lia) Hf) as Hp. set (U := 2 ^ f * B) in *.
  assert (0 < U) as HU by (unfold U; nia).
  replace (Zpos m * 2 ^ f * B) with (Zpos m * U) in * by (unfold U; lia).
  assert (Zpos m * U < 2 ^ 53 * U) as HmU by (apply Z.mul_lt_mono_pos_r; lia).
  assert (2 * Z.abs (A - Zpos m * U) < U) as Hclose by lia.
  assert (U <= Zpos m * U) as HU1 by nia.
  assert (2 ^ (53 + f) * B = 2 ^ 53 * U ∧ 2 ^ (52 + f) * B = 2 ^ 52 * U) as [E53 E52]
    by (unfold U; rewrite !Z.pow_add_r by lia; lia).
  assert (∀ k, k = Zpos m → pack s k f = S754_finite s m (f - shift)) as Hpack.
  { intros k ->. unfold pack. rewrite (proj2 (Z.eqb_neq _ _)) by lia. by rewrite (proj2 (Z.leb_le _ _)) by lia. }
  destruct (Z.le_gt_cases (Zpos m * U) A) as [Hup|Hdown].
  - assert (exponent_of A B = f) as HF by (apply exponent_is; rewrite ?E53, ?E52; lia || nia).
    destruct (Z.eq_dec A (Zpos m * U)) as [Ea|Ea].
    + rewrite (rounded_at s A B f (Zpos m) loc_Exact); [by apply Hpack|done|done|done|]. simpl. unfold U in Ea. lia.
    + rewrite (rounded_at s A B f (Zpos m) (loc_Inexact Lt)); [by apply Hpack|done|done|done|]. simpl.
      replace (B * 2 ^ f) with U by (unfold U; lia). lia.
  - destruct (Z.eq_dec (Zpos m) (2 ^ 52)) as [Em|Em].
    + destruct (Z.eq_dec f 0) as [->|Hf0].
      * assert (exponent_of A B = 0) as HF by (apply exponent_is; rewrite ?E53, ?E52; lia || nia).
        rewrite (rounded_at s A B 0 (Zpos m - 1) (loc_Inexact Gt)); [apply Hpack; simpl; lia|done|done|done|]. simpl.
        unfold U in *. change (2 ^ 0) with 1 in *. lia.
      * apply rounded_binade; fold U; done || lia.
    + assert (exponent_of A B = f) as HF by (apply exponent_is; rewrite ?E53, ?E52; lia || nia).
      rewrite (rounded_at s A B f (Zpos m - 1) (loc_Inexact Gt)); [apply Hpack; simpl; lia|done|done|done|]. simpl.
      replace (B * 2 ^ f) with U by (unfold U; lia). lia.
Qed.

(** ** Seventeen digits *)

Lemma scaled_pos m e s : 0 < (scaled m e s).1 ∧ 0 < (scaled m e s).2.
Proof.
  unfold scaled. simpl. pose proof (pow_pos 2 (Z.max e 0)). pose proof (pow_pos 10 (Z.max s 0)).
  pose proof (pow_pos 2 (Z.max (- e) 0)). pose proof (pow_pos 10 (Z.max (- s) 0)). nia.
Qed.

(** Sixteen decimal places further. *)
Lemma scaled_up m e s : (scaled m e s).2 <= (scaled m e s).1 →
  10 ^ 16 * (scaled m e (s + 16)).2 <= (scaled m e (s + 16)).1.
Proof.
  unfold scaled. simpl fst. simpl snd. intros Hs.
  assert (10 ^ Z.max s 0 * 10 ^ 16 * 10 ^ Z.max (- (s + 16)) 0 = 10 ^ Z.max (s + 16) 0 * 10 ^ Z.max (- s) 0) as E.
  { rewrite <- !Z.pow_add_r by lia. f_equal. lia. }
  pose proof (pow_pos 10 (Z.max (- s) 0) ltac:(lia) ltac:(lia)) as H1.
  pose proof (pow_pos 10 (Z.max (- (s + 16)) 0) ltac:(lia) ltac:(lia)) as H2.
  set (a := Zpos m * 2 ^ Z.max e 0) in *. set (b := 2 ^ Z.max (- e) 0) in *.
  apply (Z.mul_le_mono_pos_r _ _ (10 ^ Z.max (- s) 0)); [done|].
  replace (a * 10 ^ Z.max (s + 16) 0 * 10 ^ Z.max (- s) 0)
    with (a * 10 ^ Z.max s 0 * (10 ^ 16 * 10 ^ Z.max (- (s + 16)) 0)) by nia.
  replace (10 ^ 16 * (b * 10 ^ Z.max (- (s + 16)) 0) * 10 ^ Z.max (- s) 0)
    with (b * 10 ^ Z.max (- s) 0 * (10 ^ 16 * 10 ^ Z.max (- (s + 16)) 0)) by lia.
  apply Z.mul_le_mono_nonneg_r; [lia|done].
Qed.

(** The estimate of the decimal exponent is never more than one too large: [10^59 <= 2^196]
    and [2^93 <= 10^28] bound [log10 2] closely enough for the exponents of floats. *)
Lemma power_root a b n : 0 < n → 0 <= a → 0 <= b → a ^ n <= b ^ n → a <= b.
Proof. intros Hn Ha Hb Hp. by apply (Z.pow_le_mono_l_iff a b n). Qed.

Lemma ten_59 : 0 <= 10 ^ 59 <= 2 ^ 196.
Proof. split; vm_compute; discriminate. Qed.

Lemma two_93 : 0 <= 2 ^ 93 <= 10 ^ 28.
Proof. split; vm_compute; discriminate. Qed.

Lemma estimate_up L t : 0 <= L <= 1023 → 1 <= t → t * 100000 <= L * 30103 → 10 ^ (t - 1) <= 2 ^ L.
Proof.
  intros HL Ht Hle. apply (power_root _ _ 59); [lia|apply Z.pow_nonneg; lia..|].
  rewrite <- !Z.pow_mul_r by lia. apply (Z.mul_le_mono_pos_r _ _ (10 ^ 59)); [done|].
  rewrite <- Z.pow_add_r by lia. replace ((t - 1) * 59 + 59) with (59 * t) by lia. rewrite Z.pow_mul_r by lia.
  transitivity ((2 ^ 196) ^ t); [apply Z.pow_le_mono_l; exact ten_59|]. rewrite <- Z.pow_mul_r by lia.
  transitivity (2 ^ (L * 59 + 2)); [apply Z.pow_le_mono_r; lia|]. rewrite Z.pow_add_r by lia.
  apply Z.mul_le_mono_nonneg_l; [apply Z.pow_nonneg; lia|done].
Qed.

Lemma estimate_down n u : 0 <= n <= 1074 → 0 <= u → n * 30103 <= u * 100000 → 2 ^ n <= 10 ^ (u + 1).
Proof.
  intros Hn Hu Hle. apply (power_root _ _ 93); [lia|apply Z.pow_nonneg; lia..|].
  rewrite <- !Z.pow_mul_r by lia. replace (n * 93) with (93 * n) by lia. rewrite Z.pow_mul_r by lia.
  transitivity ((10 ^ 28) ^ n); [apply Z.pow_le_mono_l; exact two_93|]. rewrite <- Z.pow_mul_r by lia.
  apply Z.pow_le_mono_r; lia.
Qed.

Lemma estimate_at L : -1074 <= L <= 1023 → let s := 1 - L * 30103 / 100000 in
  2 ^ Z.max (- L) 0 * 10 ^ Z.max (- s) 0 <= 2 ^ Z.max L 0 * 10 ^ Z.max s 0.
Proof.
  intros HL s. set (t := L * 30103 / 100000) in *.
  assert (t * 100000 <= L * 30103 < (t + 1) * 100000) as Ht
    by (pose proof (Z.div_mod (L * 30103) 100000); pose proof (Z.mod_pos_bound (L * 30103) 100000); unfold t; lia).
  assert (s = 1 - t) as Es by done. clearbody s. clearbody t. destruct (Z.le_gt_cases 0 L) as [H0|H0].
  - rewrite (Z.max_r (- L)), (Z.max_l L) by lia. change (2 ^ 0) with 1. destruct (Z.eq_dec t 0) as [->|].
    + pose proof (pow_pos 2 L ltac:(lia) ltac:(lia)). subst s. change (10 ^ Z.max (- (1 - 0)) 0) with 1.
      change (10 ^ Z.max (1 - 0) 0) with 10. lia.
    + pose proof (estimate_up L t). rewrite (Z.max_l (- s)), (Z.max_r s) by lia.
      replace (- s) with (t - 1) by lia. change (10 ^ 0) with 1. lia.
  - pose proof (estimate_down (- L) (- t)). rewrite (Z.max_l (- L)), (Z.max_r L), (Z.max_r (- s)), (Z.max_l s) by lia.
    replace s with (- t + 1) by lia. change (10 ^ 0) with 1. change (2 ^ 0) with 1. lia.
Qed.

Lemma scaled_estimate m e : float_ok (S754_finite false m e) →
  let L := Zpos (digits2_pos m) - 1 + e in
  (scaled m e (1 - L * 30103 / 100000)).2 <= (scaled m e (1 - L * 30103 / 100000)).1.
Proof.
  intros (Hm & _ & He) L. assert (L = Z.log2 (Zpos m) + e) as EL by (unfold L; rewrite digits2_log; lia).
  clearbody L.
  pose proof (Z.log2_nonneg (Zpos m)) as Hl0.
  assert (Z.log2 (Zpos m) < 53) as Hl by (apply Z.log2_lt_pow2; lia).
  destruct (Z.log2_spec (Zpos m) ltac:(lia)) as [Hlo _].
  pose proof (estimate_at L ltac:(unfold shift in *; lia)) as Hest. cbv zeta in Hest. set (s := 1 - L * 30103 / 100000) in *.
  unfold scaled. simpl fst. simpl snd.
  pose proof (pow_pos 2 (Z.max (- L) 0) ltac:(lia) ltac:(lia)) as H1.
  pose proof (pow_pos 2 (Z.max (- e) 0) ltac:(lia) ltac:(lia)) as H2.
  pose proof (pow_pos 2 (Z.max e 0) ltac:(lia) ltac:(lia)) as H3.
  pose proof (pow_pos 10 (Z.max s 0) ltac:(lia) ltac:(lia)) as H4.
  assert (2 ^ Z.max L 0 * 2 ^ Z.max (- e) 0 <= Zpos m * 2 ^ Z.max e 0 * 2 ^ Z.max (- L) 0) as Hv.
  { assert (2 ^ Z.log2 (Zpos m) * 2 ^ Z.max e 0 * 2 ^ Z.max (- L) 0 = 2 ^ Z.max L 0 * 2 ^ Z.max (- e) 0) as <-.
    - rewrite <- !Z.pow_add_r by lia. f_equal. lia.
    - apply Z.mul_le_mono_nonneg_r; [lia|]. apply Z.mul_le_mono_nonneg_r; [lia|done]. }
  apply (Z.mul_le_mono_pos_r _ _ (2 ^ Z.max (- L) 0)); [done|].
  transitivity (2 ^ Z.max L 0 * 10 ^ Z.max s 0 * 2 ^ Z.max (- e) 0); [nia|nia].
Qed.

Lemma decimal_point_low m e : float_ok (S754_finite false m e) →
  let k := decimal_point m e in 10 ^ 16 * (scaled m e (17 - k)).2 <= (scaled m e (17 - k)).1.
Proof.
  intros Hok. unfold decimal_point. set (L := Zpos (digits2_pos m) - 1 + e). set (est := L * 30103 / 100000 + 1).
  destruct (scaled m e (1 - est)) as [a b] eqn:E1. destruct (scaled m e (- est)) as [c d] eqn:E2.
  destruct (Z.ltb_spec a b); [|destruct (Z.leb_spec d c)]; cbv zeta.
  - pose proof (scaled_estimate m e Hok) as Hs. simpl in Hs. fold L in Hs. apply scaled_up in Hs.
    replace (17 - (est - 1)) with (1 - L * 30103 / 100000 + 16) by (unfold est; lia). done.
  - replace (17 - (est + 1)) with (- est + 16) by lia. apply scaled_up. by rewrite E2.
  - replace (17 - est) with (1 - est + 16) by lia. apply scaled_up. by rewrite E1.
Qed.

(** The order of magnitude bounds the value. *)
Lemma magnitude_value p e : let g := magnitude (Npos p) e in
  10 ^ Z.max (g - 1) 0 * denominator e * 2 ^ shift <= numerator (Zpos p) e * 10 ^ Z.max (1 - g) 0 ∧
  numerator (Zpos p) e * 10 ^ Z.max (- g) 0 < 10 ^ Z.max g 0 * denominator e * 2 ^ shift.
Proof.
  cbv zeta. destruct (decimal_bounds (Npos p) ltac:(lia)) as [[Hlo Hhi] Hl]. change (Z.of_N (Npos p)) with (Zpos p) in *.
  unfold magnitude. set (l := Z.of_nat (length (decimal (Npos p)))) in *. assert (1 <= l) as Hl1 by (unfold l; lia).
  unfold numerator, denominator. pose proof (pow_pos 2 shift ltac:(lia) ltac:(unfold shift; lia)) as Hs.
  pose proof (pow_pos 10 (Z.max e 0) ltac:(lia) ltac:(lia)) as He. split.
  - replace (10 ^ Z.max (e + l - 1) 0 * 10 ^ Z.max (- e) 0) with (10 ^ (l - 1) * 10 ^ Z.max e 0 * 10 ^ Z.max (1 - (e + l)) 0)
      by (rewrite <- !Z.pow_add_r by lia; f_equal; lia).
    pose proof (pow_pos 10 (Z.max (1 - (e + l)) 0) ltac:(lia) ltac:(lia)) as Hg.
    replace (Zpos p * 10 ^ Z.max e 0 * 2 ^ shift * 10 ^ Z.max (1 - (e + l)) 0)
      with (Zpos p * 10 ^ Z.max e 0 * 10 ^ Z.max (1 - (e + l)) 0 * 2 ^ shift) by lia.
    repeat (apply Z.mul_le_mono_nonneg_r; [lia|]). done.
  - replace (10 ^ Z.max (e + l) 0 * 10 ^ Z.max (- e) 0) with (10 ^ l * 10 ^ Z.max e 0 * 10 ^ Z.max (- (e + l)) 0)
      by (rewrite <- !Z.pow_add_r by lia; f_equal; lia).
    pose proof (pow_pos 10 (Z.max (- (e + l)) 0) ltac:(lia) ltac:(lia)) as Hg.
    replace (Zpos p * 10 ^ Z.max e 0 * 2 ^ shift * 10 ^ Z.max (- (e + l)) 0)
      with (Zpos p * 10 ^ Z.max e 0 * 10 ^ Z.max (- (e + l)) 0 * 2 ^ shift) by lia.
    repeat (apply Z.mul_lt_mono_pos_r; [lia|]). done.
Qed.

Lemma large_power : 2 ^ 2099 <= 10 ^ 310 * 2 ^ shift.
Proof. vm_compute. discriminate. Qed.

Lemma small_power : 2 * 2 ^ shift <= 10 ^ 331.
Proof. vm_compute. discriminate. Qed.

Lemma power_above g : 310 <= g → 2 ^ 2099 <= 10 ^ g * 2 ^ shift.
Proof.
  intros Hg. etrans; [exact large_power|]. apply Z.mul_le_mono_nonneg_r; [apply Z.pow_nonneg; lia|].
  by apply Z.pow_le_mono_r.
Qed.

Lemma power_below g : 331 <= g → 2 * 2 ^ shift <= 10 ^ g.
Proof. intros Hg. etrans; [exact small_power|]. by apply Z.pow_le_mono_r. Qed.

Lemma magnitude_max p e M : (∀ g, 310 <= g → M <= 10 ^ g * 2 ^ shift) →
  numerator (Zpos p) e < M * denominator e → magnitude (Npos p) e <= 310.
Proof.
  intros HM HA. destruct (Z.le_gt_cases (magnitude (Npos p) e) 310) as [|Hg]; [done|].
  destruct (magnitude_value p e) as [Hlo _]. pose proof (denominator_pos e) as HB.
  rewrite (Z.max_l (_ - 1)), (Z.max_r (1 - _)), Z.mul_1_r in Hlo by lia.
  specialize (HM (magnitude (Npos p) e - 1) ltac:(lia)). apply (Z.mul_le_mono_nonneg_r _ _ (denominator e)) in HM; [|lia]. lia.
Qed.

Lemma magnitude_min p e M : (∀ g, 331 <= g → M <= 10 ^ g) → 2 * 2 ^ shift <= M →
  denominator e < 2 * numerator (Zpos p) e → -330 <= magnitude (Npos p) e.
Proof.
  intros HM Hs HA. destruct (Z.le_gt_cases (-330) (magnitude (Npos p) e)) as [|Hg]; [done|].
  destruct (magnitude_value p e) as [_ Hhi]. pose proof (denominator_pos e) as HB.
  rewrite (Z.max_l (- _)), (Z.max_r (magnitude _ _)) in Hhi by lia. change (10 ^ 0) with 1 in Hhi. rewrite Z.mul_1_l in Hhi.
  specialize (HM (- magnitude (Npos p) e) ltac:(lia)).
  pose proof (pow_pos 10 (- magnitude (Npos p) e) ltac:(lia) ltac:(lia)) as Hq.
  assert (denominator e * (2 * 2 ^ shift) <= denominator e * 10 ^ (- magnitude (Npos p) e)) as Hd
    by (apply Z.mul_le_mono_nonneg_l; lia).
  assert (denominator e * 10 ^ (- magnitude (Npos p) e) < 2 * numerator (Zpos p) e * 10 ^ (- magnitude (Npos p) e)) as Hd2
    by (apply Z.mul_lt_mono_pos_r; done). lia.
Qed.

Lemma value_max m e : Zpos m < 2 ^ 53 → - shift <= e <= 971 → 2 * (Zpos m * 2 ^ (e + shift)) <= 2 ^ 2099.
Proof.
  intros Hm He. change 2099 with (1 + (53 + 2045)). rewrite (Z.pow_add_r 2 1), (Z.pow_add_r 2 53), Z.pow_1_r by lia.
  apply Z.mul_le_mono_nonneg_l; [lia|].
  apply Z.mul_le_mono_nonneg; [lia|by apply Z.lt_le_incl|apply Z.pow_nonneg; lia|].
  apply Z.pow_le_mono_r; [lia|unfold shift; lia].
Qed.

(** A decimal [x] of seventeen digits next to the value is read as the value. *)
Lemma reads_near m e k x : float_ok (S754_finite false m e) →
  10 ^ 16 * (scaled m e (17 - k)).2 <= (scaled m e (17 - k)).1 →
  2 * Z.abs (x * (scaled m e (17 - k)).2 - (scaled m e (17 - k)).1) <= (scaled m e (17 - k)).2 → 0 <= x →
  of_decimal false (Z.to_N x) (k - 17) = S754_finite false m e.
Proof.
  intros (Hm & Hc & He) Hlo Hnear Hx. destruct (scaled_pos m e (17 - k)) as [Ha Hb].
  set (a := (scaled m e (17 - k)).1) in *. set (b := (scaled m e (17 - k)).2) in *.
  assert (0 < x) as Hx0 by (assert (0 < x * b) by lia; nia).
  destruct x as [|p|p]; [lia| |lia]. change (Z.to_N (Zpos p)) with (Npos p).
  set (A := numerator (Zpos p) (k - 17)). set (B := denominator (k - 17)). set (V := Zpos m * 2 ^ (e + shift)).
  pose proof (denominator_pos (k - 17)) as HB. fold B in HB.
  pose proof (pow_pos 2 (Z.max (- e) 0) ltac:(lia) ltac:(lia)) as H2.
  pose proof (pow_pos 2 shift ltac:(lia) ltac:(unfold shift; lia)) as Hs.
  assert (A * 2 ^ Z.max (- e) 0 = 2 ^ shift * (Zpos p * b)) as EA.
  { unfold A, numerator, b, scaled. simpl snd. replace (- (17 - k)) with (k - 17) by lia. lia. }
  assert (V * B * 2 ^ Z.max (- e) 0 = 2 ^ shift * a) as EV.
  { unfold V, B, denominator, a, scaled. simpl fst. replace (- (k - 17)) with (17 - k) by lia.
    assert (2 ^ (e + shift) * 2 ^ Z.max (- e) 0 = 2 ^ shift * 2 ^ Z.max e 0) as E2.
    { rewrite <- !Z.pow_add_r by (unfold shift in *; lia). f_equal. lia. }
    transitivity (Zpos m * 10 ^ Z.max (17 - k) 0 * (2 ^ (e + shift) * 2 ^ Z.max (- e) 0)); [lia|]. rewrite E2. lia. }
  assert (Z.abs (A - V * B) * 2 ^ 54 < V * B) as Hclose.
  { apply (Z.mul_lt_mono_pos_r (2 ^ Z.max (- e) 0)); [done|].
    replace (Z.abs (A - V * B) * 2 ^ 54 * 2 ^ Z.max (- e) 0) with (2 ^ shift * (Z.abs (Zpos p * b - a) * 2 ^ 54)).
    - rewrite EV. apply Z.mul_lt_mono_pos_l; [done|]. change (10 ^ 16) with 10000000000000000 in Hlo. lia.
    - replace (2 ^ shift * (Z.abs (Zpos p * b - a) * 2 ^ 54)) with (Z.abs (2 ^ shift * (Zpos p * b) - 2 ^ shift * a) * 2 ^ 54).
      + rewrite <- EA, <- EV. replace (A * 2 ^ Z.max (- e) 0 - V * B * 2 ^ Z.max (- e) 0)
          with ((A - V * B) * 2 ^ Z.max (- e) 0) by lia. rewrite Z.abs_mul, (Z.abs_eq (2 ^ _)) by lia. lia.
      + replace (2 ^ shift * (Zpos p * b) - 2 ^ shift * a) with (2 ^ shift * (Zpos p * b - a)) by lia.
        rewrite Z.abs_mul, (Z.abs_eq (2 ^ shift)) by lia. lia. }
  assert (2 * A > V * B ∧ A < 2 * (V * B)) as [Hlow Hup] by lia.
  rewrite of_decimal_rounded. fold A B.
  rewrite (proj2 (Z.ltb_ge _ _)), (proj2 (Z.ltb_ge _ _)).
  - replace e with (e + shift - shift) by lia.
    apply rounded_near; [done|unfold shift in *; lia|done|lia|lia|]. fold V. lia.
  - apply (magnitude_min p _ (2 * 2 ^ shift)); [apply power_below|done|]. fold A B.
    assert (1 <= V) as HV by (unfold V; pose proof (pow_pos 2 (e + shift)); lia). nia.
  - apply (magnitude_max p _ (2 ^ 2099)); [apply power_above|]. fold A B.
    apply (Z.lt_le_trans _ _ _ Hup). rewrite Z.mul_assoc. apply Z.mul_le_mono_nonneg_r; [by apply Z.lt_le_incl|].
    by apply value_max.
Qed.

(** ** The shortest literal *)

Lemma within_reads m e k n d : digits_within m e k n = Some d →
  of_decimal false d (k - n) = S754_finite false m e.
Proof.
  unfold digits_within. destruct (scaled m e (n - k)) as [a b]. cbv zeta.
  repeat case_bool_decide; try done; [|by intros [= <-]..]. case_match; by intros [= <-].
Qed.

Lemma within_seventeen m e : float_ok (S754_finite false m e) → digits_within m e (decimal_point m e) 17 ≠ None.
Proof.
  intros Hok. pose proof (decimal_point_low m e Hok) as Hlo. set (k := decimal_point m e) in *.
  assert (∀ x, 0 <= x → 2 * Z.abs (x * (scaled m e (17 - k)).2 - (scaled m e (17 - k)).1) <= (scaled m e (17 - k)).2 →
    of_decimal false (Z.to_N x) (k - 17) = S754_finite false m e) as Hnear by (intros; by apply reads_near).
  destruct (scaled_pos m e (17 - k)) as [Ha Hb]. unfold digits_within.
  destruct (scaled m e (17 - k)) as [a b]. simpl fst in *. simpl snd in *. cbv zeta.
  pose proof (Z.div_mod a b ltac:(lia)) as Ed. pose proof (Z.mod_pos_bound a b Hb) as Hr.
  assert (0 <= a / b) as Hq by (apply Z.div_pos; lia).
  destruct (Z.le_gt_cases (2 * (a mod b)) b) as [Hle|Hgt].
  - rewrite (bool_decide_eq_true_2 (of_decimal false (Z.to_N (a / b)) (k - 17) = S754_finite false m e))
      by (apply Hnear; lia).
    repeat case_match; done.
  - rewrite (bool_decide_eq_true_2 (of_decimal false (Z.to_N (a / b + 1)) (k - 17) = S754_finite false m e))
      by (apply Hnear; lia).
    repeat case_match; done.
Qed.

Lemma shortest_reads m e k n fuel : digits_within m e k 17 ≠ None → 1 <= n → n + Z.of_nat fuel = 18 → (0 < fuel)%nat →
  ∃ d n', shortest m e k n fuel = (d, n') ∧ of_decimal false d (k - n') = S754_finite false m e.
Proof.
  intros H17. revert n. induction fuel as [|fuel IH]; intros n Hn Hf Hpos; [lia|]. simpl.
  destruct (digits_within m e k n) as [d|] eqn:E; [exists d, n; split; [done|by apply within_reads]|].
  destruct (decide (fuel = 0)%nat) as [->|]; [by assert (n = 17) as -> by lia|]. apply IH; lia.
Qed.

Lemma strip_zeros_spec l : ∃ z, l = (repeat 48%N z ++ strip_zeros l)%list ∧ (l ≠ [] → strip_zeros l ≠ []).
Proof.
  induction l as [|c l (z & E & Hne)]; simpl; [by exists O|].
  destruct (bool_decide (c = 48%N) && truthy l) eqn:Hc; [|by exists O].
  apply andb_true_iff in Hc as [->%bool_decide_eq_true_1 Hl]. exists (S z). split; [simpl; by rewrite <- E|].
  intros _. apply Hne. by destruct l.
Qed.

Lemma reverse_zeros z : reverse (repeat 48%N z) = repeat 48%N z.
Proof. induction z as [|z IH]; [done|]. simpl. rewrite reverse_cons, IH. clear IH. by induction z as [|z IH]; simpl; [|rewrite IH]. Qed.

Lemma number_of_zeros z : number_of (repeat 48%N z) = 0%N.
Proof. unfold number_of. by induction z. Qed.

(** The digits of a literal without the zeros at their end. *)
Lemma stripped_digits d : (0 < d)%N → let ds := reverse (strip_zeros (reverse (decimal d))) in
  ∃ z, decimal d = (ds ++ repeat 48%N z)%list ∧ ds ≠ [] ∧ forallb is_digit ds = true ∧ head ds ≠ Some 48%N ∧
    d = (number_of ds * 10 ^ N.of_nat z)%N.
Proof.
  intros Hd ds. destruct (strip_zeros_spec (reverse (decimal d))) as (z & E & Hne).
  destruct (decimal_spec d) as (Hall & Hn & Hnil & Hz). specialize (Hz Hd).
  assert (decimal d = (ds ++ repeat 48%N z)%list) as Eds.
  { rewrite <- (reverse_involutive (decimal d)), E, reverse_app. fold ds. f_equal.
    apply reverse_zeros. }
  assert (ds ≠ []) as Hds.
  { unfold ds. intros E0. apply (f_equal reverse) in E0. rewrite reverse_involutive in E0. apply Hne; [|done].
    intros E1. apply (f_equal reverse) in E1. rewrite reverse_involutive in E1. done. }
  exists z. rewrite Eds in Hall, Hz, Hn. rewrite forallb_app in Hall. apply andb_true_iff in Hall as [Hall _].
  split_and!; try done.
  - by destruct ds.
  - rewrite <- Hn, number_of_app, repeat_length. enough (number_of (repeat 48%N z) = 0%N) as -> by lia. apply number_of_zeros.
Qed.

(** ** The scanner reads the literal *)

Lemma digits_until ds t : forallb is_digit ds = true → match t with [] => True | c :: _ => is_digit c = false end →
  digits (ds ++ t) = (ds, t).
Proof.
  intros Hds Ht. induction ds as [|c ds IH]; simpl in *; [destruct t as [|c t]; simpl; [done|by rewrite Ht]|].
  apply andb_true_iff in Hds as [-> Hds]. by rewrite IH.
Qed.

Lemma zeros_digits n : forallb is_digit (zeros n) = true.
Proof. unfold zeros. by induction (Z.to_nat n). Qed.

Lemma zeros_length n : 0 <= n → Z.of_nat (length (zeros n)) = n.
Proof. intros Hn. unfold zeros. rewrite repeat_length. lia. Qed.

(** The integer part: digits that do not start with a zero, up to a point or an exponent. *)
Lemma integer_part ds c t : ds ≠ [] → forallb is_digit ds = true → head ds ≠ Some 48%N → is_digit c = false →
  integer_digits (ds ++ c :: t) = Some (ds, (c :: t)%list).
Proof.
  intros Hne Hds Hz Hc. unfold integer_digits. rewrite digits_until by done.
  destruct ds as [|d ds]; [done|].
  change ((d :: ds) ++ c :: t)%list with (d :: (ds ++ c :: t))%list. rewrite after_cons, decide_False; [done|]. intros <-. by apply Hz.
Qed.

Lemma fraction_part ds t : ds ≠ [] → forallb is_digit ds = true → match t with [] => True | c :: _ => is_digit c = false end →
  fraction (46%N :: ds ++ t) = (ds, t).
Proof.
  intros Hne Hds Ht. unfold fraction. rewrite after_cons, decide_True by done. rewrite digits_until by done. by destruct ds.
Qed.

(** What a body of a literal is read as. *)
Definition body_reads (t : text) (m : N) (e : Z) : Prop :=
  (∃ c t', t = c :: t' ∧ is_digit c = true) ∧
  ∃ ds fs t2 t3 x, integer_digits t = Some (ds, t2) ∧ fraction t2 = (fs, t3) ∧ exponent t3 = (x, []) ∧
    (fs ≠ [] ∨ x ≠ None) ∧ number_of (ds ++ fs) = m ∧ default 0 x - Z.of_nat (length fs) = e.

Lemma body_number s t m e : body_reads t m e →
  parse_number ((if s : bool then str "-" else []) ++ t) = Ret (JFloat (of_decimal s m e), []).
Proof.
  intros ((c & t' & -> & Hc) & ds & fs & t2 & t3 & x & Hi & Hf & Hx & Hne & <- & <-).
  assert (sign false ((if s then str "-" else []) ++ c :: t') = (s, c :: t')%list) as Hs.
  { destruct s; [done|]. rewrite <- (app_nil_r t'). by apply sign_digits. }
  unfold parse_number. rewrite Hs, Hi, Hf, Hx. destruct fs, x; try done. by destruct Hne.
Qed.

Lemma exponent_part x : exponent (str "e" ++ (if x <? 0 then str "-" else str "+")
    ++ (if Z.of_nat (length (decimal (Z.to_N (Z.abs x)))) <? 2 then str "0" else []) ++ decimal (Z.to_N (Z.abs x))) = (Some x, []).
Proof.
  set (shown := ((if Z.of_nat (length (decimal (Z.to_N (Z.abs x)))) <? 2 then str "0" else []) ++ decimal (Z.to_N (Z.abs x)))%list).
  destruct (decimal_spec (Z.to_N (Z.abs x))) as (Hall & Hnum & Hnil & _).
  assert (forallb is_digit shown = true ∧ shown ≠ [] ∧ number_of shown = Z.to_N (Z.abs x)) as (Hd & Hs & Hn).
  { unfold shown. destruct (_ <? 2); [|done]. split_and!; [done|done|]. change (str "0") with [48%N]. rewrite number_of_app, Hnum.
    change (number_of [48%N]) with 0%N. lia. }
  assert (digits shown = (shown, [])) as Hdig by (rewrite <- (app_nil_r shown) at 1; by apply digits_until).
  unfold exponent. destruct (Z.ltb_spec x 0) as [Hx|Hx].
  - change (str "e" ++ str "-" ++ shown)%list with (101%N :: 45%N :: shown).
    change (bool_decide (101%N = 101%N) || bool_decide (101%N = 69%N)) with true. cbv iota.
    assert (sign true (45%N :: shown) = (true, shown)) as -> by done. rewrite Hdig.
    destruct shown as [|c l]; [done|]. rewrite Hn. do 2 f_equal. lia.
  - change (str "e" ++ str "+" ++ shown)%list with (101%N :: 43%N :: shown).
    change (bool_decide (101%N = 101%N) || bool_decide (101%N = 69%N)) with true. cbv iota.
    assert (sign true (43%N :: shown) = (false, shown)) as -> by done. rewrite Hdig.
    destruct shown as [|c l]; [done|]. rewrite Hn. do 2 f_equal. lia.
Qed.

Section Layout.
Context (ds : text) (decpt : Z).
Context (Hne : ds ≠ []) (Hds : forallb is_digit ds = true) (Hz : head ds ≠ Some 48%N).

Lemma layout_small : decpt <= 0 →
  body_reads (str "0." ++ zeros (- decpt) ++ ds) (number_of ds) (decpt - Z.of_nat (length ds)).
Proof using Hne Hds.
  intros Hd. split; [by eexists _, _|].
  exists [48%N], (zeros (- decpt) ++ ds)%list, (46%N :: zeros (- decpt) ++ ds)%list, [], None.
  assert (forallb is_digit (zeros (- decpt) ++ ds) = true) as Hall by (by rewrite forallb_app, zeros_digits).
  assert ((zeros (- decpt) ++ ds)%list ≠ []) as Hnil by (destruct (zeros (- decpt)); [done|discriminate]).
  split_and!; [done| |done|by left| |].
  - rewrite <- (app_nil_r (zeros (- decpt) ++ ds)) at 1. by apply fraction_part.
  - rewrite app_assoc, number_of_app. change ([48%N] ++ zeros (- decpt))%list with (repeat 48%N (S (Z.to_nat (- decpt)))).
    rewrite number_of_zeros. lia.
  - simpl. rewrite length_app, Nat2Z.inj_add, zeros_length by lia. lia.
Qed.

Lemma layout_point : 0 < decpt < Z.of_nat (length ds) →
  body_reads (take (Z.to_nat decpt) ds ++ str "." ++ drop (Z.to_nat decpt) ds) (number_of ds) (decpt - Z.of_nat (length ds)).
Proof using Hne Hds Hz.
  intros Hd. set (n := Z.to_nat decpt). assert (0 < n < length ds)%nat as Hn by (unfold n; lia).
  pose proof Hds as Hall. rewrite <- (take_drop n ds), forallb_app in Hall. apply andb_true_iff in Hall as [H1 H2].
  assert (take n ds ≠ []) as Ht by (destruct ds, n; simpl in *; done || lia).
  assert (drop n ds ≠ []) as Hdr by (intros E; apply (f_equal length) in E; rewrite length_drop in E; simpl in E; lia).
  assert (head (take n ds) ≠ Some 48%N) as Hh by (destruct ds, n; simpl in *; done || lia).
  split.
  { destruct (take n ds) as [|c l] eqn:E; [done|]. exists c, (l ++ str "." ++ drop n ds)%list. split; [done|].
    simpl in H1. by apply andb_true_iff in H1 as [-> _]. }
  exists (take n ds), (drop n ds), (46%N :: drop n ds)%list, [], None. split_and!; [| |done|by left| |].
  - by apply integer_part.
  - rewrite <- (app_nil_r (drop n ds)) at 1. by apply fraction_part.
  - by rewrite take_drop.
  - simpl. rewrite length_drop. unfold n in *. lia.
Qed.

Lemma layout_whole : Z.of_nat (length ds) <= decpt →
  body_reads (ds ++ zeros (decpt - Z.of_nat (length ds)) ++ str ".0")
    (number_of ds * 10 ^ N.of_nat (S (Z.to_nat (decpt - Z.of_nat (length ds))))) (-1).
Proof using Hne Hds Hz.
  intros Hd. set (zs := zeros (decpt - Z.of_nat (length ds))). split.
  { destruct ds as [|c l]; [done|]. eexists _, _. split; [done|]. simpl in Hds. by apply andb_true_iff in Hds as [-> _]. }
  exists (ds ++ zs)%list, [48%N], (str ".0"), [], None. split_and!; [|done|done|by left| |done].
  - rewrite app_assoc. apply (integer_part (ds ++ zs)); [by destruct ds| |by destruct ds|done].
    unfold zs. by rewrite forallb_app, Hds, zeros_digits.
  - rewrite <- app_assoc, number_of_app. assert ((zs ++ [48%N])%list = repeat 48%N (S (Z.to_nat (decpt - Z.of_nat (length ds)))))
      as -> by (unfold zs, zeros; rewrite <- repeat_cons; done).
    rewrite number_of_zeros, repeat_length. lia.
Qed.

Lemma layout_exponent :
  let n := Z.of_nat (length ds) in let x := decpt - 1 in
  body_reads (take 1 ds ++ (if 1 <? n then str "." ++ drop 1 ds else []) ++ str "e" ++ (if x <? 0 then str "-" else str "+")
    ++ (if Z.of_nat (length (decimal (Z.to_N (Z.abs x)))) <? 2 then str "0" else []) ++ decimal (Z.to_N (Z.abs x)))
    (number_of ds) (decpt - n).
Proof using Hne Hds Hz.
  intros n x. pose proof (exponent_part x) as Hx. set (ex := (str "e" ++ _)%list) in *.
  destruct ds as [|c l] eqn:E; [done|]. simpl in Hds. apply andb_true_iff in Hds as [Hc Hl].
  change (take 1 (c :: l)) with [c]. change (drop 1 (c :: l)) with l. assert (c ≠ 48%N) as Hc48 by (intros ->; by apply Hz).
  split; [by eexists _, _|]. exists [c]. destruct (Z.ltb_spec 1 n) as [Hn|Hn].
  - assert (l ≠ []) as Hl0 by (intros ->; unfold n in Hn; simpl in Hn; lia).
    exists l, (str "." ++ l ++ ex)%list, ex, (Some x). split_and!; [| |done|by left|done|].
    + apply (integer_part [c] 46%N (l ++ ex)); [done|simpl; by rewrite Hc| |done]. by intros [= ->].
    + exact (fraction_part l ex Hl0 Hl eq_refl).
    + unfold n, x. simpl. lia.
  - assert (l = []) as -> by (destruct l; [done|unfold n in Hn; simpl in Hn; lia]).
    exists [], ex, ex, (Some x). split_and!; [|done|done|by right|done|].
    + apply (integer_part [c] 101%N); [done|simpl; by rewrite Hc| |done]. by intros [= ->].
    + unfold n, x. simpl. lia.
Qed.

(** Every layout denotes the digits at their place. *)
Lemma layout_reads s : parse_number ((if s : bool then str "-" else []) ++ layout ds decpt) =
  Ret (JFloat (of_decimal s (number_of ds) (decpt - Z.of_nat (length ds))), []).
Proof using Hne Hds Hz.
  unfold layout. destruct ((-4 <? decpt) && (decpt <=? 16)); [|by apply body_number, layout_exponent].
  destruct (Z.leb_spec decpt 0); [by apply body_number, layout_small|].
  destruct (Z.ltb_spec decpt (Z.of_nat (length ds))); [apply body_number, layout_point; lia|].
  assert (Z.of_nat (length ds) <= decpt) as Hw by lia.
  rewrite (body_number s _ _ _ (layout_whole Hw)), of_decimal_tens. do 4 f_equal. lia.
Qed.

End Layout.

(** Every finite float is printed as a literal that is read as itself. *)
Theorem float_repr_reads f : float_ok f → (∀ s, f ≠ S754_infinity s) → f ≠ S754_nan → float_reads f = true.
Proof.
  intros Hok Hinf Hnan. unfold float_reads. destruct f as [s|s| |s m e]; [by destruct s|by destruct (Hinf s)|done|].
  destruct (shortest_reads m e (decimal_point m e) 1 17) as (d & n & Hs & Hr); [by apply within_seventeen|lia|done|lia|].
  unfold float_repr. rewrite Hs. assert (0 < d)%N as Hd by (destruct d; [done|lia]).
  destruct (stripped_digits d Hd) as (z & Ez & Hne & Hall & Hz & Ed).
  set (ds := reverse (strip_zeros (reverse (decimal d)))) in *. rewrite (layout_reads ds _ Hne Hall Hz s).
  enough (of_decimal s (number_of ds) (decimal_point m e - n + Z.of_nat (length (decimal d)) - Z.of_nat (length ds)) =
          S754_finite s m e) as -> by (by rewrite bool_decide_eq_true_2).
  apply (of_decimal_sign s) in Hr. rewrite Ed, of_decimal_tens in Hr. rewrite <- Hr. f_equal.
  rewrite Ez, length_app, repeat_length. lia.
Qed.

(** ** Numbers of a decoded value *)

(** Every integer is within the digit limit, and every float a float. *)
Fixpoint numbers_ok (j : json) : Prop :=
  match j with
  | JInt z => (length (decimal (Z.abs_N z)) <= INT_MAX_STR_DIGITS)%nat
  | JFloat f => float_ok f
  | JArr l => foldr (fun x acc => numbers_ok x ∧ acc) True l
  | JObj m => foldr (fun e acc => numbers_ok e.2 ∧ acc) True m
  | _ => True
  end.

(** Every number is printed as a literal that reads back. *)
Fixpoint numbers_read (j : json) : Prop :=
  match j with
  | JInt z => (length (decimal (Z.abs_N z)) <= INT_MAX_STR_DIGITS)%nat
  | JFloat f => float_reads f = true
  | JArr l => foldr (fun x acc => numbers_read x ∧ acc) True l
  | JObj m => foldr (fun e acc => numbers_read e.2 ∧ acc) True m
  | _ => True
  end.

Lemma integer_float_ok z b : float_ok (binary_normalize prec emax z 0 b).
Proof.
  destruct z as [|p|p]; [done|..]; simpl; rewrite round_int; apply rounded_ok; nia || lia.
Qed.

Lemma parse_number_ints t j r : parse_number t = Ret (j, r) → numbers_ok j.
Proof.
  unfold parse_number. destruct (sign false t) as [neg t1]. destruct (integer_digits t1) as [[ds t2]|] eqn:Ed; [|done].
  assert (ds ≠ [] ∧ forallb is_digit ds = true) as [Hne Hall].
  { unfold integer_digits in Ed. destruct (after [48%N] t1); [by injection Ed as <- <-|].
    pose proof (digits_all t1) as Ha. destruct (digits t1) as [[|c l] r']; [done|]. by injection Ed as <- <-. }
  destruct (fraction t2) as [[|] t3], (exponent t3) as [[|] t4]; try case_decide; try done; intros [= <- <-];
    try apply of_decimal_ok.
  simpl. pose proof (decimal_number_length _ Hne Hall). unfold signed. destruct neg.
  - rewrite Zabs2N.inj_opp, Zabs2N.id. lia.
  - rewrite Zabs2N.id. lia.
Qed.

Lemma parse_ints (hook : list (text * json) → py json) f :
  (∀ m j, hook m = Ret j → Forall (fun e => numbers_ok e.2) m → numbers_ok j) →
  (∀ t j r, parse_value hook f t = Ret (j, r) → numbers_ok j) ∧
  (∀ t l r, parse_items hook f t = Ret (l, r) → Forall numbers_ok l) ∧
  (∀ t m r, parse_members hook f t = Ret (m, r) → Forall (fun e => numbers_ok e.2) m).
Proof.
  intros Hhook. induction f as [|f (IHv & IHi & IHm)]; [done|]. split_and!.
  - intros [|c t] j r Hr; [done|]. cbn [parse_value] in Hr.
    repeat case_decide; peel; simplify_eq; try done; eauto using parse_number_ints.
    + simpl. apply foldr_and_Forall. eauto.
    + match goal with E : parse_word words _ = Some _ |- _ => revert E end.
      unfold words. rewrite !parse_word_step.
      repeat (destruct (after _ (c :: t)); [by intros [= <- <-]|]). done.
  - intros t l r Hr. cbn [parse_items] in Hr. peel; simplify_eq; repeat constructor; eauto.
  - intros t m r Hr. cbn [parse_members] in Hr. peel; simplify_eq; repeat constructor; simpl; eauto.
Qed.

(** What a decoder returns has its integers within the limit. *)
Lemma loads_with_ints hook t j :
  (∀ m j, hook m = Ret j → Forall (fun e => numbers_ok e.2) m → numbers_ok j) →
  loads_with hook t = Ret j → numbers_ok j.
Proof.
  intros Hhook. unfold loads_with. destruct (after [65279%N] t); [done|]. intros Hr. peel. simplify_eq.
  by eapply (parse_ints hook).
Qed.
