(* ===== verification/Addresses.v ===== *)
(** * Mail addresses

    [config.py]: normalization and validation of the addresses the allowlist,
    the rules and the proposals use, and the admission selector ids built from
    them.  The RFC 2822 address parser ([email.utils.parseaddr]) and the IDNA
    codec are parameters of the model. *)

From S2P Require Export Text Sha256.
From stdpp Require Import options.

Class AddressLib := {
  (** The address part of [parseaddr(value)]. *)
  parseaddr : text → text;
  (** [domain.encode("idna").decode("ascii")]; [None] is [UnicodeError]. *)
  idna : text → option text }.

Definition at_sign : N := 64%N.
Definition dot : N := 46%N.
Definition hyphen : N := 45%N.

Definition ascii_alnum (c : N) : bool :=
  (is_digit c || ((65 <=? c) && (c <=? 90)) || ((97 <=? c) && (c <=? 122)))%N.

(** [DOMAIN_LABEL_RE]: 1 to 63 letters, digits and hyphens, no hyphen at an end. *)
Definition domain_label (label : text) : bool :=
  forallb (fun c => ascii_alnum c || bool_decide (c = hyphen)) label &&
  bool_decide (1 <= length label <= 63)%nat &&
  match label with c :: _ => ascii_alnum c | [] => false end &&
  match reverse label with c :: _ => ascii_alnum c | [] => false end.

Section WithLibraries.
Context `{Unicode} `{AddressLib}.

(** [normalize_address] *)
Definition normalize_address (value : text) : text := uni_casefold (strip (parseaddr value)).

(** [_valid_domain] *)
Definition valid_domain (domain : text) : bool :=
  match idna domain with
  | None => false
  | Some ascii_domain =>
      bool_decide (length ascii_domain <= 253)%nat &&
      forallb domain_label (split_on dot ascii_domain)
  end.

(** [normalize_validated_address]; [None] is [ValueError]. *)
Definition normalize_validated_address (value : text) : option text :=
  let email := normalize_address value in
  let '(local, found, domain) := rpartition at_sign email in
  if negb found || negb (truthy local) || negb (truthy domain)
     || bool_decide (at_sign ∈ local)
     || starts_with local [dot] || ends_with local [dot]
     || contains local [dot; dot]
     || negb (valid_domain domain)
     || existsb (fun c => uni_isspace c || negb (uni_isprintable c)) email
  then None else Some email.

Definition EXACT_SENDER_SELECTOR_PREFIX : text := str "sender:".
Definition MAX_ADMISSION_SELECTOR_BYTES : nat := 512.

(** [exact_sender_selector_id]; [None] is [ValueError]. *)
Definition exact_sender_selector_id (value : text) : option text :=
  match normalize_validated_address value with
  | None => None
  | Some email =>
      let selector_id := EXACT_SENDER_SELECTOR_PREFIX ++ email in
      if within_utf8_bytes selector_id MAX_ADMISSION_SELECTOR_BYTES
      then Some selector_id else None
  end.

(** [Config.allowlist], as the list of member addresses. *)
Definition allowlist (sender_emails : list text) : list text :=
  List.filter (fun e => is_some (exact_sender_selector_id e)) sender_emails.

End WithLibraries.

(** The kinds of [THREAD_ADMISSION_SELECTOR_PREFIXES]. *)
Inductive thread_selector := VendorAddress | VendorDomain | SentToVendor | ThreadFollow.

Definition thread_selector_prefix (k : thread_selector) : text :=
  match k with
  | VendorAddress | VendorDomain => str "vendor-address:"
  | SentToVendor => str "vendor-recipient:"
  | ThreadFollow => str "thread:"
  end.

(** [thread_capture_selector_id]; [None] is an exception. *)
Definition thread_capture_selector_id (kind : thread_selector) (value : text) : option text :=
  if negb (truthy value) then None
  else match Utf8.encode value with
       | None => None
       | Some b => Some (thread_selector_prefix kind ++ Sha256.hexdigest b)
       end.

(** ** Facts *)

Lemma rpartition_found sep t head tail :
  rpartition sep t = (head, true, tail) → t = head ++ sep :: tail ∧ sep ∉ tail.
Proof.
  revert head tail. induction t as [|c t IH]; intros head tail Hp; simpl in Hp; [done|].
  destruct (rpartition sep t) as [[h f] tl] eqn:E. destruct f.
  - simplify_eq. destruct (IH _ _ eq_refl) as [-> ?]. done.
  - case_decide; simplify_eq. split; [done|].
    clear IH. revert h tl E. induction tail as [|c t IH]; intros h tl E; [set_solver|].
    simpl in E. destruct (rpartition sep t) as [[h' f'] tl'] eqn:E'.
    destruct f'; simplify_eq. case_decide; simplify_eq.
    apply not_elem_of_cons. split; [done|]. eapply IH. done.
Qed.

(** An address that passes validation has exactly one at-sign, a non-empty local
    part without misplaced dots, and a valid domain. *)
Lemma normalize_validated_address_shape `{Unicode} `{AddressLib} value email :
  normalize_validated_address value = Some email →
  ∃ local domain,
    email = local ++ at_sign :: domain ∧ email = normalize_address value ∧
    local ≠ [] ∧ domain ≠ [] ∧ at_sign ∉ local ∧ at_sign ∉ domain ∧
    contains local [dot; dot] = false ∧ valid_domain domain = true ∧
    Forall (λ c, uni_isspace c = false ∧ uni_isprintable c = true) email.
Proof.
  unfold normalize_validated_address.
  destruct (rpartition at_sign (normalize_address value)) as [[local found] domain] eqn:Ep.
  case_match eqn:Hg; [done|]. intros [= <-]. bools. subst found.
  apply rpartition_found in Ep as [Hemail Hdom].
  exists local, domain. rewrite Hemail. repeat split; try done.
  rewrite <- Hemail, list.Forall_forall. intros c Hc.
  match goal with H : existsb _ _ = false |- _ =>
    rewrite existsb_false in H; specialize (H c Hc) end. bools. done.
Qed.

(** Selector ids are bounded: 512 bytes for a sender, 81 characters for a
    vendor or thread. *)
Lemma exact_sender_selector_bounded `{Unicode} `{AddressLib} value id :
  exact_sender_selector_id value = Some id →
  within_utf8_bytes id MAX_ADMISSION_SELECTOR_BYTES = true.
Proof.
  unfold exact_sender_selector_id. case_match; [|done]. case_match eqn:Hw; [|done]. congruence.
Qed.

Lemma thread_capture_selector_bounded kind value id :
  thread_capture_selector_id kind value = Some id → (length id <= 81)%nat.
Proof.
  unfold thread_capture_selector_id. repeat case_match; intros; simplify_eq.
  rewrite length_app, hexdigest_length. destruct kind; vm_compute; lia.
Qed.
