(* ===== verification/IsoTime.v ===== *)
(** * Dates, [isoformat] and [fromisoformat]

    Timestamps are stored as ISO-8601 text and read back with
    [datetime.fromisoformat].  A [datetime] is its wall-clock reading in
    microseconds since 0001-01-01T00:00:00 and its UTC offset in microseconds
    ([None] for a naive value).  The parser follows the library's: the date/time
    separator search, the extended, basic and ISO-week dates, truncated times,
    fractions, and offsets.  Time zones named by IANA keys come from a data file:
    [ZoneInfo] is a parameter of the definitions that use one. *)

From S2P Require Export Text.
From stdpp Require Import options.

Local Open Scope Z_scope.

Definition US : Z := 1000000.
Definition DAY : Z := 86400 * US.
Definition MINUTE : Z := 60 * US.
(** Days from 0001-01-01 to 10000-01-01, exclusive upper bound of a date. *)
Definition MAX_DAYS : Z := 3652059.
(** Wall clock of 1970-01-01T00:00:00. *)
Definition EPOCH : Z := 719162 * DAY.

Record datetime := mk_datetime { dt_wall : Z; dt_offset : option Z }.

Global Instance datetime_eq_dec : EqDecision datetime.
Proof. solve_decision. Defined.

Definition wall_ok (w : Z) : bool := (0 <=? w) && (w <? MAX_DAYS * DAY).

Definition utc (w : Z) : datetime := mk_datetime w (Some 0).

(** [value.astimezone(UTC)] of an aware value: its instant, or [OverflowError]. *)
Definition astimezone_utc (d : datetime) : py Z :=
  match d.(dt_offset) with
  | None => Raise (ValueError "naive datetime")
  | Some off =>
      let w := d.(dt_wall) - off in
      if wall_ok w then Ret w else Raise OverflowError
  end.

(** ** The proleptic Gregorian calendar *)

Definition is_leap (y : Z) : bool :=
  (y mod 4 =? 0) && (negb (y mod 100 =? 0) || (y mod 400 =? 0)).

Definition days_before_year (y : Z) : Z :=
  (y - 1) * 365 + (y - 1) / 4 - (y - 1) / 100 + (y - 1) / 400.

Definition days_in_month (y m : Z) : Z :=
  if m =? 2 then (if is_leap y then 29 else 28)
  else if (m =? 4) || (m =? 6) || (m =? 9) || (m =? 11) then 30 else 31.

Definition days_before_month (y m : Z) : Z :=
  foldr (fun k acc => days_in_month y (Z.of_nat k) + acc) 0 (seq 1 (Z.to_nat (m - 1))).

(** Days since 0001-01-01. *)
Definition ymd_days (y m d : Z) : Z := days_before_year y + days_before_month y m + (d - 1).

Definition valid_date (y m d : Z) : bool :=
  (1 <=? y) && (y <=? 9999) && (1 <=? m) && (m <=? 12) && (1 <=? d) && (d <=? days_in_month y m).

(** The month and day of a zero-based day of the year. *)
Fixpoint month_of (y : Z) (m : Z) (fuel : nat) (n : Z) : Z * Z :=
  match fuel with
  | O => (m, n + 1)
  | S fuel' =>
      if n <? days_in_month y m then (m, n + 1)
      else month_of y (m + 1) fuel' (n - days_in_month y m)
  end.

(** [_ord2ymd], from days since 0001-01-01. *)
Definition days_ymd (n : Z) : Z * Z * Z :=
  let n400 := n / 146097 in let n := n mod 146097 in
  let n100 := n / 36524 in let n := n mod 36524 in
  let n4 := n / 1461 in let n := n mod 1461 in
  let n1 := n / 365 in let n' := n mod 365 in
  let year := n400 * 400 + n100 * 100 + n4 * 4 + n1 + 1 in
  if (n1 =? 4) || (n100 =? 4) then (year - 1, 12, 31)
  else let '(m, d) := month_of year 1 12 n' in (year, m, d).

(** [_isoweek_to_gregorian]: days since 0001-01-01 of an ISO week date. *)
Definition isoweek_days (y week day : Z) : option Z :=
  let jan1 := days_before_year y in
  let first_weekday := (jan1 + 1) mod 7 in
  let long := (first_weekday =? 4) || ((first_weekday =? 3) && is_leap y) in
  if negb ((1 <=? y) && (y <=? 9999)) then None
  else if negb ((0 <? week) && (week <? 53)) && negb ((week =? 53) && long) then None
  else if negb ((0 <? day) && (day <? 8)) then None
  else
    (* weekday of Jan 1 with Monday = 0 *)
    let firstweekday := jan1 mod 7 in
    let week1monday := jan1 - firstweekday in
    let week1monday := if 3 <? firstweekday then week1monday + 7 else week1monday in
    let n := week1monday + (week - 1) * 7 + (day - 1) in
    if (0 <=? n) && (n <? MAX_DAYS) then Some n else None.

(** ** Formatting *)

Definition digit (z : Z) : N := Z.to_N (48 + z).

(** [k] decimal digits, zero padded. *)
Fixpoint fmt (k : nat) (z : Z) : text :=
  match k with
  | O => []
  | S k' => (fmt k' (z / 10) ++ [digit (z mod 10)])%list
  end.

Definition colon : N := 58%N.
Definition dash : N := 45%N.

Definition fmt_time (us : Z) : text :=
  let s := us / US in let f := us mod US in
  (fmt 2 (s / 3600) ++ [colon] ++ fmt 2 (s / 60 mod 60) ++ [colon] ++ fmt 2 (s mod 60) ++
   (if f =? 0 then [] else [46%N] ++ fmt 6 f))%list.

Definition fmt_offset (off : Z) : text :=
  let sign := if off <? 0 then dash else 43%N in
  let a := Z.abs off in let s := a / US in let f := a mod US in
  ([sign] ++ fmt 2 (s / 3600) ++ [colon] ++ fmt 2 (s / 60 mod 60) ++
   (if (s mod 60 =? 0) && (f =? 0) then []
    else [colon] ++ fmt 2 (s mod 60) ++ (if f =? 0 then [] else [46%N] ++ fmt 6 f)))%list.

(** [value.isoformat()] *)
Definition isoformat (d : datetime) : text :=
  let '(y, m, dd) := days_ymd (d.(dt_wall) / DAY) in
  (fmt 4 y ++ [dash] ++ fmt 2 m ++ [dash] ++ fmt 2 dd ++ [84%N] ++
   fmt_time (d.(dt_wall) mod DAY) ++
   match d.(dt_offset) with None => [] | Some off => fmt_offset off end)%list.

(** ** Parsing *)

Fixpoint number_from (acc : Z) (t : text) : option Z :=
  match t with
  | [] => Some acc
  | c :: t' => if is_digit c then number_from (10 * acc + (Z.of_N c - 48)) t' else None
  end.

(** Exactly [k] digits in front. *)
Definition number (k : nat) (t : text) : option Z :=
  if decide (length (take k t) = k) then number_from 0 (take k t) else None.

Definition char_at (t : text) (i : nat) : option N := t !! i.
Definition char_is (t : text) (i : nat) (c : N) : bool := bool_decide (t !! i = Some c).
Definition digit_at (t : text) (i : nat) : bool :=
  match t !! i with Some c => is_digit c | None => false end.

Fixpoint digit_run (t : text) : nat :=
  match t with
  | [] => O
  | c :: t' => if is_digit c then S (digit_run t') else O
  end.

(** [_find_isoformat_datetime_separator] *)
Definition separator_location (t : text) : option nat :=
  let len := length t in
  if decide (len = 7)%nat then Some 7%nat
  else if decide (len < 7)%nat then None
  else if char_is t 4 dash then
    if char_is t 5 87%N then
      if (8 <? Z.of_nat len) && char_is t 8 dash then
        if decide (len = 9)%nat then None
        else if (10 <? Z.of_nat len) && digit_at t 10 then Some 8%nat else Some 10%nat
      else Some 8%nat
    else Some 10%nat
  else if char_is t 4 87%N then
    let idx := (7 + digit_run (drop 7 t))%nat in
    if decide (idx < 9)%nat then Some idx
    else if Nat.even idx then Some 7%nat else Some 8%nat
  else Some 8%nat.

(** [_parse_isoformat_date]: days since 0001-01-01. *)
Definition parse_date (t : text) : option Z :=
  let len := length t in
  if negb (bool_decide (len = 7 ∨ len = 8 ∨ len = 10)%nat) then None
  else
    year ← number 4 t;
    let has_sep := char_is t 4 dash in
    let t := drop (if has_sep then 5 else 4)%nat t in
    if char_is t 0 87%N then
      week ← number 2 (drop 1 t);
      let t := drop 3 t in
      match t with
      | [] => isoweek_days year week 1
      | _ =>
          if negb (Bool.eqb (char_is t 0 dash) has_sep) then None
          else
            let t := if has_sep then drop 1 t else t in
            day ← number 1 t;
            if decide (length t = 1)%nat then isoweek_days year week day else None
      end
    else
      month ← number 2 t;
      let t := drop 2 t in
      if negb (Bool.eqb (char_is t 0 dash) has_sep) then None
      else
        let t := if has_sep then drop 1 t else t in
        day ← number 2 t;
        if decide (length t = 2)%nat then
          if valid_date year month day then Some (ymd_days year month day) else None
        else None.

(** The fraction after ['.'] or [',']: microseconds. *)
Definition parse_fraction (t : text) : option Z :=
  let k := Nat.min 6 (length t) in
  if decide (k = 0)%nat then None
  else
    n ← number k t;
    if forallb is_digit (drop k t) then Some (n * 10 ^ Z.of_nat (6 - k)) else None.

Definition parse_tail (h m s : Z) (t : text) : option (Z * Z * Z * Z) :=
  match t with
  | [] => Some (h, m, s, 0)
  | c :: rest =>
      if bool_decide (c = 46%N) || bool_decide (c = 44%N) then
        us ← parse_fraction rest; Some (h, m, s, us)
      else None
  end.

(** [_parse_hh_mm_ss_ff] *)
Definition parse_hms (t : text) : option (Z * Z * Z * Z) :=
  h ← number 2 t;
  let t := drop 2 t in
  let has_sep := char_is t 0 colon in
  match t with
  | [] => Some (h, 0, 0, 0)
  | _ =>
      let t := if has_sep then drop 1 t else t in
      m ← number 2 t;
      let t := drop 2 t in
      match t with
      | [] => Some (h, m, 0, 0)
      | _ =>
          if has_sep && negb (char_is t 0 colon) then None
          else
            let t := if has_sep then drop 1 t else t in
            s ← number 2 t;
            parse_tail h m s (drop 2 t)
      end
  end.

Fixpoint index_of (c : N) (t : text) : option nat :=
  match t with
  | [] => None
  | x :: t' => if decide (x = c) then Some O else S <$> index_of c t'
  end.

(** Position of the offset sign: the first ['-'], else ['+'], else ['Z']. *)
Definition zone_position (t : text) : option nat :=
  match index_of dash t with
  | Some i => Some i
  | None => match index_of 43%N t with Some i => Some i | None => index_of 90%N t end
  end.

Definition hms_us (c : Z * Z * Z * Z) : Z :=
  let '(h, m, s, us) := c in ((h * 60 + m) * 60 + s) * US + us.

Definition parse_zone (sign : N) (t : text) : option Z :=
  if bool_decide (length t = 0 ∨ length t = 1 ∨ length t = 3)%nat || bool_decide (sign = 90%N)
  then None
  else
    c ← parse_hms t;
    let off := if bool_decide (sign = dash) then - hms_us c else hms_us c in
    if (- DAY <? off) && (off <? DAY) then Some off else None.

Definition valid_time (c : Z * Z * Z * Z) : bool :=
  let '(h, m, s, _) := c in (h <? 24) && (m <? 60) && (s <? 60).

(** [_parse_isoformat_time]: microseconds of the day and the offset. *)
Definition parse_time (t : text) : option (Z * option Z) :=
  if decide (length t < 2)%nat then None
  else
    match zone_position t with
    | None =>
        c ← parse_hms t; if valid_time c then Some (hms_us c, None) else None
    | Some i =>
        c ← parse_hms (take i t);
        let sign := default 0%N (t !! i) in
        off ← (if bool_decide (S i = length t ∧ sign = 90%N) then Some 0
               else parse_zone sign (drop (S i) t));
        if valid_time c then Some (hms_us c, Some off) else None
    end.

(** [datetime.fromisoformat(value)]; [None] is [ValueError]. *)
Definition fromisoformat (t : text) : option datetime :=
  sep ← separator_location t;
  days ← parse_date (take sep t);
  if decide (length t <= S sep)%nat then
    Some (mk_datetime (days * DAY) None)
  else
    tm ← parse_time (drop (S sep) t);
    Some (mk_datetime (days * DAY + tm.1) tm.2).

(** [_sqlite_aware_iso_epoch] (db.py): the instant of an aware stored timestamp
    as microseconds, [None] for anything else.  The code returns the same instant
    as float seconds since 1970.  Below 2^32 seconds (year 2106) adjacent floats
    are less than half a microsecond apart, so distinct instants stay distinct and
    a comparison has the same outcome on both scales. *)
Definition aware_iso_epoch (value : text) : option Z :=
  match fromisoformat value with
  | Some d => py_option (astimezone_utc d)
  | None => None
  end.

Example iso_parse_utc :
  fromisoformat (str "2026-03-01T09:30:00+00:00") =
  Some (mk_datetime ((ymd_days 2026 3 1) * DAY + (9 * 3600 + 30 * 60) * US) (Some 0)).
Proof. vm_compute. reflexivity. Qed.

Example iso_parse_zulu :
  fromisoformat (str "20260301T093000.25Z") =
  Some (mk_datetime ((ymd_days 2026 3 1) * DAY + (9 * 3600 + 30 * 60) * US + 250000) (Some 0)).
Proof. vm_compute. reflexivity. Qed.

Example iso_parse_week :
  fromisoformat (str "2026-W09-7") = Some (mk_datetime (ymd_days 2026 3 1 * DAY) None).
Proof. vm_compute. reflexivity. Qed.

Example iso_print :
  isoformat (mk_datetime ((ymd_days 2026 3 1) * DAY + 34200 * US + 7) (Some (-18000 * US))) =
  str "2026-03-01T09:30:00.000007-05:00".
Proof. vm_compute. reflexivity. Qed.

Example iso_bad : fromisoformat (str "2026-02-30T09:30:00+00:00") = None.
Proof. vm_compute. reflexivity. Qed.
