(* ===== verification/IsoTimeFacts.v ===== *)
(** * Facts about timestamps: calendar arithmetic and the ISO round trip

    [days_ymd] and [ymd_days] are inverse on the supported range (years 1 to
    9999), and every UTC timestamp the program writes with [isoformat] is read
    back unchanged by [fromisoformat]. *)

From S2P Require Export IsoTime.
From stdpp Require Import options.

Local Open Scope Z_scope.
Local Ltac Zify.zify_post_hook ::= Z.to_euclidean_division_equations.

(** ** The calendar *)

Lemma days_in_month_leap y y' m :
  is_leap y = is_leap y' → days_in_month y m = days_in_month y' m.
Proof. unfold days_in_month. by intros ->. Qed.

Lemma days_before_month_leap y y' m :
  is_leap y = is_leap y' → days_before_month y m = days_before_month y' m.
Proof.
  intros H. unfold days_before_month.
  induction (seq 1 (Z.to_nat (m - 1))) as [|k l IH]; simpl; [done|].
  by rewrite (days_in_month_leap y y'), IH.
Qed.

Lemma month_of_leap y y' m fuel n :
  is_leap y = is_leap y' → month_of y m fuel n = month_of y' m fuel n.
Proof.
  intros H. revert m n. induction fuel as [|fuel IH]; intros m n; simpl; [done|].
  rewrite (days_in_month_leap y y') by done. case_match; [done|]. apply IH.
Qed.

(** The day table of one year, for a common year (1) and a leap year (4). *)
Definition day_ok (y n : Z) : bool :=
  let '(m, d) := month_of y 1 12 n in
  (1 <=? m) && (m <=? 12) && (1 <=? d) && (d <=? days_in_month y m) &&
  (days_before_month y m + (d - 1) =? n).

Fixpoint days_check (y : Z) (fuel : nat) (n : Z) : bool :=
  match fuel with
  | O => true
  | S fuel' => day_ok y n && days_check y fuel' (n + 1)
  end.

Lemma days_check_sound y fuel n k :
  days_check y fuel n = true → n <= k < n + Z.of_nat fuel → day_ok y k = true.
Proof.
  revert n. induction fuel as [|fuel IH]; intros n H Hk; [lia|].
  simpl in H. bools. destruct (decide (k = n)) as [->|]; [done|].
  apply (IH (n + 1)); [done|lia].
Qed.

Lemma days_checked : days_check 1 365 0 && days_check 4 365 0 = true.
Proof. vm_compute. reflexivity. Qed.

Lemma month_of_spec y n m d :
  0 <= n < 365 → month_of y 1 12 n = (m, d) →
  1 <= m <= 12 ∧ 1 <= d <= days_in_month y m ∧ days_before_month y m + (d - 1) = n.
Proof.
  intros Hn Hm. pose proof days_checked as Hc. bools.
  assert (∃ y', is_leap y = is_leap y' ∧ day_ok y' n = true) as (y' & Hl & Hok).
  { destruct (is_leap y); [exists 4 | exists 1]; (split; [done|]);
      eapply days_check_sound; first [eassumption | lia]. }
  unfold day_ok in Hok. rewrite <- (month_of_leap y y'), Hm in Hok by done.
  rewrite (days_in_month_leap y y'), (days_before_month_leap y y') by done. lia.
Qed.

Lemma is_leap_mod y : is_leap y = true ↔ y mod 4 = 0 ∧ (y mod 100 ≠ 0 ∨ y mod 400 = 0).
Proof. unfold is_leap. lia. Qed.

Lemma div_split n k : 0 < k → 0 <= n →
  ∃ q r, n / k = q ∧ n mod k = r ∧ n = k * q + r ∧ 0 <= r < k ∧ 0 <= q.
Proof.
  intros Hk Hn. exists (n / k), (n mod k). repeat split; try done.
  - by apply Z.div_mod, Z.neq_sym, Z.lt_neq.
  - by apply Z.mod_pos_bound.
  - by apply Z.mod_pos_bound.
  - by apply Z.div_pos.
Qed.

(** The calendar round trip. *)
Lemma days_ymd_spec n y m d :
  0 <= n < MAX_DAYS → days_ymd n = (y, m, d) →
  valid_date y m d = true ∧ ymd_days y m d = n.
Proof.
  unfold MAX_DAYS, days_ymd, valid_date, ymd_days. intros Hn.
  destruct (div_split n 146097) as (q & r & -> & -> & -> & Hr & Hq); [lia..|].
  destruct (div_split r 36524) as (n100 & r1 & -> & -> & -> & Hr1 & H100); [lia..|].
  destruct (div_split r1 1461) as (n4 & r2 & -> & -> & -> & Hr2 & H4); [lia..|].
  destruct (div_split r2 365) as (n1 & r3 & -> & -> & -> & Hr3 & H1); [lia..|].
  set (x := q * 400 + n100 * 100 + n4 * 4 + n1).
  destruct ((n1 =? 4) || (n100 =? 4)) eqn:Esp.
  - intros [= <- <- <-].
    assert (is_leap (x + 1 - 1) = true) as Hleap by (apply is_leap_mod; unfold x; lia).
    rewrite (days_in_month_leap _ 4), (days_before_month_leap _ 4) by done.
    change (days_in_month 4 12) with 31. change (days_before_month 4 12) with 335.
    unfold days_before_year, x. lia.
  - destruct (month_of (x + 1) 1 12 r3) as [m0 d0] eqn:Em. intros [= <- <- <-].
    apply month_of_spec in Em as (Hm & Hd & Hsum); [|done].
    assert (days_before_year (x + 1) = 146097 * q + (36524 * n100 + (1461 * n4 + 365 * n1)))
      as Hy by (unfold days_before_year, x; lia).
    assert (x + 1 <= 9999) as Hx by (unfold x; lia).
    unfold x in *. split; [|lia]. rewrite !andb_true_iff, !Z.leb_le. lia.
Qed.

(** ** Digits *)

Lemma fmt_length k z : length (fmt k z) = k.
Proof. revert z. induction k as [|k IH]; intros z; simpl; [done|]. rewrite length_app, IH. simpl. lia. Qed.

Lemma digit_is_digit z : 0 <= z < 10 → is_digit (digit z) = true.
Proof. intros. unfold is_digit, digit. lia. Qed.

Lemma fmt_digits k z : Forall (λ c, is_digit c = true) (fmt k z).
Proof.
  revert z. induction k as [|k IH]; intros z; simpl; [constructor|].
  apply Forall_app. split; [apply IH|]. repeat constructor. apply digit_is_digit. lia.
Qed.

Lemma number_from_snoc acc t c : is_digit c = true →
  number_from acc (t ++ [c])%list =
  (n ← number_from acc t; Some (10 * n + (Z.of_N c - 48))).
Proof.
  intros Hc. revert acc. induction t as [|x t IH]; intros acc; simpl; [by rewrite Hc|].
  destruct (is_digit x); [apply IH|done].
Qed.

Lemma number_from_fmt k z : 0 <= z < 10 ^ Z.of_nat k → number_from 0 (fmt k z) = Some z.
Proof.
  revert z. induction k as [|k IH]; intros z Hz.
  { simpl in *. f_equal. lia. }
  rewrite Nat2Z.inj_succ, Z.pow_succ_r in Hz by lia.
  simpl fmt. rewrite number_from_snoc by (apply digit_is_digit; lia).
  rewrite IH by lia. simpl. f_equal. unfold digit. lia.
Qed.

Lemma number_fmt k z rest :
  0 <= z < 10 ^ Z.of_nat k → number k (fmt k z ++ rest)%list = Some z.
Proof.
  intros Hz. unfold number.
  rewrite take_app_length' by (by rewrite fmt_length).
  rewrite decide_True by apply fmt_length. by apply number_from_fmt.
Qed.

Lemma drop_fmt k z rest : drop k (fmt k z ++ rest)%list = rest.
Proof. by rewrite drop_app_length' by (by rewrite fmt_length). Qed.

Lemma fmt_not_in k z c : is_digit c = false → c ∉ fmt k z.
Proof.
  intros Hc Hin. pose proof (fmt_digits k z) as Hd. rewrite list.Forall_forall in Hd.
  rewrite (Hd _ Hin) in Hc. done.
Qed.

Lemma char_is_fmt k z rest c : (0 < k)%nat → is_digit c = false →
  char_is (fmt k z ++ rest)%list 0 c = false.
Proof.
  intros Hk Hc. unfold char_is. apply bool_decide_eq_false_2. intros H.
  rewrite lookup_app_l in H by (rewrite fmt_length; lia).
  apply list_elem_of_lookup_2 in H. by apply (fmt_not_in k z c).
Qed.

Lemma char_is_at t1 t2 c : char_is (t1 ++ c :: t2)%list (length t1) c = true.
Proof.
  unfold char_is. apply bool_decide_eq_true_2.
  rewrite lookup_app_r, Nat.sub_diag by lia. done.
Qed.

Lemma nonempty_match {A B} (l : list A) (x y : B) : (0 < length l)%nat →
  match l with [] => x | _ => y end = y.
Proof. destruct l; simpl; [lia|done]. Qed.

#[local] Opaque fmt.

(** ** Reading back a date *)

Definition fmt_date (y m d : Z) : text := (fmt 4 y ++ [dash] ++ fmt 2 m ++ [dash] ++ fmt 2 d)%list.

Lemma fmt_date_length y m d : length (fmt_date y m d) = 10%nat.
Proof. unfold fmt_date. by rewrite !length_app, !fmt_length. Qed.

Lemma parse_fmt_date y m d :
  valid_date y m d = true → parse_date (fmt_date y m d) = Some (ymd_days y m d).
Proof.
  intros Hv. pose proof Hv as Hv'. unfold valid_date in Hv'.
  assert (days_in_month y m <= 31) by (unfold days_in_month; repeat case_match; lia).
  unfold parse_date. rewrite fmt_date_length. unfold fmt_date.
  rewrite bool_decide_eq_true_2 by lia. simpl negb. cbv iota.
  rewrite number_fmt by lia. simpl mbind.
  pose proof (char_is_at (fmt 4 y) (fmt 2 m ++ [dash] ++ fmt 2 d)%list dash) as H4.
  rewrite fmt_length in H4. simpl app in *. rewrite H4. cbv iota.
  change (drop 5 (fmt 4 y ++ dash :: fmt 2 m ++ dash :: fmt 2 d)%list)
    with (drop (4 + 1) (fmt 4 y ++ dash :: fmt 2 m ++ dash :: fmt 2 d)%list).
  rewrite <- drop_drop, drop_fmt. simpl drop. rewrite !drop_0.
  rewrite char_is_fmt by (done || lia). rewrite number_fmt by lia. simpl mbind.
  rewrite drop_fmt. change (char_is (dash :: fmt 2 d)%list 0 dash) with true.
  simpl negb. cbv iota. simpl drop. rewrite drop_0.
  pose proof (number_fmt 2 d []) as Hd. rewrite app_nil_r in Hd.
  rewrite Hd by lia. simpl mbind. rewrite fmt_length, decide_True, Hv by done. done.
Qed.

(** ** Reading back a time of day *)

Lemma parse_hms_fmt h m s (frac : text) f :
  0 <= h < 100 → 0 <= m < 100 → 0 <= s < 100 →
  parse_tail h m s frac = Some (h, m, s, f) →
  parse_hms (fmt 2 h ++ [colon] ++ fmt 2 m ++ [colon] ++ fmt 2 s ++ frac)%list =
  Some (h, m, s, f).
Proof.
  intros Hh Hm Hs Ht. unfold parse_hms. rewrite number_fmt by lia. simpl mbind.
  rewrite drop_fmt. simpl app. cbv iota.
  change (char_is (colon :: fmt 2 m ++ colon :: fmt 2 s ++ frac)%list 0 colon) with true. cbv iota. simpl drop. rewrite !drop_0.
  rewrite number_fmt by lia. simpl mbind. rewrite drop_fmt. cbv iota.
  change (char_is (colon :: fmt 2 s ++ frac)%list 0 colon) with true.
  simpl negb. simpl andb. cbv iota. simpl drop. rewrite !drop_0.
  rewrite number_fmt by lia. simpl mbind. by rewrite drop_fmt.
Qed.

Lemma parse_fraction_fmt f : 0 <= f < US → parse_fraction (fmt 6 f) = Some f.
Proof.
  intros Hf. unfold US in Hf. unfold parse_fraction. rewrite fmt_length. simpl Nat.min. cbv zeta.
  rewrite decide_False by lia.
  pose proof (number_fmt 6 f []) as Hn. pose proof (drop_fmt 6 f []) as Hd.
  rewrite app_nil_r in Hn, Hd. rewrite Hn by lia. simpl mbind. rewrite Hd. simpl. f_equal. lia.
Qed.

Definition frac_text (f : Z) : text := if f =? 0 then [] else ([46%N] ++ fmt 6 f)%list.

Lemma parse_tail_frac h m s f : 0 <= f < US →
  parse_tail h m s (frac_text f) = Some (h, m, s, f).
Proof.
  intros Hf. unfold frac_text. destruct (Z.eqb_spec f 0) as [->|]; [done|].
  simpl. by rewrite parse_fraction_fmt by done.
Qed.

Lemma parse_hms_fmt_time u : 0 <= u < DAY →
  ∃ c, parse_hms (fmt_time u) = Some c ∧ hms_us c = u ∧ valid_time c = true.
Proof.
  intros Hu. unfold DAY, US in Hu.
  exists (u / US / 3600, u / US / 60 mod 60, u / US mod 60, u mod US).
  split; [|unfold hms_us, valid_time, US; lia].
  unfold fmt_time. cbv zeta. fold (frac_text (u mod US)).
  apply parse_hms_fmt; try (unfold US; lia).
  apply parse_tail_frac. unfold US. lia.
Qed.

Lemma index_of_fresh c t rest : c ∉ t → index_of c (t ++ c :: rest)%list = Some (length t).
Proof.
  induction t as [|x t IH]; simpl; intros Hc.
  - by rewrite decide_True.
  - rewrite decide_False by set_solver. rewrite IH by set_solver. done.
Qed.

Lemma index_of_none c t : c ∉ t → index_of c t = None.
Proof.
  induction t as [|x t IH]; simpl; intros Hc; [done|].
  rewrite decide_False by set_solver. rewrite IH by set_solver. done.
Qed.

Lemma fmt_time_fresh u c :
  is_digit c = false → c ≠ colon → c ≠ 46%N → c ∉ fmt_time u.
Proof.
  intros Hd Hc Hp. unfold fmt_time. cbv zeta.
  pose proof (λ k z, fmt_not_in k z c Hd) as Hf.
  rewrite !elem_of_app. case_match; set_unfold; naive_solver.
Qed.

(** ** The round trip of a UTC timestamp *)

Lemma fmt_offset_utc : fmt_offset 0 = str "+00:00".
Proof. vm_compute. reflexivity. Qed.

Lemma fmt_time_length u : (8 <= length (fmt_time u))%nat.
Proof. unfold fmt_time. cbv zeta. rewrite !length_app, !fmt_length. simpl. lia. Qed.

Lemma parse_time_utc u : 0 <= u < DAY →
  parse_time (fmt_time u ++ str "+00:00")%list = Some (u, Some 0).
Proof.
  intros Hu. pose proof (fmt_time_length u). unfold parse_time.
  rewrite decide_False by (rewrite length_app; lia).
  unfold zone_position. rewrite index_of_none; cycle 1.
  { rewrite elem_of_app. intros [Hin|Hin].
    - by eapply (fmt_time_fresh u dash).
    - revert Hin. vm_compute. set_unfold. naive_solver. }
  change (str "+00:00") with (43%N :: str "00:00").
  rewrite index_of_fresh by (by apply fmt_time_fresh).
  rewrite take_app_length.
  destruct (parse_hms_fmt_time u Hu) as (c & -> & <- & Hc). simpl mbind.
  rewrite lookup_app_r, Nat.sub_diag by lia. simpl default.
  rewrite bool_decide_eq_false_2 by (intros [_ ?]; done).
  rewrite <- Nat.add_1_r, <- drop_drop, drop_app_length. simpl drop.
  change (parse_zone 43 (str "00:00")) with (Some 0). simpl. by rewrite Hc.
Qed.

Lemma separator_date y m d rest :
  (0 < length rest)%nat → separator_location (fmt_date y m d ++ rest)%list = Some 10%nat.
Proof.
  intros Hr. unfold separator_location.
  rewrite length_app, fmt_date_length.
  rewrite decide_False, decide_False by lia.
  unfold fmt_date.
  pose proof (char_is_at (fmt 4 y) ((fmt 2 m ++ [dash] ++ fmt 2 d) ++ rest)%list dash) as H4.
  rewrite fmt_length in H4. rewrite <- !app_assoc in *. simpl app in *. rewrite H4. cbv iota.
  unfold char_is at 1.
  rewrite lookup_app_r by (rewrite fmt_length; lia). rewrite fmt_length. simpl.
  pose proof (char_is_fmt 2 m (dash :: fmt 2 d ++ rest)%list 87%N) as H5.
  unfold char_is in H5. rewrite H5 by (done || lia). done.
Qed.

Lemma fromisoformat_isoformat w :
  wall_ok w = true → fromisoformat (isoformat (utc w)) = Some (utc w).
Proof.
  intros Hw. unfold wall_ok, MAX_DAYS in Hw.
  unfold isoformat. cbn [dt_wall dt_offset utc]. rewrite fmt_offset_utc.
  assert (0 <= w / DAY < MAX_DAYS) as Hdays by (unfold MAX_DAYS, DAY, US in *; lia).
  assert (0 <= w mod DAY < DAY) as Hu by (unfold DAY, US; lia).
  destruct (days_ymd (w / DAY)) as [[y m] d] eqn:Hymd.
  destruct (days_ymd_spec _ _ _ _ Hdays Hymd) as [Hv Hd].
  replace (fmt 4 y ++ [dash] ++ fmt 2 m ++ [dash] ++ fmt 2 d ++ [84%N] ++
    fmt_time (w mod DAY) ++ str "+00:00")%list
    with (fmt_date y m d ++ 84%N :: fmt_time (w mod DAY) ++ str "+00:00")%list
    by (unfold fmt_date; by rewrite <- !app_assoc).
  unfold fromisoformat. rewrite separator_date by (simpl; lia). simpl mbind.
  rewrite take_app_length' by (by rewrite fmt_date_length).
  rewrite parse_fmt_date by done. simpl mbind.
  rewrite decide_False; cycle 1.
  { rewrite length_app, fmt_date_length. simpl. rewrite length_app. simpl. lia. }
  change 11%nat with (10 + 1)%nat. rewrite <- drop_drop.
  rewrite drop_app_length' by (by rewrite fmt_date_length). cbn [drop]. rewrite drop_0.
  rewrite parse_time_utc by done. simpl. rewrite Hd. unfold utc. do 2 f_equal.
  unfold DAY, US. lia.
Qed.

(** Every UTC stamp the store writes is a readable, aware instant. *)
Lemma aware_iso_epoch_isoformat w :
  wall_ok w = true → aware_iso_epoch (isoformat (utc w)) = Some w.
Proof.
  intros Hw. unfold aware_iso_epoch. rewrite fromisoformat_isoformat by done.
  unfold astimezone_utc, utc. simpl. by rewrite Z.sub_0_r, Hw.
Qed.
#[export] Hint Resolve fromisoformat_isoformat aware_iso_epoch_isoformat : watcher.
