(* ===== verification/Vendors.v ===== *)
(** * Vendor attribution

    Models [src/src/eom_email_watcher/thread_state.py]: the index of vendor
    addresses and domains, built from the tables, and the attribution of a message
    to a vendor by its sender or, for an outbound message, by its recipients. *)

From S2P Require Export Addresses.
From stdpp Require Import options.

Inductive match_kind := Exact | Domain.

Global Instance match_kind_eq_dec : EqDecision match_kind.
Proof. solve_decision. Defined.

(** (vendor_id, display_name, kind, address) *)
Record attribution := mk_attribution {
  va_vendor_id : text;
  va_display_name : text;
  va_kind : match_kind;
  va_address : text }.

Record VendorIndex := mk_index {
  vi_addresses : gmap text (text * text);
  vi_domains : gmap text (text * text);
  vi_identities : gset text;
  vi_vendor_ids : gset text }.

(** [VendorIndex.vendor_of] *)
Definition vendor_of (ix : VendorIndex) (address : text) : option attribution :=
  if decide (address ∈ ix.(vi_identities)) then None
  else
    match ix.(vi_addresses) !! address with
    | Some (vendor, name) => Some (mk_attribution vendor name Exact address)
    | None =>
        match ix.(vi_domains) !! (rpartition at_sign address).2 with
        | Some (vendor, name) => Some (mk_attribution vendor name Domain address)
        | None => None
        end
    end.

(** The first match of a kind. *)
Fixpoint first_of_kind (kind : match_kind) (matches : list (option attribution))
    : option attribution :=
  match matches with
  | [] => None
  | Some m :: rest => if decide (m.(va_kind) = kind) then Some m else first_of_kind kind rest
  | None :: rest => first_of_kind kind rest
  end.

(** [VendorIndex.attribute] *)
Definition attribute (ix : VendorIndex) (sender : text) (outbound : bool) (to cc : list text)
    : option attribution :=
  if negb outbound then vendor_of ix sender
  else
    let matches := vendor_of ix <$> (to ++ cc)%list in
    match first_of_kind Exact matches with
    | Some m => Some m
    | None => first_of_kind Domain matches
    end.

(** The tables [vendor_index] reads. *)
Record VendorTables := mk_vendor_tables {
  vt_vendors : gmap text text;
  vt_addresses : gmap text text;
  (** [None] before the table exists. *)
  vt_domains : option (gmap text text);
  vt_account_addresses : list (option text) }.

(** The inner join with [vendors]. *)
Definition with_names (vendors : gmap text text) (rows : gmap text text) : gmap text (text * text) :=
  omap (fun vendor => name ← vendors !! vendor; Some (vendor, name)) rows.

(** [vendor_index] *)
Definition vendor_index (t : VendorTables) : VendorIndex :=
  mk_index (with_names t.(vt_vendors) t.(vt_addresses))
    (match t.(vt_domains) with Some d => with_names t.(vt_vendors) d | None => ∅ end)
    (list_to_set (omap id t.(vt_account_addresses))) (dom t.(vt_vendors)).

(** ** Facts *)

Lemma first_of_kind_some kind l m :
  first_of_kind kind l = Some m →
  va_kind m = kind ∧ ∃ i, l !! i = Some (Some m) ∧
    ∀ j m', j < i → l !! j = Some (Some m') → va_kind m' ≠ kind.
Proof.
  induction l as [|[x|] l IH]; simpl; [done| |].
  - case_decide as Hk.
    + intros [= <-]. split; [done|]. exists 0. split; [done|]. intros; lia.
    + intros H. destruct (IH H) as (Hm & i & Hi & Hj). split; [done|]. exists (S i).
      split; [done|]. intros [|j] m' Hlt; simpl; [by intros [= <-]|]. apply Hj. lia.
  - intros H. destruct (IH H) as (Hm & i & Hi & Hj). split; [done|]. exists (S i).
    split; [done|]. intros [|j] m' Hlt; simpl; [done|]. apply Hj. lia.
Qed.

Lemma first_of_kind_none kind l :
  first_of_kind kind l = None → ∀ m, Some m ∈ l → va_kind m ≠ kind.
Proof.
  induction l as [|[x|] l IH]; simpl; [by intros _ m ?%elem_of_nil| |].
  - case_decide; [done|]. intros Hn m. rewrite elem_of_cons. intros [[= <-]|Hm]; [done|by apply IH].
  - intros H m. rewrite elem_of_cons. intros [[=]|Hm]. by apply IH.
Qed.

Lemma vendor_of_spec ix address m :
  vendor_of ix address = Some m →
  va_address m = address ∧ address ∉ vi_identities ix ∧
  match va_kind m with
  | Exact => vi_addresses ix !! address = Some (va_vendor_id m, va_display_name m)
  | Domain => vi_addresses ix !! address = None ∧
      vi_domains ix !! (rpartition at_sign address).2 = Some (va_vendor_id m, va_display_name m)
  end.
Proof.
  unfold vendor_of. repeat case_match; intros; simplify_eq/=; by split_and!.
Qed.

Lemma with_names_some vendors rows k v n :
  with_names vendors rows !! k = Some (v, n) → vendors !! v = Some n.
Proof.
  unfold with_names. rewrite lookup_omap. intros (v' & _ & H)%bind_Some.
  apply bind_Some in H as (n' & Hn & H). by simplify_eq.
Qed.

Lemma index_names t address m :
  match va_kind m with
  | Exact => vi_addresses (vendor_index t) !! address = Some (va_vendor_id m, va_display_name m)
  | Domain => vi_addresses (vendor_index t) !! address = None ∧
      vi_domains (vendor_index t) !! (rpartition at_sign address).2 =
        Some (va_vendor_id m, va_display_name m)
  end → vt_vendors t !! va_vendor_id m = Some (va_display_name m).
Proof.
  destruct (va_kind m); simpl; [by intros ?%with_names_some|].
  intros [_ H]. destruct (vt_domains t); [by apply with_names_some in H|done].
Qed.

(** ** Properties *)

(** An attribution never comes from one of the user's own addresses and names a
    vendor of the tables; for an outbound message it is the first recipient with an
    exact address match, and only when no recipient has one the first with a domain
    match; without any match there is none. *)
Theorem attribute_exact_first t sender to cc :
  let ix := vendor_index t in
  match attribute ix sender true to cc with
  | Some m => ∃ i, (to ++ cc)%list !! i = Some (va_address m) ∧
      Some (va_address m) ∉ vt_account_addresses t ∧
      vt_vendors t !! va_vendor_id m = Some (va_display_name m) ∧
      vendor_of ix (va_address m) = Some m ∧
      (∀ j a m', (to ++ cc)%list !! j = Some a → vendor_of ix a = Some m' →
         va_kind m' = va_kind m → i <= j) ∧
      (va_kind m = Domain → ∀ a m', a ∈ (to ++ cc)%list → vendor_of ix a = Some m' →
         va_kind m' = Domain)
  | None => ∀ a, a ∈ (to ++ cc)%list → vendor_of ix a = None
  end.
Proof.
  intros ix. set (l := (to ++ cc)%list).
  assert (∀ m kind, first_of_kind kind (vendor_of ix <$> l) = Some m →
    va_kind m = kind ∧ ∃ i, l !! i = Some (va_address m) ∧
      Some (va_address m) ∉ vt_account_addresses t ∧
      vt_vendors t !! va_vendor_id m = Some (va_display_name m) ∧
      vendor_of ix (va_address m) = Some m ∧
      ∀ j a m', l !! j = Some a → vendor_of ix a = Some m' → va_kind m' = kind → i <= j) as Hfirst.
  { intros m kind (Hk & i & Hi & Hmin)%first_of_kind_some. split; [done|].
    rewrite list_lookup_fmap in Hi. apply fmap_Some in Hi as (a & Ha & Hv). symmetry in Hv.
    pose proof (vendor_of_spec _ _ _ Hv) as (Haddr & Hown & Hrow). exists i. rewrite Haddr.
    split_and!; [done| | |done|].
    - intros Hin. apply Hown. unfold ix. simpl. apply elem_of_list_to_set, list_elem_of_omap.
      by exists (Some a).
    - by eapply index_names.
    - intros j b m' Hj Hm' Hkind. destruct (decide (i <= j)); [done|]. exfalso.
      eapply (Hmin j m'); [lia| |done]. rewrite list_lookup_fmap, Hj. simpl. by rewrite Hm'. }
  unfold attribute. simpl. fold l.
  destruct (first_of_kind Exact (vendor_of ix <$> l)) as [m|] eqn:He.
  - destruct (Hfirst _ _ He) as (Hk & i & H1 & H2 & H3 & H4 & H5). exists i.
    split_and!; [done..| |congruence]. intros j a m' Hj Hm' Hkk. eapply H5; [done..|congruence].
  - pose proof (first_of_kind_none _ _ He) as Hno.
    destruct (first_of_kind Domain (vendor_of ix <$> l)) as [m|] eqn:Hd.
    + destruct (Hfirst _ _ Hd) as (Hk & i & H1 & H2 & H3 & H4 & H5). exists i.
      split_and!; [done..| |].
      * intros j a m' Hj Hm' Hkk. eapply H5; [done..|congruence].
      * intros _ a m' Ha Hm'. specialize (Hno m'). destruct (va_kind m'); [|done].
        exfalso. apply Hno; [|done]. rewrite <- Hm'. by apply list_elem_of_fmap_2.
    + pose proof (first_of_kind_none _ _ Hd) as Hno'. intros a Ha.
      destruct (vendor_of ix a) as [m'|] eqn:Hm'; [|done]. exfalso.
      assert (Some m' ∈ vendor_of ix <$> l) as Hin by (rewrite <- Hm'; by apply list_elem_of_fmap_2).
      specialize (Hno _ Hin). specialize (Hno' _ Hin). by destruct (va_kind m').
Qed.

(** An inbound message is attributed by its sender alone: never for the user's own
    address, to the vendor of the exact address when there is one, and otherwise to the
    vendor of the domain after the last at-sign. *)
Lemma attribute_inbound t sender to cc :
  let ix := vendor_index t in
  attribute ix sender false to cc =
    if decide (Some sender ∈ vt_account_addresses t) then None
    else match vt_addresses t !! sender ≫= (λ v, pair v <$> vt_vendors t !! v) with
         | Some (v, n) => Some (mk_attribution v n Exact sender)
         | None =>
             match (vt_domains t ≫= lookup (rpartition at_sign sender).2)
                     ≫= (λ v, pair v <$> vt_vendors t !! v) with
             | Some (v, n) => Some (mk_attribution v n Domain sender)
             | None => None
             end
         end.
Proof.
  unfold attribute, vendor_of. simpl.
  assert (sender ∈ (list_to_set (omap id (vt_account_addresses t)) : gset text) ↔
    Some sender ∈ vt_account_addresses t) as Hown.
  { rewrite elem_of_list_to_set, list_elem_of_omap. naive_solver. }
  rewrite (decide_ext _ _ _ _ Hown). case_decide; [done|].
  assert (∀ rows k, with_names (vt_vendors t) rows !! k =
    (rows !! k ≫= λ v, pair v <$> vt_vendors t !! v)) as Hrows.
  { intros rows k. unfold with_names. rewrite lookup_omap. destruct (rows !! k) as [v|]; simpl; [|done].
    by destruct (vt_vendors t !! v). }
  rewrite Hrows. destruct (vt_addresses t !! sender ≫= _) as [[v n]|]; [done|].
  destruct (vt_domains t) as [dm|]; simpl; [by rewrite Hrows|by rewrite lookup_empty].
Qed.
