(* ===== verification/Outbound.v ===== *)
(** * The outbound send ledger and the monthly hours mail

    [db.py] keeps the ledger of outgoing mail: [outbound_sends] holds what was
    sent, [outbound_reservations] what is being sent or was left in doubt, both
    keyed by the dedupe key.  [cli.py] sends the monthly mail through it
    ([_send_hours]) and lets the operator settle a send in doubt
    ([_outbound_resolve]); [outbound.py] writes the mail ([previous_month_email]).

    One ledger operation is one transaction.  [_send_hours] is several of them
    around the call of the mail provider, so it runs in a small monad that keeps
    the world after every committed effect: the process may die after any of
    them. *)

From S2P Require Export Addresses IsoTime.
From stdpp Require Import options.

(** ** The ledger ([outbound_sends], [outbound_reservations]) *)

Record outbound_send := mk_send {
  os_recipient : text;
  os_subject : text;
  os_gmail_message_id : text;
  os_sent_at : text }.

Inductive reservation_status := Reserved | Ambiguous.

Record outbound_reservation := mk_reservation {
  or_recipient : text;
  or_subject : text;
  or_status : reservation_status;
  or_reserved_at : text;
  or_updated_at : text;
  or_last_error : option text }.

Record ledger := mk_ledger {
  outbound_sends : gmap text outbound_send;
  outbound_reservations : gmap text outbound_reservation }.

Global Instance reservation_status_eq_dec : EqDecision reservation_status.
Proof. solve_decision. Defined.

(** The [status] column of the two queries. *)
Inductive outbound_state := StatusSent | StatusReservation (s : reservation_status).

Global Instance outbound_state_eq_dec : EqDecision outbound_state.
Proof. solve_decision. Defined.

(** [datetime.now(UTC).isoformat()] *)
Definition stamp_of (now : Z) : text := isoformat (utc now).

Definition outbound_status (l : ledger) (dedupe_key : text) : option outbound_state :=
  match l.(outbound_sends) !! dedupe_key with
  | Some _ => Some StatusSent
  | None =>
      match l.(outbound_reservations) !! dedupe_key with
      | Some r => Some (StatusReservation r.(or_status))
      | None => None
      end
  end.

Record outbound_detail := mk_detail {
  od_dedupe_key : text;
  od_recipient : text;
  od_subject : text;
  od_status : outbound_state;
  od_gmail_message_id : option text;
  od_reserved_at : option text;
  od_updated_at : text;
  od_last_error : option text }.

Definition outbound_details (l : ledger) (dedupe_key : text) : option outbound_detail :=
  match l.(outbound_sends) !! dedupe_key with
  | Some s =>
      Some (mk_detail dedupe_key s.(os_recipient) s.(os_subject) StatusSent
              (Some s.(os_gmail_message_id)) None s.(os_sent_at) None)
  | None =>
      match l.(outbound_reservations) !! dedupe_key with
      | Some r =>
          Some (mk_detail dedupe_key r.(or_recipient) r.(or_subject)
                  (StatusReservation r.(or_status)) None (Some r.(or_reserved_at))
                  r.(or_updated_at) r.(or_last_error))
      | None => None
      end
  end.

Definition outbound_was_sent (l : ledger) (dedupe_key : text) : bool :=
  bool_decide (outbound_status l dedupe_key = Some StatusSent).

Definition reserve_outbound (now : Z) (dedupe_key recipient subject : text) (l : ledger)
    : py (bool * ledger) :=
  match l.(outbound_sends) !! dedupe_key with
  | Some _ => Ret (false, l)
  | None =>
      match l.(outbound_reservations) !! dedupe_key with
      | Some _ => Ret (false, l)
      | None =>
          let r := mk_reservation recipient subject Reserved (stamp_of now) (stamp_of now) None in
          Ret (true, mk_ledger l.(outbound_sends)
                       (<[dedupe_key := r]> l.(outbound_reservations)))
      end
  end.

Definition mark_outbound_ambiguous (now : Z) (dedupe_key error : text) (l : ledger)
    : py (unit * ledger) :=
  match l.(outbound_reservations) !! dedupe_key with
  | Some r =>
      if decide (r.(or_status) = Reserved) then
        let r' := mk_reservation r.(or_recipient) r.(or_subject) Ambiguous r.(or_reserved_at)
                    (stamp_of now) (Some (clip 500 error)) in
        Ret (tt, mk_ledger l.(outbound_sends)
                   (<[dedupe_key := r']> l.(outbound_reservations)))
      else Raise (RuntimeError "Outbound reservation is not in the reserved state")
  | None => Raise (RuntimeError "Outbound reservation is not in the reserved state")
  end.

(** Both writers of [outbound_sends]: insert the send, delete the reservation.
    The primary key refuses a second send. *)
Definition settle_sent (dedupe_key : text) (s : outbound_send) (l : ledger)
    : py (unit * ledger) :=
  match l.(outbound_sends) !! dedupe_key with
  | Some _ => Raise (IntegrityError "outbound_sends.dedupe_key")
  | None =>
      Ret (tt, mk_ledger (<[dedupe_key := s]> l.(outbound_sends))
                 (delete dedupe_key l.(outbound_reservations)))
  end.

Definition reconcile_outbound_sent `{Unicode} (now : Z) (dedupe_key gmail_message_id : text)
    (l : ledger) : py (unit * ledger) :=
  let message_id := strip gmail_message_id in
  if negb (truthy message_id) then
    Raise (RuntimeError "A non-empty Gmail message ID is required")
  else
    match l.(outbound_sends) !! dedupe_key with
    | Some completed =>
        if decide (completed.(os_gmail_message_id) = message_id) then Ret (tt, l)
        else Raise (RuntimeError "Completed outbound send has a different Gmail message ID")
    | None =>
        match l.(outbound_reservations) !! dedupe_key with
        | None => Raise (RuntimeError "Outbound send has no unresolved reservation")
        | Some r =>
            settle_sent dedupe_key
              (mk_send r.(or_recipient) r.(or_subject) message_id (stamp_of now)) l
        end
    end.

Definition release_outbound (dedupe_key : text) (l : ledger) : py (unit * ledger) :=
  match l.(outbound_sends) !! dedupe_key with
  | Some _ => Raise (RuntimeError "Cannot release a completed outbound send")
  | None =>
      match l.(outbound_reservations) !! dedupe_key with
      | None => Raise (RuntimeError "Outbound send has no unresolved reservation")
      | Some _ =>
          Ret (tt, mk_ledger l.(outbound_sends) (delete dedupe_key l.(outbound_reservations)))
      end
  end.

Definition record_outbound (now : Z) (dedupe_key recipient subject gmail_message_id : text)
    (l : ledger) : py (unit * ledger) :=
  match l.(outbound_reservations) !! dedupe_key with
  | None => Raise (RuntimeError "Outbound send has no matching active reservation")
  | Some r =>
      if decide (r.(or_status) = Reserved ∧ r.(or_recipient) = recipient
                 ∧ r.(or_subject) = subject)
      then settle_sent dedupe_key (mk_send recipient subject gmail_message_id (stamp_of now)) l
      else Raise (RuntimeError "Outbound send has no matching active reservation")
  end.

(** ** The mail ([outbound.py: previous_month_email]) *)

Record monthly_email := mk_monthly {
  me_period_key : text;
  me_subject : text;
  me_body : text }.

(** [strftime("%B")] in the C locale. *)
Definition month_name (m : Z) : text :=
  match m with
  | 1 => str "January" | 2 => str "February" | 3 => str "March" | 4 => str "April"
  | 5 => str "May" | 6 => str "June" | 7 => str "July" | 8 => str "August"
  | 9 => str "September" | 10 => str "October" | 11 => str "November"
  | _ => str "December"
  end%Z.

Definition nl : text := [10%N].

Definition monthly_body (period_label : text) : text :=
  str "Hi Maria," ++ nl ++ nl ++
  str "I hope you're doing well. When you have a chance, could you please send me " ++
  str "the Firefly hours for " ++ period_label ++
  str "? Once I receive them, I'll prepare " ++ str "your invoice." ++ nl ++ nl ++
  str "Thank you," ++ nl ++ str "Juan Canfield" ++ nl ++ str "Effingham Office Maids" ++ nl.

(** The year and month before the one of [today]. *)
Definition previous_month (year month : Z) : Z * Z :=
  (if (1 <? month)%Z then year else (year - 1)%Z,
   if (1 <? month)%Z then (month - 1)%Z else 12%Z).

(** [date(year, month, 1)] raises before year 1.  [strftime("%Y")] is four digits
    for the years from 1000 on; below that the C library decides the padding. *)
Definition previous_month_email (year month : Z) : py monthly_email :=
  let '(previous_year, previous_month) := previous_month year month in
  if valid_date previous_year previous_month 1 then
    let period_label := month_name previous_month ++ str " " ++ fmt 4 previous_year in
    Ret (mk_monthly (fmt 4 previous_year ++ [dash] ++ fmt 2 previous_month)
           (str "Firefly Hours for " ++ period_label) (monthly_body period_label))
  else Raise (ValueError "year 0 is out of range").

(** ** The commands ([cli.py]) *)

(** The ledger, the mails the provider delivered (with the dedupe key of the run
    that sent them, none for a test send), and the operator's committed
    resolutions. *)
Record delivery := mk_delivery {
  dl_key : option text;
  dl_to : text;
  dl_subject : text;
  dl_body : text }.

Record world := mk_world {
  w_ledger : ledger;
  w_mail : list delivery;
  w_released : list text;
  w_confirmed : list text }.

(** What one [sender.send] does: the provider delivers and returns the id,
    delivers although the call raises (the answer is lost), or refuses. *)
Inductive transport := Accepted (gmail_message_id : text) | Lost (e : exn) | Refused (e : exn).

(** A command: the worlds after each committed effect, the final world, and the
    result. *)
Definition act (A : Type) : Type := world → list world * world * py A.

Global Instance act_ret : MRet act := fun A a w => ([], w, Ret a).
Global Instance act_bind : MBind act := fun A B f m w =>
  match m w with
  | (t, w', Ret a) => let '(t', w'', r) := f a w' in ((t ++ t')%list, w'', r)
  | (t, w', Raise e) => (t, w', Raise e)
  end.

Definition lift {A} (m : py A) : act A := fun w => ([], w, m).
Definition read_ledger {A} (f : ledger → A) : act A := fun w => ([], w, Ret (f w.(w_ledger))).

(** [try: body except Exception as exc: handler(exc)] *)
Definition try_except {A} (body : act A) (handler : exn → act A) : act A := fun w =>
  match body w with
  | (t, w', Raise e) => let '(t', w'', r) := handler e w' in ((t ++ t')%list, w'', r)
  | (t, w', Ret a) => (t, w', Ret a)
  end.

Definition with_ledger (l : ledger) (w : world) : world :=
  mk_world l w.(w_mail) w.(w_released) w.(w_confirmed).

(** One transaction: committed when it returns, rolled back when it raises.
    [note] is the resolution the commit stands for, if any. *)
Definition txn_with {A} (note : world → world) (op : ledger → py (A * ledger)) : act A :=
  fun w =>
    match op w.(w_ledger) with
    | Ret (a, l) => let w' := note (with_ledger l w) in ([w'], w', Ret a)
    | Raise e => ([], w, Raise e)
    end.

Definition txn {A} (op : ledger → py (A * ledger)) : act A := txn_with (fun w => w) op.

Definition deliver (d : delivery) (w : world) : world :=
  mk_world w.(w_ledger) (w.(w_mail) ++ [d])%list w.(w_released) w.(w_confirmed).

(** [sender.send(recipient, subject, body)] *)
Definition send (how : transport) (key : option text) (recipient subject body : text)
    : act text :=
  fun w =>
    let w' := deliver (mk_delivery key recipient subject body) w in
    match how with
    | Accepted message_id => ([w'], w', Ret message_id)
    | Lost e => ([w'], w', Raise e)
    | Refused e => ([], w, Raise e)
    end.

(** [type(exc).__name__] *)
Definition exn_name (e : exn) : text :=
  match e with
  | ValueError _ => str "ValueError"
  | RuntimeError _ => str "RuntimeError"
  | TypeError _ => str "TypeError"
  | AssertionError _ => str "AssertionError"
  | KeyError _ => str "KeyError"
  | PermissionError _ => str "PermissionError"
  | OverflowError => str "OverflowError"
  | IndexError => str "IndexError"
  | IntegrityError _ => str "IntegrityError"
  | AutomationSourceChanged _ => str "AutomationSourceChanged"
  | AutomationCalendarWriteStateChanged _ => str "AutomationCalendarWriteStateChanged"
  | AutomationFanoutLimit _ => str "AutomationFanoutLimit"
  | RuleValidationError _ => str "RuleValidationError"
  | SendError _ => str "SendError"
  | ConfigError _ => str "ConfigError"
  | OperationLockBusy => str "OperationLockBusy"
  | UnicodeEncodeError => str "UnicodeEncodeError"
  | UnicodeDecodeError => str "UnicodeDecodeError"
  | JSONDecodeError => str "JSONDecodeError"
  | AttributeError => str "AttributeError"
  | AutomationRuleNotFound _ => str "AutomationRuleNotFound"
  | AutomationRuleStale _ => str "AutomationRuleStale"
  | AutomationRuleLimitExceeded _ => str "AutomationRuleLimitExceeded"
  | AutomationRuleSystemProtected _ => str "AutomationRuleSystemProtected"
  | MailboxIdentityChanged _ => str "MailboxIdentityChanged"
  | GmailLabelStoreError _ => str "GmailLabelStoreError"
  | ConnectQueueFull _ => str "ConnectQueueFull"
  | CertificateResultInvalid => str "CertificateResultInvalid"
  | CertificateResultConflict => str "CertificateResultConflict"
  | RemovalRequestInvalid _ => str "RemovalRequestInvalid"
  end.

(** What the command prints. *)
Inductive output :=
| DryRun (recipient subject body : text)
| AlreadySent (period : text)
| Sent (recipient subject : text)
| ConfirmedSent (dedupe_key gmail_message_id : text)
| ConfirmedUnsent (dedupe_key : text).

(** The surroundings of one command: the configured recipient, today's date in
    the configured zone, the clock, whether the outbound lock is free, whether the
    send token loads, and what the provider does. *)
Record surroundings := mk_env {
  e_monthly_hours_recipient : text;
  e_year : Z;
  e_month : Z;
  e_now : Z;
  e_lock_free : bool;
  e_from_token : py unit;
  e_transport : transport }.

Definition manual_reconciliation : exn := SendError "requires manual reconciliation".

Definition dedupe_key_of (content : monthly_email) : text :=
  str "monthly-hours:" ++ content.(me_period_key).

(** [with lock:] *)
Definition locked {A} (free : bool) (body : act A) : act A :=
  if free then body else lift (Raise OperationLockBusy).

Definition send_hours_locked (E : surroundings) (test : bool) (recipient subject : text)
    (content : monthly_email) : act output :=
  let dedupe_key := dedupe_key_of content in
  status ← (if test then mret None else read_ledger (fun l => outbound_status l dedupe_key));
  match status with
  | Some StatusSent => mret (AlreadySent content.(me_period_key))
  | Some (StatusReservation _) => lift (Raise manual_reconciliation)
  | None =>
      _ ← lift E.(e_from_token);
      reserved ← (if test then mret true
                  else txn (reserve_outbound E.(e_now) dedupe_key recipient subject));
      if negb reserved then
        status ← read_ledger (fun l => outbound_status l dedupe_key);
        (if decide (status = Some StatusSent)
         then mret (AlreadySent content.(me_period_key))
         else lift (Raise manual_reconciliation))
      else
        _ ← try_except
              (message_id ← send E.(e_transport) (if test then None else Some dedupe_key)
                              recipient subject content.(me_body);
               if test then mret tt
               else txn (record_outbound E.(e_now) dedupe_key recipient subject message_id))
              (fun exc =>
                 _ ← (if test then mret tt
                      else txn (mark_outbound_ambiguous E.(e_now) dedupe_key (exn_name exc)));
                 lift (Raise exc));
        mret (Sent recipient subject)
  end.

(** [_send_hours] *)
Definition send_hours (E : surroundings) (test_to : option text) (dry_run : bool) : act output :=
  let test := match test_to with Some t => truthy t | None => false end in
  let recipient := if test then default [] test_to else E.(e_monthly_hours_recipient) in
  if negb (truthy recipient) || negb (bool_decide (at_sign ∈ recipient)) then
    lift (Raise (ConfigError "monthly_hours_recipient must be configured"))
  else
    content ← lift (previous_month_email E.(e_year) E.(e_month));
    let subject := if test then str "[TEST] " ++ content.(me_subject) else content.(me_subject) in
    if dry_run then mret (DryRun recipient subject content.(me_body))
    else locked (test || E.(e_lock_free)) (send_hours_locked E test recipient subject content).

Definition note_confirmed (k : text) (w : world) : world :=
  mk_world w.(w_ledger) w.(w_mail) w.(w_released) (k :: w.(w_confirmed)).

Definition note_released (k : text) (w : world) : world :=
  mk_world w.(w_ledger) w.(w_mail) (k :: w.(w_released)) w.(w_confirmed).

(** [_outbound_resolve] *)
Definition outbound_resolve `{Unicode} (E : surroundings) (dedupe_key : text)
    (confirm_sent : option text) (confirm_unsent : bool) : act output :=
  if Bool.eqb (is_some confirm_sent) confirm_unsent then
    lift (Raise (RuntimeError "Exactly one outbound resolution confirmation is required"))
  else
    locked E.(e_lock_free)
      (match confirm_sent with
       | Some confirmed =>
           let gmail_message_id := strip confirmed in
           _ ← txn_with (note_confirmed dedupe_key)
                 (reconcile_outbound_sent E.(e_now) dedupe_key gmail_message_id);
           mret (ConfirmedSent dedupe_key gmail_message_id)
       | None =>
           _ ← txn_with (note_released dedupe_key) (release_outbound dedupe_key);
           mret (ConfirmedUnsent dedupe_key)
       end).

(** ** The life of the ledger

    Commands run one after the other under the outbound lock; each may die after
    any of its committed effects. *)
Definition trace {A} (m : act A) (w : world) : list world := (m w).1.1.
Definition final {A} (m : act A) (w : world) : world := (m w).1.2.
Definition result {A} (m : act A) (w : world) : py A := (m w).2.

Definition no_world : world := mk_world (mk_ledger ∅ ∅) [] [] [].

Inductive outbound_step `{Unicode} (w : world) : world → Prop :=
| step_send E test_to dry_run w' :
    w' ∈ trace (send_hours E test_to dry_run) w → outbound_step w w'
| step_resolve E k sent unsent w' :
    w' ∈ trace (outbound_resolve E k sent unsent) w → outbound_step w w'.

Definition outbound_reachable `{Unicode} : world → Prop := rtc outbound_step no_world.

(** Deliveries made under a dedupe key. *)
Definition deliveries (k : text) (w : world) : nat :=
  length (List.filter (fun d => bool_decide (d.(dl_key) = Some k)) w.(w_mail)).

Definition releases (k : text) (w : world) : nat :=
  length (List.filter (fun x => bool_decide (x = k)) w.(w_released)).
