(* ===== verification/OutboundTheorems.v ===== *)
(** * What the outbound ledger guarantees

    Exact behaviour of [send_hours] on a fresh, a sent and a doubtful period, and
    the safety of the ledger over every sequence of commands, each of which may
    die after any committed effect: no period is mailed twice unless the operator
    released it, and a recorded send is final. *)

From S2P Require Export Outbound IsoTimeFacts.
From stdpp Require Import options.

(** ** One command *)

Definition reserved_row (E : surroundings) (recipient subject : text) : outbound_reservation :=
  mk_reservation recipient subject Reserved (stamp_of E.(e_now)) (stamp_of E.(e_now)) None.

Definition reserved_world (E : surroundings) (k recipient subject : text) (w : world) : world :=
  with_ledger (mk_ledger w.(w_ledger).(outbound_sends)
    (<[k := reserved_row E recipient subject]> w.(w_ledger).(outbound_reservations))) w.

Definition ambiguous_world (E : surroundings) (k recipient subject : text) (e : exn)
    (w : world) : world :=
  with_ledger (mk_ledger w.(w_ledger).(outbound_sends)
    (<[k := mk_reservation recipient subject Ambiguous (stamp_of E.(e_now))
              (stamp_of E.(e_now)) (Some (clip 500 (exn_name e)))]>
       w.(w_ledger).(outbound_reservations))) w.

Definition sent_world (E : surroundings) (k recipient subject id : text) (w : world) : world :=
  with_ledger (mk_ledger
    (<[k := mk_send recipient subject id (stamp_of E.(e_now))]> w.(w_ledger).(outbound_sends))
    (delete k w.(w_ledger).(outbound_reservations))) w.

(** The committed worlds of a send whose key was free. *)
Definition fresh_trace (E : surroundings) (k recipient subject body : text) (w : world)
    : list world :=
  let w1 := reserved_world E k recipient subject w in
  let w2 := deliver (mk_delivery (Some k) recipient subject body) w1 in
  match E.(e_transport) with
  | Accepted id => [w1; w2; sent_world E k recipient subject id w2]
  | Lost e => [w1; w2; ambiguous_world E k recipient subject e w2]
  | Refused e => [w1; ambiguous_world E k recipient subject e w1]
  end.

Definition fresh_result (E : surroundings) (recipient subject : text) : py output :=
  match E.(e_transport) with
  | Accepted _ => Ret (Sent recipient subject)
  | Lost e | Refused e => Raise e
  end.

Lemma status_none l k :
  outbound_status l k = None ↔ outbound_sends l !! k = None ∧ outbound_reservations l !! k = None.
Proof. unfold outbound_status. repeat case_match; naive_solver. Qed.

Lemma locked_fresh E recipient subject content w :
  let k := dedupe_key_of content in
  outbound_status (w_ledger w) k = None → E.(e_from_token) = Ret tt →
  let m := send_hours_locked E false recipient subject content in
  trace m w = fresh_trace E k recipient subject content.(me_body) w ∧
  final m w = default w (list.last (fresh_trace E k recipient subject content.(me_body) w)) ∧
  result m w = fresh_result E recipient subject.
Proof.
  intros k Hs Ht m. pose proof (proj1 (status_none _ _) Hs) as [H1 H2].
  unfold m, trace, final, result, send_hours_locked, fresh_trace, fresh_result.
  unfold mbind, act_bind, read_ledger, lift, txn, txn_with, try_except. fold k.
  rewrite Hs, Ht. unfold reserve_outbound. rewrite H1, H2. cbn -[dedupe_key_of].
  destruct (e_transport E) as [id|e|e]; cbn -[dedupe_key_of];
    unfold record_outbound, mark_outbound_ambiguous; cbn -[dedupe_key_of];
    rewrite lookup_insert_eq; cbn -[dedupe_key_of].
  - unfold settle_sent. cbn -[dedupe_key_of]. rewrite H1.
    rewrite decide_True by done. cbn -[dedupe_key_of]. done.
  - rewrite decide_True by done. unfold ambiguous_world, with_ledger. cbn -[dedupe_key_of].
    by rewrite !insert_insert_eq.
  - rewrite decide_True by done. unfold ambiguous_world, with_ledger. cbn -[dedupe_key_of].
    by rewrite !insert_insert_eq.
Qed.

Lemma locked_blocked E recipient subject content w s :
  outbound_status (w_ledger w) (dedupe_key_of content) = Some s →
  send_hours_locked E false recipient subject content w =
  ([], w, match s with
          | StatusSent => Ret (AlreadySent content.(me_period_key))
          | StatusReservation _ => Raise manual_reconciliation
          end).
Proof.
  intros Hs. unfold send_hours_locked, mbind, act_bind, read_ledger. rewrite Hs.
  by destruct s.
Qed.

(** A test send never touches the ledger: it delivers at most the test mail. *)
Lemma locked_test E recipient subject content w :
  let m := send_hours_locked E true recipient subject content in
  trace m w = [] ∨
  trace m w = [deliver (mk_delivery None recipient subject content.(me_body)) w].
Proof.
  unfold trace, send_hours_locked, mbind, act_bind, lift, try_except. simpl.
  destruct (e_from_token E); simpl; [|by left].
  destruct (e_transport E); simpl; [by right|by right|by left].
Qed.

(** Every run of [_send_hours] commits nothing, delivers one test mail, or is
    a fresh send of its period. *)
Lemma send_hours_cases E test_to dry_run w :
  let t := trace (send_hours E test_to dry_run) w in
  t = [] ∨
  (∃ recipient subject body, t = [deliver (mk_delivery None recipient subject body) w]) ∨
  (∃ k recipient subject body, outbound_status (w_ledger w) k = None ∧
     t = fresh_trace E k recipient subject body w).
Proof.
  intros t. subst t. unfold send_hours. cbv zeta. case_match; [by left|].
  unfold trace, mbind, act_bind, lift at 1.
  destruct (previous_month_email _ _) as [content|e]; [|by left].
  destruct dry_run; [by left|]. unfold locked.
  destruct (match test_to with Some t => truthy t | None => false end); simpl.
  - match goal with |- context [send_hours_locked E true ?r ?s content w] =>
      pose proof (locked_test E r s content w) as Ht end.
    unfold trace in Ht. destruct (send_hours_locked _ _ _ _ _ _) as [[t w'] r]. simpl in *.
    destruct Ht as [->| ->]; [by left | right; left; by eexists _, _, _].
  - destruct (e_lock_free E); [|by left].
    destruct (outbound_status (w_ledger w) (dedupe_key_of content)) as [s|] eqn:Hs.
    { rewrite (locked_blocked _ _ _ _ _ _ Hs). by left. }
    destruct (e_from_token E) as [[]|e] eqn:Ht.
    + match goal with |- context [send_hours_locked E false ?r ?s content w] =>
        pose proof (locked_fresh E r s content w Hs Ht) as (Hf & _ & _) end.
      unfold trace in Hf. destruct (send_hours_locked _ _ _ _ _ _) as [[t w'] r]. simpl in *.
      subst t. right; right. eauto 10.
    + unfold send_hours_locked, mbind, act_bind, read_ledger, lift. rewrite Hs, Ht. by left.
Qed.

(** ** Every sequence of commands *)

Definition tracked (k : text) (l : ledger) : nat :=
  if decide (outbound_status l k = None) then 0 else 1.

(** What holds of one key: it is in one table at most, it was mailed at most once
    per release plus once for its present row, and a send on record was delivered
    or confirmed by the operator. *)
Record KeyInv (w : world) (k : text) : Prop := {
  ki_disjoint : outbound_sends (w_ledger w) !! k = None ∨
                outbound_reservations (w_ledger w) !! k = None;
  ki_once : deliveries k w ≤ releases k w + tracked k (w_ledger w);
  ki_sent : is_Some (outbound_sends (w_ledger w) !! k) →
            0 < deliveries k w ∨ k ∈ w_confirmed w }.

Lemma deliveries_deliver k d w :
  deliveries k (deliver d w) =
  deliveries k w + (if decide (dl_key d = Some k) then 1 else 0).
Proof.
  unfold deliveries, deliver. cbn [w_mail]. rewrite List.filter_app, length_app. f_equal.
  simpl. by case_decide; case_bool_decide.
Qed.

Lemma releases_note k k' w :
  releases k (note_released k' w) = (if decide (k' = k) then 1 else 0) + releases k w.
Proof. unfold releases, note_released. simpl. by case_decide; case_bool_decide. Qed.

Lemma tracked_some l k : outbound_status l k ≠ None → tracked k l = 1.
Proof. intros. unfold tracked. by rewrite decide_False. Qed.

(** The ledger of [w'] treats [k] as that of [w] does. *)
Definition same_at (k : text) (w w' : world) : Prop :=
  outbound_sends (w_ledger w') !! k = outbound_sends (w_ledger w) !! k ∧
  outbound_reservations (w_ledger w') !! k = outbound_reservations (w_ledger w) !! k.

Lemma key_inv_same k w w' :
  same_at k w w' → deliveries k w' = deliveries k w → releases k w' = releases k w →
  w_confirmed w ⊆ w_confirmed w' → KeyInv w k → KeyInv w' k.
Proof.
  intros [Hs Hr] Hd Hl Hc [H1 H2 H3]. split; rewrite ?Hs, ?Hr, ?Hd, ?Hl; [done| |].
  - unfold tracked, outbound_status in *. by rewrite Hs, Hr.
  - intros Hx. destruct (H3 Hx); [by left | right; set_solver].
Qed.

Lemma key_inv_test w r s b k : KeyInv w k → KeyInv (deliver (mk_delivery None r s b) w) k.
Proof.
  apply key_inv_same; [done| |done|done]. rewrite deliveries_deliver. simpl. lia.
Qed.

(** A fresh send of [k] leaves the other keys alone wherever it stops. *)
Lemma fresh_elsewhere E k r s b w w' k' :
  k' ≠ k → w' ∈ fresh_trace E k r s b w →
  same_at k' w w' ∧ deliveries k' w' = deliveries k' w ∧
  w_released w' = w_released w ∧ w_confirmed w' = w_confirmed w.
Proof.
  intros Hne Hin.
  assert (∀ x, deliveries k' (deliver (mk_delivery (Some k) r s b) x) = deliveries k' x) as Hd.
  { intros x. rewrite deliveries_deliver. simpl. rewrite decide_False by congruence. lia. }
  unfold fresh_trace in Hin.
  destruct (e_transport E); set_unfold in Hin; destruct_or?; subst; unfold same_at; simpl;
    (split_and!; rewrite ?lookup_delete_ne, ?lookup_insert_ne by done; try done; exact (Hd w)).
Qed.

(** A fresh send keeps the invariant at every point where it may stop. *)
Lemma key_inv_fresh E k r s b w w' k' :
  outbound_status (w_ledger w) k = None → KeyInv w k' →
  w' ∈ fresh_trace E k r s b w → KeyInv w' k'.
Proof.
  intros Hs Hinv Hin. pose proof (proj1 (status_none _ _) Hs) as [H1 H2].
  destruct (decide (k' = k)) as [->|Hne].
  - destruct Hinv as [_ Honce _]. unfold tracked in Honce. rewrite decide_True in Honce by done.
    unfold fresh_trace in Hin.
    destruct (e_transport E); set_unfold in Hin; destruct_or?; subst;
    split; cbn [w_ledger outbound_sends outbound_reservations with_ledger deliver
      reserved_world sent_world ambiguous_world] in *; rewrite ?lookup_insert_eq,
      ?lookup_delete_eq, ?H1; try (by auto); try (by intros [? [=]]).
    all: try (rewrite tracked_some by (unfold outbound_status; simpl;
      rewrite ?H1, ?lookup_insert_eq; done)).
    all: try (intros _; left).
    all: unfold deliveries, releases in *;
      cbn [w_mail w_released with_ledger deliver reserved_world sent_world ambiguous_world] in *;
      rewrite ?List.filter_app, ?length_app; simpl; rewrite ?bool_decide_eq_true_2 by done;
      simpl; lia.
  - destruct (fresh_elsewhere _ _ _ _ _ _ _ _ Hne Hin) as (Hsame & Hd & Hr & Hc).
    apply (key_inv_same k' w); [done|done| |by rewrite Hc|done].
    unfold releases. by rewrite Hr.
Qed.

(** ** Resolution by the operator *)

Lemma lstrip_idem `{Unicode} t : lstrip (lstrip t) = lstrip t.
Proof. induction t as [|c t IH]; simpl; [done|]. destruct (uni_isspace c) eqn:E; [done|]. simpl. by rewrite E. Qed.

Section Resolve.
Context `{Unicode}.

(** The committed world of a resolution, if any. *)
Lemma resolve_cases E k sent unsent w w' :
  w' ∈ trace (outbound_resolve E k sent unsent) w →
  (∃ id, sent = Some id ∧ w' = note_confirmed k w ∧
     is_Some (outbound_sends (w_ledger w) !! k)) ∨
  (∃ id, sent = Some id ∧ ∃ r, outbound_sends (w_ledger w) !! k = None ∧
     outbound_reservations (w_ledger w) !! k = Some r ∧
     w' = note_confirmed k
            (sent_world E k (or_recipient r) (or_subject r) (strip (strip id)) w)) ∨
  (sent = None ∧ is_Some (outbound_reservations (w_ledger w) !! k) ∧
   outbound_sends (w_ledger w) !! k = None ∧
   w' = note_released k (with_ledger (mk_ledger (outbound_sends (w_ledger w))
          (delete k (outbound_reservations (w_ledger w)))) w)).
Proof.
  unfold trace, outbound_resolve. case_match; [by intros ?%elem_of_nil|].
  unfold locked. destruct (e_lock_free E); [|by intros ?%elem_of_nil].
  destruct sent as [id|]; unfold mbind, act_bind, txn_with;
    unfold reconcile_outbound_sent, release_outbound, settle_sent; cbv zeta.
  - destruct (negb (truthy (strip (strip id)))); [by intros ?%elem_of_nil|].
    destruct (outbound_sends (w_ledger w) !! k) as [c|] eqn:Hc.
    + case_decide; [|by intros ?%elem_of_nil]. simpl. intros ->%list_elem_of_singleton.
      left. exists id. split; [done|]. split; [by destruct w as [[? ?] ? ? ?]|by eexists].
    + destruct (outbound_reservations (w_ledger w) !! k) as [r|] eqn:Hr;
        [|by intros ?%elem_of_nil]. simpl. intros ->%list_elem_of_singleton.
      right; left. exists id. split; [done|]. by exists r.
  - destruct (outbound_sends (w_ledger w) !! k) as [c|] eqn:Hc; [by intros ?%elem_of_nil|].
    destruct (outbound_reservations (w_ledger w) !! k) as [r|] eqn:Hr;
      [|by intros ?%elem_of_nil]. simpl. intros ->%list_elem_of_singleton.
    right; right. by split_and!.
Qed.

Lemma key_inv_resolve E k sent unsent w w' k' :
  KeyInv w k' → w' ∈ trace (outbound_resolve E k sent unsent) w → KeyInv w' k'.
Proof.
  intros Hinv [(id & -> & -> & Hs)|[(id & -> & r & H1 & H2 & ->)|(-> & Hr & H1 & ->)]]
    %resolve_cases.
  - eapply key_inv_same; [| | | |exact Hinv]; [done..|]. simpl. set_solver.
  - destruct (decide (k' = k)) as [->|Hne].
    + destruct Hinv as [_ Honce _]. split; simpl.
      * right. apply lookup_delete_eq.
      * rewrite tracked_some by (unfold outbound_status; simpl; by rewrite lookup_insert_eq).
        rewrite tracked_some in Honce by (unfold outbound_status; by rewrite H1, H2). done.
      * intros _. right. by left.
    + eapply key_inv_same; [| | | |exact Hinv]; [|done..|simpl; set_solver].
      split; simpl; by rewrite ?lookup_insert_ne, ?lookup_delete_ne by done.
  - destruct (decide (k' = k)) as [->|Hne].
    + destruct Hinv as [_ Honce _]. destruct Hr as [r Hr]. split; simpl.
      * right. apply lookup_delete_eq.
      * rewrite releases_note. rewrite decide_True by done.
        rewrite tracked_some in Honce by (unfold outbound_status; by rewrite H1, Hr).
        unfold deliveries, releases in *. simpl in *. lia.
      * rewrite H1. by intros [? [=]].
    + eapply key_inv_same; [| | | |exact Hinv]; [|done| |done].
      * split; simpl; by rewrite ?lookup_delete_ne by done.
      * rewrite releases_note. by rewrite decide_False by done.
Qed.

Lemma outbound_step_inv w w' k : outbound_step w w' → KeyInv w k → KeyInv w' k.
Proof.
  intros [E test_to dry_run w1 Hin|E k' sent unsent w1 Hin] Hinv.
  - destruct (send_hours_cases E test_to dry_run w) as [Ht|[(r & s & b & Ht)|(k1 & r & s & b & Hs & Ht)]];
      rewrite Ht in Hin.
    + by apply elem_of_nil in Hin.
    + apply list_elem_of_singleton in Hin as ->. by apply key_inv_test.
    + by eapply key_inv_fresh.
  - by eapply key_inv_resolve.
Qed.

Lemma outbound_reachable_inv w k : outbound_reachable w → KeyInv w k.
Proof.
  intros Hr. assert (KeyInv no_world k) as H0.
  { split; simpl; [by left|unfold deliveries; simpl; lia|by intros [? [=]]]. }
  revert H0. unfold outbound_reachable in Hr. induction Hr; [done|]. eauto using outbound_step_inv.
Qed.

End Resolve.

(** ** Properties *)

(** C3: Over every sequence of [send-hours] and [outbound-resolve] commands, each of
    which may die after any committed effect, a dedupe key is mailed at most once
    more often than the operator has released it; while the ledger has no row for the
    key, at most as often as it was released; and a send on record was delivered
    or confirmed by the operator. *)
Theorem outbound_at_most_once `{Unicode} w k :
  outbound_reachable w →
  deliveries k w ≤ S (releases k w) ∧
  (outbound_status (w_ledger w) k = None → deliveries k w ≤ releases k w) ∧
  (outbound_was_sent (w_ledger w) k = true → 0 < deliveries k w ∨ k ∈ w_confirmed w).
Proof.
  intros [Hd Ho Hs]%(outbound_reachable_inv w k). unfold tracked in Ho. split_and!.
  - case_decide; lia.
  - intros E. rewrite decide_True in Ho by done. lia.
  - unfold outbound_was_sent, outbound_status. intros Hw%bool_decide_eq_true_1. apply Hs.
    repeat case_match; simplify_eq; by eexists.
Qed.

(** A send on record is final: no later command, however interrupted, removes or
    changes its row. *)
Theorem outbound_sent_final `{Unicode} w w' k s :
  rtc outbound_step w w' → outbound_sends (w_ledger w) !! k = Some s →
  outbound_sends (w_ledger w') !! k = Some s.
Proof.
  induction 1 as [|w w1 w2 Hstep _ IH]; [done|]. intros Hk. apply IH. clear IH w2.
  destruct Hstep as [E test_to dry_run w1 Hin|E k' sent unsent w1 Hin].
  - destruct (send_hours_cases E test_to dry_run w)
      as [Ht|[(r & m & b & Ht)|(k1 & r & m & b & Hs & Ht)]]; rewrite Ht in Hin.
    + by apply elem_of_nil in Hin.
    + by apply list_elem_of_singleton in Hin as ->.
    + apply status_none in Hs as [Hs _]. assert (k ≠ k1) as Hne by congruence.
      destruct (fresh_elsewhere _ _ _ _ _ _ _ _ Hne Hin) as ([-> _] & _). done.
  - apply resolve_cases in Hin
      as [(id & -> & -> & _)|[(id & -> & r & H1 & H2 & ->)|(-> & Hr & H1 & ->)]]; try done.
    simpl. rewrite lookup_insert_ne by congruence. done.
Qed.

(** A monthly send decides by the ledger alone.  With no row for the period it
    reserves, mails, and records the send, or leaves an ambiguous reservation that
    names the exception and re-raises it; a period already sent is reported, and one
    reserved or ambiguous is refused for manual reconciliation, both without a mail
    or a write. *)
Theorem send_hours_decides E content w :
  let recipient := e_monthly_hours_recipient E in
  let k := dedupe_key_of content in
  at_sign ∈ recipient → previous_month_email (e_year E) (e_month E) = Ret content →
  e_lock_free E = true → e_from_token E = Ret tt →
  let m := send_hours E None false in
  let t := fresh_trace E k recipient (me_subject content) (me_body content) w in
  match outbound_status (w_ledger w) k with
  | None => trace m w = t ∧ final m w = default w (list.last t) ∧
            result m w = fresh_result E recipient (me_subject content)
  | Some StatusSent => m w = ([], w, Ret (AlreadySent (me_period_key content)))
  | Some (StatusReservation _) => m w = ([], w, Raise manual_reconciliation)
  end.
Proof.
  intros recipient k Hat Hc Hl Ht m t.
  assert (m w = send_hours_locked E false recipient (me_subject content) content w) as Hm.
  { unfold m, send_hours. fold recipient. rewrite bool_decide_eq_true_2 by done.
    assert (truthy recipient = true) as ->.
    { apply bool_decide_eq_true_2. intros ->. by apply elem_of_nil in Hat. }
    cbv zeta. rewrite Hc, Hl. unfold mbind, act_bind, lift. simpl.
    by destruct (send_hours_locked _ _ _ _ _ _) as [[? ?] ?]. }
  unfold trace, final, result. rewrite Hm.
  destruct (outbound_status (w_ledger w) k) as [s|] eqn:Hs.
  - rewrite (locked_blocked _ _ _ _ _ _ Hs). by destruct s.
  - apply (locked_fresh E recipient (me_subject content) content w Hs Ht).
Qed.

(** Confirming a send is idempotent: once a confirmation has returned, the same
    one returns again and changes nothing, and one with another message id raises. *)
Theorem reconcile_idempotent `{Unicode} now k id l u l' :
  reconcile_outbound_sent now k id l = Ret (u, l') →
  outbound_status l' k = Some StatusSent ∧
  ∀ now' id', reconcile_outbound_sent now' k id' l' =
    if decide (strip id' = []) then
      Raise (RuntimeError "A non-empty Gmail message ID is required")
    else if decide (strip id' = strip id) then Ret (tt, l')
    else Raise (RuntimeError "Completed outbound send has a different Gmail message ID").
Proof.
  intros Hr.
  assert (∃ s, outbound_sends l' !! k = Some s ∧ os_gmail_message_id s = strip id)
    as (s & Hs & Hid).
  { unfold reconcile_outbound_sent, settle_sent in Hr. repeat case_match; simplify_eq; eauto.
    eexists. simpl. split; [by rewrite lookup_insert_eq|done]. }
  split; [unfold outbound_status; by rewrite Hs|].
  intros now' id'. unfold reconcile_outbound_sent, truthy. rewrite Hs, Hid.
  repeat (case_decide || case_bool_decide); simplify_eq/=; done || congruence.
Qed.

Local Open Scope Z_scope.
Local Ltac Zify.zify_post_hook ::= Z.to_euclidean_division_equations.

Lemma div_pred y k : 0 < k → y / k = (y - 1) / k + (if y mod k =? 0 then 1 else 0).
Proof. intros. destruct (Z.eqb_spec (y mod k) 0); nia. Qed.

Lemma days_before_year_succ y :
  days_before_year (y + 1) = days_before_year y + (if is_leap y then 366 else 365).
Proof.
  unfold days_before_year, is_leap. replace (y + 1 - 1) with y by lia.
  rewrite (div_pred y 4), (div_pred y 100), (div_pred y 400) by lia.
  generalize ((y - 1) / 4) ((y - 1) / 100) ((y - 1) / 400). intros.
  destruct (Z.eqb_spec (y mod 4) 0), (Z.eqb_spec (y mod 100) 0), (Z.eqb_spec (y mod 400) 0);
    simpl; lia.
Qed.

Lemma days_before_month_succ y m : 1 <= m →
  days_before_month y (m + 1) = days_before_month y m + days_in_month y m.
Proof.
  intros Hm. unfold days_before_month.
  replace (Z.to_nat (m + 1 - 1)) with (S (Z.to_nat (m - 1)))%nat by lia.
  rewrite seq_S, foldr_app. simpl foldr at 2. replace (Z.of_nat (S (Z.to_nat (m - 1)))) with m by lia.
  generalize (days_in_month y m). intros d. induction (seq 1 (Z.to_nat (m - 1))); simpl; lia.
Qed.

Lemma days_before_december y :
  days_before_month y 12 + days_in_month y 12 = if is_leap y then 366 else 365.
Proof. unfold days_before_month, days_in_month. simpl. destruct (is_leap y); reflexivity. Qed.

Lemma period_key_spells py pm subject body :
  0 <= py < 10000 → 0 <= pm < 100 →
  ∃ content, Ret (mk_monthly (fmt 4 py ++ [dash] ++ fmt 2 pm) subject body)
             = Ret content ∧
    number 4 (me_period_key content) = Some py ∧
    number 2 (drop 5 (me_period_key content)) = Some pm.
Proof.
  intros. eexists. split; [done|]. cbn [me_period_key]. split; [by apply number_fmt; lia|].
  rewrite app_assoc, drop_app_length' by (by rewrite length_app, fmt_length).
  rewrite <- (app_nil_r (fmt 2 pm)). apply number_fmt. lia.
Qed.

(** The monthly mail is about the calendar month that ends the day before the
    first of the current one, across the turn of the year too; its period key spells
    that year and month back, so distinct months have distinct dedupe keys; and the
    mail exists for every month but the first of year 1. *)
Theorem previous_month_period y m :
  valid_date y m 1 = true → (y, m) ≠ (1, 1) →
  let '(py, pm) := previous_month y m in
  ymd_days py pm (days_in_month py pm) + 1 = ymd_days y m 1 ∧
  ∃ content, previous_month_email y m = Ret content ∧
    number 4 (me_period_key content) = Some py ∧
    number 2 (drop 5 (me_period_key content)) = Some pm.
Proof.
  unfold valid_date. intros Hv Hne. bools. unfold previous_month_email, previous_month.
  assert (y ≠ 1 ∨ m ≠ 1) by (destruct (decide (y = 1)), (decide (m = 1)); subst; naive_solver).
  destruct (Z.ltb_spec 1 m) as [Hm|Hm]; split.
  - unfold ymd_days. replace m with ((m - 1) + 1) at 3 by lia.
    rewrite days_before_month_succ by lia. lia.
  - assert (valid_date y (m - 1) 1 = true) as ->; [|by apply period_key_spells; lia].
    unfold valid_date, days_in_month. destruct (is_leap y); repeat case_match; lia.
  - unfold ymd_days. replace m with 1 by lia. pose proof (days_before_year_succ (y - 1)) as Hy.
    replace (y - 1 + 1) with y in Hy by lia. pose proof (days_before_december (y - 1)).
    change (days_before_month y 1) with 0. lia.
  - assert (valid_date (y - 1) 12 1 = true) as ->; [|by apply period_key_spells; lia].
    unfold valid_date. change (days_in_month (y - 1) 12) with 31. lia.
Qed.

(** ** A concrete month

    The first send loses its answer, the operator releases the key, and the second
    send is accepted. *)
Module OutboundDemo.

Local Existing Instance ascii_unicode.

Definition env (how : transport) : surroundings :=
  mk_env (str "maria@firefly.example") 2026 1 (ymd_days 2026 1 2 * DAY) true (Ret tt) how.

Definition lost : surroundings := env (Lost (SendError "timeout")).
Definition fine : surroundings := env (Accepted (str "18f2")).
Definition key : text := str "monthly-hours:2025-12".

Definition w1 : world := final (send_hours lost None false) no_world.
Definition w2 : world := final (outbound_resolve lost key None true) w1.
Definition w3 : world := final (send_hours fine None false) w2.

Example w1_in_doubt : outbound_status (w_ledger w1) key = Some (StatusReservation Ambiguous).
Proof. vm_compute. reflexivity. Qed.

Example w3_details :
  od_subject <$> outbound_details (w_ledger w3) key = Some (str "Firefly Hours for December 2025").
Proof. vm_compute. reflexivity. Qed.

Lemma step1 : outbound_step no_world w1.
Proof. apply (step_send _ lost None false), (list_elem_of_lookup_2 _ 2). vm_compute. reflexivity. Qed.

Lemma step2 : outbound_step w1 w2.
Proof.
  apply (step_resolve _ lost key None true), (list_elem_of_lookup_2 _ 0). vm_compute. reflexivity. Qed.

Lemma step3 : outbound_step w2 w3.
Proof. apply (step_send _ fine None false), (list_elem_of_lookup_2 _ 2). vm_compute. reflexivity. Qed.

Lemma w3_reachable : outbound_reachable w3.
Proof. eapply rtc_l, rtc_l, rtc_once; [apply step1|apply step2|apply step3]. Qed.

Lemma w3_key_sent : outbound_was_sent (w_ledger w3) key = true.
Proof. vm_compute. reflexivity. Qed.

Definition row3 : outbound_send :=
  default (mk_send [] [] [] []) (outbound_sends (w_ledger w3) !! key).

Lemma row3_lookup : outbound_sends (w_ledger w3) !! key = Some row3.
Proof. vm_compute. reflexivity. Qed.

Definition content : monthly_email :=
  match previous_month_email 2026 1 with Ret c => c | Raise _ => mk_monthly [] [] [] end.

Lemma content_ret : previous_month_email (e_year fine) (e_month fine) = Ret content.
Proof. vm_compute. reflexivity. Qed.

Lemma recipient_at : at_sign ∈ e_monthly_hours_recipient fine.
Proof. apply (list_elem_of_lookup_2 _ 5). vm_compute. reflexivity. Qed.

Definition confirmed : ledger :=
  match reconcile_outbound_sent 0 key (str " 18aa ") (w_ledger w1) with
  | Ret (_, l) => l | Raise _ => w_ledger w1 end.

Lemma confirmed_ret :
  reconcile_outbound_sent 0 key (str " 18aa ") (w_ledger w1) = Ret (tt, confirmed).
Proof. vm_compute. reflexivity. Qed.

Lemma outbound_at_most_once_witness :
  (deliveries key w3 ≤ S (releases key w3))%nat ∧
  (0 < deliveries key w3 ∨ key ∈ w_confirmed w3)%nat.
Proof.
  destruct (outbound_at_most_once w3 key w3_reachable) as (H1 & _ & H3).
  exact (conj H1 (H3 w3_key_sent)).
Defined.

Definition w4 : world := final (outbound_resolve fine key (Some (str "18f2")) false) w3.

Lemma step4 : outbound_step w3 w4.
Proof.
  apply (step_resolve _ fine key (Some (str "18f2")) false), (list_elem_of_lookup_2 _ 0).
  vm_compute. reflexivity.
Qed.

Lemma outbound_sent_final_witness : outbound_sends (w_ledger w4) !! key = Some row3.
Proof. exact (outbound_sent_final w3 w4 key row3 (rtc_once _ _ step4) row3_lookup). Defined.

Lemma send_hours_decides_witness :
  let m := send_hours fine None false in
  result m no_world = fresh_result fine (e_monthly_hours_recipient fine) (me_subject content).
Proof.
  exact (proj2 (proj2 (send_hours_decides fine content no_world recipient_at content_ret
    eq_refl eq_refl))).
Defined.

Lemma reconcile_idempotent_witness :
  reconcile_outbound_sent 1 key (str "18aa") confirmed = Ret (tt, confirmed).
Proof. exact (proj2 (reconcile_idempotent 0 key _ _ tt confirmed confirmed_ret) 1 (str "18aa")). Defined.

Lemma previous_month_period_witness :
  ymd_days 2025 12 31 + 1 = ymd_days 2026 1 1.
Proof. exact (proj1 (previous_month_period 2026 1 eq_refl ltac:(congruence))). Defined.

End OutboundDemo.
