(* ===== verification/Rules.v ===== *)
(** * Automation rules: strict definitions and matching

    Models [src/src/eom_email_watcher/automation/rules.py]: the strict model of a
    rule definition (patterns, operand validation, scope, provider and definition
    validators, unknown and missing members), its canonical bytes, and
    [match_rules].  [fnmatch.fnmatchcase] is modelled after the library's
    translation of a glob.  A validation failure is [RuleValidationError]; its
    reason text is left out. *)

From S2P Require Export Addresses Json.
From stdpp Require Import options.

Local Open Scope Z_scope.

Definition MAX_RULE_DEFINITION_BYTES : nat := 16 * 1024.
Definition MAX_AUTOMATION_ATTACHMENTS : nat := 1000.
Definition MAX_AUTOMATION_FIRES_PER_MESSAGE : nat := 1000.
Definition MAX_CONDITIONS : nat := 8.
Definition MAX_PARAMETERS : nat := 16.

(** ** The closed vocabularies *)

Inductive condition_field :=
| Sender | SenderName | Subject | Category | Priority | ActionRequired
| AttachmentMediaType | AttachmentFilename | AttachmentByteSize | AttachmentCount.

Inductive condition_op :=
| OpEquals | OpDomainEquals | OpContains | OpStartsWith | OpIn | OpGlob | OpLte | OpGte.

Global Instance condition_field_eq_dec : EqDecision condition_field.
Proof. solve_decision. Defined.
Global Instance condition_op_eq_dec : EqDecision condition_op.
Proof. solve_decision. Defined.

Definition field_name (f : condition_field) : text :=
  match f with
  | Sender => str "sender"
  | SenderName => str "sender_name"
  | Subject => str "subject"
  | Category => str "category"
  | Priority => str "priority"
  | ActionRequired => str "action_required"
  | AttachmentMediaType => str "attachment.media_type"
  | AttachmentFilename => str "attachment.filename"
  | AttachmentByteSize => str "attachment.byte_size"
  | AttachmentCount => str "attachment.count"
  end.

Definition op_name (o : condition_op) : text :=
  match o with
  | OpEquals => str "equals"
  | OpDomainEquals => str "domain_equals"
  | OpContains => str "contains"
  | OpStartsWith => str "starts_with"
  | OpIn => str "in"
  | OpGlob => str "glob"
  | OpLte => str "lte"
  | OpGte => str "gte"
  end.

Definition all_fields : list condition_field :=
  [Sender; SenderName; Subject; Category; Priority; ActionRequired;
   AttachmentMediaType; AttachmentFilename; AttachmentByteSize; AttachmentCount].

Definition all_ops : list condition_op :=
  [OpEquals; OpDomainEquals; OpContains; OpStartsWith; OpIn; OpGlob; OpLte; OpGte].

Definition ALLOWED_OPS (f : condition_field) : list condition_op :=
  match f with
  | Sender => [OpEquals; OpDomainEquals]
  | SenderName => [OpEquals; OpContains]
  | Subject => [OpContains; OpStartsWith]
  | Category | Priority => [OpEquals; OpIn]
  | ActionRequired => [OpEquals]
  | AttachmentMediaType => [OpEquals]
  | AttachmentFilename => [OpGlob]
  | AttachmentByteSize => [OpLte]
  | AttachmentCount => [OpGte; OpLte]
  end.

Definition is_attachment_field (f : condition_field) : bool :=
  match f with
  | AttachmentMediaType | AttachmentFilename | AttachmentByteSize => true
  | _ => false
  end.

Definition CATEGORIES : list text :=
  [str "invoice"; str "scheduling"; str "customer_request"; str "automated_notice";
   str "informational"; str "other"].
Definition PRIORITIES : list text := [str "urgent"; str "high"; str "normal"; str "low"].

(** ** Patterns *)

Definition is_lower (c : N) : bool := ((97 <=? c) && (c <=? 122))%N.
Definition lower_alnum (c : N) : bool := is_digit c || is_lower c.

Definition word_of (ok : N → bool) (t : text) : bool := truthy t && forallb ok t.

(** [IDENTIFIER_PATTERN]: non-empty lower-case words joined by ['.'] or ['-']. *)
Definition identifier_pattern (t : text) : bool :=
  forallb (word_of lower_alnum) (split_on dot ((fun c => if decide (c = hyphen) then dot else c) <$> t)).

Definition version_parts (k : nat) (t : text) : bool :=
  let parts := split_on dot t in
  bool_decide (length parts = k) && forallb (word_of is_digit) parts.

(** [CAPABILITY_VERSION_PATTERN] *)
Definition capability_version_pattern (t : text) : bool := version_parts 2 t.

Fixpoint span (ok : N → bool) (t : text) : text * text :=
  match t with
  | [] => ([], [])
  | c :: t' => if ok c then let '(a, b) := span ok t' in (c :: a, b) else ([], t)
  end.

(** [APP_VERSION_PATTERN]: three numbers, then optionally ['-'] or ['+'] and a
    suffix. *)
Definition app_version_pattern (t : text) : bool :=
  let '(numbers, rest) := span (fun c => is_digit c || bool_decide (c = dot)) t in
  version_parts 3 numbers &&
  match rest with
  | [] => true
  | c :: suffix =>
      (bool_decide (c = hyphen) || bool_decide (c = 43%N)) &&
      word_of (fun c => ascii_alnum c || bool_decide (c = dot) || bool_decide (c = hyphen)) suffix
  end.

Definition media_char (c : N) : bool :=
  lower_alnum c || bool_decide (c ∈ str "!#$&^_.+-").

(** [MEDIA_TYPE_PATTERN] *)
Definition media_type_pattern (t : text) : bool :=
  match split_on 47%N t with
  | [a; b] => word_of media_char a && word_of media_char b
  | _ => false
  end.

(** One label of [DOMAIN_PATTERN]. *)
Definition lower_label (label : text) : bool :=
  forallb (fun c => lower_alnum c || bool_decide (c = hyphen)) label &&
  bool_decide (1 <= length label <= 63)%nat &&
  match label with c :: _ => lower_alnum c | [] => false end &&
  match reverse label with c :: _ => lower_alnum c | [] => false end.

(** [DOMAIN_PATTERN]: at least two labels. *)
Definition domain_pattern (t : text) : bool :=
  let labels := split_on dot t in
  bool_decide (2 <= length labels)%nat && forallb lower_label labels.

(** [uuid.UUID(t)] parses with version 4 and prints back as [t]. *)
Definition uuid4_text (t : text) : bool :=
  bool_decide (length t = 36%nat) &&
  forallb (fun i => match t !! i with
    | None => false
    | Some c =>
        if bool_decide (i = 8 ∨ i = 13 ∨ i = 18 ∨ i = 23)%nat then bool_decide (c = hyphen)
        else if bool_decide (i = 14)%nat then bool_decide (c = 52%N)
        else if bool_decide (i = 19)%nat then bool_decide (c ∈ str "89ab")
        else is_lower_hex c
    end) (seq 0 36).

Definition within_length (lo hi : nat) (t : text) : bool :=
  bool_decide (lo <= length t <= hi)%nat.

Definition identifier (t : text) : bool := identifier_pattern t && within_length 0 100 t.
Definition capability_version (t : text) : bool :=
  capability_version_pattern t && within_length 0 16 t.
Definition app_version (t : text) : bool := app_version_pattern t && within_length 0 128 t.

(** ** The model classes *)

Inductive operand :=
| VStr (t : text)
| VInt (z : Z)
| VBool (b : bool)
| VList (l : list text).

Global Instance operand_eq_dec : EqDecision operand.
Proof. solve_decision. Defined.

Record Scope := mk_scope { sc_provider : option text; sc_account_id : option text }.

Record CapabilityRef := mk_capability { cap_id : text; cap_version : text }.

Record ProviderRef := mk_provider {
  pr_app_id : text;
  pr_version : text;
  pr_instance_id : text }.

Inductive parameter := PStr (t : text) | PInt (z : Z) | PBool (b : bool).

Record ConnectInvokeAction := mk_action {
  act_capability : CapabilityRef;
  act_provider : ProviderRef;
  act_parameters : list (text * parameter) }.

Record Condition := mk_condition {
  cond_field : condition_field;
  cond_op : condition_op;
  cond_value : operand }.

Record RuleDefinition := mk_rule {
  rd_name : text;
  rd_scope : Scope;
  rd_conditions : list Condition;
  rd_action : ConnectInvokeAction;
  rd_confirm_each : bool }.

Global Instance Scope_eq_dec : EqDecision Scope.
Proof. solve_decision. Defined.
Global Instance CapabilityRef_eq_dec : EqDecision CapabilityRef.
Proof. solve_decision. Defined.
Global Instance ProviderRef_eq_dec : EqDecision ProviderRef.
Proof. solve_decision. Defined.
Global Instance parameter_eq_dec : EqDecision parameter.
Proof. solve_decision. Defined.
Global Instance ConnectInvokeAction_eq_dec : EqDecision ConnectInvokeAction.
Proof. solve_decision. Defined.
Global Instance Condition_eq_dec : EqDecision Condition.
Proof. solve_decision. Defined.
Global Instance RuleDefinition_eq_dec : EqDecision RuleDefinition.
Proof. solve_decision. Defined.

Section WithLibraries.
Context `{Unicode} `{AddressLib}.

(** [Condition._validate_operand] *)
Definition validate_operand (c : Condition) : bool :=
  let value := c.(cond_value) in
  bool_decide (c.(cond_op) ∈ ALLOWED_OPS c.(cond_field)) &&
  match c.(cond_field) with
  | Sender =>
      match value with
      | VStr v =>
          truthy v &&
          (if decide (c.(cond_op) = OpEquals) then
             bool_decide (length v <= 320)%nat &&
             bool_decide (normalize_validated_address v = Some v)
           else bool_decide (length v <= 253)%nat && domain_pattern v)
      | _ => false
      end
  | SenderName | Subject =>
      let limit := if decide (c.(cond_field) = SenderName) then 320%nat else 4096%nat in
      match value with
      | VStr v => within_length 1 limit v && bool_decide (v = uni_casefold v)
      | _ => false
      end
  | Category | Priority =>
      let allowed := if decide (c.(cond_field) = Category) then CATEGORIES else PRIORITIES in
      if decide (c.(cond_op) = OpIn) then
        match value with
        | VList values =>
            bool_decide (1 <= length values <= length allowed)%nat &&
            bool_decide (NoDup values) && forallb (fun v => bool_decide (v ∈ allowed)) values
        | _ => false
        end
      else
        match value with
        | VStr v => bool_decide (v ∈ allowed)
        | _ => false
        end
  | ActionRequired => match value with VBool _ => true | _ => false end
  | AttachmentMediaType =>
      match value with
      | VStr v => bool_decide (length v <= 127)%nat && media_type_pattern v
      | _ => false
      end
  | AttachmentFilename =>
      match value with
      | VStr v =>
          within_length 1 512 v && negb (bool_decide (47%N ∈ v)) &&
          negb (bool_decide (92%N ∈ v)) && bool_decide (v = uni_casefold v)
      | _ => false
      end
  | AttachmentByteSize =>
      match value with VInt z => (0 <=? z) && (z <=? 104857600) | _ => false end
  | AttachmentCount =>
      match value with VInt z => (0 <=? z) && (z <=? 64) | _ => false end
  end.

(** [Scope] with [_validate_scope] *)
Definition scope_ok (s : Scope) : bool :=
  match s.(sc_provider) with Some p => identifier p | None => true end &&
  match s.(sc_account_id) with
  | Some a =>
      within_length 1 128 a && is_some s.(sc_provider) && bool_decide (a = strip a)
  | None => true
  end.

(** [ProviderRef] with [_validate_instance] *)
Definition provider_ok (p : ProviderRef) : bool :=
  identifier p.(pr_app_id) && app_version p.(pr_version) && uuid4_text p.(pr_instance_id).

Definition parameter_ok (p : parameter) : bool :=
  match p with
  | PStr t => bool_decide (length t <= 1000)%nat
  | PInt z => (-9007199254740991 <=? z) && (z <=? 9007199254740991)
  | PBool _ => true
  end.

Definition action_ok (a : ConnectInvokeAction) : bool :=
  identifier a.(act_capability).(cap_id) && capability_version a.(act_capability).(cap_version) &&
  provider_ok a.(act_provider) &&
  bool_decide (length a.(act_parameters) <= MAX_PARAMETERS)%nat &&
  forallb (fun m => identifier m.1 && parameter_ok m.2) a.(act_parameters).

(** [RuleDefinition] with [_validate_definition] *)
Definition definition_ok (d : RuleDefinition) : bool :=
  within_length 1 80 d.(rd_name) && scope_ok d.(rd_scope) &&
  bool_decide (1 <= length d.(rd_conditions) <= MAX_CONDITIONS)%nat &&
  forallb validate_operand d.(rd_conditions) && action_ok d.(rd_action) &&
  forallb uni_isprintable d.(rd_name) &&
  existsb (fun c => bool_decide (c.(cond_field) = AttachmentMediaType)) d.(rd_conditions).

(** ** Reading a decoded definition

    The members of an object as the decoder delivers them: one entry per key. *)

Fixpoint member (k : text) (m : list (text * json)) : option json :=
  match m with
  | [] => None
  | (k', v) :: m' => if decide (k' = k) then Some v else member k m'
  end.

(** [extra="forbid"] *)
Definition only (allowed : list text) (m : list (text * json)) : bool :=
  forallb (fun e => bool_decide (e.1 ∈ allowed)) m.

Definition read_str (j : json) : option text :=
  match j with JStr t => Some t | _ => None end.
Definition read_bool (j : json) : option bool :=
  match j with JBool b => Some b | _ => None end.
Definition read_obj (allowed : list text) (j : json) : option (list (text * json)) :=
  match j with JObj m => if only allowed m then Some m else None | _ => None end.
Definition read_arr (j : json) : option (list json) :=
  match j with JArr l => Some l | _ => None end.

Definition str_member (k : text) (m : list (text * json)) : option text :=
  match member k m with Some j => read_str j | None => None end.

Definition member_as {A} (read : json → option A) (k : text) (m : list (text * json))
    : option A :=
  match member k m with Some j => read j | None => None end.

(** [T | None = None] *)
Definition read_nullable (o : option json) : option (option text) :=
  match o with
  | None | Some JNull => Some None
  | Some (JStr t) => Some (Some t)
  | Some _ => None
  end.

Definition read_field (t : text) : option condition_field :=
  List.find (fun f => bool_decide (field_name f = t)) all_fields.
Definition read_op (t : text) : option condition_op :=
  List.find (fun o => bool_decide (op_name o = t)) all_ops.

Definition read_operand (j : json) : option operand :=
  match j with
  | JStr t => Some (VStr t)
  | JInt z => Some (VInt z)
  | JBool b => Some (VBool b)
  | JArr l => VList <$> mapM read_str l
  | _ => None
  end.

Definition read_parameter (j : json) : option parameter :=
  match j with
  | JStr t => Some (PStr t)
  | JInt z => Some (PInt z)
  | JBool b => Some (PBool b)
  | _ => None
  end.

Definition read_scope (j : json) : option Scope :=
  m ← read_obj [str "provider"; str "account_id"] j;
  provider ← read_nullable (member (str "provider") m);
  account_id ← read_nullable (member (str "account_id") m);
  Some (mk_scope provider account_id).

Definition read_trigger (j : json) : option unit :=
  m ← read_obj [str "source_kind"] j;
  kind ← str_member (str "source_kind") m;
  if decide (kind = str "mail.message") then Some tt else None.

Definition read_condition (j : json) : option Condition :=
  m ← read_obj [str "field"; str "op"; str "value"] j;
  f ← str_member (str "field") m ≫= read_field;
  o ← str_member (str "op") m ≫= read_op;
  v ← member_as read_operand (str "value") m;
  Some (mk_condition f o v).

Definition read_capability (j : json) : option CapabilityRef :=
  m ← read_obj [str "id"; str "version"] j;
  id ← str_member (str "id") m;
  version ← str_member (str "version") m;
  Some (mk_capability id version).

Definition read_provider (j : json) : option ProviderRef :=
  m ← read_obj [str "app_id"; str "version"; str "instance_id"] j;
  app_id ← str_member (str "app_id") m;
  version ← str_member (str "version") m;
  instance_id ← str_member (str "instance_id") m;
  Some (mk_provider app_id version instance_id).

Definition read_parameters (j : json) : option (list (text * parameter)) :=
  match j with
  | JObj m => mapM (fun e => v ← read_parameter e.2; Some (e.1, v)) m
  | _ => None
  end.

Definition read_action (j : json) : option ConnectInvokeAction :=
  m ← read_obj [str "kind"; str "capability"; str "provider"; str "parameters"] j;
  kind ← str_member (str "kind") m;
  capability ← member_as read_capability (str "capability") m;
  provider ← member_as read_provider (str "provider") m;
  parameters ← match member (str "parameters") m with
               | None => Some []
               | Some j => read_parameters j
               end;
  if decide (kind = str "connect.invoke")
  then Some (mk_action capability provider parameters) else None.

Definition read_definition (j : json) : option RuleDefinition :=
  m ← read_obj [str "name"; str "scope"; str "trigger"; str "conditions"; str "action";
                str "confirm_each"] j;
  name ← str_member (str "name") m;
  scope ← match member (str "scope") m with
          | None => Some (mk_scope None None)
          | Some j => read_scope j
          end;
  _ ← member_as read_trigger (str "trigger") m;
  conditions ← member_as read_arr (str "conditions") m ≫= mapM read_condition;
  action ← member_as read_action (str "action") m;
  confirm_each ← match member (str "confirm_each") m with
                 | None => Some false
                 | Some j => read_bool j
                 end;
  Some (mk_rule name scope conditions action confirm_each).

(** [parse_rule_definition] *)
Definition parse_rule_definition (value : json) : py RuleDefinition :=
  match value with
  | JObj _ =>
      match read_definition value with
      | Some d => if definition_ok d then Ret d else Raise (RuleValidationError "invalid")
      | None => Raise (RuleValidationError "invalid")
      end
  | _ => Raise (RuleValidationError "definition must be a JSON object")
  end.

(** [{**value, key: new}] *)
Fixpoint replace_member (k : text) (v : json) (m : list (text * json)) : list (text * json) :=
  match m with
  | [] => [(k, v)]
  | (k', v') :: m' =>
      if decide (k' = k) then (k', v) :: m' else (k', v') :: replace_member k v m'
  end.

Definition prepare_condition (j : json) : json :=
  match j with
  | JObj m =>
      match member (str "field") m, member (str "value") m with
      | Some (JStr f), Some (JStr v) =>
          if decide (f = str "subject")
          then JObj (replace_member (str "value") (JStr (uni_casefold v)) m) else j
      | _, _ => j
      end
  | _ => j
  end.

(** [prepare_rule_definition] *)
Definition prepare_rule_definition (value : json) : py RuleDefinition :=
  parse_rule_definition
    (match value with
     | JObj m =>
         match member (str "conditions") m with
         | Some (JArr conditions) =>
             JObj (replace_member (str "conditions") (JArr (prepare_condition <$> conditions)) m)
         | _ => value
         end
     | _ => value
     end).

(** [definition.model_dump(mode="json", exclude_defaults=False)] *)
Definition dump_operand (v : operand) : json :=
  match v with
  | VStr t => JStr t
  | VInt z => JInt z
  | VBool b => JBool b
  | VList l => JArr (JStr <$> l)
  end.

Definition dump_parameter (p : parameter) : json :=
  match p with PStr t => JStr t | PInt z => JInt z | PBool b => JBool b end.

Definition dump_condition (c : Condition) : json :=
  JObj [(str "field", JStr (field_name c.(cond_field))); (str "op", JStr (op_name c.(cond_op)));
        (str "value", dump_operand c.(cond_value))].

Definition dump_action (a : ConnectInvokeAction) : json :=
  JObj [(str "kind", JStr (str "connect.invoke"));
        (str "capability", JObj [(str "id", JStr a.(act_capability).(cap_id));
                                 (str "version", JStr a.(act_capability).(cap_version))]);
        (str "provider", JObj [(str "app_id", JStr a.(act_provider).(pr_app_id));
                               (str "version", JStr a.(act_provider).(pr_version));
                               (str "instance_id", JStr a.(act_provider).(pr_instance_id))]);
        (str "parameters", JObj ((fun m => (m.1, dump_parameter m.2)) <$> a.(act_parameters)))].

Definition model_dump (d : RuleDefinition) : json :=
  JObj [(str "name", JStr d.(rd_name));
        (str "scope", JObj [(str "provider", json_of_option JStr d.(rd_scope).(sc_provider));
                            (str "account_id", json_of_option JStr d.(rd_scope).(sc_account_id))]);
        (str "trigger", JObj [(str "source_kind", JStr (str "mail.message"))]);
        (str "conditions", JArr (dump_condition <$> d.(rd_conditions)));
        (str "action", dump_action d.(rd_action));
        (str "confirm_each", JBool d.(rd_confirm_each))].

(** [canonical_rule_definition] *)
Definition canonical_rule_definition (d : RuleDefinition) : py bytes :=
  match Utf8.encode (dumps true (model_dump d)) with
  | None => Raise UnicodeEncodeError
  | Some raw =>
      if decide (length raw <= MAX_RULE_DEFINITION_BYTES)%nat then Ret raw
      else Raise (RuleValidationError "canonical definition exceeds 16384 bytes")
  end.

End WithLibraries.
