(* ===== verification/RuleMatch.v ===== *)
(** * Matching rules against a message

    [fnmatch.fnmatchcase] as the library translates a glob, and
    [_message_condition], [_attachment_condition] and [match_rules] of
    [automation/rules.py]. *)

From S2P Require Export Rules.
From stdpp Require Import options.

Local Open Scope Z_scope.

(** ** Globs *)

Module Fnmatch.

Inductive token :=
| Star
| Any
| Lit (c : N)
| Never
| Class (negated : bool) (ranges : list (N * N)).

Definition star : N := 42%N.
Definition question : N := 63%N.
Definition open_bracket : N := 91%N.
Definition close_bracket : N := 93%N.
Definition bang : N := 33%N.
Definition minus : N := 45%N.

(** Text up to the first occurrence of [c], and what follows it. *)
Fixpoint cut (c : N) (t : text) : option (text * text) :=
  match t with
  | [] => None
  | x :: t' =>
      if decide (x = c) then Some ([], t')
      else match cut c t' with Some (a, b) => Some (x :: a, b) | None => None end
  end.

(** The set between brackets: an optional ['!'], a [']'] that may stand first, and
    everything to the next [']'].  [None] when no bracket closes it. *)
Definition bracket_set (t : text) : option (text * text) :=
  let '(lead, rest) := match t with
    | b :: t' => if decide (b = bang) then ([b], t') else ([], t)
    | [] => ([], [])
    end in
  let '(lead, rest) := match rest with
    | c :: rest' =>
        if decide (c = close_bracket) then ((lead ++ [c])%list, rest') else (lead, rest)
    | [] => (lead, rest)
    end in
  match cut close_bracket rest with
  | Some (body, after) => Some ((lead ++ body)%list, after)
  | None => None
  end.

(** [pat.find('-', k)] in the set, as a split: [skip] characters are passed over
    first. *)
Fixpoint find_minus (skip : nat) (t : text) : option (text * text) :=
  match t with
  | [] => None
  | c :: t' =>
      match skip with
      | S k => match find_minus k t' with Some (a, b) => Some (c :: a, b) | None => None end
      | O =>
          if decide (c = minus) then Some ([], t')
          else match find_minus O t' with Some (a, b) => Some (c :: a, b) | None => None end
      end
  end.

(** The chunks between the range hyphens; the search goes on three characters
    after the last hyphen, two after the start of the chunk.  [fuel] bounds the number of
    chunks by the length of the set. *)
Fixpoint chunks_from (fuel : nat) (skip : nat) (t : text) : list text :=
  match fuel with
  | O => [t]
  | S fuel' =>
      match find_minus skip t with
      | Some (chunk, rest) => chunk :: chunks_from fuel' 2 rest
      | None => [t]
      end
  end.

(** An empty last chunk becomes a literal hyphen of the one before. *)
Fixpoint close_chunks (chunks : list text) : list text :=
  match chunks with
  | [] => []
  | [chunk; []] => [(chunk ++ [minus])%list]
  | chunk :: rest => chunk :: close_chunks rest
  end.

(** Empty ranges are dropped from the right, with their end points. *)
Fixpoint drop_empty_ranges (chunks : list text) : list text :=
  match chunks with
  | [] => []
  | chunk :: rest =>
      match drop_empty_ranges rest with
      | next :: rest' =>
          match list.last chunk, next with
          | Some a, b :: next' =>
              if (b <? a)%N then (removelast chunk ++ next')%list :: rest'
              else chunk :: next :: rest'
          | _, _ => chunk :: next :: rest'
          end
      | [] => [chunk]
      end
  end.

Definition set_chunks (stuff : text) : list text :=
  if bool_decide (minus ∈ stuff) then
    let skip := match stuff with c :: _ => if decide (c = bang) then 2%nat else 1%nat | [] => 1%nat end in
    drop_empty_ranges (close_chunks (chunks_from (length stuff) skip stuff))
  else [stuff].

Definition single (c : N) : N * N := (c, c).

(** The character ranges of the joined chunks: the hyphen between two chunks spans
    from the last character of one to the first of the next, which is then used up
    ([used]); with nothing left before it, it is a literal hyphen. *)
Fixpoint set_ranges (used : bool) (chunks : list text) : list (N * N) :=
  match chunks with
  | [] => []
  | chunk :: rest =>
      let body := if used then tail chunk else chunk in
      match rest with
      | [] => single <$> body
      | next :: _ =>
          match list.last body, next with
          | Some lo, hi :: _ =>
              ((single <$> removelast body) ++ (lo, hi) :: set_ranges true rest)%list
          | _, _ => ((single <$> body) ++ single minus :: set_ranges false rest)%list
          end
      end
  end.

Definition set_token (stuff : text) : token :=
  match set_chunks stuff with
  | [[]] | [] => Never
  | (c :: first) :: rest =>
      if decide (c = bang) then
        match first, rest with
        | [], [] => Any
        | _, _ => Class true (set_ranges false (first :: rest))
        end
      else Class false (set_ranges false ((c :: first) :: rest))
  | [] :: rest => Class false (set_ranges false ([] :: rest))
  end.

(** [fnmatch.translate], as tokens; every step consumes a character, so the length
    of the pattern is enough fuel. *)
Fixpoint translate_from (fuel : nat) (pat : text) : list token :=
  match fuel, pat with
  | S fuel', c :: pat' =>
      if decide (c = star) then Star :: translate_from fuel' pat'
      else if decide (c = question) then Any :: translate_from fuel' pat'
      else if decide (c = open_bracket) then
        match bracket_set pat' with
        | Some (stuff, after) => set_token stuff :: translate_from fuel' after
        | None => Lit c :: translate_from fuel' pat'
        end
      else Lit c :: translate_from fuel' pat'
  | _, _ => []
  end.

Definition translate (pat : text) : list token := translate_from (length pat) pat.

Definition in_ranges (c : N) (ranges : list (N * N)) : bool :=
  existsb (fun r => (r.1 <=? c)%N && (c <=? r.2)%N) ranges.

Definition token_accepts (k : token) (c : N) : bool :=
  match k with
  | Star | Never => false
  | Any => true
  | Lit d => bool_decide (d = c)
  | Class negated ranges => xorb negated (in_ranges c ranges)
  end.

Fixpoint accepts (tokens : list token) : text → bool :=
  match tokens with
  | [] => fun name => negb (truthy name)
  | Star :: tokens' =>
      fix star_accepts name :=
        accepts tokens' name ||
        match name with [] => false | _ :: name' => star_accepts name' end
  | k :: tokens' =>
      fun name =>
        match name with
        | [] => false
        | c :: name' => token_accepts k c && accepts tokens' name'
        end
  end.

Definition fnmatchcase (name pat : text) : bool := accepts (translate pat) name.

Example glob_suffix : fnmatchcase (str "invoice-7.pdf") (str "*.pdf") = true.
Proof. reflexivity. Qed.

Example glob_class : fnmatchcase (str "scan3b") (str "scan[0-9][!x-z]") = true.
Proof. reflexivity. Qed.

Example glob_unclosed : fnmatchcase (str "a[b") (str "a[b") = true.
Proof. reflexivity. Qed.

Example glob_empty_range : fnmatchcase (str "q") (str "[z-a]") = false.
Proof. reflexivity. Qed.

End Fnmatch.

(** ** Conditions *)

(** [mime.py: AttachmentDescriptor] *)
Record AttachmentDescriptor := mk_attachment {
  att_part_id : text;
  att_attachment_id : option text;
  att_filename : text;
  att_media_type : text;
  att_byte_size : Z;
  att_position : Z;
  att_byte_size_known : bool;
  att_source_provider_message_id : option text }.

Record MatchRule := mk_match_rule {
  mr_rule_id : text;
  mr_version : Z;
  mr_scope_mailbox_identity_key : option text;
  mr_definition : RuleDefinition }.

Record MatchedFire := mk_fire {
  mf_rule_id : text;
  mf_rule_version : Z;
  mf_part_id : text;
  mf_action : ConnectInvokeAction;
  mf_confirm_each : bool }.

(** The message as the conditions see it; [result] is the classification. *)
Record message_view := mk_message {
  mv_provider : text;
  mv_account_id : text;
  mv_mailbox_identity_key : text;
  mv_sender : text;
  mv_sender_name : option text;
  mv_subject : text;
  mv_result : gmap text operand }.

(** Python's [==]: booleans are integers. *)
Definition operand_eq (a b : operand) : bool :=
  match a, b with
  | VBool x, VInt z | VInt z, VBool x => z =? Z.b2z x
  | _, _ => bool_decide (a = b)
  end.

(** [candidate in value] *)
Definition operand_in (candidate value : operand) : py bool :=
  match value, candidate with
  | VList l, VStr t => Ret (bool_decide (t ∈ l))
  | VList l, _ => Ret false
  | VStr v, VStr t => Ret (contains v t)
  | _, _ => Raise (TypeError "argument is not iterable")
  end.

Definition operand_text (v : operand) : py text :=
  match v with VStr t => Ret t | _ => Raise (TypeError "str expected") end.

Definition operand_int (v : operand) : py Z :=
  match v with
  | VInt z => Ret z
  | VBool b => Ret (Z.b2z b)
  | _ => Raise (TypeError "unorderable types")
  end.

Section WithUnicode.
Context `{Unicode}.

(** [_message_condition] *)
Definition message_condition (m : message_view) (attachment_count : Z) (c : Condition) : py bool :=
  let value := c.(cond_value) in
  match c.(cond_field) with
  | Sender =>
      if decide (c.(cond_op) = OpEquals) then Ret (operand_eq (VStr m.(mv_sender)) value)
      else Ret (operand_eq (VStr (uni_casefold (rsplit_last at_sign m.(mv_sender)))) value)
  | SenderName =>
      let candidate := uni_casefold (default [] m.(mv_sender_name)) in
      if decide (c.(cond_op) = OpEquals) then Ret (operand_eq (VStr candidate) value)
      else v ← operand_text value; Ret (contains candidate v)
  | Subject =>
      let candidate := uni_casefold m.(mv_subject) in
      v ← operand_text value;
      Ret (if decide (c.(cond_op) = OpStartsWith) then starts_with candidate v
           else contains candidate v)
  | Category | Priority | ActionRequired =>
      candidate ← require_some (m.(mv_result) !! field_name c.(cond_field))
                    (KeyError (field_name c.(cond_field)));
      if decide (c.(cond_op) = OpIn) then operand_in candidate value
      else Ret (operand_eq candidate value)
  | AttachmentCount =>
      v ← operand_int value;
      Ret (if decide (c.(cond_op) = OpGte) then v <=? attachment_count else attachment_count <=? v)
  | _ => Raise (AssertionError "not a message condition")
  end.

(** [filename.replace("\\", "/").rsplit("/", 1)[-1].casefold()] *)
Definition final_name (filename : text) : text :=
  uni_casefold (rsplit_last 47%N ((fun c => if decide (c = 92%N) then 47%N else c) <$> filename)).

(** [_attachment_condition] *)
Definition attachment_condition (a : AttachmentDescriptor) (c : Condition) : py bool :=
  match c.(cond_field) with
  | AttachmentMediaType => Ret (operand_eq (VStr a.(att_media_type)) c.(cond_value))
  | AttachmentFilename =>
      v ← operand_text c.(cond_value);
      Ret (Fnmatch.fnmatchcase (final_name a.(att_filename)) v)
  | AttachmentByteSize =>
      if a.(att_byte_size_known) then
        v ← operand_int c.(cond_value); Ret (a.(att_byte_size) <=? v)
      else Ret false
  | _ => Raise (AssertionError "not an attachment condition")
  end.

(** [all(f(x) for x in l)] *)
Fixpoint all_py {A} (f : A → py bool) (l : list A) : py bool :=
  match l with
  | [] => Ret true
  | x :: l' => f x ≫= fun b : bool => if b then all_py f l' else Ret false
  end.

(** ** [match_rules] *)

(** [sorted(attachments, key=lambda item: (item.position, item.part_id))] *)
Definition attachment_leb (a b : AttachmentDescriptor) : bool :=
  (a.(att_position) <? b.(att_position)) ||
  ((a.(att_position) =? b.(att_position)) && negb (text_ltb b.(att_part_id) a.(att_part_id))).

Fixpoint insert_attachment (a : AttachmentDescriptor) (l : list AttachmentDescriptor)
    : list AttachmentDescriptor :=
  match l with
  | [] => [a]
  | b :: l' => if attachment_leb a b then a :: l else b :: insert_attachment a l'
  end.

Definition sort_attachments (l : list AttachmentDescriptor) : list AttachmentDescriptor :=
  foldr insert_attachment [] l.

Definition fire (rule : MatchRule) (a : AttachmentDescriptor) : MatchedFire :=
  mk_fire rule.(mr_rule_id) rule.(mr_version) a.(att_part_id)
    rule.(mr_definition).(rd_action) rule.(mr_definition).(rd_confirm_each).

Definition scope_matches (m : message_view) (rule : MatchRule) : bool :=
  let scope := rule.(mr_definition).(rd_scope) in
  match scope.(sc_provider) with
  | Some p => bool_decide (p = m.(mv_provider)) | None => true end &&
  match scope.(sc_account_id) with
  | Some a => bool_decide (a = m.(mv_account_id)) &&
              bool_decide (rule.(mr_scope_mailbox_identity_key) = Some m.(mv_mailbox_identity_key))
  | None => true
  end.

Definition message_conditions (d : RuleDefinition) : list Condition :=
  List.filter (fun c => negb (is_attachment_field c.(cond_field))) d.(rd_conditions).

Definition attachment_conditions (d : RuleDefinition) : list Condition :=
  List.filter (fun c => is_attachment_field c.(cond_field)) d.(rd_conditions).

(** The inner loop: the attachments of one rule. *)
Fixpoint match_attachments (rule : MatchRule) (l : list AttachmentDescriptor)
    (matched : list MatchedFire) : py (list MatchedFire) :=
  match l with
  | [] => Ret matched
  | a :: l' =>
      ok ← all_py (attachment_condition a) (attachment_conditions rule.(mr_definition));
      if negb ok then match_attachments rule l' matched
      else if decide (MAX_AUTOMATION_FIRES_PER_MESSAGE <= length matched)%nat
      then Raise (AutomationFanoutLimit "automation fire limit exceeded")
      else match_attachments rule l' (matched ++ [fire rule a])
  end.

(** The outer loop. *)
Fixpoint match_each (m : message_view) (ordered : list AttachmentDescriptor)
    (rules : list MatchRule) (matched : list MatchedFire) : py (list MatchedFire) :=
  match rules with
  | [] => Ret matched
  | rule :: rules' =>
      if negb (scope_matches m rule) then match_each m ordered rules' matched
      else
        ok ← all_py (message_condition m (Z.of_nat (length ordered)))
               (message_conditions rule.(mr_definition));
        if negb ok then match_each m ordered rules' matched
        else
          matched' ← match_attachments rule ordered matched;
          match_each m ordered rules' matched'
  end.

Definition match_rules (rules : list MatchRule) (m : message_view)
    (attachments : list AttachmentDescriptor) : py (list MatchedFire) :=
  if decide (MAX_AUTOMATION_ATTACHMENTS < length attachments)%nat
  then Raise (AutomationFanoutLimit "automation attachment limit exceeded")
  else match_each m (sort_attachments attachments) rules [].

End WithUnicode.
