(* ===== verification/RuleTheorems.v ===== *)
(** * What rule matching guarantees

    A declarative reading of a rule ([satisfies], [rule_fires]) and the theorems
    that [match_rules] computes it: on valid rules it never fails but for the
    fan-out bounds, its fires are exactly those of the declarative reading, and
    they do not depend on the order in which the attachments arrive.  The
    definition reader is the inverse of the canonical dump. *)

From S2P Require Export RuleMatch JsonFacts.
From stdpp Require Import options.

Local Open Scope Z_scope.

(** ** Substrings and globs *)

Lemma starts_with_spec value prefix :
  starts_with value prefix = true ↔ ∃ rest, value = prefix ++ rest.
Proof.
  revert prefix. induction value as [|v value IH]; intros [|p prefix]; simpl.
  - naive_solver.
  - split; [done|]. by intros [? [=]].
  - naive_solver.
  - rewrite andb_true_iff, bool_decide_eq_true, IH. naive_solver.
Qed.

Lemma contains_spec value needle :
  contains value needle = true ↔ ∃ before after, value = before ++ needle ++ after.
Proof.
  induction value as [|v value IH]; cbn [contains]; rewrite orb_true_iff, starts_with_spec.
  - split; [intros [[rest Hr]|[=]]; by exists [], rest|].
    intros (before & after & Hv). destruct before; [left; eauto|done].
  - rewrite IH. split.
    + intros [[rest Hr]|(before & after & ->)]; [by exists [], rest|by exists (v :: before), after].
    + intros ([|x before] & after & Hv); simplify_eq/=; [left; eauto|right; eauto].
Qed.

(** A name matches a glob token by token; a star stands for any text. *)
Inductive glob_match : list Fnmatch.token → text → Prop :=
| glob_nil : glob_match [] []
| glob_star k any rest :
    glob_match k rest → glob_match (Fnmatch.Star :: k) (any ++ rest)
| glob_char t k c rest :
    Fnmatch.token_accepts t c = true → glob_match k rest → glob_match (t :: k) (c :: rest).

Lemma accepts_star k name :
  Fnmatch.accepts (Fnmatch.Star :: k) name = true ↔
  ∃ any rest, name = any ++ rest ∧ Fnmatch.accepts k rest = true.
Proof.
  change (Fnmatch.accepts (Fnmatch.Star :: k)) with
    (fix star_accepts name := Fnmatch.accepts k name ||
       match name with [] => false | _ :: name' => star_accepts name' end).
  induction name as [|c name IH]; rewrite orb_true_iff.
  - split; [intros [?|[=]]; by exists [], []|].
    intros ([|? ?] & rest & Heq & ?); simplify_eq/=. by left.
  - rewrite IH. split.
    + intros [?|(any & rest & -> & ?)]; [by exists [], (c :: name)|by exists (c :: any), rest].
    + intros ([|x any] & rest & Heq & ?); simplify_eq/=; [by left|right; eauto].
Qed.

Lemma accepts_spec tokens name : Fnmatch.accepts tokens name = true ↔ glob_match tokens name.
Proof.
  revert name. induction tokens as [|t k IH]; intros name.
  - simpl. unfold truthy. rewrite negb_true_iff, bool_decide_eq_false. split.
    + intros H. destruct name; [constructor|by destruct H].
    + inversion 1. naive_solver.
  - assert (t = Fnmatch.Star ∨ t ≠ Fnmatch.Star) as [->|Hne] by (destruct t; auto).
    + rewrite accepts_star. split.
      * intros (any & rest & -> & H%IH). by constructor.
      * inversion 1; subst; [|done]. eexists _, _. split; [done|]. by apply IH.
    + destruct name as [|c name]; [split; [by destruct t|by inversion 1]|].
      transitivity (Fnmatch.token_accepts t c && Fnmatch.accepts k name = true); [by destruct t|].
      rewrite andb_true_iff, IH. split; [intros []; by constructor|].
      inversion 1; subst; done.
Qed.

(** ** The declarative reading *)

(** The classification carries the three members the conditions read. *)
Definition classified (m : message_view) : Prop :=
  ∃ category priority action_required,
    m.(mv_result) !! str "category" = Some (VStr category) ∧
    m.(mv_result) !! str "priority" = Some (VStr priority) ∧
    m.(mv_result) !! str "action_required" = Some (VBool action_required).

Section WithLibraries.
Context `{Unicode} `{AddressLib}.

Definition satisfies_message (m : message_view) (count : Z) (c : Condition) : Prop :=
  match c.(cond_field), c.(cond_op), c.(cond_value) with
  | Sender, OpEquals, VStr v => m.(mv_sender) = v
  | Sender, OpDomainEquals, VStr v => uni_casefold (rsplit_last at_sign m.(mv_sender)) = v
  | SenderName, OpEquals, VStr v => uni_casefold (default [] m.(mv_sender_name)) = v
  | SenderName, OpContains, VStr v =>
      ∃ before after, uni_casefold (default [] m.(mv_sender_name)) = before ++ v ++ after
  | Subject, OpContains, VStr v =>
      ∃ before after, uni_casefold m.(mv_subject) = before ++ v ++ after
  | Subject, OpStartsWith, VStr v => ∃ after, uni_casefold m.(mv_subject) = v ++ after
  | Category, OpEquals, VStr v => m.(mv_result) !! str "category" = Some (VStr v)
  | Priority, OpEquals, VStr v => m.(mv_result) !! str "priority" = Some (VStr v)
  | Category, OpIn, VList l => ∃ v, v ∈ l ∧ m.(mv_result) !! str "category" = Some (VStr v)
  | Priority, OpIn, VList l => ∃ v, v ∈ l ∧ m.(mv_result) !! str "priority" = Some (VStr v)
  | ActionRequired, OpEquals, VBool b => m.(mv_result) !! str "action_required" = Some (VBool b)
  | AttachmentCount, OpGte, VInt z => z <= count
  | AttachmentCount, OpLte, VInt z => count <= z
  | _, _, _ => False
  end.

Definition satisfies_attachment (a : AttachmentDescriptor) (c : Condition) : Prop :=
  match c.(cond_field), c.(cond_value) with
  | AttachmentMediaType, VStr v => a.(att_media_type) = v
  | AttachmentFilename, VStr v => glob_match (Fnmatch.translate v) (final_name a.(att_filename))
  | AttachmentByteSize, VInt z => a.(att_byte_size_known) = true ∧ a.(att_byte_size) <= z
  | _, _ => False
  end.

Definition satisfies (m : message_view) (count : Z) (a : AttachmentDescriptor) (c : Condition)
    : Prop :=
  if is_attachment_field c.(cond_field) then satisfies_attachment a c
  else satisfies_message m count c.

(** The rule's scope admits the mailbox. *)
Definition in_scope (m : message_view) (rule : MatchRule) : Prop :=
  (∀ p, rule.(mr_definition).(rd_scope).(sc_provider) = Some p → p = m.(mv_provider)) ∧
  (∀ a, rule.(mr_definition).(rd_scope).(sc_account_id) = Some a →
     a = m.(mv_account_id) ∧
     rule.(mr_scope_mailbox_identity_key) = Some m.(mv_mailbox_identity_key)).

Definition rule_fires (m : message_view) (count : Z) (rule : MatchRule)
    (a : AttachmentDescriptor) : Prop :=
  in_scope m rule ∧ ∀ c, c ∈ rule.(mr_definition).(rd_conditions) → satisfies m count a c.

(** ** The evaluators compute it *)

Definition decides (m : py bool) (P : Prop) : Prop := ∃ b, m = Ret b ∧ (b = true ↔ P).

Lemma decides_ret b P : (b = true ↔ P) → decides (Ret b) P.
Proof. intros. by exists b. Qed.

Lemma operand_eq_str t v : operand_eq (VStr t) (VStr v) = true ↔ t = v.
Proof. simpl. rewrite bool_decide_eq_true. naive_solver. Qed.

Lemma message_condition_spec m count c :
  classified m → validate_operand c = true → is_attachment_field c.(cond_field) = false →
  decides (message_condition m count c) (satisfies_message m count c).
Proof.
  intros (cat & pri & act & Hcat & Hpri & Hact). destruct c as [f o v].
  unfold validate_operand, message_condition, satisfies_message, field_name.
  intros Hv Hf. cbn [cond_field cond_op cond_value] in *.
  apply andb_prop in Hv as [Ho Hv]. apply bool_decide_eq_true_1 in Ho.
  destruct f; try discriminate Hf; set_unfold in Ho; destruct_or?; subst o; simpl in Hv;
    destruct v; try discriminate Hv; cbn [cond_field cond_op cond_value];
    rewrite ?Hcat, ?Hpri, ?Hact; simpl; apply decides_ret;
    rewrite ?contains_spec, ?starts_with_spec, ?bool_decide_eq_true, ?Z.leb_le; naive_solver.
Qed.

Lemma attachment_condition_spec a c :
  validate_operand c = true → is_attachment_field c.(cond_field) = true →
  decides (attachment_condition a c) (satisfies_attachment a c).
Proof.
  destruct c as [f o v]. unfold validate_operand, attachment_condition, satisfies_attachment.
  intros Hv Hf. cbn [cond_field cond_op cond_value] in *. apply andb_prop in Hv as [_ Hv].
  destruct f; try discriminate Hf; destruct v; try discriminate Hv; simpl.
  - apply decides_ret. rewrite bool_decide_eq_true. naive_solver.
  - apply decides_ret, accepts_spec.
  - destruct (att_byte_size_known a); apply decides_ret; [rewrite Z.leb_le|]; naive_solver.
Qed.

Lemma all_py_spec {A} (f : A → py bool) (P : A → Prop) l :
  (∀ x, x ∈ l → decides (f x) (P x)) → decides (all_py f l) (∀ x, x ∈ l → P x).
Proof.
  induction l as [|x l IH]; intros Hl; simpl.
  { apply decides_ret. split; [intros _ y Hy; by apply elem_of_nil in Hy|done]. }
  destruct (Hl x) as (b & -> & Hb); [by left|]. simpl. destruct b.
  - destruct IH as (b & -> & Hb'); [intros y Hy; apply Hl; by right|].
    exists b. split; [done|]. rewrite Hb'. setoid_rewrite elem_of_cons. naive_solver.
  - apply decides_ret. split; [done|]. intros Hall. apply Hb, Hall. by left.
Qed.

Lemma scope_matches_spec m rule : scope_matches m rule = true ↔ in_scope m rule.
Proof.
  unfold scope_matches, in_scope. cbv zeta.
  destruct (sc_provider _), (sc_account_id _);
    rewrite ?andb_true_iff, ?bool_decide_eq_true; naive_solver.
Qed.

Definition holds (m : py bool) : bool := match m with Ret b => b | Raise _ => false end.

Lemma decides_holds m P : decides m P → m = Ret (holds m) ∧ (holds m = true ↔ P).
Proof. by intros (b & -> & ?). Qed.

(** The attachments of one rule, and the fires of one rule. *)
Definition hit (rule : MatchRule) (a : AttachmentDescriptor) : bool :=
  holds (all_py (attachment_condition a) (attachment_conditions rule.(mr_definition))).

Definition selected (m : message_view) (ordered : list AttachmentDescriptor) (rule : MatchRule)
    : list MatchedFire :=
  if scope_matches m rule &&
     holds (all_py (message_condition m (Z.of_nat (length ordered)))
              (message_conditions rule.(mr_definition)))
  then fire rule <$> List.filter (hit rule) ordered else [].

Definition bounded (fires : list MatchedFire) : py (list MatchedFire) :=
  if decide (length fires <= MAX_AUTOMATION_FIRES_PER_MESSAGE)%nat then Ret fires
  else Raise (AutomationFanoutLimit "automation fire limit exceeded").

Definition valid_rule (rule : MatchRule) : Prop := definition_ok rule.(mr_definition) = true.

Lemma valid_conditions rule c :
  valid_rule rule → c ∈ rule.(mr_definition).(rd_conditions) → validate_operand c = true.
Proof.
  unfold valid_rule, definition_ok. intros Hv Hc. bools.
  match goal with H : forallb validate_operand _ = true |- _ =>
    rewrite forallb_elem in H; by apply H end.
Qed.

Lemma elem_of_filter_b {A} (f : A → bool) l x : x ∈ List.filter f l ↔ x ∈ l ∧ f x = true.
Proof. rewrite !list_elem_of_In. apply filter_In. Qed.

Lemma hit_spec rule a : valid_rule rule →
  decides (all_py (attachment_condition a) (attachment_conditions rule.(mr_definition)))
    (∀ c, c ∈ rule.(mr_definition).(rd_conditions) → is_attachment_field c.(cond_field) = true →
       satisfies_attachment a c).
Proof.
  intros Hv. destruct (all_py_spec (attachment_condition a) (satisfies_attachment a)
    (attachment_conditions rule.(mr_definition))) as (b & Hb & Hiff).
  - intros c [Hc Hf]%elem_of_filter_b. apply attachment_condition_spec; [|done].
    by eapply valid_conditions.
  - exists b. split; [done|]. rewrite Hiff. setoid_rewrite elem_of_filter_b. naive_solver.
Qed.

Lemma message_hit_spec m count rule : classified m → valid_rule rule →
  decides (all_py (message_condition m count) (message_conditions rule.(mr_definition)))
    (∀ c, c ∈ rule.(mr_definition).(rd_conditions) → is_attachment_field c.(cond_field) = false →
       satisfies_message m count c).
Proof.
  intros Hm Hv. destruct (all_py_spec (message_condition m count) (satisfies_message m count)
    (message_conditions rule.(mr_definition))) as (b & Hb & Hiff).
  - intros c [Hc Hf%negb_true_iff]%elem_of_filter_b. apply message_condition_spec; [done| |done].
    by eapply valid_conditions.
  - exists b. split; [done|]. rewrite Hiff. setoid_rewrite elem_of_filter_b.
    setoid_rewrite negb_true_iff. naive_solver.
Qed.

Lemma match_attachments_spec rule l matched :
  valid_rule rule → (length matched <= MAX_AUTOMATION_FIRES_PER_MESSAGE)%nat →
  match_attachments rule l matched = bounded (matched ++ (fire rule <$> List.filter (hit rule) l)).
Proof.
  intros Hv. revert matched. induction l as [|a l IH]; intros matched Hlen; simpl.
  { unfold bounded. rewrite app_nil_r. by rewrite decide_True. }
  destruct (decides_holds _ _ (hit_spec rule a Hv)) as [-> _]. fold (hit rule a). simpl.
  destruct (hit rule a); simpl; [|by apply IH]. case_decide as Hfull.
  - unfold bounded. rewrite decide_False; [done|]. rewrite length_app. simpl. lia.
  - rewrite IH by (rewrite length_app; simpl; lia). by rewrite <- app_assoc.
Qed.

Lemma match_each_spec m ordered rules matched :
  classified m → Forall valid_rule rules →
  (length matched <= MAX_AUTOMATION_FIRES_PER_MESSAGE)%nat →
  match_each m ordered rules matched = bounded (matched ++ flat_map (selected m ordered) rules).
Proof.
  intros Hm Hv. revert matched. induction Hv as [|rule rules Hr _ IH]; intros matched Hlen; simpl.
  { unfold bounded. rewrite app_nil_r. by rewrite decide_True. }
  unfold selected at 1. destruct (scope_matches m rule); simpl; [|by apply IH].
  destruct (decides_holds _ _ (message_hit_spec m (Z.of_nat (length ordered)) rule Hm Hr))
    as [-> _]. simpl. destruct (holds _); simpl; [|by apply IH].
  rewrite match_attachments_spec by done. unfold bounded at 1. case_decide as Hb; simpl.
  - rewrite IH by done. by rewrite app_assoc.
  - unfold bounded. rewrite decide_False; [done|]. rewrite app_assoc, length_app. lia.
Qed.

Lemma insert_attachment_perm a l : insert_attachment a l ≡ₚ a :: l.
Proof.
  induction l as [|b l IH]; simpl; [done|]. case_match; [done|]. rewrite IH. apply Permutation_swap.
Qed.

Lemma sort_attachments_perm l : sort_attachments l ≡ₚ l.
Proof. induction l as [|a l IH]; simpl; [done|]. by rewrite insert_attachment_perm, IH. Qed.

(** One rule's fires, as a filter by the declarative reading. *)
Lemma selected_chosen m ordered rule : classified m → valid_rule rule →
  ∃ chosen : AttachmentDescriptor → bool,
    (∀ a, chosen a = true ↔ rule_fires m (Z.of_nat (length ordered)) rule a) ∧
    selected m ordered rule = fire rule <$> List.filter chosen ordered.
Proof.
  intros Hm Hv. set (count := Z.of_nat (length ordered)).
  set (msg := holds (all_py (message_condition m count) (message_conditions (mr_definition rule)))).
  exists (λ a, scope_matches m rule && msg && hit rule a). split.
  - intros a. rewrite !andb_true_iff, scope_matches_spec.
    unfold msg, hit. rewrite (proj2 (decides_holds _ _ (message_hit_spec m count rule Hm Hv))).
    rewrite (proj2 (decides_holds _ _ (hit_spec rule a Hv))).
    unfold rule_fires, satisfies. split.
    + intros [[Hs Hmsg] Hatt]. split; [done|]. intros c Hc.
      destruct (is_attachment_field (cond_field c)) eqn:E; auto.
    + intros [Hs Hc]. split_and!; [done| |];
        intros c Hin E; specialize (Hc c Hin); by rewrite E in Hc.
  - unfold selected. fold count msg. destruct (scope_matches m rule && msg); simpl; [done|].
    clear. by induction ordered.
Qed.

(** ** The order of the attachments *)

Lemma attachment_leb_total a b : attachment_leb a b = false → attachment_leb b a = true.
Proof.
  unfold attachment_leb. intros H1. bools.
  destruct (Z.ltb_spec (att_position b) (att_position a)); simpl; [done|].
  assert (att_position b = att_position a) as Heq by lia. rewrite Heq, Z.eqb_refl in *. simpl in *.
  bools. apply negb_true_iff, text_ltb_asym. done.
Qed.

Lemma attachment_leb_trans a b c :
  attachment_leb a b = true → attachment_leb b c = true → attachment_leb a c = true.
Proof.
  unfold attachment_leb. rewrite !orb_true_iff, !andb_true_iff, !Z.ltb_lt, !Z.eqb_eq, !negb_true_iff.
  intros [?|[? ?]] [?|[? ?]]; [left; lia|left; lia|left; lia|right]. split; [lia|].
  by eapply text_leb_trans.
Qed.

Definition attachment_key (a : AttachmentDescriptor) : Z * text :=
  (a.(att_position), a.(att_part_id)).

Lemma attachment_leb_antisym a b :
  attachment_leb a b = true → attachment_leb b a = true → attachment_key a = attachment_key b.
Proof.
  unfold attachment_leb, attachment_key.
  rewrite !orb_true_iff, !andb_true_iff, !Z.ltb_lt, !Z.eqb_eq, !negb_true_iff.
  intros [?|[? ?]] [?|[? ?]]; [lia..|]. f_equal; [done|]. by apply text_ltb_antisym.
Qed.

Lemma insert_attachment_sorted a l :
  StronglySorted attachment_leb l → StronglySorted attachment_leb (insert_attachment a l).
Proof.
  induction 1 as [|b l Hs IH Hb]; simpl; [by repeat constructor|].
  destruct (attachment_leb a b) eqn:E.
  - constructor; [by constructor|]. constructor; [by apply Is_true_true|].
    eapply list.Forall_impl; [exact Hb|]. intros c Hc. apply Is_true_true.
    eapply attachment_leb_trans; [done|]. by apply Is_true_true.
  - constructor; [done|]. rewrite insert_attachment_perm. constructor; [|done].
    apply Is_true_true. by apply attachment_leb_total.
Qed.

Lemma sort_attachments_sorted l : StronglySorted attachment_leb (sort_attachments l).
Proof. induction l; simpl; [constructor|]. by apply insert_attachment_sorted. Qed.

Lemma nodup_key_inj l a b :
  NoDup (attachment_key <$> l) → a ∈ l → b ∈ l → attachment_key a = attachment_key b → a = b.
Proof.
  induction l as [|x l IH]; simpl; [by intros _ ?%elem_of_nil|].
  rewrite list.NoDup_cons. intros [Hx Hl]. rewrite !elem_of_cons.
  intros [->|Ha] [->|Hb] Hk; [done| | |by apply IH].
  - destruct Hx. rewrite Hk. by apply list_elem_of_fmap_2.
  - destruct Hx. rewrite <- Hk. by apply list_elem_of_fmap_2.
Qed.

Lemma sort_attachments_unique l l' :
  l ≡ₚ l' → NoDup (attachment_key <$> l) → sort_attachments l = sort_attachments l'.
Proof.
  intros Hp Hn. apply (StronglySorted_unique_strong attachment_leb);
    [|apply sort_attachments_sorted..|by rewrite !sort_attachments_perm].
  intros a b Ha Hb Hab Hba. rewrite sort_attachments_perm in Ha, Hb. rewrite <- Hp in Hb.
  apply (nodup_key_inj l); [done..|].
  apply attachment_leb_antisym; by apply Is_true_true.
Qed.

End WithLibraries.

(** ** Reading back a dump *)

Lemma mapM_map {A B C} (f : A → B) (g : B → option C) (h : A → C) l :
  (∀ x, g (f x) = Some (h x)) → mapM g (f <$> l) = Some (h <$> l).
Proof. intros Hgf. apply mapM_Some_2, Forall2_fmap_l, Forall2_fmap_r, Forall_Forall2_diag.
  by apply Forall_true.
Qed.

Lemma read_operand_dump v : read_operand (dump_operand v) = Some v.
Proof.
  destruct v as [t|z|b|l]; try done. simpl. rewrite (mapM_map _ _ id) by done.
  simpl. by rewrite list_fmap_id.
Qed.

Lemma read_condition_dump c : read_condition (dump_condition c) = Some c.
Proof.
  destruct c as [f o v].
  transitivity (v ← read_operand (dump_operand v); Some (mk_condition f o v)).
  - destruct f, o; reflexivity.
  - by rewrite read_operand_dump.
Qed.

Lemma read_parameters_dump l :
  read_parameters (JObj ((fun m => (m.1, dump_parameter m.2)) <$> l)) = Some l.
Proof.
  simpl. rewrite (mapM_map _ _ id); [by rewrite list_fmap_id|].
  intros [k [t|z|b]]; done.
Qed.

Lemma read_action_dump a : read_action (dump_action a) = Some a.
Proof.
  destruct a as [[cid cver] [app ver inst] l].
  transitivity (p ← read_parameters (JObj ((fun m => (m.1, dump_parameter m.2)) <$> l));
                Some (mk_action (mk_capability cid cver) (mk_provider app ver inst) p)).
  - reflexivity.
  - by rewrite read_parameters_dump.
Qed.

Lemma read_definition_dump d : read_definition (model_dump d) = Some d.
Proof.
  destruct d as [name [p acc] conditions action ce].
  transitivity (cs ← mapM read_condition (dump_condition <$> conditions);
                a ← read_action (dump_action action);
                Some (mk_rule name (mk_scope p acc) cs a ce)).
  - destruct p, acc; reflexivity.
  - rewrite (mapM_map _ _ id) by apply read_condition_dump.
    rewrite list_fmap_id, read_action_dump. done.
Qed.

Section Properties.
Context `{Unicode} `{AddressLib}.

(** Preparation folds the subject operands only, so a valid condition is left as
    it is. *)
Lemma prepare_condition_dump c :
  validate_operand c = true → prepare_condition (dump_condition c) = dump_condition c.
Proof.
  destruct c as [f o v]. intros Hv.
  transitivity (match f, v with
    | Subject, VStr t => dump_condition (mk_condition f o (VStr (uni_casefold t)))
    | _, _ => dump_condition (mk_condition f o v) end).
  - destruct f, v; reflexivity.
  - destruct f, v as [t| | |]; try done. unfold validate_operand in Hv. simpl in Hv. bools.
    by match goal with H : t = uni_casefold t |- _ => rewrite <- H end.
Qed.

(** Reading inverts dumping: the canonical dump of a rule definition is accepted
    exactly when the definition is valid and is read back as that definition, by the
    strict reader and, subjects being folded already, by the preparing one too. *)
Theorem rule_dump_roundtrip d :
  parse_rule_definition (model_dump d) =
    (if definition_ok d then Ret d else Raise (RuleValidationError "invalid")) ∧
  (definition_ok d = true → prepare_rule_definition (model_dump d) = Ret d).
Proof.
  assert (parse_rule_definition (model_dump d) =
    (if definition_ok d then Ret d else Raise (RuleValidationError "invalid"))) as Hp.
  { unfold parse_rule_definition. rewrite read_definition_dump. done. }
  split; [done|]. intros Hok. rewrite Hok in Hp. rewrite <- Hp.
  unfold prepare_rule_definition. f_equal.
  transitivity (JObj (replace_member (str "conditions")
    (JArr (prepare_condition <$> (dump_condition <$> rd_conditions d)))
    (match model_dump d with JObj m => m | _ => [] end))); [reflexivity|].
  replace (prepare_condition <$> (dump_condition <$> rd_conditions d))
    with (dump_condition <$> rd_conditions d); [reflexivity|].
  rewrite <- list_fmap_compose. apply list_fmap_ext. intros i c Hi. symmetry.
  apply prepare_condition_dump. apply (valid_conditions (mk_match_rule [] 0 None d)); [done|].
  by eapply list_elem_of_lookup_2.
Qed.

(** The matches, rule by rule. *)
Lemma match_rules_blocks rules m attachments :
  classified m → Forall valid_rule rules →
  let count := Z.of_nat (length attachments) in
  ∃ blocks,
    Forall2 (λ rule block, ∃ chosen : AttachmentDescriptor → bool,
      (∀ a, chosen a = true ↔ rule_fires m count rule a) ∧
      block = fire rule <$> List.filter chosen (sort_attachments attachments)) rules blocks ∧
    match_rules rules m attachments =
      if decide (MAX_AUTOMATION_ATTACHMENTS < length attachments)%nat
      then Raise (AutomationFanoutLimit "automation attachment limit exceeded")
      else if decide (length (concat blocks) <= MAX_AUTOMATION_FIRES_PER_MESSAGE)%nat
      then Ret (concat blocks)
      else Raise (AutomationFanoutLimit "automation fire limit exceeded").
Proof.
  intros Hm Hv count. exists (selected m (sort_attachments attachments) <$> rules). split.
  - apply Forall2_fmap_r, Forall_Forall2_diag. eapply list.Forall_impl; [exact Hv|].
    intros rule Hr. destruct (selected_chosen m (sort_attachments attachments) rule Hm Hr)
      as (chosen & Hc & Hsel). exists chosen. split; [|done].
    intros a. rewrite Hc. by rewrite sort_attachments_perm.
  - unfold match_rules. case_decide; [done|].
    rewrite match_each_spec by (done || simpl; lia). rewrite app_nil_l, flat_map_concat_map. done.
Qed.

(** C4: On valid rules and a classified message, [match_rules] fails only by its
    fan-out bounds: more than 1000 attachments, or more than 1000 fires, of which none
    is then returned.  Otherwise it returns, rule by rule and by attachment position
    and part, one fire for exactly those attachments that satisfy every condition of
    the rule in its scope, read declaratively. *)
Theorem match_rules_exact rules m attachments :
  classified m → Forall valid_rule rules →
  let count := Z.of_nat (length attachments) in
  ∃ blocks,
    Forall2 (λ rule block, ∃ chosen : AttachmentDescriptor → bool,
      (∀ a, chosen a = true ↔ rule_fires m count rule a) ∧
      block = fire rule <$> List.filter chosen (sort_attachments attachments)) rules blocks ∧
    match_rules rules m attachments =
      if decide (MAX_AUTOMATION_ATTACHMENTS < length attachments)%nat
      then Raise (AutomationFanoutLimit "automation attachment limit exceeded")
      else if decide (length (concat blocks) <= MAX_AUTOMATION_FIRES_PER_MESSAGE)%nat
      then Ret (concat blocks)
      else Raise (AutomationFanoutLimit "automation fire limit exceeded").
Proof. apply match_rules_blocks. Qed.

(** The fires do not depend on the order in which the attachments are handed over,
    as long as no two of them share both position and part id. *)
Theorem match_rules_order_independent rules m attachments attachments' :
  attachments ≡ₚ attachments' → NoDup (attachment_key <$> attachments) →
  match_rules rules m attachments = match_rules rules m attachments'.
Proof.
  intros Hp Hn. unfold match_rules. rewrite (sort_attachments_unique _ _ Hp Hn).
  by rewrite (Permutation_length Hp).
Qed.

End Properties.

(** ** A concrete rule *)
Module RuleDemo.

Local Existing Instance ascii_unicode.

(** Plain lower-case ASCII addresses. *)
Definition plain_addresses : AddressLib := {| parseaddr := fun t => t; idna := Some |}.
Local Existing Instance plain_addresses.

Definition action : ConnectInvokeAction :=
  mk_action (mk_capability (str "books.import") (str "1.0"))
    (mk_provider (str "ledger-app") (str "2.1.0") (str "0f8fad5b-d9cb-469f-a165-70867728950e"))
    [(str "folder", PStr (str "Inbox"))].

Definition definition : RuleDefinition :=
  mk_rule (str "Invoices") (mk_scope (Some (str "gmail")) (Some (str "me")))
    [mk_condition Sender OpDomainEquals (VStr (str "acme.example"));
     mk_condition Subject OpContains (VStr (str "invoice"));
     mk_condition Category OpIn (VList [str "invoice"; str "other"]);
     mk_condition AttachmentMediaType OpEquals (VStr (str "application/pdf"));
     mk_condition AttachmentFilename OpGlob (VStr (str "inv-[0-9]*.pdf"))]
    action false.

Definition rule : MatchRule := mk_match_rule (str "r1") 3 (Some (str "mailbox")) definition.

Definition message : message_view :=
  mk_message (str "gmail") (str "me") (str "mailbox") (str "billing@acme.example") None
    (str "Your Invoice 17")
    (<[str "category" := VStr (str "invoice")]> (<[str "priority" := VStr (str "normal")]>
      (<[str "action_required" := VBool false]> ∅))).

Definition pdf (part : string) (position : Z) : AttachmentDescriptor :=
  mk_attachment (str part) None (str "C:\files\INV-17.PDF") (str "application/pdf") 1000
    position true None.

Definition attachments : list AttachmentDescriptor := [pdf "2" 1; pdf "1" 0].

Lemma definition_valid : definition_ok definition = true.
Proof. vm_compute. reflexivity. Qed.

Lemma rules_valid : Forall valid_rule [rule].
Proof. constructor; [exact definition_valid|constructor]. Qed.

Lemma message_classified : classified message.
Proof. by exists (str "invoice"), (str "normal"), false. Qed.

Lemma keys_distinct : NoDup (attachment_key <$> attachments).
Proof. apply (bool_decide_unpack _). vm_compute. exact I. Qed.

Example fires_in_order :
  match_rules [rule] message attachments = Ret [fire rule (pdf "1" 0); fire rule (pdf "2" 1)].
Proof. vm_compute. reflexivity. Qed.

Lemma rule_dump_roundtrip_witness :
  prepare_rule_definition (model_dump definition) = Ret definition.
Proof. exact (proj2 (rule_dump_roundtrip definition) definition_valid). Defined.

Lemma match_rules_exact_witness :
  ∃ blocks, match_rules [rule] message attachments =
    if decide (MAX_AUTOMATION_ATTACHMENTS < length attachments)%nat
    then Raise (AutomationFanoutLimit "automation attachment limit exceeded")
    else if decide (length (concat blocks) <= MAX_AUTOMATION_FIRES_PER_MESSAGE)%nat
    then Ret (concat blocks)
    else Raise (AutomationFanoutLimit "automation fire limit exceeded").
Proof.
  destruct (match_rules_exact [rule] message attachments message_classified rules_valid)
    as (blocks & _ & Heq).
  exact (ex_intro _ blocks Heq).
Defined.

Lemma match_rules_order_independent_witness :
  match_rules [rule] message attachments = match_rules [rule] message (rev attachments).
Proof.
  exact (match_rules_order_independent [rule] message attachments (rev attachments)
    (Permutation_rev attachments) keys_distinct).
Defined.

End RuleDemo.
