(* ===== verification/RuleStore.v ===== *)
(** * The versioned rule store

    Models the automation rules of [src/src/eom_email_watcher/db.py]: the tables
    [automation_rule_set], [automation_rules], [automation_rule_versions] and
    [automation_rule_selections] with their constraints, the reads
    ([automation_rules_snapshot], [automation_rule], [_current_match_rules],
    [automation_fire_definition]) and the writes ([put_automation_rule],
    [set_automation_rule_enabled], [delete_automation_rule]), and the selection
    snapshots of [connect_selection.py].

    The capability objects belong to the [connect_automate] package: their type and
    its functions are the class [ConnectLib].  A write commits its transaction and
    then reads the rule again, so it returns the new store together with the outcome
    of that read. *)

From S2P Require Export Sha256 IsoTime RuleMatch JsonParse.
From stdpp Require Import options.

Local Open Scope Z_scope.

(** ** The Connect client library *)

Class ConnectLib := {
  capability : Type;
  (** the instance as a dictionary ([dataclasses.asdict]) *)
  asdict : capability → list (text * json);
  (** the parameters with their defaults, as the invocation sends them *)
  validate_capability_parameters : capability → list (text * parameter) → py (list (text * parameter));
  validate_manifest_features : json → py json;
  accepted_artifact_type : json → py json;
  capability_parameter : json → py json;
  (** [DiscoveredCapability(base_url=.., token=.., **data)] *)
  discovered_capability : text → text → list (text * json) → py capability;
  public_dict : capability → json }.

Section Selection.
Context `{ConnectLib}.

(** [del data[k]] *)
Definition del_member (k : text) (data : list (text * json)) : py (list (text * json)) :=
  if is_some (member k data) then Ret (List.filter (fun e => negb (bool_decide (e.1 = k))) data)
  else Raise (KeyError k).

Definition get_member (k : text) (data : list (text * json)) : py json :=
  require_some (member k data) (KeyError k).

(** [connect_selection.py: encode_selection] *)
Definition encode_selection (c : capability) : py text :=
  data ← del_member (str "base_url") (asdict c);
  data ← del_member (str "token") data;
  Ret (dumps false (JObj data)).

(** The elements a [for] loop over a decoded value yields: the items of an array,
    the keys of an object, the characters of a string. *)
Definition iterate (j : json) : py (list json) :=
  match j with
  | JArr l => Ret l
  | JObj m => Ret ((fun e => JStr e.1) <$> m)
  | JStr t => Ret ((fun c => JStr [c]) <$> t)
  | _ => Raise (TypeError "object is not iterable")
  end.

Fixpoint each (f : json → py json) (l : list json) : py (list json) :=
  match l with
  | [] => Ret []
  | x :: l' => y ← f x; ys ← each f l'; Ret (y :: ys)
  end.

(** [connect_selection.py: decode_selection] *)
Definition decode_selection (encoded : text) : py capability :=
  decoded ← JsonParse.loads encoded;
  match decoded with
  | JObj data =>
      features ← get_member (str "acknowledged_manifest_features") data;
      features ← validate_manifest_features features;
      let data := dict_set (str "acknowledged_manifest_features") features data in
      accepts ← get_member (str "accepts") data;
      accepts ← iterate accepts;
      accepts ← each accepted_artifact_type accepts;
      let data := dict_set (str "accepts") (JArr accepts) data in
      parameters ← get_member (str "parameters") data;
      parameters ← iterate parameters;
      parameters ← each capability_parameter parameters;
      let data := dict_set (str "parameters") (JArr parameters) data in
      produces ← get_member (str "produces") data;
      produces ← iterate produces;
      let data := dict_set (str "produces") (JArr produces) data in
      discovered_capability [] [] data
  | _ => Raise (TypeError "indices must be integers")
  end.

End Selection.

(** ** Tables *)

Definition MAX_AUTOMATION_RULES : nat := 100.

Record rule_row := mk_rule_row {
  rr_current_version : Z;
  rr_enabled : bool;
  rr_system : bool;
  rr_deleted : bool;
  rr_created_at : text;
  rr_updated_at : text }.

(** [kind] with the columns its CHECK ties to it. *)
Inductive version_kind :=
| VDefinition (definition_json : bytes) (definition_sha256 : text)
| VDeleted.

Record version_row := mk_version_row {
  vr_kind : version_kind;
  vr_enabled : bool;
  vr_scope_mailbox_identity_key : option text;
  vr_global_revision : Z;
  vr_accepted_at : text }.

Record rule_store := mk_rule_store {
  rs_revision : option Z;
  rs_rules : gmap text rule_row;
  rs_versions : gmap (text * Z) version_row;
  rs_selections : gmap (text * Z) text;
  rs_mail_accounts : gmap (text * text) (option text) }.

(** The rows [Store.initialize] creates. *)
Definition empty_rule_store (accounts : gmap (text * text) (option text)) : rule_store :=
  mk_rule_store (Some 0) ∅ ∅ ∅ accounts.

(** SQLite's [length] of a text: the characters before the first NUL. *)
Fixpoint sql_length (t : text) : nat :=
  match t with
  | [] => 0
  | c :: t' => if decide (c = 0%N) then 0 else S (sql_length t')
  end.

(** The CHECK constraints of [automation_rule_versions]. *)
Definition version_row_ok (rule_id : text) (version : Z) (v : version_row) : bool :=
  bool_decide (sql_length rule_id = 36%nat) && (1 <=? version) &&
  match v.(vr_kind) with
  | VDefinition encoded digest =>
      (1 <=? Z.of_nat (length encoded)) && (Z.of_nat (length encoded) <=? 16384) &&
      bool_decide (sql_length digest = 64%nat)
  | VDeleted => true
  end &&
  match v.(vr_scope_mailbox_identity_key) with
  | Some key => bool_decide (sql_length key = 64%nat)
  | None => true
  end &&
  (1 <=? v.(vr_global_revision)).

Definition revision_used (r : Z) (versions : gmap (text * Z) version_row) : bool :=
  existsb (fun e => e.2.(vr_global_revision) =? r) (map_to_list versions).

(** [INSERT INTO automation_rule_versions]: the row, its primary key and the unique
    revision. *)
Definition insert_version (rule_id : text) (version : Z) (v : version_row) (s : rule_store)
    : py rule_store :=
  _ ← require (version_row_ok rule_id version v) (IntegrityError "CHECK automation_rule_versions");
  _ ← require (is_none (s.(rs_versions) !! (rule_id, version)))
        (IntegrityError "PRIMARY KEY automation_rule_versions");
  _ ← require (negb (revision_used v.(vr_global_revision) s.(rs_versions)))
        (IntegrityError "UNIQUE global_revision");
  Ret (mk_rule_store s.(rs_revision) s.(rs_rules) (<[(rule_id, version) := v]> s.(rs_versions))
         s.(rs_selections) s.(rs_mail_accounts)).

(** [INSERT INTO automation_rule_selections] *)
Definition insert_selection (rule_id : text) (version : Z) (selection : text) (s : rule_store)
    : py rule_store :=
  _ ← require (is_some (Utf8.encode selection)) UnicodeEncodeError;
  _ ← require ((2 <=? Z.of_nat (sql_length selection)) && (Z.of_nat (sql_length selection) <=? 65536))
        (IntegrityError "CHECK automation_rule_selections");
  _ ← require (is_none (s.(rs_selections) !! (rule_id, version)))
        (IntegrityError "PRIMARY KEY automation_rule_selections");
  _ ← require (is_some (s.(rs_versions) !! (rule_id, version))) (IntegrityError "FOREIGN KEY");
  Ret (mk_rule_store s.(rs_revision) s.(rs_rules) s.(rs_versions)
         (<[(rule_id, version) := selection]> s.(rs_selections)) s.(rs_mail_accounts)).

Definition write_rule (rule_id : text) (r : rule_row) (s : rule_store) : rule_store :=
  mk_rule_store s.(rs_revision) (<[rule_id := r]> s.(rs_rules)) s.(rs_versions)
    s.(rs_selections) s.(rs_mail_accounts).

(** ** Reading a rule *)

Record AutomationRuleSummary := mk_summary {
  rsm_rule_id : text;
  rsm_version : Z;
  rsm_enabled : bool;
  rsm_system : bool;
  rsm_valid : bool;
  rsm_name : option text;
  (** the exception whose text is the reason *)
  rsm_invalid_reason : option exn;
  rsm_created_at : text;
  rsm_updated_at : text }.

Record AutomationRuleDetail := mk_detail {
  rdt_summary : AutomationRuleSummary;
  rdt_definition : option json;
  rdt_selection : option json }.

(** A rule joined with the version it names, and that version's selection. *)
Record current_row := mk_current {
  cr_rule_id : text;
  cr_rule : rule_row;
  cr_version : version_row;
  cr_selection : option text }.

Definition current_version_row (s : rule_store) (rule_id : text) : option current_row :=
  r ← s.(rs_rules) !! rule_id;
  v ← s.(rs_versions) !! (rule_id, r.(rr_current_version));
  Some (mk_current rule_id r v (s.(rs_selections) !! (rule_id, r.(rr_current_version)))).

(** Rows in the order of [ORDER BY r.created_at, r.rule_id]. *)
Definition current_leb (a b : current_row) : bool :=
  text_ltb a.(cr_rule).(rr_created_at) b.(cr_rule).(rr_created_at) ||
  (bool_decide (a.(cr_rule).(rr_created_at) = b.(cr_rule).(rr_created_at)) &&
   negb (text_ltb b.(cr_rule_id) a.(cr_rule_id))).

Fixpoint insert_current (x : current_row) (l : list current_row) : list current_row :=
  match l with
  | [] => [x]
  | y :: l' => if current_leb x y then x :: l else y :: insert_current x l'
  end.

Definition current_rows (keep : current_row → bool) (s : rule_store) : list current_row :=
  foldr insert_current []
    (List.filter keep (omap (current_version_row s) (map_to_list s.(rs_rules)).*1)).

Definition live_count (s : rule_store) : nat :=
  length (List.filter (fun e => negb e.2.(rr_deleted)) (map_to_list s.(rs_rules))).

Section Store.
Context `{Unicode} `{AddressLib} `{ConnectLib}.

(** The integrity checks every reader of a stored definition makes: the digest, the
    decoding, the strict model and the canonical form. *)
Definition decode_definition (encoded : bytes) (digest : text) : py RuleDefinition :=
  _ ← require (bool_decide (Sha256.hexdigest encoded = digest))
        (RuleValidationError "stored definition digest does not match");
  decoded ← JsonParse.loads_bytes encoded;
  parsed ← parse_rule_definition decoded;
  canonical ← canonical_rule_definition parsed;
  _ ← require (bool_decide (canonical = encoded))
        (RuleValidationError "stored definition is not canonical");
  Ret parsed.

(** The exceptions [_automation_rule_detail] turns into a reason. *)
Definition detail_catches (e : exn) : bool :=
  match e with
  | AttributeError | JSONDecodeError | TypeError _ | UnicodeDecodeError | UnicodeEncodeError
  | RuleValidationError _ => true
  | _ => false
  end.

Definition read_stored (v : version_row) : py RuleDefinition :=
  match v.(vr_kind) with
  | VDeleted => Raise (RuleValidationError "current rule version is not a definition")
  | VDefinition encoded digest => decode_definition encoded digest
  end.

Definition public_selection (o : option text) : py (option json) :=
  match o with
  | None => Ret None
  | Some snapshot => c ← decode_selection snapshot; Ret (Some (public_dict c))
  end.

(** [Store._automation_rule_detail] *)
Definition _automation_rule_detail (row : current_row) : py AutomationRuleDetail :=
  outcome ← match read_stored row.(cr_version) with
            | Ret d => Ret (Some d, None)
            | Raise e => if detail_catches e then Ret (None, Some e) else Raise e
            end;
  let '(parsed, reason) := outcome in
  let r := row.(cr_rule) in
  let summary := mk_summary row.(cr_rule_id) r.(rr_current_version) r.(rr_enabled) r.(rr_system)
                   (is_none reason) (rd_name <$> parsed) reason r.(rr_created_at)
                   r.(rr_updated_at) in
  selection ← public_selection row.(cr_selection);
  Ret (mk_detail summary (model_dump <$> parsed) selection).

(** [Store._next_automation_rules_revision] *)
Definition _next_automation_rules_revision (s : rule_store) : py (Z * rule_store) :=
  current ← require_some s.(rs_revision) (RuntimeError "automation rule-set authority is missing");
  Ret (current + 1, mk_rule_store (Some (current + 1)) s.(rs_rules) s.(rs_versions)
                      s.(rs_selections) s.(rs_mail_accounts)).

(** [Store._automation_rule_scope_identity] *)
Definition _automation_rule_scope_identity (s : rule_store) (d : RuleDefinition)
    (expected : option text) : py (option text) :=
  match d.(rd_scope).(sc_account_id) with
  | None =>
      _ ← require (is_none expected)
            (ValueError "mailbox identity is only valid for account-scoped rules");
      Ret None
  | Some account_id =>
      identity ← require_some expected
        (MailboxIdentityChanged "account-scoped rule requires a mailbox identity");
      let row := p ← d.(rd_scope).(sc_provider); s.(rs_mail_accounts) !! (p, account_id) in
      _ ← require (bool_decide (row = Some (Some identity)))
            (MailboxIdentityChanged "mailbox identity changed");
      Ret (Some identity)
  end.

(** [Store.automation_rules_snapshot] *)
Definition automation_rules_snapshot (s : rule_store) : py (Z * list AutomationRuleSummary) :=
  revision ← require_some s.(rs_revision) (RuntimeError "automation rule-set authority is missing");
  let rows := current_rows (fun c => negb c.(cr_rule).(rr_deleted)) s in
  summaries ← (fix go (rows : list current_row) : py (list AutomationRuleSummary) :=
     match rows with
     | [] => Ret []
     | row :: rows' => d ← _automation_rule_detail row; l ← go rows'; Ret (d.(rdt_summary) :: l)
     end) rows;
  Ret (revision, summaries).

(** [Store.require_automation_rule_create_capacity] *)
Definition require_automation_rule_create_capacity (s : rule_store) : py unit :=
  require (negb (bool_decide (MAX_AUTOMATION_RULES <= live_count s)%nat))
    (AutomationRuleLimitExceeded "automation rule limit exceeded").

Definition live_row (s : rule_store) (rule_id : text) : option current_row :=
  row ← current_version_row s rule_id;
  if row.(cr_rule).(rr_deleted) then None else Some row.

(** [Store.automation_rule] *)
Definition automation_rule (s : rule_store) (rule_id : text) : py AutomationRuleDetail :=
  row ← require_some (live_row s rule_id) (AutomationRuleNotFound rule_id);
  _automation_rule_detail row.

(** ** Writing *)

(** The argument of a put: a definition, or any decoded value. *)
Definition parse_argument (definition : RuleDefinition + json) : py RuleDefinition :=
  parse_rule_definition (match definition with inl d => model_dump d | inr j => j end).

(** The row a put writes, with the store whose revision it has taken: a new rule, or
    the next version of a live one whose version the caller knows. *)
Definition put_rule_row (identity : text) (expected_version : option Z) (stamp : text)
    (s : rule_store) : py (Z * bool * Z * rule_store) :=
  match s.(rs_rules) !! identity with
  | None =>
      _ ← require (is_none expected_version) (AutomationRuleNotFound identity);
      _ ← require_automation_rule_create_capacity s;
      '(global_revision, s) ← _next_automation_rules_revision s;
      _ ← require (bool_decide (sql_length identity = 36%nat))
            (IntegrityError "CHECK automation_rules");
      Ret (1, true, global_revision,
           write_rule identity (mk_rule_row 1 true false false stamp stamp) s)
  | Some existing =>
      _ ← require (negb existing.(rr_deleted)) (AutomationRuleNotFound identity);
      let current_version := existing.(rr_current_version) in
      _ ← require (bool_decide (expected_version = Some current_version))
            (AutomationRuleStale "automation rule version is stale");
      _ ← require (negb existing.(rr_system))
            (AutomationRuleSystemProtected "system automation rule is protected");
      let version := current_version + 1 in
      '(global_revision, s) ← _next_automation_rules_revision s;
      Ret (version, existing.(rr_enabled), global_revision,
           write_rule identity
             (mk_rule_row version existing.(rr_enabled) existing.(rr_system) existing.(rr_deleted)
                existing.(rr_created_at) stamp) s)
  end.

Definition put_selection (identity : text) (version : Z) (parsed : RuleDefinition)
    (selection : option capability) (s : rule_store) : py rule_store :=
  match selection with
  | None => Ret s
  | Some c =>
      _ ← validate_capability_parameters c parsed.(rd_action).(act_parameters);
      encoded ← encode_selection c;
      insert_selection identity version encoded s
  end.

(** [Store.put_automation_rule]; [fresh] is [str(uuid.uuid4())]. *)
Definition put_automation_rule (definition : RuleDefinition + json) (rule_id : option text)
    (expected_version : option Z) (expected_account_identity : option text)
    (selection : option capability) (now : Z) (fresh : text) (s : rule_store)
    : py (py AutomationRuleDetail * rule_store) :=
  parsed ← parse_argument definition;
  encoded ← canonical_rule_definition parsed;
  let digest := Sha256.hexdigest encoded in
  let stamp := isoformat (utc now) in
  let identity := match rule_id with Some i => if truthy i then i else fresh | None => fresh end in
  _ ← require (uuid4_text identity) (ValueError "automation rule id must be a lower-case UUIDv4");
  scope_identity ← _automation_rule_scope_identity s parsed expected_account_identity;
  '(version, version_enabled, global_revision, s) ←
    put_rule_row identity expected_version stamp s;
  s ← insert_version identity version
        (mk_version_row (VDefinition encoded digest) version_enabled scope_identity
           global_revision stamp) s;
  s ← put_selection identity version parsed selection s;
  Ret (automation_rule s identity, s).

(** The guards [set_automation_rule_enabled] and [delete_automation_rule] share. *)
Definition require_current (r : rule_row) (expected_version : Z) : py unit :=
  _ ← require (bool_decide (expected_version = r.(rr_current_version)))
        (AutomationRuleStale "automation rule version is stale");
  require (negb r.(rr_system)) (AutomationRuleSystemProtected "system automation rule is protected").

(** [Store.set_automation_rule_enabled]; [enabled] is [None] for a value that is not
    a [bool]. *)
Definition set_automation_rule_enabled (rule_id : text) (expected_version : Z)
    (enabled : option bool) (now : Z) (s : rule_store)
    : py (py AutomationRuleDetail * rule_store) :=
  enabled ← require_some enabled (ValueError "enabled must be a boolean");
  let stamp := isoformat (utc now) in
  row ← require_some (live_row s rule_id) (AutomationRuleNotFound rule_id);
  let r := row.(cr_rule) in
  let v := row.(cr_version) in
  let current_version := r.(rr_current_version) in
  _ ← require_current r expected_version;
  '(encoded, digest) ← match v.(vr_kind) with
                       | VDefinition encoded digest => Ret (encoded, digest)
                       | VDeleted => Raise (RuntimeError "live automation rule is not a definition")
                       end;
  _ ← decode_definition encoded digest;
  if bool_decide (r.(rr_enabled) = enabled) then
    detail ← _automation_rule_detail row; Ret (Ret detail, s)
  else
    let version := current_version + 1 in
    '(global_revision, s) ← _next_automation_rules_revision s;
    let s := write_rule rule_id
               (mk_rule_row version enabled r.(rr_system) r.(rr_deleted) r.(rr_created_at) stamp) s in
    s ← insert_version rule_id version
          (mk_version_row (VDefinition encoded digest) enabled v.(vr_scope_mailbox_identity_key)
             global_revision stamp) s;
    s ← match row.(cr_selection) with
        | None => Ret s
        | Some selection => insert_selection rule_id version selection s
        end;
    Ret (automation_rule s rule_id, s).

(** [Store.delete_automation_rule] *)
Definition delete_automation_rule (rule_id : text) (expected_version : Z) (now : Z)
    (s : rule_store) : py (Z * rule_store) :=
  let stamp := isoformat (utc now) in
  r ← require_some (r ← s.(rs_rules) !! rule_id; if r.(rr_deleted) then None else Some r)
        (AutomationRuleNotFound rule_id);
  _ ← require_current r expected_version;
  let version := r.(rr_current_version) + 1 in
  '(global_revision, s) ← _next_automation_rules_revision s;
  let s := write_rule rule_id
             (mk_rule_row version false r.(rr_system) true r.(rr_created_at) stamp) s in
  s ← insert_version rule_id version (mk_version_row VDeleted false None global_revision stamp) s;
  Ret (version, s).

(** ** Readers of the evaluation *)

Definition match_catches (e : exn) : bool :=
  match e with
  | JSONDecodeError | TypeError _ | UnicodeDecodeError | UnicodeEncodeError
  | RuleValidationError _ => true
  | _ => false
  end.

Fixpoint load_match_rules (rows : list current_row) : py (list MatchRule) :=
  match rows with
  | [] => Ret []
  | row :: rows' =>
      rule ← match read_stored row.(cr_version) with
             | Ret d => Ret (Some (mk_match_rule row.(cr_rule_id) row.(cr_rule).(rr_current_version)
                                     row.(cr_version).(vr_scope_mailbox_identity_key) d))
             | Raise e => if match_catches e then Ret None else Raise e
             end;
      rules ← load_match_rules rows';
      Ret (option_list rule ++ rules)%list
  end.

Definition is_definition (v : version_row) : bool :=
  match v.(vr_kind) with VDefinition _ _ => true | VDeleted => false end.

(** [Store._current_match_rules] *)
Definition _current_match_rules (s : rule_store) : py (list MatchRule) :=
  load_match_rules
    (current_rows (fun c => negb c.(cr_rule).(rr_deleted) && c.(cr_rule).(rr_enabled) &&
                            is_definition c.(cr_version)) s).

(** [Store.automation_rule_selection] *)
Definition automation_rule_selection (s : rule_store) (rule_id : text) (version : Z)
    : py (option capability) :=
  match s.(rs_selections) !! (rule_id, version) with
  | None => Ret None
  | Some snapshot => c ← decode_selection snapshot; Ret (Some c)
  end.

(** The exceptions [automation_fire_definition] reports as an invalid definition;
    others, a failing re-encoding among them, pass through. *)
Definition fire_catches (e : exn) : bool :=
  match e with
  | JSONDecodeError | TypeError _ | UnicodeDecodeError | RuleValidationError _ => true
  | _ => false
  end.

(** [Store.automation_fire_definition] *)
Definition automation_fire_definition (s : rule_store) (rule_id : text) (rule_version : Z)
    : py RuleDefinition :=
  match s.(rs_versions) !! (rule_id, rule_version) with
  | Some {| vr_kind := VDefinition encoded digest |} =>
      _ ← require (bool_decide (Sha256.hexdigest encoded = digest))
            (RuntimeError "Automation fire rule definition failed integrity validation");
      definition ← match (decoded ← JsonParse.loads_bytes encoded; parse_rule_definition decoded) with
                   | Ret d => Ret d
                   | Raise e => if fire_catches e
                                then Raise (RuntimeError "Automation fire rule definition is invalid")
                                else Raise e
                   end;
      canonical ← canonical_rule_definition definition;
      _ ← require (bool_decide (canonical = encoded))
            (RuntimeError "Automation fire rule definition is noncanonical");
      Ret definition
  | _ => Raise (RuntimeError "Automation fire rule definition is unavailable")
  end.

End Store.
