(* ===== verification/RuleCodec.v ===== *)
(** * Stored definitions are read back

    The bytes [canonical_rule_definition] writes pass every integrity check of the
    readers ([RuleStore.decode_definition]) and give the definition back, with its
    parameters in the order of their names. *)

From S2P Require Export RuleStore RuleTheorems.
From stdpp Require Import options.

Local Open Scope Z_scope.

(** ** The definition as it comes back *)

Definition sorted_action (a : ConnectInvokeAction) : ConnectInvokeAction :=
  mk_action a.(act_capability) a.(act_provider) (sort_members a.(act_parameters)).

Definition sorted_definition (d : RuleDefinition) : RuleDefinition :=
  mk_rule d.(rd_name) d.(rd_scope) d.(rd_conditions) (sorted_action d.(rd_action))
    d.(rd_confirm_each).

(** A dictionary holds one value per key. *)
Definition one_per_key (d : RuleDefinition) : Prop := NoDup d.(rd_action).(act_parameters).*1.

Lemma dump_parameters_sorted l :
  sort_members ((fun m => (m.1, dump_parameter m.2)) <$> l)
  = (fun m => (m.1, dump_parameter m.2)) <$> sort_members l.
Proof. apply (sort_members_map dump_parameter). Qed.

Lemma canon_operand v : canon true (dump_operand v) = dump_operand v.
Proof.
  destruct v as [| | |l]; try done. simpl. f_equal.
  rewrite <- list_fmap_compose. by apply list_fmap_ext.
Qed.

Lemma canon_parameters l :
  canon true (JObj ((fun m => (m.1, dump_parameter m.2)) <$> l))
  = JObj ((fun m => (m.1, dump_parameter m.2)) <$> sort_members l).
Proof.
  rewrite canon_obj, dump_parameters_sorted, <- list_fmap_compose.
  f_equal. apply list_fmap_ext. intros i [k [|z|]] _; done.
Qed.

Lemma canon_sorted_action a :
  canon true (dump_action (sorted_action a)) = canon true (dump_action a).
Proof.
  apply canon_obj_ext. unfold canon_members. cbn [fmap list_fmap fst snd].
  do 4 f_equal. f_equal. rewrite !canon_parameters. simpl. by rewrite sort_members_idemp.
Qed.

Lemma canon_sorted_definition d :
  canon true (model_dump (sorted_definition d)) = canon true (model_dump d).
Proof.
  apply canon_obj_ext. unfold canon_members. cbn [fmap list_fmap fst snd].
  do 5 f_equal. f_equal. apply canon_sorted_action.
Qed.

(** The literal keys of a dumped object are distinct. *)
Ltac keys := cbn [fmap list_fmap fst]; refine (bool_decide_unpack _ _); vm_compute; exact I.

(** ** Numbers a definition holds are short *)

Lemma decimal_fuel_length f n acc : (length (decimal_fuel f n acc) <= f + length acc)%nat.
Proof.
  revert n acc. induction f as [|f IH]; intros n acc; [done|].
  change (length (if (n <? 10)%N then (48 + n mod 10)%N :: acc
    else decimal_fuel f (n / 10) ((48 + n mod 10)%N :: acc)) <= S f + length acc)%nat.
  case_match; simpl; [lia|]. etrans; [apply IH|]. simpl. lia.
Qed.

Lemma decimal_length_bound n k : (n < 2 ^ k)%N → (length (decimal n) <= N.to_nat k + 1)%nat.
Proof.
  intros Hn. unfold decimal. etrans; [apply decimal_fuel_length|]. simpl.
  enough (N.size n <= k)%N by lia.
  destruct (N.eq_dec n 0%N) as [->|Hz]; [simpl; lia|].
  rewrite N.size_log2 by done. apply N.le_succ_l, N.log2_lt_pow2; lia.
Qed.

Lemma small_json_ok z : Z.abs z < 2 ^ 60 → json_ok (JInt z).
Proof.
  intros Hz. change (length (decimal (Z.abs_N z)) <= JsonParse.INT_MAX_STR_DIGITS)%nat.
  etrans; [apply (decimal_length_bound _ 60)|].
  - change (2 ^ 60)%N with (Z.to_N (2 ^ 60)). lia.
  - apply Nat.leb_le. reflexivity.
Qed.

Section Codec.
Context `{Unicode} `{AddressLib}.

Lemma read_condition_canon c : read_condition (canon true (dump_condition c)) = Some c.
Proof.
  destruct c as [f o v]. rewrite <- (read_condition_dump (mk_condition f o v)).
  transitivity (read_condition (JObj [(str "field", JStr (field_name f));
    (str "op", JStr (op_name o)); (str "value", canon true (dump_operand v))])).
  - reflexivity.
  - by rewrite canon_operand.
Qed.

Lemma read_action_canon a : read_action (canon true (dump_action a)) = Some (sorted_action a).
Proof.
  destruct a as [[cid cver] [app ver inst] l].
  transitivity (p ← read_parameters (canon true (JObj ((fun m => (m.1, dump_parameter m.2)) <$> l)));
                Some (mk_action (mk_capability cid cver) (mk_provider app ver inst) p)).
  - reflexivity.
  - rewrite canon_parameters, read_parameters_dump. done.
Qed.

Lemma read_definition_canon d : read_definition (canon true (model_dump d)) = Some (sorted_definition d).
Proof.
  destruct d as [name [p acc] conditions action ce].
  transitivity (cs ← mapM read_condition (canon true <$> (dump_condition <$> conditions));
                a ← read_action (canon true (dump_action action));
                Some (mk_rule name (mk_scope p acc) cs a ce)).
  - destruct p, acc; reflexivity.
  - rewrite <- list_fmap_compose, (mapM_map _ _ id) by apply read_condition_canon.
    rewrite list_fmap_id, read_action_canon. done.
Qed.

Lemma forallb_perm {A} (f : A → bool) l l' : l ≡ₚ l' → forallb f l = forallb f l'.
Proof. induction 1; simpl; rewrite ?andb_assoc; congruence || (f_equal; apply andb_comm). Qed.

Lemma definition_ok_sorted d : definition_ok (sorted_definition d) = definition_ok d.
Proof.
  unfold definition_ok, action_ok. simpl. by rewrite (forallb_perm _ _ _ (sort_members_perm _)),
    (Permutation_length (sort_members_perm _)).
Qed.

Lemma operand_json_ok c : validate_operand c = true → json_ok (dump_operand c.(cond_value)).
Proof.
  destruct c as [f o [t|z|b|l]]; try done.
  - intros Hv. apply small_json_ok. change (2 ^ 60) with 1152921504606846976.
    destruct f; unfold validate_operand in Hv; simpl in Hv; bools; try done; try lia;
      repeat case_decide; done.
  - intros _. simpl. apply foldr_and_Forall. by apply Forall_fmap, Forall_true.
Qed.

Lemma parameter_json_ok p : parameter_ok p = true → json_ok (dump_parameter p).
Proof.
  destruct p as [t|z|b]; try done. simpl. intros Hp. bools. apply small_json_ok.
  change (2 ^ 60) with 1152921504606846976. lia.
Qed.

Lemma definition_json_ok d : definition_ok d = true → one_per_key d → json_ok (model_dump d).
Proof.
  unfold definition_ok, action_ok. intros Hok Hk. bools.
  repeat match goal with Hf : forallb _ _ = true |- _ => rewrite forallb_elem in Hf end.
  assert (Forall json_ok (dump_condition <$> d.(rd_conditions))) as Hc.
  { apply Forall_fmap, list.Forall_forall. intros c Hc. simpl. split_and!; try done.
    - keys.
    - apply operand_json_ok. auto. }
  assert (json_ok (JObj ((fun m => (m.1, dump_parameter m.2)) <$> d.(rd_action).(act_parameters)))) as Hp.
  { split.
    - rewrite <- list_fmap_compose. exact Hk.
    - apply foldr_and_Forall, Forall_fmap, list.Forall_forall. intros [k p] Hin. simpl.
      apply parameter_json_ok. match goal with Hf : ∀ x : text * parameter, _ |- _ =>
        specialize (Hf _ Hin) end. by bools. }
  assert (json_ok (dump_action d.(rd_action))) as Ha.
  { split; [keys|]. simpl foldr. split_and!; try done; try keys; apply Hp. }
  split; [keys|]. simpl foldr. split_and!; try done; try keys; try apply Hp.
  - by destruct (sc_provider _).
  - by destruct (sc_account_id _).
  - by apply foldr_and_Forall.
Qed.

Lemma canonical_text_sorted d :
  dumps true (model_dump (sorted_definition d)) = dumps true (model_dump d).
Proof. by rewrite <- (dumps_canon (model_dump (sorted_definition d))), canon_sorted_definition, dumps_canon. Qed.

Lemma canonical_sorted d :
  canonical_rule_definition (sorted_definition d) = canonical_rule_definition d.
Proof. unfold canonical_rule_definition. by rewrite canonical_text_sorted. Qed.

Lemma canonical_encoded d raw : canonical_rule_definition d = Ret raw →
  Utf8.encode (dumps true (model_dump d)) = Some raw ∧ (length raw <= MAX_RULE_DEFINITION_BYTES)%nat.
Proof.
  unfold canonical_rule_definition. intros Hc. peel. simplify_eq. by split.
Qed.

Lemma parse_canon d : definition_ok d = true →
  parse_rule_definition (canon true (model_dump d)) = Ret (sorted_definition d).
Proof.
  intros Hok. unfold parse_rule_definition. rewrite read_definition_canon, definition_ok_sorted, Hok.
  by destruct d as [? [[] []] ? ? ?].
Qed.

Lemma loads_canonical d raw : definition_ok d = true → one_per_key d →
  canonical_rule_definition d = Ret raw →
  JsonParse.loads_bytes raw = Ret (canon true (model_dump d)).
Proof.
  intros Hok Hk Hc. apply canonical_encoded in Hc as [Hc _].
  by eapply loads_bytes_dumps; [apply definition_json_ok|].
Qed.

(** What a put stores passes every check of the readers. *)
Lemma decode_canonical d raw : definition_ok d = true → one_per_key d →
  canonical_rule_definition d = Ret raw →
  decode_definition raw (Sha256.hexdigest raw) = Ret (sorted_definition d).
Proof.
  intros Hok Hk Hc. unfold decode_definition.
  rewrite bool_decide_eq_true_2 by done. cbn [mbind py_bind require].
  rewrite (loads_canonical d) by done. cbn [mbind py_bind require].
  rewrite parse_canon by done. cbn [mbind py_bind require].
  rewrite canonical_sorted, Hc. cbn [mbind py_bind require].
  by rewrite bool_decide_eq_true_2.
Qed.

End Codec.

(** ** Arguments are dictionaries *)

Fixpoint unique_keys (j : json) : Prop :=
  match j with
  | JArr l => foldr (fun x acc => unique_keys x ∧ acc) True l
  | JObj m => NoDup m.*1 ∧ foldr (fun e acc => unique_keys e.2 ∧ acc) True m
  | _ => True
  end.

Lemma member_elem k m j : member k m = Some j → (k, j) ∈ m.
Proof.
  induction m as [|[k' v] m IH]; simpl; [done|]. case_decide.
  - intros [= ->]. subst. by left.
  - intros Hm. right. auto.
Qed.

Lemma unique_member k m j : unique_keys (JObj m) → member k m = Some j → unique_keys j.
Proof.
  intros [_ Hall] Hm. apply foldr_and_Forall in Hall. rewrite list.Forall_forall in Hall.
  apply (Hall _ (member_elem _ _ _ Hm)).
Qed.

Lemma mapM_keys {A B} (f : A → option B) (m : list (text * A)) l :
  mapM (fun e => v ← f e.2; Some (e.1, v)) m = Some l → l.*1 = m.*1.
Proof.
  revert l. induction m as [|[k v] m IH]; simpl; intros l Hl; [by injection Hl as <-|].
  destruct (f v) as [b|]; [|done]. simpl in Hl.
  destruct (mapM _ m) as [l'|]; [|done]. injection Hl as <-. simpl. f_equal. by apply IH.
Qed.

Lemma read_parameters_unique j l : unique_keys j → read_parameters j = Some l → NoDup l.*1.
Proof.
  destruct j; try done. intros [Hnd _] Hr. by rewrite (mapM_keys _ _ _ Hr).
Qed.

Lemma read_action_unique j a : unique_keys j → read_action j = Some a → NoDup a.(act_parameters).*1.
Proof.
  intros Hu. unfold read_action, read_obj. destruct j as [| | | | | |m]; try done.
  destruct (only _ m); [|done]. cbn [mbind option_bind]. intros Hr.
  destruct (str_member _ m); [|done]. cbn [mbind option_bind] in Hr.
  destruct (member_as read_capability _ m); [|done]. cbn [mbind option_bind] in Hr.
  destruct (member_as read_provider _ m); [|done]. cbn [mbind option_bind] in Hr.
  destruct (member (str "parameters") m) as [jp|] eqn:Em.
  - destruct (read_parameters jp) as [ps|] eqn:Ep; [|done]. cbn [mbind option_bind] in Hr.
    case_decide; [|done]. injection Hr as <-.
    by eapply read_parameters_unique, Ep; eapply unique_member.
  - cbn [mbind option_bind] in Hr. case_decide; [|done]. injection Hr as <-. constructor.
Qed.

Lemma read_definition_unique j d : unique_keys j → read_definition j = Some d → one_per_key d.
Proof.
  intros Hu. unfold read_definition, read_obj, one_per_key. destruct j as [| | | | | |m]; try done.
  destruct (only _ m); [|done]. intros Hr.
  repeat match type of Hr with _ ≫= _ = Some _ =>
    let x := fresh "x" in let Hx := fresh "Hx" in apply bind_Some in Hr as (x & Hx & Hr) end.
  injection Hr as <-. simpl. simplify_eq.
  match goal with Ha : member_as read_action _ _ = Some _ |- _ => unfold member_as in Ha;
    destruct (member (str "action") _) as [ja|] eqn:Em; [|done];
    eapply read_action_unique, Ha end.
  by eapply unique_member.
Qed.

Section Arguments.
Context `{Unicode} `{AddressLib}.

(** The argument of a put, as Python hands it over. *)
Definition argument_ok (definition : RuleDefinition + json) : Prop :=
  match definition with inl d => one_per_key d | inr j => unique_keys j end.

Lemma parse_argument_ok definition d :
  argument_ok definition → parse_argument definition = Ret d → definition_ok d = true ∧ one_per_key d.
Proof.
  unfold parse_argument, parse_rule_definition. destruct definition as [d'|j]; simpl; intros Ha Hp.
  - rewrite read_definition_dump in Hp. peel. by simplify_eq.
  - peel. simplify_eq. split; [done|]. by eapply read_definition_unique.
Qed.

End Arguments.
