(* ===== verification/RuleStoreTheorems.v ===== *)
(** * What the rule store guarantees

    Every successful write appends exactly one version ([commits]); every reachable
    store satisfies [rules_inv]: the versions of a rule are numbered without gaps up
    to the current one, the revisions 1..n of the set each name one version, a deleted
    rule ends its history, and every stored definition is readable. *)

From S2P Require Export RuleCodec.
From stdpp Require Import options.

Local Open Scope Z_scope.

Section Guarantees.
Context `{Unicode} `{AddressLib} `{ConnectLib}.

(** Bytes and digest of a definition that was accepted. *)
Definition sound_definition (encoded : bytes) (digest : text) : Prop :=
  ∃ d, definition_ok d = true ∧ one_per_key d ∧ canonical_rule_definition d = Ret encoded ∧
       digest = Sha256.hexdigest encoded.

(** One write: the next revision, one new version of one rule, nothing else. *)
Record commits (s s' : rule_store) (id : text) (r : rule_row) (v : version_row) : Prop := {
  cm_revision : ∃ n, s.(rs_revision) = Some n ∧ s'.(rs_revision) = Some (n + 1) ∧
    v.(vr_global_revision) = n + 1;
  cm_rules : s'.(rs_rules) = <[id := r]> s.(rs_rules);
  cm_fresh : s.(rs_versions) !! (id, r.(rr_current_version)) = None;
  cm_versions : s'.(rs_versions) = <[(id, r.(rr_current_version)) := v]> s.(rs_versions);
  cm_selections : s'.(rs_selections) = s.(rs_selections) ∨
    ∃ t, s.(rs_selections) !! (id, r.(rr_current_version)) = None ∧
         s'.(rs_selections) = <[(id, r.(rr_current_version)) := t]> s.(rs_selections);
  cm_row_ok : version_row_ok id r.(rr_current_version) v = true;
  cm_enabled : v.(vr_enabled) = r.(rr_enabled);
  cm_kind : is_definition v = negb r.(rr_deleted);
  cm_prior :
    match s.(rs_rules) !! id with
    | None => r.(rr_current_version) = 1 ∧ r.(rr_deleted) = false ∧
              (live_count s < MAX_AUTOMATION_RULES)%nat
    | Some r0 => r0.(rr_deleted) = false ∧ r0.(rr_system) = false ∧
                 r.(rr_current_version) = r0.(rr_current_version) + 1 ∧
                 r.(rr_created_at) = r0.(rr_created_at)
    end;
  cm_sound : ∀ encoded digest, v.(vr_kind) = VDefinition encoded digest →
    sound_definition encoded digest ∨
    ∃ version v0, s.(rs_versions) !! (id, version) = Some v0 ∧ v0.(vr_kind) = v.(vr_kind) }.

(** ** The writes *)

Lemma insert_version_inv id version v s s' : insert_version id version v s = Ret s' →
  version_row_ok id version v = true ∧ s.(rs_versions) !! (id, version) = None ∧
  s' = mk_rule_store s.(rs_revision) s.(rs_rules) (<[(id, version) := v]> s.(rs_versions))
         s.(rs_selections) s.(rs_mail_accounts).
Proof.
  unfold insert_version. intros Hi. peel. simplify_eq. split_and!; try done.
  by destruct (rs_versions s !! _).
Qed.

Lemma insert_selection_inv id version t s s' : insert_selection id version t s = Ret s' →
  s.(rs_selections) !! (id, version) = None ∧
  s' = mk_rule_store s.(rs_revision) s.(rs_rules) s.(rs_versions)
         (<[(id, version) := t]> s.(rs_selections)) s.(rs_mail_accounts).
Proof.
  unfold insert_selection. intros Hi. peel. simplify_eq. split_and!; try done.
  by destruct (rs_selections s !! _).
Qed.

Lemma next_revision_inv s n s' : _next_automation_rules_revision s = Ret (n, s') →
  ∃ m, s.(rs_revision) = Some m ∧ n = m + 1 ∧
    s' = mk_rule_store (Some (m + 1)) s.(rs_rules) s.(rs_versions) s.(rs_selections) s.(rs_mail_accounts).
Proof. unfold _next_automation_rules_revision. intros Hn. peel. simplify_eq. eauto. Qed.

Lemma put_commits definition rule_id expected identity selection now fresh s detail s' :
  argument_ok definition →
  put_automation_rule definition rule_id expected identity selection now fresh s = Ret (detail, s') →
  ∃ id r v, commits s s' id r v ∧ rr_deleted r = false.
Proof.
  intros Harg. unfold put_automation_rule. intros Hp.
  apply bind_ret_inv in Hp as (d & Hd & Hp). apply bind_ret_inv in Hp as (encoded & He & Hp).
  set (id := match rule_id with Some _ => _ | None => _ end) in *.
  apply bind_ret_inv in Hp as (u & Hu & Hp). apply bind_ret_inv in Hp as (scope & Hscope & Hp).
  apply bind_ret_inv in Hp as ([[[version en] rev] s1] & Hrow & Hp).
  apply bind_ret_inv in Hp as (s2 & Hv & Hp). apply bind_ret_inv in Hp as (s3 & Hsel & Hp).
  injection Hp as <- <-.
  pose proof (parse_argument_ok _ _ Harg Hd) as [Hok Hk].
  apply insert_version_inv in Hv as (Hvok & Hfresh & ->).
  set (v := mk_version_row _ _ _ _ _) in *.
  assert (∃ n r, s.(rs_revision) = Some n ∧ rev = n + 1 ∧ r.(rr_current_version) = version ∧
    r.(rr_enabled) = en ∧ r.(rr_deleted) = false ∧
    s1 = mk_rule_store (Some (n + 1)) (<[id := r]> s.(rs_rules)) s.(rs_versions) s.(rs_selections)
           s.(rs_mail_accounts) ∧
    match s.(rs_rules) !! id with
    | None => version = 1 ∧ (live_count s < MAX_AUTOMATION_RULES)%nat
    | Some r0 => r0.(rr_deleted) = false ∧ r0.(rr_system) = false ∧
                 version = r0.(rr_current_version) + 1 ∧ r.(rr_created_at) = r0.(rr_created_at)
    end) as (n & r & Hn & -> & <- & <- & Hdel & -> & Hprior).
  { unfold put_rule_row in Hrow. destruct (rs_rules s !! id) as [r0|] eqn:Er.
    - peel. match goal with E : _next_automation_rules_revision _ = Ret _ |- _ =>
        apply next_revision_inv in E as (n & Hn & -> & ->) end.
      simplify_eq. bools.
      exists n, (mk_rule_row (rr_current_version r0 + 1) (rr_enabled r0) (rr_system r0) (rr_deleted r0)
        (rr_created_at r0) (isoformat (utc now))). split_and!; done.
    - unfold require_automation_rule_create_capacity in Hrow. peel.
      match goal with E : _next_automation_rules_revision _ = Ret _ |- _ =>
        apply next_revision_inv in E as (n & Hn & -> & ->) end.
      simplify_eq. bools.
      exists n, (mk_rule_row 1 true false false (isoformat (utc now)) (isoformat (utc now))).
      split_and!; try done. lia. }
  assert (rs_revision s3 = Some (n + 1) ∧ rs_rules s3 = <[id := r]> (rs_rules s) ∧
    rs_versions s3 = <[(id, rr_current_version r) := v]> (rs_versions s) ∧
    (rs_selections s3 = rs_selections s ∨ ∃ t, rs_selections s !! (id, rr_current_version r) = None ∧
       rs_selections s3 = <[(id, rr_current_version r) := t]> (rs_selections s))) as (Hs1 & Hs2 & Hs3 & Hs4).
  { unfold put_selection in Hsel. destruct selection as [c|].
    - peel. apply insert_selection_inv in Hsel as (Hf & ->). simpl. split_and!; try done.
      right. eauto.
    - injection Hsel as <-. simpl. split_and!; try done. by left. }
  exists id, r, v. split; [|done]. split; simpl in *; try done.
  - eauto.
  - by rewrite Hdel.
  - destruct (rs_rules s !! id) as [r0|]; naive_solver.
  - intros enc dig [= <- <-]. left. exists d. auto.
Qed.

Lemma live_row_inv s id row : live_row s id = Some row →
  ∃ r v, s.(rs_rules) !! id = Some r ∧ r.(rr_deleted) = false ∧
    s.(rs_versions) !! (id, r.(rr_current_version)) = Some v ∧
    row = mk_current id r v (s.(rs_selections) !! (id, r.(rr_current_version))).
Proof.
  unfold live_row, current_version_row. intros Hl.
  destruct (rs_rules s !! id) as [r|]; [|done]. cbn [mbind option_bind] in Hl.
  destruct (rs_versions s !! _) as [v|] eqn:E; [|done]. cbn [mbind option_bind cr_rule] in Hl.
  destruct (rr_deleted r) eqn:Ed; [done|]. injection Hl as <-. eauto 10.
Qed.

Lemma require_current_inv r expected u : require_current r expected = Ret u →
  expected = r.(rr_current_version) ∧ r.(rr_system) = false.
Proof. unfold require_current. intros Hr. peel. apply require_ret_inv in Hr. by bools. Qed.

(** Switching a rule writes a version with the same definition, scope and selection,
    or nothing when the rule is as asked. *)
Lemma enable_commits id expected enabled now s detail s' :
  (∀ k, s.(rs_versions) !! k = None → s.(rs_selections) !! k = None) →
  set_automation_rule_enabled id expected enabled now s = Ret (detail, s') →
  ∃ r v, s.(rs_rules) !! id = Some r ∧ r.(rr_deleted) = false ∧ expected = r.(rr_current_version) ∧
    s.(rs_versions) !! (id, expected) = Some v ∧ is_definition v = true ∧
    (s' = s ∧ enabled = Some r.(rr_enabled) ∨
     ∃ r' v', commits s s' id r' v' ∧ enabled = Some r'.(rr_enabled) ∧ r'.(rr_deleted) = false ∧
       v'.(vr_kind) = v.(vr_kind) ∧
       v'.(vr_scope_mailbox_identity_key) = v.(vr_scope_mailbox_identity_key) ∧
       s'.(rs_selections) !! (id, r'.(rr_current_version)) =
         s.(rs_selections) !! (id, expected)).
Proof.
  intros Hsub. unfold set_automation_rule_enabled. intros Hp.
  apply bind_ret_inv in Hp as (en & Hen & Hp). apply require_some_ret_inv in Hen as ->.
  apply bind_ret_inv in Hp as (row & Hrow & Hp). apply require_some_ret_inv, live_row_inv in Hrow.
  destruct Hrow as (r & v & Hr & Hdel & Hv & ->). cbn [cr_rule cr_version cr_selection] in Hp.
  apply bind_ret_inv in Hp as (u & Hu & Hp). apply require_current_inv in Hu as (-> & Hsys).
  apply bind_ret_inv in Hp as ([encoded digest] & Hkind & Hp).
  assert (vr_kind v = VDefinition encoded digest) as Hk by (by peel; simplify_eq).
  apply bind_ret_inv in Hp as (d & _ & Hp).
  exists r, v. assert (is_definition v = true) by (unfold is_definition; by rewrite Hk).
  case_bool_decide as Hen.
  { peel. simplify_eq. split_and!; try done. by left. }
  apply bind_ret_inv in Hp as ([rev s1] & Hrev & Hp).
  apply next_revision_inv in Hrev as (n & Hn & -> & ->).
  apply bind_ret_inv in Hp as (s2 & Hv2 & Hp). apply insert_version_inv in Hv2 as (Hvok & Hf & ->).
  apply bind_ret_inv in Hp as (s3 & Hsel & Hp). injection Hp as <- <-.
  split_and!; try done. right.
  exists (mk_rule_row (rr_current_version r + 1) en (rr_system r) (rr_deleted r) (rr_created_at r)
    (isoformat (utc now))), (mk_version_row (VDefinition encoded digest) en
      (vr_scope_mailbox_identity_key v) (n + 1) (isoformat (utc now))).
  simpl in Hf, Hvok.
  assert (rs_revision s3 = Some (n + 1) ∧
    rs_rules s3 = <[id := mk_rule_row (rr_current_version r + 1) en (rr_system r) (rr_deleted r)
      (rr_created_at r) (isoformat (utc now))]> (rs_rules s) ∧
    rs_versions s3 = <[(id, rr_current_version r + 1) := mk_version_row (VDefinition encoded digest) en
      (vr_scope_mailbox_identity_key v) (n + 1) (isoformat (utc now))]> (rs_versions s) ∧
    rs_selections s3 = match rs_selections s !! (id, rr_current_version r) with
      | Some t => <[(id, rr_current_version r + 1) := t]> (rs_selections s)
      | None => rs_selections s end) as (Hs1 & Hs2 & Hs3 & Hs4).
  { destruct (rs_selections s !! (id, rr_current_version r)) as [t|].
    - by apply insert_selection_inv in Hsel as (_ & ->).
    - by injection Hsel as <-. }
  split_and!; [|done..|by rewrite Hk|done|].
  - split; simpl; try done.
    + eauto.
    + rewrite Hs4. destruct (rs_selections s !! _) as [t|]; [right; exists t; auto|by left].
    + by rewrite Hdel.
    + by rewrite Hr.
    + intros enc dig Heq. right. exists (rr_current_version r), v. by rewrite Hk.
  - simpl. rewrite Hs4. destruct (rs_selections s !! (id, rr_current_version r)) as [t|] eqn:E.
    + by rewrite lookup_insert_eq.
    + auto.
Qed.

Lemma delete_commits id expected now s version s' :
  delete_automation_rule id expected now s = Ret (version, s') →
  ∃ r v, commits s s' id r v ∧ r.(rr_deleted) = true ∧ r.(rr_enabled) = false ∧
    r.(rr_current_version) = version ∧ version = expected + 1.
Proof.
  unfold delete_automation_rule. intros Hp.
  apply bind_ret_inv in Hp as (r & Hr & Hp). apply require_some_ret_inv in Hr.
  destruct (rs_rules s !! id) as [r0|] eqn:Er; [|done]. cbn [mbind option_bind] in Hr.
  destruct (rr_deleted r0) eqn:Hdel; [done|]. injection Hr as ->.
  apply bind_ret_inv in Hp as (u & Hu & Hp). apply require_current_inv in Hu as (-> & Hsys).
  apply bind_ret_inv in Hp as ([rev s1] & Hrev & Hp).
  apply next_revision_inv in Hrev as (n & Hn & -> & ->).
  apply bind_ret_inv in Hp as (s2 & Hv2 & Hp). apply insert_version_inv in Hv2 as (Hvok & Hf & ->).
  injection Hp as <- <-.
  exists (mk_rule_row (rr_current_version r + 1) false (rr_system r) true (rr_created_at r)
    (isoformat (utc now))), (mk_version_row VDeleted false None (n + 1) (isoformat (utc now))).
  split_and!; try done. split; simpl; try done.
  - eauto.
  - by left.
  - by rewrite Er.
Qed.

(** ** The invariant *)

Record rules_inv (s : rule_store) : Prop := {
  (** the revisions 1..n are those of the stored versions, each of one version *)
  ri_revisions : ∃ n, s.(rs_revision) = Some n ∧ 0 <= n ∧
    ∀ rev, 1 <= rev <= n ↔ ∃ k v, s.(rs_versions) !! k = Some v ∧ v.(vr_global_revision) = rev;
  ri_unique : ∀ k k' v v', s.(rs_versions) !! k = Some v → s.(rs_versions) !! k' = Some v' →
    v.(vr_global_revision) = v'.(vr_global_revision) → k = k';
  (** the versions of a rule are 1..current, in the order of their revisions *)
  ri_versions : ∀ id version, is_Some (s.(rs_versions) !! (id, version)) ↔
    ∃ r, s.(rs_rules) !! id = Some r ∧ 1 <= version <= r.(rr_current_version);
  ri_order : ∀ id a b va vb, s.(rs_versions) !! (id, a) = Some va →
    s.(rs_versions) !! (id, b) = Some vb → a < b → va.(vr_global_revision) < vb.(vr_global_revision);
  (** the rule row agrees with its current version *)
  ri_current : ∀ id r, s.(rs_rules) !! id = Some r →
    ∃ v, s.(rs_versions) !! (id, r.(rr_current_version)) = Some v ∧
      v.(vr_enabled) = r.(rr_enabled) ∧ is_definition v = negb r.(rr_deleted);
  (** only the last version of a rule can be its deletion *)
  ri_past : ∀ id r version v, s.(rs_rules) !! id = Some r →
    s.(rs_versions) !! (id, version) = Some v → version < r.(rr_current_version) →
    is_definition v = true;
  ri_sound : ∀ k v encoded digest, s.(rs_versions) !! k = Some v →
    v.(vr_kind) = VDefinition encoded digest → sound_definition encoded digest;
  ri_selections : ∀ k, s.(rs_versions) !! k = None → s.(rs_selections) !! k = None;
  ri_live : (live_count s <= MAX_AUTOMATION_RULES)%nat;
  (** every version passed the checks of its table *)
  ri_checked : ∀ id version v, s.(rs_versions) !! (id, version) = Some v → version_row_ok id version v = true }.

Lemma empty_rules_inv accounts : rules_inv (empty_rule_store accounts).
Proof.
  split; simpl; try done.
  - exists 0. split_and!; try done. intros rev. split; [lia|]. intros (k & v & Hk & _). done.
  - intros id version. split; [by intros [? ?]|by intros (r & ? & _)].
  - unfold live_count. simpl. rewrite map_to_list_empty. simpl. lia.
Qed.

(** ** Counting live rules *)

Definition live (e : text * rule_row) : bool := negb e.2.(rr_deleted).

Lemma filter_perm_length {A} (f : A → bool) l l' :
  l ≡ₚ l' → length (List.filter f l) = length (List.filter f l').
Proof. induction 1; simpl; repeat case_match; simpl; congruence. Qed.

Definition count_live (m : gmap text rule_row) : nat := length (List.filter live (map_to_list m)).

Lemma count_live_insert id r m : m !! id = None →
  count_live (<[id := r]> m) = ((if rr_deleted r then 0 else 1) + count_live m)%nat.
Proof.
  intros Hm. unfold count_live. rewrite (filter_perm_length _ _ _ (map_to_list_insert m id r Hm)).
  simpl. unfold live at 1. simpl. by destruct (rr_deleted r).
Qed.

Lemma count_live_replace id r0 r m : m !! id = Some r0 → rr_deleted r0 = false →
  (count_live (<[id := r]> m) <= count_live m)%nat.
Proof.
  intros Hm Hd. rewrite <- (insert_delete_id m id r0) at 2 by done.
  rewrite <- (insert_delete_eq m id r).
  rewrite !count_live_insert by apply lookup_delete_eq. rewrite Hd. destruct (rr_deleted r); lia.
Qed.

Lemma commits_live s s' id r v : commits s s' id r v →
  (live_count s <= MAX_AUTOMATION_RULES)%nat → (live_count s' <= MAX_AUTOMATION_RULES)%nat.
Proof.
  intros Hc Hl. change (count_live (rs_rules s') <= MAX_AUTOMATION_RULES)%nat.
  change (count_live (rs_rules s) <= MAX_AUTOMATION_RULES)%nat in Hl.
  rewrite (cm_rules _ _ _ _ _ Hc). pose proof (cm_prior _ _ _ _ _ Hc) as Hp.
  destruct (rs_rules s !! id) as [r0|] eqn:E.
  - destruct Hp as (Hd & _). etrans; [by eapply count_live_replace|done].
  - destruct Hp as (_ & Hd & Hlt). rewrite count_live_insert, Hd by done.
    change (count_live (rs_rules s) < MAX_AUTOMATION_RULES)%nat in Hlt. lia.
Qed.

(** ** Every write preserves it *)

Lemma commits_inv s s' id r v : rules_inv s → commits s s' id r v → rules_inv s'.
Proof.
  intros Hinv Hc. pose proof Hinv as [(n & Hn & Hn0 & Hrev) Huniq Hver Hord Hcur Hpast Hsound Hsel Hlive Hchecked].
  pose proof Hc as [(n' & Hn1 & Hn2 & Hvrev) Hrules Hfresh Hvers Hsel' Hok Hen Hkind Hprior Hsnd].
  assert (n' = n) as -> by congruence.
  assert (∀ k v0, rs_versions s !! k = Some v0 → vr_global_revision v0 <= n) as Hmax.
  { intros k v0 Hk. enough (1 <= vr_global_revision v0 <= n) by lia. apply Hrev. eauto. }
  assert (1 <= rr_current_version r) as Hpos.
  { unfold version_row_ok in Hok. bools. lia. }
  assert (∀ version v0, rs_versions s !! (id, version) = Some v0 → version < rr_current_version r) as Hlow.
  { intros version v0 Hk. assert (is_Some (rs_versions s !! (id, version))) as Hs by eauto.
    apply Hver in Hs as (r0 & Hr0 & Hb). rewrite Hr0 in Hprior. lia. }
  split.
  - exists (n + 1). split_and!; [done|lia|]. intros rev. rewrite Hvers. split.
    + intros Hb. destruct (decide (rev = n + 1)) as [->|].
      * exists (id, rr_current_version r), v. by rewrite lookup_insert_eq.
      * destruct (proj1 (Hrev rev)) as (k & v0 & Hk & Hv0); [lia|]. exists k, v0.
        rewrite lookup_insert_ne; [done|]. intros <-. congruence.
    + intros (k & v0 & Hk & <-). apply lookup_insert_Some in Hk as [[<- <-]|[_ Hk]]; [lia|].
      pose proof (proj2 (Hrev (vr_global_revision v0))). assert (1 <= vr_global_revision v0 <= n); eauto. lia.
  - intros k k' v1 v2. rewrite Hvers. intros [[<- <-]|[_ Hk]]%lookup_insert_Some
      [[<- <-]|[_ Hk']]%lookup_insert_Some Heq; try done.
    + apply Hmax in Hk'. lia.
    + apply Hmax in Hk. lia.
    + by eapply Huniq.
  - intros i version. rewrite Hvers, Hrules. destruct (decide (i = id)) as [->|Hne].
    + rewrite lookup_insert_eq. split.
      * intros [v0 [[Ha _]|[_ Hk]]%lookup_insert_Some]; simplify_eq; exists r; (split; [done|]); [lia|].
        assert (is_Some (rs_versions s !! (id, version))) as (r0 & Hr0 & Hb)%Hver by eauto.
        apply Hlow in Hk. lia.
      * intros (r0 & [= <-] & Hb). destruct (decide (version = rr_current_version r)) as [->|].
        { rewrite lookup_insert_eq. eauto. }
        rewrite lookup_insert_ne by congruence. apply Hver.
        destruct (rs_rules s !! id) as [r0|]; [exists r0; split; [done|lia]|lia].
    + rewrite !lookup_insert_ne by congruence. apply Hver.
  - intros i a b va vb. rewrite Hvers. intros [[Ha <-]|[_ Hk]]%lookup_insert_Some
      [[Hb <-]|[_ Hk']]%lookup_insert_Some Hlt; simplify_eq; try lia.
    + apply Hlow in Hk'. lia.
    + apply Hmax in Hk. lia.
    + by eapply Hord.
  - intros i r1. rewrite Hrules, Hvers. intros [[<- <-]|[Hne Hr]]%lookup_insert_Some.
    + exists v. by rewrite lookup_insert_eq.
    + destruct (Hcur _ _ Hr) as (v0 & Hv0 & Hrest). exists v0.
      rewrite lookup_insert_ne by congruence. done.
  - intros i r1 version v0. rewrite Hrules, Hvers.
    intros [[<- <-]|[Hne Hr]]%lookup_insert_Some [[Ha <-]|[_ Hk]]%lookup_insert_Some Hlt;
      simplify_eq; try lia.
    + assert (is_Some (rs_versions s !! (id, version))) as (r0 & Hr0 & Hb)%Hver by eauto.
      rewrite Hr0 in Hprior. destruct Hprior as (Hd0 & _ & Hcv & _).
      destruct (decide (version = rr_current_version r0)) as [->|].
      * destruct (Hcur _ _ Hr0) as (v1 & Hv1 & _ & Hdef). rewrite Hd0 in Hdef. simpl in Hdef. congruence.
      * eapply Hpast; [done|done|lia].
    + by eapply Hpast.
  - intros k v0 enc dig. rewrite Hvers. intros [[<- <-]|[_ Hk]]%lookup_insert_Some Hkd; [|by eapply Hsound].
    destruct (Hsnd _ _ Hkd) as [|(version & v1 & Hk & Hkk)]; [done|].
    eapply Hsound; [done|]. by rewrite Hkk.
  - intros k. rewrite Hvers. intros [Hk Hne]%lookup_insert_None.
    destruct Hsel' as [->|(t & _ & ->)]; [auto|]. rewrite lookup_insert_ne by done. auto.
  - by eapply commits_live.
  - intros i version v0. rewrite Hvers. intros [[E <-]|[_ Hk]]%lookup_insert_Some; [by injection E as <- <-|].
    by apply Hchecked.
Qed.

(** ** Reachable stores *)

Inductive rule_step (s : rule_store) : rule_store → Prop :=
| step_put definition rule_id expected identity selection now fresh detail s' :
    argument_ok definition →
    put_automation_rule definition rule_id expected identity selection now fresh s = Ret (detail, s') →
    rule_step s s'
| step_enable rule_id expected enabled now detail s' :
    set_automation_rule_enabled rule_id expected enabled now s = Ret (detail, s') →
    rule_step s s'
| step_delete rule_id expected now version s' :
    delete_automation_rule rule_id expected now s = Ret (version, s') →
    rule_step s s'
| step_accounts accounts :
    rule_step s (mk_rule_store s.(rs_revision) s.(rs_rules) s.(rs_versions) s.(rs_selections) accounts).

Definition rule_reachable (s : rule_store) : Prop :=
  ∃ accounts, rtc rule_step (empty_rule_store accounts) s.

Definition same_tables (s s' : rule_store) : Prop :=
  s'.(rs_revision) = s.(rs_revision) ∧ s'.(rs_rules) = s.(rs_rules) ∧
  s'.(rs_versions) = s.(rs_versions) ∧ s'.(rs_selections) = s.(rs_selections).

(** A step writes one version or none. *)
Lemma step_commits s s' : rules_inv s → rule_step s s' →
  same_tables s s' ∨ ∃ id r v, commits s s' id r v.
Proof.
  intros Hinv [definition rule_id expected identity selection now fresh detail s1 Harg Hp
    |id expected enabled now detail s1 Hp|id expected now version s1 Hp|accounts].
  - right. apply put_commits in Hp as (id & r & v & Hc & _); eauto.
  - apply enable_commits in Hp as (r & v & _ & _ & _ & _ & _ & [[-> _]|(r' & v' & Hc & _)]);
      [by left| |apply Hinv]. right. eauto.
  - right. apply delete_commits in Hp as (r & v & Hc & _). eauto.
  - by left.
Qed.

Lemma same_tables_inv s s' : rules_inv s → same_tables s s' → rules_inv s'.
Proof.
  intros [] (E1 & E2 & E3 & E4). split; unfold live_count; rewrite ?E1, ?E2, ?E3, ?E4; done.
Qed.

Lemma rule_step_inv s s' : rules_inv s → rule_step s s' → rules_inv s'.
Proof.
  intros Hinv Hs. destruct (step_commits _ _ Hinv Hs) as [Hsame|(id & r & v & Hc)].
  - by eapply same_tables_inv.
  - by eapply commits_inv.
Qed.

Lemma steps_inv s s' : rules_inv s → rtc rule_step s s' → rules_inv s'.
Proof. intros Hinv Hs. induction Hs as [|s s1 s2 H1s _ IH]; [done|]. by eapply IH, rule_step_inv. Qed.

(** What a rule keeps: its row may only move forward, and not at all once deleted. *)
Definition row_extends (r r' : rule_row) : Prop :=
  r.(rr_current_version) <= r'.(rr_current_version) ∧ r'.(rr_created_at) = r.(rr_created_at) ∧
  (r.(rr_deleted) = true → r' = r) ∧ (r.(rr_current_version) = r'.(rr_current_version) → r' = r).

Definition store_extends (s s' : rule_store) : Prop :=
  s.(rs_versions) ⊆ s'.(rs_versions) ∧ s.(rs_selections) ⊆ s'.(rs_selections) ∧
  (∀ id r, s.(rs_rules) !! id = Some r → ∃ r', s'.(rs_rules) !! id = Some r' ∧ row_extends r r').

Lemma store_extends_refl s : store_extends s s.
Proof. split_and!; [done|done|]. intros id r Hr. exists r. unfold row_extends. auto with lia. Qed.

Lemma store_extends_trans s1 s2 s3 :
  store_extends s1 s2 → store_extends s2 s3 → store_extends s1 s3.
Proof.
  intros (V1 & S1 & R1) (V2 & S2 & R2). split_and!; [by etrans|by etrans|].
  intros id r Hr. destruct (R1 _ _ Hr) as (r1 & Hr1 & A1 & B1 & C1 & D1).
  destruct (R2 _ _ Hr1) as (r2 & Hr2 & A2 & B2 & C2 & D2). exists r2. split; [done|].
  split_and!; [lia|congruence| |].
  - intros Hd. specialize (C1 Hd) as ->. auto.
  - intros Heq. rewrite D2 by lia. apply D1. lia.
Qed.

Lemma commits_extends s s' id r v : commits s s' id r v → store_extends s s'.
Proof.
  intros [_ Hrules Hfresh Hvers Hsel _ _ _ Hprior _]. split_and!.
  - rewrite Hvers. by apply insert_subseteq.
  - destruct Hsel as [->|(t & Hn & ->)]; [done|by apply insert_subseteq].
  - intros i r0 Hr0. rewrite Hrules. destruct (decide (i = id)) as [->|].
    + exists r. rewrite lookup_insert_eq. rewrite Hr0 in Hprior. destruct Hprior as (Hd & _ & Hv & Hcr).
      split; [done|]. split_and!; [lia|done|congruence|lia].
    + exists r0. rewrite lookup_insert_ne by done. split; [done|]. unfold row_extends. auto with lia.
Qed.

Lemma step_extends s s' : rules_inv s → rule_step s s' → store_extends s s'.
Proof.
  intros Hinv Hs. destruct (step_commits _ _ Hinv Hs) as [(_ & E2 & E3 & E4)|(id & r & v & Hc)].
  - unfold store_extends. rewrite E2, E3, E4. apply store_extends_refl.
  - by eapply commits_extends.
Qed.

Lemma steps_extend s s' : rules_inv s → rtc rule_step s s' → store_extends s s'.
Proof.
  intros Hinv Hs. induction Hs as [|s s1 s2 H1s _ IH]; [apply store_extends_refl|].
  eapply store_extends_trans; [by apply step_extends|]. by eapply IH, rule_step_inv.
Qed.

Lemma reachable_rules_inv s : rule_reachable s → rules_inv s.
Proof. intros [accounts Hr]. eapply steps_inv; [apply empty_rules_inv|done]. Qed.

(** ** Reading back *)

Lemma sound_reads encoded digest : sound_definition encoded digest →
  ∃ d, definition_ok d = true ∧ canonical_rule_definition d = Ret encoded ∧
    decode_definition encoded digest = Ret d ∧
    JsonParse.loads_bytes encoded ≫= parse_rule_definition = Ret d ∧
    digest = Sha256.hexdigest encoded.
Proof.
  intros (d & Hok & Hk & Hc & ->). exists (sorted_definition d).
  split_and!; [by rewrite definition_ok_sorted|by rewrite canonical_sorted| | |done].
  - by apply decode_canonical.
  - rewrite (loads_canonical d) by done. cbn [mbind py_bind]. by rewrite parse_canon.
Qed.

Lemma insert_current_perm x l : insert_current x l ≡ₚ x :: l.
Proof.
  induction l as [|y l IH]; simpl; [done|]. case_match; [done|]. rewrite IH. apply Permutation_swap.
Qed.

Lemma current_rows_elem keep s row : row ∈ current_rows keep s ↔
  keep row = true ∧ current_version_row s row.(cr_rule_id) = Some row.
Proof.
  unfold current_rows.
  assert (∀ l, foldr insert_current [] l ≡ₚ l) as Hperm.
  { induction l as [|x l IH]; simpl; [done|]. by rewrite insert_current_perm, IH. }
  rewrite Hperm, elem_of_filter_b, list_elem_of_omap.
  assert (∀ id, current_version_row s id = Some row → cr_rule_id row = id ∧ is_Some (rs_rules s !! id)) as Hid.
  { intros id. unfold current_version_row. intros Hr.
    apply bind_Some in Hr as (r & Er & Hr). apply bind_Some in Hr as (v & Ev & Hr).
    injection Hr as <-. simpl. eauto. }
  split.
  - intros [(id & _ & Hr) Hk]. split; [done|]. by destruct (Hid id Hr) as [-> _].
  - intros [Hk Hr]. split; [|done]. exists (cr_rule_id row). split; [|done].
    destruct (Hid _ Hr) as [_ [r Er]]. apply list_elem_of_fmap. exists (cr_rule_id row, r).
    split; [done|]. by apply elem_of_map_to_list.
Qed.

(** The rule a row is loaded as, once its definition is read. *)
Definition loaded (row : current_row) (d : RuleDefinition) : MatchRule :=
  mk_match_rule row.(cr_rule_id) row.(cr_rule).(rr_current_version)
    row.(cr_version).(vr_scope_mailbox_identity_key) d.

Lemma load_match_rules_all rows :
  Forall (λ row, ∃ d, read_stored row.(cr_version) = Ret d) rows →
  ∃ rules, load_match_rules rows = Ret rules ∧
    Forall2 (λ row rule, ∃ d, read_stored row.(cr_version) = Ret d ∧ rule = loaded row d) rows rules.
Proof.
  induction 1 as [|row rows [d Hd] _ (rules & Hr & Hall)]; simpl; [by exists []|].
  rewrite Hd, Hr. simpl. eexists. split; [done|]. constructor; [|done]. eauto.
Qed.

(** ** The exact outcome of a put *)

Lemma sql_length_plain t : Forall (λ c, c ≠ 0%N) t → sql_length t = length t.
Proof. induction 1 as [|c t Hc _ IH]; simpl; [done|]. by rewrite decide_False, IH. Qed.

Lemma digest_sql_length data : sql_length (Sha256.hexdigest data) = 64%nat.
Proof.
  rewrite sql_length_plain; [apply hexdigest_length|]. unfold Sha256.hexdigest.
  induction (Sha256.digest data) as [|b l IH]; simpl; [constructor|].
  assert (∀ d, Sha256.hex_digit d ≠ 0%N) as Hh by (intros d; unfold Sha256.hex_digit; case_match; lia).
  repeat (constructor; [apply Hh|]). done.
Qed.

Lemma uuid_length t : uuid4_text t = true → length t = 36%nat ∧ sql_length t = 36%nat.
Proof.
  unfold uuid4_text. intros Hu. bools. split; [done|].
  assert (∀ c, c ∈ t → c ≠ 0%N) as Hz.
  { intros c Hc. apply list_elem_of_lookup in Hc as [i Hi].
    match goal with Hf : forallb _ _ = true |- _ => rewrite forallb_elem in Hf;
      specialize (Hf i) end.
    assert (i < 36)%nat by (apply lookup_lt_Some in Hi; lia).
    rewrite Hi in *. intros ->.
    match goal with Hf : _ → _ = true |- _ => specialize (Hf ltac:(apply elem_of_seq; lia)) end.
    match goal with Hf : (if _ then _ else _) = true |- _ =>
      repeat match type of Hf with (if ?b then _ else _) = _ => destruct b end;
      vm_compute in Hf; discriminate end. }
  rewrite sql_length_plain; [done|]. by apply list.Forall_forall.
Qed.

Lemma canonical_nonempty d raw : canonical_rule_definition d = Ret raw →
  1 <= Z.of_nat (length raw) <= 16384.
Proof.
  intros Hc. apply canonical_encoded in Hc as [He Hl]. split.
  - unfold model_dump in He. rewrite dumps_obj in He.
    apply ascii_first in He as (raw' & -> & _); [|done]. simpl. lia.
  - change 16384 with (Z.of_nat MAX_RULE_DEFINITION_BYTES). lia.
Qed.

Lemma revision_fresh s n : rules_inv s → s.(rs_revision) = Some n →
  revision_used (n + 1) s.(rs_versions) = false.
Proof.
  intros Hinv Hn. apply existsb_false. intros [k v] Hk. apply elem_of_map_to_list in Hk.
  destruct (ri_revisions _ Hinv) as (n' & Hn' & _ & Hrev). assert (n' = n) as -> by congruence.
  assert (1 <= vr_global_revision v <= n) by (apply Hrev; eauto). simpl. lia.
Qed.

Lemma version_fresh s id version : rules_inv s →
  match s.(rs_rules) !! id with Some r => r.(rr_current_version) < version | None => True end →
  s.(rs_versions) !! (id, version) = None.
Proof.
  intros Hinv Hv. destruct (s.(rs_versions) !! (id, version)) as [v|] eqn:E; [|done].
  assert (is_Some (s.(rs_versions) !! (id, version))) as Hs by eauto.
  apply (ri_versions _ Hinv) in Hs as (r & Hr & Hb). rewrite Hr in Hv. lia.
Qed.

(** The detail a reader is given of a readable rule without a selection. *)
Definition detail_of (id : text) (r : rule_row) (d : RuleDefinition) : AutomationRuleDetail :=
  mk_detail (mk_summary id r.(rr_current_version) r.(rr_enabled) r.(rr_system) true
               (Some d.(rd_name)) None r.(rr_created_at) r.(rr_updated_at))
    (Some (model_dump d)) None.

(** The row a put leaves, the version it wrote and the set's revision. *)
Definition put_result (s : rule_store) (id stamp : text) (d : RuleDefinition) (encoded : bytes)
    (scope : option text) (r : rule_row) : py (py AutomationRuleDetail * rule_store) :=
  let n := default 0 s.(rs_revision) + 1 in
  let v := mk_version_row (VDefinition encoded (Sha256.hexdigest encoded)) r.(rr_enabled) scope n stamp in
  Ret (Ret (detail_of id r (sorted_definition d)),
       mk_rule_store (Some n) (<[id := r]> s.(rs_rules))
         (<[(id, r.(rr_current_version)) := v]> s.(rs_versions)) s.(rs_selections)
         s.(rs_mail_accounts)).

Lemma put_finish s id stamp d encoded scope r : rules_inv s → uuid4_text id = true →
  definition_ok d = true → one_per_key d → canonical_rule_definition d = Ret encoded →
  match scope with Some key => sql_length key = 64%nat | None => True end →
  1 <= r.(rr_current_version) → r.(rr_deleted) = false →
  s.(rs_versions) !! (id, r.(rr_current_version)) = None →
  let n := default 0 s.(rs_revision) + 1 in
  let v := mk_version_row (VDefinition encoded (Sha256.hexdigest encoded)) r.(rr_enabled) scope n stamp in
  insert_version id r.(rr_current_version) v
    (write_rule id r (mk_rule_store (Some n) s.(rs_rules) s.(rs_versions) s.(rs_selections)
       s.(rs_mail_accounts))) ≫= (fun s' => Ret (automation_rule s' id, s'))
  = put_result s id stamp d encoded scope r.
Proof.
  intros Hinv Hu Hok Hk Hc Hscope Hpos Hdel Hfresh n v.
  pose proof (uuid_length _ Hu) as [_ Hid]. pose proof (canonical_nonempty _ _ Hc) as Hlen.
  destruct (ri_revisions _ Hinv) as (n0 & Hn0 & Hn1 & _).
  assert (n = n0 + 1) as Hn by (unfold n; by rewrite Hn0).
  assert (version_row_ok id (rr_current_version r) v = true) as Hvok.
  { unfold version_row_ok, v. simpl. rewrite Hid, digest_sql_length.
    rewrite !bool_decide_eq_true_2 by done. simpl.
    assert ((1 <=? rr_current_version r) = true) as -> by lia.
    assert ((1 <=? Z.of_nat (length encoded)) = true) as -> by lia.
    assert ((Z.of_nat (length encoded) <=? 16384) = true) as -> by lia.
    assert ((1 <=? n) = true) as -> by lia. simpl.
    destruct scope; [|done]. by rewrite bool_decide_eq_true_2. }
  unfold insert_version. rewrite Hvok. cbn [mbind py_bind require].
  replace (rs_versions (write_rule _ _ _)) with (rs_versions s) by done.
  rewrite Hfresh. replace (vr_global_revision v) with (n0 + 1) by done.
  rewrite revision_fresh by done. cbn [mbind py_bind require is_none negb].
  unfold put_result. do 2 f_equal. unfold automation_rule, live_row, current_version_row. simpl.
  rewrite lookup_insert_eq. simpl. rewrite lookup_insert_eq. simpl. rewrite Hdel. simpl.
  rewrite (ri_selections _ Hinv _ Hfresh).
  unfold _automation_rule_detail. simpl. unfold read_stored. simpl.
  rewrite (decode_canonical d) by done. done.
Qed.

(** The exact outcome of putting an acceptable definition (the strict model and the
    size bound pass, the identifier is a UUIDv4, the mailbox identity is the current
    one) without a selection, in a reachable store.  An unknown rule is created at
    version 1, unless a version was expected or a hundred rules are live; a deleted
    rule is not found; a wrong or missing expected version is stale; a system rule is
    protected; otherwise the rule moves to the next version and keeps its switch.  A
    success takes the next revision, stores the canonical bytes with their digest, and
    answers with the definition read back. *)
Theorem put_rule_exact s definition rule_id expected identity now fresh d encoded scope :
  rule_reachable s → argument_ok definition →
  parse_argument definition = Ret d → canonical_rule_definition d = Ret encoded →
  let id := match rule_id with Some i => if truthy i then i else fresh | None => fresh end in
  uuid4_text id = true →
  _automation_rule_scope_identity s d identity = Ret scope →
  match scope with Some key => sql_length key = 64%nat | None => True end →
  let stamp := isoformat (utc now) in
  put_automation_rule definition rule_id expected identity None now fresh s =
    match s.(rs_rules) !! id with
    | None =>
        if is_some expected then Raise (AutomationRuleNotFound id)
        else if bool_decide (MAX_AUTOMATION_RULES <= live_count s)%nat
        then Raise (AutomationRuleLimitExceeded "automation rule limit exceeded")
        else put_result s id stamp d encoded scope (mk_rule_row 1 true false false stamp stamp)
    | Some r =>
        if r.(rr_deleted) then Raise (AutomationRuleNotFound id)
        else if negb (bool_decide (expected = Some r.(rr_current_version)))
        then Raise (AutomationRuleStale "automation rule version is stale")
        else if r.(rr_system)
        then Raise (AutomationRuleSystemProtected "system automation rule is protected")
        else put_result s id stamp d encoded scope
               (mk_rule_row (r.(rr_current_version) + 1) r.(rr_enabled) r.(rr_system) r.(rr_deleted)
                  r.(rr_created_at) stamp)
    end.
Proof.
  intros Hreach Harg Hd Hc id Hu Hs Hkey stamp.
  pose proof (reachable_rules_inv _ Hreach) as Hinv.
  pose proof (parse_argument_ok _ _ Harg Hd) as [Hok Hk].
  destruct (ri_revisions _ Hinv) as (n & Hn & _).
  unfold put_automation_rule. rewrite Hd. cbn [mbind py_bind]. rewrite Hc. cbn [mbind py_bind].
  fold id. fold stamp. rewrite Hu. cbn [mbind py_bind require]. rewrite Hs. cbn [mbind py_bind].
  unfold put_rule_row. destruct (rs_rules s !! id) as [r|] eqn:Er.
  - destruct (rr_deleted r) eqn:Hdel; [done|]. cbn [negb require mbind py_bind].
    case_bool_decide as He; [|done]. cbn [negb require mbind py_bind].
    destruct (rr_system r) eqn:Hsys; [done|]. cbn [negb require mbind py_bind].
    unfold _next_automation_rules_revision. rewrite Hn. cbn [require_some mbind py_bind].
    rewrite <- (put_finish s id stamp d encoded scope (mk_rule_row (rr_current_version r + 1)
      (rr_enabled r) false false (rr_created_at r) stamp)) by
      (try done; try (apply version_fresh; [done|]; rewrite Er; simpl; lia);
       destruct (ri_current _ Hinv _ _ Er) as (v & Hv & _);
       assert (is_Some (s.(rs_versions) !! (id, rr_current_version r))) as (r1 & Hr1 & Hb)%(ri_versions _ Hinv)
         by eauto; simpl; rewrite Er in Hr1; simplify_eq; lia).
    rewrite Hn. cbn [rr_current_version rr_enabled default].
    destruct (insert_version _ _ _ _); done.
  - destruct expected; [done|]. cbn [is_some is_none negb require mbind py_bind].
    unfold require_automation_rule_create_capacity. destruct (bool_decide (MAX_AUTOMATION_RULES <= live_count s)%nat); [done|].
    cbn [negb require mbind py_bind]. unfold _next_automation_rules_revision. rewrite Hn.
    cbn [require_some mbind py_bind].
    rewrite (proj2 (uuid_length _ Hu)), bool_decide_eq_true_2 by done.
    cbn [negb require mbind py_bind].
    rewrite <- (put_finish s id stamp d encoded scope (mk_rule_row 1 true false false stamp stamp)) by
      (try done; try (simpl; lia); try (apply version_fresh; [done|by rewrite Er])).
    rewrite Hn. cbn [rr_current_version rr_enabled default].
    destruct (insert_version _ _ _ _); done.
Qed.

(** C30: Every reachable store satisfies the invariant of the versioned rule set: the
    versions of each rule are numbered 1 to the current one without gaps and in the
    order of their revisions, the revisions 1..n of the set name one version each, the
    rule row agrees with its current version, only a last version is a deletion, every
    stored definition was accepted, and at most a hundred rules are live.  Whatever
    writes follow, versions and selections already stored are never changed or removed,
    and a deleted rule's row stays as the deletion left it. *)
Theorem rule_history_immutable s s' :
  rule_reachable s → rtc rule_step s s' → rules_inv s ∧ rules_inv s' ∧ store_extends s s'.
Proof.
  intros Hr Hs. pose proof (reachable_rules_inv _ Hr) as Hinv. split; [done|].
  split; [by eapply steps_inv|by apply steps_extend].
Qed.

(** A write accepted for rule [id] by a caller that expected version [e]. *)
Definition accepted (id : text) (e : Z) (s s' : rule_store) : Prop :=
  (∃ definition identity selection now fresh detail, argument_ok definition ∧ id ≠ [] ∧
    put_automation_rule definition (Some id) (Some e) identity selection now fresh s = Ret (detail, s')) ∨
  (∃ enabled now detail, s' ≠ s ∧ set_automation_rule_enabled id e enabled now s = Ret (detail, s')) ∨
  (∃ now version, delete_automation_rule id e now s = Ret (version, s')).

Lemma put_expects definition id e identity selection now fresh s : id ≠ [] →
  is_ret (put_automation_rule definition (Some id) (Some e) identity selection now fresh s) = true →
  ∃ r, s.(rs_rules) !! id = Some r ∧ r.(rr_current_version) = e.
Proof.
  intros Hid. destruct (put_automation_rule _ _ _ _ _ _ _ _) as [[detail s']|] eqn:Hp; [|done].
  intros _. unfold put_automation_rule in Hp.
  rewrite (bool_decide_eq_true_2 _ Hid : truthy id = true) in Hp.
  do 4 (apply bind_ret_inv in Hp as (? & _ & Hp)).
  apply bind_ret_inv in Hp as (out & Hrow & _). unfold put_rule_row in Hrow.
  destruct (rs_rules s !! id) as [r|]; [|done]. exists r. split; [done|].
  apply bind_ret_inv in Hrow as (u & _ & Hrow). apply bind_ret_inv in Hrow as (u' & He & _).
  apply require_ret_inv in He. bools. congruence.
Qed.

Lemma enable_expects id e enabled now s :
  is_ret (set_automation_rule_enabled id e enabled now s) = true →
  ∃ r, s.(rs_rules) !! id = Some r ∧ r.(rr_current_version) = e.
Proof.
  destruct (set_automation_rule_enabled _ _ _ _ _) as [[detail s']|] eqn:Hp; [|done]. intros _.
  unfold set_automation_rule_enabled in Hp. apply bind_ret_inv in Hp as (en & _ & Hp).
  apply bind_ret_inv in Hp as (row & Hrow & Hp).
  apply require_some_ret_inv, live_row_inv in Hrow as (r & v & Hr & _ & _ & ->).
  apply bind_ret_inv in Hp as (u & Hu & _). apply require_current_inv in Hu as (-> & _). eauto.
Qed.

Lemma delete_expects id e now s : is_ret (delete_automation_rule id e now s) = true →
  ∃ r, s.(rs_rules) !! id = Some r ∧ r.(rr_current_version) = e.
Proof.
  destruct (delete_automation_rule _ _ _ _) as [[detail s']|] eqn:Hp; [|done]. intros _.
  unfold delete_automation_rule in Hp. apply bind_ret_inv in Hp as (r & Hr & Hp).
  apply require_some_ret_inv in Hr. destruct (rs_rules s !! id) as [r0|]; [|done].
  cbn [mbind option_bind] in Hr. destruct (rr_deleted r0); [done|]. injection Hr as ->.
  apply bind_ret_inv in Hp as (u & Hu & _). apply require_current_inv in Hu as (-> & _). eauto.
Qed.

Lemma put_identity definition id e identity selection now fresh s detail s' id' r v :
  id ≠ [] → put_automation_rule definition (Some id) (Some e) identity selection now fresh s
    = Ret (detail, s') → commits s s' id' r v → is_Some (s.(rs_rules) !! id) → id' = id.
Proof.
  intros Hid Hp Hc [r0 Hr0]. unfold put_automation_rule in Hp.
  rewrite (bool_decide_eq_true_2 _ Hid : truthy id = true) in Hp.
  do 4 (apply bind_ret_inv in Hp as (? & _ & Hp)).
  apply bind_ret_inv in Hp as ([[[version en] rev] s1] & Hrow & Hp).
  unfold put_rule_row in Hrow. rewrite Hr0 in Hrow.
  do 3 (apply bind_ret_inv in Hrow as (? & _ & Hrow)).
  apply bind_ret_inv in Hrow as ([rev' s2] & Hn & Hrow). injection Hrow as <- <- <- <-.
  apply next_revision_inv in Hn as (n & Hn & -> & ->).
  apply bind_ret_inv in Hp as (s3 & Hv & Hp). apply insert_version_inv in Hv as (_ & Hf & ->).
  apply bind_ret_inv in Hp as (s4 & Hsel & Hp). injection Hp as _ <-.
  assert (rs_versions s4 !! (id, rr_current_version r0 + 1) ≠ None) as Hin.
  { unfold put_selection in Hsel. destruct selection.
    - peel. apply insert_selection_inv in Hsel as (_ & ->). simpl. by rewrite lookup_insert_eq.
    - injection Hsel as <-. simpl. by rewrite lookup_insert_eq. }
  rewrite (cm_versions _ _ _ _ _ Hc) in Hin. simpl in Hf.
  destruct (decide (id' = id)) as [|Hne]; [done|].
  rewrite lookup_insert_ne in Hin by congruence. done.
Qed.

(** An accepted write moves the rule past the version its caller expected. *)
Lemma accepted_advances id e s s' : rules_inv s → accepted id e s s' →
  rule_step s s' ∧ ∃ r, s'.(rs_rules) !! id = Some r ∧ e < r.(rr_current_version).
Proof.
  assert (∀ r v r0, commits s s' id r v → s.(rs_rules) !! id = Some r0 → rr_current_version r0 = e →
    ∃ r, s'.(rs_rules) !! id = Some r ∧ e < r.(rr_current_version)) as Hgo.
  { intros r v r0 Hc Hr0 <-. exists r. rewrite (cm_rules _ _ _ _ _ Hc), lookup_insert_eq.
    pose proof (cm_prior _ _ _ _ _ Hc) as Hp. rewrite Hr0 in Hp. split; [done|lia]. }
  intros Hinv [(definition & identity & selection & now & fresh & detail & Harg & Hid & Hp)
    |[(enabled & now & detail & Hne & Hp)|(now & version & Hp)]].
  - split; [by eapply step_put|].
    destruct (put_expects definition id e identity selection now fresh s Hid) as (r0 & Hr0 & He);
      [by rewrite Hp|].
    pose proof (put_commits _ _ _ _ _ _ _ _ _ _ Harg Hp) as (id' & r & v & Hc & _).
    assert (id' = id) as -> by (by eapply put_identity). by eapply Hgo.
  - split; [by eapply step_enable|].
    destruct (enable_expects id e enabled now s) as (r0 & Hr0 & He); [by rewrite Hp|].
    apply enable_commits in Hp as (r & v & _ & _ & _ & _ & _ & [[Heq _]|(r' & v' & Hc & _)]);
      [done|by eapply Hgo|apply Hinv].
  - split; [by eapply step_delete|].
    destruct (delete_expects id e now s) as (r0 & Hr0 & He); [by rewrite Hp|].
    apply delete_commits in Hp as (r & v & Hc & _). by eapply Hgo.
Qed.

(** Optimistic concurrency: once a write of a rule is accepted from a caller that
    expected version [e], every later put, switch or deletion of that rule that still
    expects [e] raises, at whatever point of the following history it arrives. *)
Theorem stale_rule_writes_fail s s1 s2 id e :
  rule_reachable s → accepted id e s s1 → rtc rule_step s1 s2 →
  (∀ definition identity selection now fresh, id ≠ [] →
    is_ret (put_automation_rule definition (Some id) (Some e) identity selection now fresh s2) = false) ∧
  (∀ enabled now, is_ret (set_automation_rule_enabled id e enabled now s2) = false) ∧
  (∀ now, is_ret (delete_automation_rule id e now s2) = false).
Proof.
  intros Hr Ha Hs. pose proof (reachable_rules_inv _ Hr) as Hinv.
  destruct (accepted_advances _ _ _ _ Hinv Ha) as (Hstep & r & Hrow & Hlt).
  pose proof (rule_step_inv _ _ Hinv Hstep) as Hinv1.
  destruct (steps_extend _ _ Hinv1 Hs) as (_ & _ & Hext).
  destruct (Hext _ _ Hrow) as (r2 & Hr2 & Hle & _).
  assert ((∃ r, s2.(rs_rules) !! id = Some r ∧ rr_current_version r = e) → False) as Hno.
  { intros (r3 & Hr3 & <-). rewrite Hr2 in Hr3. simplify_eq. lia. }
  split_and!; intros; apply not_true_is_false; intros Hret; apply Hno.
  - by eapply put_expects.
  - by eapply enable_expects.
  - by eapply delete_expects.
Qed.

Lemma current_rows_nodup keep s : NoDup (cr_rule_id <$> current_rows keep s).
Proof.
  unfold current_rows.
  assert (∀ l, foldr insert_current [] l ≡ₚ l) as Hperm.
  { induction l as [|x l IH]; simpl; [done|]. by rewrite insert_current_perm, IH. }
  rewrite Hperm. pose proof (NoDup_fst_map_to_list s.(rs_rules)) as Hn. revert Hn.
  generalize (map_to_list s.(rs_rules)).*1. intros l Hn.
  assert (∀ row id, current_version_row s id = Some row → cr_rule_id row = id) as Hid.
  { intros row id. unfold current_version_row. intros Hr.
    apply bind_Some in Hr as (r & Er & Hr). apply bind_Some in Hr as (v & Ev & Hr). by injection Hr as <-. }
  induction Hn as [|id l Hid' Hn IH]; simpl; [constructor|].
  destruct (current_version_row s id) as [row|] eqn:E; simpl; [|done].
  destruct (keep row); [|done]. simpl. constructor; [|done].
  rewrite list_elem_of_fmap. intros (row' & E1 & [Hin _]%elem_of_filter_b).
  apply list_elem_of_omap in Hin as (id' & Hin & E'). apply Hid in E, E'. congruence.
Qed.

Lemma loaded_ids rows rules :
  Forall2 (λ row rule, ∃ d, read_stored row.(cr_version) = Ret d ∧ rule = loaded row d) rows rules →
  cr_rule_id <$> rows = mr_rule_id <$> rules.
Proof. induction 1 as [|row rule rows rules (d & _ & ->) _ IH]; [done|]. by rewrite !fmap_cons, IH. Qed.

(** The current rules load, each once. *)
Lemma current_rules_loaded s :
  rules_inv s →
  ∃ rules, _current_match_rules s = Ret rules ∧ Forall valid_rule rules ∧ NoDup (mr_rule_id <$> rules) ∧
    (∀ rule, rule ∈ rules → is_ret (canonical_rule_definition rule.(mr_definition)) = true) ∧
    ∀ id version scope encoded,
      (∃ rule, rule ∈ rules ∧ rule.(mr_rule_id) = id ∧ rule.(mr_version) = version ∧
        rule.(mr_scope_mailbox_identity_key) = scope ∧
        canonical_rule_definition rule.(mr_definition) = Ret encoded) ↔
      (∃ r v, s.(rs_rules) !! id = Some r ∧ r.(rr_deleted) = false ∧ r.(rr_enabled) = true ∧
        r.(rr_current_version) = version ∧ s.(rs_versions) !! (id, version) = Some v ∧
        v.(vr_scope_mailbox_identity_key) = scope ∧
        v.(vr_kind) = VDefinition encoded (Sha256.hexdigest encoded)).
Proof.
  intros Hinv. unfold _current_match_rules.
  set (rows := current_rows _ s).
  assert (∀ row, row ∈ rows ↔ ∃ r v, s.(rs_rules) !! row.(cr_rule_id) = Some r ∧
    r.(rr_deleted) = false ∧ r.(rr_enabled) = true ∧
    s.(rs_versions) !! (row.(cr_rule_id), r.(rr_current_version)) = Some v ∧ is_definition v = true ∧
    row = mk_current row.(cr_rule_id) r v (s.(rs_selections) !! (row.(cr_rule_id), r.(rr_current_version)))) as Hrows.
  { intros row. unfold rows. rewrite current_rows_elem. split.
    - intros [Hk Hcur]. unfold current_version_row in Hcur.
      apply bind_Some in Hcur as (r & Er & Hcur). apply bind_Some in Hcur as (v & Ev & Hcur).
      injection Hcur as Hrow. rewrite <- Hrow in Hk. simpl in Hk. bools. exists r, v. by split_and!.
    - intros (r & v & Er & Hd & He & Ev & Hdef & Hrow). split.
      + rewrite Hrow. simpl. by rewrite Hd, He, Hdef.
      + unfold current_version_row. rewrite Er. simpl. rewrite Ev. simpl. by rewrite <- Hrow. }
  assert (∀ row, row ∈ rows → ∃ d encoded, row.(cr_version).(vr_kind) =
    VDefinition encoded (Sha256.hexdigest encoded) ∧ definition_ok d = true ∧
    canonical_rule_definition d = Ret encoded ∧ read_stored row.(cr_version) = Ret d) as Hread.
  { intros row (r & v & Er & Hd & He & Ev & Hdef & ->)%Hrows. simpl. unfold is_definition in Hdef.
    destruct (vr_kind v) as [encoded digest|] eqn:Hk; [|done].
    destruct (sound_reads _ _ (ri_sound _ Hinv _ _ _ _ Ev Hk)) as (d & Hok & Hc & Hdec & _ & ->).
    exists d, encoded. unfold read_stored. by rewrite Hk. }
  destruct (load_match_rules_all rows) as (rules & Hl & Hall).
  { apply list.Forall_forall. intros row Hrow. destruct (Hread row Hrow) as (d & ? & _ & _ & _ & ?). eauto. }
  exists rules. split; [done|]. clear Hl. split; [|split; [|split]].
  - apply list.Forall_forall. intros rule Hin. apply list_elem_of_lookup in Hin as [i Hi].
    destruct (Forall2_lookup_r _ _ _ _ _ Hall Hi) as (row & Hrow & d & Hd & ->).
    apply list_elem_of_lookup_2 in Hrow. destruct (Hread row Hrow) as (d' & enc & _ & Hok & _ & Hd').
    unfold valid_rule. simpl. congruence.
  - rewrite <- (loaded_ids _ _ Hall). apply current_rows_nodup.
  - intros rule Hin. apply list_elem_of_lookup in Hin as [i Hi].
    destruct (Forall2_lookup_r _ _ _ _ _ Hall Hi) as (row & Hrow & d & Hd & ->).
    apply list_elem_of_lookup_2 in Hrow. destruct (Hread row Hrow) as (d' & enc & _ & _ & Hc & Hd'). simpl.
    rewrite Hd in Hd'. simplify_eq. by rewrite Hc.
  - intros id version scope encoded. split.
    + intros (rule & Hin & <- & <- & <- & Hc). apply list_elem_of_lookup in Hin as [i Hi].
      destruct (Forall2_lookup_r _ _ _ _ _ Hall Hi) as (row & Hrow & d & Hd & ->).
      apply list_elem_of_lookup_2 in Hrow. destruct (Hread row Hrow) as (d' & enc & Hk & _ & Hc' & Hd').
      apply Hrows in Hrow as (r & v & Er & Hdel & Hen & Ev & _ & Heq).
      exists r, v. rewrite Heq in Hk |- *. simpl in *. split_and!; try done. congruence.
    + intros (r & v & Er & Hd & He & <- & Ev & <- & Hk).
      set (row := mk_current id r v (s.(rs_selections) !! (id, r.(rr_current_version)))).
      assert (row ∈ rows) as Hrow.
      { apply Hrows. exists r, v. unfold is_definition. rewrite Hk. by split_and!. }
      destruct (Hread row Hrow) as (d & enc & Hk' & _ & Hc & Hrd). simpl in Hk'.
      apply list_elem_of_lookup in Hrow as [i Hi].
      destruct (Forall2_lookup_l _ _ _ _ _ Hall Hi) as (rule & Hrule & d' & Hd' & ->).
      exists (loaded row d'). split; [by eapply list_elem_of_lookup_2|]. split_and!; try done.
      simpl. congruence.
Qed.

(** In every reachable store the evaluation loads its rules without error: exactly
    one [MatchRule] for each live and enabled rule, at its current version and with the
    mailbox identity of that version, whose definition is valid and re-encodes to the
    stored bytes. *)
Theorem match_rules_current s :
  rule_reachable s →
  ∃ rules, _current_match_rules s = Ret rules ∧ Forall valid_rule rules ∧
    ∀ id version scope encoded,
      (∃ rule, rule ∈ rules ∧ rule.(mr_rule_id) = id ∧ rule.(mr_version) = version ∧
        rule.(mr_scope_mailbox_identity_key) = scope ∧
        canonical_rule_definition rule.(mr_definition) = Ret encoded) ↔
      (∃ r v, s.(rs_rules) !! id = Some r ∧ r.(rr_deleted) = false ∧ r.(rr_enabled) = true ∧
        r.(rr_current_version) = version ∧ s.(rs_versions) !! (id, version) = Some v ∧
        v.(vr_scope_mailbox_identity_key) = scope ∧
        v.(vr_kind) = VDefinition encoded (Sha256.hexdigest encoded)).
Proof.
  intros Hr. destruct (current_rules_loaded s (reachable_rules_inv _ Hr)) as (rules & Hl & Hv & _ & _ & Hall).
  by exists rules.
Qed.

(** A definition, once accepted, stays available to the fires that name it: after a
    put of [d] that created version [k] of a rule, and whatever is put, switched or
    deleted later, the definition of that version is read back with every integrity
    check passing, and it is [d] up to the order of its parameters. *)
Theorem fire_definition_durable s s1 s2 definition rule_id expected identity selection now fresh d
    detail :
  rule_reachable s → argument_ok definition → parse_argument definition = Ret d →
  let id := match rule_id with Some i => if truthy i then i else fresh | None => fresh end in
  put_automation_rule definition rule_id expected identity selection now fresh s = Ret (detail, s1) →
  rtc rule_step s1 s2 →
  ∃ r, s1.(rs_rules) !! id = Some r ∧
    automation_fire_definition s2 id r.(rr_current_version) = Ret (sorted_definition d).
Proof.
  intros Hr Harg Hd id Hp Hsteps.
  pose proof (reachable_rules_inv _ Hr) as Hinv.
  pose proof (parse_argument_ok _ _ Harg Hd) as [Hok Hk].
  assert (rules_inv s1) as Hinv1 by (eapply rule_step_inv; [done|by eapply step_put]).
  assert (∃ encoded r v, canonical_rule_definition d = Ret encoded ∧ rs_rules s1 !! id = Some r ∧
    rs_versions s1 !! (id, rr_current_version r) = Some v ∧
    vr_kind v = VDefinition encoded (Sha256.hexdigest encoded)) as (encoded & r & v & Hc & Hr1 & Hv & Hkind).
  { unfold put_automation_rule in Hp. rewrite Hd in Hp. cbn [mbind py_bind] in Hp.
    apply bind_ret_inv in Hp as (encoded & Hc & Hp). fold id in Hp. exists encoded.
    apply bind_ret_inv in Hp as (u & _ & Hp). apply bind_ret_inv in Hp as (sc & _ & Hp).
    apply bind_ret_inv in Hp as ([[[version en] rev] s'] & Hrow & Hp).
    apply bind_ret_inv in Hp as (s3 & Hv & Hp). apply insert_version_inv in Hv as (_ & _ & ->).
    apply bind_ret_inv in Hp as (s4 & Hsel & Hp). injection Hp as _ <-.
    assert (∃ r, rs_rules s' !! id = Some r ∧ rr_current_version r = version) as (r & Hr1 & <-).
    { unfold put_rule_row in Hrow. destruct (rs_rules s !! id); unfold write_rule in Hrow;
        peel; simplify_eq/=; rewrite lookup_insert_eq; eauto. }
    exists r. unfold put_selection in Hsel. eexists. split; [done|]. destruct selection.
    - peel. apply insert_selection_inv in Hsel as (_ & ->). simpl. by rewrite lookup_insert_eq.
    - injection Hsel as <-. simpl. by rewrite lookup_insert_eq. }
  exists r. split; [done|].
  destruct (steps_extend _ _ Hinv1 Hsteps) as (Hvs & _ & _).
  unfold automation_fire_definition. rewrite (lookup_weaken _ _ _ _ Hv Hvs).
  destruct v as [kind ? ? ? ?]. simpl in Hkind. subst kind.
  rewrite bool_decide_eq_true_2 by done. cbn [mbind py_bind require].
  rewrite (loads_canonical d) by done. cbn [mbind py_bind]. rewrite parse_canon by done.
  cbn [mbind py_bind]. rewrite canonical_sorted, Hc. cbn [mbind py_bind].
  by rewrite bool_decide_eq_true_2.
Qed.

End Guarantees.

(** ** A concrete history

    A rule of one mailbox is created, changed and deleted. *)
Module RuleStoreDemo.

Import RuleDemo.
Local Existing Instance ascii_unicode.
Local Existing Instance plain_addresses.

(** A catalogue without capabilities. *)
Definition no_capabilities : ConnectLib := {|
  capability := Empty_set;
  asdict := fun c => match c with end;
  validate_capability_parameters := fun c => match c with end;
  validate_manifest_features := Ret;
  accepted_artifact_type := Ret;
  capability_parameter := Ret;
  discovered_capability := fun _ _ _ => Raise (TypeError "no capability");
  public_dict := fun c => match c with end |}.
Local Existing Instance no_capabilities.

Definition rule_id : text := str "7c9e6679-7425-40de-944b-e07fc1f90ae7".
Definition mailbox : text := Eval vm_compute in Sha256.hexdigest (str "mailbox").
Definition accounts : gmap (text * text) (option text) :=
  {[ (str "gmail", str "me") := Some mailbox ]}.
Definition encoded : bytes :=
  Eval vm_compute in match canonical_rule_definition definition with Ret b => b | Raise _ => [] end.

Definition s0 : rule_store := empty_rule_store accounts.
Abbreviation created := (put_automation_rule (inl definition) None None (Some mailbox) None
  0 rule_id s0).
Definition s1 : rule_store :=
  match created with Ret (_, s) => s | Raise _ => s0 end.
Abbreviation changed := (put_automation_rule (inr (model_dump definition)) (Some rule_id) (Some 1)
  (Some mailbox) None 60000000 rule_id s1).
Definition s2 : rule_store :=
  match changed with Ret (_, s) => s | Raise _ => s1 end.
Abbreviation deleted := (delete_automation_rule rule_id 2 120000000 s2).
Definition s3 : rule_store :=
  match deleted with Ret (_, s) => s | Raise _ => s2 end.

Lemma canonical_eq : canonical_rule_definition definition = Ret encoded.
Proof. vm_compute. reflexivity. Qed.

Lemma parsed_eq : parse_argument (inl definition) = Ret definition.
Proof. vm_compute. reflexivity. Qed.

Lemma keys_eq : argument_ok (inl definition).
Proof. unfold argument_ok, one_per_key. simpl. repeat constructor; set_solver. Qed.

Lemma decoded_keys : argument_ok (inr (model_dump definition)).
Proof.
  unfold argument_ok, model_dump, dump_action. cbn [unique_keys foldr snd].
  split_and!; try done; try (refine (bool_decide_unpack _ _); vm_compute; exact I).
  cbn. split_and!; try done; try (refine (bool_decide_unpack _ _); vm_compute; exact I).
Qed.

Lemma returned {A B} (m : py (A * B)) b : is_ret m = true →
  ∃ a, m = Ret (a, match m with Ret (_, s) => s | Raise _ => b end).
Proof. destruct m as [[a s]|e]; [eauto|done]. Qed.

Lemma created_ret : ∃ detail, created = Ret (detail, s1).
Proof. apply returned. vm_compute. reflexivity. Qed.

Lemma changed_ret : ∃ detail, changed = Ret (detail, s2).
Proof. apply returned. vm_compute. reflexivity. Qed.

Lemma deleted_ret : ∃ version, deleted = Ret (version, s3).
Proof. apply returned. vm_compute. reflexivity. Qed.

Lemma s0_reachable : rule_reachable s0.
Proof. exists accounts. constructor. Qed.

Lemma s1_reachable : rule_reachable s1.
Proof.
  destruct created_ret as [detail Hc]. exists accounts. eapply rtc_l; [|constructor].
  by eapply step_put; [apply keys_eq|].
Qed.

Lemma later : rtc rule_step s1 s3.
Proof.
  destruct changed_ret as [detail Hc]. eapply rtc_l.
  { by eapply step_put; [apply decoded_keys|]. }
  destruct deleted_ret as [version Hd].
  eapply rtc_l; [by eapply step_delete|]. constructor.
Qed.

Lemma scope_eq : _automation_rule_scope_identity s0 definition (Some mailbox) = Ret (Some mailbox).
Proof. vm_compute. reflexivity. Qed.

Lemma put_rule_exact_witness :
  created = put_result s0 rule_id (isoformat (utc 0)) definition encoded (Some mailbox)
    (mk_rule_row 1 true false false (isoformat (utc 0)) (isoformat (utc 0))).
Proof.
  refine (put_rule_exact s0 (inl definition) None None (Some mailbox) 0 rule_id definition encoded
    (Some mailbox) s0_reachable keys_eq parsed_eq canonical_eq _ scope_eq _);
    vm_compute; reflexivity.
Defined.

Lemma rule_history_immutable_witness : rules_inv s1 ∧ rules_inv s3 ∧ store_extends s1 s3.
Proof. exact (rule_history_immutable s1 s3 s1_reachable later). Defined.

Lemma accepted_change : accepted rule_id 1 s1 s2.
Proof.
  left. destruct changed_ret as [detail Hc].
  exists (inr (model_dump definition)), (Some mailbox), None, 60000000, rule_id, detail.
  split_and!; [apply decoded_keys|done|exact Hc].
Qed.

Lemma after_change : rtc rule_step s2 s3.
Proof.
  destruct deleted_ret as [version Hd]. eapply rtc_l; [by eapply step_delete|]. constructor.
Qed.

Lemma stale_rule_writes_fail_witness :
  is_ret (set_automation_rule_enabled rule_id 1 (Some false) 0 s3) = false ∧
  is_ret (delete_automation_rule rule_id 1 0 s3) = false.
Proof.
  destruct (stale_rule_writes_fail s1 s2 s3 rule_id 1 s1_reachable accepted_change after_change)
    as (_ & Henable & Hdelete).
  exact (conj (Henable (Some false) 0) (Hdelete 0)).
Defined.

Lemma match_rules_current_witness :
  ∃ rules, _current_match_rules s1 = Ret rules ∧ Forall valid_rule rules.
Proof.
  destruct (match_rules_current s1 s1_reachable) as (rules & Hr & Hv & _).
  exact (ex_intro _ rules (conj Hr Hv)).
Defined.

(** The deleted rule's first version is still there for the fires of that version. *)
Lemma fire_definition_durable_witness :
  ∃ r, s1.(rs_rules) !! rule_id = Some r ∧
    automation_fire_definition s3 rule_id r.(rr_current_version) = Ret (sorted_definition definition).
Proof.
  destruct created_ret as [detail Hc].
  exact (fire_definition_durable s0 s1 s3 (inl definition) None None (Some mailbox) None 0 rule_id
    definition detail s0_reachable keys_eq parsed_eq Hc later).
Defined.

Example deleted_rule_not_found :
  automation_rule s3 rule_id = Raise (AutomationRuleNotFound rule_id).
Proof. vm_compute. reflexivity. Qed.

End RuleStoreDemo.
