(* ===== verification/GmailCodec.v ===== *)
(** * Stored Gmail values: bounded text, snapshots and recovery pages

    Models the validators and codecs of [src/src/eom_email_watcher/db.py] that the
    Gmail label and recovery store relies on: [_require_bounded_text],
    [_require_mailbox_identity_key], [_require_revision], [_validate_utc_timestamp],
    [_canonical_json_bytes], [_decode_json_bytes], the selector and sender snapshots,
    the recovery pages and [_validate_admission_provenance]. *)

From S2P Require Export Addresses IsoTime JsonFacts Rules RuleTheorems.
From stdpp Require Import options.

Local Open Scope Z_scope.

Definition MAX_GMAIL_LABEL_SELECTORS : nat := 100.
Definition MAX_GMAIL_LABEL_ID_BYTES : nat := 512.
Definition MAX_GMAIL_LABEL_NAME_BYTES : nat := 1024.
Definition MAX_GMAIL_RECOVERY_SNAPSHOT_BYTES : Z := 1024 * 1024.
Definition MAX_GMAIL_RECOVERY_PAGE_JSON_BYTES : Z := 512 * 1024.
Definition MAX_GMAIL_RECOVERY_PAGE_IDS : nat := 200.
Definition MAX_GMAIL_RECOVERY_PAGE_TOKEN_BYTES : nat := 8 * 1024.
Definition MAX_GMAIL_RECOVERY_CURSOR_BYTES : nat := 4 * 1024.
Definition SQLITE_MAX_INTEGER : Z := 2 ^ 63 - 1.

Definition byte_count (b : bytes) : Z := Z.of_nat (length b).

(** [_has_control_character]: the general category [Cc]. *)
Definition is_control (c : N) : bool := ((c <? 32) || ((127 <=? c) && (c <=? 159)))%N.

Definition _has_control_character (value : text) : bool := existsb is_control value.

(** The test of [_require_bounded_text] on a [str]. *)
Definition bounded_text (maximum : nat) (value : text) : bool :=
  truthy value && within_utf8_bytes value maximum && negb (_has_control_character value).

(** [_require_bounded_text] on any value. *)
Definition _require_bounded_text (value : json) (maximum : nat) (message : string) : py text :=
  match value with
  | JStr t => if bounded_text maximum t then Ret t else Raise (ValueError message)
  | _ => Raise (ValueError message)
  end.

(** [_require_mailbox_identity_key] *)
Definition identity_key_ok (value : text) : bool :=
  bool_decide (length value = 64%nat) && forallb is_lower_hex value.

Definition _require_mailbox_identity_key (value : text) : py text :=
  if identity_key_ok value then Ret value
  else Raise (ValueError "mailbox identity key must be a lower-case SHA-256 digest").

(** [_require_revision] *)
Definition _require_revision (value : Z) : py Z :=
  if (0 <=? value) && (value <=? SQLITE_MAX_INTEGER) then Ret value
  else Raise (ValueError "revision must be a non-negative SQLite integer").

(** [_validate_utc_timestamp] *)
Definition utc_timestamp_ok (value : text) : bool :=
  truthy value && within_utf8_bytes value 64 &&
  match fromisoformat value with
  | Some d => bool_decide (d.(dt_offset) = Some 0)
  | None => false
  end.

Definition _validate_utc_timestamp (value : text) (message : string) : py text :=
  if utc_timestamp_ok value then Ret value else Raise (ValueError message).

(** [_canonical_json_bytes] *)
Definition _canonical_json_bytes (value : json) : py bytes :=
  require_some (Utf8.encode (dumps true value)) UnicodeEncodeError.

(** [reject_duplicate_keys] *)
Fixpoint reject_duplicate_keys (decoded pairs : list (text * json)) : py json :=
  match pairs with
  | [] => Ret (JObj decoded)
  | (key, item) :: pairs' =>
      if decide (key ∈ decoded.*1) then Raise (ValueError "duplicate JSON key")
      else reject_duplicate_keys (decoded ++ [(key, item)]) pairs'
  end.

(** [value.decode("utf-8")] *)
Definition utf8_decode (value : bytes) : option text :=
  JsonParse.decode_all Utf8.decode_char 0 value.

(** [_decode_json_bytes]: every failure is reported as the invalid field. *)
Definition _decode_json_bytes (value : bytes) (message : string) : py json :=
  match utf8_decode value with
  | None => Raise (RuntimeError message)
  | Some t =>
      match JsonParse.loads_with (reject_duplicate_keys []) t with
      | Ret j => Ret j
      | Raise _ => Raise (RuntimeError message)
      end
  end.

(** ** Selector snapshots *)

Record GmailLabelSelectorSnapshot := mk_selector_snapshot {
  gs_selector_id : text;
  gs_label_id : text;
  gs_display_name : text }.

Global Instance selector_snapshot_eq_dec : EqDecision GmailLabelSelectorSnapshot.
Proof. solve_decision. Defined.

(** [sorted(l, key=key)] on text keys: stable. *)
Fixpoint insert_text {A} (leb : A → A → bool) (x : A) (l : list A) : list A :=
  match l with
  | [] => [x]
  | y :: l' => if leb x y then x :: l else y :: insert_text leb x l'
  end.

Definition sort_by {A} (leb : A → A → bool) (l : list A) : list A := foldr (insert_text leb) [] l.

Definition text_leb (a b : text) : bool := negb (text_ltb b a).

Definition selector_leb (a b : GmailLabelSelectorSnapshot) : bool :=
  text_leb a.(gs_selector_id) b.(gs_selector_id).

Definition selector_json (s : GmailLabelSelectorSnapshot) : json :=
  JObj [(str "selector_id", JStr s.(gs_selector_id)); (str "label_id", JStr s.(gs_label_id));
        (str "display_name", JStr s.(gs_display_name))].

(** The checks of the loop over the selectors. *)
Fixpoint check_selectors (selector_ids : list text) (selectors : list GmailLabelSelectorSnapshot)
    : py unit :=
  match selectors with
  | [] => Ret tt
  | s :: selectors' =>
      _ ← require (uuid4_text s.(gs_selector_id) && negb (bool_decide (s.(gs_selector_id) ∈ selector_ids)))
            (ValueError "gmail selector snapshot has an invalid selector id");
      _ ← _require_bounded_text (JStr s.(gs_label_id)) MAX_GMAIL_LABEL_ID_BYTES
            "gmail label id is invalid";
      _ ← _require_bounded_text (JStr s.(gs_display_name)) MAX_GMAIL_LABEL_NAME_BYTES
            "gmail label display name is invalid";
      check_selectors (s.(gs_selector_id) :: selector_ids) selectors'
  end.

(** [encode_gmail_selector_snapshot] *)
Definition encode_gmail_selector_snapshot (selectors : list GmailLabelSelectorSnapshot) : py bytes :=
  _ ← require (bool_decide (length selectors <= MAX_GMAIL_LABEL_SELECTORS)%nat)
        (ValueError "gmail selector snapshot exceeds its item limit");
  _ ← check_selectors [] selectors;
  encoded ← _canonical_json_bytes (JArr (selector_json <$> sort_by selector_leb selectors));
  if byte_count encoded <=? MAX_GMAIL_RECOVERY_SNAPSHOT_BYTES then Ret encoded
  else Raise (GmailLabelStoreError "gmail_recovery_snapshot_too_large").

Definition selector_invalid {A} : py A := Raise (RuntimeError "gmail selector snapshot is invalid").

(** [set(item) == names] for a decoded object. *)
Definition has_exactly (names : list text) (m : list (text * json)) : bool :=
  only names m && forallb (fun n => is_some (member n m)) names.

Definition str_of (j : option json) : option text :=
  match j with Some (JStr t) => Some t | _ => None end.

Fixpoint read_selectors (selector_ids : list text) (items : list json)
    : py (list GmailLabelSelectorSnapshot) :=
  match items with
  | [] => Ret []
  | JObj m :: items' =>
      if negb (has_exactly [str "selector_id"; str "label_id"; str "display_name"] m)
      then selector_invalid
      else
        match str_of (member (str "selector_id") m), str_of (member (str "label_id") m),
              str_of (member (str "display_name") m) with
        | Some selector_id, Some label_id, Some display_name =>
            if bounded_text MAX_GMAIL_LABEL_ID_BYTES label_id &&
               bounded_text MAX_GMAIL_LABEL_NAME_BYTES display_name &&
               uuid4_text selector_id && negb (bool_decide (selector_id ∈ selector_ids))
            then
              rest ← read_selectors (selector_id :: selector_ids) items';
              Ret (mk_selector_snapshot selector_id label_id display_name :: rest)
            else selector_invalid
        | _, _, _ => selector_invalid
        end
  | _ :: _ => selector_invalid
  end.

(** [decode_gmail_selector_snapshot] *)
Definition decode_gmail_selector_snapshot (value : bytes) : py (list GmailLabelSelectorSnapshot) :=
  if MAX_GMAIL_RECOVERY_SNAPSHOT_BYTES <? byte_count value then selector_invalid
  else
    decoded ← _decode_json_bytes value "gmail selector snapshot is invalid";
    match decoded with
    | JArr items =>
        if (MAX_GMAIL_LABEL_SELECTORS <? length items)%nat then selector_invalid
        else
          selectors ← read_selectors [] items;
          let ids := gs_selector_id <$> selectors in
          _ ← require (bool_decide (ids = sort_by text_leb ids))
                (RuntimeError "gmail selector snapshot is not canonical");
          canonical ← _canonical_json_bytes decoded;
          _ ← require (bool_decide (canonical = value))
                (RuntimeError "gmail selector snapshot is not canonical");
          Ret selectors
    | _ => selector_invalid
    end.

(** ** Sender snapshots *)

Abbreviation sender_entry := (text * option text)%type.

Definition sender_leb (a b : sender_entry) : bool :=
  text_ltb a.1 b.1 || (bool_decide (a.1 = b.1) && text_leb (default [] a.2) (default [] b.2)).

Definition sender_json (s : sender_entry) : json :=
  JObj [(str "email", JStr s.1); (str "name", json_of_option JStr s.2)].

Section Senders.
Context `{Unicode} `{AddressLib}.

Definition sender_name_ok (name : text) : bool :=
  truthy (strip name) && bool_decide (name = strip name) && forallb uni_isprintable name.

Definition sender_ok (seen : list text) (s : sender_entry) : bool :=
  bool_decide (normalize_validated_address s.1 = Some s.1) && negb (bool_decide (s.1 ∈ seen)) &&
  match s.2 with Some name => sender_name_ok name | None => true end.

Fixpoint senders_ok (seen : list text) (senders : list sender_entry) : bool :=
  match senders with
  | [] => true
  | s :: senders' => sender_ok seen s && senders_ok (s.1 :: seen) senders'
  end.

(** [encode_gmail_sender_snapshot] *)
Definition encode_gmail_sender_snapshot (senders : list sender_entry) : py bytes :=
  _ ← require (senders_ok [] senders) (ValueError "gmail sender snapshot is invalid");
  encoded ← _canonical_json_bytes (JArr (sender_json <$> sort_by sender_leb senders));
  if byte_count encoded <=? MAX_GMAIL_RECOVERY_SNAPSHOT_BYTES then Ret encoded
  else Raise (GmailLabelStoreError "gmail_recovery_snapshot_too_large").

Definition sender_invalid {A} : py A := Raise (RuntimeError "gmail sender snapshot is invalid").

Definition read_sender (j : json) : option sender_entry :=
  match j with
  | JObj m =>
      if has_exactly [str "email"; str "name"] m then
        match member (str "email") m, member (str "name") m with
        | Some (JStr email), Some JNull => Some (email, None)
        | Some (JStr email), Some (JStr name) => Some (email, Some name)
        | _, _ => None
        end
      else None
  | _ => None
  end.

Fixpoint read_senders (seen : list text) (items : list json) : py (list sender_entry) :=
  match items with
  | [] => Ret []
  | item :: items' =>
      match read_sender item with
      | Some s =>
          if sender_ok seen s then rest ← read_senders (s.1 :: seen) items'; Ret (s :: rest)
          else sender_invalid
      | None => sender_invalid
      end
  end.

(** [decode_gmail_sender_snapshot] *)
Definition decode_gmail_sender_snapshot (value : bytes) : py (list sender_entry) :=
  if MAX_GMAIL_RECOVERY_SNAPSHOT_BYTES <? byte_count value then sender_invalid
  else
    decoded ← _decode_json_bytes value "gmail sender snapshot is invalid";
    match decoded with
    | JArr items =>
        senders ← read_senders [] items;
        _ ← require (bool_decide (senders = sort_by sender_leb senders))
              (RuntimeError "gmail sender snapshot is not canonical");
        canonical ← _canonical_json_bytes decoded;
        _ ← require (bool_decide (canonical = value))
              (RuntimeError "gmail sender snapshot is not canonical");
        Ret senders
    | _ => sender_invalid
    end.

End Senders.

(** ** Recovery pages *)

Definition page_invalid {A} : py A := Raise (GmailLabelStoreError "gmail_recovery_page_invalid").

Fixpoint page_ids_ok (seen : list text) (ids : list text) : bool :=
  match ids with
  | [] => true
  | i :: ids' =>
      bounded_text MAX_GMAIL_LABEL_ID_BYTES i && negb (bool_decide (i ∈ seen)) &&
      page_ids_ok (i :: seen) ids'
  end.

(** [encode_gmail_recovery_page] *)
Definition encode_gmail_recovery_page (message_ids : list text) : py bytes :=
  if (MAX_GMAIL_RECOVERY_PAGE_IDS <? length message_ids)%nat || negb (page_ids_ok [] message_ids)
  then page_invalid
  else
    encoded ← require_some (Utf8.encode (dumps false (JArr (JStr <$> message_ids)))) UnicodeEncodeError;
    if byte_count encoded <=? MAX_GMAIL_RECOVERY_PAGE_JSON_BYTES then Ret encoded else page_invalid.

Definition stored_page_invalid {A} : py A := Raise (RuntimeError "gmail recovery page is invalid").

(** [decode_gmail_recovery_page] *)
Definition decode_gmail_recovery_page (value : bytes) : py (list text) :=
  if MAX_GMAIL_RECOVERY_PAGE_JSON_BYTES <? byte_count value then stored_page_invalid
  else
    decoded ← _decode_json_bytes value "gmail recovery page is invalid";
    match decoded with
    | JArr items =>
        match mapM read_str items with
        | Some ids =>
            match encode_gmail_recovery_page ids with
            | Ret encoded =>
                if bool_decide (encoded = value) then Ret ids
                else Raise (RuntimeError "gmail recovery page is not canonical")
            | Raise _ => stored_page_invalid
            end
        | None => stored_page_invalid
        end
    | _ => stored_page_invalid
    end.

(** ** Admission provenance *)

Inductive admission_kind := ExactSender | GmailUserLabel | ThreadAdmission (k : thread_selector).

Global Instance thread_selector_eq_dec : EqDecision thread_selector.
Proof. solve_decision. Defined.
Global Instance admission_kind_eq_dec : EqDecision admission_kind.
Proof. solve_decision. Defined.

Record AdmissionProvenance := mk_provenance {
  ap_kind : admission_kind;
  ap_selector_id : text;
  ap_display_name : option text;
  ap_mailbox_identity_key : text;
  ap_admitted_at : text }.

Section Provenance.
Context `{Unicode} `{AddressLib}.

(** The selector id an admission of each kind must have. *)
Definition selector_id_check (a : AdmissionProvenance) : py unit :=
  match a.(ap_kind) with
  | GmailUserLabel =>
      require (uuid4_text a.(ap_selector_id)) (ValueError "gmail label admission selector id is invalid")
  | ExactSender =>
      let address := drop (length EXACT_SENDER_SELECTOR_PREFIX) a.(ap_selector_id) in
      require (starts_with a.(ap_selector_id) EXACT_SENDER_SELECTOR_PREFIX &&
               bool_decide (exact_sender_selector_id address = Some a.(ap_selector_id)))
        (ValueError "exact sender admission selector id is invalid")
  | ThreadAdmission k =>
      let prefix := thread_selector_prefix k in
      require (starts_with a.(ap_selector_id) prefix &&
               identity_key_ok (drop (length prefix) a.(ap_selector_id)))
        (ValueError "vendor/thread admission selector id is invalid")
  end.

(** [_validate_admission_provenance]; the kind is one of the known ones by type. *)
Definition _validate_admission_provenance (a : AdmissionProvenance) (mailbox_identity_key : text)
    : py unit :=
  _ ← _require_bounded_text (JStr a.(ap_selector_id)) MAX_GMAIL_LABEL_ID_BYTES
        "admission selector id is invalid";
  _ ← match a.(ap_display_name) with
      | Some name => require (within_utf8_bytes name 1024 && negb (_has_control_character name))
                       (ValueError "admission display name is invalid")
      | None => Ret tt
      end;
  _ ← selector_id_check a;
  key ← _require_mailbox_identity_key a.(ap_mailbox_identity_key);
  _ ← require (bool_decide (key = mailbox_identity_key))
        (MailboxIdentityChanged "mailbox identity changed");
  _ ← _validate_utc_timestamp a.(ap_admitted_at) "admitted_at must be a UTC ISO-8601 timestamp";
  Ret tt.

End Provenance.

(** * The stored Gmail values are read back

    What [encode_gmail_recovery_page], [encode_gmail_selector_snapshot] and
    [encode_gmail_sender_snapshot] write is decoded to the same page, selectors and
    senders, snapshots in the order of their keys. *)

(** ** Sorting *)

Section Sorting.
Context {A : Type} (leb : A → A → bool).

Lemma insert_sorted_perm x l : insert_text leb x l ≡ₚ x :: l.
Proof. induction l as [|y l IH]; simpl; [done|]. case_match; [done|]. rewrite IH. apply Permutation_swap. Qed.

Lemma sort_by_perm l : sort_by leb l ≡ₚ l.
Proof. induction l as [|x l IH]; simpl; [done|]. by rewrite insert_sorted_perm, IH. Qed.

Lemma sort_by_id l : StronglySorted leb l → sort_by leb l = l.
Proof.
  induction 1 as [|y l Hs IH Hy]; [done|].
  change (insert_text leb y (sort_by leb l) = y :: l). rewrite IH.
  destruct Hy as [|z l Hz _]; [done|]. simpl. apply Is_true_true in Hz. by rewrite Hz.
Qed.

Lemma sort_by_sorted l :
  (∀ a b, leb a b = false → leb b a = true) →
  (∀ a b c, leb a b = true → leb b c = true → leb a c = true) →
  StronglySorted leb (sort_by leb l).
Proof.
  intros Htotal Htrans. induction l as [|x l IH]; simpl; [constructor|].
  induction IH as [|y l' Hs IH Hy]; simpl; [repeat constructor|].
  destruct (leb x y) eqn:E.
  - constructor; [by constructor|]. constructor; [by rewrite E|].
    eapply list.Forall_impl; [done|]. intros z Hz. apply Is_true_true in Hz. apply Is_true_true.
    by eapply Htrans.
  - constructor; [done|]. rewrite insert_sorted_perm. constructor; [|done].
    apply Is_true_true. by apply Htotal.
Qed.

End Sorting.

Lemma text_leb_total a b : text_leb a b = false → text_leb b a = true.
Proof. unfold text_leb. intros Hb. bools. by rewrite (text_ltb_asym _ _ Hb). Qed.

Lemma text_leb_true_trans a b c : text_leb a b = true → text_leb b c = true → text_leb a c = true.
Proof. unfold text_leb. intros H1 H2. bools. by rewrite (text_leb_trans a b c) by done. Qed.

Lemma selector_sort_ids l :
  gs_selector_id <$> sort_by selector_leb l = sort_by text_leb (gs_selector_id <$> sort_by selector_leb l).
Proof.
  symmetry. apply sort_by_id.
  pose proof (sort_by_sorted selector_leb l (λ a b, text_leb_total _ _)
    (λ a b c, text_leb_true_trans _ _ _)) as Hs.
  induction Hs as [|x l' Hs IH Hx]; simpl; constructor; [done|]. by apply Forall_fmap.
Qed.

Lemma sender_leb_total a b : sender_leb a b = false → sender_leb b a = true.
Proof.
  unfold sender_leb. intros Hb. apply orb_false_elim in Hb as [Hlt Hb].
  destruct (text_ltb b.1 a.1) eqn:Hba; [done|]. simpl.
  assert (a.1 = b.1) as E by (by apply text_ltb_antisym). rewrite E in *.
  rewrite bool_decide_eq_true_2 in Hb |- * by done. simpl in *. by apply text_leb_total.
Qed.

Lemma sender_leb_trans a b c : sender_leb a b = true → sender_leb b c = true → sender_leb a c = true.
Proof.
  assert (∀ x y z, text_ltb x y = true → text_ltb z y = false → text_ltb x z = true) as Hlt.
  { intros x y z H1 H2. destruct (text_ltb x z) eqn:E; [done|].
    exfalso. assert (text_ltb x y = false) by (by eapply (text_leb_trans y z x)). congruence. }
  unfold sender_leb. intros H1 H2. apply orb_true_iff in H1 as [H1|H1], H2 as [H2|H2]; bools.
  - apply orb_true_iff. left. eapply Hlt; [done|]. by apply text_ltb_asym.
  - match goal with E : b.1 = c.1 |- _ => rewrite <- E end. by rewrite H1.
  - match goal with E : a.1 = b.1 |- _ => rewrite E end. by rewrite H2.
  - apply orb_true_iff. right. apply andb_true_iff. split; [apply bool_decide_eq_true_2; congruence|].
    by eapply text_leb_true_trans.
Qed.

(** ** JSON bytes *)

Lemma utf8_decode_encode t raw : Utf8.encode t = Some raw → utf8_decode raw = Some t.
Proof. apply decode_all_encode, decode_char_encode. Qed.

Lemma reject_duplicate_keys_distinct d m : NoDup (d ++ m).*1 →
  reject_duplicate_keys d m = Ret (JObj (d ++ m)).
Proof.
  revert d. induction m as [|[k v] m IH]; intros d Hnd; simpl; [by rewrite app_nil_r|].
  rewrite decide_False.
  - rewrite IH; rewrite <- app_assoc; done.
  - rewrite fmap_app in Hnd. simpl in Hnd. apply list.NoDup_app in Hnd. set_solver.
Qed.

Lemma decode_json_dumps b j raw message : json_ok j → Utf8.encode (dumps b j) = Some raw →
  _decode_json_bytes raw message = Ret (canon b j).
Proof.
  intros Hok Hr. unfold _decode_json_bytes. rewrite (utf8_decode_encode _ _ Hr).
  rewrite loads_with_dumps; [done| |done]. intros m Hm. by apply (reject_duplicate_keys_distinct []).
Qed.

Lemma canonical_json_canon j : _canonical_json_bytes (canon true j) = _canonical_json_bytes j.
Proof. unfold _canonical_json_bytes. by rewrite dumps_canon. Qed.

Lemma canonical_json_inv j raw : _canonical_json_bytes j = Ret raw → Utf8.encode (dumps true j) = Some raw.
Proof. unfold _canonical_json_bytes. apply require_some_ret_inv. Qed.

(** ** Pages *)

Lemma mapM_read_str ids : mapM read_str (JStr <$> ids) = Some ids.
Proof. rewrite (mapM_map _ _ id); [by rewrite list_fmap_id|done]. Qed.

Lemma strings_json_ok ids : json_ok (JArr (JStr <$> ids)).
Proof. simpl. apply foldr_and_Forall, Forall_fmap, Forall_true. done. Qed.

Lemma canon_strings b ids : canon b (JArr (JStr <$> ids)) = JArr (JStr <$> ids).
Proof. simpl. f_equal. rewrite <- list_fmap_compose. by apply list_fmap_ext. Qed.

Lemma page_roundtrip ids raw :
  encode_gmail_recovery_page ids = Ret raw ↔ decode_gmail_recovery_page raw = Ret ids.
Proof.
  split.
  - intros He. unfold decode_gmail_recovery_page. pose proof He as Hd.
    unfold encode_gmail_recovery_page in Hd. peel. simplify_eq.
    rewrite (proj2 (Z.ltb_ge _ _)) by lia.
    rewrite (decode_json_dumps false (JArr (JStr <$> ids))) by (done || apply strings_json_ok).
    cbn [mbind py_bind]. rewrite canon_strings, mapM_read_str, He.
    by rewrite bool_decide_eq_true_2.
  - intros Hd. unfold decode_gmail_recovery_page in Hd. peel. bools. by simplify_eq.
Qed.

(** ** Selector snapshots *)

Definition selector_valid (s : GmailLabelSelectorSnapshot) : bool :=
  uuid4_text s.(gs_selector_id) && bounded_text MAX_GMAIL_LABEL_ID_BYTES s.(gs_label_id) &&
  bounded_text MAX_GMAIL_LABEL_NAME_BYTES s.(gs_display_name).

Lemma bounded_text_inv value maximum message t :
  _require_bounded_text (JStr value) maximum message = Ret t →
  t = value ∧ bounded_text maximum value = true.
Proof. simpl. case_match; [|done]. by intros [= <-]. Qed.

Lemma check_selectors_inv seen l : check_selectors seen l = Ret tt →
  Forall selector_valid l ∧ NoDup (gs_selector_id <$> l) ∧
  ∀ s, s ∈ l → s.(gs_selector_id) ∉ seen.
Proof.
  revert seen. induction l as [|s l IH]; intros seen Hc; cbn [check_selectors] in Hc.
  { split_and!; [constructor|constructor|set_solver]. }
  apply bind_ret_inv in Hc as (u & Hid & Hc). apply require_ret_inv in Hid. bools.
  apply bind_ret_inv in Hc as (a & Ha & Hc). apply bounded_text_inv in Ha as [_ Ha].
  apply bind_ret_inv in Hc as (b & Hb & Hc). apply bounded_text_inv in Hb as [_ Hb].
  apply IH in Hc as (Hv & Hnd & Hseen). split_and!.
  - constructor; [|done]. unfold selector_valid. apply Is_true_true. by rewrite Ha, Hb, !andb_true_r.
  - simpl. constructor; [|done]. intros Hin. apply list_elem_of_fmap in Hin as (s' & E & Hin).
    apply (Hseen s' Hin). rewrite <- E. by left.
  - intros s' Hin. apply elem_of_cons in Hin as [->|Hin]; [done|].
    intros Hs. apply (Hseen s' Hin). by right.
Qed.

Lemma selector_valid_inv s : selector_valid s = true →
  uuid4_text s.(gs_selector_id) = true ∧ bounded_text MAX_GMAIL_LABEL_ID_BYTES s.(gs_label_id) = true ∧
  bounded_text MAX_GMAIL_LABEL_NAME_BYTES s.(gs_display_name) = true.
Proof. unfold selector_valid. rewrite !andb_true_iff. tauto. Qed.

Lemma read_selectors_dumps seen l :
  Forall selector_valid l → NoDup (gs_selector_id <$> l) →
  (∀ s, s ∈ l → s.(gs_selector_id) ∉ seen) →
  read_selectors seen (canon true <$> (selector_json <$> l)) = Ret l.
Proof.
  revert seen. induction l as [|s l IH]; intros seen Hv Hnd Hseen; [done|].
  apply list.Forall_cons in Hv as [Hs Hv]. apply Is_true_true, selector_valid_inv in Hs as (Hu & Ha & Hb).
  simpl in Hnd. apply list.NoDup_cons in Hnd as [Hni Hnd].
  rewrite !fmap_cons.
  change (canon true (selector_json s)) with
    (JObj [(str "display_name", JStr s.(gs_display_name)); (str "label_id", JStr s.(gs_label_id));
           (str "selector_id", JStr s.(gs_selector_id))]).
  transitivity (if bounded_text MAX_GMAIL_LABEL_ID_BYTES s.(gs_label_id) &&
       bounded_text MAX_GMAIL_LABEL_NAME_BYTES s.(gs_display_name) &&
       uuid4_text s.(gs_selector_id) && negb (bool_decide (s.(gs_selector_id) ∈ seen))
    then rest ← read_selectors (s.(gs_selector_id) :: seen) (canon true <$> (selector_json <$> l));
         Ret (mk_selector_snapshot s.(gs_selector_id) s.(gs_label_id) s.(gs_display_name) :: rest)
    else selector_invalid); [reflexivity|].
  rewrite Ha, Hb, Hu, bool_decide_eq_false_2 by (apply Hseen; by left). simpl.
  rewrite IH; [by destruct s|done|done|].
  intros s' Hin. rewrite not_elem_of_cons. split; [|apply Hseen; by right].
  intros E. apply Hni. apply list_elem_of_fmap. by exists s'.
Qed.

Lemma selector_json_ok s : json_ok (selector_json s).
Proof. split; [|done]. refine (bool_decide_unpack _ _). vm_compute. exact I. Qed.

Lemma selectors_json_ok l : json_ok (JArr (selector_json <$> l)).
Proof. simpl. apply foldr_and_Forall, Forall_fmap, Forall_true. intros s. apply selector_json_ok. Qed.

(** What is written for a list of selectors is read back in the order of their ids. *)
Lemma selector_snapshot_roundtrip l raw :
  encode_gmail_selector_snapshot l = Ret raw →
  decode_gmail_selector_snapshot raw = Ret (sort_by selector_leb l).
Proof.
  unfold encode_gmail_selector_snapshot. intros He.
  apply bind_ret_inv in He as (u & Hlen & He). apply require_ret_inv in Hlen. bools.
  apply bind_ret_inv in He as ([] & Hc & He). apply check_selectors_inv in Hc as (Hv & Hnd & _).
  apply bind_ret_inv in He as (enc & Henc & He). case_match eqn:Hsize; [|done]. injection He as <-.
  pose proof (canonical_json_inv _ _ Henc) as Hraw.
  pose proof (sort_by_perm selector_leb l) as Hperm. pose proof (selector_sort_ids l) as Hids.
  set (l' := sort_by selector_leb l) in *.
  unfold decode_gmail_selector_snapshot. rewrite (proj2 (Z.ltb_ge _ _)) by lia.
  rewrite (decode_json_dumps true (JArr (selector_json <$> l'))) by (done || apply selectors_json_ok).
  cbn [mbind py_bind canon].
  rewrite (proj2 (Nat.ltb_ge _ _)) by (rewrite !length_fmap, Hperm; lia).
  rewrite read_selectors_dumps; [|by rewrite Hperm|by rewrite Hperm|set_solver].
  cbn [mbind py_bind]. rewrite (bool_decide_eq_true_2 _ Hids).
  cbn [mbind py_bind require].
  change (JArr (canon true <$> (selector_json <$> l'))) with (canon true (JArr (selector_json <$> l'))).
  rewrite canonical_json_canon, Henc. cbn [mbind py_bind require].
  by rewrite bool_decide_eq_true_2.
Qed.

(** ** Sender snapshots *)

Section Senders.
Context `{Unicode} `{AddressLib}.

Lemma senders_ok_inv seen l : senders_ok seen l = true →
  (∀ e, e ∈ l → sender_ok [] e = true) ∧ NoDup l.*1 ∧ ∀ e, e ∈ l → e.1 ∉ seen.
Proof.
  revert seen. induction l as [|e l IH]; intros seen Hs; simpl in Hs.
  { split_and!; [set_solver|constructor|set_solver]. }
  bools. unfold sender_ok in *. bools.
  match goal with Hr : senders_ok _ _ = true |- _ => apply IH in Hr as (Hv & Hnd & Hseen) end.
  split_and!.
  - intros e' Hin. apply elem_of_cons in Hin as [->|Hin]; [|auto].
    rewrite !andb_true_iff. split_and!; [by apply bool_decide_eq_true_2| |done].
    rewrite bool_decide_eq_false_2; [done|set_solver].
  - simpl. constructor; [|done]. intros Hin. apply list_elem_of_fmap in Hin as (e' & E & Hin).
    apply (Hseen e' Hin). rewrite <- E. by left.
  - intros e' Hin. apply elem_of_cons in Hin as [->|Hin]; [done|].
    intros Hs. apply (Hseen e' Hin). by right.
Qed.

Lemma read_senders_dumps seen l :
  (∀ e, e ∈ l → sender_ok [] e = true) → NoDup l.*1 → (∀ e, e ∈ l → e.1 ∉ seen) →
  read_senders seen (canon true <$> (sender_json <$> l)) = Ret l.
Proof.
  revert seen. induction l as [|e l IH]; intros seen Hv Hnd Hseen; [done|].
  simpl in Hnd. apply list.NoDup_cons in Hnd as [Hni Hnd]. rewrite !fmap_cons.
  assert (read_sender (canon true (sender_json e)) = Some e) as Hr by (by destruct e as [email []]).
  cbn [read_senders]. rewrite Hr.
  assert (sender_ok seen e = true) as ->.
  { specialize (Hv e ltac:(by left)). unfold sender_ok in *. bools. rewrite !andb_true_iff.
    split_and!; [by apply bool_decide_eq_true_2| |done].
    rewrite bool_decide_eq_false_2; [done|]. apply Hseen. by left. }
  rewrite IH; [done|intros e' Hin; apply Hv; by right|done|].
  intros e' Hin. rewrite not_elem_of_cons. split; [|apply Hseen; by right].
  intros E. apply Hni. apply list_elem_of_fmap. by exists e'.
Qed.

Lemma senders_json_ok l : json_ok (JArr (sender_json <$> l)).
Proof.
  simpl. apply foldr_and_Forall, Forall_fmap, Forall_true. intros [e []]; (split; [|done]);
    refine (bool_decide_unpack _ _); vm_compute; exact I.
Qed.

Lemma sender_snapshot_roundtrip l raw :
  encode_gmail_sender_snapshot l = Ret raw →
  decode_gmail_sender_snapshot raw = Ret (sort_by sender_leb l).
Proof.
  unfold encode_gmail_sender_snapshot. intros He.
  apply bind_ret_inv in He as (u & Hs & He). apply require_ret_inv, senders_ok_inv in Hs as (Hv & Hnd & _).
  apply bind_ret_inv in He as (enc & Henc & He). case_match eqn:Hsize; [|done]. injection He as <-.
  pose proof (canonical_json_inv _ _ Henc) as Hraw.
  pose proof (sort_by_perm sender_leb l) as Hperm.
  assert (sort_by sender_leb (sort_by sender_leb l) = sort_by sender_leb l) as Hsorted.
  { apply sort_by_id, sort_by_sorted; [apply sender_leb_total|apply sender_leb_trans]. }
  set (l' := sort_by sender_leb l) in *.
  unfold decode_gmail_sender_snapshot. rewrite (proj2 (Z.ltb_ge _ _)) by lia.
  rewrite (decode_json_dumps true (JArr (sender_json <$> l'))) by (done || apply senders_json_ok).
  cbn [mbind py_bind canon].
  rewrite read_senders_dumps; [|intros e Hin; apply Hv; by rewrite <- Hperm|by rewrite Hperm|set_solver].
  cbn [mbind py_bind]. rewrite Hsorted, bool_decide_eq_true_2 by done. cbn [mbind py_bind require].
  change (JArr (canon true <$> (sender_json <$> l'))) with (canon true (JArr (sender_json <$> l'))).
  rewrite canonical_json_canon, Henc. cbn [mbind py_bind require].
  by rewrite bool_decide_eq_true_2.
Qed.

(** The stored Gmail values are read back.  A page of message ids is decoded to
    exactly the ids that were encoded, and only a canonical encoding is decoded at all;
    a snapshot of selectors or senders, once accepted, is decoded to the same entries,
    in the order of their identifiers or addresses. *)
Theorem gmail_codec_roundtrip :
  (∀ ids raw, encode_gmail_recovery_page ids = Ret raw ↔ decode_gmail_recovery_page raw = Ret ids) ∧
  (∀ l raw, encode_gmail_selector_snapshot l = Ret raw →
    decode_gmail_selector_snapshot raw = Ret (sort_by selector_leb l) ∧ sort_by selector_leb l ≡ₚ l) ∧
  (∀ l raw, encode_gmail_sender_snapshot l = Ret raw →
    decode_gmail_sender_snapshot raw = Ret (sort_by sender_leb l) ∧ sort_by sender_leb l ≡ₚ l).
Proof.
  split_and!; [apply page_roundtrip| |]; intros l raw He; (split; [|apply sort_by_perm]).
  - by apply selector_snapshot_roundtrip.
  - by apply sender_snapshot_roundtrip.
Qed.

End Senders.
