(* ===== verification/Locations.v ===== *)
(** * Source observations and message locations

    [db.py: _record_locations] owns what is known of each provider copy of a
    message: [message_source_observations] keeps when its headers and folders were
    last observed and whether the folder listing was complete, and
    [message_locations] caches the confirmation per folder.
    [Store._clear_location_stamps] withdraws the confirmations of a mailbox after
    a gap. *)

From S2P Require Export IsoTime IsoTimeFacts.
From stdpp Require Import options.

(** (provider, account_id, mailbox_identity_key) *)
Abbreviation MailScope := (text * text * text)%type.

(** One provider copy: its scope and [provider_message_id]. *)
Abbreviation SourceKey := (MailScope * text)%type.

Record Observation := mk_observation {
  ob_message_id : text;
  ob_headers_observed_at : option text;
  ob_folder_observed_at : text;
  ob_folder_complete : bool }.

Record Location := mk_location {
  lo_message_id : text;
  lo_recorded_at : option text;
  lo_received_at : option text }.

Record LocationTables := mk_location_tables {
  lt_observations : gmap SourceKey Observation;
  lt_locations : gmap (SourceKey * text) Location;
  (** The temporary table [derived_returned_sources]. *)
  lt_returned : gset text }.

Definition INBOX_LOCATION : text := str "inbox".
Definition SENT_LOCATION : text := str "sent".
Definition MESSAGE_LOCATIONS : list text := [INBOX_LOCATION; SENT_LOCATION].

(** The instant of an aware value, in microseconds. *)
Definition instant (d : datetime) : option Z :=
  match d.(dt_offset) with Some off => Some (d.(dt_wall) - off)%Z | None => None end.

(** [datetime.fromisoformat(text)] where the value is then compared with an aware
    one. *)
Definition stored_instant (t : text) : py Z :=
  match fromisoformat t with
  | None => Raise (ValueError "Invalid isoformat string")
  | Some d => require_some (instant d)
                (TypeError "can't compare offset-naive and offset-aware datetimes")
  end.

(** The observed time: aware, and within range once in UTC. *)
Definition observed_instant (observed_at : text) : py Z :=
  match fromisoformat observed_at with
  | None => Raise (ValueError "Invalid isoformat string")
  | Some d =>
      if is_none d.(dt_offset)
      then Raise (ValueError "source observation time requires a timezone")
      else astimezone_utc d
  end.

(** The evidence kept of an observation at instant [at_] when there is an earlier
    one: the later folder listing wins, of two at once the conjunction; a header
    observation is kept unless a later one replaces it. *)
Definition merge_observation (earlier : option Observation) (at_ : Z)
    (scope_complete headers_observed : bool) : py (option text * text * bool) :=
  let stamp := isoformat (utc at_) in
  let header_at := if headers_observed then Some stamp else None in
  match earlier with
  | None => Ret (header_at, stamp, scope_complete)
  | Some e =>
      prior_at ← stored_instant e.(ob_folder_observed_at);
      let '(selected_at, complete) :=
        if (at_ <? prior_at)%Z then (e.(ob_folder_observed_at), e.(ob_folder_complete))
        else if (prior_at =? at_)%Z then (stamp, scope_complete && e.(ob_folder_complete))
        else (stamp, scope_complete) in
      match e.(ob_headers_observed_at) with
      | None => Ret (header_at, selected_at, complete)
      | Some prior_header =>
          match header_at with
          | None => Ret (Some prior_header, selected_at, complete)
          | Some _ =>
              prior_header_at ← stored_instant prior_header;
              Ret (if (at_ <? prior_header_at)%Z then Some prior_header else header_at,
                   selected_at, complete)
          end
      end
  end.

(** The confirmation the observation supports: [recorded_at]. *)
Definition location_confirmation (header_at : option text) (selected_at : text) (complete : bool)
    : option text :=
  if complete && is_some header_at then Some selected_at else None.

(** [INSERT OR IGNORE INTO message_locations] for one location. *)
Definition insert_location (source : SourceKey) (row : Location) (location : text)
    (acc : gmap (SourceKey * text) Location * nat) : gmap (SourceKey * text) Location * nat :=
  match acc.1 !! (source, location) with
  | Some _ => acc
  | None => (<[(source, location) := row]> acc.1, S acc.2)
  end.

(** [UPDATE message_locations SET recorded_at, received_at] of one source. *)
Definition restamp (source : SourceKey) (recorded_at received_at : option text)
    (k : SourceKey * text) (row : Location) : option Location :=
  Some (if decide (k.1 = source)
        then mk_location row.(lo_message_id) recorded_at
               (match received_at with Some r => Some r | None => row.(lo_received_at) end)
        else row).

(** [_record_locations] *)
Definition record_locations (message_id : text) (source : SourceKey) (locations : list text)
    (observed_at : text) (scope_complete headers_observed : bool) (received_at : option text)
    (t : LocationTables) : py (nat * LocationTables) :=
  let returned :=
    if bool_decide (locations = []) then t.(lt_returned) else {[message_id]} ∪ t.(lt_returned) in
  _ ← require (forallb (fun l => bool_decide (l ∈ MESSAGE_LOCATIONS)) locations)
        (ValueError "unknown message location");
  _ ← require (negb (headers_observed && bool_decide (locations = [])))
        (ValueError "header observation requires an admitted location");
  at_ ← observed_instant observed_at;
  evidence ← merge_observation (t.(lt_observations) !! source) at_ scope_complete headers_observed;
  let '(header_at, selected_at, complete) := evidence in
  let observations :=
    <[source := mk_observation message_id header_at selected_at complete]> t.(lt_observations) in
  let recorded_at := location_confirmation header_at selected_at complete in
  let '(rows, recorded) :=
    foldr (insert_location source (mk_location message_id recorded_at received_at))
      (t.(lt_locations), O) locations in
  Ret (recorded,
       mk_location_tables observations (map_imap (restamp source recorded_at received_at) rows)
         returned).

(** The (message, copy) pairs of a mailbox that have a location. *)
Definition located_sources (scope : MailScope) (t : LocationTables) : list (text * text) :=
  remove_dups ((fun e => (e.2.(lo_message_id), e.1.1.2)) <$>
    List.filter (fun e => bool_decide (e.1.1.1 = scope)) (map_to_list t.(lt_locations))).

(** [Store._clear_location_stamps] at instant [now]. *)
Fixpoint clear_sources (scope : MailScope) (now : Z) (l : list (text * text))
    (t : LocationTables) : py LocationTables :=
  match l with
  | [] => Ret t
  | (message_id, provider_message_id) :: l' =>
      r ← record_locations message_id (scope, provider_message_id) [] (isoformat (utc now))
            false false None t;
      clear_sources scope now l' r.2
  end.

Definition clear_location_stamps (scope : MailScope) (now : Z) (t : LocationTables)
    : py LocationTables :=
  clear_sources scope now (located_sources scope t) t.

(** * What the source-observation owner guarantees

    The confirmation cache of [message_locations] always agrees with the
    observations it was computed from, evidence never moves back in time, and a gap
    withdraws every confirmation of its mailbox that is not newer than the gap. *)

Local Open Scope Z_scope.

(** Stored stamps read back as instants. *)
Definition readable (t : text) : Prop := ∃ z, stored_instant t = Ret z.

Definition observation_ok (o : Observation) : Prop :=
  readable o.(ob_folder_observed_at) ∧
  ∀ h, o.(ob_headers_observed_at) = Some h → readable h.

Definition supported (o : Observation) : option text :=
  location_confirmation o.(ob_headers_observed_at) o.(ob_folder_observed_at) o.(ob_folder_complete).

Record LocationInv (t : LocationTables) : Prop := {
  li_readable : ∀ s o, t.(lt_observations) !! s = Some o → observation_ok o;
  li_coherent : ∀ s l row, t.(lt_locations) !! (s, l) = Some row →
    ∃ o, t.(lt_observations) !! s = Some o ∧ row.(lo_recorded_at) = supported o }.

Lemma stored_instant_isoformat w : wall_ok w = true → stored_instant (isoformat (utc w)) = Ret w.
Proof.
  intros Hw. unfold stored_instant. rewrite fromisoformat_isoformat by done.
  simpl. f_equal. unfold utc. simpl. lia.
Qed.

Lemma observed_instant_ok t w : observed_instant t = Ret w → wall_ok w = true.
Proof.
  unfold observed_instant, astimezone_utc. repeat case_match; intros; simplify_eq; try done.
Qed.

(** What one observation leaves: the folder stamp and the header stamp are one of
    the old and the new, whichever is later. *)
Lemma merge_observation_spec earlier w complete headers h s c :
  wall_ok w = true → merge_observation earlier w complete headers = Ret (h, s, c) →
  (∀ o, earlier = Some o → observation_ok o) →
  observation_ok (mk_observation [] h s c) ∧
  (∀ o z, earlier = Some o → stored_instant o.(ob_folder_observed_at) = Ret z →
     stored_instant s = Ret (Z.max z w)) ∧
  (∀ o p z, earlier = Some o → o.(ob_headers_observed_at) = Some p → stored_instant p = Ret z →
     ∃ p' z', h = Some p' ∧ stored_instant p' = Ret z' ∧ z <= z').
Proof.
  intros Hw Hm Hok. pose proof (stored_instant_isoformat w Hw) as Hs.
  unfold merge_observation in Hm. destruct earlier as [o|].
  2:{ simplify_eq. split; [|naive_solver]. split; simpl; [by eexists|].
      destruct headers; intros; simplify_eq; by eexists. }
  destruct (Hok o eq_refl) as [[z Hz] Hh]. rewrite Hz in Hm. simpl in Hm.
  set (sel := if w <? z then ob_folder_observed_at o else isoformat (utc w)).
  assert (stored_instant sel = Ret (Z.max z w)) as Hsel.
  { unfold sel. destruct (Z.ltb_spec w z); rewrite ?Hz, ?Hs; f_equal; lia. }
  assert (∃ c', (if w <? z then (ob_folder_observed_at o, ob_folder_complete o)
     else if z =? w then (isoformat (utc w), complete && ob_folder_complete o)
     else (isoformat (utc w), complete)) = (sel, c')) as [c' Hc'].
  { unfold sel. repeat case_match; by eexists. }
  rewrite Hc' in Hm.
  assert (s = sel ∧ (∀ p, h = Some p → readable p) ∧
    ∀ p zp, ob_headers_observed_at o = Some p → stored_instant p = Ret zp →
      ∃ p' z', h = Some p' ∧ stored_instant p' = Ret z' ∧ zp <= z') as (-> & Hr & Hlater).
  { destruct (ob_headers_observed_at o) as [p|].
    - destruct (Hh p eq_refl) as [zp Hzp]. destruct headers; simpl in Hm.
      + rewrite Hzp in Hm. simpl in Hm. simplify_eq. split; [done|].
        destruct (Z.ltb_spec w zp); split; try (intros ? [= <-]; by eexists);
          intros ? z' [= <-] Hz'; rewrite Hzp in Hz'; injection Hz' as <-.
        * exists p, zp. by split_and!; [| |lia].
        * eexists _, w. by split_and!; [| |lia].
      + simplify_eq. split; [done|]. split; [intros ? [= <-]; by eexists|].
        intros ? z' [= <-] Hz'. rewrite Hzp in Hz'. injection Hz' as <-.
        exists p, zp. by split_and!; [| |lia].
    - simplify_eq. split_and!; [done| |done].
      destruct headers; intros ? [= <-]. by eexists. }
  split; [split; simpl; [by eexists|done]|]. split.
  - intros ? z0 [= <-] Hz0. rewrite Hz in Hz0. by injection Hz0 as <-.
  - intros ? p zp [= <-]. apply Hlater.
Qed.

Lemma insert_location_other source row l s loc acc :
  s ≠ source → (insert_location source row l acc).1 !! (s, loc) = acc.1 !! (s, loc).
Proof.
  intros Hne. unfold insert_location. case_match; [done|]. simpl.
  by rewrite lookup_insert_ne by congruence.
Qed.

Lemma insert_locations_other source row ls s loc acc :
  s ≠ source → (foldr (insert_location source row) acc ls).1 !! (s, loc) = acc.1 !! (s, loc).
Proof.
  intros Hne. induction ls as [|l ls IH]; simpl; [done|]. by rewrite insert_location_other.
Qed.

(** One observation, in full: what it leaves of the observations and of every
    location row. *)
Lemma record_locations_spec message_id source ls observed_at complete headers received t n t' :
  LocationInv t →
  record_locations message_id source ls observed_at complete headers received t = Ret (n, t') →
  ∃ w o', observed_instant observed_at = Ret w ∧
    t'.(lt_observations) = <[source := o']> t.(lt_observations) ∧ observation_ok o' ∧
    merge_observation (t.(lt_observations) !! source) w complete headers =
      Ret (o'.(ob_headers_observed_at), o'.(ob_folder_observed_at), o'.(ob_folder_complete)) ∧
    (∀ l row, t'.(lt_locations) !! (source, l) = Some row → row.(lo_recorded_at) = supported o') ∧
    (∀ s l, s ≠ source → t'.(lt_locations) !! (s, l) = t.(lt_locations) !! (s, l)) ∧
    (∀ l row, ls = [] → t'.(lt_locations) !! (source, l) = Some row →
       is_Some (t.(lt_locations) !! (source, l))).
Proof.
  intros [Hread Hcoh] Hrec. unfold record_locations in Hrec.
  apply bind_ret_inv in Hrec as (u1 & _ & Hrec). apply bind_ret_inv in Hrec as (u2 & _ & Hrec).
  apply bind_ret_inv in Hrec as (w & Hw & Hrec).
  apply bind_ret_inv in Hrec as ([[h s] c] & Hm & Hrec).
  destruct (merge_observation_spec _ _ _ _ _ _ _ (observed_instant_ok _ _ Hw) Hm (Hread source))
    as [Hok _].
  destruct (foldr _ _ _) as [rows k] eqn:Hf. simplify_eq. simpl.
  exists w, (mk_observation message_id h s c).
  split_and!; [done|done|exact Hok|done| | |].
  - intros l row. rewrite map_lookup_imap. intros (r & _ & Hr)%bind_Some.
    unfold restamp in Hr. rewrite decide_True in Hr by done. by simplify_eq.
  - intros s' l Hne. rewrite map_lookup_imap.
    replace rows with (foldr (insert_location source (mk_location message_id (location_confirmation h s c)
      received)) (lt_locations t, O) ls).1 by (by rewrite Hf).
    rewrite insert_locations_other by done. simpl.
    destruct (lt_locations t !! (s', l)) as [r|]; simpl; [|done].
    unfold restamp. simpl. by rewrite decide_False by done.
  - intros l row -> . simpl in Hf. simplify_eq. rewrite map_lookup_imap.
    intros (r & Hr & _)%bind_Some. by eexists.
Qed.

Lemma record_locations_inv message_id source ls observed_at complete headers received t n t' :
  LocationInv t →
  record_locations message_id source ls observed_at complete headers received t = Ret (n, t') →
  LocationInv t'.
Proof.
  intros Hinv Hrec. destruct (record_locations_spec _ _ _ _ _ _ _ _ _ _ Hinv Hrec)
    as (w & o' & _ & Hobs & Hok & _ & Hrow & Hother & _). destruct Hinv as [Hread Hcoh].
  split; rewrite Hobs.
  - intros s o. rewrite lookup_insert_Some. naive_solver.
  - intros s l row Hl. destruct (decide (s = source)) as [->|Hne].
    + exists o'. rewrite lookup_insert_eq. split; [done|]. by eapply Hrow.
    + rewrite lookup_insert_ne by done. rewrite Hother in Hl by done. by eapply Hcoh.
Qed.

(** ** A gap *)

(** The observation of [s] is not newer than [now]. *)
Definition not_newer (now : Z) (t : LocationTables) (s : SourceKey) : Prop :=
  ∃ o z, t.(lt_observations) !! s = Some o ∧
    stored_instant o.(ob_folder_observed_at) = Ret z ∧ z <= now.

Definition incomplete (t : LocationTables) (s : SourceKey) : Prop :=
  ∃ o, t.(lt_observations) !! s = Some o ∧ o.(ob_folder_complete) = false.

(** Clearing one source always succeeds. *)
Lemma clear_one_total message_id s now t :
  LocationInv t → wall_ok now = true →
  ∃ r, record_locations message_id s [] (isoformat (utc now)) false false None t = Ret r.
Proof.
  intros [Hread _] Hw. unfold record_locations. simpl.
  unfold observed_instant. rewrite fromisoformat_isoformat by done. simpl.
  unfold astimezone_utc. simpl. rewrite Z.sub_0_r, Hw. simpl.
  unfold merge_observation. destruct (lt_observations t !! s) as [o|] eqn:Ho; simpl; [|by eexists].
  destruct (Hread _ _ Ho) as [[z ->] _]. simpl.
  repeat case_match; simplify_eq; by eexists.
Qed.

Lemma clear_one_spec message_id s now t n t' s' :
  LocationInv t → wall_ok now = true →
  record_locations message_id s [] (isoformat (utc now)) false false None t = Ret (n, t') →
  (not_newer now t s' → not_newer now t' s') ∧
  (not_newer now t s' → s' = s ∨ incomplete t s' → incomplete t' s') ∧
  (∀ l row, t'.(lt_locations) !! (s', l) = Some row → is_Some (t.(lt_locations) !! (s', l))).
Proof.
  intros Hinv Hw Hrec. destruct (record_locations_spec _ _ _ _ _ _ _ _ _ _ Hinv Hrec)
    as (w & o' & Hat & Hobs & _ & Hm & _ & Hother & Hrows).
  assert (w = now) as ->.
  { unfold observed_instant in Hat. rewrite fromisoformat_isoformat in Hat by done. simpl in Hat.
    unfold astimezone_utc in Hat. simpl in Hat. rewrite Z.sub_0_r, Hw in Hat. by simplify_eq. }
  unfold not_newer, incomplete. rewrite Hobs.
  destruct (decide (s' = s)) as [->|Hne].
  - rewrite !lookup_insert_eq. split_and!; [| |by eauto].
    + intros (o & z & Ho & Hz & Hle). exists o', now. split; [done|]. split; [|lia].
      destruct (merge_observation_spec _ _ _ _ _ _ _ Hw Hm (li_readable _ Hinv s)) as (_ & Hf & _).
      rewrite (Hf _ _ Ho Hz). f_equal. lia.
    + intros (o & z & Ho & Hz & Hle) _. exists o'. split; [done|].
      unfold merge_observation in Hm. rewrite Ho, Hz in Hm. simpl in Hm.
      destruct (Z.ltb_spec now z); [lia|]. repeat case_match; by simplify_eq.
  - rewrite !lookup_insert_ne by done. split_and!; [done|naive_solver|].
    intros l row. rewrite Hother by done. by eauto.
Qed.

Lemma clear_sources_spec scope now l t :
  LocationInv t → wall_ok now = true →
  ∃ t', clear_sources scope now l t = Ret t' ∧ LocationInv t' ∧
    (∀ s k row, t'.(lt_locations) !! (s, k) = Some row → is_Some (t.(lt_locations) !! (s, k))) ∧
    ∀ p, not_newer now t (scope, p) → p ∈ l.*2 ∨ incomplete t (scope, p) →
      incomplete t' (scope, p).
Proof.
  revert t. induction l as [|[m q] l IH]; intros t Hinv Hw; simpl.
  { exists t. split_and!; [done..|by eauto|]. intros p _ [?%elem_of_nil|?]; done. }
  destruct (clear_one_total m (scope, q) now t Hinv Hw) as [[n t1] Hrec]. rewrite Hrec. simpl.
  pose proof (record_locations_inv _ _ _ _ _ _ _ _ _ _ Hinv Hrec) as Hinv1.
  destruct (IH t1 Hinv1 Hw) as (t' & Hc & Hinv' & Hrows & Hinc).
  exists t'. split_and!; [done..| |].
  - intros s k row Hr. destruct (Hrows _ _ _ Hr) as [row1 Hr1].
    by eapply (clear_one_spec _ _ _ _ _ _ s Hinv Hw Hrec).
  - intros p Hnn Hp. destruct (clear_one_spec _ _ _ _ _ _ (scope, p) Hinv Hw Hrec) as (H1 & H2 & _).
    apply Hinc; [by apply H1|]. rewrite elem_of_cons in Hp.
    destruct Hp as [[->|Hp]|Hp]; [right; apply H2; [done|by left]|by left|right].
    apply H2; [done|by right].
Qed.

(** ** Properties *)

Definition no_locations : LocationTables := mk_location_tables ∅ ∅ ∅.

(** Every committed observation. *)
Inductive observed : LocationTables → Prop :=
| observed_none : observed no_locations
| observed_more message_id source ls at_ complete headers received t n t' :
    observed t →
    record_locations message_id source ls at_ complete headers received t = Ret (n, t') →
    observed t'.

Lemma observed_inv t : observed t → LocationInv t.
Proof.
  induction 1; [|by eapply record_locations_inv].
  split; simpl; intros; simplify_map_eq.
Qed.

Lemma clear_sources_observed scope now l t t' :
  observed t → clear_sources scope now l t = Ret t' → observed t'.
Proof.
  revert t. induction l as [|[m q] l IH]; intros t Ht Hc; simpl in Hc; [by simplify_eq|].
  apply bind_ret_inv in Hc as ([n t1] & Hrec & Hc). eapply IH; [|done].
  by eapply observed_more.
Qed.

Lemma located_source scope p l row t :
  t.(lt_locations) !! (scope, p, l) = Some row → p ∈ (located_sources scope t).*2.
Proof.
  intros Hl. apply list_elem_of_fmap. exists (lo_message_id row, p). split; [done|].
  apply elem_of_remove_dups, list_elem_of_fmap. exists (scope, p, l, row). split; [done|].
  apply list_elem_of_In, filter_In. split; [|by apply bool_decide_eq_true_2].
  by apply list_elem_of_In, elem_of_map_to_list.
Qed.

(** After any sequence of observations, every location row caches exactly the
    confirmation its source's observation supports: the time of a complete folder
    listing if the headers were observed too, and otherwise none. *)
Theorem location_cache_coherent t s l row :
  observed t → t.(lt_locations) !! (s, l) = Some row →
  ∃ o, t.(lt_observations) !! s = Some o ∧
    row.(lo_recorded_at) =
      if o.(ob_folder_complete) && is_some o.(ob_headers_observed_at)
      then Some o.(ob_folder_observed_at) else None.
Proof. intros [_ Hc]%observed_inv. apply Hc. Qed.

(** Evidence never moves back: an observation of a copy leaves its folder stamp at the
    later of the stored and the observed instant, and keeps or advances a header
    stamp. *)
Theorem observation_monotone message_id s ls at_ complete headers received t n t' o z :
  observed t →
  record_locations message_id s ls at_ complete headers received t = Ret (n, t') →
  t.(lt_observations) !! s = Some o → stored_instant o.(ob_folder_observed_at) = Ret z →
  ∃ o' w, t'.(lt_observations) !! s = Some o' ∧ observed_instant at_ = Ret w ∧
    stored_instant o'.(ob_folder_observed_at) = Ret (Z.max z w) ∧
    ∀ h zh, o.(ob_headers_observed_at) = Some h → stored_instant h = Ret zh →
      ∃ h' zh', o'.(ob_headers_observed_at) = Some h' ∧ stored_instant h' = Ret zh' ∧ zh <= zh'.
Proof.
  intros Hobs Hrec Ho Hz. apply observed_inv in Hobs.
  destruct (record_locations_spec _ _ _ _ _ _ _ _ _ _ Hobs Hrec)
    as (w & o' & Hw & Hnew & _ & Hm & _).
  destruct (merge_observation_spec _ _ _ _ _ _ _ (observed_instant_ok _ _ Hw) Hm
    (li_readable _ Hobs s)) as (_ & Hf & Hh).
  exists o', w. rewrite Hnew, lookup_insert_eq. split_and!; [done|done|by eapply Hf|].
  intros h zh Hho Hzh. by eapply Hh.
Qed.

(** Clearing a mailbox after a gap always succeeds and withdraws the confirmation of
    every one of its locations whose folders were last observed no later than the gap;
    it adds no location. *)
Theorem gap_withdraws_confirmations scope now t :
  observed t → wall_ok now = true →
  ∃ t', clear_location_stamps scope now t = Ret t' ∧ observed t' ∧
    ∀ p l row o z, t'.(lt_locations) !! (scope, p, l) = Some row →
      t.(lt_observations) !! (scope, p) = Some o →
      stored_instant o.(ob_folder_observed_at) = Ret z → z <= now →
      is_Some (t.(lt_locations) !! (scope, p, l)) ∧ row.(lo_recorded_at) = None.
Proof.
  intros Hobs Hw. pose proof (observed_inv _ Hobs) as Hinv.
  destruct (clear_sources_spec scope now (located_sources scope t) t Hinv Hw)
    as (t' & Hc & [_ Hcoh] & Hrows & Hinc).
  exists t'. split_and!; [done|by eapply clear_sources_observed|].
  intros p l row o z Hrow Ho Hz Hle. destruct (Hrows _ _ _ Hrow) as [row0 Hrow0].
  split; [by eexists|]. destruct (Hinc p) as (o' & Ho' & Hfalse).
  - by exists o, z.
  - left. by eapply located_source.
  - destruct (Hcoh _ _ _ Hrow) as (o2 & Ho2 & ->). rewrite Ho' in Ho2. simplify_eq.
    unfold supported, location_confirmation. by rewrite Hfalse.
Qed.

(** ** A concrete mailbox *)
Module LocationDemo.

Definition scope : MailScope := (str "gmail", str "me", str "mailbox").
Definition day (d : Z) : Z := ymd_days 2026 3 d * DAY.
Definition source : SourceKey := (scope, str "p1").

Abbreviation first_seen := (record_locations (str "m1") source [INBOX_LOCATION]
  (isoformat (utc (day 1))) true true None no_locations).

Definition tables_of (m : py (nat * LocationTables)) : LocationTables :=
  match m with Ret (_, t) => t | Raise _ => no_locations end.

Lemma counted_ret m n :
  match m with Ret (k, _) => Some k | Raise _ => None end = Some n → m = Ret (n, tables_of m).
Proof. destruct m as [[]|]; simpl; congruence. Qed.

Definition t1 : LocationTables := tables_of first_seen.

Lemma first_seen_ret : first_seen = Ret (1%nat, t1).
Proof. apply counted_ret. vm_compute. reflexivity. Qed.

Lemma t1_observed : observed t1.
Proof. exact (observed_more _ _ _ _ _ _ _ _ _ _ observed_none first_seen_ret). Qed.

Definition row1 : Location :=
  mk_location (str "m1") (Some (isoformat (utc (day 1)))) None.
Definition obs1 : Observation :=
  mk_observation (str "m1") (Some (isoformat (utc (day 1)))) (isoformat (utc (day 1))) true.

Lemma t1_row : lt_locations t1 !! (source, INBOX_LOCATION) = Some row1.
Proof. vm_compute. reflexivity. Qed.

Lemma t1_obs : lt_observations t1 !! source = Some obs1.
Proof. vm_compute. reflexivity. Qed.

Lemma obs1_instant : stored_instant (ob_folder_observed_at obs1) = Ret (day 1).
Proof. vm_compute. reflexivity. Qed.

Abbreviation seen_again := (record_locations (str "m1") source [] (isoformat (utc (day 2)))
  false false None t1).

Definition t2 : LocationTables := tables_of seen_again.

Lemma seen_again_ret : seen_again = Ret (0%nat, t2).
Proof. apply counted_ret. vm_compute. reflexivity. Qed.

Lemma location_cache_coherent_witness :
  ∃ o, lt_observations t1 !! source = Some o ∧
    lo_recorded_at row1 = if ob_folder_complete o && is_some (ob_headers_observed_at o)
      then Some (ob_folder_observed_at o) else None.
Proof. exact (location_cache_coherent t1 source INBOX_LOCATION row1 t1_observed t1_row). Defined.

Lemma observation_monotone_witness :
  ∃ o' w, lt_observations t2 !! source = Some o' ∧
    stored_instant (ob_folder_observed_at o') = Ret (Z.max (day 1) w).
Proof.
  destruct (observation_monotone (str "m1") source [] _ false false None t1 _ t2 obs1 (day 1)
    t1_observed seen_again_ret t1_obs obs1_instant) as (o' & w & H1 & _ & H3 & _).
  exact (ex_intro _ o' (ex_intro _ w (conj H1 H3))).
Defined.

Lemma gap_withdraws_confirmations_witness :
  ∃ t', clear_location_stamps scope (day 3) t1 = Ret t' ∧ observed t'.
Proof.
  destruct (gap_withdraws_confirmations scope (day 3) t1 t1_observed eq_refl)
    as (t' & H1 & H2 & _).
  exact (ex_intro _ t' (conj H1 H2)).
Defined.

End LocationDemo.
