(* ===== verification/AutomationStore.v ===== *)
(** * The scheduling-automation tables of the store

    Rows and tables of [db.py] behind the calendar automation: the runs, their
    append-only event log, extraction and proposal payloads, calendar writes, and
    the columns of the message, follow and removal tables that decide whether a
    run's source is available.  A table with a primary key that every statement
    addresses is a [gmap]; a table scanned in insertion order is a list.

    The writes of this file check the constraints the schema declares
    ([_AUTOMATION_TABLES_SQL]): a row that violates a CHECK, a PRIMARY KEY or a
    UNIQUE constraint raises [IntegrityError]. *)

From S2P Require Export Text Sha256 IsoTimeFacts.
From stdpp Require Import options.

Local Open Scope Z_scope.

(** ** Enumerations *)

Inductive run_state :=
| RDetected | RExtracting | RAmbiguous | RManualReview | RProposing
| RAwaitingConfirmation | RDeclined | RWriteAuthorized | RWriting
| RCompleted | RFailed | RUnresolved | RSourceUnavailable | RReconciling.

Inductive write_status :=
| WAuthorized | WWriting | WUnresolved | WReconciling | WCompleted | WFailed | WCancelled.

Inductive extraction_status := XReserved | XAccepted | XRejected.
Inductive proposal_status := PAccepted | PNoSuggestions.
Inductive event_decision := DConfirmed | DDeclined.

(** Why a source went away: [cause] of [_cancel_automation_source]. *)
Inductive source_cause := CauseSourceUnavailable | CauseThreadUnfollowed.

Global Instance run_state_eq_dec : EqDecision run_state.
Proof. solve_decision. Defined.
Global Instance write_status_eq_dec : EqDecision write_status.
Proof. solve_decision. Defined.
Global Instance extraction_status_eq_dec : EqDecision extraction_status.
Proof. solve_decision. Defined.
Global Instance proposal_status_eq_dec : EqDecision proposal_status.
Proof. solve_decision. Defined.
Global Instance event_decision_eq_dec : EqDecision event_decision.
Proof. solve_decision. Defined.
Global Instance source_cause_eq_dec : EqDecision source_cause.
Proof. solve_decision. Defined.

Definition cause_text (c : source_cause) : text :=
  match c with
  | CauseSourceUnavailable => str "source_unavailable"
  | CauseThreadUnfollowed => str "thread_unfollowed"
  end.

(** [automation_source_loss_requires_review] *)
Definition automation_source_loss_requires_review (cause : text) : bool :=
  negb (bool_decide (cause = str "thread_unfollowed")).

Definition SCHEDULING_AUTOMATION_ID : text := str "email.schedule_event".
Definition SCHEDULING_AUTOMATION_VERSION : Z := 1.
Definition SCHEDULING_EXTRACTION_SCHEMA_VERSION : Z := 1.
Definition AUTOMATION_RETRY_DELAYS_SECONDS : list Z := [60; 300; 900; 3600].
Definition MAX_AUTOMATION_PROPOSAL_ATTENDEES : nat := 64.

(** ** Rows *)

(** The columns of [automation_runs] no statement of the automation updates. *)
Record RunKey := {
  rk_run_id : text;
  rk_provider : text;
  rk_account_id : text;
  rk_calendar_principal_key : text;
  rk_source_message_key : text;
  rk_automation_id : text;
  rk_automation_version : Z;
  rk_extraction_schema_version : Z;
  rk_expires_at : text;
  rk_created_at : text }.

(** The pinned extraction context. *)
Record RunContext := {
  rc_source_content_sha256 : option text;
  rc_extraction_context_at : option text;
  rc_extraction_timezone : option text;
  rc_extraction_body_char_limit : option Z }.

Record AutomationRun := {
  run_key : RunKey;
  run_st : run_state;
  run_version : Z;
  run_failure_code : option text;
  run_context : RunContext;
  run_current_payload_id : option text;
  run_current_payload_sha256 : option text;
  run_review_notified_at : option text;
  run_updated_at : text }.

Record AutomationEvent := {
  ev_event_id : text;
  ev_run_id : text;
  ev_sequence_no : Z;
  ev_previous_state : option run_state;
  ev_next_state : run_state;
  ev_state_version : Z;
  ev_automation_id : text;
  ev_automation_version : Z;
  ev_extraction_schema_version : Z;
  ev_calendar_principal_key : text;
  ev_transition_kind : run_state;
  ev_failure_code : option text;
  ev_payload_id : option text;
  ev_payload_sha256 : option text;
  ev_decision : option event_decision;
  ev_transaction_id : option text;
  ev_graph_event_id : option text;
  ev_created_at : text }.

Record AutomationExtractionPayload := {
  ex_payload_id : text;
  ex_run_id : text;
  ex_attempt_no : Z;
  ex_request_id : text;
  ex_status : extraction_status;
  ex_source_content_sha256 : text;
  ex_context_at : text;
  ex_timezone : text;
  ex_body_char_limit : Z;
  ex_organizer_address : option text;
  ex_failure_count : Z;
  ex_next_retry_at : option text;
  ex_last_error_code : option text;
  ex_result_sha256 : option text;
  ex_result_json : option bytes;
  ex_violations_json : option bytes;
  ex_created_at : text;
  ex_completed_at : option text }.

Record AutomationProposalPayload := {
  pr_payload_id : text;
  pr_run_id : text;
  pr_proposal_version : Z;
  pr_status : proposal_status;
  pr_request_sha256 : text;
  pr_proposal_sha256 : text;
  pr_subject : text;
  pr_attendees_json : bytes;
  pr_start : option text;
  pr_end : option text;
  pr_timezone : option text;
  pr_suggestion_reason : option text;
  pr_empty_reason : option text;
  pr_observed_at : text;
  pr_expires_at : option text;
  pr_created_at : text }.

Record AutomationCalendarWrite := {
  wr_run_id : text;
  wr_transaction_id : text;
  wr_proposal_version : Z;
  wr_proposal_sha256 : text;
  wr_calendar_principal_key : text;
  wr_calendar_id : text;
  wr_start : text;
  wr_end : text;
  wr_timezone : text;
  wr_status : write_status;
  wr_graph_event_id : option text;
  wr_failure_code : option text;
  wr_confirmed_at : text;
  wr_submitted_at : option text;
  wr_completed_at : option text;
  wr_updated_at : text }.

(** The columns of [messages] the automation joins on. *)
Record MessageRow := {
  ms_message_id : text;
  ms_provider : text;
  ms_account_id : text;
  ms_mailbox_identity_key : option text;
  ms_provider_message_id : text;
  ms_logical_of : option text;
  ms_thread_key : option text;
  ms_received_at : option text;
  ms_discovered_at : option text }.

Record ThreadFollowRow := {
  tf_provider : text;
  tf_account_id : text;
  tf_mailbox_identity_key : text;
  tf_thread_key : text;
  tf_followed : bool }.

Record MailAccountRow := {
  ma_provider : text;
  ma_account_id : text;
  ma_legacy_identity_key : option text;
  ma_continuity_proven : bool }.

(** One member of [source_identities_json]. *)
Record SourceIdentity := {
  si_provider : text;
  si_account_id : text;
  si_mailbox_identity_key : option text;
  si_provider_message_id : text }.

Inductive removal_kind := KDelete | KClear | KUnfollow.

Global Instance removal_kind_eq_dec : EqDecision removal_kind.
Proof. solve_decision. Defined.

Record RemovalIntentRow := {
  ri_intent_id : text;
  ri_kind : removal_kind;
  ri_mailbox_identity_key : option text;
  ri_pending : bool }.

Record RemovalTargetRow := {
  rt_intent_id : text;
  rt_message_id : text;
  rt_provider : text;
  rt_account_id : text;
  rt_stored_identity_key : option text;
  rt_provider_message_id : text;
  rt_source_identities : list SourceIdentity;
  rt_pending : bool }.

(** Tables owned by the message, follow and removal components: the automation
    only reads them. *)
Record SourceTables := {
  st_messages : list MessageRow;
  st_thread_follow : list ThreadFollowRow;
  st_mail_accounts : list MailAccountRow;
  (** [has_schema]: the removal tables exist. *)
  st_has_removal_schema : bool;
  st_intents : list RemovalIntentRow;
  st_targets : list RemovalTargetRow }.

(** The store as the automation sees it. *)
Record Db := {
  db_runs : gmap text AutomationRun;
  db_identities : gmap text text;
  db_events : list AutomationEvent;
  db_extractions : list AutomationExtractionPayload;
  db_proposals : list AutomationProposalPayload;
  db_writes : gmap text AutomationCalendarWrite;
  db_sources : SourceTables }.

Definition set_runs (db : Db) x := {| db_runs := x; db_identities := db.(db_identities);
  db_events := db.(db_events); db_extractions := db.(db_extractions);
  db_proposals := db.(db_proposals); db_writes := db.(db_writes);
  db_sources := db.(db_sources) |}.
Definition set_identities (db : Db) x := {| db_runs := db.(db_runs); db_identities := x;
  db_events := db.(db_events); db_extractions := db.(db_extractions);
  db_proposals := db.(db_proposals); db_writes := db.(db_writes);
  db_sources := db.(db_sources) |}.
Definition set_events (db : Db) x := {| db_runs := db.(db_runs);
  db_identities := db.(db_identities); db_events := x;
  db_extractions := db.(db_extractions); db_proposals := db.(db_proposals);
  db_writes := db.(db_writes); db_sources := db.(db_sources) |}.
Definition set_extractions (db : Db) x := {| db_runs := db.(db_runs);
  db_identities := db.(db_identities); db_events := db.(db_events);
  db_extractions := x; db_proposals := db.(db_proposals);
  db_writes := db.(db_writes); db_sources := db.(db_sources) |}.
Definition set_proposals (db : Db) x := {| db_runs := db.(db_runs);
  db_identities := db.(db_identities); db_events := db.(db_events);
  db_extractions := db.(db_extractions); db_proposals := x;
  db_writes := db.(db_writes); db_sources := db.(db_sources) |}.
Definition set_writes (db : Db) x := {| db_runs := db.(db_runs);
  db_identities := db.(db_identities); db_events := db.(db_events);
  db_extractions := db.(db_extractions); db_proposals := db.(db_proposals);
  db_writes := x; db_sources := db.(db_sources) |}.
Definition set_sources (db : Db) x := {| db_runs := db.(db_runs);
  db_identities := db.(db_identities); db_events := db.(db_events);
  db_extractions := db.(db_extractions); db_proposals := db.(db_proposals);
  db_writes := db.(db_writes); db_sources := x |}.

(** ** Column checks *)

Definition opt_all {A} (f : A → bool) (o : option A) : bool :=
  match o with Some a => f a | None => true end.

(** [length(x) = n], in characters. *)
Definition len_is (n : nat) (t : text) : bool := bool_decide (length t = n).

(** [length(CAST(x AS BLOB)) <= n], in UTF-8 bytes. *)
Definition blob_at_most (n : nat) (t : text) : bool := within_utf8_bytes t n.

Definition blob_between (lo hi : nat) (t : text) : bool :=
  match utf8_size t with Some k => bool_decide (lo <= k <= hi)%nat | None => false end.

Definition bytes_between (lo hi : Z) (b : bytes) : bool :=
  (lo <=? Z.of_nat (length b)) && (Z.of_nat (length b) <=? hi).

(** CHECK clauses of [automation_runs]. *)
Definition run_row_ok (r : AutomationRun) : bool :=
  let k := r.(run_key) in
  len_is 36 k.(rk_run_id) && truthy k.(rk_provider) && truthy k.(rk_account_id) &&
  len_is 64 k.(rk_calendar_principal_key) && len_is 64 k.(rk_source_message_key) &&
  truthy k.(rk_automation_id) && (0 <? k.(rk_automation_version)) &&
  (0 <? k.(rk_extraction_schema_version)) && (1 <=? r.(run_version)) &&
  opt_all (len_is 64) r.(run_context).(rc_source_content_sha256) &&
  opt_all (Z.ltb 0) r.(run_context).(rc_extraction_body_char_limit) &&
  opt_all (len_is 36) r.(run_current_payload_id) &&
  opt_all (len_is 64) r.(run_current_payload_sha256) &&
  (negb (bool_decide (r.(run_st) = RDetected)) || is_none r.(run_failure_code)) &&
  (negb (bool_decide (r.(run_st) = RSourceUnavailable)) ||
   bool_decide (r.(run_failure_code) = Some (str "source_unavailable"))).

(** CHECK clauses of [automation_events]. *)
Definition event_row_ok (e : AutomationEvent) : bool :=
  len_is 36 e.(ev_event_id) && truthy e.(ev_run_id) && (0 <=? e.(ev_sequence_no)) &&
  (1 <=? e.(ev_state_version)) && truthy e.(ev_automation_id) &&
  (0 <? e.(ev_automation_version)) && (0 <? e.(ev_extraction_schema_version)) &&
  len_is 64 e.(ev_calendar_principal_key) &&
  opt_all (len_is 36) e.(ev_payload_id) && opt_all (len_is 64) e.(ev_payload_sha256) &&
  opt_all (len_is 36) e.(ev_transaction_id) &&
  opt_all (blob_between 1 512) e.(ev_graph_event_id) &&
  (if decide (e.(ev_next_state) = RDetected) then
     is_none e.(ev_previous_state) && (e.(ev_sequence_no) =? 0) &&
     (e.(ev_state_version) =? 1) && bool_decide (e.(ev_transition_kind) = RDetected) &&
     is_none e.(ev_failure_code)
   else
     is_some e.(ev_previous_state) && (1 <=? e.(ev_sequence_no)) &&
     (e.(ev_state_version) =? e.(ev_sequence_no) + 1)).

(** The JSON text of an empty violation list. *)
Definition empty_list_json : bytes := [91; 93]%N.

(** CHECK clauses of [automation_extraction_payloads]. *)
Definition extraction_row_ok (x : AutomationExtractionPayload) : bool :=
  len_is 36 x.(ex_payload_id) && truthy x.(ex_run_id) &&
  ((x.(ex_attempt_no) =? 1) || (x.(ex_attempt_no) =? 2)) && len_is 36 x.(ex_request_id) &&
  len_is 64 x.(ex_source_content_sha256) && truthy x.(ex_context_at) &&
  truthy x.(ex_timezone) && (0 <? x.(ex_body_char_limit)) &&
  opt_all (fun a => truthy a && bool_decide (length a <= 320)%nat) x.(ex_organizer_address) &&
  (0 <=? x.(ex_failure_count)) &&
  opt_all (fun t => bool_decide (1 <= length t <= 64)%nat) x.(ex_last_error_code) &&
  opt_all (len_is 64) x.(ex_result_sha256) &&
  opt_all (bytes_between 1 32768) x.(ex_result_json) &&
  opt_all (bytes_between 2 8192) x.(ex_violations_json) &&
  match x.(ex_status) with
  | XReserved =>
      is_none x.(ex_result_sha256) && is_none x.(ex_result_json) &&
      is_none x.(ex_violations_json) && is_none x.(ex_completed_at)
  | XAccepted =>
      is_some x.(ex_result_sha256) && is_some x.(ex_result_json) &&
      bool_decide (x.(ex_violations_json) = Some empty_list_json) && is_some x.(ex_completed_at)
  | XRejected =>
      is_some x.(ex_result_sha256) && is_some x.(ex_result_json) &&
      is_some x.(ex_violations_json) &&
      negb (bool_decide (x.(ex_violations_json) = Some empty_list_json)) &&
      is_some x.(ex_completed_at)
  end.

(** CHECK clauses of [automation_proposal_payloads]. *)
Definition proposal_row_ok (p : AutomationProposalPayload) : bool :=
  len_is 36 p.(pr_payload_id) && truthy p.(pr_run_id) && (0 <? p.(pr_proposal_version)) &&
  len_is 64 p.(pr_request_sha256) && len_is 64 p.(pr_proposal_sha256) &&
  blob_at_most 512 p.(pr_subject) && bytes_between 2 32768 p.(pr_attendees_json) &&
  opt_all (blob_at_most 64) p.(pr_start) && opt_all (blob_at_most 64) p.(pr_end) &&
  opt_all (blob_at_most 128) p.(pr_timezone) &&
  opt_all (blob_at_most 512) p.(pr_suggestion_reason) &&
  opt_all (blob_at_most 512) p.(pr_empty_reason) && truthy p.(pr_observed_at) &&
  match p.(pr_status) with
  | PAccepted =>
      is_some p.(pr_start) && is_some p.(pr_end) && is_some p.(pr_timezone) &&
      is_some p.(pr_suggestion_reason) && is_none p.(pr_empty_reason) &&
      is_some p.(pr_expires_at)
  | PNoSuggestions =>
      is_none p.(pr_start) && is_none p.(pr_end) && is_none p.(pr_timezone) &&
      is_none p.(pr_suggestion_reason) && is_some p.(pr_empty_reason) &&
      is_none p.(pr_expires_at)
  end.

(** CHECK clauses of [automation_calendar_writes]. *)
Definition write_row_ok (w : AutomationCalendarWrite) : bool :=
  truthy w.(wr_run_id) && len_is 36 w.(wr_transaction_id) && (0 <? w.(wr_proposal_version)) &&
  len_is 64 w.(wr_proposal_sha256) && len_is 64 w.(wr_calendar_principal_key) &&
  bool_decide (w.(wr_calendar_id) = str "primary") &&
  blob_at_most 64 w.(wr_start) && blob_at_most 64 w.(wr_end) && blob_at_most 128 w.(wr_timezone) &&
  opt_all (blob_between 1 512) w.(wr_graph_event_id) &&
  opt_all (fun t => bool_decide (1 <= length t <= 64)%nat) w.(wr_failure_code) &&
  (if decide (w.(wr_status) = WCompleted)
   then is_some w.(wr_graph_event_id) && is_some w.(wr_completed_at)
   else is_none w.(wr_graph_event_id) && is_none w.(wr_completed_at)).

(** ** Statements *)

(** The admission identity of a run, UNIQUE in [automation_runs]. *)
Definition run_unique (r : AutomationRun) : text * text * text * text * Z :=
  let k := r.(run_key) in
  (k.(rk_provider), k.(rk_account_id), k.(rk_source_message_key),
   k.(rk_automation_id), k.(rk_automation_version)).

Definition runs_with_unique (db : Db) (r : AutomationRun) : list (text * AutomationRun) :=
  List.filter (fun kv => bool_decide (run_unique kv.2 = run_unique r)) (map_to_list db.(db_runs)).

(** [INSERT INTO automation_runs ... ON CONFLICT(...) DO NOTHING]: the new
    database and [rowcount]. *)
Definition insert_run (db : Db) (r : AutomationRun) : py (Db * bool) :=
  _ ← require (run_row_ok r) (IntegrityError "automation_runs CHECK");
  match runs_with_unique db r with
  | _ :: _ => Ret (db, false)
  | [] =>
      match db.(db_runs) !! r.(run_key).(rk_run_id) with
      | Some _ => Raise (IntegrityError "automation_runs.run_id")
      | None => Ret (set_runs db (<[r.(run_key).(rk_run_id) := r]> db.(db_runs)), true)
      end
  end.

(** [UPDATE automation_runs SET ... WHERE run_id = ? AND guard]: the new database
    and whether [rowcount] was 1. *)
Definition update_run (db : Db) (run_id : text) (guard : AutomationRun → bool)
    (f : AutomationRun → AutomationRun) : py (Db * bool) :=
  match db.(db_runs) !! run_id with
  | None => Ret (db, false)
  | Some r =>
      if guard r then
        _ ← require (run_row_ok (f r)) (IntegrityError "automation_runs CHECK");
        Ret (set_runs db (<[run_id := f r]> db.(db_runs)), true)
      else Ret (db, false)
  end.

(** [INSERT INTO automation_events]: event ids, and (run, sequence) and (run,
    version) pairs, are unique. *)
Definition insert_event (db : Db) (e : AutomationEvent) : py Db :=
  _ ← require (event_row_ok e) (IntegrityError "automation_events CHECK");
  _ ← require (negb (existsb (fun o =>
        bool_decide (o.(ev_event_id) = e.(ev_event_id)) ||
        (bool_decide (o.(ev_run_id) = e.(ev_run_id)) &&
         ((o.(ev_sequence_no) =? e.(ev_sequence_no)) ||
          (o.(ev_state_version) =? e.(ev_state_version))))) db.(db_events)))
      (IntegrityError "automation_events UNIQUE");
  Ret (set_events db (db.(db_events) ++ [e])%list).

Definition insert_extraction (db : Db) (x : AutomationExtractionPayload) : py Db :=
  _ ← require (extraction_row_ok x) (IntegrityError "automation_extraction_payloads CHECK");
  _ ← require (negb (existsb (fun o =>
        bool_decide (o.(ex_payload_id) = x.(ex_payload_id)) ||
        bool_decide (o.(ex_request_id) = x.(ex_request_id)) ||
        (bool_decide (o.(ex_run_id) = x.(ex_run_id)) &&
         (o.(ex_attempt_no) =? x.(ex_attempt_no)))) db.(db_extractions)))
      (IntegrityError "automation_extraction_payloads UNIQUE");
  Ret (set_extractions db (db.(db_extractions) ++ [x])%list).

(** [UPDATE automation_extraction_payloads ... WHERE payload_id = ? AND run_id = ?
    AND status = 'reserved'] *)
Definition update_reserved_extraction (db : Db) (payload_id run_id : text)
    (f : AutomationExtractionPayload → AutomationExtractionPayload) : py (Db * bool) :=
  let hit x := bool_decide (x.(ex_payload_id) = payload_id) &&
               bool_decide (x.(ex_run_id) = run_id) &&
               bool_decide (x.(ex_status) = XReserved) in
  _ ← require (forallb (fun x => negb (hit x) || extraction_row_ok (f x)) db.(db_extractions))
        (IntegrityError "automation_extraction_payloads CHECK");
  Ret (set_extractions db ((fun x => if hit x then f x else x) <$> db.(db_extractions)),
       bool_decide (length (List.filter hit db.(db_extractions)) = 1%nat)).

Definition insert_proposal (db : Db) (p : AutomationProposalPayload) : py Db :=
  _ ← require (proposal_row_ok p) (IntegrityError "automation_proposal_payloads CHECK");
  _ ← require (negb (existsb (fun o =>
        bool_decide (o.(pr_payload_id) = p.(pr_payload_id)) ||
        (bool_decide (o.(pr_run_id) = p.(pr_run_id)) &&
         (o.(pr_proposal_version) =? p.(pr_proposal_version)))) db.(db_proposals)))
      (IntegrityError "automation_proposal_payloads UNIQUE");
  Ret (set_proposals db (db.(db_proposals) ++ [p])%list).

Definition insert_write (db : Db) (w : AutomationCalendarWrite) : py Db :=
  _ ← require (write_row_ok w) (IntegrityError "automation_calendar_writes CHECK");
  _ ← require (is_none (db.(db_writes) !! w.(wr_run_id)) &&
        forallb (fun kv => negb (bool_decide (kv.2.(wr_transaction_id) = w.(wr_transaction_id))))
          (map_to_list db.(db_writes)))
      (IntegrityError "automation_calendar_writes UNIQUE");
  Ret (set_writes db (<[w.(wr_run_id) := w]> db.(db_writes))).

(** [UPDATE automation_calendar_writes ... WHERE run_id = ? AND status = ?] *)
Definition update_write (db : Db) (run_id : text) (status : write_status)
    (f : AutomationCalendarWrite → AutomationCalendarWrite) : py (Db * bool) :=
  match db.(db_writes) !! run_id with
  | None => Ret (db, false)
  | Some w =>
      if decide (w.(wr_status) = status) then
        _ ← require (write_row_ok (f w)) (IntegrityError "automation_calendar_writes CHECK");
        Ret (set_writes db (<[run_id := f w]> db.(db_writes)), true)
      else Ret (db, false)
  end.

Definition delete_extractions (db : Db) (run_id : text) : Db :=
  set_extractions db
    (List.filter (fun x => negb (bool_decide (x.(ex_run_id) = run_id))) db.(db_extractions)).

Definition delete_proposals (db : Db) (run_id : text) : Db :=
  set_proposals db
    (List.filter (fun p => negb (bool_decide (p.(pr_run_id) = run_id))) db.(db_proposals)).

(** ** Queries *)

(** [... FROM automation_events WHERE run_id = ?], in insertion order. *)
Definition events_of (db : Db) (run_id : text) : list AutomationEvent :=
  List.filter (fun e => bool_decide (e.(ev_run_id) = run_id)) db.(db_events).

(** [... FROM automation_extraction_payloads WHERE run_id = ? ORDER BY attempt_no] *)
Definition extraction_rows (db : Db) (run_id : text) : list AutomationExtractionPayload :=
  List.filter (fun x => bool_decide (x.(ex_run_id) = run_id)) db.(db_extractions).

Definition extractions_of (db : Db) (run_id : text) : list AutomationExtractionPayload :=
  order_by ex_attempt_no (extraction_rows db run_id).

Definition extraction_by_id (db : Db) (payload_id : text) : option AutomationExtractionPayload :=
  List.find (fun x => bool_decide (x.(ex_payload_id) = payload_id)) db.(db_extractions).

Definition proposals_of (db : Db) (run_id : text) : list AutomationProposalPayload :=
  List.filter (fun p => bool_decide (p.(pr_run_id) = run_id)) db.(db_proposals).

(** [Store.automation_events]: the log of a run, [ORDER BY sequence_no]. *)
Definition automation_events (db : Db) (run_id : text) : list AutomationEvent :=
  order_by ev_sequence_no (events_of db run_id).
