(* ===== verification/AutomationSources.v ===== *)
(** * Source availability of an automation run

    Which runs still have a usable source: the removal component's eligibility
    predicate ([removal.py: _Eligibility.available_sql]), the binding of a run to
    its physical message ([_automation_message_binding_sql]), the resolution of
    its logical owner ([_scheduling_source_join_sql]), and the two admission
    predicates built on them ([_automation_source_available_sql],
    [_scheduling_preparation_available_sql]).  Every predicate is the boolean
    reading of the SQL text the function builds. *)

From S2P Require Export AutomationStore.
From stdpp Require Import options.

(** ** Removal eligibility *)

(** The columns [available_sql] reads of its alias. *)
Record SourceRow := {
  sr_message_id : text;
  sr_provider : text;
  sr_account_id : text;
  sr_mailbox_identity_key : option text;
  sr_provider_message_id : text }.

Definition source_of_message (m : MessageRow) : SourceRow := {|
  sr_message_id := m.(ms_message_id);
  sr_provider := m.(ms_provider);
  sr_account_id := m.(ms_account_id);
  sr_mailbox_identity_key := m.(ms_mailbox_identity_key);
  sr_provider_message_id := m.(ms_provider_message_id) |}.

Definition intents_of_target (st : SourceTables) (t : RemovalTargetRow) : list RemovalIntentRow :=
  List.filter (fun i => bool_decide (i.(ri_intent_id) = t.(rt_intent_id))) st.(st_intents).

(** [_Eligibility.available_sql]: no pending target of a pending intent names
    this source.  [include_unfollow] is [CONTENT]; without it, [RECORD], only
    deletions and clears withhold. *)
Definition target_matches (t : RemovalTargetRow) (i : RemovalIntentRow) (s : SourceRow) : bool :=
  bool_decide (t.(rt_provider) = s.(sr_provider)) &&
  bool_decide (t.(rt_account_id) = s.(sr_account_id)) &&
  ((bool_decide (t.(rt_message_id) = s.(sr_message_id)) &&
    sql_is t.(rt_stored_identity_key) s.(sr_mailbox_identity_key) &&
    bool_decide (t.(rt_provider_message_id) = s.(sr_provider_message_id)))
   || (bool_decide (t.(rt_provider_message_id) = s.(sr_provider_message_id)) &&
       sql_is i.(ri_mailbox_identity_key) s.(sr_mailbox_identity_key))
   || existsb (fun d =>
        bool_decide (d.(si_provider) = s.(sr_provider)) &&
        bool_decide (d.(si_account_id) = s.(sr_account_id)) &&
        sql_is d.(si_mailbox_identity_key) s.(sr_mailbox_identity_key) &&
        bool_decide (d.(si_provider_message_id) = s.(sr_provider_message_id)))
      t.(rt_source_identities)).

Definition available (st : SourceTables) (include_unfollow : bool) (s : SourceRow) : bool :=
  negb (existsb (fun t =>
    existsb (fun i =>
      t.(rt_pending) && i.(ri_pending) &&
      (include_unfollow || negb (bool_decide (i.(ri_kind) = KUnfollow))) &&
      target_matches t i s)
    (intents_of_target st t)) st.(st_targets)).

Definition CONTENT : bool := true.
Definition RECORD : bool := false.

(** ** Source keys and bindings *)

(** [_message_suppression_key]; a component that cannot be encoded raises. *)
Definition message_suppression_key (provider account_id provider_message_id : text)
    (mailbox_identity_key : option text) : option text :=
  let identity :=
    match mailbox_identity_key with
    | Some k => [provider; account_id; k; provider_message_id]
    | None => [provider; account_id; provider_message_id]
    end in
  match Utf8.encode (join [0%N] identity) with
  | Some encoded => Some (Sha256.hexdigest encoded)
  | None => None
  end.

(** [_automation_message_binding_sql]: message [m] is the source run [r] was
    admitted for; [identity] is the run's pinned mailbox identity. *)
Definition automation_message_binding (r : AutomationRun) (identity : option text)
    (m : MessageRow) : bool :=
  let k := r.(run_key) in
  bool_decide (m.(ms_provider) = k.(rk_provider)) &&
  bool_decide (m.(ms_account_id) = k.(rk_account_id)) &&
  match identity, m.(ms_mailbox_identity_key) with
  | Some i, Some mi =>
      bool_decide (mi = i) &&
      sql_eq (message_suppression_key m.(ms_provider) m.(ms_account_id)
                m.(ms_provider_message_id) (Some mi))
             (Some k.(rk_source_message_key))
  | None, None =>
      sql_eq (message_suppression_key m.(ms_provider) m.(ms_account_id)
                m.(ms_provider_message_id) None)
             (Some k.(rk_source_message_key))
  | _, _ => false
  end.

Definition identity_of (db : Db) (run_id : text) : option text := db.(db_identities) !! run_id.

(** [_calendar_unfollow_lineage_sql] *)
Definition calendar_unfollow_lineage (e : AutomationEvent) : bool :=
  bool_decide (e.(ev_next_state) = RSourceUnavailable) &&
  bool_decide (e.(ev_transition_kind) = RSourceUnavailable) &&
  bool_decide (e.(ev_failure_code) = Some (str "thread_unfollowed")).

(** The view [logical_messages]. *)
Definition logical_messages (st : SourceTables) : list MessageRow :=
  List.filter (fun m => is_none m.(ms_logical_of) &&
    (negb st.(st_has_removal_schema) || available st RECORD (source_of_message m)))
  st.(st_messages).

(** Order of [ORDER BY created_at, run_id]. *)
Fixpoint text_compare (a b : text) : comparison :=
  match a, b with
  | [], [] => Eq
  | [], _ :: _ => Lt
  | _ :: _, [] => Gt
  | x :: a', y :: b' => match N.compare x y with Eq => text_compare a' b' | c => c end
  end.

Definition admitted_before (r1 r2 : AutomationRun) : bool :=
  match text_compare r1.(run_key).(rk_created_at) r2.(run_key).(rk_created_at) with
  | Lt => true
  | Gt => false
  | Eq => match text_compare r1.(run_key).(rk_run_id) r2.(run_key).(rk_run_id) with
          | Lt => true | _ => false end
  end.

Definition oldest_run (rs : list AutomationRun) : option AutomationRun :=
  foldr (fun r best =>
    match best with
    | None => Some r
    | Some b => if admitted_before b r then Some b else Some r
    end) None rs.

Definition all_runs (db : Db) : list AutomationRun := (map_to_list db.(db_runs)).*2.

(** The aliases of a logical message that carry an unfollowed admission. *)
Definition recovery_candidates (db : Db) (logical : MessageRow) : list AutomationRun :=
  List.filter (fun c =>
    existsb (fun s =>
      automation_message_binding c (identity_of db c.(run_key).(rk_run_id)) s &&
      sql_eq s.(ms_logical_of) (Some logical.(ms_message_id))) db.(db_sources).(st_messages) &&
    existsb (fun e => bool_decide (e.(ev_run_id) = c.(run_key).(rk_run_id)) &&
                      calendar_unfollow_lineage e) db.(db_events))
  (all_runs db).

(** [_scheduling_source_join_sql]: the (physical, logical) source pairs of a run. *)
Definition scheduling_source_join (db : Db) (r : AutomationRun)
    : list (MessageRow * MessageRow) :=
  let st := db.(db_sources) in
  let identity := identity_of db r.(run_key).(rk_run_id) in
  flat_map (fun source =>
    if automation_message_binding r identity source then
      let owner := default source.(ms_message_id) source.(ms_logical_of) in
      flat_map (fun logical =>
        if bool_decide (logical.(ms_message_id) = owner) &&
           (is_none source.(ms_logical_of) ||
            (negb (existsb (fun c =>
                automation_message_binding c (identity_of db c.(run_key).(rk_run_id)) logical)
              (all_runs db)) &&
             match oldest_run (recovery_candidates db logical) with
             | Some c => bool_decide (c.(run_key).(rk_run_id) = r.(run_key).(rk_run_id))
             | None => false
             end))
        then [(source, logical)] else [])
      (logical_messages st)
    else [])
  st.(st_messages).

(** [_effective_message_identity_sql] *)
Definition effective_message_identity (st : SourceTables) (m : MessageRow) : option text :=
  match m.(ms_mailbox_identity_key) with
  | Some k => Some k
  | None =>
      match List.find (fun a =>
        bool_decide (a.(ma_provider) = m.(ms_provider)) &&
        bool_decide (a.(ma_account_id) = m.(ms_account_id)) &&
        a.(ma_continuity_proven)) st.(st_mail_accounts) with
      | Some a => a.(ma_legacy_identity_key)
      | None => None
      end
  end.

(** [_followed_message_sql], with [thread_follow] as [f]. *)
Definition followed_message (st : SourceTables) (m : MessageRow) (f : ThreadFollowRow) : bool :=
  bool_decide (f.(tf_provider) = m.(ms_provider)) &&
  bool_decide (f.(tf_account_id) = m.(ms_account_id)) &&
  sql_eq (Some f.(tf_mailbox_identity_key)) (effective_message_identity st m) &&
  sql_eq (Some f.(tf_thread_key)) m.(ms_thread_key) && f.(tf_followed).

(** ** Admission predicates *)

(** The candidate sources of [_automation_source_available_sql]: live rows, the
    frozen rows of removal targets, and the frozen source identities. Each
    carries its [binding_key]. *)
Definition frozen_sources (st : SourceTables) : list (SourceRow * option text) :=
  ((fun m => (source_of_message m, m.(ms_mailbox_identity_key))) <$> st.(st_messages)) ++
  flat_map (fun t =>
    (fun i => ({| sr_message_id := t.(rt_message_id); sr_provider := t.(rt_provider);
                  sr_account_id := t.(rt_account_id);
                  sr_mailbox_identity_key := t.(rt_stored_identity_key);
                  sr_provider_message_id := t.(rt_provider_message_id) |},
               i.(ri_mailbox_identity_key))) <$> intents_of_target st t) st.(st_targets) ++
  flat_map (fun t =>
    (fun d => ({| sr_message_id := t.(rt_message_id); sr_provider := d.(si_provider);
                  sr_account_id := d.(si_account_id);
                  sr_mailbox_identity_key := d.(si_mailbox_identity_key);
                  sr_provider_message_id := d.(si_provider_message_id) |},
               d.(si_mailbox_identity_key))) <$> t.(rt_source_identities)) st.(st_targets).

(** [_automation_source_available_sql] for one run. *)
Definition run_source_available (db : Db) (r : AutomationRun) (eligibility : bool) : bool :=
  let st := db.(db_sources) in
  let k := r.(run_key) in
  negb (existsb (fun '(s, binding_key) =>
    bool_decide (s.(sr_provider) = k.(rk_provider)) &&
    bool_decide (s.(sr_account_id) = k.(rk_account_id)) &&
    match identity_of db k.(rk_run_id) with
    | Some i =>
        sql_is binding_key (Some i) &&
        sql_eq (message_suppression_key s.(sr_provider) s.(sr_account_id)
                  s.(sr_provider_message_id) (Some i)) (Some k.(rk_source_message_key))
    | None =>
        is_none s.(sr_mailbox_identity_key) &&
        sql_eq (message_suppression_key s.(sr_provider) s.(sr_account_id)
                  s.(sr_provider_message_id) None) (Some k.(rk_source_message_key))
    end && negb (available st eligibility s))
  (frozen_sources st)).

(** [_automation_source_available] *)
Definition automation_source_available (db : Db) (run_id : text) (eligibility : bool) : bool :=
  match db.(db_runs) !! run_id with
  | None => false
  | Some r =>
      if db.(db_sources).(st_has_removal_schema) then run_source_available db r eligibility
      else true
  end.

(** [_scheduling_preparation_available_sql]: a run may be (re)prepared when it is
    new or in extraction, or when exactly its last transition was a deliberate
    unfollow and its thread is followed again. *)
Definition scheduling_preparation_available (db : Db) (r : AutomationRun) : bool :=
  bool_decide (r.(run_st) = RDetected) || bool_decide (r.(run_st) = RExtracting) ||
  (db.(db_sources).(st_has_removal_schema) &&
   bool_decide (r.(run_st) = RSourceUnavailable) &&
   existsb (fun e => bool_decide (e.(ev_run_id) = r.(run_key).(rk_run_id)) &&
                     (e.(ev_state_version) =? r.(run_version))%Z &&
                     calendar_unfollow_lineage e) db.(db_events) &&
   run_source_available db r CONTENT &&
   existsb (fun '(_, m) =>
     existsb (followed_message db.(db_sources) m) db.(db_sources).(st_thread_follow))
   (scheduling_source_join db r)).
