(* ===== verification/BodyState.v ===== *)
(** * Stored message bodies

    Models [src/src/eom_email_watcher/body_state.py]: the tables of fetched bodies
    and of bodies known to be unavailable, the projection a reader gets
    ([project]), the work list of the fetcher ([pending]), the recording of a fetch
    ([record]), the move to another canonical row ([reparent]) and the checkpoint
    of deletions ([checkpoint]); with the predicates of [db.py] and [removal.py]
    they share ([_logical_messages_past_cutoff_sql], [_logical_unit],
    [_Eligibility.message_available]). *)

From S2P Require Export AutomationSources Locations Json.
From stdpp Require Import options.

Local Open Scope Z_scope.

Definition MAX_STORED_BODY_CHARS : Z := 200000.

Inductive unavailable_reason := SourceGone | OutsideFolders.

Record StoredBody := mk_body {
  bd_text : text;
  bd_stored_chars : Z;
  bd_source_chars : Z;
  bd_fetched_at : text }.

Record BodyTables := mk_body_tables {
  bt_bodies : gmap text StoredBody;
  bt_unavailable : gmap text unavailable_reason;
  (** The [checkpoint_pending] token of [maintenance_state]. *)
  bt_checkpoint : option text }.

(** [len(text)] *)
Definition chars (t : text) : Z := Z.of_nat (length t).

(** ** Shared predicates *)

(** [removal.CONTENT.message_available(db, message_id)] and its [RECORD]
    counterpart, without retained bindings. *)
Definition message_available (st : SourceTables) (include_unfollow : bool) (message_id : text)
    : bool :=
  match List.find (fun m => bool_decide (m.(ms_message_id) = message_id)) st.(st_messages) with
  | Some m => negb st.(st_has_removal_schema) || available st include_unfollow (source_of_message m)
  | None => false
  end.

(** [_content_available_sql] *)
Definition content_available (st : SourceTables) (m : MessageRow) : bool :=
  negb st.(st_has_removal_schema) || available st CONTENT (source_of_message m).

Definition canonical_id (m : MessageRow) : text := default m.(ms_message_id) m.(ms_logical_of).

(** The rows of [_logical_unit]; [None] when the message is not stored. *)
Definition unit_rows (st : SourceTables) (message_id : text) : option (list text) :=
  match List.find (fun m => bool_decide (m.(ms_message_id) = message_id)) st.(st_messages) with
  | None => None
  | Some m =>
      let canonical := canonical_id m in
      Some (ms_message_id <$> List.filter (fun r =>
        bool_decide (r.(ms_message_id) = canonical) ||
        bool_decide (r.(ms_logical_of) = Some canonical)) st.(st_messages))
  end.

Definition epoch (t : option text) : option Z :=
  match t with Some t => aware_iso_epoch t | None => None end.

(** The row condition of [_logical_messages_past_cutoff_sql], with
    [include_recovery=False]. *)
Definition row_expired (cutoff stamp : Z) (m : MessageRow) : bool :=
  match epoch m.(ms_received_at) with
  | None => true
  | Some received =>
      ((stamp <? received) &&
       match epoch m.(ms_discovered_at) with
       | None => true
       | Some discovered => (discovered <? cutoff) || (stamp <? discovered)
       end)
      || ((received <=? stamp) && (received <? cutoff))
  end.

(** A location keeps its message by its own received time. *)
Definition location_keeps (cutoff : Z) (canonical : text) (l : Location) : bool :=
  bool_decide (l.(lo_message_id) = canonical) &&
  match epoch l.(lo_received_at) with Some received => cutoff <=? received | None => false end.

(** [_logical_messages_past_cutoff_sql]: the canonical id is past the cutoff. *)
Definition past_cutoff (st : SourceTables) (lt : LocationTables) (cutoff stamp : Z)
    (canonical : text) : bool :=
  let copies := List.filter (fun m => bool_decide (canonical_id m = canonical)) st.(st_messages) in
  negb (bool_decide (copies = [])) && forallb (row_expired cutoff stamp) copies &&
  negb (existsb (location_keeps cutoff canonical) (map_to_list lt.(lt_locations)).*2).

(** A followed membership of a logical message. *)
Definition followed (st : SourceTables) (message_id : text) : bool :=
  existsb (fun m => bool_decide (m.(ms_message_id) = message_id) &&
    existsb (followed_message st m) st.(st_thread_follow)) (logical_messages st).

(** ** The work list *)

Definition in_mailbox (scope : MailScope) (f : ThreadFollowRow) : bool :=
  bool_decide ((f.(tf_provider), f.(tf_account_id), f.(tf_mailbox_identity_key)) = scope).

Definition needs_body (st : SourceTables) (lt : LocationTables) (bt : BodyTables)
    (scope : MailScope) (cutoff now : Z) (exclude : list text) (m : MessageRow) : bool :=
  existsb (fun f => followed_message st m f && in_mailbox scope f) st.(st_thread_follow) &&
  content_available st m &&
  is_none (bt.(bt_bodies) !! m.(ms_message_id)) &&
  is_none (bt.(bt_unavailable) !! m.(ms_message_id)) &&
  negb (past_cutoff st lt cutoff now m.(ms_message_id)) &&
  negb (bool_decide (m.(ms_message_id) ∈ exclude)).

(** [ORDER BY m.message_id] *)
Fixpoint insert_text (x : text) (l : list text) : list text :=
  match l with
  | [] => [x]
  | y :: l' => if text_ltb y x then y :: insert_text x l' else x :: l
  end.

Definition order_texts (l : list text) : list text := foldr insert_text [] l.

Lemma insert_text_perm x l : insert_text x l ≡ₚ x :: l.
Proof.
  induction l as [|y l IH]; simpl; [done|]. case_match; [|done]. rewrite IH. apply Permutation_swap.
Qed.

Lemma order_texts_perm l : order_texts l ≡ₚ l.
Proof. induction l as [|x l IH]; simpl; [done|]. by rewrite insert_text_perm, IH. Qed.

(** [pending]; [LIMIT -1] is no limit. *)
Definition pending (st : SourceTables) (lt : LocationTables) (bt : BodyTables)
    (scope : MailScope) (cutoff now : Z) (limit : option nat) (exclude : list text) : list text :=
  let ids := order_texts (ms_message_id <$>
    List.filter (needs_body st lt bt scope cutoff now exclude) (logical_messages st)) in
  match limit with Some n => take n ids | None => ids end.

(** ** Writers *)

(** [DELETE FROM message_bodies WHERE message_id=?] with its trigger
    [message_bodies_checkpoint]; [token] is the trigger's random value. *)
Definition delete_body (token message_id : text) (bt : BodyTables) : BodyTables :=
  match bt.(bt_bodies) !! message_id with
  | None => bt
  | Some _ => mk_body_tables (delete message_id bt.(bt_bodies)) bt.(bt_unavailable) (Some token)
  end.

(** [INSERT OR REPLACE INTO message_bodies]: the table's checks, and the delete
    trigger of the replaced row (recursive triggers are on). *)
Definition replace_body (token message_id : text) (b : StoredBody) (bt : BodyTables)
    : py BodyTables :=
  if (0 <=? b.(bd_stored_chars)) && (b.(bd_stored_chars) <=? MAX_STORED_BODY_CHARS) &&
     (b.(bd_stored_chars) <=? b.(bd_source_chars))
  then
    let bt' := delete_body token message_id bt in
    Ret (mk_body_tables (<[message_id := b]> bt'.(bt_bodies)) bt'.(bt_unavailable)
           bt'.(bt_checkpoint))
  else Raise (IntegrityError "message_bodies").

(** What the fetch found: a text with the length of its source, or a reason. *)
Inductive fetched := Fetched (body : text) (source_chars : Z) | NotFetched (reason : unavailable_reason).

(** [record] *)
Definition record (st : SourceTables) (token message_id : text) (what : fetched)
    (fetched_at : text) (bt : BodyTables) : py BodyTables :=
  if negb (message_available st CONTENT message_id) then Ret bt
  else if negb (followed st message_id) then Ret bt
  else
    match what with
    | Fetched body source_chars =>
        replace_body token message_id (mk_body body (chars body) source_chars fetched_at)
          (mk_body_tables bt.(bt_bodies) (delete message_id bt.(bt_unavailable)) bt.(bt_checkpoint))
    | NotFetched reason =>
        let bt' := delete_body token message_id bt in
        Ret (mk_body_tables bt'.(bt_bodies) (<[message_id := reason]> bt'.(bt_unavailable))
               bt'.(bt_checkpoint))
    end.

(** [UPDATE OR IGNORE table SET message_id=new WHERE message_id=old] *)
Definition move_row {A} (old new : text) (m : gmap text A) : gmap text A :=
  match m !! old, m !! new with
  | Some a, None => <[new := a]> (delete old m)
  | _, _ => m
  end.

(** [reparent] *)
Definition reparent (old new : text) (bt : BodyTables) : BodyTables :=
  let bodies := move_row old new bt.(bt_bodies) in
  let unavailable := move_row old new bt.(bt_unavailable) in
  mk_body_tables bodies
    (match bodies !! new with Some _ => delete new unavailable | None => unavailable end)
    bt.(bt_checkpoint).

(** [checkpoint]: [done] is whether the write-ahead log was truncated in full; the
    token may have been replaced meanwhile by another connection. *)
Definition checkpoint (done : bool) (meanwhile : BodyTables → BodyTables) (bt : BodyTables)
    : bool * BodyTables :=
  match bt.(bt_checkpoint) with
  | None => (true, bt)
  | Some token =>
      let bt' := meanwhile bt in
      if negb done then (false, bt')
      else
        (true, mk_body_tables bt'.(bt_bodies) bt'.(bt_unavailable)
                 (if decide (bt'.(bt_checkpoint) = Some token) then None else bt'.(bt_checkpoint)))
  end.

(** ** The projection *)

Inductive body_view :=
| RemovalPending
| NotFollowed
| MailboxIdentityUnavailable
| Pending
| Gone (reason : unavailable_reason)
| Stored (stored_chars source_chars : Z) (content : option text).

(** [project] *)
Definition project (st : SourceTables) (bt : BodyTables) (message_id : text)
    (mailbox_identity_key : option text) (thread_followed include_text : bool) : py body_view :=
  match unit_rows st message_id with
  | None => Raise (RuntimeError "Retained body membership is unavailable")
  | Some rows =>
      if existsb (fun row_id => negb (message_available st CONTENT row_id)) rows
      then Ret RemovalPending
      else if negb thread_followed then Ret NotFollowed
      else if is_none mailbox_identity_key then Ret MailboxIdentityUnavailable
      else if negb (followed st message_id)
      then Raise (RuntimeError "Retained body follow state is inconsistent")
      else
        match bt.(bt_bodies) !! message_id with
        | Some b =>
            if negb ((0 <=? b.(bd_stored_chars)) && (b.(bd_stored_chars) <=? MAX_STORED_BODY_CHARS))
               || (b.(bd_source_chars) <? b.(bd_stored_chars))
            then Raise (RuntimeError "Stored body lengths are invalid")
            else if negb include_text
            then Ret (Stored b.(bd_stored_chars) b.(bd_source_chars) None)
            else if chars b.(bd_text) =? b.(bd_stored_chars)
            then Ret (Stored b.(bd_stored_chars) b.(bd_source_chars) (Some b.(bd_text)))
            else Raise (RuntimeError "Stored body text is invalid")
        | None =>
            match bt.(bt_unavailable) !! message_id with
            | None => Ret Pending
            | Some reason => Ret (Gone reason)
            end
        end
  end.
