(* ===== verification/BodyTheorems.v ===== *)
(** * What the body tables guarantee

    A message never has both a stored body and an unavailability marker; a text is
    shown only for a followed, fully available message; recording a fetch is read
    back by the projection; and each recorded fetch takes exactly its message off
    the work list. *)

From S2P Require Export BodyState.
From stdpp Require Import options.

Local Open Scope Z_scope.

Definition body_ok (b : StoredBody) : Prop :=
  b.(bd_stored_chars) = chars b.(bd_text) ∧ b.(bd_stored_chars) <= MAX_STORED_BODY_CHARS ∧
  b.(bd_stored_chars) <= b.(bd_source_chars).

Record BodyInv (bt : BodyTables) : Prop := {
  bi_exclusive : ∀ id, bt.(bt_bodies) !! id = None ∨ bt.(bt_unavailable) !! id = None;
  bi_lengths : ∀ id b, bt.(bt_bodies) !! id = Some b → body_ok b }.

(** The writers of the two tables. *)
Inductive body_step (bt : BodyTables) : BodyTables → Prop :=
| step_record st token id what at_ bt' :
    record st token id what at_ bt = Ret bt' → body_step bt bt'
| step_reparent old new : body_step bt (reparent old new bt)
| step_delete token id : body_step bt (delete_body token id bt)
| step_checkpoint done other :
    body_step bt (checkpoint done (fun b => mk_body_tables b.(bt_bodies) b.(bt_unavailable) other) bt).2.

Definition no_bodies : BodyTables := mk_body_tables ∅ ∅ None.

Definition body_reachable : BodyTables → Prop := rtc body_step no_bodies.

Lemma delete_body_lookup token id bt id' :
  (delete_body token id bt).(bt_bodies) !! id' =
    (if decide (id' = id) then None else bt.(bt_bodies) !! id') ∧
  (delete_body token id bt).(bt_unavailable) = bt.(bt_unavailable).
Proof.
  unfold delete_body. destruct (bt_bodies bt !! id) eqn:E; simpl.
  - split; [|done]. case_decide; subst; [apply lookup_delete_eq|by apply lookup_delete_ne].
  - split; [|done]. case_decide; by subst.
Qed.

(** A recorded fetch, row by row. *)
Lemma record_spec st token id what at_ bt bt' :
  record st token id what at_ bt = Ret bt' →
  if message_available st CONTENT id && followed st id then
    match what with
    | Fetched body n =>
        chars body <= MAX_STORED_BODY_CHARS ∧ chars body <= n ∧
        ∀ id', bt'.(bt_bodies) !! id' =
                 (if decide (id' = id) then Some (mk_body body (chars body) n at_)
                  else bt.(bt_bodies) !! id') ∧
               bt'.(bt_unavailable) !! id' =
                 (if decide (id' = id) then None else bt.(bt_unavailable) !! id')
    | NotFetched reason =>
        ∀ id', bt'.(bt_bodies) !! id' =
                 (if decide (id' = id) then None else bt.(bt_bodies) !! id') ∧
               bt'.(bt_unavailable) !! id' =
                 (if decide (id' = id) then Some reason else bt.(bt_unavailable) !! id')
    end
  else bt' = bt.
Proof.
  unfold record. destruct (message_available st CONTENT id); simpl; [|by intros [= ->]].
  destruct (followed st id); simpl; [|by intros [= ->]].
  destruct what as [body n|reason].
  - unfold replace_body. simpl. case_match eqn:Hc; [|done]. intros [= <-]. bools.
    split_and!; [lia|lia|]. intros id'.
    destruct (delete_body_lookup token id
      (mk_body_tables (bt_bodies bt) (delete id (bt_unavailable bt)) (bt_checkpoint bt)) id')
      as [Hb Hu]. simpl in *. rewrite Hu.
    case_decide; subst; [by rewrite lookup_insert_eq, lookup_delete_eq|].
    by rewrite lookup_insert_ne, lookup_delete_ne, Hb by done.
  - intros [= <-] id'. destruct (delete_body_lookup token id bt id') as [Hb Hu]. simpl.
    rewrite Hb, Hu. case_decide; subst; [by rewrite lookup_insert_eq|].
    by rewrite lookup_insert_ne by done.
Qed.

Lemma move_row_lookup {A} (old new : text) (m : gmap text A) (id : text) (a : A) :
  move_row old new m !! id = Some a →
  (m !! id = Some a ∧ (id = old → is_Some (m !! new))) ∨ (id = new ∧ m !! old = Some a).
Proof.
  unfold move_row. destruct (m !! old) as [x|] eqn:Ho; [|intros; left; split; [done|congruence]].
  destruct (m !! new) as [y|] eqn:Hn; [intros; left; split; [done|by eexists]|].
  rewrite lookup_insert_Some. intros [[<- <-]|[Hne H]]; [by right|].
  apply lookup_delete_Some in H as [? ?]. left. split; [done|congruence].
Qed.

Lemma reparent_inv old new bt : BodyInv bt → BodyInv (reparent old new bt).
Proof.
  intros [Hex Hlen]. split.
  - intros id. unfold reparent. simpl.
    destruct (move_row old new (bt_bodies bt) !! id) as [b|] eqn:Hb; [right|by left].
    destruct (decide (id = new)) as [->|Hne].
    { rewrite Hb. apply lookup_delete_eq. }
    destruct (move_row_lookup _ _ _ _ _ Hb) as [[Hid _]|[? _]]; [|done].
    assert (bt_unavailable bt !! id = None) as Hu by (destruct (Hex id); congruence).
    assert (move_row old new (bt_unavailable bt) !! id = None) as Hm.
    { destruct (move_row old new (bt_unavailable bt) !! id) as [r|] eqn:Hr; [|done].
      apply move_row_lookup in Hr as [[? _]|[? _]]; congruence. }
    case_match; [by rewrite lookup_delete_ne|done].
  - intros id b. unfold reparent. simpl. intros [[? _]|[_ ?]]%move_row_lookup; by eapply Hlen.
Qed.

Lemma body_step_inv bt bt' : BodyInv bt → body_step bt bt' → BodyInv bt'.
Proof.
  intros Hinv Hstep. pose proof Hinv as [Hex Hlen].
  destruct Hstep as [st token id what at_ bt' Hr|old new|token id|done other].
  - apply record_spec in Hr. case_match; [|by subst].
    destruct what as [body n|reason].
    + destruct Hr as (H1 & H2 & Hr). split; [intros id'|intros id' b]; destruct (Hr id') as [Hb Hu];
        rewrite Hb, ?Hu; case_decide; subst; auto; [|by apply Hlen].
      intros [= <-]. by split_and!.
    + split; [intros id'|intros id' b]; destruct (Hr id') as [Hb Hu];
        rewrite Hb, ?Hu; case_decide; subst; auto; try done. by apply Hlen.
  - by apply reparent_inv.
  - split; [intros id'|intros id' b]; destruct (delete_body_lookup token id bt id') as [Hb Hu];
      rewrite Hb, ?Hu; case_decide; subst; auto; try done. by apply Hlen.
  - unfold checkpoint. repeat case_match; split; simpl; auto.
Qed.

Lemma body_reachable_inv bt : body_reachable bt → BodyInv bt.
Proof.
  assert (BodyInv no_bodies) as H0 by (split; simpl; intros; simplify_map_eq; auto).
  unfold body_reachable. intros Hr. revert H0. induction Hr; eauto using body_step_inv.
Qed.

(** ** The work list *)

Lemma elem_of_pending st lt bt scope cutoff now exclude x :
  x ∈ pending st lt bt scope cutoff now None exclude ↔
  ∃ m, m ∈ logical_messages st ∧ ms_message_id m = x ∧
    needs_body st lt bt scope cutoff now exclude m = true.
Proof.
  unfold pending. rewrite order_texts_perm, list_elem_of_fmap. split.
  - intros (m & -> & [Hm Hn]%list_elem_of_In%filter_In). exists m.
    by rewrite list_elem_of_In.
  - intros (m & Hm & <- & Hn). exists m. split; [done|].
    by apply list_elem_of_In, filter_In; rewrite <- list_elem_of_In.
Qed.

Lemma logical_stored st m : m ∈ logical_messages st → m ∈ st.(st_messages).
Proof. unfold logical_messages. rewrite !list_elem_of_In, filter_In. tauto. Qed.

Lemma find_message st m :
  NoDup (ms_message_id <$> st.(st_messages)) → m ∈ st.(st_messages) →
  List.find (fun r => bool_decide (ms_message_id r = ms_message_id m)) st.(st_messages) = Some m.
Proof.
  induction (st_messages st) as [|r l IH]; simpl; [by intros _ ?%elem_of_nil|].
  rewrite list.NoDup_cons. intros [Hr Hl]. rewrite elem_of_cons. intros [->|Hm].
  - by rewrite bool_decide_eq_true_2.
  - rewrite bool_decide_eq_false_2; [by apply IH|]. intros Heq. destruct Hr. rewrite Heq.
    by apply list_elem_of_fmap_2.
Qed.

(** A message of the work list may be recorded. *)
Lemma needs_body_recordable st lt bt scope cutoff now exclude m :
  NoDup (ms_message_id <$> st.(st_messages)) → m ∈ logical_messages st →
  needs_body st lt bt scope cutoff now exclude m = true →
  message_available st CONTENT (ms_message_id m) && followed st (ms_message_id m) = true.
Proof.
  intros Hnd Hm Hn. unfold needs_body in Hn. bools. apply andb_true_iff. split.
  - unfold message_available. rewrite (find_message st m Hnd (logical_stored _ _ Hm)). done.
  - unfold followed. apply existsb_exists_elem. exists m. split; [done|].
    rewrite bool_decide_eq_true_2 by done. simpl.
    match goal with H : existsb _ _ = true |- _ =>
      apply existsb_exists_elem in H as (f & Hf & Hff) end. bools.
    apply existsb_exists_elem. by exists f.
Qed.

(** The fetch result fits the tables. *)
Definition fits (what : fetched) : bool :=
  match what with
  | Fetched body n => (chars body <=? MAX_STORED_BODY_CHARS) && (chars body <=? n)
  | NotFetched _ => true
  end.

Lemma record_total st token id what at_ bt :
  fits what = true → ∃ bt', record st token id what at_ bt = Ret bt'.
Proof.
  intros Hf. unfold record. repeat case_match; try (by eexists). subst.
  unfold replace_body, fits in *. cbn [bd_stored_chars bd_source_chars] in *. bools.
  assert (0 <=? chars _ = true) as -> by (unfold chars; lia).
  match goal with H : (_ <=? MAX_STORED_BODY_CHARS) = true |- _ => rewrite H end.
  match goal with H : (_ <=? _) = true |- _ => rewrite H end. by eexists.
Qed.

(** ** Properties *)

(** Under every sequence of recorded fetches, moves, deletions and checkpoints, no
    message has both a stored body and an unavailability marker, and every stored
    length is that of its text, within the limit and within the length of its
    source. *)
Theorem bodies_exclusive bt id :
  body_reachable bt →
  (bt.(bt_bodies) !! id = None ∨ bt.(bt_unavailable) !! id = None) ∧
  ∀ b, bt.(bt_bodies) !! id = Some b →
    b.(bd_stored_chars) = chars b.(bd_text) ∧
    b.(bd_stored_chars) <= MAX_STORED_BODY_CHARS ∧ b.(bd_stored_chars) <= b.(bd_source_chars).
Proof. intros [Hex Hlen]%body_reachable_inv. split; [done|]. apply Hlen. Qed.

(** C36: A projection shows a text only when text was asked for, the thread is followed
    under a known mailbox identity, the follow cache agrees, and no row of the logical
    message is awaiting removal; the text is then the stored one. *)
Theorem project_guards_text st bt id key thread_followed include_text n s content :
  project st bt id key thread_followed include_text = Ret (Stored n s (Some content)) →
  include_text = true ∧ thread_followed = true ∧ is_Some key ∧ followed st id = true ∧
  (∃ rows, unit_rows st id = Some rows ∧
     ∀ r, r ∈ rows → message_available st CONTENT r = true) ∧
  ∃ b, bt.(bt_bodies) !! id = Some b ∧ bd_text b = content ∧ chars content = n.
Proof.
  unfold project. intros Hp.
  destruct (unit_rows st id) as [rows|]; [|done].
  destruct (existsb _ rows) eqn:Hrows; [done|].
  destruct thread_followed; simpl in Hp; [|done].
  destruct key as [k|]; simpl in Hp; [|done].
  destruct (followed st id); simpl in Hp; [|done].
  destruct (bt_bodies bt !! id) as [b|] eqn:Hb; [|repeat case_match; done].
  destruct include_text; simpl in Hp; [|repeat case_match; done].
  destruct (_ || _) in Hp; [done|].
  destruct (Z.eqb_spec (chars (bd_text b)) (bd_stored_chars b)); [|done]. simplify_eq.
  split_and!; [done|done|by eexists|done| |by exists b].
  exists rows. split; [done|]. intros r Hr. rewrite existsb_false in Hrows.
  specialize (Hrows r Hr). by apply negb_false_iff in Hrows.
Qed.

(** What is recorded is read back: for an available, followed message the
    recording of a fetch that fits succeeds, and the projection then shows that text
    and its lengths, or the recorded reason. *)
Theorem record_then_project st token id what at_ bt rows key :
  unit_rows st id = Some rows → (∀ r, r ∈ rows → message_available st CONTENT r = true) →
  message_available st CONTENT id = true → followed st id = true → fits what = true →
  ∃ bt', record st token id what at_ bt = Ret bt' ∧
    project st bt' id (Some key) true true =
      Ret match what with
          | Fetched body n => Stored (chars body) n (Some body)
          | NotFetched reason => Gone reason
          end.
Proof.
  intros Hu Hrows Ha Hf Hfit. destruct (record_total st token id what at_ bt Hfit) as [bt' Hr].
  exists bt'. split; [done|]. apply record_spec in Hr. rewrite Ha, Hf in Hr. simpl in Hr.
  unfold project. rewrite Hu.
  assert (existsb (λ row_id, negb (message_available st CONTENT row_id)) rows = false) as ->.
  { apply existsb_false. intros r Hin. by rewrite Hrows. }
  simpl. rewrite Hf. simpl. destruct what as [body n|reason].
  - destruct Hr as (H1 & H2 & Hr). destruct (Hr id) as [-> _]. rewrite decide_True by done. simpl.
    assert (0 <= chars body) by (unfold chars; lia).
    destruct (Z.leb_spec 0 (chars body)), (Z.leb_spec (chars body) MAX_STORED_BODY_CHARS),
      (Z.ltb_spec n (chars body)); try lia. simpl. by rewrite Z.eqb_refl.
  - destruct (Hr id) as [-> ->]. by rewrite !decide_True by done.
Qed.

(** The fetcher makes progress: for every message of the work list, recording any
    fetch that fits succeeds and takes exactly that message off the list. *)
Theorem pending_progress st lt bt scope cutoff now exclude token x what at_ :
  NoDup (ms_message_id <$> st.(st_messages)) → fits what = true →
  x ∈ pending st lt bt scope cutoff now None exclude →
  ∃ bt', record st token x what at_ bt = Ret bt' ∧
    ∀ y, y ∈ pending st lt bt' scope cutoff now None exclude ↔
         y ≠ x ∧ y ∈ pending st lt bt scope cutoff now None exclude.
Proof.
  intros Hnd Hfit (m & Hm & <- & Hn)%elem_of_pending.
  destruct (record_total st token (ms_message_id m) what at_ bt Hfit) as [bt' Hr].
  exists bt'. split; [done|]. apply record_spec in Hr.
  rewrite (needs_body_recordable _ _ _ _ _ _ _ _ Hnd Hm Hn) in Hr.
  assert (∀ id, is_none (bt_bodies bt' !! id) && is_none (bt_unavailable bt' !! id) =
    negb (bool_decide (id = ms_message_id m)) &&
      (is_none (bt_bodies bt !! id) && is_none (bt_unavailable bt !! id))) as Hrows.
  { intros id. destruct what as [body n|reason]; [destruct Hr as (_ & _ & Hr)|];
      destruct (Hr id) as [-> ->]; case_decide; case_bool_decide; subst; done. }
  assert (∀ r, needs_body st lt bt' scope cutoff now exclude r = true ↔
    ms_message_id r ≠ ms_message_id m ∧ needs_body st lt bt scope cutoff now exclude r = true)
    as Hneeds.
  { intros r. specialize (Hrows (ms_message_id r)). unfold needs_body. revert Hrows.
    generalize (is_none (bt_bodies bt !! ms_message_id r)),
      (is_none (bt_unavailable bt !! ms_message_id r)), (is_none (bt_bodies bt' !! ms_message_id r)),
      (is_none (bt_unavailable bt' !! ms_message_id r)).
    intros b1 b2 b3 b4 Hb. rewrite !andb_true_iff. case_bool_decide; simpl in Hb.
    - assert (b3 = false ∨ b4 = false) as [-> | ->] by (destruct b3, b4; auto); naive_solver.
    - assert (b3 = true ∧ b4 = true ↔ b1 = true ∧ b2 = true) by (destruct b1, b2, b3, b4; naive_solver).
      naive_solver. }
  intros y. rewrite !elem_of_pending. setoid_rewrite Hneeds. naive_solver.
Qed.

(** ** A concrete message *)
Module BodyDemo.

Definition scope : MailScope := (str "gmail", str "me", str "mailbox").
Definition day (d : Z) : Z := ymd_days 2026 3 d * DAY.
Definition msg : text := str "m1".

Definition st : SourceTables := {|
  st_messages := [{| ms_message_id := msg; ms_provider := str "gmail"; ms_account_id := str "me";
    ms_mailbox_identity_key := Some (str "mailbox"); ms_provider_message_id := str "p1";
    ms_logical_of := None; ms_thread_key := Some (str "t1");
    ms_received_at := Some (isoformat (utc (day 1)));
    ms_discovered_at := Some (isoformat (utc (day 1))) |}];
  st_thread_follow := [{| tf_provider := str "gmail"; tf_account_id := str "me";
    tf_mailbox_identity_key := str "mailbox"; tf_thread_key := str "t1"; tf_followed := true |}];
  st_mail_accounts := []; st_has_removal_schema := true; st_intents := []; st_targets := [] |}.

Definition lt0 : LocationTables := mk_location_tables ∅ ∅ ∅.
Definition found : fetched := Fetched (str "Hello") 5.

Lemma ids_distinct : NoDup (ms_message_id <$> st_messages st).
Proof. apply (bool_decide_unpack _). vm_compute. exact I. Qed.

Lemma msg_pending : msg ∈ pending st lt0 no_bodies scope (day 1) (day 2) None [].
Proof. apply (list_elem_of_lookup_2 _ 0). vm_compute. reflexivity. Qed.

Lemma msg_rows : unit_rows st msg = Some [msg].
Proof. vm_compute. reflexivity. Qed.

Lemma msg_available : message_available st CONTENT msg = true.
Proof. vm_compute. reflexivity. Qed.

Lemma rows_available r : r ∈ [msg] → message_available st CONTENT r = true.
Proof. intros ->%list_elem_of_singleton. exact msg_available. Qed.

Lemma msg_followed : followed st msg = true.
Proof. vm_compute. reflexivity. Qed.

Abbreviation recording := (record st (str "token") msg found (isoformat (utc (day 2))) no_bodies).
Definition bt1 : BodyTables := match recording with Ret b => b | Raise _ => no_bodies end.

Lemma recording_ret : recording = Ret bt1.
Proof. vm_compute. reflexivity. Qed.

Lemma bt1_reachable : body_reachable bt1.
Proof. apply rtc_once. exact (step_record _ _ _ _ _ _ _ recording_ret). Qed.

Lemma bt1_projection :
  project st bt1 msg (Some (str "mailbox")) true true = Ret (Stored 5 5 (Some (str "Hello"))).
Proof. vm_compute. reflexivity. Qed.

Lemma bodies_exclusive_witness :
  bt_bodies bt1 !! msg = None ∨ bt_unavailable bt1 !! msg = None.
Proof. exact (proj1 (bodies_exclusive bt1 msg bt1_reachable)). Defined.

Lemma project_guards_text_witness : followed st msg = true.
Proof.
  exact (proj1 (proj2 (proj2 (proj2 (project_guards_text st bt1 msg _ _ _ _ _ _ bt1_projection))))).
Defined.

Lemma record_then_project_witness :
  ∃ bt', recording = Ret bt' ∧
    project st bt' msg (Some (str "mailbox")) true true =
      Ret (Stored (chars (str "Hello")) 5 (Some (str "Hello"))).
Proof.
  exact (record_then_project st (str "token") msg found (isoformat (utc (day 2))) no_bodies [msg]
    (str "mailbox") msg_rows rows_available msg_available msg_followed eq_refl).
Defined.

Lemma pending_progress_witness :
  ∃ bt', recording = Ret bt' ∧
    ∀ y, y ∈ pending st lt0 bt' scope (day 1) (day 2) None [] ↔
         y ≠ msg ∧ y ∈ pending st lt0 no_bodies scope (day 1) (day 2) None [].
Proof.
  exact (pending_progress st lt0 no_bodies scope (day 1) (day 2) [] (str "token") msg found
    (isoformat (utc (day 2))) ids_distinct eq_refl msg_pending).
Defined.

End BodyDemo.
