(* ===== verification/ReconcileState.v ===== *)
(** * Coverage and reconcile progress

    Models [src/src/eom_email_watcher/reconcile_state.py]: the coverage generation
    of a mailbox and its only writer ([_bump_coverage_generation]), the inputs that
    bump it ([observe], [gap], [flush_coverage_inputs]), the frozen progress of a
    reconcile pass ([load_or_start], [save], [next_interval]), its items and
    catch-up targets, the thread watermarks, [complete], and the predicate
    [coverage_current] that destructive retention shares. *)

From S2P Require Export BodyState.
From stdpp Require Import options.

Local Open Scope Z_scope.

(** ** Tables *)

Record GenerationRow := mk_generation {
  cg_generation : Z;
  cg_entitlement_active : option bool;
  cg_retention_days : option Z;
  cg_sent_folder : option text }.

Record CoverageRow := mk_coverage { rc_generation : Z; rc_recorded_at : text }.

Record ProgressRow := mk_progress {
  rp_generation : Z;
  rp_started_at : text;
  rp_retention_days : Z;
  rp_version : Z;
  rp_payload : json }.

Inductive phase := Discovery | Sync.
Inductive folder := FInbox | FSent | FAll.

Global Instance phase_eq_dec : EqDecision phase.
Proof. solve_decision. Defined.
Global Instance phase_countable : Countable phase.
Proof.
  refine (inj_countable' (fun p => match p with Discovery => true | Sync => false end)
            (fun b : bool => if b then Discovery else Sync) _); by intros [].
Defined.

Record ItemRow := mk_item {
  it_native_thread_id : option text;
  it_received_at : option text;
  it_folder : folder;
  it_done : bool }.

(** (generation, phase, unit, source_id) within a scope. *)
Abbreviation ItemKey := (MailScope * Z * phase * text * text)%type.

Record ReconcileDb := mk_rdb {
  r_sources : SourceTables;
  r_locations : LocationTables;
  r_bodies : BodyTables;
  r_generation : gmap MailScope GenerationRow;
  r_coverage : gmap MailScope CoverageRow;
  r_progress : gmap MailScope ProgressRow;
  r_items : gmap ItemKey ItemRow;
  r_catchup : gmap (MailScope * Z * text) text;
  r_watermarks : gmap (MailScope * text) text;
  (** [thread_key_aliases]: (alias, survivor). *)
  r_aliases : list (text * text) }.

Definition set_locations (l : LocationTables) (d : ReconcileDb) : ReconcileDb :=
  mk_rdb d.(r_sources) l d.(r_bodies) d.(r_generation) d.(r_coverage) d.(r_progress)
    d.(r_items) d.(r_catchup) d.(r_watermarks) d.(r_aliases).
(** The tables of a fresh database. *)
Definition empty_rdb : ReconcileDb :=
  mk_rdb {| st_messages := []; st_thread_follow := []; st_mail_accounts := [];
            st_has_removal_schema := true; st_intents := []; st_targets := [] |}
    (mk_location_tables ∅ ∅ ∅) (mk_body_tables ∅ ∅ None) ∅ ∅ ∅ ∅ ∅ ∅ [].

Definition set_generation (g : gmap MailScope GenerationRow) (d : ReconcileDb) : ReconcileDb :=
  mk_rdb d.(r_sources) d.(r_locations) d.(r_bodies) g d.(r_coverage) d.(r_progress)
    d.(r_items) d.(r_catchup) d.(r_watermarks) d.(r_aliases).
Definition set_coverage (c : gmap MailScope CoverageRow) (d : ReconcileDb) : ReconcileDb :=
  mk_rdb d.(r_sources) d.(r_locations) d.(r_bodies) d.(r_generation) c d.(r_progress)
    d.(r_items) d.(r_catchup) d.(r_watermarks) d.(r_aliases).
Definition set_progress (p : gmap MailScope ProgressRow) (d : ReconcileDb) : ReconcileDb :=
  mk_rdb d.(r_sources) d.(r_locations) d.(r_bodies) d.(r_generation) d.(r_coverage) p
    d.(r_items) d.(r_catchup) d.(r_watermarks) d.(r_aliases).
Definition set_items (i : gmap ItemKey ItemRow) (d : ReconcileDb) : ReconcileDb :=
  mk_rdb d.(r_sources) d.(r_locations) d.(r_bodies) d.(r_generation) d.(r_coverage)
    d.(r_progress) i d.(r_catchup) d.(r_watermarks) d.(r_aliases).
Definition set_catchup (c : gmap (MailScope * Z * text) text) (d : ReconcileDb) : ReconcileDb :=
  mk_rdb d.(r_sources) d.(r_locations) d.(r_bodies) d.(r_generation) d.(r_coverage)
    d.(r_progress) d.(r_items) c d.(r_watermarks) d.(r_aliases).
Definition set_watermarks (w : gmap (MailScope * text) text) (d : ReconcileDb) : ReconcileDb :=
  mk_rdb d.(r_sources) d.(r_locations) d.(r_bodies) d.(r_generation) d.(r_coverage)
    d.(r_progress) d.(r_items) d.(r_catchup) w d.(r_aliases).

(** [datetime.now(UTC).isoformat()] *)
Definition utc_stamp (now : Z) : text := isoformat (utc now).

(** [MAX(a, b)] on text. *)
Definition text_max (a b : text) : text := if text_ltb a b then b else a.

Definition changed_concurrently : exn := RuntimeError "reconcile progress changed concurrently".

(** ** The generation *)

Definition new_generation : GenerationRow := mk_generation 0 None None None.

(** [INSERT OR IGNORE INTO coverage_generation(...,generation) VALUES (...,0)] *)
Definition ensure_generation (scope : MailScope) (d : ReconcileDb) : ReconcileDb :=
  match d.(r_generation) !! scope with
  | Some _ => d
  | None => set_generation (<[scope := new_generation]> d.(r_generation)) d
  end.

Definition clear_watermarks (scope : MailScope) (d : ReconcileDb) : ReconcileDb :=
  set_watermarks (filter (fun e => e.1.1 ≠ scope) d.(r_watermarks)) d.

(** [_bump_coverage_generation]; the table refuses a negative generation, its
    trigger a smaller one. *)
Definition bump_coverage_generation (scope : MailScope) (amount : Z) (clear : bool)
    (d : ReconcileDb) : py ReconcileDb :=
  let d := ensure_generation scope d in
  match d.(r_generation) !! scope with
  | None => Ret d
  | Some g =>
      if amount <? 0 then Raise (IntegrityError "coverage generation cannot move backwards")
      else
        let g' := mk_generation (g.(cg_generation) + amount) g.(cg_entitlement_active)
                    g.(cg_retention_days) g.(cg_sent_folder) in
        let d := set_generation (<[scope := g']> d.(r_generation)) d in
        Ret (if clear then clear_watermarks scope d else d)
  end.

(** [flush_coverage_inputs]: the rows of [coverage_changed_accounts]. *)
Fixpoint flush_coverage_inputs (rows : list (MailScope * Z)) (d : ReconcileDb) : py ReconcileDb :=
  match rows with
  | [] => Ret d
  | (scope, amount) :: rows' =>
      d' ← bump_coverage_generation scope amount false d; flush_coverage_inputs rows' d'
  end.

(** [self.store._clear_location_stamps(db, *self.scope, now=now)] *)
Definition clear_stamps (scope : MailScope) (now : Z) (d : ReconcileDb) : py ReconcileDb :=
  l ← clear_location_stamps scope now d.(r_locations); Ret (set_locations l d).

(** [ReconcileState.observe] *)
Definition observe (scope : MailScope) (active : bool) (retention_days : Z)
    (sent_folder : option text) (now : Z) (d : ReconcileDb) : py ReconcileDb :=
  let d := ensure_generation scope d in
  old ← require_some (d.(r_generation) !! scope) (TypeError "no coverage generation");
  let sent_folder := match sent_folder with Some s => Some s | None => old.(cg_sent_folder) end in
  if bool_decide ((old.(cg_entitlement_active), old.(cg_retention_days), old.(cg_sent_folder)) =
                  (Some active, Some retention_days, sent_folder))
  then Ret d
  else
    let gap := bool_decide (old.(cg_entitlement_active) = Some false) && active in
    let clear := gap || negb (bool_decide (old.(cg_sent_folder) = sent_folder)) ||
      match old.(cg_retention_days) with Some r => r <? retention_days | None => false end in
    d ← bump_coverage_generation scope 1 clear d;
    _ ← require (0 <? retention_days) (IntegrityError "coverage_generation.retention_days");
    let d := set_generation
      (alter (fun g => mk_generation g.(cg_generation) (Some active) (Some retention_days)
                         sent_folder) scope d.(r_generation)) d in
    if gap then clear_stamps scope now d else Ret d.

(** [ReconcileState.gap] *)
Definition gap (scope : MailScope) (now : Z) (d : ReconcileDb) : py ReconcileDb :=
  d ← bump_coverage_generation scope 1 true d; clear_stamps scope now d.

(** [ReconcileState.generation] *)
Definition generation (scope : MailScope) (d : ReconcileDb) : option Z :=
  cg_generation <$> d.(r_generation) !! scope.

(** [ReconcileState.needs_discovery] *)
Definition needs_discovery (scope : MailScope) (d : ReconcileDb) : bool :=
  match d.(r_generation) !! scope with
  | None => true
  | Some g => negb (bool_decide (rc_generation <$> d.(r_coverage) !! scope = Some g.(cg_generation)))
  end.

(** ** Frozen progress *)

Definition drop_items (scope : MailScope) (d : ReconcileDb) : ReconcileDb :=
  set_items (filter (fun e => e.1.1.1.1.1 ≠ scope) d.(r_items)) d.

Definition drop_catchup (scope : MailScope) (d : ReconcileDb) : ReconcileDb :=
  set_catchup (filter (fun e => e.1.1.1 ≠ scope) d.(r_catchup)) d.

(** [INSERT INTO reconcile_progress], and the row read back. *)
Definition start_progress (scope : MailScope) (gen : Z) (now : Z) (retention_days : Z)
    (payload : json) (d : ReconcileDb) : py (ProgressRow * ReconcileDb) :=
  _ ← require (0 <? retention_days) (IntegrityError "reconcile_progress.retention_days");
  let row := mk_progress gen (utc_stamp now) retention_days 0 payload in
  Ret (row, set_progress (<[scope := row]> d.(r_progress)) d).

(** [ReconcileState.load_or_start] *)
Definition load_or_start (scope : MailScope) (now : Z) (retention_days : Z) (payload : json)
    (d : ReconcileDb) : py (ProgressRow * ReconcileDb) :=
  g ← require_some (d.(r_generation) !! scope) (TypeError "'NoneType' object is not subscriptable");
  match d.(r_progress) !! scope with
  | Some row =>
      if decide (row.(rp_generation) = g.(cg_generation)) then Ret (row, d)
      else
        start_progress scope g.(cg_generation) now retention_days payload
          (drop_catchup scope (drop_items scope
            (set_progress (delete scope d.(r_progress)) d)))
  | None => start_progress scope g.(cg_generation) now retention_days payload d
  end.

(** The row of [scope] still is the caller's. *)
Definition owns (scope : MailScope) (p : ProgressRow) (d : ReconcileDb) : bool :=
  match d.(r_progress) !! scope with
  | Some row => (row.(rp_generation) =? p.(rp_generation)) && (row.(rp_version) =? p.(rp_version))
  | None => false
  end.

(** [ReconcileState.save]: the caller's progress, with its version advanced. *)
Definition save (scope : MailScope) (p : ProgressRow) (d : ReconcileDb)
    : py (ProgressRow * ReconcileDb) :=
  match d.(r_progress) !! scope with
  | Some row =>
      if owns scope p d then
        let row' := mk_progress row.(rp_generation) row.(rp_started_at) row.(rp_retention_days)
                      (row.(rp_version) + 1) p.(rp_payload) in
        Ret (mk_progress p.(rp_generation) p.(rp_started_at) p.(rp_retention_days)
               (p.(rp_version) + 1) p.(rp_payload),
             set_progress (<[scope := row']> d.(r_progress)) d)
      else Raise changed_concurrently
  | None => Raise changed_concurrently
  end.

(** What [put_items] reads of a reconcile item. *)
Record ItemRef := mk_ref {
  rf_message_id : text;
  rf_thread_id : option text;
  rf_received_at : option text }.

Definition item_key (scope : MailScope) (p : ProgressRow) (ph : phase) (unit_ id : text) : ItemKey :=
  (scope, p.(rp_generation), ph, unit_, id).

(** [ReconcileState.put_items] *)
Definition put_items (scope : MailScope) (p : ProgressRow) (ph : phase) (unit_ : text)
    (items : list ItemRef) (f : folder) (d : ReconcileDb) : ReconcileDb :=
  set_items (foldl (fun m i =>
    let k := item_key scope p ph unit_ i.(rf_message_id) in
    match m !! k with
    | Some _ => m
    | None => <[k := mk_item i.(rf_thread_id) i.(rf_received_at) f false]> m
    end) d.(r_items) items) d.

Definition open_ids (scope : MailScope) (p : ProgressRow) (ph : phase) (unit_ : text)
    (d : ReconcileDb) : list text :=
  order_texts ((fun e => e.1.2) <$> List.filter (fun e =>
    bool_decide (e.1.1 = (scope, p.(rp_generation), ph, unit_)) && negb e.2.(it_done))
    (map_to_list d.(r_items))).

(** [ReconcileState.pending]: the next open item of a unit. *)
Definition next_item (scope : MailScope) (p : ProgressRow) (ph : phase) (unit_ : text)
    (d : ReconcileDb) : option text := head (open_ids scope p ph unit_ d).

(** [ReconcileState.finish_item] *)
Definition finish_item (scope : MailScope) (p : ProgressRow) (ph : phase) (unit_ id : text)
    (d : ReconcileDb) : ReconcileDb :=
  set_items (alter (fun i => mk_item i.(it_native_thread_id) i.(it_received_at) i.(it_folder) true)
    (item_key scope p ph unit_ id) d.(r_items)) d.

(** [ReconcileState.next_interval] *)
Definition next_interval (scope : MailScope) (p : ProgressRow) (now : Z) (payload : json)
    (d : ReconcileDb) : py (ProgressRow * ReconcileDb) :=
  if owns scope p d then
    start_progress scope p.(rp_generation) now p.(rp_retention_days) payload
      (drop_items scope (set_progress (delete scope d.(r_progress)) d))
  else Raise changed_concurrently.

(** ** Catch-up and watermarks *)

Definition thread_row (scope : MailScope) (key : text) (d : ReconcileDb) : option ThreadFollowRow :=
  List.find (fun f => in_mailbox scope f && bool_decide (f.(tf_thread_key) = key))
    d.(r_sources).(st_thread_follow).

Definition thread_followed (scope : MailScope) (key : text) (d : ReconcileDb) : bool :=
  match thread_row scope key d with Some f => f.(tf_followed) | None => false end.

(** [record_follow_transition], with the foreign key to [thread_follow]. *)
Definition record_follow_transition (scope : MailScope) (thread_key : text) (now : Z)
    (d : ReconcileDb) : py ReconcileDb :=
  match d.(r_progress) !! scope with
  | None => Ret d
  | Some row =>
      let k := (scope, row.(rp_generation), thread_key) in
      let target := match d.(r_catchup) !! k with
                    | Some t => text_max t (utc_stamp now)
                    | None => utc_stamp now
                    end in
      _ ← require (is_some (thread_row scope thread_key d))
            (IntegrityError "FOREIGN KEY constraint failed");
      Ret (set_catchup (<[k := target]> d.(r_catchup)) d)
  end.

(** [ReconcileState.catchup_targets] *)
Definition catchup_targets (scope : MailScope) (p : ProgressRow) (d : ReconcileDb)
    : list (text * text) :=
  (fun e => (e.1.2, e.2)) <$> List.filter (fun e =>
    bool_decide (e.1.1 = (scope, p.(rp_generation))) && thread_followed scope e.1.2 d)
  (map_to_list d.(r_catchup)).

(** [ReconcileState.watermark]: the thread as the pass read it, with its number of
    aliases. *)
Definition alias_count (key : text) (d : ReconcileDb) : nat :=
  length (List.filter (fun a => bool_decide (a.2 = key)) d.(r_aliases)).

Definition watermark (scope : MailScope) (p : ProgressRow) (key : text) (aliases : nat)
    (d : ReconcileDb) : bool * ReconcileDb :=
  if negb (thread_followed scope key d) || negb (bool_decide (alias_count key d = aliases))
  then (false, d)
  else
    let through := match d.(r_watermarks) !! (scope, key) with
                   | Some w => text_max w p.(rp_started_at)
                   | None => p.(rp_started_at)
                   end in
    (true, set_watermarks (<[(scope, key) := through]> d.(r_watermarks)) d).

(** [ReconcileState.catchup_pending] *)
Definition behind (scope : MailScope) (d : ReconcileDb) (key target : text) : bool :=
  thread_followed scope key d &&
  match d.(r_watermarks) !! (scope, key) with
  | None => true
  | Some w => text_ltb w target
  end.

Definition catchup_pending (scope : MailScope) (p : ProgressRow) (d : ReconcileDb) : bool :=
  existsb (fun e => behind scope d e.1 e.2) (catchup_targets scope p d).

(** ** Completion and coverage *)

(** [now - timedelta(days=days)] *)
Definition days_before (now days : Z) : py Z :=
  let w := now - days * DAY in if wall_ok w then Ret w else Raise OverflowError.

Definition body_work (scope : MailScope) (cutoff now : Z) (d : ReconcileDb) : bool :=
  negb (bool_decide (pending d.(r_sources) d.(r_locations) d.(r_bodies) scope cutoff now
                       (Some 1%nat) [] = [])).

(** [INSERT INTO reconcile_coverage ... ON CONFLICT DO UPDATE ... WHERE
    reconcile_coverage.generation<=excluded.generation] *)
Definition put_coverage (scope : MailScope) (c : CoverageRow) (d : ReconcileDb) : ReconcileDb :=
  match d.(r_coverage) !! scope with
  | Some old =>
      if old.(rc_generation) <=? c.(rc_generation)
      then set_coverage (<[scope := c]> d.(r_coverage)) d else d
  | None => set_coverage (<[scope := c]> d.(r_coverage)) d
  end.

(** [ReconcileState.complete] *)
Definition complete (scope : MailScope) (p : ProgressRow) (now : Z) (d : ReconcileDb)
    : py ReconcileDb :=
  _ ← require (negb (catchup_pending scope p d)) (RuntimeError "reconcile catch-up remains pending");
  _ ← require (owns scope p d) changed_concurrently;
  start ← stored_instant p.(rp_started_at);
  cutoff ← days_before start p.(rp_retention_days);
  _ ← require (negb (body_work scope cutoff start d))
        (RuntimeError "reconcile body work remains pending");
  let d := put_coverage scope (mk_coverage p.(rp_generation) (utc_stamp now)) d in
  let d := set_items (filter (fun e => e.1.1.1.1 ≠ (scope, p.(rp_generation))) d.(r_items)) d in
  let d := set_catchup (filter (fun e => e.1.1 ≠ (scope, p.(rp_generation))) d.(r_catchup)) d in
  Ret (set_progress (delete scope d.(r_progress)) d).

(** The followed threads of a mailbox. *)
Definition followed_threads (scope : MailScope) (d : ReconcileDb) : list text :=
  tf_thread_key <$> List.filter (fun f => in_mailbox scope f && f.(tf_followed))
                      d.(r_sources).(st_thread_follow).

(** [coverage_current] *)
Definition coverage_current (scope : MailScope) (now : Z) (retention_days : option Z)
    (d : ReconcileDb) : py bool :=
  match d.(r_generation) !! scope with
  | None => Ret false
  | Some g =>
      if negb (bool_decide (rc_generation <$> d.(r_coverage) !! scope = Some g.(cg_generation)))
      then Ret false
      else if is_some (d.(r_progress) !! scope) then Ret false
      else if existsb (fun key => is_none (d.(r_watermarks) !! (scope, key)))
                (followed_threads scope d)
      then Ret false
      else
        days ← require_some (match retention_days with
                             | Some r => Some r | None => g.(cg_retention_days) end)
                 (TypeError "unsupported type for timedelta days component: NoneType");
        cutoff ← days_before now days;
        Ret (negb (body_work scope cutoff now d))
  end.

(** [ReconcileState.stale] *)
Definition stale (scope : MailScope) (now : Z) (d : ReconcileDb) : py bool :=
  b ← coverage_current scope now None d; Ret (negb b).
