(* ===== verification/ReconcileTheorems.v ===== *)
(** * What the coverage state guarantees

    [cov_spec] is the life of one mailbox as its generation, its recorded coverage
    and its pass in progress; every operation refines it, which gives the invariant
    that nothing recorded is ahead of the generation.  From it: a change of the
    inputs makes coverage stale, a completed pass makes it current, saves are
    exclusive, and items and passes make progress. *)

From S2P Require Export ReconcileState IsoTimeFacts.
From stdpp Require Import options.

Local Open Scope Z_scope.

(** ** The abstract life of a mailbox *)

Definition view : Type := option GenerationRow * option CoverageRow * option ProgressRow.

Definition view_of (scope : MailScope) (d : ReconcileDb) : view :=
  (d.(r_generation) !! scope, d.(r_coverage) !! scope, d.(r_progress) !! scope).

Definition gen_of (g : option GenerationRow) : Z := from_option cg_generation 0 g.

Definition recorded (c : option CoverageRow) (gen : Z) (stamp : text) : option CoverageRow :=
  match c with
  | Some old => if rc_generation old <=? gen then Some (mk_coverage gen stamp) else Some old
  | None => Some (mk_coverage gen stamp)
  end.

Inductive cov_spec : view → view → Prop :=
| spec_stay v : cov_spec v v
| spec_raise g g' c p : gen_of g <= cg_generation g' → cov_spec (g, c, p) (Some g', c, p)
| spec_start g c p row :
    rp_version row = 0 → 0 < rp_retention_days row →
    (rp_generation row = cg_generation g ∨
     ∃ old, p = Some old ∧ rp_generation row = rp_generation old) →
    cov_spec (Some g, c, p) (Some g, c, Some row)
| spec_restart c old row :
    rp_version row = 0 → 0 < rp_retention_days row → rp_generation row = rp_generation old →
    cov_spec (None, c, Some old) (None, c, Some row)
| spec_save g c old payload :
    cov_spec (g, c, Some old)
      (g, c, Some (mk_progress (rp_generation old) (rp_started_at old) (rp_retention_days old)
                     (rp_version old + 1) payload))
| spec_done g c old stamp :
    cov_spec (g, c, Some old) (g, recorded c (rp_generation old) stamp, None).

(** ** Every operation refines it *)

Definition refines (d d' : ReconcileDb) : Prop :=
  ∀ scope, cov_spec (view_of scope d) (view_of scope d').

Definition same_rows (d d' : ReconcileDb) : Prop :=
  r_generation d' = r_generation d ∧ r_coverage d' = r_coverage d ∧ r_progress d' = r_progress d.

Lemma same_rows_refines d d' : same_rows d d' → refines d d'.
Proof. intros (H1 & H2 & H3) scope. unfold view_of. rewrite H1, H2, H3. constructor. Qed.

(** A change of the generation row of one scope. *)
Lemma raise_refines scope g' d d' :
  r_generation d' = <[scope := g']> (r_generation d) → r_coverage d' = r_coverage d →
  r_progress d' = r_progress d → gen_of (r_generation d !! scope) <= cg_generation g' →
  refines d d'.
Proof.
  intros H1 H2 H3 Hle s. unfold view_of. rewrite H1, H2, H3.
  destruct (decide (s = scope)) as [->|Hne].
  - rewrite lookup_insert_eq. by constructor.
  - rewrite lookup_insert_ne by done. constructor.
Qed.

Lemma ensure_generation_spec scope d :
  ∃ g, r_generation (ensure_generation scope d) !! scope = Some g ∧
    cg_generation g = gen_of (r_generation d !! scope) ∧
    r_generation (ensure_generation scope d) = <[scope := g]> (r_generation d) ∧
    r_coverage (ensure_generation scope d) = r_coverage d ∧
    r_progress (ensure_generation scope d) = r_progress d.
Proof.
  unfold ensure_generation. destruct (r_generation d !! scope) as [g|] eqn:Hg.
  - exists g. split_and!; [done..|by rewrite insert_id|done|done].
  - exists new_generation. simpl. by rewrite lookup_insert_eq.
Qed.

Lemma bump_spec scope amount clear d d' :
  bump_coverage_generation scope amount clear d = Ret d' →
  0 <= amount ∧ ∃ g, cg_generation g = gen_of (r_generation d !! scope) + amount ∧
    r_generation d' = <[scope := g]> (r_generation d) ∧
    r_coverage d' = r_coverage d ∧ r_progress d' = r_progress d.
Proof.
  unfold bump_coverage_generation.
  destruct (ensure_generation_spec scope d) as (g & Hg & Hgen & Hgr & Hc & Hp).
  cbv zeta. rewrite Hg. destruct (Z.ltb_spec amount 0); [done|]. intros [= <-].
  split; [done|]. eexists. split_and!; cycle 1.
  - destruct clear; simpl; rewrite Hgr; apply insert_insert_eq.
  - by destruct clear.
  - by destruct clear.
  - simpl. lia.
Qed.

Lemma bump_refines scope amount clear d d' :
  bump_coverage_generation scope amount clear d = Ret d' → refines d d'.
Proof.
  intros (Ha & g & Hg & H1 & H2 & H3)%bump_spec. eapply raise_refines; [done..|]. lia.
Qed.

Lemma clear_stamps_same scope now d d' : clear_stamps scope now d = Ret d' → same_rows d d'.
Proof. unfold clear_stamps. intros H. peel. by subst. Qed.

Lemma observe_spec scope active days sent now d d' :
  observe scope active days sent now d = Ret d' →
  ∃ g, gen_of (r_generation d !! scope) <= cg_generation g ∧
    r_generation d' = <[scope := g]> (r_generation d) ∧
    r_coverage d' = r_coverage d ∧ r_progress d' = r_progress d.
Proof.
  unfold observe. destruct (ensure_generation_spec scope d) as (g & Hg & Hgen & Hgr & Hc & Hp).
  cbv zeta. rewrite Hg. simpl. case_bool_decide.
  { intros [= <-]. exists g. split; [lia|done]. }
  intros Hobs. apply bind_ret_inv in Hobs as (d1 & Hb & Hobs).
  apply bump_spec in Hb as (_ & g1 & Hg1 & H1 & H2 & H3).
  apply bind_ret_inv in Hobs as (u & _ & Hobs).
  assert (∃ d2, same_rows d2 d' ∧ r_generation d2 = <[scope := mk_generation (cg_generation g1)
      (Some active) (Some days) (match sent with Some s => Some s | None => cg_sent_folder g end)]>
      (r_generation d) ∧ r_coverage d2 = r_coverage d ∧ r_progress d2 = r_progress d)
    as (d2 & (E1 & E2 & E3) & Hgen2 & Hcov2 & Hprog2).
  { eexists (set_generation _ d1). split; [|split_and!; cycle 1].
    - case_match; [by apply clear_stamps_same in Hobs|by simplify_eq].
    - simpl. by rewrite H2, Hc.
    - simpl. by rewrite H3, Hp.
    - simpl. rewrite H1, Hgr, insert_insert_eq. apply map_eq. intros s.
      destruct (decide (s = scope)) as [->|Hne].
      + by rewrite lookup_alter_eq, !lookup_insert_eq.
      + by rewrite lookup_alter_ne, !lookup_insert_ne. }
  eexists. split_and!; [|by rewrite E1, Hgen2|by rewrite E2|by rewrite E3].
  simpl. rewrite Hg1, Hg. simpl. lia.
Qed.

Lemma gap_spec scope now d d' :
  gap scope now d = Ret d' →
  ∃ g, cg_generation g = gen_of (r_generation d !! scope) + 1 ∧
    r_generation d' = <[scope := g]> (r_generation d) ∧
    r_coverage d' = r_coverage d ∧ r_progress d' = r_progress d.
Proof.
  unfold gap. intros Hg. apply bind_ret_inv in Hg as (d1 & Hb & Hc).
  apply bump_spec in Hb as (_ & g & Hg1 & H1 & H2 & H3).
  apply clear_stamps_same in Hc as (E1 & E2 & E3). exists g. by rewrite E1, E2, E3.
Qed.

(** A gap is always recorded. *)
Lemma gap_returns scope now d : observed d.(r_locations) → wall_ok now = true → ∃ d', gap scope now d = Ret d'.
Proof.
  intros Hobs Hw. assert (∃ d1, bump_coverage_generation scope 1 true d = Ret d1 ∧ d1.(r_locations) = d.(r_locations))
    as (d1 & Hb & El).
  { unfold bump_coverage_generation, ensure_generation. destruct (r_generation d !! scope) as [g|] eqn:E.
    - rewrite E. by eexists.
    - simpl. rewrite lookup_insert_eq. by eexists. }
  unfold gap. rewrite Hb. simpl. unfold clear_stamps, clear_location_stamps. rewrite El.
  destruct (clear_sources_spec scope now (located_sources scope d.(r_locations)) d.(r_locations) (observed_inv _ Hobs) Hw)
    as (t' & -> & _). by eexists.
Qed.

(** A change of the progress row of one scope. *)
Lemma progress_refines scope (row : ProgressRow) d d' :
  r_generation d' = r_generation d → r_coverage d' = r_coverage d →
  r_progress d' = <[scope := row]> (r_progress d) →
  cov_spec (view_of scope d) (r_generation d !! scope, r_coverage d !! scope, Some row) →
  refines d d'.
Proof.
  intros H1 H2 H3 Hspec s. unfold view_of. rewrite H1, H2, H3.
  destruct (decide (s = scope)) as [->|Hne].
  - by rewrite lookup_insert_eq.
  - rewrite lookup_insert_ne by done. constructor.
Qed.

Lemma start_progress_spec scope gen now days payload d row d' :
  start_progress scope gen now days payload d = Ret (row, d') →
  0 < days ∧ row = mk_progress gen (utc_stamp now) days 0 payload ∧
  d' = set_progress (<[scope := row]> (r_progress d)) d.
Proof. unfold start_progress. intros H. peel. simplify_eq. split_and!; [lia|done|done]. Qed.

Lemma load_refines scope now days payload d row d' :
  load_or_start scope now days payload d = Ret (row, d') → refines d d'.
Proof.
  unfold load_or_start. intros H. apply bind_ret_inv in H as (g & Hg & H).
  apply require_some_ret_inv in Hg.
  destruct (r_progress d !! scope) as [old|] eqn:Hp.
  - case_decide; [simplify_eq; by apply same_rows_refines|].
    apply start_progress_spec in H as (Hd & -> & ->).
    eapply (progress_refines scope); [done|done|simpl; apply insert_delete_eq|].
    unfold view_of. rewrite Hg. constructor; [done|done|by left].
  - apply start_progress_spec in H as (Hd & -> & ->).
    eapply (progress_refines scope); [done..|].
    unfold view_of. rewrite Hg. constructor; [done|done|by left].
Qed.

Lemma owns_inv scope p d : owns scope p d = true →
  ∃ row, r_progress d !! scope = Some row ∧ rp_generation row = rp_generation p ∧
    rp_version row = rp_version p.
Proof.
  unfold owns. destruct (r_progress d !! scope) as [row|]; [|done]. intros Ho. bools.
  exists row. split_and!; [done|lia|lia].
Qed.

Lemma save_refines scope p d p' d' : save scope p d = Ret (p', d') → refines d d'.
Proof.
  unfold save. destruct (r_progress d !! scope) as [row|] eqn:Hp; [|done].
  destruct (owns scope p d); [|done]. intros [= <- <-].
  eapply (progress_refines scope); [done..|]. unfold view_of. rewrite Hp. constructor.
Qed.

Lemma next_interval_refines scope p now payload d row d' :
  next_interval scope p now payload d = Ret (row, d') → refines d d'.
Proof.
  unfold next_interval. destruct (owns scope p d) eqn:Ho; [|done].
  apply owns_inv in Ho as (old & Hp & Hg & Hv).
  intros (Hd & -> & ->)%start_progress_spec.
  eapply (progress_refines scope); [done|done|simpl; apply insert_delete_eq|].
  unfold view_of. rewrite Hp. destruct (r_generation d !! scope).
  - constructor; [done|done|]. right. exists old. by split.
  - by constructor.
Qed.

(** A completed pass: what held, and what is left. *)
Lemma complete_spec scope p now d d' :
  complete scope p now d = Ret d' →
  catchup_pending scope p d = false ∧
  (∃ row, r_progress d !! scope = Some row ∧ rp_generation row = rp_generation p ∧
    rp_version row = rp_version p) ∧
  (∃ start cutoff, stored_instant (rp_started_at p) = Ret start ∧
    days_before start (rp_retention_days p) = Ret cutoff ∧ body_work scope cutoff start d = false) ∧
  r_generation d' = r_generation d ∧
  r_coverage d' = partial_alter (λ _, recorded (r_coverage d !! scope) (rp_generation p)
    (utc_stamp now)) scope (r_coverage d) ∧
  r_progress d' = delete scope (r_progress d) ∧ r_watermarks d' = r_watermarks d ∧
  r_sources d' = r_sources d ∧ r_locations d' = r_locations d ∧ r_bodies d' = r_bodies d.
Proof.
  unfold complete. intros H.
  apply bind_ret_inv in H as (u1 & H1%require_ret_inv & H).
  apply bind_ret_inv in H as (u2 & H2%require_ret_inv & H).
  apply bind_ret_inv in H as (start & H3 & H). apply bind_ret_inv in H as (cutoff & H4 & H).
  apply bind_ret_inv in H as (u3 & H5%require_ret_inv & H). injection H as <-. bools.
  split_and!; [done|by apply owns_inv|by exists start, cutoff|..]; unfold put_coverage, recorded;
    destruct (r_coverage d !! scope) as [c|] eqn:Hc; simpl; try done;
    destruct (Z.leb_spec (rc_generation c) (rp_generation p)); try done.
  simpl. apply map_eq. intros s. destruct (decide (s = scope)) as [->|Hne].
  - by rewrite lookup_partial_alter_eq.
  - by rewrite lookup_partial_alter_ne.
Qed.

Lemma complete_refines scope p now d d' : complete scope p now d = Ret d' → refines d d'.
Proof.
  intros (_ & (row & Hp & Hg & _) & _ & H1 & H2 & H3 & _)%complete_spec s. unfold view_of.
  rewrite H1, H2, H3. destruct (decide (s = scope)) as [->|Hne].
  - rewrite lookup_partial_alter_eq, lookup_delete_eq, Hp, <- Hg. constructor.
  - rewrite lookup_partial_alter_ne, lookup_delete_ne by done. constructor.
Qed.

(** ** Histories *)

(** The operations of this component, and what the owners of the other tables do:
    they may change the source, body, location and alias tables, and drop catch-up
    rows and watermarks with their threads. *)
Inductive rec_step (d : ReconcileDb) : ReconcileDb → Prop :=
| do_observe scope active days sent now d' :
    observe scope active days sent now d = Ret d' → rec_step d d'
| do_gap scope now d' : gap scope now d = Ret d' → rec_step d d'
| do_flush rows d' : flush_coverage_inputs rows d = Ret d' → rec_step d d'
| do_load scope now days payload row d' :
    load_or_start scope now days payload d = Ret (row, d') → rec_step d d'
| do_save scope p p' d' : save scope p d = Ret (p', d') → rec_step d d'
| do_put scope p ph unit_ items f : rec_step d (put_items scope p ph unit_ items f d)
| do_finish scope p ph unit_ id : rec_step d (finish_item scope p ph unit_ id d)
| do_next scope p now payload row d' :
    next_interval scope p now payload d = Ret (row, d') → rec_step d d'
| do_follow scope key now d' : record_follow_transition scope key now d = Ret d' → rec_step d d'
| do_watermark scope p key aliases : rec_step d (watermark scope p key aliases d).2
| do_complete scope p now d' : complete scope p now d = Ret d' → rec_step d d'
| others_write sources locations bodies aliases catchup watermarks :
    catchup ⊆ r_catchup d → watermarks ⊆ r_watermarks d →
    rec_step d (mk_rdb sources locations bodies (r_generation d) (r_coverage d) (r_progress d)
                  (r_items d) catchup watermarks aliases).

Lemma flush_refines rows d d' :
  flush_coverage_inputs rows d = Ret d' → rtc refines d d'.
Proof.
  revert d. induction rows as [|[scope amount] rows IH]; intros d H; simpl in H.
  { simplify_eq. apply rtc_refl. }
  apply bind_ret_inv in H as (d1 & Hb & H). eapply rtc_l; [by eapply bump_refines|]. by apply IH.
Qed.

Lemma rec_step_refines d d' : rec_step d d' → rtc refines d d'.
Proof.
  intros [scope active days sent now d1 H|scope now d1 H|rows d1 H|scope now days payload row d1 H
    |scope p p' d1 H| | |scope p now payload row d1 H|scope key now d1 H|scope p key aliases
    |scope p now d1 H|]; [..|].
  3:{ by eapply flush_refines. }
  all: apply rtc_once.
  - apply observe_spec in H as (g & Hg & H1 & H2 & H3). by eapply raise_refines.
  - apply gap_spec in H as (g & Hg & H1 & H2 & H3). eapply raise_refines; [done..|]. lia.
  - by eapply load_refines.
  - by eapply save_refines.
  - by apply same_rows_refines.
  - by apply same_rows_refines.
  - by eapply next_interval_refines.
  - unfold record_follow_transition in H. case_match; [|simplify_eq; by apply same_rows_refines].
    peel. subst. by apply same_rows_refines.
  - unfold watermark. case_match; by apply same_rows_refines.
  - by eapply complete_refines.
  - by apply same_rows_refines.
Qed.

(** ** Nothing recorded is ahead of the generation *)

Definition ViewInv (v : view) : Prop :=
  let '(g, c, p) := v in
  (∀ c0, c = Some c0 → ∃ g0, g = Some g0 ∧ rc_generation c0 <= cg_generation g0) ∧
  (∀ p0, p = Some p0 → ∃ g0, g = Some g0 ∧ rp_generation p0 <= cg_generation g0).

Lemma view_inv_spec v v' : cov_spec v v' → ViewInv v → ViewInv v'.
Proof.
  destruct 1 as [v|g g' c p Hle|g c p row Hv Hd Hg|c old row Hv Hd Hg|g c old payload|g c old stamp];
    simpl; [done|intros [Hc Hp]..].
  - split; intros x0 ->; eexists; (split; [done|]).
    + destruct (Hc _ eq_refl) as (g0 & -> & ?). simpl in Hle. lia.
    + destruct (Hp _ eq_refl) as (g0 & -> & ?). simpl in Hle. lia.
  - split; [done|]. intros ? [= <-]. eexists. split; [done|].
    destruct Hg as [->|(old & -> & ->)]; [lia|].
    destruct (Hp _ eq_refl) as (g0 & [= <-] & ?). lia.
  - destruct (Hp _ eq_refl) as (g0 & [=] & _).
  - split; [done|]. intros ? [= <-]. simpl. by apply Hp.
  - destruct (Hp _ eq_refl) as (g0 & -> & Hle). split; [|done].
    intros c0. unfold recorded. destruct c as [c1|]; [case_match|]; intros [= <-];
      eexists; (split; [done|]); simpl; try lia.
    destruct (Hc _ eq_refl) as (g1 & [= <-] & ?). lia.
Qed.

Definition rec_reachable : ReconcileDb → Prop := rtc rec_step empty_rdb.

Lemma refines_inv scope d d' :
  rtc refines d d' → ViewInv (view_of scope d) → ViewInv (view_of scope d').
Proof. induction 1 as [|d d1 d2 Hr _ IH]; [done|]. intros Hi. apply IH. by eapply view_inv_spec. Qed.

Lemma rec_reachable_inv scope d : rec_reachable d → ViewInv (view_of scope d).
Proof.
  assert (ViewInv (view_of scope empty_rdb)) as H0 by (split; by intros ? [=]).
  unfold rec_reachable. intros Hr. revert H0.
  induction Hr; eauto using refines_inv, rec_step_refines.
Qed.

Lemma cov_spec_monotone v v' : cov_spec v v' → gen_of v.1.1 <= gen_of v'.1.1.
Proof. destruct 1; simpl; lia. Qed.

Lemma rec_step_monotone scope d d' :
  rec_step d d' → gen_of (r_generation d !! scope) <= gen_of (r_generation d' !! scope).
Proof.
  intros H%rec_step_refines. induction H as [|d d1 d2 Hr _ IH]; [lia|].
  pose proof (cov_spec_monotone _ _ (Hr scope)). simpl in *. lia.
Qed.

Lemma flush_coverage rows d d' :
  flush_coverage_inputs rows d = Ret d' → r_coverage d' = r_coverage d.
Proof.
  revert d. induction rows as [|[s a] rows IH]; intros d H; simpl in H; [by simplify_eq|].
  apply bind_ret_inv in H as (d1 & (_ & g & _ & _ & Hc & _)%bump_spec & H).
  by rewrite (IH _ H).
Qed.

(** No step changes both the generation and the recorded coverage. *)
Lemma rec_step_one d d' :
  rec_step d d' → r_generation d' = r_generation d ∨ r_coverage d' = r_coverage d.
Proof.
  intros [scope active days sent now d1 H|scope now d1 H|rows d1 H|scope now days payload row d1 H
    |scope p p' d1 H| | |scope p now payload row d1 H|scope key now d1 H|scope p key aliases
    |scope p now d1 H|]; try (by left).
  - right. by apply observe_spec in H as (? & _ & _ & ? & _).
  - right. by apply gap_spec in H as (? & _ & _ & ? & _).
  - right. by eapply flush_coverage.
  - right. unfold load_or_start in H. apply bind_ret_inv in H as (g & _ & H).
    repeat case_match; simplify_eq; try done; by apply start_progress_spec in H as (_ & _ & ->).
  - right. unfold save in H. by repeat case_match; simplify_eq.
  - right. unfold next_interval in H. case_match; [|done].
    by apply start_progress_spec in H as (_ & _ & ->).
  - right. unfold record_follow_transition in H. case_match; peel; by simplify_eq.
  - right. unfold watermark. by case_match.
  - left. by apply complete_spec in H as (_ & _ & _ & -> & _).
Qed.

Lemma elem_of_catchup_targets scope p d key target :
  r_catchup d !! (scope, rp_generation p, key) = Some target → thread_followed scope key d = true →
  (key, target) ∈ catchup_targets scope p d.
Proof.
  intros Hk Hf. unfold catchup_targets. apply list_elem_of_fmap.
  exists (scope, rp_generation p, key, target). split; [done|].
  apply list_elem_of_In, filter_In. split; [by apply list_elem_of_In, elem_of_map_to_list|].
  simpl. by rewrite bool_decide_eq_true_2.
Qed.

(** ** Properties *)

(** C37: Every operation, and every write of the tables' other owners, moves a mailbox
    only along [cov_spec]: its generation is raised, or a pass is started at the
    present or its own generation, saved with the next version and frozen bounds, or
    completed into recorded coverage; mailboxes are independent. *)
Theorem reconcile_refines scope d d' :
  rec_step d d' → rtc cov_spec (view_of scope d) (view_of scope d').
Proof.
  intros H%rec_step_refines. induction H as [|d d1 d2 Hr _ IH]; [apply rtc_refl|].
  eapply rtc_l; [apply Hr|done].
Qed.

(** In every history the generation of a mailbox never decreases, and neither
    recorded coverage nor a pass in progress is ahead of it. *)
Theorem coverage_never_ahead scope d d' :
  rec_reachable d → rtc rec_step d d' →
  gen_of (r_generation d !! scope) <= gen_of (r_generation d' !! scope) ∧
  (∀ c, r_coverage d' !! scope = Some c → rc_generation c <= gen_of (r_generation d' !! scope)) ∧
  (∀ p, r_progress d' !! scope = Some p → rp_generation p <= gen_of (r_generation d' !! scope)).
Proof.
  intros Hr Hs. assert (rec_reachable d') as Hr' by (unfold rec_reachable in *; by etrans).
  split.
  - clear Hr Hr'. induction Hs as [|d d1 d2 H _ IH]; [lia|].
    pose proof (rec_step_monotone scope _ _ H). lia.
  - destruct (rec_reachable_inv scope d' Hr') as [Hc Hp].
    split; intros x Hx; [destruct (Hc x Hx) as (g & Hg & ?)|destruct (Hp x Hx) as (g & Hg & ?)];
      by rewrite Hg.
Qed.

(** C35: Any step that raises the generation of a mailbox (a change of its entitlement, its
    retention, its sent folder or its vendors, or a gap) leaves its coverage stale, at
    every time and for every retention. *)
Theorem change_makes_stale scope d d' now days :
  rec_reachable d → rec_step d d' →
  gen_of (r_generation d !! scope) < gen_of (r_generation d' !! scope) →
  coverage_current scope now days d' = Ret false.
Proof.
  intros Hr Hs Hlt. unfold coverage_current.
  destruct (r_generation d' !! scope) as [g|] eqn:Hg; [|done]. simpl in Hlt.
  destruct (rec_step_one _ _ Hs) as [Heq|Heq].
  { rewrite <- Heq, Hg in Hlt. simpl in Hlt. lia. }
  rewrite Heq. destruct (rec_reachable_inv scope d Hr) as [Hc _].
  rewrite bool_decide_eq_false_2; [done|].
  destruct (r_coverage d !! scope) as [c|] eqn:Ec; [|done]. simpl. intros [= Hcg].
  destruct (Hc c eq_refl) as (g0 & Hg0 & Hle). simpl in Hg0. rewrite Hg0 in Hlt. simpl in Hlt. lia.
Qed.

(** The watermark of every followed thread is known. *)
Definition watermarked (scope : MailScope) (d : ReconcileDb) : bool :=
  forallb (λ key, is_some (r_watermarks d !! (scope, key))) (followed_threads scope d).

(** No stored copy is dated after an instant. *)
Definition dated_by (at_ : Z) (d : ReconcileDb) : Prop :=
  ∀ m received, m ∈ st_messages (r_sources d) → epoch (ms_received_at m) = Some received → received <= at_.

(** With no copy dated after the earlier moment, a message past an earlier cutoff is past a later one. *)
Lemma past_cutoff_later st lt c c' n n' id :
  (∀ m received, m ∈ st_messages st → epoch (ms_received_at m) = Some received → received <= n) →
  n <= n' → c <= c' → past_cutoff st lt c n id = true → past_cutoff st lt c' n' id = true.
Proof.
  intros Hd Hn Hc. unfold past_cutoff. rewrite !andb_true_iff, !negb_true_iff, !forallb_forall.
  intros [[Hne Hrows] Hloc]. split_and!; [done| |].
  - intros m Hm. specialize (Hrows m Hm). apply List.filter_In in Hm as [Hm _]. apply list_elem_of_In in Hm.
    unfold row_expired in *. destruct (epoch (ms_received_at m)) as [r|] eqn:E; [|done]. specialize (Hd m r Hm E).
    assert (n <? r = false) as Hf by lia. rewrite Hf in Hrows. simpl in Hrows. bools.
    rewrite orb_true_iff. right. rewrite andb_true_iff. lia.
  - apply not_true_is_false. intros (l & Hl & Hk)%existsb_exists. rewrite <- not_true_iff_false in Hloc. apply Hloc.
    apply existsb_exists. exists l. split; [done|]. unfold location_keeps in *. bools. rewrite andb_true_iff, bool_decide_eq_true. split; [done|].
    destruct (epoch (lo_received_at l)); [|done]. lia.
Qed.

Lemma body_work_later scope c c' n n' d :
  dated_by n d → n <= n' → c <= c' → body_work scope c n d = false → body_work scope c' n' d = false.
Proof.
  intros Hd Hn Hc. unfold body_work, pending. rewrite !negb_false_iff, !bool_decide_eq_true. intros E.
  assert (∀ l : list text, take 1 l = [] → l = []) as Htake by (by intros [|]). apply Htake in E.
  assert (∀ m, m ∈ logical_messages (r_sources d) → needs_body (r_sources d) (r_locations d) (r_bodies d) scope c' n' [] m = false) as Hno.
  { intros m Hm. apply not_true_is_false. intros Hnb.
    assert (needs_body (r_sources d) (r_locations d) (r_bodies d) scope c n [] m = true) as Hnb0.
    { unfold needs_body in *. rewrite !andb_true_iff in *. destruct_and!. split_and!; try done. rewrite negb_true_iff in *.
      apply not_true_is_false. intros Hp. pose proof (past_cutoff_later _ _ c c' n n' _ Hd Hn Hc Hp). congruence. }
    assert (ms_message_id m ∈ order_texts (ms_message_id <$> List.filter (needs_body (r_sources d) (r_locations d) (r_bodies d) scope c n []) (logical_messages (r_sources d)))) as Hin.
    { rewrite order_texts_perm. apply list_elem_of_fmap_2, list_elem_of_In, List.filter_In. split; [by apply list_elem_of_In|done]. }
    rewrite E in Hin. by apply not_elem_of_nil in Hin. }
  assert (List.filter (needs_body (r_sources d) (r_locations d) (r_bodies d) scope c' n' []) (logical_messages (r_sources d)) = []) as ->; [|done].
  clear E. induction (logical_messages (r_sources d)) as [|m l IH]; [done|]. simpl. rewrite Hno by by left. apply IH.
  intros m' Hm'. apply Hno. by right.
Qed.


(** A pass completes only with its catch-up done: every followed thread whose following
    changed during the pass has been synced through its target, the caller still owns
    the pass, and no body within its window waits to be fetched. *)
Theorem complete_only_when_done scope p now d d' :
  complete scope p now d = Ret d' →
  (∀ key target, r_catchup d !! (scope, rp_generation p, key) = Some target →
     thread_followed scope key d = true →
     ∃ w, r_watermarks d !! (scope, key) = Some w ∧ text_ltb w target = false) ∧
  owns scope p d = true ∧
  ∃ start cutoff, stored_instant (rp_started_at p) = Ret start ∧
    days_before start (rp_retention_days p) = Ret cutoff ∧
    pending (r_sources d) (r_locations d) (r_bodies d) scope cutoff start None [] = [].
Proof.
  intros (Hcatch & (row & Hp & Hg & Hv) & (start & cutoff & Hst & Hcut & Hbody) & _)%complete_spec.
  split_and!.
  - intros key target Hk Hf. unfold catchup_pending in Hcatch. rewrite existsb_false in Hcatch.
    specialize (Hcatch (key, target)). unfold behind in Hcatch. simpl in Hcatch. rewrite Hf in Hcatch.
    destruct (r_watermarks d !! (scope, key)) as [w|]; simpl in Hcatch.
    + exists w. split; [done|]. apply Hcatch. by apply elem_of_catchup_targets.
    + enough (true = false) by done. apply Hcatch. by apply elem_of_catchup_targets.
  - unfold owns. rewrite Hp. by rewrite Hg, Hv, !Z.eqb_refl.
  - exists start, cutoff. split_and!; [done..|]. unfold body_work in Hbody. bools.
    unfold pending in *. simpl in *. destruct (order_texts _); done.
Qed.

(** Saving is exclusive: of two holders of the same progress only the first save
    returns, the other raises; the first keeps the frozen bounds, stores its payload
    with the next version, and may save again. *)
Theorem save_exclusive scope p d p' d' :
  save scope p d = Ret (p', d') →
  rp_version p' = rp_version p + 1 ∧
  save scope p d' = Raise changed_concurrently ∧
  is_ret (save scope p' d') = true ∧
  ∃ row row', r_progress d !! scope = Some row ∧ r_progress d' !! scope = Some row' ∧
    rp_generation row' = rp_generation row ∧ rp_started_at row' = rp_started_at row ∧
    rp_retention_days row' = rp_retention_days row ∧
    rp_version row' = rp_version p' ∧ rp_payload row' = rp_payload p.
Proof.
  unfold save. destruct (r_progress d !! scope) as [row|] eqn:Hp; [|done].
  destruct (owns scope p d) eqn:Ho; [|done]. intros [= <- <-].
  apply owns_inv in Ho as (r & Hr & Hg & Hv). rewrite Hp in Hr. injection Hr as <-.
  unfold owns. simpl. rewrite lookup_insert_eq. simpl.
  rewrite Hg, Hv, !Z.eqb_refl. simpl.
  destruct (Z.eqb_spec (rp_version p + 1) (rp_version p)); [lia|].
  split_and!; [done..|]. eexists _, _. by split_and!.
Qed.

(** Loading a pass succeeds whenever the mailbox has a generation and the retention is
    positive, always at the present generation, and is idempotent: until something
    else changes it, later loads return the same pass, whatever they ask for. *)
Theorem load_or_start_stable scope now days payload d g :
  r_generation d !! scope = Some g → 0 < days →
  ∃ row d', load_or_start scope now days payload d = Ret (row, d') ∧
    rp_generation row = cg_generation g ∧ r_progress d' !! scope = Some row ∧
    r_generation d' = r_generation d ∧
    ∀ now' days' payload', load_or_start scope now' days' payload' d' = Ret (row, d').
Proof.
  intros Hg Hd.
  assert (∃ row d', load_or_start scope now days payload d = Ret (row, d') ∧
    rp_generation row = cg_generation g ∧ r_progress d' !! scope = Some row ∧
    r_generation d' = r_generation d) as (row & d' & Hl & Hrow & Hp & Hgen).
  { unfold load_or_start, start_progress. rewrite Hg. simpl.
    assert (0 <? days = true) as -> by lia.
    destruct (r_progress d !! scope) as [old|] eqn:Hp; [case_decide|]; simpl;
      eexists _, _; split_and!; try done; simpl; by rewrite ?lookup_insert_eq. }
  exists row, d'. split_and!; [done..|]. intros now' days' payload'.
  unfold load_or_start. rewrite Hgen, Hg, Hp. simpl. by rewrite decide_True.
Qed.

Lemma elem_of_open_ids scope p ph unit_ d y :
  y ∈ open_ids scope p ph unit_ d ↔
  ∃ i, r_items d !! item_key scope p ph unit_ y = Some i ∧ it_done i = false.
Proof.
  unfold open_ids, item_key. rewrite order_texts_perm, list_elem_of_fmap. split.
  - intros ([k i] & -> & [Hin Hf]%list_elem_of_In%filter_In). simpl in *. bools.
    apply list_elem_of_In, elem_of_map_to_list in Hin. destruct k as [k y]. simpl in *. subst k.
    by exists i.
  - intros (i & Hi & Hd). eexists (_, _, _, _, y, i). split; [done|].
    apply list_elem_of_In, filter_In. split; [by apply list_elem_of_In, elem_of_map_to_list|].
    simpl. by rewrite bool_decide_eq_true_2, Hd.
Qed.

Lemma put_items_lookup scope p ph unit_ items f d k :
  r_items (put_items scope p ph unit_ items f d) !! k =
  match r_items d !! k with
  | Some i => Some i
  | None =>
      (λ i, mk_item (rf_thread_id i) (rf_received_at i) f false) <$>
        List.find (λ i, bool_decide (item_key scope p ph unit_ (rf_message_id i) = k)) items
  end.
Proof.
  unfold put_items. simpl. generalize (r_items d). induction items as [|i items IH]; intros m; simpl.
  { by destruct (m !! k). }
  rewrite IH. case_bool_decide as Hk.
  - subst k. destruct (m !! _) as [x|] eqn:Hm; [by rewrite Hm|]. by rewrite lookup_insert_eq.
  - destruct (m !! item_key scope p ph unit_ (rf_message_id i)); [done|].
    by rewrite lookup_insert_ne.
Qed.

(** The items of a unit are worked off exactly: finishing an item closes it and no
    other, and putting items opens exactly the ones the pass has not seen before,
    so a re-listed item is not done twice. *)
Theorem items_exact scope p ph unit_ d y :
  (∀ id, y ∈ open_ids scope p ph unit_ (finish_item scope p ph unit_ id d) ↔
         y ≠ id ∧ y ∈ open_ids scope p ph unit_ d) ∧
  (∀ items f, y ∈ open_ids scope p ph unit_ (put_items scope p ph unit_ items f d) ↔
         y ∈ open_ids scope p ph unit_ d ∨
         (y ∈ rf_message_id <$> items ∧ r_items d !! item_key scope p ph unit_ y = None)).
Proof.
  split; intros; rewrite !elem_of_open_ids.
  - unfold finish_item. simpl. destruct (decide (y = id)) as [->|Hne].
    + rewrite lookup_alter_eq. split; [|naive_solver].
      intros (i & (j & _ & ->)%fmap_Some & [=]).
    + rewrite lookup_alter_ne by (unfold item_key; congruence). naive_solver.
  - rewrite put_items_lookup. destruct (r_items d !! item_key scope p ph unit_ y) as [i|]; [naive_solver|].
    rewrite list_elem_of_fmap. split.
    + intros (i & (r & [Hr Hb]%find_some & _)%fmap_Some & _). right. split; [|done].
      exists r. apply bool_decide_eq_true_1 in Hb. unfold item_key in Hb.
      split; [congruence|by apply list_elem_of_In].
    + intros [(i & [=] & _)|[(r & -> & Hr) _]].
      destruct (List.find _ items) as [r'|] eqn:Hf; [by eexists|].
      eapply find_none in Hf; [|by apply list_elem_of_In]. simpl in Hf.
      by rewrite bool_decide_eq_true_2 in Hf.
Qed.

(** ** A concrete pass

    The entitlement is observed, a thread is followed, a pass starts, the following
    of the thread changes, its watermark is set, the pass is saved and completed, and
    a gap follows. *)
Module ReconcileDemo.

Definition scope : MailScope := (str "gmail", str "me", str "mailbox").
Definition thread : text := str "t1".
Definition day (n : Z) : Z := ymd_days 2026 3 n * DAY.

Definition db_of (m : py ReconcileDb) : ReconcileDb :=
  match m with Ret d => d | Raise _ => empty_rdb end.
Definition pair_of (m : py (ProgressRow * ReconcileDb)) : ProgressRow * ReconcileDb :=
  match m with Ret r => r | Raise _ => (mk_progress 0 [] 0 0 JNull, empty_rdb) end.

Lemma db_of_ret m : is_ret m = true → m = Ret (db_of m).
Proof. by destruct m. Qed.

Lemma pair_of_ret m : is_ret m = true → m = Ret ((pair_of m).1, (pair_of m).2).
Proof. by destruct m as [[]|]. Qed.

Abbreviation observing := (observe scope true 30 (Some (str "Sent")) (day 1) empty_rdb).
Definition d1 : ReconcileDb := db_of observing.
Lemma observing_ret : observing = Ret d1.
Proof. apply db_of_ret. vm_compute. reflexivity. Qed.

Definition sources : SourceTables := {|
  st_messages := [];
  st_thread_follow := [{| tf_provider := str "gmail"; tf_account_id := str "me";
    tf_mailbox_identity_key := str "mailbox"; tf_thread_key := thread; tf_followed := true |}];
  st_mail_accounts := []; st_has_removal_schema := true; st_intents := []; st_targets := [] |}.

Definition d2 : ReconcileDb :=
  mk_rdb sources (r_locations d1) (r_bodies d1) (r_generation d1) (r_coverage d1) (r_progress d1)
    (r_items d1) (r_catchup d1) (r_watermarks d1) [].

Abbreviation loading := (load_or_start scope (day 3) 30 JNull d2).
Definition p3 : ProgressRow := (pair_of loading).1.
Definition d3 : ReconcileDb := (pair_of loading).2.
Lemma loading_ret : loading = Ret (p3, d3).
Proof. apply pair_of_ret. vm_compute. reflexivity. Qed.

Abbreviation following := (record_follow_transition scope thread (day 2) d3).
Definition d4 : ReconcileDb := db_of following.
Lemma following_ret : following = Ret d4.
Proof. apply db_of_ret. vm_compute. reflexivity. Qed.

Definition d5 : ReconcileDb := (watermark scope p3 thread 0 d4).2.

Abbreviation saving := (save scope p3 d5).
Definition p6 : ProgressRow := (pair_of saving).1.
Definition d6 : ReconcileDb := (pair_of saving).2.
Lemma saving_ret : saving = Ret (p6, d6).
Proof. apply pair_of_ret. vm_compute. reflexivity. Qed.

Abbreviation completing := (complete scope p6 (day 4) d6).
Definition d7 : ReconcileDb := db_of completing.
Lemma completing_ret : completing = Ret d7.
Proof. apply db_of_ret. vm_compute. reflexivity. Qed.

Abbreviation gapping := (gap scope (day 5) d7).
Definition d8 : ReconcileDb := db_of gapping.
Lemma gapping_ret : gapping = Ret d8.
Proof. apply db_of_ret. vm_compute. reflexivity. Qed.

Example current_after_the_pass : coverage_current scope (day 4) None d7 = Ret true.
Proof. vm_compute. reflexivity. Qed.

Lemma d6_reachable : rec_reachable d6.
Proof.
  eapply rtc_l; [exact (do_observe _ _ _ _ _ _ _ observing_ret)|].
  eapply rtc_l; [exact (others_write d1 sources (r_locations d1) (r_bodies d1) []
    (r_catchup d1) (r_watermarks d1) (reflexivity _) (reflexivity _))|].
  eapply rtc_l; [exact (do_load _ _ _ _ _ _ _ loading_ret)|].
  eapply rtc_l; [exact (do_follow _ _ _ _ _ following_ret)|].
  eapply rtc_l; [exact (do_watermark d4 scope p3 thread 0)|].
  apply rtc_once. exact (do_save _ _ _ _ _ saving_ret).
Qed.

Lemma completing_step : rec_step d6 d7.
Proof. exact (do_complete _ _ _ _ _ completing_ret). Qed.

Lemma gapping_step : rec_step d7 d8.
Proof. exact (do_gap _ _ _ _ gapping_ret). Qed.

Lemma d7_reachable : rec_reachable d7.
Proof. eapply rtc_r; [exact d6_reachable|exact completing_step]. Qed.

Lemma gap_raises : gen_of (r_generation d7 !! scope) < gen_of (r_generation d8 !! scope).
Proof. vm_compute. reflexivity. Qed.

Lemma d6_generation : generation scope d6 = Some (rp_generation p6).
Proof. vm_compute. reflexivity. Qed.

Definition g2 : GenerationRow := default new_generation (r_generation d2 !! scope).
Lemma d2_generation : r_generation d2 !! scope = Some g2.
Proof. vm_compute. reflexivity. Qed.

Lemma reconcile_refines_witness : rtc cov_spec (view_of scope d6) (view_of scope d7).
Proof. exact (reconcile_refines scope d6 d7 completing_step). Defined.

Lemma coverage_never_ahead_witness :
  gen_of (r_generation d7 !! scope) <= gen_of (r_generation d8 !! scope).
Proof. exact (proj1 (coverage_never_ahead scope d7 d8 d7_reachable (rtc_once _ _ gapping_step))). Defined.

Lemma change_makes_stale_witness : coverage_current scope (day 6) None d8 = Ret false.
Proof. exact (change_makes_stale scope d7 d8 (day 6) None d7_reachable gapping_step gap_raises). Defined.


Lemma complete_only_when_done_witness : owns scope p6 d6 = true.
Proof. exact (proj1 (proj2 (complete_only_when_done scope p6 (day 4) d6 d7 completing_ret))). Defined.

Lemma save_exclusive_witness : save scope p3 d6 = Raise changed_concurrently.
Proof. exact (proj1 (proj2 (save_exclusive scope p3 d5 p6 d6 saving_ret))). Defined.

Lemma load_or_start_stable_witness :
  ∃ row d', load_or_start scope (day 3) 30 JNull d2 = Ret (row, d') ∧
    rp_generation row = cg_generation g2.
Proof.
  destruct (load_or_start_stable scope (day 3) 30 JNull d2 g2 d2_generation eq_refl)
    as (row & d' & H1 & H2 & _).
  exact (ex_intro _ row (ex_intro _ d' (conj H1 H2))).
Defined.

End ReconcileDemo.
