(* ===== verification/GmailStore.v ===== *)
(** * Mail accounts, Gmail labels and Gmail recovery

    Models, from [src/src/eom_email_watcher/db.py], the mail accounts
    ([register_mail_account], [update_mail_account_identity],
    [reconcile_mailbox_identity], [activate_mail_account]), the Gmail label selectors
    with their catalogue validations, and the resumable recovery of a Gmail mailbox
    ([create_gmail_recovery_state] to [complete_gmail_recovery]).

    Storing a captured message belongs to another component: [MessageCapture] is its
    interface.  A write that returns a row reads it after its commit, so it returns
    the outcome of that read together with the new store. *)

From S2P Require Export GmailCodec ReconcileState.
From stdpp Require Import options.

Local Open Scope Z_scope.

(** ** The interface of message capture *)

Record GmailRecoveryMessage := mk_recovery_message {
  gm_message_id : text;
  gm_thread_id : option text;
  gm_sender : text;
  gm_sender_name : option text;
  gm_subject : text;
  gm_received_at : text;
  gm_rfc_message_id : option text;
  gm_reply_ids : list text;
  gm_to : list text;
  gm_cc : list text;
  gm_locations : list text;
  gm_capture_timezone : option text;
  gm_scope_complete : bool }.

Class MessageCapture := {
  captured : Type;
  (** [_insert_message_in_transaction] for a Gmail message: account, provider message
      id, mailbox identity, message, admission, discovery stamp *)
  insert_message : text → text → text → GmailRecoveryMessage → AdmissionProvenance → text →
    captured → py (bool * captured);
  (** [_bind_pending_legacy_identity] *)
  bind_pending_legacy_identity : text → text → text → captured → py captured }.

(** ** Tables *)

Inductive legacy_status := Unresolved | ContinuityProven | Replacement.

Global Instance legacy_status_eq_dec : EqDecision legacy_status.
Proof. solve_decision. Defined.

Record account_row := mk_account {
  ac_display_name : text;
  ac_address : option text;
  ac_active : bool;
  ac_created_at : text;
  ac_updated_at : text;
  ac_identity : option text;
  ac_legacy_status : legacy_status;
  ac_legacy_key : option text }.

Record selector_set_row := mk_selector_set {
  ss_identity : text;
  ss_revision : Z;
  ss_created_at : text;
  ss_updated_at : text }.

Record selector_row := mk_selector {
  sl_account_id : text;
  sl_identity : text;
  sl_label_id : text;
  sl_display_name : text;
  sl_created_at : text }.

Inductive catalog_state := CatalogCurrent | CatalogInvalid.
Inductive label_status := LabelActive | LabelDeleted | LabelNotUser.

Record validation_set_row := mk_validation_set {
  vs_identity : text;
  vs_revision : Z;
  vs_validated_at : text;
  vs_catalog : catalog_state }.

Record validation_row := mk_validation {
  va_account_id : text;
  va_identity : text;
  va_revision : Z;
  va_label_id : text;
  va_status : label_status;
  va_display_name : text }.

Inductive recovery_status := Collecting | Backoff | Degraded.

Record recovery_row := mk_recovery {
  rv_identity : text;
  rv_selector_revision : Z;
  rv_sender_json : bytes;
  rv_selector_json : bytes;
  rv_after : Z;
  rv_before : Z;
  rv_retention_cutoff : text;
  rv_cursor : text;
  rv_page_token : option text;
  rv_page_json : bytes;
  rv_page_loaded : bool;
  rv_next_index : Z;
  rv_page_count : Z;
  rv_terminal_count : Z;
  rv_invalid_tokens : Z;
  rv_retry_count : Z;
  rv_status : recovery_status;
  rv_failure_code : option text;
  rv_next_retry_at : option text;
  rv_created_at : text;
  rv_updated_at : text;
  rv_query_scope : text }.

Record gmail_store `{MessageCapture} := mk_gmail_store {
  g_accounts : gmap (text * text) account_row;
  g_selector_sets : gmap text selector_set_row;
  g_selectors : gmap text selector_row;
  g_validation_sets : gmap text validation_set_row;
  g_validations : gmap text validation_row;
  g_recovery : gmap text recovery_row;
  (** [mailbox_state]: cursor and last success *)
  g_mailbox_state : gmap (text * text) (text * text);
  g_reconcile : ReconcileDb;
  g_captured : captured }.

Definition gmail : text := str "gmail".

Definition key_error (provider account_id : text) : exn := KeyError (provider ++ str "," ++ account_id).

Section Store.
Context `{MessageCapture}.
Implicit Types s : gmail_store.

(** The tables of a fresh database. *)
Definition empty_gmail (c : captured) : gmail_store :=
  mk_gmail_store _ ∅ ∅ ∅ ∅ ∅ ∅ ∅ empty_rdb c.

Definition set_accounts (a : gmap (text * text) account_row) s : gmail_store :=
  mk_gmail_store _ a s.(g_selector_sets) s.(g_selectors) s.(g_validation_sets) s.(g_validations)
    s.(g_recovery) s.(g_mailbox_state) s.(g_reconcile) s.(g_captured).
Definition set_selector_sets (x : gmap text selector_set_row) s : gmail_store :=
  mk_gmail_store _ s.(g_accounts) x s.(g_selectors) s.(g_validation_sets) s.(g_validations)
    s.(g_recovery) s.(g_mailbox_state) s.(g_reconcile) s.(g_captured).
Definition set_selectors (x : gmap text selector_row) s : gmail_store :=
  mk_gmail_store _ s.(g_accounts) s.(g_selector_sets) x s.(g_validation_sets) s.(g_validations)
    s.(g_recovery) s.(g_mailbox_state) s.(g_reconcile) s.(g_captured).
Definition set_validations (x : gmap text validation_set_row) (y : gmap text validation_row) s
    : gmail_store :=
  mk_gmail_store _ s.(g_accounts) s.(g_selector_sets) s.(g_selectors) x y
    s.(g_recovery) s.(g_mailbox_state) s.(g_reconcile) s.(g_captured).
Definition set_recovery (x : gmap text recovery_row) s : gmail_store :=
  mk_gmail_store _ s.(g_accounts) s.(g_selector_sets) s.(g_selectors) s.(g_validation_sets)
    s.(g_validations) x s.(g_mailbox_state) s.(g_reconcile) s.(g_captured).
Definition set_mailbox_state (x : gmap (text * text) (text * text)) s : gmail_store :=
  mk_gmail_store _ s.(g_accounts) s.(g_selector_sets) s.(g_selectors) s.(g_validation_sets)
    s.(g_validations) s.(g_recovery) x s.(g_reconcile) s.(g_captured).
Definition set_reconcile (x : ReconcileDb) s : gmail_store :=
  mk_gmail_store _ s.(g_accounts) s.(g_selector_sets) s.(g_selectors) s.(g_validation_sets)
    s.(g_validations) s.(g_recovery) s.(g_mailbox_state) x s.(g_captured).
Definition set_captured (x : captured) s : gmail_store :=
  mk_gmail_store _ s.(g_accounts) s.(g_selector_sets) s.(g_selectors) s.(g_validation_sets)
    s.(g_validations) s.(g_recovery) s.(g_mailbox_state) s.(g_reconcile) x.

(** ** Mail accounts *)

Definition deactivate (stamp : text) (a : account_row) : account_row :=
  if a.(ac_active)
  then mk_account a.(ac_display_name) a.(ac_address) false a.(ac_created_at) stamp
         a.(ac_identity) a.(ac_legacy_status) a.(ac_legacy_key)
  else a.

Definition address_taken (provider : text) (except : text) (address : option text) s : bool :=
  existsb (fun e => bool_decide (e.1.1 = provider) && negb (bool_decide (e.1.2 = except)) &&
                    sql_eq e.2.(ac_address) address)
    (map_to_list s.(g_accounts)).

Definition any_active s : bool := existsb (fun e => e.2.(ac_active)) (map_to_list s.(g_accounts)).

(** [Store.register_mail_account] *)
Definition register_mail_account (provider account_id display_name : text) (address : option text)
    (active : bool) (now : Z) s : py (account_row * gmail_store) :=
  _ ← require (truthy provider && truthy account_id && truthy display_name)
        (ValueError "Mail account identity and display name must be non-empty");
  let stamp := isoformat (utc now) in
  let s := if active then set_accounts (deactivate stamp <$> s.(g_accounts)) s else s in
  let row := mk_account display_name address active stamp stamp None Unresolved None in
  _ ← require (match address with Some a => truthy a | None => true end)
        (IntegrityError "CHECK mail_accounts.address");
  _ ← require (is_none (s.(g_accounts) !! (provider, account_id)))
        (IntegrityError "PRIMARY KEY mail_accounts");
  _ ← require (negb (address_taken provider account_id address s))
        (IntegrityError "UNIQUE mail_accounts.address");
  _ ← require (negb (active && any_active s)) (IntegrityError "UNIQUE mail_accounts.active");
  Ret (row, set_accounts (<[(provider, account_id) := row]> s.(g_accounts)) s).

(** [Store.update_mail_account_identity] *)
Definition update_mail_account_identity (provider account_id display_name address : text)
    (now : Z) s : py (account_row * gmail_store) :=
  let stamp := isoformat (utc now) in
  a ← require_some (s.(g_accounts) !! (provider, account_id)) (key_error provider account_id);
  _ ← require (truthy display_name && truthy address) (IntegrityError "CHECK mail_accounts");
  _ ← require (negb (address_taken provider account_id (Some address) s))
        (IntegrityError "UNIQUE mail_accounts.address");
  let row := mk_account display_name (Some address) a.(ac_active) a.(ac_created_at) stamp
               a.(ac_identity) a.(ac_legacy_status) a.(ac_legacy_key) in
  Ret (row, set_accounts (<[(provider, account_id) := row]> s.(g_accounts)) s).

(** [Store.activate_mail_account] *)
Definition activate_mail_account (provider account_id : text) (now : Z) s
    : py (account_row * gmail_store) :=
  let stamp := isoformat (utc now) in
  a ← require_some (s.(g_accounts) !! (provider, account_id)) (key_error provider account_id);
  let row := mk_account a.(ac_display_name) a.(ac_address) true a.(ac_created_at) stamp
               a.(ac_identity) a.(ac_legacy_status) a.(ac_legacy_key) in
  Ret (row, set_accounts (<[(provider, account_id) := row]> (deactivate stamp <$> s.(g_accounts))) s).

(** [Store._delete_gmail_label_validation] *)
Definition _delete_gmail_label_validation (account_id : text) s : gmail_store :=
  set_validations (delete account_id s.(g_validation_sets))
    (filter (fun e => e.2.(va_account_id) ≠ account_id) s.(g_validations)) s.

(** The CHECK constraints every Gmail table puts on its account and identity. *)
Definition gmail_scope_ok (account_id identity : text) : bool :=
  truthy account_id && within_utf8_bytes account_id 128 && identity_key_ok identity.

(** The Gmail block of [reconcile_mailbox_identity]: a new identity takes the next
    revision of the selector set, and its validations and recovery are dropped. *)
Definition reconcile_gmail_selector_set (account_id identity stamp : text) s : py gmail_store :=
  match s.(g_selector_sets) !! account_id with
  | None =>
      _ ← require (gmail_scope_ok account_id identity) (IntegrityError "CHECK gmail_label_selector_sets");
      Ret (_delete_gmail_label_validation account_id
             (set_selector_sets
                (<[account_id := mk_selector_set identity 0 stamp stamp]> s.(g_selector_sets)) s))
  | Some set =>
      if bool_decide (set.(ss_identity) = identity) then Ret s
      else
        _ ← require (negb (set.(ss_revision) =? SQLITE_MAX_INTEGER))
              (GmailLabelStoreError "gmail_selector_revision_overflow");
        let s := set_selector_sets
                   (<[account_id := mk_selector_set identity (set.(ss_revision) + 1)
                                      set.(ss_created_at) stamp]> s.(g_selector_sets)) s in
        let s := _delete_gmail_label_validation account_id s in
        Ret (set_recovery (delete account_id s.(g_recovery)) s)
  end.

(** [Store.reconcile_mailbox_identity] *)
Definition reconcile_mailbox_identity (provider account_id identity : text)
    (legacy : option legacy_status) (preserve_cursor : bool) (now : Z) s
    : py (account_row * gmail_store) :=
  identity ← _require_mailbox_identity_key identity;
  let stamp := isoformat (utc now) in
  a ← require_some (s.(g_accounts) !! (provider, account_id)) (key_error provider account_id);
  let previous := a.(ac_identity) in
  let status := default a.(ac_legacy_status) legacy in
  let '(status, legacy_key) :=
    match previous with
    | Some p => if bool_decide (p = identity) then (status, a.(ac_legacy_key))
                else (Replacement, Some p)
    | None => if bool_decide (status = ContinuityProven) then (status, Some identity)
              else (status, a.(ac_legacy_key))
    end in
  let row := mk_account a.(ac_display_name) a.(ac_address) a.(ac_active) a.(ac_created_at) stamp
               (Some identity) status legacy_key in
  let s := set_accounts (<[(provider, account_id) := row]> s.(g_accounts)) s in
  let s := if negb (bool_decide (previous = Some identity)) && negb preserve_cursor
           then set_mailbox_state (delete (provider, account_id) s.(g_mailbox_state)) s else s in
  s ← (if is_none previous && bool_decide (status = ContinuityProven)
       then c ← bind_pending_legacy_identity provider account_id identity s.(g_captured);
            Ret (set_captured c s)
       else Ret s);
  s ← (if bool_decide (provider = gmail) then reconcile_gmail_selector_set account_id identity stamp s
       else Ret s);
  Ret (row, s).

(** [Store.require_mailbox_identity] *)
Definition require_mailbox_identity (provider account_id identity : text) s : py unit :=
  require (sql_eq (s.(g_accounts) !! (provider, account_id) ≫= ac_identity) (Some identity))
    (MailboxIdentityChanged "mailbox identity changed").

(** ** Label selectors *)

Definition account_identity (account_id : text) s : option text :=
  s.(g_accounts) !! (gmail, account_id) ≫= ac_identity.

(** [Store._require_current_gmail_selector_set] *)
Definition _require_current_gmail_selector_set (account_id identity : text) s : py selector_set_row :=
  set ← require_some (s.(g_selector_sets) !! account_id)
          (MailboxIdentityChanged "mailbox identity changed");
  _ ← require (bool_decide (set.(ss_identity) = identity) &&
               sql_eq (account_identity account_id s) (Some identity))
        (MailboxIdentityChanged "mailbox identity changed");
  Ret set.

Definition id_leb {A} (a b : text * A) : bool := text_leb a.1 b.1.

(** The selectors of an account under an identity, by selector id. *)
Definition selectors_of (account_id identity : text) s : list (text * selector_row) :=
  sort_by id_leb
    (List.filter (fun e => bool_decide (e.2.(sl_account_id) = account_id) &&
                           bool_decide (e.2.(sl_identity) = identity))
       (map_to_list s.(g_selectors))).

(** [Store.gmail_current_label_selectors] *)
Definition gmail_current_label_selectors (account_id identity : text) s
    : py (list (text * selector_row)) :=
  identity ← _require_mailbox_identity_key identity;
  set ← require_some (s.(g_selector_sets) !! account_id)
          (MailboxIdentityChanged "mailbox identity changed");
  _ ← require (is_some (s.(g_accounts) !! (gmail, account_id)) &&
               bool_decide (set.(ss_identity) = identity) &&
               sql_eq (account_identity account_id s) (Some identity))
        (MailboxIdentityChanged "mailbox identity changed");
  Ret (selectors_of account_id identity s).

Definition account_selector_count (account_id : text) s : nat :=
  length (List.filter (fun e => bool_decide (e.2.(sl_account_id) = account_id))
            (map_to_list s.(g_selectors))).

Definition label_granted (account_id identity label_id : text) s : bool :=
  existsb (fun e => bool_decide (e.2.(sl_account_id) = account_id) &&
                    bool_decide (e.2.(sl_identity) = identity) &&
                    bool_decide (e.2.(sl_label_id) = label_id))
    (map_to_list s.(g_selectors)).

(** The revision guards of the selector writes. *)
Definition require_revision_current (set : selector_set_row) (expected : Z) : py unit :=
  _ ← require (set.(ss_revision) =? expected) (GmailLabelStoreError "stale_revision");
  require (negb (set.(ss_revision) =? SQLITE_MAX_INTEGER))
    (GmailLabelStoreError "gmail_selector_revision_overflow").

(** The next revision, with the validations of the old one dropped. *)
Definition advance_selector_set (account_id : text) (set : selector_set_row) (stamp : text) s
    : gmail_store :=
  _delete_gmail_label_validation account_id
    (set_selector_sets
       (<[account_id := mk_selector_set set.(ss_identity) (set.(ss_revision) + 1)
                          set.(ss_created_at) stamp]> s.(g_selector_sets)) s).

(** [Store.add_gmail_label_selector]; [fresh] is [str(uuid.uuid4())]. *)
Definition add_gmail_label_selector (account_id identity label_id display_name : text)
    (expected_revision : Z) (now : Z) (fresh : text) s
    : py (Z * (text * selector_row) * gmail_store) :=
  identity ← _require_mailbox_identity_key identity;
  expected ← _require_revision expected_revision;
  label_id ← _require_bounded_text (JStr label_id) MAX_GMAIL_LABEL_ID_BYTES "gmail label id is invalid";
  display_name ← _require_bounded_text (JStr display_name) MAX_GMAIL_LABEL_NAME_BYTES
                   "gmail label display name is invalid";
  let stamp := isoformat (utc now) in
  set ← _require_current_gmail_selector_set account_id identity s;
  _ ← require_revision_current set expected;
  _ ← require (negb (label_granted account_id identity label_id s)) (GmailLabelStoreError "conflict");
  _ ← require (account_selector_count account_id s <? MAX_GMAIL_LABEL_SELECTORS)%nat
        (GmailLabelStoreError "limit_exceeded");
  let row := mk_selector account_id identity label_id display_name stamp in
  _ ← require (is_none (s.(g_selectors) !! fresh) && bool_decide (length fresh = 36%nat) &&
               gmail_scope_ok account_id identity)
        (IntegrityError "gmail_label_selectors");
  let s := set_selectors (<[fresh := row]> s.(g_selectors)) s in
  Ret (set.(ss_revision) + 1, (fresh, row), advance_selector_set account_id set stamp s).

(** [Store.remove_gmail_label_selector] *)
Definition remove_gmail_label_selector (account_id identity selector_id : text)
    (expected_revision : Z) (now : Z) s : py (Z * gmail_store) :=
  identity ← _require_mailbox_identity_key identity;
  _ ← require (uuid4_text selector_id) (ValueError "selector id must be a canonical UUIDv4");
  expected ← _require_revision expected_revision;
  let stamp := isoformat (utc now) in
  set ← _require_current_gmail_selector_set account_id identity s;
  _ ← require_revision_current set expected;
  _ ← require (bool_decide (sl_account_id <$> s.(g_selectors) !! selector_id = Some account_id))
        (GmailLabelStoreError "not_found");
  let s := set_selectors (delete selector_id s.(g_selectors)) s in
  Ret (set.(ss_revision) + 1, advance_selector_set account_id set stamp s).

(** [Store.gmail_label_selector_is_current] *)
Definition gmail_label_selector_is_current (account_id identity selector_id label_id : text) s
    : py bool :=
  identity ← _require_mailbox_identity_key identity;
  if negb (uuid4_text selector_id) then Ret false
  else
    Ret (match s.(g_selectors) !! selector_id with
         | Some l =>
             bool_decide (l.(sl_account_id) = account_id) && bool_decide (l.(sl_identity) = identity) &&
             bool_decide (l.(sl_label_id) = label_id) &&
             bool_decide (ss_identity <$> s.(g_selector_sets) !! account_id = Some identity) &&
             sql_eq (account_identity account_id s) (Some identity)
         | None => false
         end).

(** ** Catalogue validations *)

Inductive label_type := UserLabel | SystemLabel.

Record selector_validation := mk_selector_validation {
  sv_selector_id : text;
  sv_label_id : text;
  sv_status : label_status;
  sv_display_name : text }.

Record validation_snapshot := mk_snapshot {
  gv_account_id : text;
  gv_identity : text;
  gv_revision : Z;
  gv_validated_at : text;
  gv_catalog : catalog_state;
  gv_selectors : list selector_validation }.

(** The labels of a catalogue; the type is [None] for a value that is neither
    ["user"] nor ["system"]. *)
Fixpoint catalog_labels (labels : gmap text (text * label_type))
    (catalog : list (text * text * option label_type)) : py (gmap text (text * label_type)) :=
  match catalog with
  | [] => Ret labels
  | (raw_id, raw_name, raw_type) :: catalog' =>
      label_id ← _require_bounded_text (JStr raw_id) MAX_GMAIL_LABEL_ID_BYTES
                   "gmail label id is invalid";
      display_name ← _require_bounded_text (JStr raw_name) MAX_GMAIL_LABEL_NAME_BYTES
                       "gmail label display name is invalid";
      label_type ← require_some raw_type (ValueError "gmail label type is invalid");
      _ ← require (is_none (labels !! label_id)) (ValueError "gmail label ids must be unique");
      catalog_labels (<[label_id := (display_name, label_type)]> labels) catalog'
  end.

(** The verdict of a catalogue on one selector: a label that is gone keeps the name it
    last had. *)
Definition validate_selector (labels : gmap text (text * label_type))
    (previous : text → option text) (e : text * selector_row) : selector_validation :=
  match labels !! e.2.(sl_label_id) with
  | None => mk_selector_validation e.1 e.2.(sl_label_id) LabelDeleted
              (default e.2.(sl_display_name) (previous e.1))
  | Some (name, UserLabel) => mk_selector_validation e.1 e.2.(sl_label_id) LabelActive name
  | Some (name, SystemLabel) => mk_selector_validation e.1 e.2.(sl_label_id) LabelNotUser name
  end.

Definition previous_name (account_id identity : text) s (selector_id : text) : option text :=
  match s.(g_validations) !! selector_id with
  | Some v => if bool_decide (v.(va_account_id) = account_id) && bool_decide (v.(va_identity) = identity)
              then Some v.(va_display_name) else None
  | None => None
  end.

Definition put_validation (account_id identity : text) (revision : Z)
    (m : gmap text validation_row) (v : selector_validation) : gmap text validation_row :=
  <[v.(sv_selector_id) := mk_validation account_id identity revision v.(sv_label_id) v.(sv_status)
                            v.(sv_display_name)]> m.

(** The guards and the cleared tables the two catalogue writes share. *)
Definition begin_validation (account_id identity : text) (expected : Z) s : py gmail_store :=
  set ← _require_current_gmail_selector_set account_id identity s;
  _ ← require (set.(ss_revision) =? expected) (GmailLabelStoreError "stale_revision");
  Ret (_delete_gmail_label_validation account_id s).

(** [Store.persist_gmail_label_validation] *)
Definition persist_gmail_label_validation (account_id identity : text) (expected_revision : Z)
    (catalog : list (text * text * option label_type)) (now : Z) s
    : py (validation_snapshot * gmail_store) :=
  identity ← _require_mailbox_identity_key identity;
  expected ← _require_revision expected_revision;
  labels ← catalog_labels ∅ catalog;
  let stamp := isoformat (utc now) in
  let validations :=
    validate_selector labels (previous_name account_id identity s) <$> selectors_of account_id identity s in
  s' ← begin_validation account_id identity expected s;
  _ ← require (forallb (fun v => is_none (s'.(g_validations) !! v.(sv_selector_id))) validations)
        (IntegrityError "PRIMARY KEY gmail_label_selector_validations");
  Ret (mk_snapshot account_id identity expected stamp CatalogCurrent validations,
       set_validations
         (<[account_id := mk_validation_set identity expected stamp CatalogCurrent]> s'.(g_validation_sets))
         (fold_left (put_validation account_id identity expected) validations s'.(g_validations)) s').

(** [Store.persist_gmail_label_invalid_catalog] *)
Definition persist_gmail_label_invalid_catalog (account_id identity : text) (expected_revision : Z)
    (now : Z) s : py (validation_snapshot * gmail_store) :=
  identity ← _require_mailbox_identity_key identity;
  expected ← _require_revision expected_revision;
  let stamp := isoformat (utc now) in
  s ← begin_validation account_id identity expected s;
  Ret (mk_snapshot account_id identity expected stamp CatalogInvalid [],
       set_validations
         (<[account_id := mk_validation_set identity expected stamp CatalogInvalid]> s.(g_validation_sets))
         s.(g_validations) s).

(** The validations of an account at a revision, by selector id. *)
Definition validations_of (account_id identity : text) (revision : Z) s : list selector_validation :=
  (fun e : text * validation_row => mk_selector_validation e.1 e.2.(va_label_id) e.2.(va_status)
     e.2.(va_display_name)) <$>
  sort_by id_leb
    (List.filter (fun e => bool_decide (e.2.(va_account_id) = account_id) &&
                           bool_decide (e.2.(va_identity) = identity) && (e.2.(va_revision) =? revision))
       (map_to_list s.(g_validations))).

(** [Store.gmail_label_validation_snapshot] *)
Definition gmail_label_validation_snapshot (account_id identity : text) (selector_revision : Z) s
    : py (option validation_snapshot) :=
  identity ← _require_mailbox_identity_key identity;
  revision ← _require_revision selector_revision;
  match s.(g_validation_sets) !! account_id, s.(g_selector_sets) !! account_id with
  | Some v, Some set =>
      if bool_decide (v.(vs_identity) = identity) && (v.(vs_revision) =? revision) &&
         bool_decide (set.(ss_identity) = identity) && (set.(ss_revision) =? revision) &&
         sql_eq (account_identity account_id s) (Some identity)
      then
        let rows := validations_of account_id identity revision s in
        let expected := (fun e : text * selector_row => (e.1, e.2.(sl_label_id))) <$>
                          selectors_of account_id identity s in
        let validated := (fun v => (v.(sv_selector_id), v.(sv_label_id))) <$> rows in
        match v.(vs_catalog) with
        | CatalogCurrent =>
            if bool_decide (validated = expected)
            then Ret (Some (mk_snapshot account_id identity revision v.(vs_validated_at) CatalogCurrent rows))
            else Ret None
        | CatalogInvalid =>
            match rows with
            | [] => Ret (Some (mk_snapshot account_id identity revision v.(vs_validated_at) CatalogInvalid []))
            | _ => Ret None
            end
        end
      else Ret None
  | _, _ => Ret None
  end.

(** [Store.invalidate_gmail_label_validation] *)
Definition invalidate_gmail_label_validation (account_id identity : text) (selector_revision : Z) s
    : py (bool * gmail_store) :=
  identity ← _require_mailbox_identity_key identity;
  revision ← _require_revision selector_revision;
  match s.(g_validation_sets) !! account_id with
  | Some v =>
      if bool_decide (v.(vs_identity) = identity) && (v.(vs_revision) =? revision)
      then Ret (true, _delete_gmail_label_validation account_id s) else Ret (false, s)
  | None => Ret (false, s)
  end.

End Store.
