(* ===== verification/GmailRecovery.v ===== *)
(** * Recovery of a Gmail mailbox

    Models the resumable recovery of [src/src/eom_email_watcher/db.py]: the saved
    state and its decoding ([_gmail_recovery_state]), its creation, the paging
    ([store_gmail_recovery_page], [finish_gmail_recovery_page],
    [restart_gmail_recovery_page]), the failures ([record_gmail_recovery_backoff],
    [record_gmail_recovery_invalid_page_token], [clear_gmail_recovery_backoff]), the
    candidates ([finish_gmail_recovery_candidate]) and the end
    ([complete_gmail_recovery], which makes the reconcile coverage stale). *)

From S2P Require Export GmailStore.
From stdpp Require Import options.

Local Open Scope Z_scope.

(** The CHECK constraints of [gmail_recovery_state] on the columns that change. *)
Definition recovery_row_ok (r : recovery_row) : bool :=
  (byte_count r.(rv_sender_json) <=? 1048576) && (byte_count r.(rv_selector_json) <=? 1048576) &&
  (0 <=? r.(rv_after)) && (r.(rv_after) <? r.(rv_before)) && (0 <=? r.(rv_selector_revision)) &&
  match aware_iso_epoch r.(rv_retention_cutoff) with Some e => EPOCH <=? e | None => false end &&
  truthy r.(rv_cursor) && within_utf8_bytes r.(rv_cursor) MAX_GMAIL_RECOVERY_CURSOR_BYTES &&
  match r.(rv_page_token) with
  | Some t => within_utf8_bytes t MAX_GMAIL_RECOVERY_PAGE_TOKEN_BYTES
  | None => true
  end &&
  (byte_count r.(rv_page_json) <=? 524288) &&
  (0 <=? r.(rv_next_index)) && (r.(rv_next_index) <=? 200) &&
  (0 <=? r.(rv_page_count)) && (0 <=? r.(rv_terminal_count)) && (0 <=? r.(rv_invalid_tokens)) &&
  (0 <=? r.(rv_retry_count)) && (r.(rv_retry_count) <=? 31).

(** The page columns: token, ids, loaded, index. *)
Definition with_page (token : option text) (page : bytes) (loaded : bool) (next_index : Z)
    (r : recovery_row) : recovery_row :=
  mk_recovery r.(rv_identity) r.(rv_selector_revision) r.(rv_sender_json) r.(rv_selector_json)
    r.(rv_after) r.(rv_before) r.(rv_retention_cutoff) r.(rv_cursor) token page loaded next_index
    r.(rv_page_count) r.(rv_terminal_count) r.(rv_invalid_tokens) r.(rv_retry_count) r.(rv_status)
    r.(rv_failure_code) r.(rv_next_retry_at) r.(rv_created_at) r.(rv_updated_at) r.(rv_query_scope).

(** The counters of pages, finished candidates and invalid tokens. *)
Definition with_counts (pages terminal invalid : Z) (r : recovery_row) : recovery_row :=
  mk_recovery r.(rv_identity) r.(rv_selector_revision) r.(rv_sender_json) r.(rv_selector_json)
    r.(rv_after) r.(rv_before) r.(rv_retention_cutoff) r.(rv_cursor) r.(rv_page_token)
    r.(rv_page_json) r.(rv_page_loaded) r.(rv_next_index) pages terminal invalid r.(rv_retry_count)
    r.(rv_status) r.(rv_failure_code) r.(rv_next_retry_at) r.(rv_created_at) r.(rv_updated_at)
    r.(rv_query_scope).

(** The retry columns. *)
Definition with_retry (retries : Z) (status : recovery_status) (failure next_retry : option text)
    (r : recovery_row) : recovery_row :=
  mk_recovery r.(rv_identity) r.(rv_selector_revision) r.(rv_sender_json) r.(rv_selector_json)
    r.(rv_after) r.(rv_before) r.(rv_retention_cutoff) r.(rv_cursor) r.(rv_page_token)
    r.(rv_page_json) r.(rv_page_loaded) r.(rv_next_index) r.(rv_page_count) r.(rv_terminal_count)
    r.(rv_invalid_tokens) retries status failure next_retry r.(rv_created_at) r.(rv_updated_at)
    r.(rv_query_scope).

Definition with_scope (query_scope : text) (r : recovery_row) : recovery_row :=
  mk_recovery r.(rv_identity) r.(rv_selector_revision) r.(rv_sender_json) r.(rv_selector_json)
    r.(rv_after) r.(rv_before) r.(rv_retention_cutoff) r.(rv_cursor) r.(rv_page_token)
    r.(rv_page_json) r.(rv_page_loaded) r.(rv_next_index) r.(rv_page_count) r.(rv_terminal_count)
    r.(rv_invalid_tokens) r.(rv_retry_count) r.(rv_status) r.(rv_failure_code)
    r.(rv_next_retry_at) r.(rv_created_at) r.(rv_updated_at) query_scope.

Definition touched (stamp : text) (r : recovery_row) : recovery_row :=
  mk_recovery r.(rv_identity) r.(rv_selector_revision) r.(rv_sender_json) r.(rv_selector_json)
    r.(rv_after) r.(rv_before) r.(rv_retention_cutoff) r.(rv_cursor) r.(rv_page_token)
    r.(rv_page_json) r.(rv_page_loaded) r.(rv_next_index) r.(rv_page_count) r.(rv_terminal_count)
    r.(rv_invalid_tokens) r.(rv_retry_count) r.(rv_status) r.(rv_failure_code)
    r.(rv_next_retry_at) r.(rv_created_at) stamp r.(rv_query_scope).

(** [X'5B5D'] *)
Definition empty_page : bytes := [91%N; 93%N].

(** A row with its decoded columns. *)
Record GmailRecoveryState := mk_state {
  gr_row : recovery_row;
  gr_senders : list sender_entry;
  gr_selectors : list GmailLabelSelectorSnapshot;
  gr_page_ids : list text }.

(** What is admitted with a candidate: message, admission and the labels of its
    metadata.  A caller passes all three or none. *)
Abbreviation admitted := (GmailRecoveryMessage * AdmissionProvenance * list text)%type.

Section Recovery.
Context `{Unicode} `{AddressLib} `{MessageCapture}.
Implicit Types s : gmail_store.

(** [_gmail_recovery_state] *)
Definition _gmail_recovery_state (row : recovery_row) : py GmailRecoveryState :=
  page_ids ← decode_gmail_recovery_page row.(rv_page_json);
  _ ← require (negb ((negb row.(rv_page_loaded) && (truthy_list page_ids || negb (row.(rv_next_index) =? 0)))
                     || (Z.of_nat (length page_ids) <? row.(rv_next_index))))
        (RuntimeError "gmail recovery page state is invalid");
  _ ← require (match row.(rv_page_token) with
               | Some t => within_utf8_bytes t MAX_GMAIL_RECOVERY_PAGE_TOKEN_BYTES
               | None => true
               end) (RuntimeError "gmail recovery page token is invalid");
  senders ← decode_gmail_sender_snapshot row.(rv_sender_json);
  selectors ← decode_gmail_selector_snapshot row.(rv_selector_json);
  _ ← _validate_utc_timestamp row.(rv_retention_cutoff)
        "gmail recovery retention cutoff must be a UTC ISO-8601 timestamp";
  Ret (mk_state row senders selectors page_ids).

(** The instant [datetime.fromtimestamp(epoch, tz=UTC)] denotes; [ValueError] or
    [OverflowError] outside the years 1 to 9999. *)
Definition from_epoch (epoch : Z) : py Z :=
  let w := EPOCH + epoch * US in
  if wall_ok w then Ret w else Raise (ValueError "year is out of range").

Definition account_active (account_id : text) s : bool :=
  match s.(g_accounts) !! (gmail, account_id) with Some a => a.(ac_active) | None => false end.

(** A selector of a snapshot is granted now. *)
Definition grant_current (account_id identity : text) s (f : GmailLabelSelectorSnapshot) : bool :=
  match s.(g_selectors) !! f.(gs_selector_id) with
  | Some l => bool_decide (l.(sl_account_id) = account_id) && bool_decide (l.(sl_identity) = identity) &&
              bool_decide (l.(sl_label_id) = f.(gs_label_id))
  | None => false
  end.

(** [Store.create_gmail_recovery_state]; [retention_cutoff] is an aware value. *)
Definition create_gmail_recovery_state (account_id identity : text) (selector_revision : Z)
    (senders : list sender_entry) (selectors : list GmailLabelSelectorSnapshot) (after before : Z)
    (cursor : text) (retention_cutoff : option datetime) (query_scope : text) (now : Z) s
    : py (py GmailRecoveryState * gmail_store) :=
  identity ← _require_mailbox_identity_key identity;
  revision ← _require_revision selector_revision;
  _ ← require ((0 <=? after) && (after <? before) && (before <=? SQLITE_MAX_INTEGER))
        (ValueError "gmail recovery window is invalid");
  cursor ← _require_bounded_text (JStr cursor) MAX_GMAIL_RECOVERY_CURSOR_BYTES
             "gmail replacement history cursor is invalid";
  cutoff ← match retention_cutoff with
           | Some d => Ret d
           | None => w ← from_epoch after; Ret (utc w)
           end;
  _ ← require (bool_decide (cutoff.(dt_offset) = Some 0) && (EPOCH <=? cutoff.(dt_wall)))
        (ValueError "gmail recovery retention cutoff is invalid");
  sender_json ← encode_gmail_sender_snapshot senders;
  selector_json ← encode_gmail_selector_snapshot selectors;
  let stamp := isoformat (utc now) in
  set ← _require_current_gmail_selector_set account_id identity s;
  _ ← require (account_active account_id s) (GmailLabelStoreError "account_not_active");
  _ ← require (set.(ss_revision) =? revision) (GmailLabelStoreError "stale_revision");
  frozen ← decode_gmail_selector_snapshot selector_json;
  _ ← require (forallb (grant_current account_id identity s) frozen)
        (GmailLabelStoreError "gmail_recovery_grant_revoked");
  let row := mk_recovery identity revision sender_json selector_json after before (isoformat cutoff)
               cursor None empty_page false 0 0 0 0 0 Collecting None None stamp stamp query_scope in
  _ ← require (is_none (s.(g_recovery) !! account_id) && gmail_scope_ok account_id identity &&
               recovery_row_ok row) (GmailLabelStoreError "conflict");
  Ret (_gmail_recovery_state row, set_recovery (<[account_id := row]> s.(g_recovery)) s).

(** [Store.gmail_recovery_state] *)
Definition gmail_recovery_state (account_id : text) s : py (option GmailRecoveryState) :=
  match s.(g_recovery) !! account_id with
  | Some row => state ← _gmail_recovery_state row; Ret (Some state)
  | None => Ret None
  end.

(** [Store._require_current_gmail_recovery] *)
Definition _require_current_gmail_recovery (account_id identity : text) s : py GmailRecoveryState :=
  _ ← _require_current_gmail_selector_set account_id identity s;
  row ← require_some (s.(g_recovery) !! account_id) (GmailLabelStoreError "not_found");
  state ← _gmail_recovery_state row;
  _ ← require (bool_decide (row.(rv_identity) = identity))
        (MailboxIdentityChanged "mailbox identity changed");
  _ ← require (account_active account_id s) (GmailLabelStoreError "account_not_active");
  Ret state.

(** [UPDATE gmail_recovery_state], under its constraints. *)
Definition update_recovery (account_id : text) (row : recovery_row) s : py gmail_store :=
  _ ← require (recovery_row_ok row) (IntegrityError "CHECK gmail_recovery_state");
  Ret (set_recovery (<[account_id := row]> s.(g_recovery)) s).

(** [Store.store_gmail_recovery_page] *)
Definition store_gmail_recovery_page (account_id identity : text) (message_ids : list text)
    (next_page_token : option text) (now : Z) s : py (py GmailRecoveryState * gmail_store) :=
  identity ← _require_mailbox_identity_key identity;
  page_json ← encode_gmail_recovery_page message_ids;
  _ ← match next_page_token with
      | Some t => _ ← _require_bounded_text (JStr t) MAX_GMAIL_RECOVERY_PAGE_TOKEN_BYTES
                        "gmail recovery page token is invalid"; Ret tt
      | None => Ret tt
      end;
  let stamp := isoformat (utc now) in
  state ← _require_current_gmail_recovery account_id identity s;
  let r := state.(gr_row) in
  _ ← require (negb r.(rv_page_loaded)) (GmailLabelStoreError "gmail_recovery_page_already_loaded");
  _ ← require (negb (r.(rv_page_count) =? SQLITE_MAX_INTEGER))
        (GmailLabelStoreError "gmail_recovery_counter_overflow");
  let row := touched stamp
               (with_retry 0 Collecting None None
                  (with_counts (r.(rv_page_count) + 1) r.(rv_terminal_count) r.(rv_invalid_tokens)
                     (with_page next_page_token page_json true 0 r))) in
  s ← update_recovery account_id row s;
  Ret (_gmail_recovery_state row, s).

(** All candidates of the loaded page are finished. *)
Definition drained (state : GmailRecoveryState) : bool :=
  state.(gr_row).(rv_page_loaded) &&
  (state.(gr_row).(rv_next_index) =? Z.of_nat (length state.(gr_page_ids))).

(** [Store.finish_gmail_recovery_page] *)
Definition finish_gmail_recovery_page (account_id identity : text) (now : Z) s
    : py (bool * gmail_store) :=
  identity ← _require_mailbox_identity_key identity;
  let stamp := isoformat (utc now) in
  state ← _require_current_gmail_recovery account_id identity s;
  _ ← require (drained state) (GmailLabelStoreError "gmail_recovery_page_not_drained");
  match state.(gr_row).(rv_page_token) with
  | None => Ret (true, s)
  | Some token =>
      s ← update_recovery account_id
            (touched stamp (with_page (Some token) empty_page false 0 state.(gr_row))) s;
      Ret (false, s)
  end.

(** [Store.record_gmail_recovery_backoff] *)
Definition record_gmail_recovery_backoff (account_id identity failure_code next_retry_at : text)
    (degraded : bool) (now : Z) s : py (py GmailRecoveryState * gmail_store) :=
  _ ← require (bool_decide (failure_code ∈ [str "gmail_recovery_provider_unavailable";
                                             str "gmail_recovery_page_invalid"]))
        (ValueError "gmail recovery failure code is invalid");
  identity ← _require_mailbox_identity_key identity;
  _ ← _validate_utc_timestamp next_retry_at "next_retry_at must be a UTC ISO-8601 timestamp";
  let stamp := isoformat (utc now) in
  state ← _require_current_gmail_recovery account_id identity s;
  let r := state.(gr_row) in
  let row := touched stamp
               (with_retry (Z.min 31 (r.(rv_retry_count) + 1)) (if degraded then Degraded else Backoff)
                  (Some failure_code) (Some next_retry_at) r) in
  s ← update_recovery account_id row s;
  Ret (_gmail_recovery_state row, s).

(** [Store.record_gmail_recovery_invalid_page_token] *)
Definition record_gmail_recovery_invalid_page_token (account_id identity next_retry_at : text)
    (now : Z) s : py (py GmailRecoveryState * gmail_store) :=
  identity ← _require_mailbox_identity_key identity;
  _ ← _validate_utc_timestamp next_retry_at "next_retry_at must be a UTC ISO-8601 timestamp";
  let stamp := isoformat (utc now) in
  state ← _require_current_gmail_recovery account_id identity s;
  let r := state.(gr_row) in
  _ ← require (negb (r.(rv_invalid_tokens) =? SQLITE_MAX_INTEGER))
        (GmailLabelStoreError "gmail_recovery_counter_overflow");
  let invalid_count := r.(rv_invalid_tokens) + 1 in
  let row := touched stamp
               (with_retry (Z.min 31 (r.(rv_retry_count) + 1))
                  (if 5 <=? invalid_count then Degraded else Backoff)
                  (Some (str "gmail_recovery_page_token_invalid")) (Some next_retry_at)
                  (with_counts r.(rv_page_count) r.(rv_terminal_count) invalid_count
                     (with_page None empty_page false 0 r))) in
  s ← update_recovery account_id row s;
  Ret (_gmail_recovery_state row, s).

(** [Store.clear_gmail_recovery_backoff] *)
Definition clear_gmail_recovery_backoff (account_id identity : text) (now : Z) s
    : py (py GmailRecoveryState * gmail_store) :=
  identity ← _require_mailbox_identity_key identity;
  let stamp := isoformat (utc now) in
  state ← _require_current_gmail_recovery account_id identity s;
  let r := state.(gr_row) in
  let row := touched stamp (with_retry r.(rv_retry_count) Collecting None None r) in
  s ← update_recovery account_id row s;
  Ret (_gmail_recovery_state row, s).

(** [Store.restart_gmail_recovery_page] *)
Definition restart_gmail_recovery_page (account_id identity query_scope : text) (now : Z) s
    : py (py GmailRecoveryState * gmail_store) :=
  identity ← _require_mailbox_identity_key identity;
  let stamp := isoformat (utc now) in
  state ← _require_current_gmail_recovery account_id identity s;
  let row := touched stamp (with_scope query_scope (with_page None empty_page false 0 state.(gr_row))) in
  s ← update_recovery account_id row s;
  Ret (_gmail_recovery_state row, s).

(** The selector that wins a message: the least id among those frozen by the recovery
    that are still granted and whose label the message carries. *)
Definition matching_ids (account_id identity : text) (frozen : list GmailLabelSelectorSnapshot)
    (labels : list text) s : list text :=
  (List.filter (fun e => existsb (fun f => bool_decide (f.(gs_selector_id) = e.1) &&
                                           bool_decide (f.(gs_label_id) = e.2.(sl_label_id))) frozen &&
                         bool_decide (e.2.(sl_label_id) ∈ labels))
     (selectors_of account_id identity s)).*1.

(** [min(matching_ids)]: the selectors come in the order of their ids. *)
Definition winning_id (ids : list text) : option text := head ids.

Definition revoked {A} : py A := Raise (GmailLabelStoreError "gmail_recovery_grant_revoked").

(** The grant an admission rests on, in the frozen snapshots. *)
Definition admission_granted (account_id identity : text) (state : GmailRecoveryState)
    (a : AdmissionProvenance) (labels : list text) s : bool :=
  match a.(ap_kind) with
  | GmailUserLabel =>
      match List.find (fun f => bool_decide (f.(gs_selector_id) = a.(ap_selector_id))) state.(gr_selectors) with
      | Some frozen =>
          bool_decide (winning_id (matching_ids account_id identity state.(gr_selectors) labels s)
                       = Some a.(ap_selector_id)) &&
          bool_decide (Some frozen.(gs_display_name) = a.(ap_display_name))
      | None => false
      end
  | _ =>
      let prefix := str "sender:" in
      let address := if starts_with a.(ap_selector_id) prefix
                     then drop (length prefix) a.(ap_selector_id) else [] in
      match List.find (fun e : sender_entry => bool_decide (e.1 = address)) state.(gr_senders) with
      | Some e => bool_decide (e.2 = a.(ap_display_name))
      | None => false
      end
  end.

(** [Store.finish_gmail_recovery_candidate] *)
Definition finish_gmail_recovery_candidate (account_id identity provider_message_id : text)
    (admission : option admitted) (now : Z) s : py (bool * gmail_store) :=
  identity ← _require_mailbox_identity_key identity;
  provider_message_id ← _require_bounded_text (JStr provider_message_id) MAX_GMAIL_LABEL_ID_BYTES
                          "gmail provider message id is invalid";
  _ ← require (match admission with Some (m, _, _) => truthy_list m.(gm_locations) | None => true end)
        (ValueError "admitted recovery metadata must name an admitted folder");
  let stamp := isoformat (utc now) in
  state ← _require_current_gmail_recovery account_id identity s;
  let r := state.(gr_row) in
  _ ← require (r.(rv_page_loaded) &&
               bool_decide (state.(gr_page_ids) !! Z.to_nat r.(rv_next_index) = Some provider_message_id))
        (GmailLabelStoreError "gmail_recovery_candidate_mismatch");
  _ ← require (negb (r.(rv_terminal_count) =? SQLITE_MAX_INTEGER))
        (GmailLabelStoreError "gmail_recovery_counter_overflow");
  '(inserted, s) ← match admission with
                   | Some (m, a, labels) =>
                       _ ← _validate_admission_provenance a identity;
                       if admission_granted account_id identity state a labels s then
                         '(inserted, c) ← insert_message account_id provider_message_id identity m a stamp
                                            s.(g_captured);
                         Ret (inserted, set_captured c s)
                       else revoked
                   | None => Ret (false, s)
                   end;
  s ← update_recovery account_id
        (touched stamp
           (with_retry 0 Collecting None None
              (with_counts r.(rv_page_count) (r.(rv_terminal_count) + 1) r.(rv_invalid_tokens)
                 (with_page r.(rv_page_token) r.(rv_page_json) r.(rv_page_loaded)
                    (r.(rv_next_index) + 1) r)))) s;
  Ret (inserted, s).

(** [Store.complete_gmail_recovery] *)
Definition complete_gmail_recovery (account_id identity : text) (now : Z) s
    : py (text * gmail_store) :=
  identity ← _require_mailbox_identity_key identity;
  state ← _require_current_gmail_recovery account_id identity s;
  let r := state.(gr_row) in
  _ ← require (drained state && is_none r.(rv_page_token))
        (GmailLabelStoreError "gmail_recovery_page_not_drained");
  let s := set_mailbox_state
             (<[(gmail, account_id) := (r.(rv_cursor), r.(rv_created_at))]> s.(g_mailbox_state)) s in
  let s := set_recovery (delete account_id s.(g_recovery)) s in
  d ← gap (gmail, account_id, identity) now s.(g_reconcile);
  Ret (r.(rv_cursor), set_reconcile d s).

End Recovery.
