(* ===== verification/GmailInvariant.v ===== *)
(** * The invariant of the Gmail store

    At most one account is active; the selectors of an account stay within their limit
    and name each label once; validations always belong to the current revision of the
    selectors; every saved recovery can be decoded, its frozen columns included. *)

From S2P Require Export GmailRecovery GmailCodec IsoTimeFacts.
From stdpp Require Import options.

Local Open Scope Z_scope.

(** ** Timestamps are short ASCII *)

Definition plain (t : text) : Prop := Forall (λ c, (c < 128)%N) t.

Lemma encode_plain t : plain t → Utf8.encode t = Some t.
Proof.
  induction 1 as [|c t Hc _ IH]; simpl; [done|]. unfold Utf8.encode_char.
  rewrite (proj2 (N.ltb_lt c 128)), IH by done. done.
Qed.

Lemma within_plain t n : plain t → (length t <= n)%nat → within_utf8_bytes t n = true.
Proof.
  intros Hp Hl. unfold within_utf8_bytes, utf8_size. rewrite encode_plain by done.
  by apply bool_decide_eq_true_2.
Qed.

Lemma fmt_plain k z : plain (fmt k z).
Proof.
  eapply list.Forall_impl; [apply fmt_digits|]. simpl. unfold is_digit. intros c Hc. lia.
Qed.

Lemma isoformat_plain w : plain (isoformat (utc w)) ∧ (25 <= length (isoformat (utc w)) <= 32)%nat.
Proof.
  unfold isoformat. destruct (days_ymd _) as [[y m] d]. cbn [dt_offset dt_wall utc].
  rewrite fmt_offset_utc. unfold fmt_time. split.
  - assert (∀ a b, plain a → plain b → plain (a ++ b)) as Happ by (intros; by apply Forall_app).
    assert (∀ c, (c <? 128)%N = true → plain [c]) as Hone.
    { intros c Hc. constructor; [lia|constructor]. }
    repeat first [apply fmt_plain | by apply Hone | simple apply Happ].
    + case_match; [constructor|]. apply Happ; [by apply Hone|apply fmt_plain].
    + repeat (constructor; [vm_compute; done|]). constructor.
  - rewrite !length_app, !fmt_length. case_match; simpl; rewrite ?fmt_length; lia.
Qed.

Lemma isoformat_timestamp w : wall_ok w = true → utc_timestamp_ok (isoformat (utc w)) = true.
Proof.
  intros Hw. destruct (isoformat_plain w) as [Hp Hl]. unfold utc_timestamp_ok.
  rewrite fromisoformat_isoformat by done. rewrite within_plain by (done || lia).
  rewrite bool_decide_eq_true_2 by done. rewrite !andb_true_r.
  apply bool_decide_eq_true_2. intros E. rewrite E in Hl. simpl in Hl. lia.
Qed.

Section Invariant.
Context `{Unicode} `{AddressLib} `{MessageCapture}.
Implicit Types s : gmail_store.

(** ** The parts *)

Definition one_active (accounts : gmap (text * text) account_row) : Prop :=
  ∀ k k' a a', accounts !! k = Some a → accounts !! k' = Some a' →
    a.(ac_active) = true → a'.(ac_active) = true → k = k'.

Definition count_of (account_id : text) (m : gmap text selector_row) : nat :=
  length (List.filter (fun e => bool_decide (e.2.(sl_account_id) = account_id)) (map_to_list m)).

Record selectors_inv (sets : gmap text selector_set_row) (sel : gmap text selector_row) : Prop := {
  si_revision : ∀ acc set, sets !! acc = Some set → 0 <= set.(ss_revision) <= SQLITE_MAX_INTEGER;
  si_limit : ∀ acc, (count_of acc sel <= MAX_GMAIL_LABEL_SELECTORS)%nat;
  si_labels : ∀ i j a b, sel !! i = Some a → sel !! j = Some b →
    a.(sl_account_id) = b.(sl_account_id) → a.(sl_identity) = b.(sl_identity) →
    a.(sl_label_id) = b.(sl_label_id) → i = j }.

(** Validations belong to the current revision and to selectors that exist. *)
Record validations_inv (sets : gmap text selector_set_row) (sel : gmap text selector_row)
    (vsets : gmap text validation_set_row) (vals : gmap text validation_row) : Prop := {
  vi_sets : ∀ acc v, vsets !! acc = Some v → ∃ set, sets !! acc = Some set ∧
    set.(ss_identity) = v.(vs_identity) ∧ set.(ss_revision) = v.(vs_revision);
  vi_rows : ∀ i v, vals !! i = Some v → ∃ vs l, vsets !! v.(va_account_id) = Some vs ∧
    vs.(vs_catalog) = CatalogCurrent ∧ v.(va_identity) = vs.(vs_identity) ∧
    v.(va_revision) = vs.(vs_revision) ∧ sel !! i = Some l ∧
    l.(sl_account_id) = v.(va_account_id) ∧ l.(sl_identity) = v.(va_identity) ∧
    l.(sl_label_id) = v.(va_label_id) }.

(** A saved recovery can be resumed: it satisfies its constraints and is decoded. *)
Definition recovery_sound (r : recovery_row) : Prop :=
  recovery_row_ok r = true ∧ ∃ state, _gmail_recovery_state r = Ret state.

Record gmail_inv s : Prop := {
  gi_accounts : one_active s.(g_accounts);
  gi_selectors : selectors_inv s.(g_selector_sets) s.(g_selectors);
  gi_validations : validations_inv s.(g_selector_sets) s.(g_selectors) s.(g_validation_sets)
                     s.(g_validations);
  gi_recovery : map_Forall (λ _, recovery_sound) s.(g_recovery) }.

(** ** Accounts *)

Lemma deactivate_lookup stamp m k a :
  (deactivate stamp <$> m : gmap (text * text) account_row) !! k = Some a → a.(ac_active) = false.
Proof.
  rewrite lookup_fmap. destruct (m !! k) as [a0|]; [|done]. intros [= <-].
  unfold deactivate. by destruct (ac_active a0) eqn:E.
Qed.

Lemma one_active_insert m k a :
  one_active m → (a.(ac_active) = true → ∀ k' a', m !! k' = Some a' → a'.(ac_active) = true → k' = k) →
  one_active (<[k := a]> m).
Proof.
  intros Hm Ha i j x y. rewrite !lookup_insert_Some.
  intros [[<- <-]|[Hi Hx]] [[<- <-]|[Hj Hy]] Hxa Hya; try done.
  - symmetry. by eapply Ha.
  - by eapply Ha.
  - by eapply Hm.
Qed.

Lemma one_active_deactivated stamp m : one_active (deactivate stamp <$> m).
Proof. intros k k' a a' Ha _ Hact. apply deactivate_lookup in Ha. congruence. Qed.

Lemma any_active_false s k a : any_active s = false → s.(g_accounts) !! k = Some a → a.(ac_active) = false.
Proof.
  unfold any_active. rewrite existsb_false. intros Hx Ha. apply (Hx (k, a)).
  by apply elem_of_map_to_list.
Qed.

(** ** Counting selectors *)

Lemma count_of_insert acc i l m : m !! i = None →
  count_of acc (<[i := l]> m) = ((if bool_decide (l.(sl_account_id) = acc) then 1 else 0) + count_of acc m)%nat.
Proof.
  intros Hm. unfold count_of.
  assert (∀ (f : text * selector_row → bool) x y, x ≡ₚ y →
    length (List.filter f x) = length (List.filter f y)) as Hp.
  { intros f. induction 1; simpl; repeat case_match; simpl; congruence. }
  rewrite (Hp _ _ _ (map_to_list_insert m i l Hm)). simpl. by case_match.
Qed.

Lemma count_of_delete acc i m : (count_of acc (delete i m) <= count_of acc m)%nat.
Proof.
  destruct (m !! i) as [l|] eqn:E; [|by rewrite delete_id].
  rewrite <- (insert_delete_id m i l E) at 2. rewrite count_of_insert by apply lookup_delete_eq. lia.
Qed.

Lemma label_granted_false acc identity label s i l :
  label_granted acc identity label s = false → s.(g_selectors) !! i = Some l →
  l.(sl_account_id) = acc → l.(sl_identity) = identity → l.(sl_label_id) = label → False.
Proof.
  unfold label_granted. rewrite existsb_false. intros Hx Hl <- <- <-.
  specialize (Hx (i, l) ltac:(by apply elem_of_map_to_list)). simpl in Hx.
  rewrite !bool_decide_eq_true_2 in Hx by done. done.
Qed.

(** ** Writes of the selector set *)

(** Dropping the validations of an account leaves those of the others. *)
Lemma drop_validations_inv acc set sets sel sel' vsets vals :
  validations_inv sets sel vsets vals →
  (∀ i l, sel !! i = Some l → l.(sl_account_id) ≠ acc → sel' !! i = Some l) →
  validations_inv (<[acc := set]> sets) sel' (delete acc vsets)
    (filter (fun e => e.2.(va_account_id) ≠ acc) vals).
Proof.
  intros [Hs Hr] Hsel. split.
  - intros a v [Hne Hv]%lookup_delete_Some. rewrite lookup_insert_ne by done. by apply Hs.
  - intros i v [Hv Hne]%map_lookup_filter_Some. simpl in Hne.
    destruct (Hr _ _ Hv) as (vs & l & Hvs & Hc & Hi & Hrev & Hl & Ha & Hid & Hlab).
    exists vs, l. split_and!; try done.
    + rewrite lookup_delete_ne by done. done.
    + apply Hsel; [done|]. congruence.
Qed.

Lemma selectors_inv_set acc set sets sel :
  selectors_inv sets sel → 0 <= set.(ss_revision) <= SQLITE_MAX_INTEGER →
  selectors_inv (<[acc := set]> sets) sel.
Proof.
  intros [Hr Hl Hu] Hs. split; [|done|done].
  intros a x. rewrite lookup_insert_Some. intros [[<- <-]|[_ Hx]]; [done|by eapply Hr].
Qed.

Lemma require_current_set_inv acc identity s set :
  _require_current_gmail_selector_set acc identity s = Ret set →
  s.(g_selector_sets) !! acc = Some set ∧ set.(ss_identity) = identity ∧
  account_identity acc s = Some identity.
Proof.
  unfold _require_current_gmail_selector_set. intros Hr. peel. simplify_eq. bools.
  unfold sql_eq in *. case_match; [|done]. by bools; simplify_eq.
Qed.

Lemma require_revision_current_inv set expected u : require_revision_current set expected = Ret u →
  set.(ss_revision) = expected ∧ set.(ss_revision) ≠ SQLITE_MAX_INTEGER.
Proof.
  unfold require_revision_current. intros Hr. peel. apply require_ret_inv in Hr. bools. lia.
Qed.

Lemma identity_key_inv identity k : _require_mailbox_identity_key identity = Ret k →
  k = identity ∧ identity_key_ok identity = true.
Proof. unfold _require_mailbox_identity_key. case_match; [|done]. by intros [= <-]. Qed.

Lemma revision_inv e r : _require_revision e = Ret r → r = e ∧ 0 <= e <= SQLITE_MAX_INTEGER.
Proof. unfold _require_revision. case_match; [|done]. intros [= <-]. bools. lia. Qed.

(** ** Every operation preserves the invariant *)

Lemma register_inv provider acc display address active now s row s' :
  register_mail_account provider acc display address active now s = Ret (row, s') →
  gmail_inv s → gmail_inv s'.
Proof.
  unfold register_mail_account. intros Hr [Ha Hs Hv Hrec]. peel. simplify_eq.
  split; destruct active; simpl in *; try done.
  - apply one_active_insert; [apply one_active_deactivated|]. intros _ k a Hk Hact.
    apply deactivate_lookup in Hk. congruence.
  - by apply one_active_insert.
Qed.

Lemma update_identity_inv provider acc display address now s row s' :
  update_mail_account_identity provider acc display address now s = Ret (row, s') →
  gmail_inv s → gmail_inv s'.
Proof.
  unfold update_mail_account_identity. intros Hr [Ha Hs Hv Hrec]. peel. simplify_eq.
  split; simpl; try done. apply one_active_insert; [done|]. simpl. intros Hact k a' Hk Hka.
  by eapply Ha.
Qed.

Lemma activate_inv provider acc now s row s' :
  activate_mail_account provider acc now s = Ret (row, s') → gmail_inv s → gmail_inv s'.
Proof.
  unfold activate_mail_account. intros Hr [Ha Hs Hv Hrec]. peel. simplify_eq.
  split; simpl; try done. apply one_active_insert; [apply one_active_deactivated|].
  intros _ k a' Hk Hact. apply deactivate_lookup in Hk. congruence.
Qed.

Lemma reconcile_set_inv acc identity stamp s s' :
  reconcile_gmail_selector_set acc identity stamp s = Ret s' → gmail_inv s → gmail_inv s'.
Proof.
  unfold reconcile_gmail_selector_set. intros Hr [Ha Hs Hv Hrec].
  destruct (g_selector_sets s !! acc) as [set|] eqn:Eset.
  - case_bool_decide; [by injection Hr as <-|].
    apply bind_ret_inv in Hr as (u & Hrev & Hr). apply require_ret_inv in Hrev. injection Hr as <-.
    bools. pose proof (si_revision _ _ Hs _ _ Eset).
    split; simpl; [done| | |by apply map_Forall_delete].
    + apply selectors_inv_set; [done|]. simpl. lia.
    + by apply drop_validations_inv with (sel := g_selectors s).
  - apply bind_ret_inv in Hr as (u & _ & Hr). injection Hr as <-.
    split; simpl; [done| | |done].
    + apply selectors_inv_set; [done|]. simpl. unfold SQLITE_MAX_INTEGER. lia.
    + by apply drop_validations_inv with (sel := g_selectors s).
Qed.

Lemma reconcile_identity_inv provider acc identity legacy preserve now s row s' :
  reconcile_mailbox_identity provider acc identity legacy preserve now s = Ret (row, s') →
  gmail_inv s → gmail_inv s'.
Proof.
  unfold reconcile_mailbox_identity. intros Hr Hinv.
  apply bind_ret_inv in Hr as (k & _ & Hr).
  apply bind_ret_inv in Hr as (a & Hacc & Hr). apply require_some_ret_inv in Hacc.
  destruct (match ac_identity a with Some _ => _ | None => _ end) as [status legacy_key].
  set (row' := mk_account _ _ _ _ _ _ _ _) in Hr. set (s1 := set_accounts _ s) in Hr.
  assert (gmail_inv s1) as Hinv1.
  { destruct Hinv as [Ha Hs Hv Hrec]. split; simpl; try done.
    apply one_active_insert; [done|]. intros Hact k' a' Hk Hka. by eapply Ha. }
  apply bind_ret_inv in Hr as (s3 & H3 & Hr).
  match type of H3 with context [if ?b then set_mailbox_state ?x ?y else ?z] =>
    set (s2 := if b then set_mailbox_state x y else z) in * end.
  assert (gmail_inv s2) as Hinv2.
  { unfold s2. destruct (negb _ && negb preserve); [|done]. destruct Hinv1. by split. }
  assert (gmail_inv s3) as Hinv3.
  { destruct (is_none _ && _); [|by injection H3 as <-]. apply bind_ret_inv in H3 as (c & _ & H3).
    injection H3 as <-. destruct Hinv2. by split. }
  apply bind_ret_inv in Hr as (s4 & H4 & Hr). injection Hr as _ <-.
  case_bool_decide; [by eapply reconcile_set_inv|by injection H4 as <-].
Qed.

Lemma add_selector_inv acc identity label display expected now fresh s out s' :
  add_gmail_label_selector acc identity label display expected now fresh s = Ret (out, s') →
  gmail_inv s → gmail_inv s'.
Proof.
  unfold add_gmail_label_selector. intros Hr [Ha Hs Hv Hrec].
  apply bind_ret_inv in Hr as (i & Hi & Hr). apply identity_key_inv in Hi as [-> _].
  apply bind_ret_inv in Hr as (e & He & Hr). apply bind_ret_inv in Hr as (l & Hl & Hr).
  apply bind_ret_inv in Hr as (d & Hd & Hr). apply bind_ret_inv in Hr as (set & Hset & Hr).
  apply require_current_set_inv in Hset as (Eset & Eid & _).
  apply bind_ret_inv in Hr as (u & Hu & Hr). apply require_revision_current_inv in Hu as [_ Hmax].
  apply bind_ret_inv in Hr as (u1 & Hg & Hr). apply require_ret_inv in Hg.
  apply bind_ret_inv in Hr as (u2 & Hc & Hr). apply require_ret_inv in Hc.
  apply bind_ret_inv in Hr as (u3 & Hf & Hr). apply require_ret_inv in Hf. injection Hr as _ <-.
  bools. assert (g_selectors s !! fresh = None) as Hfresh by (by destruct (g_selectors s !! fresh)).
  pose proof (si_revision _ _ Hs _ _ Eset).
  split; simpl; [done| | |done].
  - apply selectors_inv_set; [|simpl; lia]. destruct Hs as [Hsr Hsl Hsu]. split; [done| |].
    + intros a. rewrite count_of_insert by done. simpl. case_bool_decide as Ea; [|apply Hsl].
      subst a. apply Nat.ltb_lt in Hc. unfold account_selector_count in Hc.
      change (count_of acc (g_selectors s) < MAX_GMAIL_LABEL_SELECTORS)%nat in Hc. lia.
    + intros i j a b. rewrite !lookup_insert_Some.
      intros [[<- <-]|[_ Hia]] [[<- <-]|[_ Hjb]] E1 E2 E3; try done; simpl in *.
      * exfalso. by eapply label_granted_false.
      * exfalso. by eapply label_granted_false.
      * by eapply Hsu.
  - eapply drop_validations_inv; [done|]. intros i0 l0 Hl0 _.
    rewrite lookup_insert_ne; [done|]. intros <-. congruence.
Qed.

Lemma remove_selector_inv acc identity sid expected now s out s' :
  remove_gmail_label_selector acc identity sid expected now s = Ret (out, s') →
  gmail_inv s → gmail_inv s'.
Proof.
  unfold remove_gmail_label_selector. intros Hr [Ha Hs Hv Hrec].
  apply bind_ret_inv in Hr as (i & Hi & Hr). apply identity_key_inv in Hi as [-> _].
  apply bind_ret_inv in Hr as (u0 & _ & Hr). apply bind_ret_inv in Hr as (e & He & Hr).
  apply bind_ret_inv in Hr as (set & Hset & Hr).
  apply require_current_set_inv in Hset as (Eset & Eid & _).
  apply bind_ret_inv in Hr as (u & Hu & Hr). apply require_revision_current_inv in Hu as [_ Hmax].
  apply bind_ret_inv in Hr as (u1 & Hg & Hr). apply require_ret_inv in Hg. injection Hr as _ <-.
  bools. pose proof (si_revision _ _ Hs _ _ Eset).
  destruct (g_selectors s !! sid) as [l|] eqn:El; [|done]. simpl in Hg. injection Hg as Hacc.
  split; simpl; [done| | |done].
  - apply selectors_inv_set; [|simpl; lia]. destruct Hs as [Hsr Hsl Hsu]. split; [done| |].
    + intros a. etrans; [apply count_of_delete|apply Hsl].
    + intros i j a b [_ Hia]%lookup_delete_Some [_ Hjb]%lookup_delete_Some. by eapply Hsu.
  - eapply drop_validations_inv; [done|]. intros i0 l0 Hl0 Hne.
    rewrite lookup_delete_ne; [done|]. intros <-. congruence.
Qed.

(** ** Validations *)

Lemma fold_put_lookup acc identity rev vs m i v :
  fold_left (put_validation acc identity rev) vs m !! i = Some v →
  m !! i = Some v ∨ ∃ x, x ∈ vs ∧ x.(sv_selector_id) = i ∧
    v = mk_validation acc identity rev x.(sv_label_id) x.(sv_status) x.(sv_display_name).
Proof.
  revert m. induction vs as [|x vs IH]; simpl; intros m Hv; [by left|].
  apply IH in Hv as [Hv|(y & Hy & E & ->)].
  - unfold put_validation in Hv. apply lookup_insert_Some in Hv as [[<- <-]|[_ Hv]]; [|by left].
    right. exists x. split; [by left|done].
  - right. exists y. split; [by right|done].
Qed.

Lemma selectors_of_elem acc identity s i l : (i, l) ∈ selectors_of acc identity s ↔
  s.(g_selectors) !! i = Some l ∧ l.(sl_account_id) = acc ∧ l.(sl_identity) = identity.
Proof.
  unfold selectors_of. rewrite sort_by_perm, elem_of_filter_b, elem_of_map_to_list. simpl.
  rewrite andb_true_iff, !bool_decide_eq_true. done.
Qed.

Lemma validate_selector_keys labels previous e :
  (validate_selector labels previous e).(sv_selector_id) = e.1 ∧
  (validate_selector labels previous e).(sv_label_id) = e.2.(sl_label_id).
Proof. unfold validate_selector. by repeat case_match. Qed.

Lemma begin_validation_inv acc identity expected s s' : begin_validation acc identity expected s = Ret s' →
  (∃ set, s.(g_selector_sets) !! acc = Some set ∧ set.(ss_identity) = identity ∧
    set.(ss_revision) = expected) ∧ account_identity acc s = Some identity ∧
  s' = _delete_gmail_label_validation acc s.
Proof.
  unfold begin_validation. intros Hb. apply bind_ret_inv in Hb as (set & Hset & Hb).
  apply require_current_set_inv in Hset as (E & Hid & Hacc). peel. simplify_eq.
  split; [|done]. exists set. split_and!; try done. lia.
Qed.

(** The tables after a catalogue is recorded. *)
Lemma record_validation_inv acc identity rev stamp catalog vs s :
  gmail_inv s →
  (∃ set, s.(g_selector_sets) !! acc = Some set ∧ set.(ss_identity) = identity ∧
    set.(ss_revision) = rev) →
  (∀ x, x ∈ vs → catalog = CatalogCurrent ∧ ∃ l, s.(g_selectors) !! x.(sv_selector_id) = Some l ∧
    l.(sl_account_id) = acc ∧ l.(sl_identity) = identity ∧ l.(sl_label_id) = x.(sv_label_id)) →
  let s1 := _delete_gmail_label_validation acc s in
  gmail_inv (set_validations (<[acc := mk_validation_set identity rev stamp catalog]> s1.(g_validation_sets))
               (fold_left (put_validation acc identity rev) vs s1.(g_validations)) s1).
Proof.
  intros [Ha Hs Hv Hrec] (set & Eset & Hid & Hrev) Hvs s1. split; simpl; try done. split.
  - intros a v. rewrite lookup_insert_Some. intros [[<- <-]|[Hne Hx]]; [by exists set|].
    apply lookup_delete_Some in Hx as [_ Hx]. by apply (vi_sets _ _ _ _ Hv).
  - intros i v Hi. apply fold_put_lookup in Hi as [Hi|(x & Hx & <- & ->)].
    + apply map_lookup_filter_Some in Hi as [Hi Hne]. simpl in Hne.
      destruct (vi_rows _ _ _ _ Hv _ _ Hi) as (vs' & l & Hvs' & Hrest). exists vs', l.
      rewrite lookup_insert_ne, lookup_delete_ne by done. done.
    + destruct (Hvs _ Hx) as (-> & l & Hl & Hla & Hli & Hll). simpl.
      eexists _, l. rewrite lookup_insert_eq. by split_and!.
Qed.

Lemma persist_inv acc identity expected catalog now s out s' :
  persist_gmail_label_validation acc identity expected catalog now s = Ret (out, s') →
  gmail_inv s → gmail_inv s'.
Proof.
  unfold persist_gmail_label_validation. intros Hr Hinv.
  apply bind_ret_inv in Hr as (i & Hi & Hr). apply identity_key_inv in Hi as [-> _].
  apply bind_ret_inv in Hr as (e & He & Hr). apply bind_ret_inv in Hr as (labels & Hl & Hr).
  apply bind_ret_inv in Hr as (s1 & Hb & Hr). apply begin_validation_inv in Hb as (Hset & _ & ->).
  apply bind_ret_inv in Hr as (u & _ & Hr). injection Hr as _ <-.
  apply record_validation_inv; [done|done|]. intros x Hx. split; [done|].
  apply list_elem_of_fmap in Hx as ([sid l] & -> & Hx).
  destruct (validate_selector_keys labels (previous_name acc identity s) (sid, l)) as [-> ->].
  apply selectors_of_elem in Hx as (Hx & Ha & Hi). by exists l.
Qed.

Lemma persist_invalid_inv acc identity expected now s out s' :
  persist_gmail_label_invalid_catalog acc identity expected now s = Ret (out, s') →
  gmail_inv s → gmail_inv s'.
Proof.
  unfold persist_gmail_label_invalid_catalog. intros Hr Hinv.
  apply bind_ret_inv in Hr as (i & Hi & Hr). apply identity_key_inv in Hi as [-> _].
  apply bind_ret_inv in Hr as (e & He & Hr).
  apply bind_ret_inv in Hr as (s1 & Hb & Hr). apply begin_validation_inv in Hb as (Hset & _ & ->).
  injection Hr as _ <-.
  apply (record_validation_inv acc identity e (isoformat (utc now)) CatalogInvalid [] s); [done|done|set_solver].
Qed.

Lemma delete_validation_inv acc s : gmail_inv s → gmail_inv (_delete_gmail_label_validation acc s).
Proof.
  intros [Ha Hs Hv Hrec]. split; simpl; try done.
  destruct (g_selector_sets s !! acc) as [set|] eqn:E.
  - rewrite <- (insert_id (g_selector_sets s) acc set E). by eapply drop_validations_inv.
  - split.
    + intros a v [_ Hx]%lookup_delete_Some. by apply (vi_sets _ _ _ _ Hv).
    + intros i v [Hi Hne]%map_lookup_filter_Some. simpl in Hne.
      destruct (vi_rows _ _ _ _ Hv _ _ Hi) as (vs' & l & Hvs' & Hrest). exists vs', l.
      by rewrite lookup_delete_ne.
Qed.

Lemma invalidate_inv acc identity rev s b s' :
  invalidate_gmail_label_validation acc identity rev s = Ret (b, s') → gmail_inv s → gmail_inv s'.
Proof.
  unfold invalidate_gmail_label_validation. intros Hr Hinv.
  apply bind_ret_inv in Hr as (i & _ & Hr). apply bind_ret_inv in Hr as (e & _ & Hr).
  destruct (g_validation_sets s !! acc); [|by simplify_eq].
  case_match; simplify_eq; [by apply delete_validation_inv|done].
Qed.

(** ** Recovery *)

Lemma recovery_state_inv r state : _gmail_recovery_state r = Ret state →
  state.(gr_row) = r ∧ decode_gmail_recovery_page r.(rv_page_json) = Ret state.(gr_page_ids) ∧
  decode_gmail_sender_snapshot r.(rv_sender_json) = Ret state.(gr_senders) ∧
  decode_gmail_selector_snapshot r.(rv_selector_json) = Ret state.(gr_selectors) ∧
  utc_timestamp_ok r.(rv_retention_cutoff) = true ∧
  (r.(rv_page_loaded) = false → state.(gr_page_ids) = [] ∧ r.(rv_next_index) = 0) ∧
  r.(rv_next_index) <= Z.of_nat (length state.(gr_page_ids)).
Proof.
  unfold _gmail_recovery_state, _validate_utc_timestamp. intros Hr.
  apply bind_ret_inv in Hr as (ids & Hids & Hr). apply bind_ret_inv in Hr as (u & Hg & Hr).
  apply require_ret_inv in Hg. apply negb_true_iff, orb_false_elim in Hg as [Hload Hle].
  apply bind_ret_inv in Hr as (u1 & _ & Hr). apply bind_ret_inv in Hr as (senders & Hs & Hr).
  apply bind_ret_inv in Hr as (sels & Hl & Hr). apply bind_ret_inv in Hr as (u2 & Ht & Hr).
  injection Hr as <-. simpl. split_and!; try done.
  - by destruct (utc_timestamp_ok _).
  - intros E. rewrite E in Hload. simpl in Hload. apply orb_false_elim in Hload as [Hids0 Hz].
    destruct ids; [|done]. split; [done|]. bools. lia.
  - lia.
Qed.

(** A row whose page columns are replaced by a page that fits is still decoded. *)
Lemma recovery_state_page r state r' ids :
  _gmail_recovery_state r = Ret state →
  r'.(rv_sender_json) = r.(rv_sender_json) → r'.(rv_selector_json) = r.(rv_selector_json) →
  r'.(rv_retention_cutoff) = r.(rv_retention_cutoff) →
  decode_gmail_recovery_page r'.(rv_page_json) = Ret ids →
  (r'.(rv_page_loaded) = false → ids = [] ∧ r'.(rv_next_index) = 0) →
  r'.(rv_next_index) <= Z.of_nat (length ids) → recovery_row_ok r' = true →
  _gmail_recovery_state r' = Ret (mk_state r' state.(gr_senders) state.(gr_selectors) ids).
Proof.
  intros Hst E1 E2 E3 Hp Hload Hle Hok.
  apply recovery_state_inv in Hst as (_ & _ & Hs & Hl & Ht & _).
  unfold _gmail_recovery_state, _validate_utc_timestamp. rewrite Hp. cbn [mbind py_bind].
  assert (negb (negb (rv_page_loaded r') && (truthy_list ids || negb (rv_next_index r' =? 0))
     || (Z.of_nat (length ids) <? rv_next_index r')) = true) as ->.
  { apply negb_true_iff, orb_false_intro; [|lia]. destruct (rv_page_loaded r'); [done|].
    destruct (Hload eq_refl) as [-> ->]. done. }
  cbn [mbind py_bind require].
  assert (match rv_page_token r' with
    | Some t => within_utf8_bytes t MAX_GMAIL_RECOVERY_PAGE_TOKEN_BYTES | None => true end = true) as ->.
  { unfold recovery_row_ok in Hok. by bools. }
  cbn [mbind py_bind require]. rewrite E1, Hs. cbn [mbind py_bind]. rewrite E2, Hl. cbn [mbind py_bind].
  by rewrite E3, Ht.
Qed.

Lemma empty_page_decodes : decode_gmail_recovery_page empty_page = Ret [].
Proof. vm_compute. reflexivity. Qed.

Lemma require_recovery_inv acc identity s state :
  _require_current_gmail_recovery acc identity s = Ret state →
  s.(g_recovery) !! acc = Some state.(gr_row) ∧ _gmail_recovery_state state.(gr_row) = Ret state ∧
  state.(gr_row).(rv_identity) = identity ∧ account_active acc s = true ∧
  account_identity acc s = Some identity.
Proof.
  unfold _require_current_gmail_recovery. intros Hr.
  apply bind_ret_inv in Hr as (set & Hset & Hr). apply require_current_set_inv in Hset as (_ & _ & Hacc).
  apply bind_ret_inv in Hr as (row & Hrow & Hr). apply require_some_ret_inv in Hrow.
  apply bind_ret_inv in Hr as (st & Hst & Hr). apply bind_ret_inv in Hr as (u & Hid & Hr).
  apply bind_ret_inv in Hr as (u1 & Hact & Hr). apply require_ret_inv in Hid, Hact. injection Hr as ->.
  bools. pose proof (recovery_state_inv _ _ Hst) as (-> & _). by split_and!.
Qed.

Lemma update_recovery_inv acc row s s' : update_recovery acc row s = Ret s' →
  recovery_row_ok row = true ∧ s' = set_recovery (<[acc := row]> s.(g_recovery)) s.
Proof. unfold update_recovery. intros Hu. peel. by simplify_eq. Qed.

Lemma update_recovery_sound acc row s state : gmail_inv s → recovery_row_ok row = true →
  _gmail_recovery_state row = Ret state → gmail_inv (set_recovery (<[acc := row]> s.(g_recovery)) s).
Proof.
  intros [Ha Hs Hv Hrec] Hok Hst. split; simpl; try done.
  apply map_Forall_insert_2; [|done]. by split; [|exists state].
Qed.

End Invariant.
