(* ===== verification/GmailSteps.v ===== *)
(** * Steps of the Gmail store

    The effect of every recovery operation on its row, the step relation of the store
    and the invariant of the reachable stores. *)

From S2P Require Export GmailInvariant.
From stdpp Require Import options.

Local Open Scope Z_scope.

(** What a recovery never changes, and what only grows. *)
Record frozen (r r' : recovery_row) : Prop := {
  fz_identity : r'.(rv_identity) = r.(rv_identity);
  fz_revision : r'.(rv_selector_revision) = r.(rv_selector_revision);
  fz_senders : r'.(rv_sender_json) = r.(rv_sender_json);
  fz_selectors : r'.(rv_selector_json) = r.(rv_selector_json);
  fz_after : r'.(rv_after) = r.(rv_after);
  fz_before : r'.(rv_before) = r.(rv_before);
  fz_cutoff : r'.(rv_retention_cutoff) = r.(rv_retention_cutoff);
  fz_cursor : r'.(rv_cursor) = r.(rv_cursor);
  fz_created : r'.(rv_created_at) = r.(rv_created_at);
  fz_pages : r.(rv_page_count) <= r'.(rv_page_count);
  fz_terminal : r.(rv_terminal_count) <= r'.(rv_terminal_count);
  fz_invalid : r.(rv_invalid_tokens) <= r'.(rv_invalid_tokens) }.

Lemma frozen_refl r : frozen r r.
Proof. by split. Qed.

Lemma frozen_trans r1 r2 r3 : frozen r1 r2 → frozen r2 r3 → frozen r1 r3.
Proof. intros [] []. split; congruence || lia. Qed.

Section Steps.
Context `{Unicode} `{AddressLib} `{MessageCapture}.
Implicit Types s : gmail_store.

(** One write of a recovery row, by a caller that holds the current identity of an
    active account; the captured messages are those of [c]. *)
Record recovery_write (acc identity : text) (s s' : gmail_store) (state state' : GmailRecoveryState)
    (c : captured) : Prop := {
  rw_row : s.(g_recovery) !! acc = Some state.(gr_row);
  rw_state : _gmail_recovery_state state.(gr_row) = Ret state;
  rw_identity : state.(gr_row).(rv_identity) = identity;
  rw_active : account_active acc s = true;
  rw_frozen : frozen state.(gr_row) state'.(gr_row);
  rw_senders : state'.(gr_senders) = state.(gr_senders);
  rw_selectors : state'.(gr_selectors) = state.(gr_selectors);
  rw_ok : recovery_row_ok state'.(gr_row) = true;
  rw_state' : _gmail_recovery_state state'.(gr_row) = Ret state';
  rw_store : s' = set_captured c (set_recovery (<[acc := state'.(gr_row)]> s.(g_recovery)) s) }.

Lemma recovery_write_inv acc identity s s' state state' c :
  recovery_write acc identity s s' state state' c → gmail_inv s → gmail_inv s'.
Proof.
  intros [_ _ _ _ _ _ _ Hok Hst ->] Hinv.
  pose proof (update_recovery_sound acc _ _ _ Hinv Hok Hst) as []. by split.
Qed.

(** The write an update of the row amounts to, from its page columns. *)
Lemma write_of_update acc identity s state row ids s' c :
  _require_current_gmail_recovery acc identity s = Ret state →
  update_recovery acc row (set_captured c s) = Ret s' →
  frozen state.(gr_row) row →
  decode_gmail_recovery_page row.(rv_page_json) = Ret ids →
  (row.(rv_page_loaded) = false → ids = [] ∧ row.(rv_next_index) = 0) →
  row.(rv_next_index) <= Z.of_nat (length ids) →
  recovery_write acc identity s s' state (mk_state row state.(gr_senders) state.(gr_selectors) ids) c.
Proof.
  intros Hreq Hup Hfz Hdec Hload Hle.
  apply require_recovery_inv in Hreq as (Hrow & Hst & Hid & Hact & _).
  apply update_recovery_inv in Hup as (Hok & ->).
  split; simpl; try done. pose proof Hfz as [].
  by eapply recovery_state_page.
Qed.

Lemma set_captured_same s : set_captured s.(g_captured) s = s.
Proof. by destruct s. Qed.

Lemma store_page_write acc identity ids token now s out s' :
  store_gmail_recovery_page acc identity ids token now s = Ret (out, s') →
  ∃ state state', recovery_write acc identity s s' state state' s.(g_captured) ∧ out = Ret state' ∧
    state.(gr_row).(rv_page_loaded) = false ∧ state'.(gr_row).(rv_page_loaded) = true ∧
    state'.(gr_page_ids) = ids ∧ state'.(gr_row).(rv_next_index) = 0 ∧
    state'.(gr_row).(rv_page_token) = token ∧
    state'.(gr_row).(rv_page_count) = state.(gr_row).(rv_page_count) + 1 ∧
    state'.(gr_row).(rv_terminal_count) = state.(gr_row).(rv_terminal_count).
Proof.
  unfold store_gmail_recovery_page. intros Hr.
  apply bind_ret_inv in Hr as (i & Hi & Hr). apply identity_key_inv in Hi as [-> _].
  apply bind_ret_inv in Hr as (page & Hpage & Hr). apply bind_ret_inv in Hr as (u & _ & Hr).
  apply bind_ret_inv in Hr as (state & Hst & Hr). apply bind_ret_inv in Hr as (u1 & Hl & Hr).
  apply require_ret_inv in Hl. apply bind_ret_inv in Hr as (u2 & _ & Hr).
  set (row := touched _ _) in Hr. apply bind_ret_inv in Hr as (s1 & Hup & Hr). injection Hr as <- <-.
  rewrite <- (set_captured_same s) in Hup. apply page_roundtrip in Hpage.
  assert (recovery_write acc identity s s1 state (mk_state row state.(gr_senders) state.(gr_selectors) ids)
    s.(g_captured)) as Hw.
  { eapply write_of_update; try done; simpl; [split; simpl; (done || lia)|lia]. }
  exists state, (mk_state row state.(gr_senders) state.(gr_selectors) ids).
  split; [done|]. split; [apply (rw_state' _ _ _ _ _ _ _ Hw)|]. bools. by split_and!.
Qed.

Lemma drained_inv state : drained state = true → state.(gr_row).(rv_page_loaded) = true ∧
  state.(gr_row).(rv_next_index) = Z.of_nat (length state.(gr_page_ids)).
Proof. unfold drained. intros Hd. bools. lia. Qed.

Lemma finish_page_write acc identity now s b s' :
  finish_gmail_recovery_page acc identity now s = Ret (b, s') →
  ∃ state, _require_current_gmail_recovery acc identity s = Ret state ∧ drained state = true ∧
    (b = true ∧ s' = s ∧ state.(gr_row).(rv_page_token) = None ∨
     b = false ∧ is_Some state.(gr_row).(rv_page_token) ∧
     ∃ state', recovery_write acc identity s s' state state' s.(g_captured) ∧
       state'.(gr_row).(rv_page_loaded) = false ∧
       state'.(gr_row).(rv_page_token) = state.(gr_row).(rv_page_token) ∧
       state'.(gr_row).(rv_page_count) = state.(gr_row).(rv_page_count) ∧
       state'.(gr_row).(rv_terminal_count) = state.(gr_row).(rv_terminal_count)).
Proof.
  unfold finish_gmail_recovery_page. intros Hr.
  apply bind_ret_inv in Hr as (i & Hi & Hr). apply identity_key_inv in Hi as [-> _].
  apply bind_ret_inv in Hr as (state & Hst & Hr). apply bind_ret_inv in Hr as (u & Hd & Hr).
  apply require_ret_inv in Hd. exists state. split; [done|]. split; [done|].
  destruct (rv_page_token (gr_row state)) as [token|] eqn:Et.
  - right. apply bind_ret_inv in Hr as (s1 & Hup & Hr). injection Hr as <- <-.
    set (row := touched _ _) in Hup. rewrite <- (set_captured_same s) in Hup.
    split; [done|]. split; [done|].
    exists (mk_state row state.(gr_senders) state.(gr_selectors) []). split; [|by split_and!].
    by eapply write_of_update.
  - left. by simplify_eq.
Qed.

(** The writes that leave the page as it is, or drop it. *)
Lemma retry_write acc identity s state row s' :
  _require_current_gmail_recovery acc identity s = Ret state →
  update_recovery acc row s = Ret s' → frozen state.(gr_row) row →
  (row.(rv_page_json) = empty_page ∧ row.(rv_page_loaded) = false ∧ row.(rv_next_index) = 0 ∨
   row.(rv_page_json) = state.(gr_row).(rv_page_json) ∧
   row.(rv_page_loaded) = state.(gr_row).(rv_page_loaded) ∧
   row.(rv_next_index) = state.(gr_row).(rv_next_index)) →
  ∃ state', recovery_write acc identity s s' state state' s.(g_captured) ∧ state'.(gr_row) = row ∧
    _gmail_recovery_state row = Ret state'.
Proof.
  intros Hst Hup Hfz Hpage. rewrite <- (set_captured_same s) in Hup.
  pose proof (require_recovery_inv _ _ _ _ Hst) as (_ & Hs & _).
  apply recovery_state_inv in Hs as (_ & Hd & _ & _ & _ & Hl & Hle).
  destruct Hpage as [(E1 & E2 & E3)|(E1 & E2 & E3)].
  - assert (recovery_write acc identity s s' state (mk_state row state.(gr_senders) state.(gr_selectors) [])
      s.(g_captured)) as Hw.
    { eapply write_of_update; try done; [rewrite E1; apply empty_page_decodes|rewrite E3; simpl; lia]. }
    eexists. split; [done|]. split; [done|apply (rw_state' _ _ _ _ _ _ _ Hw)].
  - assert (recovery_write acc identity s s' state
      (mk_state row state.(gr_senders) state.(gr_selectors) state.(gr_page_ids)) s.(g_captured)) as Hw.
    { eapply write_of_update; try done; rewrite ?E1, ?E2, ?E3; done. }
    eexists. split; [done|]. split; [done|apply (rw_state' _ _ _ _ _ _ _ Hw)].
Qed.

Lemma backoff_write acc identity code retry degraded now s out s' :
  record_gmail_recovery_backoff acc identity code retry degraded now s = Ret (out, s') →
  ∃ state state', recovery_write acc identity s s' state state' s.(g_captured) ∧ out = Ret state'.
Proof.
  unfold record_gmail_recovery_backoff. intros Hr. apply bind_ret_inv in Hr as (u & _ & Hr).
  apply bind_ret_inv in Hr as (i & Hi & Hr). apply identity_key_inv in Hi as [-> _].
  apply bind_ret_inv in Hr as (u1 & _ & Hr). apply bind_ret_inv in Hr as (state & Hst & Hr).
  apply bind_ret_inv in Hr as (s1 & Hup & Hr). injection Hr as <- <-.
  eapply retry_write in Hup as (state' & Hw & <- & Hs); [by exists state, state'|done|..].
  - split; simpl; (done || lia).
  - by right.
Qed.

Lemma invalid_token_write acc identity retry now s out s' :
  record_gmail_recovery_invalid_page_token acc identity retry now s = Ret (out, s') →
  ∃ state state', recovery_write acc identity s s' state state' s.(g_captured) ∧ out = Ret state'.
Proof.
  unfold record_gmail_recovery_invalid_page_token. intros Hr.
  apply bind_ret_inv in Hr as (i & Hi & Hr). apply identity_key_inv in Hi as [-> _].
  apply bind_ret_inv in Hr as (u1 & _ & Hr). apply bind_ret_inv in Hr as (state & Hst & Hr).
  apply bind_ret_inv in Hr as (u2 & _ & Hr). apply bind_ret_inv in Hr as (s1 & Hup & Hr). injection Hr as <- <-.
  eapply retry_write in Hup as (state' & Hw & <- & Hs); [by exists state, state'|done|..].
  - split; simpl; (done || lia).
  - by left.
Qed.

Lemma clear_write acc identity now s out s' :
  clear_gmail_recovery_backoff acc identity now s = Ret (out, s') →
  ∃ state state', recovery_write acc identity s s' state state' s.(g_captured) ∧ out = Ret state'.
Proof.
  unfold clear_gmail_recovery_backoff. intros Hr.
  apply bind_ret_inv in Hr as (i & Hi & Hr). apply identity_key_inv in Hi as [-> _].
  apply bind_ret_inv in Hr as (state & Hst & Hr).
  apply bind_ret_inv in Hr as (s1 & Hup & Hr). injection Hr as <- <-.
  eapply retry_write in Hup as (state' & Hw & <- & Hs); [by exists state, state'|done|..].
  - split; simpl; (done || lia).
  - by right.
Qed.

Lemma restart_write acc identity scope now s out s' :
  restart_gmail_recovery_page acc identity scope now s = Ret (out, s') →
  ∃ state state', recovery_write acc identity s s' state state' s.(g_captured) ∧ out = Ret state'.
Proof.
  unfold restart_gmail_recovery_page. intros Hr.
  apply bind_ret_inv in Hr as (i & Hi & Hr). apply identity_key_inv in Hi as [-> _].
  apply bind_ret_inv in Hr as (state & Hst & Hr).
  apply bind_ret_inv in Hr as (s1 & Hup & Hr). injection Hr as <- <-.
  eapply retry_write in Hup as (state' & Hw & <- & Hs); [by exists state, state'|done|..].
  - split; simpl; (done || lia).
  - by left.
Qed.

(** What an admitted candidate passed: the grant, and the capture of the message. *)
Definition candidate_captured (acc identity id : text) (admission : option admitted) (stamp : text)
    (state : GmailRecoveryState) s (b : bool) (c : captured) : Prop :=
  match admission with
  | None => b = false ∧ c = s.(g_captured)
  | Some (m, a, labels) =>
      m.(gm_locations) ≠ [] ∧ _validate_admission_provenance a identity = Ret tt ∧
      admission_granted acc identity state a labels s = true ∧
      insert_message acc id identity m a stamp s.(g_captured) = Ret (b, c)
  end.

Lemma finish_candidate_write acc identity id admission now s b s' :
  finish_gmail_recovery_candidate acc identity id admission now s = Ret (b, s') →
  ∃ state state' c, recovery_write acc identity s s' state state' c ∧
    candidate_captured acc identity id admission (isoformat (utc now)) state s b c ∧
    state.(gr_row).(rv_page_loaded) = true ∧ state'.(gr_row).(rv_page_loaded) = true ∧
    state.(gr_page_ids) !! Z.to_nat state.(gr_row).(rv_next_index) = Some id ∧
    state'.(gr_page_ids) = state.(gr_page_ids) ∧
    state'.(gr_row).(rv_page_token) = state.(gr_row).(rv_page_token) ∧
    state'.(gr_row).(rv_next_index) = state.(gr_row).(rv_next_index) + 1 ∧
    state'.(gr_row).(rv_page_count) = state.(gr_row).(rv_page_count) ∧
    state'.(gr_row).(rv_terminal_count) = state.(gr_row).(rv_terminal_count) + 1.
Proof.
  unfold finish_gmail_recovery_candidate. intros Hr.
  apply bind_ret_inv in Hr as (i & Hi & Hr). apply identity_key_inv in Hi as [-> _].
  apply bind_ret_inv in Hr as (i' & Hb & Hr). apply bounded_text_inv in Hb as [-> _].
  apply bind_ret_inv in Hr as (u & Hloc & Hr). apply require_ret_inv in Hloc.
  apply bind_ret_inv in Hr as (state & Hst & Hr). apply bind_ret_inv in Hr as (u1 & Hid & Hr).
  apply require_ret_inv in Hid. apply bind_ret_inv in Hr as (u2 & _ & Hr).
  apply bind_ret_inv in Hr as ([ins s1] & Hadm & Hr).
  apply bind_ret_inv in Hr as (s2 & Hup & Hr). injection Hr as <- <-.
  apply andb_true_iff in Hid as [Hload Hid]. apply bool_decide_eq_true in Hid.
  assert (∃ c, s1 = set_captured c s ∧
    candidate_captured acc identity id admission (isoformat (utc now)) state s ins c) as (c & -> & Hc).
  { destruct admission as [[[m a] labels]|]; [|injection Hadm as <- <-].
    - apply bind_ret_inv in Hadm as ([] & Hv & Hadm). destruct (admission_granted _ _ _ _ _ _) eqn:Hg; [|done].
      apply bind_ret_inv in Hadm as ([ins' c] & Hins & Hadm). injection Hadm as -> <-. exists c.
      split; [done|]. simpl. split_and!; try done. by destruct (gm_locations m).
    - exists (g_captured s). by rewrite set_captured_same. }
  set (row := touched _ _) in Hup. pose proof (require_recovery_inv _ _ _ _ Hst) as (_ & Hs & _).
  apply recovery_state_inv in Hs as (_ & Hd & _ & _ & _ & Hl & Hle).
  exists state, (mk_state row state.(gr_senders) state.(gr_selectors) state.(gr_page_ids)), c.
  split; [|by split_and!]. eapply write_of_update; [done|done|split; simpl; (done || lia)|done|..].
  - simpl. by rewrite Hload.
  - simpl. apply lookup_lt_Some in Hid. lia.
Qed.

(** What ends a recovery: its cursor becomes that of the mailbox, and the coverage of
    the scope is one generation behind. *)
Lemma complete_recovery_inv acc identity now s cursor s' :
  complete_gmail_recovery acc identity now s = Ret (cursor, s') →
  ∃ state d, _require_current_gmail_recovery acc identity s = Ret state ∧ drained state = true ∧
    state.(gr_row).(rv_page_token) = None ∧ cursor = state.(gr_row).(rv_cursor) ∧
    gap (gmail, acc, identity) now s.(g_reconcile) = Ret d ∧
    s' = set_reconcile d (set_recovery (delete acc s.(g_recovery))
           (set_mailbox_state (<[(gmail, acc) := (cursor, state.(gr_row).(rv_created_at))]> s.(g_mailbox_state)) s)).
Proof.
  unfold complete_gmail_recovery. intros Hr.
  apply bind_ret_inv in Hr as (i & Hi & Hr). apply identity_key_inv in Hi as [-> _].
  apply bind_ret_inv in Hr as (state & Hst & Hr). apply bind_ret_inv in Hr as (u & Hd & Hr).
  apply require_ret_inv in Hd. apply andb_true_iff in Hd as [Hd Ht].
  apply bind_ret_inv in Hr as (d & Hg & Hr). injection Hr as <- <-.
  exists state, d. split_and!; try done. by destruct (rv_page_token _).
Qed.

Lemma complete_inv acc identity now s cursor s' :
  complete_gmail_recovery acc identity now s = Ret (cursor, s') → gmail_inv s → gmail_inv s'.
Proof.
  intros (state & d & _ & _ & _ & _ & _ & ->)%complete_recovery_inv [Ha Hs Hv Hrec].
  split; simpl; try done. by apply map_Forall_delete.
Qed.

(** A cutoff is a [datetime]: its wall clock lies in the years 1 to 9999. *)
Definition cutoff_ok (cutoff : option datetime) : Prop :=
  match cutoff with Some d => wall_ok d.(dt_wall) = true | None => True end.

Lemma create_recovery_inv acc identity rev senders selectors after before cursor cutoff scope now s out s' :
  create_gmail_recovery_state acc identity rev senders selectors after before cursor cutoff scope now s
    = Ret (out, s') → cutoff_ok cutoff →
  ∃ state, out = Ret state ∧ s' = set_recovery (<[acc := state.(gr_row)]> s.(g_recovery)) s ∧
    recovery_row_ok state.(gr_row) = true ∧ _gmail_recovery_state state.(gr_row) = Ret state ∧
    s.(g_recovery) !! acc = None ∧ account_active acc s = true ∧
    account_identity acc s = Some identity ∧
    state.(gr_row).(rv_identity) = identity ∧ state.(gr_row).(rv_cursor) = cursor ∧
    state.(gr_row).(rv_after) = after ∧ state.(gr_row).(rv_before) = before ∧
    state.(gr_senders) ≡ₚ senders ∧ state.(gr_selectors) ≡ₚ selectors ∧
    Forall (λ f, grant_current acc identity s f = true) selectors ∧
    state.(gr_page_ids) = [] ∧ state.(gr_row).(rv_page_token) = None ∧
    state.(gr_row).(rv_page_loaded) = false ∧ state.(gr_row).(rv_page_count) = 0 ∧
    state.(gr_row).(rv_terminal_count) = 0.
Proof.
  unfold create_gmail_recovery_state. intros Hr Hcut.
  apply bind_ret_inv in Hr as (i & Hi & Hr). apply identity_key_inv in Hi as [-> _].
  apply bind_ret_inv in Hr as (rev' & _ & Hr). apply bind_ret_inv in Hr as (u & _ & Hr).
  apply bind_ret_inv in Hr as (cur & Hcur & Hr). apply bounded_text_inv in Hcur as [-> _].
  apply bind_ret_inv in Hr as (cut & Hc & Hr). apply bind_ret_inv in Hr as (u1 & Hoff & Hr).
  apply require_ret_inv in Hoff. apply andb_true_iff in Hoff as [Hoff _]. apply bool_decide_eq_true in Hoff.
  apply bind_ret_inv in Hr as (sj & Hsj & Hr). apply bind_ret_inv in Hr as (lj & Hlj & Hr).
  apply bind_ret_inv in Hr as (set & Hset & Hr). apply require_current_set_inv in Hset as (_ & _ & Hid).
  apply bind_ret_inv in Hr as (u2 & Hact & Hr). apply require_ret_inv in Hact.
  apply bind_ret_inv in Hr as (u3 & _ & Hr). apply bind_ret_inv in Hr as (fr & Hfr & Hr).
  apply bind_ret_inv in Hr as (u4 & Hgr & Hr). apply require_ret_inv in Hgr.
  set (row := mk_recovery _ _ _ _ _ _ _ _ _ _ _ _ _ _ _ _ _ _ _ _ _ _) in Hr.
  apply bind_ret_inv in Hr as (u5 & Hok & Hr). apply require_ret_inv in Hok. injection Hr as <- <-.
  apply andb_true_iff in Hok as [Hok Hrow]. apply andb_true_iff in Hok as [Hnone _].
  apply sender_snapshot_roundtrip in Hsj. apply selector_snapshot_roundtrip in Hlj.
  rewrite Hlj in Hfr. injection Hfr as <-.
  assert (wall_ok cut.(dt_wall) = true) as Hw.
  { destruct cutoff as [d0|]; [by injection Hc as <-|]. apply bind_ret_inv in Hc as (w & Hw & Hc).
    injection Hc as <-. unfold from_epoch in Hw. simpl. by destruct (wall_ok _) eqn:E; [injection Hw as <-|]. }
  assert (utc_timestamp_ok row.(rv_retention_cutoff) = true) as Hts.
  { simpl. destruct cut as [w off]. simpl in Hoff. subst off. by apply isoformat_timestamp. }
  assert (_gmail_recovery_state row = Ret (mk_state row (sort_by sender_leb senders)
    (sort_by selector_leb selectors) [])) as Hst.
  { unfold _gmail_recovery_state, _validate_utc_timestamp. rewrite Hts.
    change (rv_page_json row) with empty_page. rewrite empty_page_decodes. cbn [mbind py_bind].
    change (rv_sender_json row) with sj. change (rv_selector_json row) with lj.
    cbn [require rv_page_loaded rv_next_index rv_page_token row negb truthy_list length Z.eqb Z.ltb
      Z.compare Z.of_nat andb orb mbind py_bind].
    by rewrite Hsj; cbn [mbind py_bind]; rewrite Hlj. }
  exists (mk_state row (sort_by sender_leb senders) (sort_by selector_leb selectors) []).
  split_and!; try done.
  - by destruct (g_recovery s !! acc).
  - apply sort_by_perm.
  - apply sort_by_perm.
  - rewrite <- (sort_by_perm selector_leb selectors). 
    apply list.Forall_forall. by apply forallb_elem.
Qed.

(** ** The steps of a store *)

(** One transaction of the Gmail store; a failed one leaves the store as it was.  The
    moments are those of the clock, and a cutoff is a value of [datetime]. *)
Inductive gmail_step s : gmail_store → Prop :=
| step_register provider acc display address active now row s' :
    register_mail_account provider acc display address active now s = Ret (row, s') → gmail_step s s'
| step_update_identity provider acc display address now row s' :
    update_mail_account_identity provider acc display address now s = Ret (row, s') → gmail_step s s'
| step_activate provider acc now row s' :
    activate_mail_account provider acc now s = Ret (row, s') → gmail_step s s'
| step_reconcile provider acc identity legacy preserve now row s' :
    reconcile_mailbox_identity provider acc identity legacy preserve now s = Ret (row, s') →
    gmail_step s s'
| step_add acc identity label display expected now fresh out s' :
    add_gmail_label_selector acc identity label display expected now fresh s = Ret (out, s') →
    gmail_step s s'
| step_remove acc identity sid expected now out s' :
    remove_gmail_label_selector acc identity sid expected now s = Ret (out, s') → gmail_step s s'
| step_persist acc identity expected catalog now out s' :
    persist_gmail_label_validation acc identity expected catalog now s = Ret (out, s') → gmail_step s s'
| step_persist_invalid acc identity expected now out s' :
    persist_gmail_label_invalid_catalog acc identity expected now s = Ret (out, s') → gmail_step s s'
| step_invalidate acc identity rev b s' :
    invalidate_gmail_label_validation acc identity rev s = Ret (b, s') → gmail_step s s'
| step_create acc identity rev senders selectors after before cursor cutoff scope now out s' :
    create_gmail_recovery_state acc identity rev senders selectors after before cursor cutoff scope now s
      = Ret (out, s') → cutoff_ok cutoff → gmail_step s s'
| step_store_page acc identity ids token now out s' :
    store_gmail_recovery_page acc identity ids token now s = Ret (out, s') → gmail_step s s'
| step_finish_page acc identity now b s' :
    finish_gmail_recovery_page acc identity now s = Ret (b, s') → gmail_step s s'
| step_backoff acc identity code retry degraded now out s' :
    record_gmail_recovery_backoff acc identity code retry degraded now s = Ret (out, s') → gmail_step s s'
| step_invalid_token acc identity retry now out s' :
    record_gmail_recovery_invalid_page_token acc identity retry now s = Ret (out, s') → gmail_step s s'
| step_clear acc identity now out s' :
    clear_gmail_recovery_backoff acc identity now s = Ret (out, s') → gmail_step s s'
| step_restart acc identity scope now out s' :
    restart_gmail_recovery_page acc identity scope now s = Ret (out, s') → gmail_step s s'
| step_candidate acc identity id admission now b s' :
    finish_gmail_recovery_candidate acc identity id admission now s = Ret (b, s') → gmail_step s s'
| step_complete acc identity now cursor s' :
    complete_gmail_recovery acc identity now s = Ret (cursor, s') → gmail_step s s'.

Definition gmail_reachable (c : captured) s : Prop := rtc gmail_step (empty_gmail c) s.

Lemma gmail_step_inv s s' : gmail_step s s' → gmail_inv s → gmail_inv s'.
Proof.
  intros Hst Hinv. destruct Hst as [| | | | | | | | |? ? ? ? ? ? ? ? ? ? ? ? ? Hc Hcut| |? ? ? ? ? Hf| | | | | |].
  - by eapply register_inv.
  - by eapply update_identity_inv.
  - by eapply activate_inv.
  - by eapply reconcile_identity_inv.
  - by eapply add_selector_inv.
  - by eapply remove_selector_inv.
  - by eapply persist_inv.
  - by eapply persist_invalid_inv.
  - by eapply invalidate_inv.
  - apply create_recovery_inv in Hc as (state & _ & -> & Hok & Hs & _); [|done].
    by eapply update_recovery_sound.
  - edestruct store_page_write as (? & ? & ? & _); [done|]. by eapply recovery_write_inv.
  - apply finish_page_write in Hf as (state & _ & _ & [(_ & -> & _)|(_ & _ & state' & Hw & _)]); [done|].
    by eapply recovery_write_inv.
  - edestruct backoff_write as (? & ? & ? & _); [done|]. by eapply recovery_write_inv.
  - edestruct invalid_token_write as (? & ? & ? & _); [done|]. by eapply recovery_write_inv.
  - edestruct clear_write as (? & ? & ? & _); [done|]. by eapply recovery_write_inv.
  - edestruct restart_write as (? & ? & ? & _); [done|]. by eapply recovery_write_inv.
  - edestruct finish_candidate_write as (? & ? & ? & ? & _); [done|]. by eapply recovery_write_inv.
  - by eapply complete_inv.
Qed.

Lemma empty_gmail_inv c : gmail_inv (empty_gmail c).
Proof.
  split; simpl.
  - by intros ? ? ? ? [=].
  - split; [by intros ? ? [=]| |by intros ? ? ? ? [=]]. intros acc. unfold count_of.
    rewrite map_to_list_empty. simpl. lia.
  - split; by intros ? ? [=].
  - apply map_Forall_empty.
Qed.

Lemma gmail_reachable_inv c s : gmail_reachable c s → gmail_inv s.
Proof.
  unfold gmail_reachable. pose proof (empty_gmail_inv c) as Hi. revert Hi. generalize (empty_gmail c).
  intros s0 Hi Hr. induction Hr; eauto using gmail_step_inv.
Qed.

End Steps.
