(* ===== verification/GmailTheorems.v ===== *)
(** * Correctness of the Gmail label and recovery store

    The reachable stores, catalogue validations that are read back until the selectors
    change, and the recovery of a mailbox from its creation to its completion. *)

From S2P Require Export GmailSteps ReconcileTheorems.
From stdpp Require Import options.

Local Open Scope Z_scope.

(** ** Sorting by unique keys *)

Section Keys.
Context {A : Type}.
Implicit Types l : list (text * A).

Lemma id_sorted l : StronglySorted id_leb (sort_by id_leb l).
Proof.
  apply sort_by_sorted; [intros a b; apply text_leb_total|intros a b c; apply text_leb_true_trans].
Qed.

Lemma keys_unique l a b : NoDup l.*1 → a ∈ l → b ∈ l → a.1 = b.1 → a = b.
Proof.
  induction l as [|x l IH]; simpl; intros Hnd; [by intros ?%elem_of_nil|].
  apply list.NoDup_cons in Hnd as [Hx Hnd]. rewrite !elem_of_cons.
  intros [->|Ha] [->|Hb] E; try done; [| |by apply IH].
  - exfalso. apply Hx. rewrite E. by apply list_elem_of_fmap_2.
  - exfalso. apply Hx. rewrite <- E. by apply list_elem_of_fmap_2.
Qed.

(** Two arrangements of rows with distinct ids are sorted to the same list. *)
Lemma sort_by_keys l1 l2 : l1 ≡ₚ l2 → NoDup l2.*1 → StronglySorted id_leb l2 → sort_by id_leb l1 = l2.
Proof.
  intros Hp Hnd Hs. eapply (StronglySorted_unique_strong id_leb); [|apply id_sorted|done|].
  - intros a b Ha Hb Hab Hba. eapply keys_unique; [done| |done|].
    + by rewrite sort_by_perm, Hp in Ha.
    + unfold id_leb, text_leb in *. apply Is_true_true in Hab, Hba. bools.
      by apply text_ltb_antisym.
  - by rewrite sort_by_perm.
Qed.
End Keys.

Section Theorems.
Context `{Unicode} `{AddressLib} `{MessageCapture}.
Implicit Types s : gmail_store.

(** C32: From an empty database every sequence of account, selector, validation and
    recovery transactions keeps the store well formed: at most one account is active,
    an account has at most as many selectors as allowed and none twice for a label,
    validations belong to the current revision of their selectors, and every saved
    recovery is decoded without an error. *)
Theorem gmail_store_sound c s : gmail_reachable c s →
  gmail_inv s ∧ ∀ acc, ∃ o, gmail_recovery_state acc s = Ret o.
Proof.
  intros Hinv%gmail_reachable_inv. split; [done|]. intros acc. unfold gmail_recovery_state.
  destruct (g_recovery s !! acc) as [r|] eqn:E; [|by eexists].
  destruct (gi_recovery _ Hinv _ _ E) as (_ & state & ->). by eexists.
Qed.

(** ** Validations *)

Definition put_row acc identity rev (v : selector_validation) : text * validation_row :=
  (v.(sv_selector_id), mk_validation acc identity rev v.(sv_label_id) v.(sv_status) v.(sv_display_name)).

Lemma filter_perm {A} (f : A → bool) l1 l2 : l1 ≡ₚ l2 → List.filter f l1 ≡ₚ List.filter f l2.
Proof.
  induction 1 as [|x l1 l2 _ IH|x y l|l1 l2 l3 _ IH1 _ IH2]; simpl; [done| | |by etrans].
  - case_match; by rewrite ?IH.
  - repeat case_match; done || apply Permutation_swap.
Qed.

Lemma filter_none {A} (f : A → bool) l : (∀ x, x ∈ l → f x = false) → List.filter f l = [].
Proof.
  induction l as [|x l IH]; simpl; intros Hf; [done|]. rewrite (Hf x) by (by left).
  apply IH. intros y Hy. apply Hf. by right.
Qed.

Lemma fold_put_perm acc identity rev (f : text * validation_row → bool) vs m :
  NoDup (sv_selector_id <$> vs) → (∀ v, v ∈ vs → m !! v.(sv_selector_id) = None) →
  (∀ v, v ∈ vs → f (put_row acc identity rev v) = true) →
  List.filter f (map_to_list (fold_left (put_validation acc identity rev) vs m))
    ≡ₚ List.filter f (map_to_list m) ++ (put_row acc identity rev <$> vs).
Proof.
  revert m. induction vs as [|v vs IH]; simpl; intros m Hnd Hm Hf; [by rewrite app_nil_r|].
  apply list.NoDup_cons in Hnd as [Hv Hnd]. rewrite IH; [|done|..].
  - unfold put_validation. rewrite (filter_perm f _ _ (map_to_list_insert (M := gmap text) m _ _ (Hm v ltac:(by left)))).
    pose proof (Hf v ltac:(by left)) as Hfv. unfold put_row in Hfv. simpl. rewrite Hfv. simpl.
    apply Permutation_middle.
  - intros w Hw. unfold put_validation. rewrite lookup_insert_ne; [apply Hm; by right|].
    intros E. apply Hv. rewrite E. by apply list_elem_of_fmap_2.
  - intros w Hw. apply Hf. by right.
Qed.

Lemma selectors_of_keys acc identity s : NoDup (selectors_of acc identity s).*1.
Proof.
  unfold selectors_of. rewrite sort_by_perm. pose proof (NoDup_fst_map_to_list (g_selectors s)) as Hnd.
  induction (map_to_list (g_selectors s)) as [|x l IH]; simpl in *; [done|].
  apply list.NoDup_cons in Hnd as [Hx Hnd]. destruct (_ && _); simpl; [|by apply IH].
  constructor; [|by apply IH]. intros (y & E & Hy)%list_elem_of_fmap. apply Hx.
  apply elem_of_filter_b in Hy as [Hy _]. rewrite E. by apply list_elem_of_fmap_2.
Qed.

Lemma validated_ids labels previous l :
  sv_selector_id <$> (validate_selector labels previous <$> l) = l.*1.
Proof. rewrite <- list_fmap_compose. apply list_fmap_ext. intros _ e _. apply validate_selector_keys. Qed.

(** The validations of a fresh catalogue, as they are read. *)
Lemma validations_read acc identity rev vs s m :
  NoDup (sv_selector_id <$> vs) → StronglySorted id_leb (put_row acc identity rev <$> vs) →
  (∀ v, v ∈ vs → m !! v.(sv_selector_id) = None) →
  (∀ i v, m !! i = Some v → v.(va_account_id) ≠ acc) →
  s.(g_validations) = fold_left (put_validation acc identity rev) vs m →
  validations_of acc identity rev s = vs.
Proof.
  intros Hnd Hs Hfresh Hother E. unfold validations_of. rewrite E.
  rewrite (sort_by_keys _ (put_row acc identity rev <$> vs)).
  - rewrite <- list_fmap_compose. rewrite <- (list_fmap_id vs) at 2. apply list_fmap_ext.
    intros _ [] _. done.
  - rewrite fold_put_perm; [|done|done|].
    + rewrite filter_none; [done|]. intros [i v] Hi%elem_of_map_to_list. simpl.
      by rewrite bool_decide_eq_false_2 by (by eapply Hother).
    + intros v _. simpl. rewrite !bool_decide_eq_true_2, Z.eqb_refl by done. done.
  - rewrite <- list_fmap_compose. erewrite list_fmap_ext; [exact Hnd|]. done.
  - done.
Qed.

Lemma sorted_validations acc identity rev labels previous l :
  StronglySorted id_leb l →
  StronglySorted id_leb (put_row acc identity rev <$> (validate_selector labels previous <$> l)).
Proof.
  induction 1 as [|x l Hs IH Hx]; simpl; constructor; [done|].
  rewrite !Forall_fmap. eapply list.Forall_impl; [done|]. intros y Hy. unfold id_leb, compose in *. simpl.
  rewrite (proj1 (validate_selector_keys labels previous x)).
  by rewrite (proj1 (validate_selector_keys labels previous y)).
Qed.

Lemma snapshot_read acc identity rev stamp set s :
  identity_key_ok identity = true → 0 <= rev <= SQLITE_MAX_INTEGER →
  s.(g_validation_sets) !! acc = Some (mk_validation_set identity rev stamp CatalogCurrent) →
  s.(g_selector_sets) !! acc = Some set → set.(ss_identity) = identity → set.(ss_revision) = rev →
  account_identity acc s = Some identity →
  (fun v => (v.(sv_selector_id), v.(sv_label_id))) <$> validations_of acc identity rev s =
    (fun e : text * selector_row => (e.1, e.2.(sl_label_id))) <$> selectors_of acc identity s →
  gmail_label_validation_snapshot acc identity rev s =
    Ret (Some (mk_snapshot acc identity rev stamp CatalogCurrent (validations_of acc identity rev s))).
Proof.
  intros Hkey Hrev Hv Hs Hid Hr Hacc Hsame.
  unfold gmail_label_validation_snapshot, _require_mailbox_identity_key, _require_revision.
  rewrite Hkey, (proj2 (Z.leb_le 0 rev)), (proj2 (Z.leb_le rev _)) by lia.
  cbn [mbind py_bind andb]. rewrite Hv, Hs, Hacc. cbn [vs_identity vs_revision vs_validated_at vs_catalog sql_eq].
  rewrite Hid, Hr, !bool_decide_eq_true_2, Z.eqb_refl by done. done.
Qed.

Lemma snapshot_none acc identity rev s :
  identity_key_ok identity = true → 0 <= rev <= SQLITE_MAX_INTEGER →
  s.(g_validation_sets) !! acc = None → gmail_label_validation_snapshot acc identity rev s = Ret None.
Proof.
  intros Hkey Hrev Hv.
  unfold gmail_label_validation_snapshot, _require_mailbox_identity_key, _require_revision.
  rewrite Hkey, (proj2 (Z.leb_le 0 rev)), (proj2 (Z.leb_le rev _)) by lia.
  cbn [mbind py_bind andb]. by rewrite Hv.
Qed.

Lemma add_selector_validation acc identity label display exp now fresh s out s' :
  add_gmail_label_selector acc identity label display exp now fresh s = Ret (out, s') →
  s'.(g_validation_sets) !! acc = None.
Proof. unfold add_gmail_label_selector. intros Hr. peel. simplify_eq. apply lookup_delete_eq. Qed.

Lemma remove_selector_validation acc identity sid exp now s out s' :
  remove_gmail_label_selector acc identity sid exp now s = Ret (out, s') →
  s'.(g_validation_sets) !! acc = None.
Proof. unfold remove_gmail_label_selector. intros Hr. peel. simplify_eq. apply lookup_delete_eq. Qed.

(** A catalogue that is recorded is what the next read of the same revision
    returns, one verdict per selector: active under the name of the catalogue, deleted
    or not a user label.  Adding or removing any selector withdraws it: no revision
    has a snapshot until the catalogue is read again. *)
Theorem validation_read_your_write acc identity expected catalog now s snap s' :
  persist_gmail_label_validation acc identity expected catalog now s = Ret (snap, s') →
  gmail_label_validation_snapshot acc identity expected s' = Ret (Some snap) ∧
  sv_selector_id <$> snap.(gv_selectors) = (selectors_of acc identity s).*1 ∧
  (∀ label display exp now' fresh out s'',
    add_gmail_label_selector acc identity label display exp now' fresh s' = Ret (out, s'') →
    ∀ rev, 0 <= rev <= SQLITE_MAX_INTEGER →
      gmail_label_validation_snapshot acc identity rev s'' = Ret None) ∧
  (∀ sid exp now' out s'',
    remove_gmail_label_selector acc identity sid exp now' s' = Ret (out, s'') →
    ∀ rev, 0 <= rev <= SQLITE_MAX_INTEGER →
      gmail_label_validation_snapshot acc identity rev s'' = Ret None).
Proof.
  unfold persist_gmail_label_validation. intros Hr.
  apply bind_ret_inv in Hr as (i & Hi & Hr). apply identity_key_inv in Hi as [-> Hkey].
  apply bind_ret_inv in Hr as (e & He & Hr). apply revision_inv in He as [-> Hexp].
  apply bind_ret_inv in Hr as (labels & _ & Hr).
  apply bind_ret_inv in Hr as (s1 & Hb & Hr). apply begin_validation_inv in Hb as ((set & Eset & Eid & Erev) & Hacc & ->).
  apply bind_ret_inv in Hr as (u & Hfresh & Hr). apply require_ret_inv in Hfresh. injection Hr as <- <-.
  set (vs := validate_selector _ _ <$> _) in *. set (s1 := set_validations _ _ _).
  assert (validations_of acc identity expected s1 = vs) as Hread.
  { eapply validations_read; [| | | |done].
    - unfold vs. rewrite validated_ids. apply selectors_of_keys.
    - apply sorted_validations, id_sorted.
    - intros v Hv. rewrite forallb_elem in Hfresh. specialize (Hfresh _ Hv).
      by destruct (g_validations (_delete_gmail_label_validation acc s) !! _) eqn:E.
    - by intros j v [_ Hne]%map_lookup_filter_Some. }
  split_and!.
  - rewrite <- Hread. eapply snapshot_read; try done; [apply lookup_insert_eq|].
    rewrite Hread. unfold vs. rewrite <- list_fmap_compose. apply list_fmap_ext.
    intros _ e _. unfold compose. simpl.
    by destruct (validate_selector_keys labels (previous_name acc identity s) e) as [-> ->].
  - simpl. unfold vs. apply validated_ids.
  - intros label display exp now' fresh out s'' Ha rev Hrev. by eapply snapshot_none, add_selector_validation.
  - intros sid exp now' out s'' Ha rev Hrev. by eapply snapshot_none, remove_selector_validation.
Qed.

(** ** The life of a recovery *)

(** What a step does to the recovery table. *)
Inductive recovery_effect s s' : Prop :=
| effect_none : s'.(g_recovery) = s.(g_recovery) → recovery_effect s s'
| effect_write acc identity state state' c :
    recovery_write acc identity s s' state state' c → recovery_effect s s'
| effect_create acc state :
    s.(g_recovery) !! acc = None → s'.(g_recovery) = <[acc := state.(gr_row)]> s.(g_recovery) →
    state.(gr_row).(rv_page_loaded) = false → state.(gr_row).(rv_page_count) = 0 →
    state.(gr_row).(rv_terminal_count) = 0 → recovery_effect s s'
| effect_complete acc identity now cursor :
    complete_gmail_recovery acc identity now s = Ret (cursor, s') → recovery_effect s s'
| effect_replace acc identity set :
    s.(g_selector_sets) !! acc = Some set → set.(ss_identity) ≠ identity →
    s'.(g_recovery) = delete acc s.(g_recovery) → account_identity acc s' = Some identity →
    recovery_effect s s'.

Lemma reconcile_effect provider acc identity legacy preserve now s row s' :
  reconcile_mailbox_identity provider acc identity legacy preserve now s = Ret (row, s') →
  recovery_effect s s'.
Proof.
  unfold reconcile_mailbox_identity. intros Hr.
  apply bind_ret_inv in Hr as (k & Hk & Hr). apply identity_key_inv in Hk as [-> _].
  apply bind_ret_inv in Hr as (a & Hacc & Hr).
  destruct (match ac_identity a with Some _ => _ | None => _ end) as [status legacy_key].
  set (row' := mk_account _ _ _ _ _ _ _ _) in Hr. set (s1 := set_accounts _ s) in Hr.
  apply bind_ret_inv in Hr as (s3 & H3 & Hr).
  match type of H3 with context [if ?b then set_mailbox_state ?x ?y else ?z] =>
    set (s2 := if b then set_mailbox_state x y else z) in * end.
  assert (s2.(g_recovery) = s.(g_recovery) ∧ s2.(g_selector_sets) = s.(g_selector_sets) ∧
    s2.(g_accounts) = s1.(g_accounts)) as (E1 & E2 & E3) by (unfold s2; by destruct (negb _ && negb preserve)).
  assert (s3.(g_recovery) = s.(g_recovery) ∧ s3.(g_selector_sets) = s.(g_selector_sets) ∧
    s3.(g_accounts) = s1.(g_accounts)) as (F1 & F2 & F3).
  { destruct (is_none _ && _); [|by injection H3 as <-]. apply bind_ret_inv in H3 as (c & _ & H3).
    by injection H3 as <-. }
  apply bind_ret_inv in Hr as (s4 & H4 & Hr). injection Hr as _ <-.
  case_bool_decide as Hp; [|injection H4 as <-; by apply effect_none]. subst provider.
  unfold reconcile_gmail_selector_set in H4. destruct (g_selector_sets s3 !! acc) as [set|] eqn:Eset.
  - case_bool_decide as Hid; [injection H4 as <-; by apply effect_none|].
    apply bind_ret_inv in H4 as (u & _ & H4). injection H4 as <-.
    eapply (effect_replace _ _ acc identity set); [congruence|done|simpl; by rewrite F1|].
    unfold account_identity. simpl. rewrite F3. simpl. by rewrite lookup_insert_eq.
  - apply bind_ret_inv in H4 as (u & _ & H4). injection H4 as <-. by apply effect_none.
Qed.

Lemma gmail_step_effect s s' : gmail_step s s' → recovery_effect s s'.
Proof.
  intros Hst. destruct Hst as
    [? ? ? ? active ? ? ? Hr|? ? ? ? ? ? ? Hr|? ? ? ? ? Hr|? ? ? ? ? ? ? ? Hr|? ? ? ? ? ? ? ? ? Hr|? ? ? ? ? ? ? Hr
    |? ? ? ? ? ? ? Hr|? ? ? ? ? ? Hr|? ? ? ? ? Hr|? ? ? ? ? ? ? ? ? ? ? ? ? Hr Hcut|? ? ? ? ? ? ? Hr|? ? ? ? ? Hr
    |? ? ? ? ? ? ? ? Hr|? ? ? ? ? ? Hr|? ? ? ? ? Hr|? ? ? ? ? ? Hr|? ? ? ? ? ? ? Hr|].
  - unfold register_mail_account in Hr. peel. simplify_eq. apply effect_none. simpl. by destruct active.
  - unfold update_mail_account_identity in Hr. peel. simplify_eq. by apply effect_none.
  - unfold activate_mail_account in Hr. peel. simplify_eq. by apply effect_none.
  - by eapply reconcile_effect.
  - unfold add_gmail_label_selector in Hr. peel. simplify_eq. by apply effect_none.
  - unfold remove_gmail_label_selector in Hr. peel. simplify_eq. by apply effect_none.
  - unfold persist_gmail_label_validation, begin_validation in Hr. peel. simplify_eq. by apply effect_none.
  - unfold persist_gmail_label_invalid_catalog, begin_validation in Hr. peel. simplify_eq. by apply effect_none.
  - unfold invalidate_gmail_label_validation in Hr. apply bind_ret_inv in Hr as (i & _ & Hr).
    apply bind_ret_inv in Hr as (e & _ & Hr). repeat case_match; simplify_eq; by apply effect_none.
  - apply create_recovery_inv in Hr as (state & _ & -> & _ & _ & Hn & Hrest); [|done].
    destruct_and?. by eapply effect_create.
  - apply store_page_write in Hr as (? & ? & Hw & _). by eapply effect_write.
  - apply finish_page_write in Hr as (state & _ & _ & [(_ & -> & _)|(_ & _ & state' & Hw & _)]);
      [by apply effect_none|by eapply effect_write].
  - apply backoff_write in Hr as (? & ? & Hw & _). by eapply effect_write.
  - apply invalid_token_write in Hr as (? & ? & Hw & _). by eapply effect_write.
  - apply clear_write in Hr as (? & ? & Hw & _). by eapply effect_write.
  - apply restart_write in Hr as (? & ? & Hw & _). by eapply effect_write.
  - apply finish_candidate_write in Hr as (? & ? & ? & Hw & _). by eapply effect_write.
  - by eapply effect_complete.
Qed.

(** A saved recovery ended because every candidate of its last page was finished. *)
Definition recovery_finished (acc : text) (r : recovery_row) s' : Prop :=
  (∃ state, _gmail_recovery_state r = Ret state ∧ drained state = true) ∧ r.(rv_page_token) = None ∧
  s'.(g_mailbox_state) !! (gmail, acc) = Some (r.(rv_cursor), r.(rv_created_at)).

(** The account has moved to an identity other than that of its selectors. *)
Definition identity_replaced (acc : text) s s' : Prop :=
  ∃ set identity, s.(g_selector_sets) !! acc = Some set ∧ set.(ss_identity) ≠ identity ∧
    account_identity acc s' = Some identity.

Lemma complete_finished acc identity now s cursor s' :
  complete_gmail_recovery acc identity now s = Ret (cursor, s') →
  ∃ r, s.(g_recovery) !! acc = Some r ∧ cursor = r.(rv_cursor) ∧ r.(rv_identity) = identity ∧
    s'.(g_recovery) = delete acc s.(g_recovery) ∧ recovery_finished acc r s'.
Proof.
  intros (state & d & Hst & Hd & Ht & -> & _ & ->)%complete_recovery_inv. simpl.
  apply require_recovery_inv in Hst as (Hrow & Hs & Hid & _). exists state.(gr_row).
  split_and!; try done. split_and!; [by exists state|done|]. simpl. apply lookup_insert_eq.
Qed.

Lemma recovery_step_kept s s' acc r : gmail_step s s' → s.(g_recovery) !! acc = Some r →
  (∃ r', s'.(g_recovery) !! acc = Some r' ∧ frozen r r') ∨
  (s'.(g_recovery) !! acc = None ∧ (recovery_finished acc r s' ∨ identity_replaced acc s s')).
Proof.
  intros [E|a i state state' c Hw|a state Hn E _ _ _|a i now cursor Hc|a i set Hset Hne E Hacc]%gmail_step_effect Hr.
  - left. exists r. rewrite E. split; [done|apply frozen_refl].
  - left. destruct Hw as [Hrow _ _ _ Hfz _ _ _ _ ->]. simpl.
    destruct (decide (a = acc)) as [->|Hne].
    + rewrite lookup_insert_eq. eexists. split; [done|]. congruence.
    + rewrite lookup_insert_ne by done. exists r. split; [done|apply frozen_refl].
  - left. rewrite E, lookup_insert_ne by congruence. exists r. split; [done|apply frozen_refl].
  - apply complete_finished in Hc as (r0 & Hrow & _ & _ & -> & Hfin).
    destruct (decide (a = acc)) as [->|Hne].
    + right. rewrite lookup_delete_eq. split; [done|]. left. congruence.
    + left. rewrite lookup_delete_ne by done. exists r. split; [done|apply frozen_refl].
  - rewrite E. destruct (decide (a = acc)) as [->|Hne'].
    + right. rewrite lookup_delete_eq. split; [done|]. right. by exists set, i.
    + left. rewrite lookup_delete_ne by done. exists r. split; [done|apply frozen_refl].
Qed.

(** Steps during which the recovery of [acc] stays saved. *)
Definition recovering (acc : text) s s' : Prop := gmail_step s s' ∧ is_Some (s'.(g_recovery) !! acc).

Lemma recovering_frozen acc s s' r : rtc (recovering acc) s s' → s.(g_recovery) !! acc = Some r →
  ∃ r', s'.(g_recovery) !! acc = Some r' ∧ frozen r r'.
Proof.
  intros Hr. revert r. induction Hr as [s|s s1 s' [Hst [r1 Hr1]] _ IH]; intros r Hs.
  - exists r. split; [done|apply frozen_refl].
  - destruct (recovery_step_kept _ _ _ _ Hst Hs) as [(r1' & E & Hf)|[E _]]; [|congruence].
    destruct (IH _ E) as (r' & E' & Hf'). exists r'. split; [done|by eapply frozen_trans].
Qed.

(** C14: A recovery hands over the history cursor it was created with, and no other:
    whatever transactions run while it is saved, its identity, frozen senders and
    selectors, window, cutoff and cursor never change and its counters never fall.  It
    ends only when the last page is drained and no page follows, when its cursor
    becomes the cursor of the mailbox, or because the identity of the account was
    replaced. *)
Theorem recovery_cursor_safe acc identity rev senders selectors after before cursor cutoff scope now
    s0 out s1 s2 :
  create_gmail_recovery_state acc identity rev senders selectors after before cursor cutoff scope now s0
    = Ret (out, s1) → cutoff_ok cutoff → rtc (recovering acc) s1 s2 →
  ∃ r, s2.(g_recovery) !! acc = Some r ∧ r.(rv_identity) = identity ∧ r.(rv_cursor) = cursor ∧
    r.(rv_after) = after ∧ r.(rv_before) = before ∧
    (∃ l, decode_gmail_sender_snapshot r.(rv_sender_json) = Ret l ∧ l ≡ₚ senders) ∧
    (∃ l, decode_gmail_selector_snapshot r.(rv_selector_json) = Ret l ∧ l ≡ₚ selectors) ∧
    (∀ s3, gmail_step s2 s3 → s3.(g_recovery) !! acc = None →
      recovery_finished acc r s3 ∨ identity_replaced acc s2 s3) ∧
    (∀ identity' now' cursor' s3, complete_gmail_recovery acc identity' now' s2 = Ret (cursor', s3) →
      cursor' = cursor ∧ identity' = identity ∧ recovery_finished acc r s3).
Proof.
  intros Hc Hcut Hsteps.
  apply create_recovery_inv in Hc as (state & _ & -> & _ & Hst & _ & _ & _ & Hid & Hcur & Haf & Hbe & Hse & Hsl & _);
    [|done].
  apply (recovering_frozen acc _ _ state.(gr_row)) in Hsteps as (r & Hr & Hf);
    [|simpl; apply lookup_insert_eq].
  pose proof (recovery_state_inv _ _ Hst) as (_ & _ & Ds & Dl & _).
  destruct Hf as [F1 F2 F3 F4 F5 F6 F7 F8 F9 _ _ _].
  exists r. rewrite F1, F3, F4, F5, F6, F8. split_and!; try done; [by eexists|by eexists| |].
  - intros s3 Hs3 Hnone. destruct (recovery_step_kept _ _ _ _ Hs3 Hr) as [(r' & E & _)|[_ Hend]]; [congruence|done].
  - intros identity' now' cursor' s3 Hc.
    apply complete_finished in Hc as (r0 & Hrow & -> & Hi & _ & Hfin).
    rewrite Hr in Hrow. injection Hrow as <-. split_and!; [congruence|congruence|done].
Qed.

(** ** Admission *)

Lemma read_senders_ok seen items l : read_senders seen items = Ret l →
  ∀ e, e ∈ l → normalize_validated_address e.1 = Some e.1.
Proof.
  revert seen l. induction items as [|j items IH]; simpl; intros seen l Hr e He;
    [injection Hr as <-; by apply elem_of_nil in He|].
  destruct (read_sender j) as [e0|]; [|done]. destruct (sender_ok seen e0) eqn:Hok; [|done].
  apply bind_ret_inv in Hr as (rest & Hrest & Hr). injection Hr as <-.
  apply elem_of_cons in He as [->|He]; [|by eapply IH].
  unfold sender_ok in Hok. by bools.
Qed.

Lemma decoded_senders_ok raw l : decode_gmail_sender_snapshot raw = Ret l →
  ∀ e, e ∈ l → normalize_validated_address e.1 = Some e.1.
Proof.
  unfold decode_gmail_sender_snapshot. case_match; [done|]. intros Hr.
  apply bind_ret_inv in Hr as (j & _ & Hr). destruct j; try done. peel. simplify_eq. by eapply read_senders_ok.
Qed.

Lemma read_selectors_nodup seen items l : read_selectors seen items = Ret l →
  NoDup (gs_selector_id <$> l) ∧ ∀ f, f ∈ l → f.(gs_selector_id) ∉ seen.
Proof.
  revert seen l. induction items as [|j items IH]; simpl; intros seen l Hr.
  { injection Hr as <-. split; [constructor|by intros f ?%elem_of_nil]. }
  destruct j as [| | | | | |m]; try done. destruct (negb _); [done|].
  destruct (str_of _) as [sid|]; [|done]. destruct (str_of _) as [lid|]; [|done].
  destruct (str_of _) as [name|]; [|done]. destruct (_ && _) eqn:Hok; [|done]. bools.
  apply bind_ret_inv in Hr as (rest & Hrest & Hr). injection Hr as <-.
  apply IH in Hrest as [Hnd Hin]. split; simpl.
  - constructor; [|done]. intros (f & E & Hf)%list_elem_of_fmap. apply (Hin f Hf). rewrite <- E. by left.
  - intros f [->|Hf]%elem_of_cons; [done|]. intros Hs. apply (Hin f Hf). by right.
Qed.

Lemma decoded_selectors_unique raw l f g : decode_gmail_selector_snapshot raw = Ret l →
  f ∈ l → g ∈ l → f.(gs_selector_id) = g.(gs_selector_id) → f = g.
Proof.
  unfold decode_gmail_selector_snapshot. case_match; [done|]. intros Hr Hf Hg E.
  apply bind_ret_inv in Hr as (j & _ & Hr). destruct j; try done. case_match; [done|].
  peel. simplify_eq. match goal with Hs : read_selectors _ _ = _ |- _ => apply read_selectors_nodup in Hs as [Hnd _] end.
  apply list_elem_of_lookup in Hf as [i Hi], Hg as [k Hk].
  assert (i = k) as ->; [|congruence].
  eapply (NoDup_lookup _ i k (gs_selector_id f) Hnd); rewrite list_lookup_fmap; [by rewrite Hi|].
  rewrite Hk. simpl. by rewrite E.
Qed.

Lemma starts_with_inv value prefix : starts_with value prefix = true →
  value = prefix ++ drop (length prefix) value.
Proof.
  revert value. induction prefix as [|p prefix IH]; intros [|v value]; simpl; try done.
  intros Hs. bools. subst v. f_equal. by apply IH.
Qed.

Lemma find_elem {A} (f : A → bool) l x : List.find f l = Some x → x ∈ l ∧ f x = true.
Proof. intros Hf. apply List.find_some in Hf as [Hin Hf]. split; [by apply list_elem_of_In|done]. Qed.

(** An admission rests on a sender or a label the recovery froze. *)
Definition sender_grant (state : GmailRecoveryState) (a : AdmissionProvenance) : Prop :=
  ∃ e, e ∈ state.(gr_senders) ∧ a.(ap_selector_id) = EXACT_SENDER_SELECTOR_PREFIX ++ e.1 ∧
    e.2 = a.(ap_display_name).

(** The frozen label is still granted and carried by the message. *)
Definition label_live (acc identity : text) (labels : list text) (f : GmailLabelSelectorSnapshot) s : Prop :=
  f.(gs_label_id) ∈ labels ∧ grant_current acc identity s f = true.

Definition label_grant (acc identity : text) (state : GmailRecoveryState) (a : AdmissionProvenance)
    (labels : list text) s : Prop :=
  ∃ f, f ∈ state.(gr_selectors) ∧ f.(gs_selector_id) = a.(ap_selector_id) ∧
    Some f.(gs_display_name) = a.(ap_display_name) ∧ label_live acc identity labels f s ∧
    ∀ g, g ∈ state.(gr_selectors) → label_live acc identity labels g s →
      text_leb f.(gs_selector_id) g.(gs_selector_id) = true.

Lemma matching_elem acc identity fr labels s i : i ∈ matching_ids acc identity fr labels s ↔
  ∃ f, f ∈ fr ∧ f.(gs_selector_id) = i ∧ label_live acc identity labels f s.
Proof.
  unfold matching_ids, label_live, grant_current. rewrite list_elem_of_fmap. split.
  - intros ([j l] & -> & Hin). apply elem_of_filter_b in Hin as [Hin Hm]. simpl in *.
    apply andb_true_iff in Hm as [Hex Hlab]. apply existsb_exists_elem in Hex as (f & Hf & Hx). bools.
    apply selectors_of_elem in Hin as (Hl & Ha & Hi). exists f. split_and!; try done; [congruence|].
    match goal with E : gs_selector_id f = j |- _ => rewrite E end. rewrite Hl.
    by rewrite !bool_decide_eq_true_2 by congruence.
  - intros (f & Hf & <- & Hlab & Hg). destruct (g_selectors s !! gs_selector_id f) as [l|] eqn:El; [|done].
    bools. exists (f.(gs_selector_id), l). split; [done|]. apply elem_of_filter_b.
    split; [by apply selectors_of_elem|]. simpl. rewrite andb_true_iff. split.
    + apply existsb_exists_elem. exists f. split; [done|]. by rewrite !bool_decide_eq_true_2 by congruence.
    + apply bool_decide_eq_true_2. congruence.
Qed.

Lemma matching_head acc identity fr labels s i j : winning_id (matching_ids acc identity fr labels s) = Some i →
  j ∈ matching_ids acc identity fr labels s → text_leb i j = true.
Proof.
  unfold matching_ids, winning_id.
  assert (∀ (f : text * selector_row → bool) l, StronglySorted id_leb l →
    head (List.filter f l).*1 = Some i → j ∈ (List.filter f l).*1 → text_leb i j = true) as Hgen.
  { intros f l. induction 1 as [|x l Hs IH Hx]; simpl; [done|]. destruct (f x); [|done].
    simpl. intros [= <-]. rewrite elem_of_cons. intros [->|Hj].
    - unfold text_leb. apply negb_true_iff. destruct (text_ltb _ _) eqn:E; [|done].
      pose proof (text_ltb_asym _ _ E). congruence.
    - apply list_elem_of_fmap in Hj as (y & -> & Hy). apply elem_of_filter_b in Hy as [Hy _].
      rewrite list.Forall_forall in Hx. apply Is_true_true. by apply Hx. }
  apply Hgen, id_sorted.
Qed.

Lemma admission_granted_inv acc identity state a labels s :
  _gmail_recovery_state state.(gr_row) = Ret state →
  _validate_admission_provenance a identity = Ret tt →
  admission_granted acc identity state a labels s = true →
  match a.(ap_kind) with
  | GmailUserLabel => label_grant acc identity state a labels s
  | ExactSender => sender_grant state a
  | ThreadAdmission _ => False
  end.
Proof.
  intros Hst Hv Hg. apply recovery_state_inv in Hst as (_ & _ & Hs & Hl & _).
  assert (ap_kind a ≠ GmailUserLabel → sender_grant state a) as Hsend.
  { intros Hk. unfold admission_granted in Hg. destruct (ap_kind a) eqn:Ek; [|done|].
    all: destruct (List.find _ _) as [e|] eqn:Ef; [|done]; bools.
    all: apply find_elem in Ef as [He Ha]; bools; exists e; split; [done|]; split; [|done].
    all: pose proof (decoded_senders_ok _ _ Hs _ He) as Hn;
      apply normalize_validated_address_shape in Hn as (x & y & E & _).
    all: destruct (starts_with _ _) eqn:Hp in Ha; [|rewrite Ha in E; by destruct x].
    all: rewrite Ha; by apply starts_with_inv. }
  destruct (ap_kind a) eqn:Ek; [by apply Hsend| |].
  - unfold admission_granted in Hg. rewrite Ek in Hg.
    destruct (List.find _ _) as [f|] eqn:Ef; [|done]. bools. apply find_elem in Ef as [Hf Hid]. bools.
    exists f. split_and!; try done.
    + assert (gs_selector_id f ∈ matching_ids acc identity (gr_selectors state) labels s) as Hm.
      { rewrite Hid. unfold winning_id in *. by apply head_Some_elem_of. }
      apply matching_elem in Hm as (f' & Hf' & E & Hlive).
      by rewrite <- (decoded_selectors_unique _ _ _ _ Hl Hf' Hf E).
    + intros g Hgin Hlive. rewrite Hid. eapply matching_head; [done|]. apply matching_elem. eauto.
  - destruct (Hsend ltac:(done)) as (e & _ & E & _). unfold _validate_admission_provenance in Hv.
    apply bind_ret_inv in Hv as (? & _ & Hv). apply bind_ret_inv in Hv as (? & _ & Hv).
    apply bind_ret_inv in Hv as (? & Hc & _). unfold selector_id_check in Hc. rewrite Ek in Hc.
    apply require_ret_inv in Hc. apply andb_true_iff in Hc as [Hc _]. rewrite E in Hc. by destruct k.
Qed.

(** A message is admitted by a recovery only as the next candidate of the loaded
    page, in the order of the page, and only on a grant the recovery froze: an exact
    sender of its snapshot under the name of the snapshot, or a label of its snapshot
    that is still granted to the account and carried by the message, the least such
    selector.  Vendor and thread admissions are refused.  The index and the counter of
    finished candidates advance by one with the capture of the message. *)
Theorem recovery_admission_granted acc identity id m a labels now s b s' :
  finish_gmail_recovery_candidate acc identity id (Some (m, a, labels)) now s = Ret (b, s') →
  ∃ state state' c, recovery_write acc identity s s' state state' c ∧
    insert_message acc id identity m a (isoformat (utc now)) s.(g_captured) = Ret (b, c) ∧
    state.(gr_page_ids) !! Z.to_nat state.(gr_row).(rv_next_index) = Some id ∧
    state'.(gr_page_ids) = state.(gr_page_ids) ∧
    state'.(gr_row).(rv_next_index) = state.(gr_row).(rv_next_index) + 1 ∧
    state'.(gr_row).(rv_terminal_count) = state.(gr_row).(rv_terminal_count) + 1 ∧
    match a.(ap_kind) with
    | GmailUserLabel => label_grant acc identity state a labels s
    | ExactSender => sender_grant state a
    | ThreadAdmission _ => False
    end.
Proof.
  intros (state & state' & c & Hw & (_ & Hv & Hg & Hins) & Hrest)%finish_candidate_write.
  exists state, state', c. destruct_and?. split_and!; try done.
  eapply admission_granted_inv; [apply (rw_state _ _ _ _ _ _ _ Hw)|done|done].
Qed.

End Theorems.

(** * A recovery reaches its end

    The loop of a recovery over the pages a provider lists: each page is stored, its
    candidates are finished in order, and after the last page the recovery completes. *)

Lemma page_ids_bounded seen ids : page_ids_ok seen ids = true →
  ∀ i, i ∈ ids → bounded_text MAX_GMAIL_LABEL_ID_BYTES i = true.
Proof.
  revert seen. induction ids as [|i ids IH]; simpl; intros seen Hok j Hj; [by apply elem_of_nil in Hj|].
  bools. apply elem_of_cons in Hj as [->|Hj]; [done|]. by eapply IH.
Qed.

Lemma page_encoded ids raw : encode_gmail_recovery_page ids = Ret raw →
  byte_count raw <= 524288 ∧ (length ids <= 200)%nat ∧ ∀ i, i ∈ ids → bounded_text MAX_GMAIL_LABEL_ID_BYTES i = true.
Proof.
  unfold encode_gmail_recovery_page. case_match eqn:Hg; [done|]. intros He. peel. simplify_eq.
  apply orb_false_elim in Hg as [Hlen Hids]. apply Nat.ltb_ge in Hlen. apply negb_false_iff in Hids.
  unfold MAX_GMAIL_RECOVERY_PAGE_JSON_BYTES, MAX_GMAIL_RECOVERY_PAGE_IDS in *. split_and!; [lia|lia|].
  by eapply page_ids_bounded.
Qed.

(** The constraints of a row after an update of its page and retry columns. *)
Lemma row_ok_update r r' : recovery_row_ok r = true → frozen r r' →
  match r'.(rv_page_token) with
  | Some t => within_utf8_bytes t MAX_GMAIL_RECOVERY_PAGE_TOKEN_BYTES
  | None => true
  end = true →
  byte_count r'.(rv_page_json) <= 524288 → 0 <= r'.(rv_next_index) <= 200 →
  0 <= r'.(rv_retry_count) <= 31 → recovery_row_ok r' = true.
Proof.
  intros Hok [F1 F2 F3 F4 F5 F6 F7 F8 F9 F10 F11 F12] Ht Hp Hi Hr. unfold recovery_row_ok in *.
  rewrite F2, F3, F4, F5, F6, F7, F8, Ht. rewrite !andb_true_iff in Hok |- *. destruct_and! Hok.
  split_and!; done || lia.
Qed.

Section Run.
Context `{Unicode} `{AddressLib} `{MessageCapture}.
Implicit Types s : gmail_store.
Context (acc identity : text) (now : Z).

(** A page that can be stored. *)
Definition page_ok (ids : list text) : Prop := is_ret (encode_gmail_recovery_page ids) = true.

Definition token_ok (t : text) : Prop := bounded_text MAX_GMAIL_RECOVERY_PAGE_TOKEN_BYTES t = true.

(** A listing that ends: every page but the last is followed by another. *)
Fixpoint listing (pages : list (list text * option text)) : Prop :=
  match pages with
  | [] => False
  | [(ids, token)] => page_ok ids ∧ token = None
  | (ids, token) :: pages' => page_ok ids ∧ (∃ t, token = Some t ∧ token_ok t) ∧ listing pages'
  end.

Definition candidates (pages : list (list text * option text)) : Z :=
  Z.of_nat (length (concat pages.*1)).

(** ** One operation at a time *)

Definition saved s (state : GmailRecoveryState) : Prop :=
  _require_current_gmail_recovery acc identity s = Ret state ∧ recovery_row_ok state.(gr_row) = true ∧
  identity_key_ok identity = true.

(** What no paging operation changes. *)
Record same_scope s s' : Prop := {
  sc_accounts : s'.(g_accounts) = s.(g_accounts);
  sc_sets : s'.(g_selector_sets) = s.(g_selector_sets);
  sc_selectors : s'.(g_selectors) = s.(g_selectors);
  sc_reconcile : s'.(g_reconcile) = s.(g_reconcile);
  sc_mailbox : s'.(g_mailbox_state) = s.(g_mailbox_state) }.

Lemma same_scope_refl s : same_scope s s.
Proof. by split. Qed.

Lemma same_scope_trans s1 s2 s3 : same_scope s1 s2 → same_scope s2 s3 → same_scope s1 s3.
Proof. intros [] []. split; congruence. Qed.

Lemma write_scope s s' state state' c :
  recovery_write acc identity s s' state state' c → same_scope s s'.
Proof. intros []. by subst s'. Qed.

Lemma write_from s s' state0 state state' c :
  recovery_write acc identity s s' state0 state' c → saved s state → state0 = state.
Proof.
  intros [Hrow Hst _ _ _ _ _ _ _ _] ((Hrow' & Hst' & _)%require_recovery_inv & _ & _). congruence.
Qed.

Lemma write_saved s s' state state' c :
  recovery_write acc identity s s' state state' c → saved s state → saved s' state'.
Proof.
  intros [Hrow Hst Hid Hact Hfz _ _ Hok Hst' ->] (Hreq & _ & Hkey). split_and!; try done.
  unfold _require_current_gmail_recovery in *.
  apply bind_ret_inv in Hreq as (set & Hset & _).
  change (_require_current_gmail_selector_set acc identity
    (set_captured c (set_recovery (<[acc:=gr_row state']> (g_recovery s)) s)))
    with (_require_current_gmail_selector_set acc identity s).
  rewrite Hset. cbn [mbind py_bind]. simpl. rewrite lookup_insert_eq. cbn [mbind py_bind require_some].
  rewrite Hst'. cbn [mbind py_bind]. rewrite (fz_identity _ _ Hfz), bool_decide_eq_true_2 by done.
  cbn [mbind py_bind require]. unfold account_active in *. simpl. by rewrite Hact.
Qed.

Lemma key_ret : identity_key_ok identity = true → _require_mailbox_identity_key identity = Ret identity.
Proof. intros Hk. unfold _require_mailbox_identity_key. by rewrite Hk. Qed.

Lemma store_page_ret ids token s state raw :
  saved s state → state.(gr_row).(rv_page_loaded) = false →
  encode_gmail_recovery_page ids = Ret raw → (∀ t, token = Some t → token_ok t) →
  state.(gr_row).(rv_page_count) < SQLITE_MAX_INTEGER →
  ∃ r, store_gmail_recovery_page acc identity ids token now s = Ret r.
Proof.
  intros (Hreq & Hok & Hkey) Hload Henc Htok Hcount. unfold store_gmail_recovery_page.
  rewrite key_ret by done. cbn [mbind py_bind]. rewrite Henc. cbn [mbind py_bind].
  destruct (page_encoded _ _ Henc) as (Hb & _ & _).
  assert ((match token with Some t => _ ← _require_bounded_text (JStr t) MAX_GMAIL_RECOVERY_PAGE_TOKEN_BYTES
    "gmail recovery page token is invalid"; Ret tt | None => Ret tt end) = Ret tt) as ->.
  { destruct token as [t|]; [|done]. unfold _require_bounded_text. by rewrite (Htok t). }
  cbn [mbind py_bind]. rewrite Hreq. cbn [mbind py_bind]. rewrite Hload.
  rewrite (proj2 (Z.eqb_neq _ _)) by lia. cbn [mbind py_bind require negb].
  set (row := touched _ _). assert (recovery_row_ok row = true) as Hrow.
  { apply (row_ok_update state.(gr_row)); simpl; try done; try lia; [split; simpl; done || lia|].
    destruct token as [t|]; [|done]. specialize (Htok t eq_refl). unfold token_ok, bounded_text in Htok. by bools. }
  unfold update_recovery. rewrite Hrow. by eexists.
Qed.

Lemma finish_page_ret s state : saved s state → drained state = true →
  ∃ r, finish_gmail_recovery_page acc identity now s = Ret r.
Proof.
  intros (Hreq & Hok & Hkey) Hd. unfold finish_gmail_recovery_page.
  rewrite key_ret by done. cbn [mbind py_bind]. rewrite Hreq. cbn [mbind py_bind]. rewrite Hd.
  cbn [mbind py_bind require]. destruct (rv_page_token (gr_row state)) as [t|] eqn:Et; [|by eexists].
  set (row := touched _ _). assert (recovery_row_ok row = true) as Hrow.
  { apply (row_ok_update state.(gr_row)); simpl; try done; try lia.
    all: unfold recovery_row_ok in Hok; rewrite Et in Hok; rewrite !andb_true_iff in Hok; destruct_and! Hok; done || lia. }
  unfold update_recovery. rewrite Hrow. by eexists.
Qed.

(** Progress from [state] to [state']: the scope, the frozen columns and the snapshots
    are the same; [pages] pages were loaded and [n] candidates finished. *)
Record advanced s s' (state state' : GmailRecoveryState) (pages n : Z) : Prop := {
  av_saved : saved s' state';
  av_scope : same_scope s s';
  av_frozen : frozen state.(gr_row) state'.(gr_row);
  av_senders : state'.(gr_senders) = state.(gr_senders);
  av_selectors : state'.(gr_selectors) = state.(gr_selectors);
  av_pages : state'.(gr_row).(rv_page_count) = state.(gr_row).(rv_page_count) + pages;
  av_terminal : state'.(gr_row).(rv_terminal_count) = state.(gr_row).(rv_terminal_count) + n }.

Lemma advanced_trans s1 s2 s3 st1 st2 st3 p n p' n' :
  advanced s1 s2 st1 st2 p n → advanced s2 s3 st2 st3 p' n' → advanced s1 s3 st1 st3 (p + p') (n + n').
Proof.
  intros [? Hsc Hf Hs Hl Hp Hn] [? Hsc' Hf' Hs' Hl' Hp' Hn'].
  split; try done; [by eapply same_scope_trans|by eapply frozen_trans|congruence|congruence|lia|lia].
Qed.

Lemma write_advanced s s' state state' c p n :
  saved s state → recovery_write acc identity s s' state state' c →
  state'.(gr_row).(rv_page_count) = state.(gr_row).(rv_page_count) + p →
  state'.(gr_row).(rv_terminal_count) = state.(gr_row).(rv_terminal_count) + n →
  advanced s s' state state' p n.
Proof.
  intros Hs Hw Hp Hn. split; try done; [by eapply write_saved|by eapply write_scope|..]; by destruct Hw.
Qed.

Lemma advanced_refl s state : saved s state → advanced s s state state 0 0.
Proof. intros Hs. split; try done; lia. Qed.

(** ** A page *)

(** A page is stored unless it is the one that is loaded. *)
Definition load_page (ids : list text) (token : option text) s : py gmail_store :=
  if match s.(g_recovery) !! acc with Some r => r.(rv_page_loaded) | None => false end then Ret s
  else '(_, s) ← store_gmail_recovery_page acc identity ids token now s; Ret s.

(** The recovery stands before the first candidate of [pages]: no page is loaded, or the
    first page is what is left of the loaded one. *)
Definition stands_at (state : GmailRecoveryState) (pages : list (list text * option text)) : Prop :=
  state.(gr_row).(rv_page_loaded) = false ∧ listing pages ∨
  state.(gr_row).(rv_page_loaded) = true ∧ ∃ pages',
    pages = (drop (Z.to_nat state.(gr_row).(rv_next_index)) state.(gr_page_ids), state.(gr_row).(rv_page_token)) :: pages' ∧
    match state.(gr_row).(rv_page_token) with Some _ => listing pages' | None => pages' = [] end.

(** A page is loaded, or was. *)
Lemma load_outcome ids token pages s state : saved s state → stands_at state ((ids, token) :: pages) →
  state.(gr_row).(rv_page_count) < SQLITE_MAX_INTEGER →
  ∃ s1 state1 p, load_page ids token s = Ret s1 ∧ advanced s s1 state state1 p 0 ∧ 0 <= p <= 1 ∧
    state1.(gr_row).(rv_page_loaded) = true ∧ state1.(gr_row).(rv_page_token) = token ∧
    drop (Z.to_nat state1.(gr_row).(rv_next_index)) state1.(gr_page_ids) = ids ∧
    s1.(g_captured) = s.(g_captured) ∧
    match token with Some _ => listing pages | None => pages = [] end.
Proof.
  intros Hs Hat Hpc. pose proof Hs as (Hreq & _ & _). pose proof (require_recovery_inv _ _ _ _ Hreq) as (Hrow & _ & _).
  unfold load_page. rewrite Hrow. destruct Hat as [[Hload Hl]|(Hload & pages' & [= -> -> ->] & Hl)]; rewrite Hload.
  - assert (page_ok ids ∧ (∀ t, token = Some t → token_ok t) ∧ match token with Some _ => listing pages | None => pages = [] end)
      as (Hpage & Htok & Hrest).
    { destruct pages as [|p pages]; simpl in Hl.
      - destruct Hl as [Hp ->]. by split_and!.
      - destruct Hl as (Hp & (t & -> & Ht) & Hr). split_and!; [done|by intros ? [= <-]|exact Hr]. }
    unfold page_ok in Hpage. destruct (encode_gmail_recovery_page ids) as [raw|] eqn:Henc; [|done].
    destruct (store_page_ret ids token s state raw Hs Hload Henc Htok Hpc) as [[out s1] Hst]. rewrite Hst.
    apply store_page_write in Hst as (st0 & st1 & Hw & _ & _ & Hl1 & Hx1 & Hi1 & Ht1 & Hp1 & Hn1).
    assert (st0 = state) as -> by (by eapply write_from).
    exists s1, st1, 1. split; [done|]. split; [eapply write_advanced; done || lia|]. split_and!; try done; [by rewrite Hi1, Hx1|].
    by rewrite (rw_store _ _ _ _ _ _ _ Hw).
  - exists s, state, 0. split; [done|]. split; [by apply advanced_refl|]. by split_and!.
Qed.

(** The page is left; the recovery goes on when a token follows. *)
Lemma leave_outcome s state : saved s state → drained state = true →
  ∃ s1 state1, advanced s s1 state state1 0 0 ∧ s1.(g_captured) = s.(g_captured) ∧
    match state.(gr_row).(rv_page_token) with
    | None => finish_gmail_recovery_page acc identity now s = Ret (true, s1) ∧
        drained state1 = true ∧ state1.(gr_row).(rv_page_token) = None
    | Some _ => finish_gmail_recovery_page acc identity now s = Ret (false, s1) ∧
        state1.(gr_row).(rv_page_loaded) = false
    end.
Proof.
  intros Hs Hd. destruct (finish_page_ret s state Hs Hd) as [[b s1] Hf]. rewrite Hf.
  apply finish_page_write in Hf as (st0 & Hst0 & _ & Hcase).
  assert (st0 = state) as -> by (destruct Hs; congruence).
  destruct Hcase as [(-> & -> & Ht)|(-> & [t Ht] & st1 & Hw & Hl1 & Ht1 & Hp1 & Hn1)].
  - exists s, state. split; [by apply advanced_refl|]. rewrite Ht. by split_and!.
  - exists s1, st1. split; [eapply write_advanced; done || lia|]. rewrite Ht.
    split_and!; try done. by rewrite (rw_store _ _ _ _ _ _ _ Hw).
Qed.

(** Completion hands the frozen cursor to the mailbox. *)
Lemma complete_returns s state : rec_reachable s.(g_reconcile) → observed s.(g_reconcile).(r_locations) → wall_ok now = true →
  saved s state → drained state = true → state.(gr_row).(rv_page_token) = None →
  ∃ s2, complete_gmail_recovery acc identity now s = Ret (state.(gr_row).(rv_cursor), s2) ∧
    gmail_recovery_state acc s2 = Ret None ∧
    s2.(g_mailbox_state) !! (gmail, acc) = Some (state.(gr_row).(rv_cursor), state.(gr_row).(rv_created_at)) ∧
    needs_discovery (gmail, acc, identity) s2.(g_reconcile) = true.
Proof.
  intros Hrec Hobs Hw (Hreq & Hok & Hkey) Hd Ht.
  destruct (gap_returns (gmail, acc, identity) now _ Hobs Hw) as [d Hgap].
  eexists. split; [|split_and!].
  - unfold complete_gmail_recovery. rewrite key_ret by done. cbn [mbind py_bind]. rewrite Hreq.
    cbn [mbind py_bind]. rewrite Hd, Ht. cbn [mbind py_bind require is_none andb]. simpl. by rewrite Hgap.
  - unfold gmail_recovery_state. simpl. by rewrite lookup_delete_eq.
  - simpl. apply lookup_insert_eq.
  - apply gap_spec in Hgap as (g & Hg & Hgen & Hcov & _). unfold needs_discovery. simpl.
    rewrite Hgen, lookup_insert_eq, Hcov. apply negb_true_iff, bool_decide_eq_false_2. intros E.
    destruct (r_coverage (g_reconcile s) !! _) as [c0|] eqn:Ec; [|done]. simpl in E. injection E as E.
    pose proof (rec_reachable_inv (gmail, acc, identity) _ Hrec) as [Hv _].
    destruct (Hv c0 Ec) as (g0 & Eg & Hle). rewrite Eg in Hg. simpl in Hg. lia.
Qed.

(** ** The loop *)

Context (adm : text → option admitted).

(** Every candidate of a page, in order; [adm] says which messages are admitted.  An
    operation that raises is rolled back and stops the loop. *)
Fixpoint drain_page (ids : list text) s : gmail_store * option exn :=
  match ids with
  | [] => (s, None)
  | id :: ids' =>
      match finish_gmail_recovery_candidate acc identity id (adm id) now s with
      | Ret (_, s) => drain_page ids' s
      | Raise e => (s, Some e)
      end
  end.

(** The pages of a listing with their continuation tokens, up to the last one; the first
    may be what is left of a page that was loaded before. *)
Fixpoint run_pages (pages : list (list text * option text)) s : gmail_store * option exn :=
  match pages with
  | [] => (s, None)
  | (ids, token) :: pages' =>
      match load_page ids token s with
      | Raise e => (s, Some e)
      | Ret s =>
          match drain_page ids s with
          | (s, Some e) => (s, Some e)
          | (s, None) =>
              match finish_gmail_recovery_page acc identity now s with
              | Raise e => (s, Some e)
              | Ret (true, s) => (s, None)
              | Ret (false, s) => run_pages pages' s
              end
          end
      end
  end.

(** The messages of the admitted candidates, captured in order. *)
Fixpoint capture_all (ids : list text) (c : captured) : py captured :=
  match ids with
  | [] => Ret c
  | id :: ids' =>
      match adm id with
      | Some (m, a, _) =>
          '(_, c) ← insert_message acc id identity m a (isoformat (utc now)) c; capture_all ids' c
      | None => capture_all ids' c
      end
  end.

(** Why a candidate cannot be finished: it is to be admitted, and it names no folder, its
    admission is malformed or no longer granted, or storing the message fails. *)
Definition refused s (state : GmailRecoveryState) (id : text) (e : exn) : Prop :=
  ∃ m a labels, adm id = Some (m, a, labels) ∧
    (m.(gm_locations) = [] ∧ e = ValueError "admitted recovery metadata must name an admitted folder" ∨
     _validate_admission_provenance a identity = Raise e ∨
     admission_granted acc identity state a labels s = false ∧
       e = GmailLabelStoreError "gmail_recovery_grant_revoked" ∨
     insert_message acc id identity m a (isoformat (utc now)) s.(g_captured) = Raise e).

Lemma candidate_outcome id s state :
  saved s state → state.(gr_row).(rv_page_loaded) = true →
  state.(gr_page_ids) !! Z.to_nat state.(gr_row).(rv_next_index) = Some id →
  state.(gr_row).(rv_terminal_count) < SQLITE_MAX_INTEGER →
  match finish_gmail_recovery_candidate acc identity id (adm id) now s with
  | Ret _ => True
  | Raise e => refused s state id e
  end.
Proof.
  intros (Hreq & Hok & Hkey) Hload Hid Hcount.
  pose proof (require_recovery_inv _ _ _ _ Hreq) as (_ & Hst & _).
  apply recovery_state_inv in Hst as (_ & Hd & _). apply page_roundtrip in Hd.
  destruct (page_encoded _ _ Hd) as (Hb & Hlen & Hids).
  unfold finish_gmail_recovery_candidate. rewrite key_ret by done. cbn [mbind py_bind].
  unfold _require_bounded_text. rewrite (Hids id) by (by eapply list_elem_of_lookup_2).
  cbn [mbind py_bind]. unfold refused.
  destruct (match adm id with Some (m, _, _) => truthy_list m.(gm_locations) | None => true end) eqn:El.
  2: { destruct (adm id) as [[[m a] labels]|] eqn:E; [|done]. cbn [mbind py_bind require]. exists m, a, labels. split; [done|].
       left. split; [by destruct (gm_locations m)|done]. }
  cbn [mbind py_bind require]. rewrite Hreq. cbn [mbind py_bind]. rewrite Hload, Hid, bool_decide_eq_true_2 by done.
  rewrite (proj2 (Z.eqb_neq _ _)) by lia. cbn [mbind py_bind require negb andb].
  set (row := touched _ _). assert (recovery_row_ok row = true) as Hrow.
  { apply lookup_lt_Some in Hid. pose proof Hok as Hok'. unfold recovery_row_ok in Hok'.
    rewrite !andb_true_iff in Hok'. destruct_and! Hok'.
    apply (row_ok_update state.(gr_row)); simpl; try done; try lia. split; simpl; done || lia. }
  destruct (adm id) as [[[m a] labels]|] eqn:E.
  - destruct (_validate_admission_provenance a identity) as [[]|e] eqn:Hv; cbn [mbind py_bind];
      [|exists m, a, labels; split; [done|tauto]].
    destruct (admission_granted acc identity state a labels s) eqn:Hg; [|exists m, a, labels; split; [done|tauto]].
    destruct (insert_message acc id identity m a (isoformat (utc now)) s.(g_captured)) as [[b c]|e] eqn:Hins;
      cbn [mbind py_bind]; [|exists m, a, labels; split; [done|tauto]].
    unfold update_recovery. by rewrite Hrow.
  - cbn [mbind py_bind]. unfold update_recovery. by rewrite Hrow.
Qed.

(** Where a run that stopped stands: the candidates before the one that is refused are
    finished, their admitted messages captured, and the rest of the listing is left. *)
Definition stopped_at s s' (state : GmailRecoveryState) (ids : list text) (e : exn) (id : text) (rest : list text) : Prop :=
  ∃ state' done, ids = (done ++ id :: rest)%list ∧ capture_all done s.(g_captured) = Ret s'.(g_captured) ∧
    refused s' state' id e ∧ state'.(gr_row).(rv_page_loaded) = true ∧
    state'.(gr_row).(rv_page_token) = state.(gr_row).(rv_page_token) ∧
    drop (Z.to_nat state'.(gr_row).(rv_next_index)) state'.(gr_page_ids) = id :: rest ∧
    advanced s s' state state' 0 (Z.of_nat (length done)).

Lemma candidate_step id ids s state b s1 : saved s state → state.(gr_row).(rv_page_loaded) = true →
  drop (Z.to_nat state.(gr_row).(rv_next_index)) state.(gr_page_ids) = id :: ids →
  finish_gmail_recovery_candidate acc identity id (adm id) now s = Ret (b, s1) →
  ∃ state1, advanced s s1 state state1 0 1 ∧ state1.(gr_row).(rv_page_loaded) = true ∧
    drop (Z.to_nat state1.(gr_row).(rv_next_index)) state1.(gr_page_ids) = ids ∧
    state1.(gr_row).(rv_page_token) = state.(gr_row).(rv_page_token) ∧
    ∀ done, capture_all (id :: done) s.(g_captured) = capture_all done s1.(g_captured).
Proof.
  intros Hs Hload Hdrop Hc.
  apply finish_candidate_write in Hc as (st0 & st1 & c & Hw & Hcap & _ & Hl1 & _ & Hp1 & Ht1 & Hi1 & Hpc & Htc).
  assert (st0 = state) as -> by (by eapply write_from). exists st1.
  assert (0 <= rv_next_index (gr_row state)) as Hi0.
  { destruct Hs as (_ & Hok & _). unfold recovery_row_ok in Hok. rewrite !andb_true_iff in Hok. destruct_and! Hok. lia. }
  split_and!; [eapply write_advanced; done || lia|done| |done|].
  - rewrite Hp1, Hi1, Z2Nat.inj_add by lia. rewrite <- drop_drop, Hdrop. done.
  - intros done. pose proof (rw_store _ _ _ _ _ _ _ Hw) as ->. simpl. unfold candidate_captured in Hcap.
    destruct (adm id) as [[[m a] labels]|]; [|by destruct Hcap as [_ ->]].
    destruct Hcap as (_ & _ & _ & Hcap). by rewrite Hcap.
Qed.

Lemma drain_outcome ids s state : saved s state → state.(gr_row).(rv_page_loaded) = true →
  drop (Z.to_nat state.(gr_row).(rv_next_index)) state.(gr_page_ids) = ids →
  state.(gr_row).(rv_terminal_count) + Z.of_nat (length ids) <= SQLITE_MAX_INTEGER →
  match drain_page ids s with
  | (s', None) => ∃ state', advanced s s' state state' 0 (Z.of_nat (length ids)) ∧ drained state' = true ∧
      state'.(gr_row).(rv_page_token) = state.(gr_row).(rv_page_token) ∧
      capture_all ids s.(g_captured) = Ret s'.(g_captured)
  | (s', Some e) => ∃ id rest, stopped_at s s' state ids e id rest
  end.
Proof.
  revert s state. induction ids as [|id ids IH]; simpl; intros s state Hs Hload Hdrop Hcount.
  - exists state. split_and!; try done; [by apply advanced_refl|].
    destruct Hs as (Hreq & Hok & _). apply require_recovery_inv in Hreq as (_ & Hst & _).
    apply recovery_state_inv in Hst as (_ & _ & _ & _ & _ & _ & Hle).
    unfold recovery_row_ok in Hok. rewrite !andb_true_iff in Hok. destruct_and! Hok.
    pose proof (f_equal length Hdrop) as Hl. rewrite length_drop in Hl. simpl in Hl.
    unfold drained. rewrite Hload. simpl. lia.
  - assert (gr_page_ids state !! Z.to_nat (rv_next_index (gr_row state)) = Some id) as Hid.
    { pose proof (lookup_drop (gr_page_ids state) (Z.to_nat (rv_next_index (gr_row state))) 0) as Hl.
      rewrite Hdrop, Nat.add_0_r in Hl. by rewrite <- Hl. }
    pose proof (candidate_outcome id s state Hs Hload Hid ltac:(lia)) as Hout.
    destruct (finish_gmail_recovery_candidate _ _ _ _ _ _) as [[b s1]|e] eqn:Hc.
    2: { exists id, ids, state, []. split_and!; try done. by apply advanced_refl. }
    destruct (candidate_step id ids s state b s1 Hs Hload Hdrop Hc) as (st1 & Hav & Hl1 & Hd1 & Ht1 & Hcap).
    pose proof (IH s1 st1 (av_saved _ _ _ _ _ _ Hav) Hl1 Hd1) as Hrec.
    rewrite (av_terminal _ _ _ _ _ _ Hav) in Hrec. specialize (Hrec ltac:(lia)).
    destruct (drain_page ids s1) as [s' [e|]].
    + destruct Hrec as (id' & rest & state' & done & -> & Hdone & Href & Hl' & Ht' & Hd' & Hav').
      exists id', rest, state', (id :: done). split_and!; try done; [by rewrite Hcap|congruence|].
      replace (Z.of_nat (length (id :: done))) with (1 + Z.of_nat (length done)) by (simpl; lia).
      by apply (advanced_trans s s1 s' state st1 state' 0 1 0).
    + destruct Hrec as (state' & Hav' & Hd' & Ht' & Hc'). exists state'.
      split_and!; [|done|congruence|rewrite <- Hc'; apply (Hcap ids)].
      replace (Z.of_nat (S (length ids))) with (1 + Z.of_nat (length ids)) by lia.
      by apply (advanced_trans s s1 s' state st1 state' 0 1 0).
Qed.

Lemma capture_all_app l1 l2 c c1 : capture_all l1 c = Ret c1 → capture_all (l1 ++ l2) c = capture_all l2 c1.
Proof.
  revert c. induction l1 as [|id l1 IH]; simpl; intros c Hc; [by simplify_eq|].
  destruct (adm id) as [[[m a] labels]|]; [|by apply IH].
  apply bind_ret_inv in Hc as ([b c'] & -> & Hc). simpl. by apply IH.
Qed.

Lemma candidates_cons ids token pages : candidates ((ids, token) :: pages) = Z.of_nat (length ids) + candidates pages.
Proof. unfold candidates. rewrite fmap_cons. cbn [concat fst]. by rewrite length_app, Nat2Z.inj_add. Qed.

(** How a run over [pages] ends. *)
Definition run_outcome s (state : GmailRecoveryState) (pages : list (list text * option text)) (r : gmail_store * option exn)
    : Prop :=
  match r with
  | (s', None) => ∃ state' p, advanced s s' state state' p (candidates pages) ∧ drained state' = true ∧
      state'.(gr_row).(rv_page_token) = None ∧ capture_all (concat pages.*1) s.(g_captured) = Ret s'.(g_captured)
  | (s', Some e) => ∃ state' p done id ids token pages',
      concat pages.*1 = (done ++ id :: ids ++ concat pages'.*1)%list ∧
      advanced s s' state state' p (Z.of_nat (length done)) ∧ stands_at state' ((id :: ids, token) :: pages') ∧
      capture_all done s.(g_captured) = Ret s'.(g_captured) ∧ refused s' state' id e
  end.

Lemma run_pages_outcome pages s state : saved s state → stands_at state pages →
  state.(gr_row).(rv_page_count) + Z.of_nat (length pages) <= SQLITE_MAX_INTEGER →
  state.(gr_row).(rv_terminal_count) + candidates pages <= SQLITE_MAX_INTEGER →
  run_outcome s state pages (run_pages pages s).
Proof.
  revert s state. induction pages as [|[ids token] pages IH]; intros s state Hs Hat Hpc Htc.
  { by destruct Hat as [[_ []]|(_ & ? & [=] & _)]. }
  simpl in Hpc. rewrite candidates_cons in Htc.
  assert (0 <= candidates pages) as Hnn by apply Nat2Z.is_nonneg.
  destruct (load_outcome ids token pages s state Hs Hat ltac:(lia)) as (s1 & st1 & p & Hload & Hav1 & Hp & Hl1 & Ht1 & Hd1 & Hc1 & Hrest).
  cbn [run_pages]. rewrite Hload.
  pose proof (drain_outcome ids s1 st1 (av_saved _ _ _ _ _ _ Hav1) Hl1 Hd1) as Hdr.
  rewrite (av_terminal _ _ _ _ _ _ Hav1) in Hdr. specialize (Hdr ltac:(lia)).
  destruct (drain_page ids s1) as [s2 [e|]].
  { destruct Hdr as (id & rest & st2 & done & -> & Hcap & Href & Hl2 & Ht2 & Hd2 & Hav2).
    exists st2, (p + 0), done, id, rest, token, pages. cbn [fmap list_fmap concat fst].
    rewrite <- app_assoc, <- Hc1. split_and!; try done.
    - by apply (advanced_trans s s1 s2 state st1 st2 p 0 0).
    - right. split; [done|]. exists pages. rewrite Ht2, Ht1, Hd2. done. }
  destruct Hdr as (st2 & Hav2 & Hd2 & Ht2 & Hcap). rewrite Hc1 in Hcap.
  destruct (leave_outcome s2 st2 (av_saved _ _ _ _ _ _ Hav2) Hd2) as (s3 & st3 & Hav3 & Hc3 & Hleave). rewrite Ht2, Ht1 in Hleave.
  assert (advanced s s3 state st3 p (Z.of_nat (length ids))) as Hav.
  { pose proof (advanced_trans _ _ _ _ _ _ _ _ _ _ (advanced_trans _ _ _ _ _ _ _ _ _ _ Hav1 Hav2) Hav3) as Hav.
    by rewrite !Z.add_0_r, Z.add_0_l in Hav. }
  destruct token as [t|].
  - destruct Hleave as [-> Hl3]. pose proof (IH s3 st3 (av_saved _ _ _ _ _ _ Hav)) as Hrec.
    rewrite (av_pages _ _ _ _ _ _ Hav), (av_terminal _ _ _ _ _ _ Hav) in Hrec.
    specialize (Hrec ltac:(by left) ltac:(lia) ltac:(lia)). unfold run_outcome in *.
    destruct (run_pages pages s3) as [s' [e|]].
    + destruct Hrec as (st' & p' & done & id & ids' & tok & pages' & El & Hav' & Hst' & Hcap' & Href).
      exists st', (p + p'), (ids ++ done)%list, id, ids', tok, pages'. split_and!; try done.
      * cbn [fmap list_fmap concat fst]. rewrite El. by rewrite <- app_assoc.
      * rewrite length_app, Nat2Z.inj_add. by eapply advanced_trans.
      * rewrite (capture_all_app _ _ _ _ Hcap). by rewrite <- Hc3.
    + destruct Hrec as (st' & p' & Hav' & Hd' & Ht' & Hcap'). exists st', (p + p').
      rewrite candidates_cons. split_and!; try done; [by eapply advanced_trans|].
      cbn [fmap list_fmap concat fst]. rewrite (capture_all_app _ _ _ _ Hcap). by rewrite <- Hc3.
  - destruct Hleave as (-> & Hd3 & Ht3). subst pages. exists st3, p. rewrite candidates_cons. change (candidates []) with 0.
    rewrite Z.add_0_r. split_and!; try done. cbn [fmap list_fmap concat fst]. by rewrite app_nil_r, Hc3.
Qed.


End Run.
