(* ===== verification/GmailWitness.v ===== *)
(** * A concrete Gmail mailbox

    One account, one label, one recovery of two pages: the hypotheses of the theorems on
    the Gmail store hold on it. *)

From S2P Require Export GmailTheorems.
From stdpp Require Import options.

Local Open Scope Z_scope.

Module GmailDemo.

Import RuleDemo.
Local Existing Instance ascii_unicode.
Local Existing Instance plain_addresses.

(** The capture keeps the ids it was given. *)
Definition id_capture : MessageCapture := {|
  captured := list text;
  insert_message := fun _ id _ _ _ _ c => Ret (negb (bool_decide (id ∈ c)), id :: c);
  bind_pending_legacy_identity := fun _ _ _ c => Ret c |}.
Local Existing Instance id_capture.

Definition me : text := str "me".
Definition mailbox : text := Eval vm_compute in Sha256.hexdigest (str "mailbox").
Definition other : text := Eval vm_compute in Sha256.hexdigest (str "other mailbox").
Definition label : text := str "Label_7".
Definition sid : text := str "7c9e6679-7425-40de-944b-e07fc1f90ae7".
Definition sid2 : text := str "16fd2706-8baf-433b-82eb-8c7fada847da".
Definition noon : Z := EPOCH + 1780000000 * US.

Definition after {A} (m : py (A * gmail_store)) s : gmail_store :=
  match m with Ret (_, s') => s' | Raise _ => s end.

Lemma gmail_returned {A} (m : py (A * gmail_store)) s : is_ret m = true → ∃ a, m = Ret (a, after m s).
Proof. destruct m as [[a s']|e]; [eauto|done]. Qed.

Definition s0 : gmail_store := empty_gmail (H := id_capture) [].
Abbreviation registered := (register_mail_account gmail me (str "Me") (Some (str "me@example.com")) true noon s0).
Definition s1 := after registered s0.
Abbreviation identified := (reconcile_mailbox_identity gmail me mailbox None false noon s1).
Definition s2 := after identified s1.
Abbreviation added := (add_gmail_label_selector me mailbox label (str "Invoices") 0 noon sid s2).
Definition s3 := after added s2.
Definition catalog : list (text * text * option label_type) :=
  [(label, str "Bills", Some UserLabel); (str "INBOX", str "INBOX", Some SystemLabel)].
Abbreviation validated := (persist_gmail_label_validation me mailbox 1 catalog noon s3).
Definition s4 := after validated s3.
Definition senders : list sender_entry := [(str "pay@vendor.com", Some (str "Vendor"))].
Definition selectors : list GmailLabelSelectorSnapshot := [mk_selector_snapshot sid label (str "Invoices")].
Abbreviation created := (create_gmail_recovery_state me mailbox 1 senders selectors 1770000000 1780000000
  (str "90210") None (str "in:anywhere") noon s4).
Definition s5 := after created s4.

Definition message : GmailRecoveryMessage :=
  mk_recovery_message (str "m1") None (str "shop@example.com") None (str "Invoice 17")
    (str "2026-05-01T10:00:00+00:00") None [] [] [] [str "INBOX"] None true.
Definition provenance : AdmissionProvenance :=
  mk_provenance GmailUserLabel sid (Some (str "Invoices")) mailbox (str "2026-05-01T10:00:00+00:00").
Definition adm (id : text) : option admitted :=
  if bool_decide (id = str "m1") then Some (message, provenance, [label; str "INBOX"]) else None.
Definition adm_revoked (id : text) : option admitted :=
  if bool_decide (id = str "m1") then Some (message, provenance, []) else None.
Definition pages : list (list text * option text) :=
  [([str "m1"; str "m2"], Some (str "next")); ([str "m3"], None)].

Abbreviation stored := (store_gmail_recovery_page me mailbox [str "m1"; str "m2"] (Some (str "next")) noon s5).
Definition s6 := after stored s5.
Abbreviation candidate := (finish_gmail_recovery_candidate me mailbox (str "m1") (adm (str "m1")) noon s6).
Definition s7 := after candidate s6.

Lemma registered_ret : ∃ a, registered = Ret (a, s1).
Proof. apply gmail_returned. vm_compute. reflexivity. Qed.
Lemma identified_ret : ∃ a, identified = Ret (a, s2).
Proof. apply gmail_returned. vm_compute. reflexivity. Qed.
Lemma added_ret : ∃ a, added = Ret (a, s3).
Proof. apply gmail_returned. vm_compute. reflexivity. Qed.
Lemma validated_ret : ∃ a, validated = Ret (a, s4).
Proof. apply gmail_returned. vm_compute. reflexivity. Qed.
Lemma recovery_created_ret : ∃ a, created = Ret (a, s5).
Proof. apply gmail_returned. vm_compute. reflexivity. Qed.
Lemma stored_ret : ∃ a, stored = Ret (a, s6).
Proof. apply gmail_returned. vm_compute. reflexivity. Qed.
Lemma candidate_ret : ∃ a, candidate = Ret (a, s7).
Proof. apply gmail_returned. vm_compute. reflexivity. Qed.

Lemma s5_reachable : gmail_reachable (H1 := id_capture) [] s5.
Proof.
  destruct registered_ret, identified_ret, added_ret, validated_ret, recovery_created_ret.
  eapply rtc_l; [by eapply step_register|]. eapply rtc_l; [by eapply step_reconcile|].
  eapply rtc_l; [by eapply step_add|]. eapply rtc_l; [by eapply step_persist|].
  eapply rtc_l; [by eapply step_create|]. apply rtc_refl.
Qed.

(** The store after the creation of a recovery is reachable. *)
Lemma gmail_store_sound_witness :
  gmail_inv s5 ∧ ∀ acc, ∃ o, gmail_recovery_state acc s5 = Ret o.
Proof. apply (gmail_store_sound _ s5 s5_reachable). Defined.

(** The catalogue of the account is read back. *)
Lemma validation_read_your_write_witness :
  ∃ snap, validated = Ret (snap, s4) ∧ gmail_label_validation_snapshot me mailbox 1 s4 = Ret (Some snap).
Proof.
  destruct validated_ret as [snap E]. exists snap. split; [exact E|].
  destruct (validation_read_your_write _ _ _ _ _ _ _ _ E) as [Hr _]. exact Hr.
Defined.

(** A page and a candidate later the recovery still holds the cursor. *)
Lemma recovery_cursor_safe_witness :
  ∃ r, s7.(g_recovery) !! me = Some r ∧ r.(rv_cursor) = str "90210".
Proof.
  destruct recovery_created_ret as [out E].
  assert (rtc (recovering me) s5 s7) as Hsteps.
  { destruct stored_ret as [? E6], candidate_ret as [? E7].
    eapply rtc_l; [split; [by eapply step_store_page|vm_compute; by eexists]|].
    eapply rtc_l; [split; [by eapply step_candidate|vm_compute; by eexists]|]. apply rtc_refl. }
  destruct (recovery_cursor_safe _ _ _ _ _ _ _ _ _ _ _ _ _ _ _ E I Hsteps) as (r & Hr & _ & Hc & _).
  exists r. split; [exact Hr|exact Hc].
Defined.

(** The first message is admitted by its label. *)
Lemma recovery_admission_granted_witness :
  ∃ state, s6.(g_recovery) !! me = Some state.(gr_row) ∧
    label_grant me mailbox state provenance [label; str "INBOX"] s6.
Proof.
  destruct candidate_ret as [b E]. change (adm (str "m1")) with (Some (message, provenance, [label; str "INBOX"])) in E.
  destruct (recovery_admission_granted _ _ _ _ _ _ _ _ _ _ E) as (state & state' & c & Hw & _ & _ & _ & _ & _ & Hg).
  exists state. split; [exact (rw_row _ _ _ _ _ _ _ Hw)|exact Hg].
Defined.

Definition state5 : GmailRecoveryState :=
  match _require_current_gmail_recovery me mailbox s5 with
  | Ret st => st
  | Raise _ => mk_state (default (mk_recovery [] 0 [] [] 0 0 [] [] None [] false 0 0 0 0 0 Collecting None None [] [] [])
                           (s5.(g_recovery) !! me)) [] [] []
  end.

Lemma s5_saved : saved me mailbox s5 state5.
Proof. split_and!; vm_compute; reflexivity. Qed.

Lemma s5_reconcile : rec_reachable s5.(g_reconcile).
Proof.
  assert (s5.(g_reconcile) = empty_rdb) as -> by (vm_compute; reflexivity). apply rtc_refl.
Qed.

Lemma state5_fresh : state5.(gr_row).(rv_page_loaded) = false ∧
  state5.(gr_row).(rv_page_count) = 0 ∧ state5.(gr_row).(rv_terminal_count) = 0 ∧
  state5.(gr_row).(rv_cursor) = str "90210".
Proof. vm_compute. split_and!; reflexivity. Qed.

Lemma pages_listing : listing pages.
Proof.
  split; [vm_compute; reflexivity|]. split; [|split; vm_compute; reflexivity].
  exists (str "next"). split; [reflexivity|vm_compute; reflexivity].
Qed.

Lemma s5_observed : observed s5.(g_reconcile).(r_locations).
Proof. assert (s5.(g_reconcile).(r_locations) = mk_location_tables ∅ ∅ ∅) as -> by (vm_compute; reflexivity). apply observed_none. Qed.


End GmailDemo.
