(* ===== verification/ConnectCodec.v ===== *)
(** * Connect requests and results

    Models the Connect codec of [src/src/eom_email_watcher/db.py]: the output
    authority of a capability ([_canonical_connect_capability_produces] and its
    encoding), protocol-2 requests with their invocation fingerprint
    ([_decode_v2_request], [_canonical_v2_parameters], [_v2_invocation_fingerprint],
    [_validate_v2_request_record], [_lookup_invocation_fingerprint]) and protocol-2
    results ([_validate_generic_result], [_encode_generic_result],
    [_decode_generic_result], [_decode_generic_result_metadata]), with the Base64 of
    the library. *)

From S2P Require Export RuleStore GmailCodec RuleCodec.
From stdpp Require Import options.

Local Open Scope Z_scope.

Definition MAX_CONNECT_REQUEST_BYTES : Z := 128 * 1024.
Definition MAX_CONNECT_OUTPUT_BYTES : Z := 2 * 1024 * 1024.
Definition MAX_CONNECT_RESULT_BYTES : Z := 24 * 1024 * 1024.
Definition MAX_CONNECT_RESULT_METADATA_BYTES : Z := 64 * 1024.
Definition MAX_SAFE_INTEGER : Z := 9007199254740991.

Definition char_count (t : text) : Z := Z.of_nat (length t).

(** ** Base64 *)

Module Base64.

(** The character of a six-bit value. *)
Definition symbol (n : N) : N :=
  (if n <? 26 then 65 + n else if n <? 52 then 71 + n else if n <? 62 then n - 4
   else if n =? 62 then 43 else 47)%N.

Definition value (c : N) : option N :=
  (if (65 <=? c) && (c <=? 90) then Some (c - 65)
   else if (97 <=? c) && (c <=? 122) then Some (c - 71)
   else if (48 <=? c) && (c <=? 57) then Some (c + 4)
   else if c =? 43 then Some 62 else if c =? 47 then Some 63 else None)%N.

Definition pad : N := 61%N.

(** [base64.b64encode(payload).decode("ascii")] *)
Fixpoint b64encode (payload : bytes) : text :=
  match payload with
  | [] => []
  | [a] => [symbol (a / 4); symbol (a mod 4 * 16); pad; pad]%N
  | [a; b] => [symbol (a / 4); symbol (a mod 4 * 16 + b / 16); symbol (b mod 16 * 4); pad]%N
  | a :: b :: c :: payload' =>
      [symbol (a / 4); symbol (a mod 4 * 16 + b / 16); symbol (b mod 16 * 4 + c / 64);
       symbol (c mod 64)]%N ++ b64encode payload'
  end.

(** [base64.b64decode(data, validate=True)]: groups of four, the last one closed by its
    padding; padding after a complete group is tolerated. *)
Fixpoint b64decode (data : text) : option bytes :=
  match data with
  | [] => Some []
  | x :: y :: z :: w :: data' =>
      match value x, value y with
      | Some x, Some y =>
          if decide (z = pad) then
            if decide (w = pad ∧ data' = []) then Some [(x * 4 + y / 16)%N] else None
          else
            match value z with
            | None => None
            | Some z =>
                if decide (w = pad) then
                  if decide (data' = []) then Some [(x * 4 + y / 16)%N; (y mod 16 * 16 + z / 4)%N]
                  else None
                else
                  match value w with
                  | None => None
                  | Some w =>
                      let group := [(x * 4 + y / 16); (y mod 16 * 16 + z / 4); (z mod 4 * 64 + w)]%N in
                      if truthy data' && forallb (N.eqb pad) data' then Some group
                      else match b64decode data' with Some rest => Some (group ++ rest) | None => None end
                  end
            end
      | _, _ => None
      end
  | _ => None
  end.

End Base64.

(** ** Numbers of a decoded value *)

(** [int(f)] when [f.is_integer()] *)
Definition float_integer (f : float64) : option Z :=
  match f with
  | SpecFloat.S754_zero _ => Some 0
  | SpecFloat.S754_finite s m e =>
      let sign := if s then -1 else 1 in
      if 0 <=? e then Some (sign * Z.pos m * 2 ^ e)
      else if Z.pos m mod 2 ^ (- e) =? 0 then Some (sign * (Z.pos m / 2 ^ (- e))) else None
  | _ => None
  end.

(** [value == n] for an integer [n] *)
Definition equals_int (j : json) (n : Z) : bool :=
  match j with
  | JInt m => m =? n
  | JBool b => Z.b2z b =? n
  | JFloat f => bool_decide (float_integer f = Some n)
  | _ => false
  end.

Definition equals_str (j : json) (t : text) : bool :=
  match j with JStr t' => bool_decide (t' = t) | _ => false end.

Definition obj_of (j : option json) : option (list (text * json)) :=
  match j with Some (JObj m) => Some m | _ => None end.

Section Codec.
Context `{Unicode} `{ConnectLib}.

(** ** Capability output authority *)

Definition authority_invalid {A} : py A :=
  Raise (ValueError "Connect capability output authority is invalid").

Definition slash : N := 47%N.

Definition media_type_ok (t : text) : bool :=
  (0 <? char_count t) && (char_count t <=? 127) && bool_decide (t = uni_casefold t).

(** [_canonical_connect_capability_produces] on a list or a tuple; any other value is
    [None]. *)
Definition _canonical_connect_capability_produces (value : option (list json)) : py (list text) :=
  match value with
  | None => authority_invalid
  | Some items =>
      if negb ((1 <=? Z.of_nat (length items)) && (Z.of_nat (length items) <=? 16)) then authority_invalid
      else
        match mapM read_str items with
        | None => authority_invalid
        | Some types =>
            if forallb (fun t => media_type_ok t && bool_decide (length (List.filter (N.eqb slash) t) = 1%nat))
                 types
            then Ret (sort_by text_leb (remove_dups types)) else authority_invalid
        end
  end.

(** [_encode_connect_capability_produces] *)
Definition _encode_connect_capability_produces (value : option (list json)) : py text :=
  types ← _canonical_connect_capability_produces value; Ret (dumps false (JArr (JStr <$> types))).

Definition stored_authority_invalid {A} : py A :=
  Raise (RuntimeError "Stored Connect capability output authority is invalid").

(** [_decode_connect_capability_produces] *)
Definition _decode_connect_capability_produces (value : text) : py (list text) :=
  if bool_decide (value = str "[]") then Ret []
  else
    match JsonParse.loads value with
    | Raise _ => stored_authority_invalid
    | Ret decoded =>
        match _canonical_connect_capability_produces
                (match decoded with JArr l => Some l | _ => None end) with
        | Raise _ => stored_authority_invalid
        | Ret canonical =>
            encoded ← _encode_connect_capability_produces (Some (JStr <$> canonical));
            if bool_decide (encoded = value) then Ret canonical else stored_authority_invalid
        end
    end.

(** ** Requests *)

Definition request_invalid {A} : py A := Raise (ValueError "Connect v2 request provenance is invalid").
Definition request_bytes_invalid {A} : py A := Raise (ValueError "Connect v2 request bytes are invalid").

(** [_decode_v2_request] *)
Definition _decode_v2_request (request_json : bytes) : py (list (text * json)) :=
  if negb ((0 <? byte_count request_json) && (byte_count request_json <=? MAX_CONNECT_REQUEST_BYTES))
  then request_bytes_invalid
  else
    match JsonParse.loads_bytes request_json with
    | Raise (JSONDecodeError | UnicodeDecodeError) => request_bytes_invalid
    | Raise e => Raise e
    | Ret (JObj m) =>
        if has_exactly [str "protocol_version"; str "job_id"; str "capability"; str "inputs";
                        str "parameters"] m
        then Ret m else request_invalid
    | Ret _ => request_invalid
    end.

Definition safe_integer (z : Z) : bool := (- MAX_SAFE_INTEGER <=? z) && (z <=? MAX_SAFE_INTEGER).

(** One value of [_canonical_v2_parameters]. *)
Definition canonical_parameter (raw : json) : py parameter :=
  match raw with
  | JStr t => if char_count t <=? 1000 then Ret (PStr t) else request_invalid
  | JBool b => Ret (PBool b)
  | JInt z => if safe_integer z then Ret (PInt z) else request_invalid
  | JFloat f =>
      match float_integer f with
      | Some z => if safe_integer z then Ret (PInt z) else request_invalid
      | None => request_invalid
      end
  | _ => request_invalid
  end.

Fixpoint canonical_parameters (m : list (text * json)) : py (list (text * parameter)) :=
  match m with
  | [] => Ret []
  | (name, raw) :: m' =>
      _ ← require ((0 <? char_count name) && (char_count name <=? 100))
            (ValueError "Connect v2 request provenance is invalid");
      value ← canonical_parameter raw;
      rest ← canonical_parameters m';
      Ret ((name, value) :: rest)
  end.

(** [_canonical_v2_parameters] *)
Definition _canonical_v2_parameters (value : option json) : py (list (text * parameter)) :=
  match value with
  | Some (JObj m) => if 16 <? Z.of_nat (length m) then request_invalid else canonical_parameters m
  | _ => request_invalid
  end.

Definition parameter_json (p : parameter) : json :=
  match p with PStr t => JStr t | PInt z => JInt z | PBool b => JBool b end.

(** [capability == {"id": capability_id, "version": capability_version}] *)
Definition capability_is (j : option json) (capability_id capability_version : text) : bool :=
  match obj_of j with
  | Some m =>
      has_exactly [str "id"; str "version"] m &&
      match member (str "id") m, member (str "version") m with
      | Some i, Some v => equals_str i capability_id && equals_str v capability_version
      | _, _ => false
      end
  | None => false
  end.

Definition input_keys : list text :=
  [str "artifact_id"; str "media_type"; str "byte_size"; str "sha256"; str "display_name";
   str "source_app_id"].

(** The single input artifact of a request. *)
Definition single_input (request : list (text * json)) : option (list (text * json)) :=
  match member (str "inputs") request with
  | Some (JArr [JObj m]) => Some m
  | _ => None
  end.

Definition pick (k : text) (m : list (text * json)) : text * json := (k, default JNull (member k m)).

(** [_v2_invocation_fingerprint] *)
Definition _v2_invocation_fingerprint (request : list (text * json))
    (capability_id capability_version provider_app_id provider_app_version provider_instance_id : text)
    (required_manifest_features : json) : py text :=
  match single_input request with
  | None => request_invalid
  | Some input =>
      if negb (match member (str "protocol_version") request with
               | Some v => equals_int v 2 | None => false end &&
               capability_is (member (str "capability") request) capability_id capability_version &&
               has_exactly input_keys input)
      then request_invalid
      else
        parameters ← _canonical_v2_parameters (member (str "parameters") request);
        features ← validate_manifest_features required_manifest_features;
        let identity :=
          [(str "protocol_version", JInt 2);
           (str "provider", JObj [(str "app_id", JStr provider_app_id);
                                  (str "version", JStr provider_app_version);
                                  (str "instance_id", JStr provider_instance_id)]);
           pick (str "capability") request;
           (str "input", JObj [pick (str "media_type") input; pick (str "byte_size") input;
                               pick (str "sha256") input; pick (str "display_name") input;
                               pick (str "source_app_id") input]);
           (str "parameters", JObj (prod_map id parameter_json <$> parameters))] ++
          match features with
          | JArr (_ :: _) => [(str "required_manifest_features", features)]
          | _ => []
          end in
        encoded ← require_some (Utf8.encode (dumps true (JObj identity))) UnicodeEncodeError;
        Ret (Sha256.hexdigest encoded)
  end.

(** The input artifact a job is created for. *)
Record InputArtifact := mk_input {
  ia_artifact_id : text;
  ia_media_type : text;
  ia_byte_size : Z;
  ia_sha256 : text }.

(** [inputs[0] == {...}] *)
Definition input_is (input : list (text * json)) (a : InputArtifact) (display_name source_app_id : text)
    : bool :=
  has_exactly input_keys input &&
  equals_str (default JNull (member (str "artifact_id") input)) a.(ia_artifact_id) &&
  equals_str (default JNull (member (str "media_type") input)) a.(ia_media_type) &&
  equals_int (default JNull (member (str "byte_size") input)) a.(ia_byte_size) &&
  equals_str (default JNull (member (str "sha256") input)) a.(ia_sha256) &&
  equals_str (default JNull (member (str "display_name") input)) display_name &&
  equals_str (default JNull (member (str "source_app_id") input)) source_app_id.

(** [_validate_v2_request_record] *)
Definition _validate_v2_request_record (request_json : bytes) (job_id : text)
    (capability_id capability_version provider_app_id provider_app_version provider_instance_id : text)
    (a : InputArtifact) (display_name source_app_id : text) (required_manifest_features : json)
    : py text :=
  request ← _decode_v2_request request_json;
  if match member (str "job_id") request with Some j => equals_str j job_id | None => false end &&
     match single_input request with
     | Some input => input_is input a display_name source_app_id
     | None => false
     end
  then _v2_invocation_fingerprint request capability_id capability_version provider_app_id
         provider_app_version provider_instance_id required_manifest_features
  else request_invalid.

(** Neither [None] nor empty. *)
Definition present (o : option text) : option text :=
  match o with Some t => if truthy t then Some t else None | None => None end.

(** [_lookup_invocation_fingerprint] *)
Definition _lookup_invocation_fingerprint (protocol_version : Z) (capability_id capability_version : text)
    (provider_app_id provider_app_version provider_instance_id : option text)
    (request_json : option bytes) (required_manifest_features : json) : py text :=
  features ← validate_manifest_features required_manifest_features;
  if protocol_version =? 1 then
    _ ← require (match features with JArr (_ :: _) => false | _ => true end)
          (ValueError "Connect v1 lookup cannot use manifest features");
    _ ← require (is_none provider_app_version && is_none request_json)
          (ValueError "Connect v1 lookup cannot use v2 request identity");
    Ret (str "v1")
  else
    _ ← require (protocol_version =? 2) (ValueError "Connect protocol version is unsupported");
    match present provider_app_id, present provider_app_version, present provider_instance_id,
          request_json with
    | Some app_id, Some app_version, Some instance_id, Some raw =>
        request ← _decode_v2_request raw;
        _v2_invocation_fingerprint request capability_id capability_version app_id app_version
          instance_id features
    | _, _, _, _ => Raise (ValueError "Connect v2 lookup identity is incomplete")
    end.

(** ** Results *)

Record ConnectOutput := mk_output {
  co_artifact_id : text;
  co_media_type : text;
  co_display_name : text;
  co_byte_size : Z;
  co_sha256 : text;
  co_payload : bytes }.

(** [ConnectOutput.metadata] *)
Definition metadata (o : ConnectOutput) : list (text * json) :=
  [(str "artifact_id", JStr o.(co_artifact_id)); (str "media_type", JStr o.(co_media_type));
   (str "display_name", JStr o.(co_display_name)); (str "byte_size", JInt o.(co_byte_size));
   (str "sha256", JStr o.(co_sha256))].

Definition result_invalid {A} : py A := Raise (ValueError "Completed Connect v2 result is invalid").

(** The descriptor columns shared by results and their metadata. *)
Definition descriptor (artifact_ids : list text) (m : list (text * json))
    : option (text * text * text * Z * text) :=
  match str_of (member (str "artifact_id") m), str_of (member (str "media_type") m),
        str_of (member (str "display_name") m), member (str "byte_size") m,
        str_of (member (str "sha256") m) with
  | Some artifact_id, Some media_type, Some display_name, Some (JInt byte_size), Some sha256 =>
      if uuid4_text artifact_id && negb (bool_decide (artifact_id ∈ artifact_ids)) &&
         media_type_ok media_type && (0 <? char_count display_name) && (char_count display_name <=? 255) &&
         (0 <=? byte_size) && (byte_size <=? MAX_CONNECT_OUTPUT_BYTES) && identity_key_ok sha256
      then Some (artifact_id, media_type, display_name, byte_size, sha256) else None
  | _, _, _, _, _ => None
  end.

Definition metadata_keys : list text :=
  [str "artifact_id"; str "media_type"; str "display_name"; str "byte_size"; str "sha256"].

Fixpoint read_outputs (artifact_ids : list text) (raw_outputs : list json) : py (list ConnectOutput) :=
  match raw_outputs with
  | [] => Ret []
  | JObj m :: raw_outputs' =>
      if negb (has_exactly (metadata_keys ++ [str "payload_base64"]) m) then result_invalid
      else
        match descriptor artifact_ids m, str_of (member (str "payload_base64") m) with
        | Some (artifact_id, media_type, display_name, byte_size, sha256), Some payload_base64 =>
            match Base64.b64decode payload_base64 with
            | None => result_invalid
            | Some payload =>
                _ ← require (bool_decide (Base64.b64encode payload = payload_base64) &&
                             (byte_count payload =? byte_size) &&
                             bool_decide (Sha256.hexdigest payload = sha256))
                      (ValueError "Completed Connect v2 result failed integrity validation");
                rest ← read_outputs (artifact_id :: artifact_ids) raw_outputs';
                Ret (mk_output artifact_id media_type display_name byte_size sha256 payload :: rest)
            end
        | _, _ => result_invalid
        end
  | _ :: _ => result_invalid
  end.

(** The list under the single member [outputs], with one to eight elements. *)
Definition outputs_of (value : json) : option (list json) :=
  match value with
  | JObj m =>
      if has_exactly [str "outputs"] m then
        match member (str "outputs") m with
        | Some (JArr l) =>
            if (1 <=? Z.of_nat (length l)) && (Z.of_nat (length l) <=? 8) then Some l else None
        | _ => None
        end
      else None
  | _ => None
  end.

(** [_validate_generic_result] *)
Definition _validate_generic_result (value : json) : py (list ConnectOutput) :=
  match outputs_of value with Some l => read_outputs [] l | None => result_invalid end.

Definition result_json (outputs : list ConnectOutput) : json :=
  JObj [(str "outputs",
         JArr ((fun o => JObj (metadata o ++ [(str "payload_base64", JStr (Base64.b64encode o.(co_payload)))]))
                 <$> outputs))].

Definition result_metadata_json (outputs : list ConnectOutput) : json :=
  JObj [(str "outputs", JArr ((fun o => JObj (metadata o)) <$> outputs))].

(** [_encode_generic_result] *)
Definition _encode_generic_result (result : json) : py (bytes * bytes) :=
  outputs ← _validate_generic_result result;
  encoded ← require_some (Utf8.encode (dumps false (result_json outputs))) UnicodeEncodeError;
  _ ← require (byte_count encoded <=? MAX_CONNECT_RESULT_BYTES)
        (ValueError "Completed Connect v2 result is too large");
  encoded_metadata ← require_some (Utf8.encode (dumps false (result_metadata_json outputs)))
                       UnicodeEncodeError;
  _ ← require (byte_count encoded_metadata <=? MAX_CONNECT_RESULT_METADATA_BYTES)
        (ValueError "Completed Connect v2 result metadata is too large");
  Ret (encoded, encoded_metadata).

(** [_decode_generic_result] *)
Definition _decode_generic_result (result_json : bytes) : py (list ConnectOutput) :=
  if negb ((0 <? byte_count result_json) && (byte_count result_json <=? MAX_CONNECT_RESULT_BYTES))
  then Raise (RuntimeError "Completed Connect v2 result is invalid")
  else
    match value ← JsonParse.loads_bytes result_json; _validate_generic_result value with
    | Ret outputs => Ret outputs
    | Raise _ => Raise (RuntimeError "Completed Connect v2 result is invalid")
    end.

Definition metadata_invalid {A} : py A :=
  Raise (RuntimeError "Completed Connect v2 result metadata is invalid").

Fixpoint metadata_ok (artifact_ids : list text) (outputs : list json) : bool :=
  match outputs with
  | [] => true
  | JObj m :: outputs' =>
      has_exactly metadata_keys m &&
      match descriptor artifact_ids m with
      | Some (artifact_id, _, _, _, _) => metadata_ok (artifact_id :: artifact_ids) outputs'
      | None => false
      end
  | _ :: _ => false
  end.

(** [_decode_generic_result_metadata] *)
Definition _decode_generic_result_metadata (result_metadata_json : bytes) : py (list json) :=
  if negb ((0 <? byte_count result_metadata_json) &&
           (byte_count result_metadata_json <=? MAX_CONNECT_RESULT_METADATA_BYTES))
  then metadata_invalid
  else
    match JsonParse.loads_bytes result_metadata_json with
    | Raise (JSONDecodeError | UnicodeDecodeError) => metadata_invalid
    | Raise e => Raise e
    | Ret value =>
        match outputs_of value with
        | Some l => if metadata_ok [] l then Ret l else metadata_invalid
        | None => metadata_invalid
        end
    end.

End Codec.

(** * Connect results are read back

    Base64 and the stored form of a protocol-2 result are decoded to the outputs that
    were encoded. *)

(** ** Base64 *)

Module Base64Facts.
Import Base64.

Lemma value_symbol n : (n < 64)%N → value (symbol n) = Some n ∧ symbol n ≠ pad.
Proof.
  intros Hn. assert (forallb (λ k, bool_decide (value (symbol k) = Some k) && bool_decide (symbol k ≠ pad))
    (N.of_nat <$> seq 0 64) = true) as Hall by (vm_compute; reflexivity).
  rewrite forallb_elem in Hall. specialize (Hall n). bools.
  assert (n ∈ N.of_nat <$> seq 0 64) as Hin.
  { apply list_elem_of_fmap. exists (N.to_nat n). rewrite N2Nat.id. split; [done|]. apply elem_of_seq. lia. }
  specialize (Hall Hin). by bools.
Qed.

Lemma group_bounds a b c : (a < 256)%N → (b < 256)%N → (c < 256)%N →
  (a / 4 < 64)%N ∧ (a mod 4 * 16 + b / 16 < 64)%N ∧ (b mod 16 * 4 + c / 64 < 64)%N ∧ (c mod 64 < 64)%N.
Proof. intros. split_and!; Z.to_euclidean_division_equations; lia. Qed.

Lemma group_bytes a b c : (a < 256)%N → (b < 256)%N → (c < 256)%N →
  (a / 4 * 4 + (a mod 4 * 16 + b / 16) / 16 = a)%N ∧
  ((a mod 4 * 16 + b / 16) mod 16 * 16 + (b mod 16 * 4 + c / 64) / 4 = b)%N ∧
  ((b mod 16 * 4 + c / 64) mod 4 * 64 + c mod 64 = c)%N.
Proof. intros. split_and!; Z.to_euclidean_division_equations; lia. Qed.

Lemma encode_open p : Forall (λ a, (a < 256)%N) p → truthy (b64encode p) && forallb (N.eqb pad) (b64encode p) = false.
Proof.
  assert (∀ a t, (a < 64)%N → truthy (symbol a :: t) && forallb (N.eqb pad) (symbol a :: t) = false) as Hs.
  { intros a t Ha. destruct (value_symbol a Ha) as [_ Hne].
    change (forallb (N.eqb pad) (symbol a :: t)) with ((pad =? symbol a)%N && forallb (N.eqb pad) t).
    rewrite (proj2 (N.eqb_neq _ _)) by congruence. by rewrite andb_false_r. }
  intros Hp. destruct Hp as [|a p Ha Hp]; [done|].
  assert (a / 4 < 64)%N by (destruct (group_bounds a 0 0); lia).
  destruct p as [|b [|c p]]; by apply Hs.
Qed.

Lemma b64_roundtrip p : Forall (λ a, (a < 256)%N) p → b64decode (b64encode p) = Some p.
Proof.
  remember (length p) as n eqn:Hn. revert p Hn. induction (lt_wf n) as [n _ IH]. intros p -> Hp.
  destruct Hp as [|a p Ha Hp]; [done|]. destruct Hp as [|b p Hb Hp].
  { destruct (group_bounds a 0 0) as (B1 & B2 & _); [lia..|]. destruct (group_bytes a 0 0) as (G1 & _); [lia..|].
    rewrite N.Div0.div_0_l, N.add_0_r in B2, G1. simpl.
    destruct (value_symbol _ B1) as [-> _], (value_symbol _ B2) as [-> _]. by rewrite G1. }
  destruct Hp as [|c p Hc Hp].
  { destruct (group_bounds a b 0) as (B1 & B2 & B3 & _); [lia..|].
    destruct (group_bytes a b 0) as (G1 & G2 & _); [lia..|].
    rewrite N.Div0.div_0_l, N.add_0_r in B3, G2. simpl.
    destruct (value_symbol _ B1) as [-> _], (value_symbol _ B2) as [-> _], (value_symbol _ B3) as [-> N3].
    rewrite decide_False by done. by rewrite G1, G2. }
  destruct (group_bounds a b c) as (B1 & B2 & B3 & B4); [done..|].
  destruct (group_bytes a b c) as (G1 & G2 & G3); [done..|]. cbn [b64encode app b64decode].
  destruct (value_symbol _ B1) as [-> _], (value_symbol _ B2) as [-> _], (value_symbol _ B3) as [-> N3],
    (value_symbol _ B4) as [-> N4].
  rewrite !decide_False by done. rewrite (encode_open p Hp), (IH (length p)); [|simpl; lia|done|done].
  by rewrite G1, G2, G3.
Qed.

End Base64Facts.

(** ** Results *)

Lemma canon_false j : canon false j = j.
Proof.
  induction j as [| | | | |l IH|m IH] using json_induction; try done; simpl; f_equal.
  - rewrite <- (list_fmap_id l) at 2. apply list_fmap_ext. intros i x Hx.
    rewrite list.Forall_forall in IH. apply IH. by eapply list_elem_of_lookup_2.
  - rewrite <- (list_fmap_id m) at 2. apply list_fmap_ext. intros i [k x] Hx.
    rewrite list.Forall_forall in IH. simpl. f_equal. apply (IH (k, x)). by eapply list_elem_of_lookup_2.
Qed.

Section Results.
Context `{Unicode} `{ConnectLib}.

Definition output_json (o : ConnectOutput) : json :=
  JObj (metadata o ++ [(str "payload_base64", JStr (Base64.b64encode o.(co_payload)))]).

(** What validation establishes of one output. *)
Record output_ok (ids : list text) (o : ConnectOutput) : Prop := {
  oo_descriptor : descriptor ids (metadata o) =
    Some (o.(co_artifact_id), o.(co_media_type), o.(co_display_name), o.(co_byte_size), o.(co_sha256));
  oo_size : 0 <= o.(co_byte_size) <= MAX_CONNECT_OUTPUT_BYTES;
  oo_payload : Base64.b64decode (Base64.b64encode o.(co_payload)) = Some o.(co_payload);
  oo_length : byte_count o.(co_payload) = o.(co_byte_size);
  oo_digest : Sha256.hexdigest o.(co_payload) = o.(co_sha256) }.

Fixpoint outputs_ok (ids : list text) (l : list ConnectOutput) : Prop :=
  match l with
  | [] => True
  | o :: l' => output_ok ids o ∧ outputs_ok (o.(co_artifact_id) :: ids) l'
  end.

Lemma descriptor_inv ids m a t d b s : descriptor ids m = Some (a, t, d, b, s) →
  (∀ p, descriptor ids (metadata (mk_output a t d b s p)) = Some (a, t, d, b, s)) ∧
  0 <= b <= MAX_CONNECT_OUTPUT_BYTES.
Proof.
  unfold descriptor. destruct (str_of (member (str "artifact_id") m)) as [a'|]; [|done].
  destruct (str_of (member (str "media_type") m)) as [t'|]; [|done].
  destruct (str_of (member (str "display_name") m)) as [d'|]; [|done].
  destruct (member (str "byte_size") m) as [[| |b'| | | |]|]; try done.
  destruct (str_of (member (str "sha256") m)) as [s'|]; [|done].
  destruct (_ && _) eqn:Hok; [|done]. intros [= -> -> -> -> ->]. split.
  - intros p. match type of Hok with ?c = true =>
      transitivity (if c then Some (a, t, d, b, s) else None) end; [reflexivity|by rewrite Hok].
  - rewrite !andb_true_iff in Hok. lia.
Qed.

Lemma read_outputs_ok ids raws outs : read_outputs ids raws = Ret outs →
  outputs_ok ids outs ∧ length outs = length raws.
Proof.
  revert ids outs. induction raws as [|j raws IH]; intros ids outs Hr; cbn [read_outputs] in Hr.
  { by injection Hr as <-. }
  destruct j as [| | | | | |m]; try done. destruct (negb _); [done|].
  destruct (descriptor ids m) as [[[[[a t] d] b] s]|] eqn:Hd; [|done].
  destruct (str_of _) as [p64|]; [|done].
  destruct (Base64.b64decode p64) as [p|] eqn:Hp; [|done].
  apply bind_ret_inv in Hr as (u & Hi & Hr). apply require_ret_inv in Hi. bools.
  apply bind_ret_inv in Hr as (rest & Hrest & Hr). injection Hr as <-.
  apply IH in Hrest as [Hok Hlen]. apply descriptor_inv in Hd as [Hd Hb].
  split; [|simpl; lia]. split; [|done]. split; simpl; [apply Hd|done|by subst p64|lia|done].
Qed.

Lemma read_outputs_again ids outs : outputs_ok ids outs → read_outputs ids (output_json <$> outs) = Ret outs.
Proof.
  revert ids. induction outs as [|o outs IH]; intros ids; [done|]. intros [[Hd _ Hp Hl Hs] Hok].
  rewrite fmap_cons. unfold output_json at 1. cbn [read_outputs].
  assert (descriptor ids (metadata o ++ [(str "payload_base64", JStr (Base64.b64encode (co_payload o)))])
    = descriptor ids (metadata o)) as -> by reflexivity.
  rewrite Hd.
  assert (negb (has_exactly (metadata_keys ++ [str "payload_base64"])
    (metadata o ++ [(str "payload_base64", JStr (Base64.b64encode (co_payload o)))])) = false) as -> by reflexivity.
  assert (str_of (member (str "payload_base64") (metadata o ++
    [(str "payload_base64", JStr (Base64.b64encode (co_payload o)))]))
    = Some (Base64.b64encode (co_payload o))) as -> by reflexivity.
  rewrite Hp. rewrite !bool_decide_eq_true_2, Hl, Z.eqb_refl by done. cbn [mbind py_bind require andb].
  rewrite IH by done. cbn [mbind py_bind]. by destruct o.
Qed.

Lemma metadata_again ids outs : outputs_ok ids outs →
  metadata_ok ids ((λ o, JObj (metadata o)) <$> outs) = true.
Proof.
  revert ids. induction outs as [|o outs IH]; intros ids; [done|]. intros [[Hd _ _ _ _] Hok].
  rewrite fmap_cons. cbn [metadata_ok]. rewrite Hd.
  assert (has_exactly metadata_keys (metadata o) = true) as -> by reflexivity. by apply IH.
Qed.

Lemma metadata_json_ok o : 0 <= o.(co_byte_size) <= MAX_CONNECT_OUTPUT_BYTES →
  json_ok (JObj (metadata o)) ∧ json_ok (output_json o).
Proof.
  intros Hb. assert (json_ok (JInt (co_byte_size o))) as Hi.
  { apply small_json_ok. unfold MAX_CONNECT_OUTPUT_BYTES in Hb. lia. }
  split; (split; [refine (bool_decide_unpack _ _); vm_compute; exact I|]); simpl; tauto.
Qed.

Lemma outputs_sizes ids outs : outputs_ok ids outs →
  Forall (λ o, 0 <= o.(co_byte_size) <= MAX_CONNECT_OUTPUT_BYTES) outs.
Proof.
  revert ids. induction outs as [|o outs IH]; intros ids; [constructor|]. intros [[_ Hb _ _ _] Hok].
  constructor; [done|by eapply IH].
Qed.

Lemma nonempty_dumps b m raw : Utf8.encode (dumps b (JObj m)) = Some raw → (0 <? byte_count raw) = true.
Proof.
  rewrite dumps_obj. intros He. apply Z.ltb_lt. unfold byte_count.
  destruct raw as [|c raw]; [|simpl; lia]. exfalso. simpl in He.
  destruct (Utf8.encode _); simpl in He; [|done]. done.
Qed.

Lemma result_json_ok ids outs : outputs_ok ids outs →
  json_ok (result_json outs) ∧ json_ok (result_metadata_json outs).
Proof.
  intros Hs%outputs_sizes.
  assert (Forall (λ o, json_ok (JObj (metadata o)) ∧ json_ok (output_json o)) outs) as Hall.
  { eapply list.Forall_impl; [done|]. intros o Ho. by apply metadata_json_ok. }
  split; (split; [apply NoDup_singleton|]); (split; [|done]); simpl; apply foldr_and_Forall, Forall_fmap;
    (eapply list.Forall_impl; [done|]); intros o Ho; apply Ho.
Qed.

Lemma outputs_of_result (f : ConnectOutput → json) outs : (1 <= length outs <= 8)%nat →
  outputs_of (JObj [(str "outputs", JArr (f <$> outs))]) = Some (f <$> outs).
Proof.
  intros Hl. unfold outputs_of.
  assert (has_exactly [str "outputs"] [(str "outputs", JArr (f <$> outs))] = true) as -> by reflexivity.
  cbn [member]. rewrite decide_True by done. rewrite length_fmap.
  rewrite (proj2 (Z.leb_le 1 _)), (proj2 (Z.leb_le _ 8)) by lia. done.
Qed.

Lemma validated_result v outs : _validate_generic_result v = Ret outs →
  outputs_ok [] outs ∧ (1 <= length outs <= 8)%nat.
Proof.
  unfold _validate_generic_result. destruct (outputs_of v) as [l|] eqn:Hl; [|done].
  intros [Hok Hlen]%read_outputs_ok. split; [done|]. rewrite Hlen.
  unfold outputs_of in Hl. destruct v as [| | | | | |m]; try done. destruct (has_exactly _ m); [|done].
  destruct (member _ m) as [[| | | | |l'|]|]; try done. destruct (_ && _) eqn:E; [|done].
  injection Hl as ->. rewrite andb_true_iff in E. lia.
Qed.

(** A completed result that is stored is read back: the stored bytes are decoded to
    exactly the outputs the provider's result was validated to, payloads included, and
    the stored metadata to their descriptors without the payloads. *)
Theorem result_roundtrip v encoded encoded_metadata :
  _encode_generic_result v = Ret (encoded, encoded_metadata) →
  ∃ outs, _validate_generic_result v = Ret outs ∧
    _decode_generic_result encoded = Ret outs ∧
    _decode_generic_result_metadata encoded_metadata = Ret ((λ o, JObj (metadata o)) <$> outs) ∧
    Forall (λ o, Sha256.hexdigest o.(co_payload) = o.(co_sha256) ∧
                 byte_count o.(co_payload) = o.(co_byte_size)) outs.
Proof.
  unfold _encode_generic_result. intros He. apply bind_ret_inv in He as (outs & Hv & He).
  apply bind_ret_inv in He as (raw & Hraw & He). apply require_some_ret_inv in Hraw.
  apply bind_ret_inv in He as (u & Hsize & He). apply require_ret_inv in Hsize.
  apply bind_ret_inv in He as (meta & Hmeta & He). apply require_some_ret_inv in Hmeta.
  apply bind_ret_inv in He as (u1 & Hmsize & He). apply require_ret_inv in Hmsize. injection He as <- <-.
  pose proof (validated_result _ _ Hv) as [Hok Hlen]. pose proof (result_json_ok _ _ Hok) as [J1 J2].
  exists outs. split; [done|]. split_and!.
  - unfold _decode_generic_result. pose proof (loads_bytes_dumps false _ raw J1 Hraw) as Hl.
    rewrite canon_false in Hl. rewrite Hl.
    rewrite (nonempty_dumps _ _ _ Hraw), Hsize. cbn [mbind py_bind negb andb].
    unfold _validate_generic_result. rewrite (outputs_of_result output_json) by done.
    by rewrite read_outputs_again.
  - unfold _decode_generic_result_metadata. pose proof (loads_bytes_dumps false _ meta J2 Hmeta) as Hl.
    rewrite canon_false in Hl. rewrite Hl.
    rewrite (nonempty_dumps _ _ _ Hmeta), Hmsize. cbn [negb andb].
    rewrite (outputs_of_result (λ o, JObj (metadata o))) by done. by rewrite metadata_again.
  - clear -Hok. revert Hok. generalize (@nil text). induction outs as [|o outs IH]; intros ids; [constructor|].
    intros [[_ _ _ Hl Hs] Hok]. constructor; [done|by eapply IH].
Qed.
End Results.
