(* ===== verification/CertificateRecord.v ===== *)
(** * Certificate records

    Models the validation of the payload of [certificate.extract] in
    [src/src/eom_email_watcher/db.py]: [_validate_certificate_record] with the helpers it
    is made of.  A record the code has checked for its members is a record here;
    [record_json] is the value that is encoded canonically.  Where the code raises
    [CertificateResultInvalid] a definition returns [None].  The words the decoder is
    told to reject ([NaN] and the infinities) are read as floats here, and no field
    accepts such a float, so that the record is refused all the same. *)

From S2P Require Export ConnectCodec.
From stdpp Require Import options.

Local Open Scope Z_scope.

Definition CERTIFICATE_RECORD_VERSION : text := str "1.0".
Definition MAX_CERTIFICATE_POLICY_ROWS : Z := 100.

Definition _CERTIFICATE_TOP_REASONS : list text :=
  [str "INSURED_MISSING"; str "NO_POLICY_ROWS"; str "POLICY_DATE_REVIEW"; str "POLICY_ASSOCIATION_UNCLEAR";
   str "CONFLICTING_VALUES"].
Definition _CERTIFICATE_DATE_REASONS : list text :=
  [str "EFFECTIVE_DATE_MISSING"; str "EFFECTIVE_DATE_AMBIGUOUS"; str "EXPIRATION_DATE_MISSING";
   str "EXPIRATION_DATE_AMBIGUOUS"; str "DATE_RANGE_INVALID"].
Definition _CERTIFICATE_POLICY_REASONS : list text := (_CERTIFICATE_DATE_REASONS ++ [str "ASSOCIATION_UNCLEAR"])%list.
Definition _CERTIFICATE_WITHHELD_REASONS : list text :=
  [str "SPAN_UNKNOWN"; str "VALUE_NOT_VERBATIM"; str "VALUE_AMBIGUOUS_IN_SPAN"; str "VALUE_BOUNDARY_INVALID";
   str "DATE_UNPARSEABLE"; str "POLICY_ASSOCIATION_UNCLEAR"; str "CONFLICTING_VALUES"].

(** ** Data *)

Record provenance := mk_provenance {
  pv_span_id : text;
  pv_page : Z;
  pv_bbox : list float64;
  pv_exact_text : text;
  pv_token_start : Z;
  pv_token_end : Z }.

Record text_value := mk_text_value {
  tv_text : text;
  tv_whole_span : bool;
  tv_provenance : provenance }.

Record date_value := mk_date_value {
  dv_iso : option text;
  dv_ambiguous : bool;
  dv_candidates : list text;
  dv_provenance : provenance }.

Record policy := mk_policy {
  po_coverage : option text_value;
  po_insurer : option text_value;
  po_policy_number : option text_value;
  po_effective_date : option date_value;
  po_expiration_date : option date_value;
  po_review_reasons : list text }.

Record withheld_item := mk_withheld {
  wh_field : text;
  wh_reason : text;
  wh_detail : text }.

Record certificate_source := mk_source {
  so_sha256 : text;
  so_byte_size : Z;
  so_page_count : Z;
  so_display_name : text;
  so_parser_id : text;
  so_parser_version : text;
  so_parser_settings : text }.

Record certificate := mk_certificate {
  ce_source : certificate_source;
  ce_insured : option text_value;
  ce_holder : option text_value;
  ce_producer : option text_value;
  ce_policies : list policy;
  ce_withheld : list withheld_item;
  ce_required : bool;
  ce_reasons : list text;
  ce_extracted_at : text }.

(** ** The values that are encoded *)

Definition provenance_json (p : provenance) : json :=
  JObj [(str "span_id", JStr p.(pv_span_id)); (str "page", JInt p.(pv_page));
        (str "bbox", JArr (JFloat <$> p.(pv_bbox))); (str "exact_text", JStr p.(pv_exact_text));
        (str "token_start", JInt p.(pv_token_start)); (str "token_end", JInt p.(pv_token_end))].

Definition text_value_json (v : text_value) : json :=
  JObj [(str "text", JStr v.(tv_text)); (str "whole_span", JBool v.(tv_whole_span));
        (str "provenance", provenance_json v.(tv_provenance))].

Definition strings_json (l : list text) : json := JArr (JStr <$> l).

Definition date_value_json (v : date_value) : json :=
  JObj [(str "iso", json_of_option JStr v.(dv_iso)); (str "ambiguous", JBool v.(dv_ambiguous));
        (str "candidates", strings_json v.(dv_candidates));
        (str "provenance", provenance_json v.(dv_provenance))].

Definition policy_json (p : policy) : json :=
  JObj [(str "coverage", json_of_option text_value_json p.(po_coverage));
        (str "insurer", json_of_option text_value_json p.(po_insurer));
        (str "policy_number", json_of_option text_value_json p.(po_policy_number));
        (str "effective_date", json_of_option date_value_json p.(po_effective_date));
        (str "expiration_date", json_of_option date_value_json p.(po_expiration_date));
        (str "review_reasons", strings_json p.(po_review_reasons))].

Definition withheld_json (w : withheld_item) : json :=
  JObj [(str "field", JStr w.(wh_field)); (str "reason", JStr w.(wh_reason)); (str "detail", JStr w.(wh_detail))].

Definition source_json (s : certificate_source) : json :=
  JObj [(str "sha256", JStr s.(so_sha256)); (str "byte_size", JInt s.(so_byte_size));
        (str "page_count", JInt s.(so_page_count)); (str "display_name", JStr s.(so_display_name));
        (str "parser", JObj [(str "id", JStr s.(so_parser_id)); (str "version", JStr s.(so_parser_version));
                             (str "settings", JStr s.(so_parser_settings))])].

Definition record_json (c : certificate) : json :=
  JObj [(str "record_version", JStr CERTIFICATE_RECORD_VERSION); (str "source", source_json c.(ce_source));
        (str "insured", json_of_option text_value_json c.(ce_insured));
        (str "certificate_holder", json_of_option text_value_json c.(ce_holder));
        (str "producer", json_of_option text_value_json c.(ce_producer));
        (str "policies", JArr (policy_json <$> c.(ce_policies)));
        (str "withheld", JArr (withheld_json <$> c.(ce_withheld)));
        (str "review", JObj [(str "required", JBool c.(ce_required)); (str "reasons", strings_json c.(ce_reasons))]);
        (str "extracted_at", JStr c.(ce_extracted_at))].

(** [_certificate_canonical_json] *)
Definition _certificate_canonical_json (j : json) : option bytes := Utf8.encode (dumps true j).

(** ** Decoding *)

Definition check (b : bool) : option unit := if b then Some tt else None.

(** [_certificate_json_object] *)
Definition _certificate_json_object (pairs : list (text * json)) : py json :=
  if bool_decide (NoDup pairs.*1) then Ret (JObj pairs) else Raise CertificateResultInvalid.

(** [_certificate_object] *)
Definition _certificate_object (keys : list text) (value : json) : option (list (text * json)) :=
  match value with JObj m => if has_exactly keys m then Some m else None | _ => None end.

(** [_certificate_string] *)
Definition _certificate_string (value : json) : option text :=
  match value with JStr t => if truthy t then Some t else None | _ => None end.

Definition bool_of (value : json) : option bool := match value with JBool b => Some b | _ => None end.
Definition int_of (value : json) : option Z := match value with JInt z => Some z | _ => None end.
Definition list_of (value : json) : option (list json) := match value with JArr l => Some l | _ => None end.

(** [value[k]] read by [read] *)
Definition field {A} (read : json → option A) (k : text) (m : list (text * json)) : option A :=
  j ← member k m; read j.

(** [None] stays [None] *)
Definition read_optional {A} (read : json → option A) (value : json) : option (option A) :=
  match value with JNull => Some None | _ => Some <$> read value end.

(** *** Coordinates *)

(** An [int] or a [float]. *)
Definition number_of_json (value : json) : option (Z + float64) :=
  match value with JInt z => Some (inl z) | JFloat f => Some (inr f) | _ => None end.

(** Mantissa and exponent of a finite number. *)
Definition finite_number (n : Z + float64) : option (Z * Z) :=
  match n with
  | inl z => Some (z, 0)
  | inr (S754_zero _) => Some (0, 0)
  | inr (S754_finite s m e) => Some ((if s then -1 else 1) * Z.pos m, e)
  | inr _ => None
  end.

(** [a <= b], exact between integers and floats *)
Definition number_leb (a b : Z + float64) : bool :=
  match finite_number a, finite_number b, a, b with
  | Some (x, e), Some (y, g), _, _ =>
      let k := Z.min e g in x * 2 ^ (e - k) <=? y * 2 ^ (g - k)
  | _, _, inr S754_nan, _ | _, _, _, inr S754_nan => false
  | _, _, inr (S754_infinity true), _ | _, _, _, inr (S754_infinity false) => true
  | _, _, _, _ => false
  end.

(** [float(n)], [None] where it overflows *)
Definition to_float (n : Z + float64) : option float64 :=
  match n with
  | inl z =>
      match binary_normalize Float64.prec Float64.emax z 0 false with
      | S754_infinity _ => None
      | f => Some f
      end
  | inr f => Some f
  end.

(** [type(original) is not int or int(normalized) == original] *)
Definition exact_as (original : Z + float64) (normalized : float64) : bool :=
  match original with inl z => bool_decide (float_integer normalized = Some z) | inr _ => true end.

Definition is_finite (f : float64) : bool :=
  match f with S754_zero _ | S754_finite _ _ _ => true | _ => false end.

(** [0.0 if coordinate == 0 else coordinate] *)
Definition unsigned_zero (f : float64) : float64 :=
  match f with S754_zero _ => S754_zero false | _ => f end.

Definition normalized_bbox (bbox : list (Z + float64)) : option (list float64) :=
  match bbox with
  | [a; b; c; d] =>
      f0 ← to_float a; f1 ← to_float b; f2 ← to_float c; f3 ← to_float d;
      _ ← check (number_leb a c && number_leb b d && exact_as a f0 && exact_as b f1 && exact_as c f2 &&
                 exact_as d f3 && forallb is_finite [f0; f1; f2; f3] &&
                 negb (SFltb f2 f0) && negb (SFltb f3 f1));
      Some (unsigned_zero <$> [f0; f1; f2; f3])
  | _ => None
  end.

Definition provenance_keys : list text :=
  [str "span_id"; str "page"; str "bbox"; str "exact_text"; str "token_start"; str "token_end"].

(** [_certificate_provenance] *)
Definition _certificate_provenance (page_count : Z) (value : json) : option provenance :=
  m ← _certificate_object provenance_keys value;
  span_id ← field _certificate_string (str "span_id") m;
  page ← field int_of (str "page") m;
  _ ← check ((1 <=? page) && (page <=? page_count));
  raw ← field list_of (str "bbox") m;
  numbers ← mapM number_of_json raw;
  bbox ← normalized_bbox numbers;
  exact_text ← field _certificate_string (str "exact_text") m;
  token_start ← field int_of (str "token_start") m;
  token_end ← field int_of (str "token_end") m;
  _ ← check ((0 <=? token_start) && (token_start <? token_end));
  Some (mk_provenance span_id page bbox exact_text token_start token_end).

(** [_certificate_text_value] of a value that is not [None] *)
Definition read_text_value (page_count : Z) (value : json) : option text_value :=
  m ← _certificate_object [str "text"; str "whole_span"; str "provenance"] value;
  t ← field _certificate_string (str "text") m;
  whole_span ← field bool_of (str "whole_span") m;
  p ← field (_certificate_provenance page_count) (str "provenance") m;
  _ ← check (contains p.(pv_exact_text) t && (negb whole_span || bool_decide (t = p.(pv_exact_text))));
  Some (mk_text_value t whole_span p).

Definition _certificate_text_value (page_count : Z) : json → option (option text_value) :=
  read_optional (read_text_value page_count).

Definition read_reason (allowed : list text) (value : json) : option text :=
  match value with JStr t => if bool_decide (t ∈ allowed) then Some t else None | _ => None end.

(** [_certificate_reason_list] *)
Definition _certificate_reason_list (allowed : list text) (value : json) : option (list text) :=
  raw ← list_of value;
  reasons ← mapM (read_reason allowed) raw;
  _ ← check (bool_decide (NoDup reasons) && bool_decide (reasons = filter (fun r => r ∈ reasons) allowed));
  Some reasons.

(** [date.isoformat()] *)
Definition date_isoformat (days : Z) : text :=
  let '(y, m, d) := days_ymd days in (fmt 4 y ++ dash :: fmt 2 m ++ dash :: fmt 2 d)%list.

Section Record.
Context `{Unicode}.

(** ** Patterns *)

Definition decimals (t : text) : bool := forallb (fun c => is_some (uni_decimal c)) t.

(** [\d{4}-\d{2}-\d{2}] *)
Definition date_shape (t : text) : bool :=
  bool_decide (length t = 10%nat) && char_is t 4 dash && char_is t 7 dash &&
  decimals (take 4 t) && decimals (take 2 (drop 5 t)) && decimals (drop 8 t).

(** [\d{4}-\d{2}-\d{2}T\d{2}:\d{2}:\d{2}(?:\.\d+)?Z] *)
Definition timestamp_shape (t : text) : bool :=
  let time := drop 11 t in
  let rest := drop 8 time in
  date_shape (take 10 t) && char_is t 10 84%N &&
  decimals (take 2 time) && char_is time 2 colon && decimals (take 2 (drop 3 time)) && char_is time 5 colon &&
  bool_decide (length (take 2 (drop 6 time)) = 2%nat) && decimals (take 2 (drop 6 time)) &&
  match reverse rest with
  | c :: reversed =>
      bool_decide (c = 90%N) &&
      match reverse reversed with
      | [] => true
      | point :: digits => bool_decide (point = 46%N) && truthy digits && decimals digits
      end
  | [] => false
  end.

(** The index of [policies[(?:0|[1-9]\d?)]] *)
Definition policy_index (t : text) : bool :=
  match t with
  | [c] => is_digit c
  | [c; d] => is_digit c && negb (bool_decide (c = 48%N)) && is_some (uni_decimal d)
  | _ => false
  end.

(** The text between a prefix and a suffix. *)
Definition between (before after_ t : text) : option text :=
  if starts_with t before && ends_with t after_ &&
     (Z.of_nat (length before) + Z.of_nat (length after_) <=? Z.of_nat (length t))
  then Some (take (length t - length before - length after_) (drop (length before) t)) else None.

(** [_CERTIFICATE_WITHHELD_FIELD_RE] *)
Definition withheld_field (t : text) : bool :=
  bool_decide (t ∈ [str "insured"; str "certificate_holder"; str "producer"]) ||
  existsb (fun name =>
      match between (str "policies[") (str "]." ++ name) t with Some i => policy_index i | None => false end)
    [str "coverage"; str "insurer"; str "policy_number"; str "effective_date"; str "expiration_date"].

(** ** Dates *)

(** [_certificate_iso_date] *)
Definition _certificate_iso_date (value : json) : option text :=
  match value with
  | JStr t =>
      _ ← check (date_shape t);
      days ← parse_date t;
      _ ← check (bool_decide (date_isoformat days = t));
      Some t
  | _ => None
  end.

(** The single date, or none when the candidates are ambiguous. *)
Definition read_iso (ambiguous : bool) (candidates : list text) (value : json) : option (option text) :=
  if ambiguous then
    _ ← check (2 <=? Z.of_nat (length candidates));
    match value with JNull => Some None | _ => None end
  else
    iso ← _certificate_iso_date value;
    _ ← check (bool_decide (candidates = [iso]));
    Some (Some iso).

(** [_certificate_date_value] of a value that is not [None] *)
Definition read_date_value (page_count : Z) (value : json) : option date_value :=
  m ← _certificate_object [str "iso"; str "ambiguous"; str "candidates"; str "provenance"] value;
  ambiguous ← field bool_of (str "ambiguous") m;
  raw ← field list_of (str "candidates") m;
  candidates ← mapM _certificate_iso_date raw;
  _ ← check (bool_decide (NoDup candidates));
  iso ← field (read_iso ambiguous candidates) (str "iso") m;
  p ← field (_certificate_provenance page_count) (str "provenance") m;
  Some (mk_date_value iso ambiguous candidates p).

Definition _certificate_date_value (page_count : Z) : json → option (option date_value) :=
  read_optional (read_date_value page_count).

(** ** Policies *)

Definition date_iso (v : option date_value) : option text := v ≫= dv_iso.

(** [_certificate_policy_review] *)
Definition _certificate_policy_review (effective_date expiration_date : option date_value) (reasons : list text)
    : list text :=
  let expected r :=
    if bool_decide (r = str "EFFECTIVE_DATE_MISSING") then is_none effective_date
    else if bool_decide (r = str "EFFECTIVE_DATE_AMBIGUOUS") then
      match effective_date with Some v => v.(dv_ambiguous) | None => false end
    else if bool_decide (r = str "EXPIRATION_DATE_MISSING") then is_none expiration_date
    else if bool_decide (r = str "EXPIRATION_DATE_AMBIGUOUS") then
      match expiration_date with Some v => v.(dv_ambiguous) | None => false end
    else if bool_decide (r = str "DATE_RANGE_INVALID") then
      match date_iso effective_date, date_iso expiration_date with
      | Some a, Some b => text_ltb b a
      | _, _ => false
      end
    else bool_decide (str "ASSOCIATION_UNCLEAR" ∈ reasons) in
  List.filter expected _CERTIFICATE_POLICY_REASONS.

Definition policy_keys : list text :=
  [str "coverage"; str "insurer"; str "policy_number"; str "effective_date"; str "expiration_date";
   str "review_reasons"].

(** One policy row. *)
Definition read_policy (page_count : Z) (value : json) : option policy :=
  m ← _certificate_object policy_keys value;
  coverage ← field (_certificate_text_value page_count) (str "coverage") m;
  insurer ← field (_certificate_text_value page_count) (str "insurer") m;
  policy_number ← field (_certificate_text_value page_count) (str "policy_number") m;
  effective_date ← field (_certificate_date_value page_count) (str "effective_date") m;
  expiration_date ← field (_certificate_date_value page_count) (str "expiration_date") m;
  _ ← check (is_some coverage || is_some insurer || is_some policy_number || is_some effective_date ||
             is_some expiration_date);
  reasons ← field (_certificate_reason_list _CERTIFICATE_POLICY_REASONS) (str "review_reasons") m;
  _ ← check (bool_decide (reasons = _certificate_policy_review effective_date expiration_date reasons));
  Some (mk_policy coverage insurer policy_number effective_date expiration_date reasons).

(** The policy rows, no two with the same canonical encoding. *)
Fixpoint read_policies (page_count : Z) (seen : list bytes) (raw_policies : list json) : option (list policy) :=
  match raw_policies with
  | [] => Some []
  | raw_policy :: raw_policies' =>
      p ← read_policy page_count raw_policy;
      canonical_key ← _certificate_canonical_json (policy_json p);
      _ ← check (negb (bool_decide (canonical_key ∈ seen)));
      rest ← read_policies page_count (canonical_key :: seen) raw_policies';
      Some (p :: rest)
  end.

Definition read_withheld (value : json) : option withheld_item :=
  m ← _certificate_object [str "field"; str "reason"; str "detail"] value;
  f ← field _certificate_string (str "field") m;
  reason ← field _certificate_string (str "reason") m;
  detail ← field _certificate_string (str "detail") m;
  _ ← check (withheld_field f && bool_decide (reason ∈ _CERTIFICATE_WITHHELD_REASONS));
  Some (mk_withheld f reason detail).

(** ** The record *)

(** The reasons for a review that the record gives. *)
Definition expected_top_reasons (insured : option text_value) (policies : list policy)
    (withheld : list withheld_item) : list text :=
  let date_review := existsb (fun p => existsb (fun r => bool_decide (r ∈ p.(po_review_reasons)))
                                         _CERTIFICATE_DATE_REASONS) policies in
  let association_review :=
    existsb (fun p => bool_decide (str "ASSOCIATION_UNCLEAR" ∈ p.(po_review_reasons))) policies ||
    existsb (fun w => bool_decide (w.(wh_reason) = str "POLICY_ASSOCIATION_UNCLEAR")) withheld in
  let conflicting_values := existsb (fun w => bool_decide (w.(wh_reason) = str "CONFLICTING_VALUES")) withheld in
  let expected r :=
    if bool_decide (r = str "INSURED_MISSING") then is_none insured
    else if bool_decide (r = str "NO_POLICY_ROWS") then negb (truthy_list policies)
    else if bool_decide (r = str "POLICY_DATE_REVIEW") then date_review
    else if bool_decide (r = str "POLICY_ASSOCIATION_UNCLEAR") then association_review
    else conflicting_values in
  List.filter expected _CERTIFICATE_TOP_REASONS.

Definition read_source (value : json) : option certificate_source :=
  m ← _certificate_object [str "sha256"; str "byte_size"; str "page_count"; str "display_name"; str "parser"] value;
  sha256 ← field _certificate_string (str "sha256") m;
  _ ← check (identity_key_ok sha256);
  byte_size ← field int_of (str "byte_size") m;
  page_count ← field int_of (str "page_count") m;
  _ ← check ((0 <=? byte_size) && (1 <=? page_count));
  display_name ← field _certificate_string (str "display_name") m;
  parser ← field (_certificate_object [str "id"; str "version"; str "settings"]) (str "parser") m;
  id ← field _certificate_string (str "id") parser;
  version ← field _certificate_string (str "version") parser;
  settings ← field _certificate_string (str "settings") parser;
  Some (mk_source sha256 byte_size page_count display_name id version settings).

Definition read_review (value : json) : option (bool * list text) :=
  m ← _certificate_object [str "required"; str "reasons"] value;
  reasons ← field (_certificate_reason_list _CERTIFICATE_TOP_REASONS) (str "reasons") m;
  required ← field bool_of (str "required") m;
  Some (required, reasons).

(** [extracted_at], a UTC timestamp *)
Definition read_extracted_at (value : json) : option text :=
  t ← _certificate_string value;
  _ ← check (timestamp_shape t);
  d ← fromisoformat (take (length t - 1) t ++ str "+00:00");
  _ ← check (bool_decide (d.(dt_offset) = Some 0));
  Some t.

Definition record_keys : list text :=
  [str "record_version"; str "source"; str "insured"; str "certificate_holder"; str "producer"; str "policies";
   str "withheld"; str "review"; str "extracted_at"].

Definition matches_input {A} `{EqDecision A} (expected : option A) (value : A) : bool :=
  match expected with Some e => bool_decide (value = e) | None => true end.

(** The record of a decoded payload. *)
Definition read_record (input_sha256 : option text) (input_byte_size : option Z)
    (input_display_name : option text) (decoded : json) : option certificate :=
  m ← _certificate_object record_keys decoded;
  version ← member (str "record_version") m;
  _ ← check (equals_str version CERTIFICATE_RECORD_VERSION);
  source ← field read_source (str "source") m;
  _ ← check (matches_input input_sha256 source.(so_sha256) && matches_input input_byte_size source.(so_byte_size) &&
             matches_input input_display_name source.(so_display_name));
  let page_count := source.(so_page_count) in
  insured ← field (_certificate_text_value page_count) (str "insured") m;
  holder ← field (_certificate_text_value page_count) (str "certificate_holder") m;
  producer ← field (_certificate_text_value page_count) (str "producer") m;
  raw_policies ← field list_of (str "policies") m;
  _ ← check (Z.of_nat (length raw_policies) <=? MAX_CERTIFICATE_POLICY_ROWS);
  policies ← read_policies page_count [] raw_policies;
  raw_withheld ← field list_of (str "withheld") m;
  withheld ← mapM read_withheld raw_withheld;
  '(required, reasons) ← field read_review (str "review") m;
  _ ← check (bool_decide (reasons = expected_top_reasons insured policies withheld) &&
             Bool.eqb required (truthy_list reasons));
  extracted_at ← field read_extracted_at (str "extracted_at") m;
  Some (mk_certificate source insured holder producer policies withheld required reasons extracted_at).

(** [_ValidatedCertificateResult] *)
Record ValidatedCertificate := mk_validated {
  va_record : certificate;
  va_canonical_json : bytes;
  va_sha256 : text }.

(** [_validate_certificate_record] *)
Definition _validate_certificate_record (payload : bytes) (input_sha256 : option text)
    (input_byte_size : option Z) (input_display_name : option text) : option ValidatedCertificate :=
  _ ← check ((0 <? byte_count payload) && (byte_count payload <=? MAX_CONNECT_OUTPUT_BYTES));
  decoded_text ← JsonParse.decode_all Utf8.decode_char 0 payload;
  decoded ← match JsonParse.loads_with _certificate_json_object decoded_text with
            | Ret decoded => Some decoded
            | Raise _ => None
            end;
  record ← read_record input_sha256 input_byte_size input_display_name decoded;
  canonical_json ← _certificate_canonical_json (record_json record);
  _ ← check (byte_count canonical_json <=? MAX_CONNECT_OUTPUT_BYTES);
  Some (mk_validated record canonical_json (Sha256.hexdigest canonical_json)).

(** [validate_certificate_result_json] *)
Definition validate_certificate_result_json (payload : bytes) (input_sha256 : option text)
    (input_byte_size : option Z) (input_display_name : option text) : py (json * bytes * text) :=
  v ← require_some (_validate_certificate_record payload input_sha256 input_byte_size input_display_name)
        CertificateResultInvalid;
  Ret (record_json v.(va_record), v.(va_canonical_json), v.(va_sha256)).

End Record.
