(* ===== verification/CertificateFacts.v ===== *)
(** * Canonical certificate records

    The canonical encoding of an accepted record is accepted again, and as the same
    record ([certificate_canonical_stable]); what the accepted records satisfy. *)

From S2P Require Export CertificateRecord ConnectCodec Float64Facts.
From stdpp Require Import options.

Local Open Scope Z_scope.

(** ** Values with distinct keys *)

Fixpoint keys_ok (j : json) : Prop :=
  match j with
  | JArr l => foldr (fun x acc => keys_ok x ∧ acc) True l
  | JObj m => NoDup m.*1 ∧ foldr (fun e acc => keys_ok e.2 ∧ acc) True m
  | _ => True
  end.

Lemma json_ok_split j : keys_ok j → numbers_read j → json_ok j.
Proof.
  induction j as [| | | | |l IH|m IH] using json_induction; try done; simpl.
  - rewrite !foldr_and_Forall. intros Hk Hi. rewrite list.Forall_forall in *. intros x Hx. apply IH; auto.
  - rewrite !foldr_and_Forall. intros [Hd Hk] Hi. rewrite list.Forall_forall in *.
    split; [done|]. intros x Hx. apply IH; auto.
Qed.

Lemma member_ints k m j : numbers_ok (JObj m) → member k m = Some j → numbers_ok j.
Proof.
  simpl. rewrite foldr_and_Forall. induction m as [|[k' v] m IH]; simpl; [done|].
  rewrite list.Forall_cons. intros [Hv Hm]. case_decide; [by intros [= ->]|auto].
Qed.

(** ** Reading members *)

Lemma check_inv b u : check b = Some u → b = true.
Proof. by destruct b. Qed.

Lemma field_inv {A} (read : json → option A) k m a :
  field read k m = Some a → ∃ j, member k m = Some j ∧ read j = Some a.
Proof. apply bind_Some. Qed.

Lemma field_hit {A} (read : json → option A) k v m : field read k ((k, v) :: m) = read v.
Proof. unfold field. cbn [member]. by rewrite decide_True. Qed.

Lemma field_miss {A} (read : json → option A) k k' v m : k' ≠ k → field read k ((k', v) :: m) = field read k m.
Proof. intros Hk. unfold field. cbn [member]. by rewrite decide_False. Qed.

Lemma object_inv keys j m : _certificate_object keys j = Some m → j = JObj m.
Proof. destruct j; try done. simpl. case_match; [by intros [= ->]|done]. Qed.

Lemma object_some keys m : has_exactly keys m = true → _certificate_object keys (JObj m) = Some m.
Proof. simpl. by intros ->. Qed.

(** Take an accepted value apart. *)
Ltac opts H := repeat (let x := fresh "x" in let E := fresh "E" in apply bind_Some in H as (x & E & H)).

Ltac facts := repeat match goal with
  | H : check _ = Some _ |- _ => apply check_inv in H
  | H : field _ _ _ = Some _ |- _ => let j := fresh "j" in let M := fresh "M" in apply field_inv in H as (j & M & H)
  | H : _certificate_object _ ?j = Some _ |- _ => is_var j; apply object_inv in H; subst j
  end.

Create HintDb certificate.

Lemma bind_step {A B} (m : option A) a (f : A → option B) : m = Some a → m ≫= f = f a.
Proof. by intros ->. Qed.

(** Read a concrete object again: the head of the chain is known. *)
Ltac members := repeat first
  [rewrite field_hit | rewrite field_miss by (refine (bool_decide_unpack _ _); vm_compute; exact I)].

Ltac reread := repeat (etransitivity;
  [ eapply bind_step; members; first
    [ apply object_some; reflexivity | eassumption | reflexivity
    | match goal with E : ?b = true |- check ?b = _ => rewrite E; reflexivity end
    | solve [eauto with certificate] ]
  | cbv beta]).

Lemma string_again j t : _certificate_string j = Some t → _certificate_string (JStr t) = Some t.
Proof.
  destruct j as [| | | |u| |]; try done. simpl. destruct (truthy u) eqn:E; [|done].
  intros [= <-]. by rewrite E.
Qed.

#[export] Hint Resolve string_again : certificate.

Lemma optional_inv {A} (read : json → option A) j o : read_optional read j = Some o →
  match o with None => j = JNull | Some x => read j = Some x end.
Proof.
  destruct j; cbn [read_optional]; [by intros [= <-]|..]; by intros (x & Hx & ->)%fmap_Some.
Qed.

(** ** Coordinates *)

Lemma leb_lower x e y g k : k <= Z.min e g →
  (x * 2 ^ (e - Z.min e g) <=? y * 2 ^ (g - Z.min e g)) = (x * 2 ^ (e - k) <=? y * 2 ^ (g - k)).
Proof.
  intros Hk. set (n := Z.min e g - k).
  replace (e - k) with ((e - Z.min e g) + n) by lia. replace (g - k) with ((g - Z.min e g) + n) by lia.
  rewrite !Z.pow_add_r, !Z.mul_assoc by lia. assert (0 < 2 ^ n) by (apply Z.pow_pos_nonneg; lia).
  apply eq_bool_prop_intro. rewrite !Is_true_true, !Z.leb_le. by rewrite <- Z.mul_le_mono_pos_r.
Qed.

(** The same finite value. *)
Definition same_number (a b : Z + float64) : Prop :=
  ∃ x e y g, finite_number a = Some (x, e) ∧ finite_number b = Some (y, g) ∧
    ∀ k, k <= Z.min e g → x * 2 ^ (e - k) = y * 2 ^ (g - k).

Lemma number_leb_same a a' b b' : same_number a a' → same_number b b' → number_leb a b = number_leb a' b'.
Proof.
  intros (x & e & x' & e' & Ha & Ha' & Hx) (y & g & y' & g' & Hb & Hb' & Hy).
  unfold number_leb. rewrite Ha, Hb, Ha', Hb'. cbv zeta.
  set (k := Z.min (Z.min e e') (Z.min g g')).
  rewrite (leb_lower x e y g k), (leb_lower x' e' y' g' k) by lia. by rewrite Hx, Hy by lia.
Qed.

Lemma float_integer_same f z : float_integer f = Some z → same_number (inl z) (inr (unsigned_zero f)).
Proof.
  destruct f as [s| | |s m e]; simpl; try done.
  - intros [= <-]. by exists 0, 0, 0, 0.
  - unfold same_number. simpl. set (sg := if s then -1 else 1). intros Hz.
    exists z, 0, (sg * Z.pos m), e. split_and!; [done..|]. intros k Hk.
    replace (0 - k) with (- k) by lia. destruct (Z.leb_spec 0 e).
    + injection Hz as <-. replace (e - k) with (e + - k) by lia. rewrite Z.pow_add_r by lia. lia.
    + destruct (Z.eqb_spec (Z.pos m mod 2 ^ (- e)) 0) as [Hm|]; [|done]. injection Hz as <-.
      assert (0 < 2 ^ (- e)) by (apply Z.pow_pos_nonneg; lia).
      assert (Z.pos m = 2 ^ (- e) * (Z.pos m / 2 ^ (- e))) as Hq by (by apply Z.div_exact; [lia|]).
      replace (- k) with (- e + (e - k)) by lia. rewrite Z.pow_add_r by lia. rewrite Hq at 2. lia.
Qed.

Lemma to_float_same n f :
  to_float n = Some f → exact_as n f = true → is_finite f = true → same_number n (inr (unsigned_zero f)).
Proof.
  destruct n as [z|g]; simpl.
  - intros _ Hz _. bools. by apply float_integer_same.
  - intros [= ->] _ Hf. destruct f as [s| | |s m e]; try done; [by exists 0, 0, 0, 0|].
    eexists _, _, _, _. split_and!; [done..|]. done.
Qed.

Lemma unsigned_ltb a b : SFltb (unsigned_zero a) (unsigned_zero b) = SFltb a b.
Proof. by destruct a as [[]|[]| |[]], b as [[]|[]| |[]]. Qed.

Lemma unsigned_finite f : is_finite (unsigned_zero f) = is_finite f.
Proof. by destruct f. Qed.

Lemma unsigned_idemp f : unsigned_zero (unsigned_zero f) = unsigned_zero f.
Proof. by destruct f. Qed.

Lemma normalized_again ns fs : normalized_bbox ns = Some fs → normalized_bbox (inr <$> fs) = Some fs.
Proof.
  destruct ns as [|a [|b [|c [|d []]]]]; try done. cbn [normalized_bbox]. intros Hn. opts Hn. facts.
  injection Hn as <-. rewrite !andb_true_iff in *. destruct_and?.
  cbn [fmap list_fmap forallb] in *. rewrite !andb_true_iff in *. destruct_and?.
  cbn [normalized_bbox to_float mbind option_bind exact_as forallb].
  rewrite <- (number_leb_same a (inr (unsigned_zero x)) c (inr (unsigned_zero x1))),
    <- (number_leb_same b (inr (unsigned_zero x0)) d (inr (unsigned_zero x2))) by (by apply to_float_same).
  rewrite !unsigned_ltb, !unsigned_finite.
  repeat match goal with E : _ = true |- _ => rewrite E; clear E end. cbn [andb check mbind option_bind].
  cbn [fmap list_fmap]. by rewrite !unsigned_idemp.
Qed.

Lemma numbers_of_floats fs : mapM number_of_json (JFloat <$> fs) = Some (inr <$> fs).
Proof. induction fs as [|f fs IH]; [done|]. cbn [fmap list_fmap mapM number_of_json mbind option_bind]. by rewrite IH. Qed.

#[export] Hint Resolve normalized_again numbers_of_floats : certificate.

Lemma canon_leaves {A} (g : A → json) (l : list A) : (∀ x, canon true (g x) = g x) → canon true <$> (g <$> l) = g <$> l.
Proof. intros Hg. rewrite <- list_fmap_compose. apply list_fmap_ext. intros. apply Hg. Qed.

Lemma canon_provenance p : canon true (provenance_json p) =
  JObj [(str "bbox", JArr (JFloat <$> p.(pv_bbox))); (str "exact_text", JStr p.(pv_exact_text));
        (str "page", JInt p.(pv_page)); (str "span_id", JStr p.(pv_span_id));
        (str "token_end", JInt p.(pv_token_end)); (str "token_start", JInt p.(pv_token_start))].
Proof. rewrite <- (canon_leaves JFloat) at 1 by done. reflexivity. Qed.

Lemma provenance_again pc j p :
  _certificate_provenance pc j = Some p → _certificate_provenance pc (canon true (provenance_json p)) = Some p.
Proof.
  unfold _certificate_provenance. intros H. opts H. facts. injection H as <-.
  rewrite canon_provenance. cbn [pv_bbox pv_exact_text pv_page pv_span_id pv_token_end pv_token_start].
  reread. reflexivity.
Qed.

#[export] Hint Resolve provenance_again : certificate.

(** ** Lists and optional values *)

Lemma mapM_again {A} (f : json → option A) (g : A → json) raw l :
  (∀ j x, f j = Some x → f (g x) = Some x) → mapM f raw = Some l → mapM f (g <$> l) = Some l.
Proof.
  intros Hg. revert l. induction raw as [|j raw IH]; intros l; cbn [mapM]; [by intros [= <-]|].
  intros H. opts H. injection H as <-. cbn [fmap list_fmap mapM]. erewrite Hg by done. cbn [mbind option_bind].
  erewrite IH by done. done.
Qed.

Lemma canon_texts l : canon true (strings_json l) = strings_json l.
Proof. unfold strings_json. cbn [canon]. by rewrite (canon_leaves JStr). Qed.

Lemma reason_again allowed j t : read_reason allowed j = Some t → read_reason allowed (JStr t) = Some t.
Proof. destruct j as [| | | |u| |]; try done. simpl. case_bool_decide; [|done]. intros [= <-]. by rewrite bool_decide_eq_true_2. Qed.

Lemma reasons_again allowed j l :
  _certificate_reason_list allowed j = Some l → _certificate_reason_list allowed (canon true (strings_json l)) = Some l.
Proof.
  unfold _certificate_reason_list. intros H. opts H. facts. injection H as <-. rewrite canon_texts.
  unfold strings_json. cbn [list_of mbind option_bind].
  erewrite (mapM_again (read_reason allowed) JStr) by eauto using reason_again. reread. reflexivity.
Qed.

Lemma optional_again {A} (read : json → option A) (g : A → json) j o :
  (∀ j x, read j = Some x → read (canon true (g x)) = Some x) → (∀ x, canon true (g x) ≠ JNull) →
  read_optional read j = Some o → read_optional read (canon true (json_of_option g o)) = Some o.
Proof.
  intros Hg Hn Ho%optional_inv. destruct o as [x|]; [|done]. simpl. apply Hg in Ho. specialize (Hn x).
  unfold read_optional. destruct (canon true (g x)); [done|..]; by rewrite Ho.
Qed.

Lemma text_value_again pc j o : _certificate_text_value pc j = Some o →
  _certificate_text_value pc (canon true (json_of_option text_value_json o)) = Some o.
Proof.
  apply optional_again; [|done]. clear. intros j v. unfold read_text_value. intros H. opts H. facts. injection H as <-.
  change (canon true (text_value_json (mk_text_value x0 x1 x2))) with
    (JObj [(str "provenance", canon true (provenance_json x2)); (str "text", JStr x0); (str "whole_span", JBool x1)]).
  reread. reflexivity.
Qed.

#[export] Hint Resolve text_value_again reasons_again : certificate.

Section Facts.
Context `{Unicode}.

Lemma iso_date_again j t : _certificate_iso_date j = Some t → _certificate_iso_date (JStr t) = Some t.
Proof.
  destruct j as [| | | |u| |]; try done. cbn [_certificate_iso_date]. intros H'. opts H'. facts. injection H' as <-.
  reread. reflexivity.
Qed.

Lemma iso_again b l j o : read_iso b l j = Some o → read_iso b l (json_of_option JStr o) = Some o.
Proof.
  unfold read_iso. destruct b; intros H'; opts H'; facts.
  - destruct j; try done. injection H' as <-. reread. done.
  - injection H' as <-. cbn [json_of_option]. erewrite iso_date_again by done. reread. done.
Qed.

Lemma date_value_again pc j o : _certificate_date_value pc j = Some o →
  _certificate_date_value pc (canon true (json_of_option date_value_json o)) = Some o.
Proof.
  apply optional_again; [|done]. clear j o. intros j v. unfold read_date_value. intros H'. opts H'. facts.
  injection H' as <-.
  assert (canon true (date_value_json (mk_date_value x4 x0 x2 x5)) =
    JObj [(str "ambiguous", JBool x0); (str "candidates", strings_json x2); (str "iso", json_of_option JStr x4);
          (str "provenance", canon true (provenance_json x5))]) as ->.
  { rewrite <- (canon_texts x2). by destruct x4. }
  pose proof (mapM_again _ JStr _ _ iso_date_again E2) as E2'. apply iso_again in E4.
  reread. reflexivity.
Qed.

#[local] Hint Resolve date_value_again : certificate.

Lemma policy_again pc j p : read_policy pc j = Some p → read_policy pc (canon true (policy_json p)) = Some p.
Proof.
  unfold read_policy. intros H'. opts H'. facts. injection H' as <-.
  change (canon true (policy_json (mk_policy x0 x1 x2 x3 x4 x6))) with
    (JObj [(str "coverage", canon true (json_of_option text_value_json x0));
           (str "effective_date", canon true (json_of_option date_value_json x3));
           (str "expiration_date", canon true (json_of_option date_value_json x4));
           (str "insurer", canon true (json_of_option text_value_json x1));
           (str "policy_number", canon true (json_of_option text_value_json x2));
           (str "review_reasons", canon true (strings_json x6))]).
  reread. reflexivity.
Qed.

Lemma policies_again pc seen raws ps : read_policies pc seen raws = Some ps →
  read_policies pc seen (canon true <$> (policy_json <$> ps)) = Some ps.
Proof.
  revert seen ps. induction raws as [|j raws IH]; intros seen ps; cbn [read_policies]; [by intros [= <-]|].
  intros H'. opts H'. facts. injection H' as <-. apply policy_again in E. apply IH in E2.
  cbn [fmap list_fmap read_policies]. reread. reflexivity.
Qed.

Lemma policies_length pc seen raws ps : read_policies pc seen raws = Some ps → length ps = length raws.
Proof.
  revert seen ps. induction raws as [|j raws IH]; intros seen ps; cbn [read_policies]; [by intros [= <-]|].
  intros H'. opts H'. injection H' as <-. simpl. f_equal. by eapply IH.
Qed.

Lemma withheld_again j w : read_withheld j = Some w → read_withheld (canon true (withheld_json w)) = Some w.
Proof.
  unfold read_withheld. intros H'. opts H'. facts. injection H' as <-.
  change (canon true (withheld_json (mk_withheld x0 x1 x2))) with
    (JObj [(str "detail", JStr x2); (str "field", JStr x0); (str "reason", JStr x1)]).
  reread. reflexivity.
Qed.

Lemma source_again j so : read_source j = Some so → read_source (canon true (source_json so)) = Some so.
Proof.
  unfold read_source. intros H'. opts H'. facts. injection H' as <-.
  change (canon true (source_json (mk_source x0 x2 x3 x5 x7 x8 x9))) with
    (JObj [(str "byte_size", JInt x2); (str "display_name", JStr x5); (str "page_count", JInt x3);
           (str "parser", JObj [(str "id", JStr x7); (str "settings", JStr x9); (str "version", JStr x8)]);
           (str "sha256", JStr x0)]).
  reread. reflexivity.
Qed.

Lemma review_again j r : read_review j = Some r →
  read_review (canon true (JObj [(str "required", JBool r.1); (str "reasons", strings_json r.2)])) = Some r.
Proof.
  unfold read_review. intros H'. opts H'. facts. injection H' as <-. cbn [fst snd].
  change (canon true (JObj [(str "required", JBool x1); (str "reasons", strings_json x0)])) with
    (JObj [(str "reasons", canon true (strings_json x0)); (str "required", JBool x1)]).
  reread. reflexivity.
Qed.

Lemma extracted_again j t : read_extracted_at j = Some t → read_extracted_at (JStr t) = Some t.
Proof. unfold read_extracted_at. intros H'. opts H'. facts. injection H' as <-. reread. reflexivity. Qed.

#[local] Hint Resolve policies_again withheld_again source_again review_again extracted_again : certificate.

Lemma record_again sha size name j c : read_record sha size name j = Some c →
  read_record sha size name (canon true (record_json c)) = Some c.
Proof.
  unfold read_record. intros H'. opts H'. destruct x12 as [required reasons]. cbv beta iota in H'. opts H'. facts. injection H' as <-.
  set (c := mk_certificate _ _ _ _ _ _ _ _ _).
  assert (canon true (record_json c) =
    JObj [(str "certificate_holder", canon true (json_of_option text_value_json c.(ce_holder)));
          (str "extracted_at", JStr c.(ce_extracted_at));
          (str "insured", canon true (json_of_option text_value_json c.(ce_insured)));
          (str "policies", JArr (canon true <$> (policy_json <$> c.(ce_policies))));
          (str "producer", canon true (json_of_option text_value_json c.(ce_producer)));
          (str "record_version", JStr CERTIFICATE_RECORD_VERSION);
          (str "review", canon true (JObj [(str "required", JBool c.(ce_required));
                                           (str "reasons", strings_json c.(ce_reasons))]));
          (str "source", canon true (source_json c.(ce_source)));
          (str "withheld", JArr (canon true <$> (withheld_json <$> c.(ce_withheld))))]) as -> by reflexivity.
  subst c. cbn [ce_holder ce_extracted_at ce_insured ce_policies ce_producer ce_required ce_reasons ce_source ce_withheld].
  pose proof (mapM_again _ (λ w, canon true (withheld_json w)) _ _ withheld_again E11) as Ew.
  rewrite (list_fmap_compose withheld_json (canon true)) in Ew.
  match goal with E : read_review _ = Some _ |- _ => apply review_again in E; cbn [fst snd] in E end.
  match goal with E : (Z.of_nat (length ?l) <=? _) = true, P : read_policies _ _ _ = Some ?ps |- _ =>
    assert (length l = length (canon true <$> (policy_json <$> ps))) as Hl
      by (rewrite !length_fmap; symmetry; by eapply policies_length); rewrite Hl in E end.
  reread. reflexivity.
Qed.

(** ** Integers and keys *)

Lemma ints_members m : Forall (λ e, numbers_read e.2) m → numbers_read (JObj m).
Proof. by rewrite <- (foldr_and_Forall (λ e : text * json, numbers_read e.2)). Qed.

(** The coordinates of a box are finite floats. *)
Lemma coordinate_ok j n f : numbers_ok j → number_of_json j = Some n → to_float n = Some f → float_ok f.
Proof.
  intros Hj Hn. destruct j; try done; simpl in Hn; injection Hn as <-; simpl; [|by intros [= <-]].
  pose proof (integer_float_ok z false) as Hf. by destruct (binary_normalize _ _ z 0 false); intros [= <-].
Qed.

Lemma finite_reads f : float_ok f → is_finite f = true → float_reads f = true.
Proof. intros Hf Hi. apply float_repr_reads; [done|by intros s ->|by intros ->]. Qed.

Lemma unsigned_reads f : float_ok f → is_finite f = true → float_reads (unsigned_zero f) = true.
Proof. intros Hf Hi. destruct f; try done; by apply finite_reads. Qed.

Lemma bbox_reads raw ns fs : Forall numbers_ok raw → mapM number_of_json raw = Some ns → normalized_bbox ns = Some fs →
  Forall (λ f, float_reads f = true) fs.
Proof.
  intros Hraw Hns%mapM_Some_1 Hb. assert (∀ n f, n ∈ ns → to_float n = Some f → float_ok f) as Hok.
  { intros n f Hn Hf. apply list_elem_of_lookup in Hn as [i Hi].
    destruct (Forall2_lookup_r _ _ _ _ _ Hns Hi) as (j & Hj & Hnj). rewrite list.Forall_forall in Hraw.
    eapply coordinate_ok; [|done|done]. apply Hraw. by eapply list_elem_of_lookup_2. }
  destruct ns as [|a [|b [|c [|d []]]]]; try done. cbn [normalized_bbox] in Hb. opts Hb. facts. injection Hb as <-.
  cbn [forallb] in *. bools. repeat (constructor; [apply unsigned_reads; [|done]; eapply Hok; [|done]; set_solver|]). constructor.
Qed.

Ltac each_member := apply ints_members; repeat apply list.Forall_cons_2; try apply list.Forall_nil_2; try done; cbn [snd].

Lemma int_field_ints k m j z : int_of j = Some z → member k m = Some j → numbers_ok (JObj m) → numbers_read (JInt z).
Proof. intros Hz Hj Hm. pose proof (member_ints _ _ _ Hm Hj). destruct j; try done. by injection Hz as <-. Qed.

Lemma leaves_ints {A} (g : A → json) (l : list A) : (∀ x, numbers_read (g x)) → numbers_read (JArr (g <$> l)).
Proof. intros Hg. simpl. by apply foldr_and_Forall, Forall_fmap, Forall_true. Qed.

Lemma strings_ints l : numbers_read (strings_json l).
Proof. by apply leaves_ints. Qed.

Lemma provenance_ints pc j p : numbers_ok j → _certificate_provenance pc j = Some p → numbers_read (provenance_json p).
Proof.
  unfold _certificate_provenance. intros Hj H'. opts H'. facts. injection H' as <-.
  each_member; [eapply int_field_ints; eassumption | | eapply int_field_ints; eassumption ..].
  simpl. apply foldr_and_Forall, Forall_fmap. eapply bbox_reads; [|eassumption|eassumption].
  match goal with E : list_of ?j = Some ?raw, M : member _ _ = Some ?j |- Forall _ ?raw =>
    pose proof (member_ints _ _ _ Hj M) as Hp; destruct j; try done; injection E as -> end.
  by apply foldr_and_Forall.
Qed.

Lemma optional_ints {A} (read : json → option A) (g : A → json) k m j o : read_optional read j = Some o →
  member k m = Some j → numbers_ok (JObj m) → (∀ x, numbers_ok j → read j = Some x → numbers_read (g x)) →
  numbers_read (json_of_option g o).
Proof.
  intros Ho%optional_inv Hj Hm Hg. pose proof (member_ints _ _ _ Hm Hj). destruct o; [|done]. by apply Hg.
Qed.

Lemma text_value_ints pc j v : numbers_ok j → read_text_value pc j = Some v → numbers_read (text_value_json v).
Proof.
  unfold read_text_value. intros Hj H'. opts H'. facts. injection H' as <-. each_member.
  eapply provenance_ints; [|done]. by eapply member_ints.
Qed.

Lemma date_value_ints pc j v : numbers_ok j → read_date_value pc j = Some v → numbers_read (date_value_json v).
Proof.
  unfold read_date_value. intros Hj H'. opts H'. facts. injection H' as <-. each_member.
  - by destruct (dv_iso _).
  - apply strings_ints.
  - eapply provenance_ints; [|done]. by eapply member_ints.
Qed.

Lemma policy_ints pc j p : numbers_ok j → read_policy pc j = Some p → numbers_read (policy_json p).
Proof.
  unfold read_policy. intros Hj H'. opts H'. facts. injection H' as <-.
  each_member; try apply strings_ints; cbn [po_coverage po_insurer po_policy_number po_effective_date
    po_expiration_date];
    (eapply optional_ints; [eassumption..|]; intros; by first [eapply text_value_ints|eapply date_value_ints]).
Qed.

Lemma policies_ints pc seen raws ps : Forall numbers_ok raws → read_policies pc seen raws = Some ps →
  Forall (λ p, numbers_read (policy_json p)) ps.
Proof.
  intros Hr. revert seen ps. induction Hr as [|j raws Hj Hr IH]; intros seen ps; cbn [read_policies].
  - intros [= <-]. constructor.
  - intros H'. opts H'. injection H' as <-. constructor; [by eapply policy_ints|by eapply IH].
Qed.

Lemma source_ints j so : numbers_ok j → read_source j = Some so → numbers_read (source_json so).
Proof.
  unfold read_source. intros Hj H'. opts H'. facts. injection H' as <-.
  each_member; eapply int_field_ints; eassumption.
Qed.

Lemma record_ints sha size name j c : numbers_ok j → read_record sha size name j = Some c → numbers_read (record_json c).
Proof.
  unfold read_record. intros Hj H'. opts H'. destruct x12 as [required reasons]. cbv beta iota in H'. opts H'.
  facts. injection H' as <-.
  assert (∀ k j v, member k x = Some j → _certificate_text_value (so_page_count x2) j = Some v →
    numbers_read (json_of_option text_value_json v)) as Ht
    by (intros; eapply optional_ints; [eassumption..|]; intros; by eapply text_value_ints).
  each_member; cbn [ce_source ce_insured ce_holder ce_producer ce_policies ce_withheld]; eauto.
  - eapply source_ints; [|done]. by eapply member_ints.
  - simpl. apply foldr_and_Forall, Forall_fmap. eapply policies_ints; [|done].
    match goal with E : list_of ?j = Some x7, M : member _ x = Some ?j |- _ =>
      pose proof (member_ints _ _ _ Hj M) as Hp; destruct j; try done; injection E as -> end.
    by apply foldr_and_Forall.
  - by apply leaves_ints.
  - each_member. apply strings_ints.
Qed.
Lemma keys_members m : NoDup m.*1 → Forall (λ e, keys_ok e.2) m → keys_ok (JObj m).
Proof. intros. split; [done|]. by apply (foldr_and_Forall (λ e : text * json, keys_ok e.2)). Qed.

Ltac each_key := apply keys_members; [keys|]; repeat apply list.Forall_cons_2; try apply list.Forall_nil_2; try done; cbn [snd].

Lemma items_keys {A} (g : A → json) (l : list A) : (∀ x, keys_ok (g x)) → keys_ok (JArr (g <$> l)).
Proof. intros Hg. simpl. by apply foldr_and_Forall, Forall_fmap, Forall_true. Qed.

Lemma provenance_keys_ok p : keys_ok (provenance_json p).
Proof. each_key. by apply items_keys. Qed.

Lemma text_value_keys_ok o : keys_ok (json_of_option text_value_json o).
Proof. destruct o; [|done]. each_key. apply provenance_keys_ok. Qed.

Lemma date_value_keys_ok o : keys_ok (json_of_option date_value_json o).
Proof. destruct o as [[[]]|]; [..|done]; each_key; try (by apply items_keys); apply provenance_keys_ok. Qed.

Lemma policy_keys_ok p : keys_ok (policy_json p).
Proof. each_key; try apply text_value_keys_ok; try apply date_value_keys_ok. by apply items_keys. Qed.

Lemma record_keys_ok c : keys_ok (record_json c).
Proof.
  each_key; try apply text_value_keys_ok.
  - each_key. each_key.
  - apply items_keys, policy_keys_ok.
  - apply items_keys. intros []. each_key.
  - each_key. by apply items_keys.
Qed.

(** ** Validation *)

Lemma hook_distinct m : NoDup m.*1 → _certificate_json_object m = Ret (JObj m).
Proof. intros Hm. unfold _certificate_json_object. by rewrite bool_decide_eq_true_2. Qed.

Lemma hook_ints m j : _certificate_json_object m = Ret j → Forall (λ e, numbers_ok e.2) m → numbers_ok j.
Proof.
  unfold _certificate_json_object. case_bool_decide; [|done]. intros [= <-] Hm. simpl. by apply foldr_and_Forall.
Qed.

Lemma validated_inv payload sha size name v : _validate_certificate_record payload sha size name = Some v →
  ∃ j, numbers_ok j ∧ read_record sha size name j = Some v.(va_record) ∧
    _certificate_canonical_json (record_json v.(va_record)) = Some v.(va_canonical_json) ∧
    (byte_count v.(va_canonical_json) <=? MAX_CONNECT_OUTPUT_BYTES) = true ∧
    v.(va_sha256) = Sha256.hexdigest v.(va_canonical_json).
Proof.
  unfold _validate_certificate_record. intros H'. opts H'. facts. injection H' as <-.
  destruct (JsonParse.loads_with _ x0) as [j|] eqn:Ej; [|done]. injection E1 as ->.
  exists x1. split_and!; try done. eapply loads_with_ints; [|done]. apply hook_ints.
Qed.

Lemma validate_intro payload t j c raw sha size name :
  (0 <? byte_count payload) = true → (byte_count payload <=? MAX_CONNECT_OUTPUT_BYTES) = true →
  JsonParse.decode_all Utf8.decode_char 0 payload = Some t →
  JsonParse.loads_with _certificate_json_object t = Ret j → read_record sha size name j = Some c →
  _certificate_canonical_json (record_json c) = Some raw →
  (byte_count raw <=? MAX_CONNECT_OUTPUT_BYTES) = true →
  _validate_certificate_record payload sha size name = Some (mk_validated c raw (Sha256.hexdigest raw)).
Proof.
  intros H1 H2 H3 H4 H5 H6 H7. unfold _validate_certificate_record. rewrite H1, H2. cbn [andb check mbind option_bind].
  rewrite H3. cbn [mbind option_bind]. rewrite H4. cbn [mbind option_bind]. rewrite H5. cbn [mbind option_bind].
  rewrite H6. cbn [mbind option_bind]. by rewrite H7.
Qed.

(** The canonical bytes of a record that was read are read as the same record. *)
Lemma canonical_again sha size name j v :
  numbers_ok j → read_record sha size name j = Some v.(va_record) →
  _certificate_canonical_json (record_json v.(va_record)) = Some v.(va_canonical_json) →
  (byte_count v.(va_canonical_json) <=? MAX_CONNECT_OUTPUT_BYTES) = true →
  v.(va_sha256) = Sha256.hexdigest v.(va_canonical_json) →
  _validate_certificate_record v.(va_canonical_json) sha size name = Some v.
Proof.
  intros Hi Hr Hc Hs Hd.
  assert (json_ok (record_json (va_record v))) as Hok
    by (apply json_ok_split; [apply record_keys_ok | by eapply record_ints]).
  assert (Hv : v = mk_validated v.(va_record) v.(va_canonical_json) (Sha256.hexdigest v.(va_canonical_json)))
    by (rewrite <- Hd; by destruct v).
  rewrite Hv at 2. pose proof Hc as Hc'. unfold _certificate_canonical_json in Hc'. eapply validate_intro.
  - by eapply nonempty_dumps.
  - done.
  - by apply (decode_all_encode _ _ _ decode_char_encode).
  - by apply (loads_with_dumps _ hook_distinct).
  - by eapply record_again.
  - done.
  - done.
Qed.

Lemma read_record_unbound sha size name j c :
  read_record sha size name j = Some c → read_record None None None j = Some c.
Proof.
  unfold read_record. intros Hr.
  do 4 (apply bind_Some in Hr as (? & E & Hr); rewrite E; cbn [mbind option_bind]; clear E).
  by apply bind_Some in Hr as (? & _ & Hr).
Qed.

(** The canonical bytes of an accepted certificate are accepted again, for the same input, as the same
    record with the same canonical bytes and digest, so that what is stored can always be validated and
    compared again; the coordinates must print as literals that read back, which is what [repr] promises. *)
Theorem certificate_canonical_stable payload sha size name v :
  _validate_certificate_record payload sha size name = Some v →
  _validate_certificate_record v.(va_canonical_json) sha size name = Some v.
Proof. intros (j & Hi & Hr & Hc & Hs & Hd)%validated_inv. by eapply canonical_again. Qed.

(** ** What an accepted record says *)

(** A date that is missing or ambiguous, or a range that ends before it starts. *)
Definition dates_doubtful (p : policy) : Prop :=
  p.(po_effective_date) = None ∨ (∃ v, p.(po_effective_date) = Some v ∧ v.(dv_ambiguous) = true) ∨
  p.(po_expiration_date) = None ∨ (∃ v, p.(po_expiration_date) = Some v ∧ v.(dv_ambiguous) = true) ∨
  ∃ a b, date_iso p.(po_effective_date) = Some a ∧ date_iso p.(po_expiration_date) = Some b ∧ text_ltb b a = true.

Definition association_unclear (c : certificate) : Prop :=
  (∃ p, p ∈ c.(ce_policies) ∧ str "ASSOCIATION_UNCLEAR" ∈ p.(po_review_reasons)) ∨
  ∃ w, w ∈ c.(ce_withheld) ∧ w.(wh_reason) = str "POLICY_ASSOCIATION_UNCLEAR".

(** The text values of a record. *)
Definition policy_texts (p : policy) : list text_value :=
  omap id [p.(po_coverage); p.(po_insurer); p.(po_policy_number)].
Definition record_texts (c : certificate) : list text_value :=
  (omap id [c.(ce_insured); c.(ce_holder); c.(ce_producer)] ++ flat_map policy_texts c.(ce_policies))%list.

(** The reasons for a review are exactly those the record gives, and every text is found in the source. *)
Record record_sound (c : certificate) : Prop := {
  rs_required : c.(ce_required) = true ↔ c.(ce_reasons) ≠ [];
  rs_insured : str "INSURED_MISSING" ∈ c.(ce_reasons) ↔ c.(ce_insured) = None;
  rs_rows : str "NO_POLICY_ROWS" ∈ c.(ce_reasons) ↔ c.(ce_policies) = [];
  rs_dates : str "POLICY_DATE_REVIEW" ∈ c.(ce_reasons) ↔ ∃ p, p ∈ c.(ce_policies) ∧ dates_doubtful p;
  rs_association : str "POLICY_ASSOCIATION_UNCLEAR" ∈ c.(ce_reasons) ↔ association_unclear c;
  rs_conflict : str "CONFLICTING_VALUES" ∈ c.(ce_reasons) ↔
    ∃ w, w ∈ c.(ce_withheld) ∧ w.(wh_reason) = str "CONFLICTING_VALUES";
  rs_texts : ∀ v, v ∈ record_texts c →
    contains v.(tv_provenance).(pv_exact_text) v.(tv_text) = true ∧
    1 <= v.(tv_provenance).(pv_page) <= c.(ce_source).(so_page_count);
  rs_size : (length c.(ce_policies) <= 100)%nat;
  rs_distinct : NoDup ((fun p => _certificate_canonical_json (policy_json p)) <$> c.(ce_policies)) }.

Lemma elem_filter {A} (f : A → bool) l x : x ∈ List.filter f l ↔ x ∈ l ∧ f x = true.
Proof. by rewrite !list_elem_of_In, filter_In. Qed.

Lemma existsb_elem {A} (f : A → bool) l : existsb f l = true ↔ ∃ x, x ∈ l ∧ f x = true.
Proof. rewrite existsb_exists. by setoid_rewrite list_elem_of_In. Qed.

Lemma elem_filter_at {A} (f : A → bool) l x : x ∈ l → x ∈ List.filter f l ↔ f x = true.
Proof. rewrite elem_filter. tauto. Qed.

(** Which test a reason stands for. *)
Ltac reason_of := unfold _certificate_policy_review, expected_top_reasons; cbv zeta;
  rewrite elem_filter_at by (refine (bool_decide_unpack _ _); vm_compute; exact I); reflexivity.

Lemma review_missing_start e x rs :
  str "EFFECTIVE_DATE_MISSING" ∈ _certificate_policy_review e x rs ↔ is_none e = true.
Proof. reason_of. Qed.
Lemma review_ambiguous_start e x rs : str "EFFECTIVE_DATE_AMBIGUOUS" ∈ _certificate_policy_review e x rs ↔
  match e with Some v => v.(dv_ambiguous) | None => false end = true.
Proof. reason_of. Qed.
Lemma review_missing_end e x rs :
  str "EXPIRATION_DATE_MISSING" ∈ _certificate_policy_review e x rs ↔ is_none x = true.
Proof. reason_of. Qed.
Lemma review_ambiguous_end e x rs : str "EXPIRATION_DATE_AMBIGUOUS" ∈ _certificate_policy_review e x rs ↔
  match x with Some v => v.(dv_ambiguous) | None => false end = true.
Proof. reason_of. Qed.
Lemma review_range e x rs : str "DATE_RANGE_INVALID" ∈ _certificate_policy_review e x rs ↔
  match date_iso e, date_iso x with Some a, Some b => text_ltb b a | _, _ => false end = true.
Proof. reason_of. Qed.

Lemma policy_reasons_dates p :
  p.(po_review_reasons) = _certificate_policy_review p.(po_effective_date) p.(po_expiration_date) p.(po_review_reasons) →
  existsb (fun r => bool_decide (r ∈ p.(po_review_reasons))) _CERTIFICATE_DATE_REASONS = true ↔ dates_doubtful p.
Proof.
  intros Hr. unfold _CERTIFICATE_DATE_REASONS. cbn [existsb]. rewrite !orb_true_iff, !bool_decide_eq_true, Hr.
  rewrite review_missing_start, review_ambiguous_start, review_missing_end, review_ambiguous_end, review_range.
  unfold dates_doubtful. clear Hr. destruct (po_effective_date p) as [v|], (po_expiration_date p) as [w|]; simpl;
    try (destruct (dv_iso v)); try (destruct (dv_iso w)); naive_solver.
Qed.

Lemma top_insured i ps ws : str "INSURED_MISSING" ∈ expected_top_reasons i ps ws ↔ is_none i = true.
Proof. reason_of. Qed.
Lemma top_rows i ps ws : str "NO_POLICY_ROWS" ∈ expected_top_reasons i ps ws ↔ negb (truthy_list ps) = true.
Proof. reason_of. Qed.
Lemma top_dates i ps ws : str "POLICY_DATE_REVIEW" ∈ expected_top_reasons i ps ws ↔
  existsb (fun p => existsb (fun r => bool_decide (r ∈ p.(po_review_reasons))) _CERTIFICATE_DATE_REASONS) ps = true.
Proof. reason_of. Qed.
Lemma top_association i ps ws : str "POLICY_ASSOCIATION_UNCLEAR" ∈ expected_top_reasons i ps ws ↔
  existsb (fun p => bool_decide (str "ASSOCIATION_UNCLEAR" ∈ p.(po_review_reasons))) ps ||
  existsb (fun w => bool_decide (w.(wh_reason) = str "POLICY_ASSOCIATION_UNCLEAR")) ws = true.
Proof. reason_of. Qed.
Lemma top_conflict i ps ws : str "CONFLICTING_VALUES" ∈ expected_top_reasons i ps ws ↔
  existsb (fun w => bool_decide (w.(wh_reason) = str "CONFLICTING_VALUES")) ws = true.
Proof. reason_of. Qed.

(** What the readers establish. *)
Lemma text_value_sound pc j o v : o = Some v → _certificate_text_value pc j = Some o →
  contains v.(tv_provenance).(pv_exact_text) v.(tv_text) = true ∧ 1 <= v.(tv_provenance).(pv_page) <= pc.
Proof.
  intros -> Ho%optional_inv. unfold read_text_value in Ho. opts Ho. facts. injection Ho as <-. simpl.
  apply andb_prop in E3 as [Hc _]. split; [done|].
  match goal with P : _certificate_provenance _ _ = Some _ |- _ => unfold _certificate_provenance in P; opts P;
    facts; injection P as <- end. simpl. lia.
Qed.

Record policy_sound (pc : Z) (p : policy) : Prop := {
  ps_reasons : p.(po_review_reasons) =
    _certificate_policy_review p.(po_effective_date) p.(po_expiration_date) p.(po_review_reasons);
  ps_texts : ∀ v, v ∈ policy_texts p →
    contains v.(tv_provenance).(pv_exact_text) v.(tv_text) = true ∧ 1 <= v.(tv_provenance).(pv_page) <= pc }.

Lemma omap_id_elem {A} (l : list (option A)) x : x ∈ omap id l → Some x ∈ l.
Proof. intros (o & Ho & Hx)%list_elem_of_omap. by simpl in Hx; subst. Qed.

Lemma read_policy_sound pc j p : read_policy pc j = Some p → policy_sound pc p.
Proof.
  unfold read_policy. intros H'. opts H'. facts. injection H' as <-. split; simpl; [by bools|].
  intros v Hv%omap_id_elem. rewrite !elem_of_cons in Hv.
  destruct Hv as [Hv|[Hv|[Hv|Hv]]]; [..|by apply not_elem_of_nil in Hv]; symmetry in Hv;
    eapply text_value_sound; eassumption.
Qed.

Lemma read_policies_sound pc seen raws ps : read_policies pc seen raws = Some ps →
  Forall (policy_sound pc) ps ∧
  NoDup ((λ p, _certificate_canonical_json (policy_json p)) <$> ps) ∧
  Forall (λ p, ∃ k, _certificate_canonical_json (policy_json p) = Some k ∧ k ∉ seen) ps.
Proof.
  revert seen ps. induction raws as [|j raws IH]; intros seen ps; cbn [read_policies].
  { intros [= <-]. split_and!; constructor. }
  intros H'. opts H'. facts. injection H' as <-. apply read_policy_sound in E. apply IH in E2 as (Hs & Hd & Hk).
  apply negb_true_iff, bool_decide_eq_false in E1. split_and!.
  - by constructor.
  - cbn [fmap list_fmap]. apply list.NoDup_cons. split; [|done]. rewrite E0.
    intros (p & Hp & Hin)%list_elem_of_fmap. rewrite list.Forall_forall in Hk.
    destruct (Hk _ Hin) as (k & Hk1 & Hk2). rewrite <- Hp in Hk1. injection Hk1 as <-. by apply Hk2, elem_of_cons; left.
  - constructor; [by eauto|]. eapply list.Forall_impl; [exact Hk|]. intros p (k & ? & Hn). exists k. split; [done|].
    intros ?. by apply Hn, elem_of_cons; right.
Qed.

Lemma read_record_sound sha size name j c : read_record sha size name j = Some c →
  record_sound c ∧ matches_input sha c.(ce_source).(so_sha256) = true ∧
  matches_input size c.(ce_source).(so_byte_size) = true ∧ matches_input name c.(ce_source).(so_display_name) = true.
Proof.
  unfold read_record. intros H'. opts H'. destruct x12 as [required reasons]. cbv beta iota in H'. opts H'.
  facts. injection H' as <-. rewrite !andb_true_iff in *. destruct_and?. bools. subst.
  match goal with P : read_policies _ _ _ = Some _ |- _ =>
    pose proof (policies_length _ _ _ _ P) as Hlen; apply read_policies_sound in P as (Hs & Hd & _) end.
  split; [|done].
  split; cbn [ce_required ce_reasons ce_insured ce_policies ce_withheld ce_source].
  - match goal with E : eqb _ _ = true |- _ => apply eqb_prop in E as -> end. by destruct (expected_top_reasons _ _ _).
  - rewrite top_insured. by destruct x4.
  - rewrite top_rows. by destruct x9.
  - rewrite top_dates, existsb_elem. apply exist_proper. intros p. rewrite list.Forall_forall in Hs.
    split; intros [Hp Hr]; (split; [done|]); by apply (policy_reasons_dates p (ps_reasons _ _ (Hs p Hp))).
  - rewrite top_association, orb_true_iff, !existsb_elem. unfold association_unclear. simpl.
    by setoid_rewrite bool_decide_eq_true.
  - rewrite top_conflict, existsb_elem. by setoid_rewrite bool_decide_eq_true.
  - intros v [Hv|Hv]%elem_of_app.
    + apply omap_id_elem in Hv. simpl in Hv. rewrite !elem_of_cons in Hv.
      destruct Hv as [Hv|[Hv|[Hv|Hv]]]; [..|by apply not_elem_of_nil in Hv]; symmetry in Hv;
        eapply text_value_sound; eassumption.
    + apply list_elem_of_In, in_flat_map in Hv as (p & Hp & Hv). apply list_elem_of_In in Hp, Hv.
      rewrite list.Forall_forall in Hs. by eapply ps_texts; [apply Hs|].
  - rewrite Hlen. unfold MAX_CERTIFICATE_POLICY_ROWS in *. lia.
  - done.
Qed.

(** C19: An accepted certificate asks for a review exactly when it has a reason, and its reasons are exactly what
    the record shows: no insured, no policy rows, a policy whose dates are missing, ambiguous or reversed, an unclear
    association, or conflicting values.  Every text it gives occurs in the quoted source text on a page of the
    document, no two policy rows are the same, and the document is the one that was sent. *)
Theorem certificate_review_exact payload sha size name v :
  _validate_certificate_record payload sha size name = Some v →
  record_sound v.(va_record) ∧ v.(va_sha256) = Sha256.hexdigest v.(va_canonical_json) ∧
  (∀ h, sha = Some h → v.(va_record).(ce_source).(so_sha256) = h) ∧
  (∀ n, size = Some n → v.(va_record).(ce_source).(so_byte_size) = n) ∧
  (∀ t, name = Some t → v.(va_record).(ce_source).(so_display_name) = t).
Proof.
  intros (j & _ & (Hs & H1 & H2 & H3)%read_record_sound & _ & _ & Hd)%validated_inv.
  split_and!; try done; intros ? ->; simpl in *; by bools.
Qed.
End Facts.
