(* ===== verification/ConnectStore.v ===== *)
(** * The Connect queue

    Models the queued Connect jobs of [src/src/eom_email_watcher/db.py]: the tables
    [connect_attachment_jobs] and [connect_job_dispatch] with their constraints, and
    the operations of the queue: creation, the lanes of a provider instance, claims,
    deferral, expiry, transitions, resubmission.  The fires of the automation rules,
    which share the transactions of the queue, are the tables [automation_fires],
    [automation_fire_attempts], [automation_fire_confirmations] and
    [automation_fire_source_identities]; the certificates that completed jobs leave are
    [certificate_records] and [certificate_policy_rows]. *)

From S2P Require Export ConnectCodec BodyState.
From stdpp Require Import options.

Local Open Scope Z_scope.

Definition CONNECT_QUEUE_MAX_JOBS : nat := 25.
(** [timedelta(hours=2)] *)
Definition CONNECT_QUEUE_ADMISSION_WINDOW : Z := 2 * 3600 * US.
Definition MAX_CONNECT_DISPATCH_ERROR_CODE_BYTES : nat := 128.
Definition MAX_CONNECT_DISPATCH_ERROR_MESSAGE_BYTES : nat := 1024.
Definition CERTIFICATE_CAPABILITY_ID : text := str "certificate.extract".
Definition CERTIFICATE_CAPABILITY_VERSION : text := str "1.0".
Definition CERTIFICATE_RESULT_MEDIA_TYPE : text := str "application/vnd.local-connect.certificate+json".

(** ** Jobs *)

Inductive job_status := Requested | Accepted | Processing | Completed | Failed.

Global Instance job_status_eq_dec : EqDecision job_status.
Proof. solve_decision. Defined.

(** [status IN ('requested', 'accepted', 'processing')] *)
Definition active_status (s : job_status) : bool :=
  match s with Requested | Accepted | Processing => true | _ => false end.

(** The columns of a job that no statement updates. *)
Record JobRequest := mk_job_request {
  jr_message_id : text;
  jr_part_id : text;
  jr_v2 : bool;
  jr_capability_id : text;
  jr_capability_version : text;
  jr_provider_app_version : option text;
  jr_invocation_fingerprint : text;
  jr_input : InputArtifact;
  jr_input_display_name : option text;
  jr_source_app_id : option text;
  jr_request_json : option bytes;
  jr_created_at : text }.

(** The output columns of protocol 1. *)
Record V1Output := mk_v1_output {
  vo_artifact_id : option text;
  vo_media_type : option text;
  vo_byte_size : option Z;
  vo_sha256 : option text;
  vo_summary_version : option text;
  vo_summary_text : option text;
  vo_warnings_json : option text }.

Record JobError := mk_error {
  er_code : option text;
  er_message : option text;
  er_retryable : option bool }.

(** [ConnectJob], without its key. *)
Record ConnectJob := mk_job {
  jb_request : JobRequest;
  jb_provider_app_id : option text;
  jb_provider_instance_id : option text;
  jb_status : job_status;
  jb_output : V1Output;
  jb_result_json : option bytes;
  jb_result_metadata_json : option bytes;
  jb_error : JobError;
  jb_updated_at : text }.

Definition no_output : V1Output := mk_v1_output None None None None None None None.
Definition no_error : JobError := mk_error None None None.

Global Instance v1_output_eq_dec : EqDecision V1Output.
Proof. solve_decision. Defined.
Global Instance job_error_eq_dec : EqDecision JobError.
Proof. solve_decision. Defined.

Definition text_present (o : option text) : bool :=
  match o with Some t => bool_decide ((0 < sql_length t)%nat) | None => false end.

Definition blob_between (lo hi : Z) (b : bytes) : bool := (lo <=? byte_count b) && (byte_count b <=? hi).

(** The CHECK constraints of [connect_attachment_jobs]. *)
Definition request_row_ok (r : JobRequest) (provider_app_id provider_instance_id : option text) : bool :=
  (if r.(jr_v2)
   then bool_decide (sql_length r.(jr_invocation_fingerprint) = 64%nat) && (0 <=? r.(jr_input).(ia_byte_size)) &&
        is_some provider_app_id && is_some r.(jr_provider_app_version) && is_some provider_instance_id &&
        text_present r.(jr_input_display_name) && text_present r.(jr_source_app_id) &&
        is_some r.(jr_request_json)
   else bool_decide (r.(jr_invocation_fingerprint) = str "v1") && (0 <? r.(jr_input).(ia_byte_size))) &&
  bool_decide (sql_length r.(jr_input).(ia_sha256) = 64%nat) &&
  match r.(jr_request_json) with Some b => blob_between 1 131072 b | None => true end.

Definition v1_output_complete (o : V1Output) : bool :=
  is_some o.(vo_artifact_id) && is_some o.(vo_media_type) && is_some o.(vo_byte_size) &&
  is_some o.(vo_sha256) && is_some o.(vo_summary_version) && text_present o.(vo_summary_text) &&
  is_some o.(vo_warnings_json).

Definition job_row_ok (j : ConnectJob) : bool :=
  request_row_ok j.(jb_request) j.(jb_provider_app_id) j.(jb_provider_instance_id) &&
  match j.(jb_output).(vo_byte_size) with Some n => 0 <? n | None => true end &&
  match j.(jb_output).(vo_sha256) with
  | Some h => bool_decide (sql_length h = 64%nat) | None => true end &&
  match j.(jb_result_json) with Some b => blob_between 1 25165824 b | None => true end &&
  match j.(jb_result_metadata_json) with Some b => blob_between 1 65536 b | None => true end &&
  match j.(jb_status) with
  | Completed =>
      bool_decide (j.(jb_error) = no_error) &&
      (if j.(jb_request).(jr_v2)
       then bool_decide (j.(jb_output) = no_output) && is_some j.(jb_result_json) &&
            is_some j.(jb_result_metadata_json)
       else v1_output_complete j.(jb_output) && is_none j.(jb_result_json) &&
            is_none j.(jb_result_metadata_json))
  | Failed =>
      is_some j.(jb_error).(er_code) && is_some j.(jb_error).(er_message) &&
      is_some j.(jb_error).(er_retryable) && bool_decide (j.(jb_output) = no_output) &&
      is_none j.(jb_result_json) && is_none j.(jb_result_metadata_json)
  | _ =>
      bool_decide (j.(jb_output) = no_output) && is_none j.(jb_result_json) &&
      is_none j.(jb_result_metadata_json) && bool_decide (j.(jb_error) = no_error)
  end.

(** ** Dispatch *)

Inductive dispatch_state := Waiting | Dispatching | Reconciling | ProviderOwned | Terminal.

Global Instance dispatch_state_eq_dec : EqDecision dispatch_state.
Proof. solve_decision. Defined.

Inductive provider_state := PRequested | PAccepted | PProcessing.

Global Instance provider_state_eq_dec : EqDecision provider_state.
Proof. solve_decision. Defined.

(** The columns of a dispatch that are written once. *)
Record DispatchAuthority := mk_authority {
  da_external_effects : bool;
  da_confirmation_required : bool;
  da_authority_known : bool;
  da_produces_json : text;
  da_required_features_json : text;
  da_selection_json : option text;
  da_created_at : text }.

Record dispatch_row := mk_dispatch {
  ds_state : dispatch_state;
  ds_attempt_count : Z;
  ds_failure_count : Z;
  ds_next_attempt_at : option text;
  ds_admission_deadline : text;
  ds_submission_possible : bool;
  ds_source_available : bool;
  ds_authority : DispatchAuthority;
  ds_interactive_at : option text;
  ds_paused_at : option text;
  ds_highest : provider_state;
  ds_error_code : option text;
  ds_error_message : option text;
  ds_updated_at : text }.

Definition authority_row_ok (a : DispatchAuthority) : bool :=
  let between lo hi t := (lo <=? Z.of_nat (sql_length t)) && (Z.of_nat (sql_length t) <=? hi) in
  between 2 4096 a.(da_produces_json) && between 2 256 a.(da_required_features_json) &&
  match a.(da_selection_json) with Some t => between 2 65536 t | None => true end.

(** ** Fires *)

Inductive fire_state :=
| PendingDispatch | EntitlementPaused | AwaitingConfirmation | Submitted
| FireCompleted | FireFailed | Declined | ManualReview | SourceUnavailable.

Global Instance fire_state_eq_dec : EqDecision fire_state.
Proof. solve_decision. Defined.

(** The columns of a fire that no statement updates. *)
Record FireSource := mk_fire_source {
  fs_event_id : text;
  fs_rule_id : text;
  fs_rule_version : Z;
  fs_message_id : text;
  fs_part_id : text;
  fs_created_at : text }.

(** [AutomationFire], without its key; [prepared_identity_sha256] and
    [prepared_identity_json] are set together. *)
Record AutomationFire := mk_fire {
  fi_source : FireSource;
  fi_state : fire_state;
  fi_version : Z;
  fi_reason : option text;
  fi_attempt_no : Z;
  fi_job_id : option text;
  fi_prepared : option (text * bytes);
  fi_confirmed : bool;
  fi_pending_since : option text;
  fi_pending_seconds : Z;
  fi_updated_at : text }.

Record AutomationFireAttempt := mk_attempt {
  at_dispatch_request_id : text;
  at_job_id : option text;
  at_created_at : text }.

(** [automation_fire_source_identities]: mailbox, message and part. *)
Abbreviation FireIdentity := (MailScope * text * text)%type.

(** ** Certificates *)

(** [terminal_replay_failure] *)
Inductive certificate_failure := CertificateConflict | CertificateInvalid.

Global Instance certificate_failure_eq_dec : EqDecision certificate_failure.
Proof. solve_decision. Defined.

(** A text with its provenance, set together. *)
Abbreviation text_columns := (option (text * bytes)).

(** The single date, whether it is ambiguous, candidates and provenance, set together. *)
Abbreviation date_columns := (option (option text * bool * bytes * bytes)).

(** The columns of a certificate that repeat its record. *)
Record parent_columns := mk_parent {
  pa_certificate_holder : text_columns;
  pa_insured : text_columns;
  pa_producer : text_columns;
  pa_review_reasons : bytes }.

Record child_columns := mk_child {
  ch_coverage : text_columns;
  ch_insurer : text_columns;
  ch_policy_number : text_columns;
  ch_effective_date : date_columns;
  ch_expiration_date : date_columns;
  ch_review_reasons : bytes }.

Global Instance parent_columns_eq_dec : EqDecision parent_columns.
Proof. solve_decision. Defined.
Global Instance child_columns_eq_dec : EqDecision child_columns.
Proof. solve_decision. Defined.

(** [certificate_records], without its key *)
Record CertificateRow := mk_certificate_row {
  cr_scope : MailScope;
  cr_message_id : text;
  cr_part_id : text;
  cr_job_id : text;
  cr_display_reference : option text;
  cr_result_sha256 : text;
  cr_canonical_json : bytes;
  cr_columns : parent_columns;
  cr_replay_failure : option certificate_failure;
  cr_created_at : text;
  cr_updated_at : text }.

(** [certificate_policy_rows], without its key *)
Record PolicyRow := mk_policy_row {
  pl_certificate_id : text;
  pl_ordinal : Z;
  pl_columns : child_columns;
  pl_created_at : text;
  pl_updated_at : text }.

(** The checks of [certificate_records]. *)
Definition certificate_row_ok (certificate_id : text) (c : CertificateRow) : bool :=
  bool_decide (sql_length certificate_id = 36%nat) &&
  negb (bool_decide (c.(cr_scope).1.1 = [])) && negb (bool_decide (c.(cr_scope).1.2 = [])) &&
  identity_key_ok c.(cr_scope).2 && negb (bool_decide (c.(cr_message_id) = [])) &&
  bool_decide (sql_length c.(cr_job_id) = 36%nat) && identity_key_ok c.(cr_result_sha256) &&
  blob_between 2 2097152 c.(cr_canonical_json) && blob_between 2 8192 c.(cr_columns).(pa_review_reasons).

(** The single date is set exactly when the date is not ambiguous. *)
Definition date_columns_ok (d : date_columns) : bool :=
  match d with Some (iso, ambiguous, _, _) => Bool.eqb ambiguous (is_none iso) | None => true end.

(** The checks of [certificate_policy_rows]. *)
Definition policy_row_ok (policy_id : text) (p : PolicyRow) : bool :=
  bool_decide (sql_length policy_id = 36%nat) && bool_decide (sql_length p.(pl_certificate_id) = 36%nat) &&
  (0 <=? p.(pl_ordinal)) && (p.(pl_ordinal) <=? 99) &&
  date_columns_ok p.(pl_columns).(ch_effective_date) && date_columns_ok p.(pl_columns).(ch_expiration_date) &&
  blob_between 2 8192 p.(pl_columns).(ch_review_reasons).

(** The checks of [automation_fire_source_identities]. *)
Definition identity_row_ok (fire_id : text) (i : FireIdentity) : bool :=
  let '(provider, account_id, mailbox_identity_key, message_id, _) := i in
  bool_decide (sql_length fire_id = 36%nat) && negb (bool_decide (provider = [])) &&
  negb (bool_decide (account_id = [])) && identity_key_ok mailbox_identity_key &&
  negb (bool_decide (message_id = [])).

(** ** The store *)

Record connect_store := mk_connect {
  cs_jobs : gmap text ConnectJob;
  cs_dispatch : gmap text dispatch_row;
  cs_fires : gmap text AutomationFire;
  cs_attempts : gmap (text * Z) AutomationFireAttempt;
  (** confirmed hash and time *)
  cs_confirmations : gmap text (text * text);
  cs_identities : gmap text FireIdentity;
  cs_sources : SourceTables;
  cs_attachments : gset (text * text);
  cs_certificates : gmap text CertificateRow;
  cs_policies : gmap text PolicyRow }.

Section Store.
Implicit Types s : connect_store.

Definition set_jobs (x : gmap text ConnectJob) s : connect_store :=
  mk_connect x s.(cs_dispatch) s.(cs_fires) s.(cs_attempts) s.(cs_confirmations) s.(cs_identities) s.(cs_sources)
    s.(cs_attachments) s.(cs_certificates) s.(cs_policies).
Definition set_dispatch (x : gmap text dispatch_row) s : connect_store :=
  mk_connect s.(cs_jobs) x s.(cs_fires) s.(cs_attempts) s.(cs_confirmations) s.(cs_identities) s.(cs_sources)
    s.(cs_attachments) s.(cs_certificates) s.(cs_policies).
Definition set_fires (x : gmap text AutomationFire) s : connect_store :=
  mk_connect s.(cs_jobs) s.(cs_dispatch) x s.(cs_attempts) s.(cs_confirmations) s.(cs_identities) s.(cs_sources)
    s.(cs_attachments) s.(cs_certificates) s.(cs_policies).
Definition set_attempts (x : gmap (text * Z) AutomationFireAttempt) s : connect_store :=
  mk_connect s.(cs_jobs) s.(cs_dispatch) s.(cs_fires) x s.(cs_confirmations) s.(cs_identities) s.(cs_sources)
    s.(cs_attachments) s.(cs_certificates) s.(cs_policies).
Definition set_confirmations (x : gmap text (text * text)) s : connect_store :=
  mk_connect s.(cs_jobs) s.(cs_dispatch) s.(cs_fires) s.(cs_attempts) x s.(cs_identities) s.(cs_sources)
    s.(cs_attachments) s.(cs_certificates) s.(cs_policies).
Definition set_identities (x : gmap text FireIdentity) s : connect_store :=
  mk_connect s.(cs_jobs) s.(cs_dispatch) s.(cs_fires) s.(cs_attempts) s.(cs_confirmations)
    x s.(cs_sources) s.(cs_attachments) s.(cs_certificates) s.(cs_policies).
Definition set_sources (x : SourceTables) (attachments : gset (text * text)) s : connect_store :=
  mk_connect s.(cs_jobs) s.(cs_dispatch) s.(cs_fires) s.(cs_attempts) s.(cs_confirmations)
    s.(cs_identities) x attachments s.(cs_certificates) s.(cs_policies).
Definition set_certificates (x : gmap text CertificateRow) s : connect_store :=
  mk_connect s.(cs_jobs) s.(cs_dispatch) s.(cs_fires) s.(cs_attempts) s.(cs_confirmations)
    s.(cs_identities) s.(cs_sources) s.(cs_attachments) x s.(cs_policies).
Definition set_policies (x : gmap text PolicyRow) s : connect_store :=
  mk_connect s.(cs_jobs) s.(cs_dispatch) s.(cs_fires) s.(cs_attempts) s.(cs_confirmations)
    s.(cs_identities) s.(cs_sources) s.(cs_attachments) s.(cs_certificates) x.

End Store.
