(* ===== verification/ConnectQueue.v ===== *)
(** * Operations of the Connect queue

    Models, of [src/src/eom_email_watcher/db.py], the lanes and claims
    ([connect_queue_ahead], [due_connect_lane_heads], [claim_connect_lane_head]), the
    expiry of waiting jobs ([_expire_waiting_connect_jobs_transaction]), deferral
    ([defer_connect_job]), creation ([create_connect_job]) and the reset for
    resubmission ([reset_connect_job_for_resubmission]).

    Times are instants in microseconds; [now] is [datetime.now(UTC)] or the argument. *)

From S2P Require Export ConnectStore.
From stdpp Require Import options.

Local Open Scope Z_scope.

(** [value + timedelta(...)] *)
Definition plus_us (w d : Z) : py Z := if wall_ok (w + d) then Ret (w + d) else Raise OverflowError.

(** A stored time that must be aware, in UTC. *)
Definition aware_utc (message : string) (value : text) : py Z :=
  match fromisoformat value with
  | None => Raise (ValueError "Invalid isoformat string")
  | Some d => if is_none d.(dt_offset) then Raise (RuntimeError message) else astimezone_utc d
  end.

(** ** Updates of a row *)

Definition with_status (status : job_status) (error : JobError) (stamp : text) (j : ConnectJob) : ConnectJob :=
  mk_job j.(jb_request) j.(jb_provider_app_id) j.(jb_provider_instance_id) status j.(jb_output)
    j.(jb_result_json) j.(jb_result_metadata_json) error stamp.

(** State, next attempt, submission flag and time of a dispatch. *)
Definition with_state (state : dispatch_state) (next_attempt_at : option text) (submission_possible : bool)
    (stamp : text) (d : dispatch_row) : dispatch_row :=
  mk_dispatch state d.(ds_attempt_count) d.(ds_failure_count) next_attempt_at d.(ds_admission_deadline)
    submission_possible d.(ds_source_available) d.(ds_authority) d.(ds_interactive_at) d.(ds_paused_at)
    d.(ds_highest) d.(ds_error_code) d.(ds_error_message) stamp.

Definition with_attempts (attempts failures : Z) (d : dispatch_row) : dispatch_row :=
  mk_dispatch d.(ds_state) attempts failures d.(ds_next_attempt_at) d.(ds_admission_deadline)
    d.(ds_submission_possible) d.(ds_source_available) d.(ds_authority) d.(ds_interactive_at)
    d.(ds_paused_at) d.(ds_highest) d.(ds_error_code) d.(ds_error_message) d.(ds_updated_at).

Definition with_deadline (deadline : text) (paused_at : option text) (d : dispatch_row) : dispatch_row :=
  mk_dispatch d.(ds_state) d.(ds_attempt_count) d.(ds_failure_count) d.(ds_next_attempt_at) deadline
    d.(ds_submission_possible) d.(ds_source_available) d.(ds_authority) d.(ds_interactive_at) paused_at
    d.(ds_highest) d.(ds_error_code) d.(ds_error_message) d.(ds_updated_at).

Definition with_interactive (at_ : option text) (d : dispatch_row) : dispatch_row :=
  mk_dispatch d.(ds_state) d.(ds_attempt_count) d.(ds_failure_count) d.(ds_next_attempt_at)
    d.(ds_admission_deadline) d.(ds_submission_possible) d.(ds_source_available) d.(ds_authority) at_
    d.(ds_paused_at) d.(ds_highest) d.(ds_error_code) d.(ds_error_message) d.(ds_updated_at).

Definition with_highest (highest : provider_state) (d : dispatch_row) : dispatch_row :=
  mk_dispatch d.(ds_state) d.(ds_attempt_count) d.(ds_failure_count) d.(ds_next_attempt_at)
    d.(ds_admission_deadline) d.(ds_submission_possible) d.(ds_source_available) d.(ds_authority)
    d.(ds_interactive_at) d.(ds_paused_at) highest d.(ds_error_code) d.(ds_error_message) d.(ds_updated_at).

Definition with_last_error (code message : option text) (d : dispatch_row) : dispatch_row :=
  mk_dispatch d.(ds_state) d.(ds_attempt_count) d.(ds_failure_count) d.(ds_next_attempt_at)
    d.(ds_admission_deadline) d.(ds_submission_possible) d.(ds_source_available) d.(ds_authority)
    d.(ds_interactive_at) d.(ds_paused_at) d.(ds_highest) code message d.(ds_updated_at).

Definition with_fire (state : fire_state) (reason : option text) (stamp : text) (f : AutomationFire)
    : AutomationFire :=
  mk_fire f.(fi_source) state (f.(fi_version) + 1) reason f.(fi_attempt_no) f.(fi_job_id) f.(fi_prepared)
    f.(fi_confirmed) None f.(fi_pending_seconds) stamp.

(** A job with its dispatch. *)
Abbreviation queued := (text * (ConnectJob * dispatch_row))%type.

Section Queue.
Context `{Unicode} `{ConnectLib}.
Implicit Types s : connect_store.

(** [connect_attachment_jobs JOIN connect_job_dispatch] *)
Definition joined s : list queued :=
  omap (fun e => d ← s.(cs_dispatch) !! e.1; Some (e.1, (e.2, d))) (map_to_list s.(cs_jobs)).

(** ** Lanes *)

Definition in_flight (state : dispatch_state) : bool :=
  match state with Dispatching | Reconciling | ProviderOwned => true | _ => false end.

Definition lane_class (state : dispatch_state) : Z :=
  match state with Dispatching => 0 | Reconciling | ProviderOwned => 1 | _ => 2 end.

(** An active protocol-2 job that waits or is in flight; a paused one only when it is
    in flight. *)
Definition in_lane (e : queued) : bool :=
  let '(_, (j, d)) := e in
  j.(jb_request).(jr_v2) && active_status j.(jb_status) && negb (bool_decide (d.(ds_state) = Terminal)) &&
  (is_none d.(ds_paused_at) || in_flight d.(ds_state)).

Definition created_ltb (a b : queued) : bool :=
  text_ltb a.2.1.(jb_request).(jr_created_at) b.2.1.(jb_request).(jr_created_at) ||
  (bool_decide (a.2.1.(jb_request).(jr_created_at) = b.2.1.(jb_request).(jr_created_at)) && text_ltb a.1 b.1).

(** The order of a lane: what is in flight first, then by creation. *)
Definition lane_ltb (a b : queued) : bool :=
  let ca := lane_class a.2.2.(ds_state) in
  let cb := lane_class b.2.2.(ds_state) in
  (ca <? cb) || ((ca =? cb) && created_ltb a b).

Definition lane_leb (a b : queued) : bool := negb (lane_ltb b a).
Definition created_leb (a b : queued) : bool := negb (created_ltb b a).

Definition same_lane (a b : queued) : bool :=
  sql_is a.2.1.(jb_provider_app_id) b.2.1.(jb_provider_app_id) &&
  sql_is a.2.1.(jb_provider_instance_id) b.2.1.(jb_provider_instance_id).

Definition lane_of (provider_app_id provider_instance_id : text) (e : queued) : bool :=
  sql_eq e.2.1.(jb_provider_app_id) (Some provider_app_id) &&
  sql_eq e.2.1.(jb_provider_instance_id) (Some provider_instance_id).

(** The rows of a lane, in its order. *)
Definition lane (provider_app_id provider_instance_id : text) s : list queued :=
  sort_by lane_leb
    (List.filter (fun e => in_lane e && lane_of provider_app_id provider_instance_id e) (joined s)).

(** [lane_rank - 1] of a row of the lanes. *)
Definition ahead (e : queued) s : nat :=
  length (List.filter (fun o => in_lane o && same_lane o e && lane_ltb o e) (joined s)).

(** [Store.connect_queue_ahead] *)
Definition connect_queue_ahead (job_id : text) s : nat :=
  match s.(cs_jobs) !! job_id, s.(cs_dispatch) !! job_id with
  | Some j, Some d => if in_lane (job_id, (j, d)) then ahead (job_id, (j, d)) s else O
  | _, _ => O
  end.

(** [next_attempt_at IS NULL OR aware_iso_epoch(next_attempt_at) <= aware_iso_epoch(?)] *)
Definition attempt_due (stamp : text) (d : dispatch_row) : bool :=
  match d.(ds_next_attempt_at) with
  | None => true
  | Some t => match aware_iso_epoch t, aware_iso_epoch stamp with
              | Some a, Some b => a <=? b
              | _, _ => false
              end
  end.

(** ** Expiry *)

Definition deadline_passed (stamp : text) (d : dispatch_row) : bool :=
  match aware_iso_epoch d.(ds_admission_deadline), aware_iso_epoch stamp with
  | Some a, Some b => a <=? b
  | _, _ => false
  end.

(** A job that was never submitted and whose admission deadline has passed. *)
Definition expirable (stamp : text) (e : queued) : bool :=
  let '(_, (j, d)) := e in
  j.(jb_request).(jr_v2) && bool_decide (j.(jb_status) = Requested) && bool_decide (d.(ds_state) = Waiting) &&
  negb d.(ds_submission_possible) && is_none d.(ds_paused_at) && deadline_passed stamp d.

Definition deadline_leb (a b : queued) : bool :=
  let da := a.2.2.(ds_admission_deadline) in
  let db := b.2.2.(ds_admission_deadline) in
  text_ltb da db || (bool_decide (da = db) && text_leb a.1 b.1).

Definition deadline_error : JobError :=
  mk_error (Some (str "connect_queue_deadline_exceeded"))
    (Some (str "The provider queue admission deadline expired.")) (Some false).

Definition expire_job (stamp : text) s (job_id : text) : connect_store :=
  let s := set_jobs (alter (fun j => if bool_decide (j.(jb_status) = Requested)
                                     then with_status Failed deadline_error stamp j else j)
                       job_id s.(cs_jobs)) s in
  set_dispatch (alter (fun d => if bool_decide (d.(ds_state) = Waiting) && negb d.(ds_submission_possible)
                                then with_state Terminal None d.(ds_submission_possible) stamp d else d)
                  job_id s.(cs_dispatch)) s.

(** [Store._expire_waiting_connect_jobs_transaction] *)
Definition _expire_waiting_connect_jobs_transaction (stamp : text) s : list text * connect_store :=
  let job_ids := (sort_by deadline_leb (List.filter (expirable stamp) (joined s))).*1 in
  (job_ids, fold_left (expire_job stamp) job_ids s).

(** [Store.expire_waiting_connect_jobs] *)
Definition expire_waiting_connect_jobs (now : Z) s : list text * connect_store :=
  _expire_waiting_connect_jobs_transaction (isoformat (utc now)) s.

(** [Store.due_connect_lane_heads] *)
Definition due_connect_lane_heads (now : Z) (limit : Z) s : py (list (text * ConnectJob) * connect_store) :=
  _ ← require ((1 <=? limit) && (limit <=? Z.of_nat CONNECT_QUEUE_MAX_JOBS))
        (ValueError "Connect queue pump limit is invalid");
  let stamp := isoformat (utc now) in
  let s := (_expire_waiting_connect_jobs_transaction stamp s).2 in
  let heads := List.filter (fun e => in_lane e && bool_decide (ahead e s = O) &&
                 (bool_decide (e.2.2.(ds_state) = Dispatching) || attempt_due stamp e.2.2)) (joined s) in
  Ret ((fun e => (e.1, e.2.1)) <$> take (Z.to_nat limit) (sort_by created_leb heads), s).

(** ** Reading a dispatch *)

(** [ConnectDispatch]: the row with its decoded columns. *)
Record ConnectDispatch := mk_connect_dispatch {
  cd_row : dispatch_row;
  cd_source_available : bool;
  cd_produces : list text;
  cd_required_features : json;
  cd_selection : option capability }.

(** [Store._connect_dispatch] *)
Definition _connect_dispatch (row : dispatch_row) (source_available : bool) : py ConnectDispatch :=
  let a := row.(ds_authority) in
  produces ← _decode_connect_capability_produces a.(da_produces_json);
  features ← JsonParse.loads a.(da_required_features_json);
  features ← validate_manifest_features features;
  selection ← match a.(da_selection_json) with
              | Some encoded => c ← decode_selection encoded; Ret (Some c)
              | None => Ret None
              end;
  Ret (mk_connect_dispatch row source_available produces features selection).

(** [Store.connect_dispatch] *)
Definition connect_dispatch (job_id : text) s : py (option ConnectDispatch) :=
  match s.(cs_dispatch) !! job_id with
  | None => Ret None
  | Some row =>
      job ← require_some (s.(cs_jobs) !! job_id) (RuntimeError "Connect dispatch is missing its job");
      let eligible := message_available s.(cs_sources) CONTENT job.(jb_request).(jr_message_id) in
      d ← _connect_dispatch row (row.(ds_source_available) && eligible); Ret (Some d)
  end.

(** ** Claims *)

(** The dispatch after a claim: a waiting job is dispatched, an interrupted dispatch is
    reconciled. *)
Definition claimed (stamp : text) (d : dispatch_row) : dispatch_row :=
  with_state
    match d.(ds_state) with Dispatching => Reconciling | Waiting => Dispatching | st => st end
    None
    match d.(ds_state) with Waiting | Dispatching => true | _ => d.(ds_submission_possible) end
    stamp
    (with_attempts (d.(ds_attempt_count) + if bool_decide (d.(ds_state) = Waiting) then 1 else 0)
       d.(ds_failure_count) d).

(** [Store.claim_connect_lane_head] *)
Definition claim_connect_lane_head (provider_app_id provider_instance_id : text)
    (expected_job_id : option text) (now : Z) s
    : py (option (text * ConnectJob * py ConnectDispatch) * connect_store) :=
  let stamp := isoformat (utc now) in
  let s := (_expire_waiting_connect_jobs_transaction stamp s).2 in
  match head (lane provider_app_id provider_instance_id s) with
  | None => Ret (None, s)
  | Some (job_id, (j, d)) =>
      if negb (match expected_job_id with Some e => bool_decide (job_id = e) | None => true end)
      then Ret (None, s)
      else if negb (bool_decide (d.(ds_state) = Dispatching)) && negb (attempt_due stamp d)
      then Ret (None, s)
      else
        let eligible := message_available s.(cs_sources) CONTENT j.(jb_request).(jr_message_id) in
        if negb eligible && bool_decide (d.(ds_state) = Waiting) && negb d.(ds_submission_possible)
        then Ret (None, s)
        else
          let d' := claimed stamp d in
          Ret (Some (job_id, j, _connect_dispatch d' (d'.(ds_source_available) && eligible)),
               set_dispatch (<[job_id := d']> s.(cs_dispatch)) s)
  end.

(** ** Deferral *)

(** [value.encode("utf-8")[:n].decode("utf-8", errors="ignore")] *)
Definition clipped (n : nat) (value : text) : py text :=
  encoded ← require_some (Utf8.encode value) UnicodeEncodeError;
  Ret (Utf8.decode_ignore (take n encoded)).

(** [_pause_linked_automation_fires] *)
Definition pause_fire (job_id stamp : text) (f : AutomationFire) : AutomationFire :=
  if sql_eq f.(fi_job_id) (Some job_id) && bool_decide (f.(fi_state) = Submitted)
  then with_fire EntitlementPaused (Some (str "entitlement_inactive")) stamp f else f.

Definition linked_submitted (job_id : text) s : list text :=
  (List.filter (fun e => sql_eq e.2.(fi_job_id) (Some job_id) && bool_decide (e.2.(fi_state) = Submitted))
     (map_to_list s.(cs_fires))).*1.

Definition _pause_linked_automation_fires (job_id stamp : text) s : nat * connect_store :=
  (length (linked_submitted job_id s), set_fires (pause_fire job_id stamp <$> s.(cs_fires)) s).

(** The time of the next attempt of a deferred job: a job that goes back to waiting is
    tried no later than its admission deadline. *)
Definition deferred_attempt (next_state : dispatch_state) (d : dispatch_row) (next_attempt : Z) : py text :=
  if bool_decide (next_state = Waiting) then
    match fromisoformat d.(ds_admission_deadline) with
    | None => Raise (ValueError "Invalid isoformat string")
    | Some deadline =>
        match instant deadline with
        | None => Raise (RuntimeError "Connect admission deadline must include a timezone")
        | Some i => if i <? next_attempt
                    then w ← astimezone_utc deadline; Ret (isoformat (utc w))
                    else Ret (isoformat (utc next_attempt))
        end
    end
  else Ret (isoformat (utc next_attempt)).

(** [Store.defer_connect_job] *)
Definition defer_connect_job (job_id : text) (expected_state next_state : dispatch_state)
    (error_code error_message : text) (delay_seconds : Z)
    (pause_automation_deadline pause_linked_automation_fires : bool) (now : Z) s
    : py (py ConnectDispatch * connect_store) :=
  _ ← require (in_flight expected_state) (ValueError "Connect retry expected state is invalid");
  _ ← require (match next_state with Waiting | Reconciling | ProviderOwned => true | _ => false end)
        (ValueError "Connect retry next state is invalid");
  _ ← require ((0 <=? delay_seconds) && (delay_seconds <=? 30))
        (ValueError "Connect retry delay must be between 0 and 30 seconds");
  _ ← require (negb (pause_linked_automation_fires && negb pause_automation_deadline))
        (ValueError "Linked automation fires require a paused dispatch deadline");
  code ← clipped MAX_CONNECT_DISPATCH_ERROR_CODE_BYTES error_code;
  message ← clipped MAX_CONNECT_DISPATCH_ERROR_MESSAGE_BYTES error_message;
  _ ← require (truthy code && truthy message) (ValueError "Connect retry diagnostics cannot be empty");
  let stamp := isoformat (utc now) in
  next_attempt ← plus_us now (delay_seconds * US);
  let lost := RuntimeError "Connect retry lost its expected dispatch-state race" in
  j ← require_some (s.(cs_jobs) !! job_id) lost;
  d ← require_some (s.(cs_dispatch) !! job_id) lost;
  _ ← require (bool_decide (d.(ds_state) = expected_state)) lost;
  _ ← require (active_status j.(jb_status)) (RuntimeError "Only active Connect jobs can be deferred");
  _ ← require (negb (bool_decide (next_state = Waiting) &&
                     (negb (bool_decide (j.(jb_status) = Requested)) ||
                      negb (bool_decide (d.(ds_highest) = PRequested)))))
        (RuntimeError "Provider-owned Connect work cannot return to waiting");
  _ ← require (negb (bool_decide (next_state = ProviderOwned) && bool_decide (j.(jb_status) = Requested)))
        (RuntimeError "Requested Connect work cannot become provider-owned");
  next_attempt_at ← deferred_attempt next_state d next_attempt;
  let waiting := bool_decide (next_state = Waiting) in
  let d' := with_last_error (Some code) (Some message)
              (with_deadline d.(ds_admission_deadline)
                 (if pause_automation_deadline
                  then Some (default stamp d.(ds_paused_at)) else d.(ds_paused_at))
                 (with_attempts d.(ds_attempt_count) (d.(ds_failure_count) + if waiting then 0 else 1)
                    (with_state next_state (Some next_attempt_at) (negb waiting) stamp d))) in
  let s := set_dispatch (<[job_id := d']> s.(cs_dispatch)) s in
  let s := if pause_linked_automation_fires then (_pause_linked_automation_fires job_id stamp s).2 else s in
  let s := if waiting then (_expire_waiting_connect_jobs_transaction stamp s).2 else s in
  updated ← require_some (s.(cs_dispatch) !! job_id)
              (RuntimeError "Deferred Connect job is missing dispatch state");
  Ret (_connect_dispatch updated updated.(ds_source_available), s).

End Queue.
