(* ===== verification/ConnectJobs.v ===== *)
(** * The life of a Connect job

    Models, of [src/src/eom_email_watcher/db.py], the creation of a job
    ([create_connect_job]), its transitions ([transition_connect_job] with
    [completed_connect_warnings] and [_discard_settled_source_less_certificate_job]),
    the reset for resubmission ([reset_connect_job_for_resubmission]) and the triggers
    on the deletion of a job. *)

From S2P Require Export ConnectQueue.
From stdpp Require Import options.

Local Open Scope Z_scope.

Section Jobs.
Context `{Unicode} `{ConnectLib}.
Implicit Types s : connect_store.

(** ** Creation *)

(** The strings of a feature list. *)
Definition feature_names (j : json) : option (list text) :=
  match j with JArr l => mapM read_str l | _ => None end.

Definition no_features (j : json) : bool := match j with JArr (_ :: _) => false | _ => true end.

(** [parameters == other], as dictionaries: [True == 1]. *)
Definition parameter_eq (a b : parameter) : bool :=
  match a, b with
  | PStr x, PStr y => bool_decide (x = y)
  | PInt x, PInt y => x =? y
  | PBool x, PBool y => bool_decide (x = y)
  | PBool x, PInt y | PInt y, PBool x => Z.b2z x =? y
  | _, _ => false
  end.

Definition parameters_eq (a b : list (text * parameter)) : bool :=
  bool_decide (length a = length b) &&
  forallb (fun e => existsb (fun f => bool_decide (e.1 = f.1) && parameter_eq e.2 f.2) b) a.

(** What a job is created from. *)
Record NewJob := mk_new_job {
  nj_job_id : text;
  nj_message_id : text;
  nj_part_id : text;
  nj_capability_id : text;
  nj_capability_version : text;
  nj_provider_app_id : text;
  nj_provider_instance_id : text;
  nj_input : InputArtifact;
  nj_protocol_version : Z;
  nj_provider_app_version : option text;
  nj_input_display_name : option text;
  nj_source_app_id : option text;
  nj_request_json : option bytes;
  nj_required_features : json;
  nj_selection : option capability;
  nj_produces : list text;
  nj_external_effects : bool;
  nj_confirmation_required : bool }.

(** The invocation fingerprint and the encoded output authority of a new job. *)
Definition job_identity (n : NewJob) (features : json) : py (text * text) :=
  if n.(nj_protocol_version) =? 1 then
    _ ← require (is_none n.(nj_request_json) && no_features features && is_none n.(nj_selection) &&
                 negb (truthy_list n.(nj_produces)) && negb n.(nj_external_effects) &&
                 negb n.(nj_confirmation_required))
          (ValueError "Connect v1 jobs cannot store a v2 request");
    Ret (str "v1", str "[]")
  else
    match present n.(nj_provider_app_version), present n.(nj_input_display_name),
          present n.(nj_source_app_id), n.(nj_request_json) with
    | Some app_version, Some display_name, Some source_app_id, Some request_json =>
        produces ← _encode_connect_capability_produces (Some (JStr <$> n.(nj_produces)));
        fingerprint ← _validate_v2_request_record request_json n.(nj_job_id) n.(nj_capability_id)
                        n.(nj_capability_version) n.(nj_provider_app_id) app_version
                        n.(nj_provider_instance_id) n.(nj_input) display_name source_app_id features;
        Ret (fingerprint, produces)
    | _, _, _, _ => Raise (ValueError "Connect v2 job provenance is incomplete")
    end.

(** The selection must describe the request that is stored. *)
Definition selection_matches (n : NewJob) : py unit :=
  match n.(nj_selection), n.(nj_request_json) with
  | Some c, Some request_json =>
      request ← _decode_v2_request request_json;
      parameters ← _canonical_v2_parameters (member (str "parameters") request);
      validated ← validate_capability_parameters c parameters;
      require (parameters_eq validated parameters) (ValueError "Selection does not match durable request")
  | _, _ => Ret tt
  end.

(** Active protocol-2 jobs of the same invocation, oldest first. *)
Definition same_invocation (message_id part_id fingerprint : text) s : list (text * ConnectJob) :=
  List.filter (fun e => let r := e.2.(jb_request) in
      bool_decide (r.(jr_message_id) = message_id) && bool_decide (r.(jr_part_id) = part_id) &&
      r.(jr_v2) && bool_decide (r.(jr_invocation_fingerprint) = fingerprint) &&
      active_status e.2.(jb_status)) (map_to_list s.(cs_jobs)).

Definition job_leb (a b : text * ConnectJob) : bool :=
  let ca := a.2.(jb_request).(jr_created_at) in
  let cb := b.2.(jb_request).(jr_created_at) in
  text_ltb ca cb || (bool_decide (ca = cb) && text_leb a.1 b.1).

(** [idx_connect_attachment_jobs_active] *)
Definition v1_active_duplicate (r : JobRequest) s : bool :=
  negb r.(jr_v2) &&
  existsb (fun e => let q := e.2.(jb_request) in
      negb q.(jr_v2) && active_status e.2.(jb_status) &&
      bool_decide (q.(jr_message_id) = r.(jr_message_id)) && bool_decide (q.(jr_part_id) = r.(jr_part_id)) &&
      bool_decide (q.(jr_capability_id) = r.(jr_capability_id)) &&
      bool_decide (q.(jr_capability_version) = r.(jr_capability_version)) &&
      bool_decide (q.(jr_invocation_fingerprint) = r.(jr_invocation_fingerprint)))
    (map_to_list s.(cs_jobs)).

(** [INSERT INTO connect_attachment_jobs] and, for protocol 2, [connect_job_dispatch]. *)
Definition insert_job (job_id : text) (j : ConnectJob) (a : DispatchAuthority) (now : Z) (stamp : text) s
    : py connect_store :=
  _ ← require (is_none (s.(cs_jobs) !! job_id) && job_row_ok j && negb (v1_active_duplicate j.(jb_request) s))
        (IntegrityError "connect_attachment_jobs");
  let s := set_jobs (<[job_id := j]> s.(cs_jobs)) s in
  if j.(jb_request).(jr_v2) then
    deadline ← plus_us now CONNECT_QUEUE_ADMISSION_WINDOW;
    _ ← require (is_none (s.(cs_dispatch) !! job_id) && authority_row_ok a)
          (IntegrityError "connect_job_dispatch");
    Ret (set_dispatch (<[job_id := mk_dispatch Waiting 0 0 None (isoformat (utc deadline)) false true a
                                     None None PRequested None None stamp]> s.(cs_dispatch)) s)
  else Ret s.

(** The transaction of [create_connect_job]: a job of the same invocation is returned
    as it is; otherwise the job is inserted if its lane has room. *)
Definition place_job (job_id : text) (j : ConnectJob) (a : DispatchAuthority) (app instance : text)
    (now : Z) (stamp : text) s : py (text * ConnectJob * connect_store) :=
  let r := j.(jb_request) in
  let s := if r.(jr_v2) then (_expire_waiting_connect_jobs_transaction stamp s).2 else s in
  match head (sort_by job_leb
                (if r.(jr_v2) then same_invocation r.(jr_message_id) r.(jr_part_id)
                                     r.(jr_invocation_fingerprint) s else [])) with
  | Some (existing_id, existing) =>
      _ ← require (negb (bool_decide (existing_id = job_id)))
            (IntegrityError "Connect job identity already exists");
      Ret (existing_id, existing, s)
  | None =>
      _ ← require (negb r.(jr_v2) || (length (lane app instance s) <? CONNECT_QUEUE_MAX_JOBS)%nat)
            (ConnectQueueFull "Connect provider queue is full");
      s ← insert_job job_id j a now stamp s;
      Ret (job_id, j, s)
  end.

(** [Store.create_connect_job] *)
Definition create_connect_job (n : NewJob) (now : Z) s : py (text * ConnectJob * connect_store) :=
  features ← validate_manifest_features n.(nj_required_features);
  acknowledged ← match n.(nj_selection) with
                 | Some c => get_member (str "acknowledged_manifest_features") (asdict c)
                 | None => Ret features
                 end;
  _ ← require (bool_decide (feature_names acknowledged = feature_names features))
        (ValueError "Selection and feature requirement disagree");
  let features_json := dumps_with true false features in
  selection_json ← match n.(nj_selection) with
                   | Some c => encoded ← encode_selection c; Ret (Some encoded)
                   | None => Ret None
                   end;
  _ ← require ((n.(nj_protocol_version) =? 1) || (n.(nj_protocol_version) =? 2))
        (ValueError "Connect protocol version is unsupported");
  '(fingerprint, produces_json) ← job_identity n features;
  _ ← selection_matches n;
  let stamp := isoformat (utc now) in
  let missing := KeyError (n.(nj_message_id) ++ str "," ++ n.(nj_part_id)) in
  _ ← require (message_available s.(cs_sources) CONTENT n.(nj_message_id)) missing;
  _ ← require (bool_decide ((n.(nj_message_id), n.(nj_part_id)) ∈ s.(cs_attachments))) missing;
  let request := mk_job_request n.(nj_message_id) n.(nj_part_id) (n.(nj_protocol_version) =? 2)
                   n.(nj_capability_id) n.(nj_capability_version) n.(nj_provider_app_version) fingerprint
                   n.(nj_input) n.(nj_input_display_name) n.(nj_source_app_id) n.(nj_request_json) stamp in
  let j := mk_job request (Some n.(nj_provider_app_id)) (Some n.(nj_provider_instance_id)) Requested
             no_output None None no_error stamp in
  let a := mk_authority n.(nj_external_effects) n.(nj_confirmation_required) true produces_json
             features_json selection_json stamp in
  place_job n.(nj_job_id) j a n.(nj_provider_app_id) n.(nj_provider_instance_id) now stamp s.

(** ** Deletion *)

(** The reason the trigger [connect_jobs_delete_linked_automation_fires] leaves.  The fires'
    [CHECK (reason <> '')] would abort the DELETE for a job that failed with an empty error
    code; providers give none that is empty, and the check is left out. *)
Definition removed_fire (job_id : text) (j : ConnectJob) (sql_now : text) (f : AutomationFire) : AutomationFire :=
  if sql_eq f.(fi_job_id) (Some job_id) &&
     (bool_decide (f.(fi_state) = Submitted) || bool_decide (f.(fi_state) = EntitlementPaused)) then
    let '(state, reason, kept) :=
      match j.(jb_status) with
      | Completed => (FireCompleted, str "connect_completed", Some job_id)
      | Failed => (FireFailed, take 128 (default (str "connect_failed") j.(jb_error).(er_code)), Some job_id)
      | _ => (SourceUnavailable, str "job_removed", None)
      end in
    mk_fire f.(fi_source) state (f.(fi_version) + 1) (Some reason) f.(fi_attempt_no) kept f.(fi_prepared)
      f.(fi_confirmed) None f.(fi_pending_seconds) sql_now
  else f.

(** [DELETE FROM connect_attachment_jobs WHERE job_id = ?] with its triggers;
    [sql_now] is the database's clock. *)
Definition delete_job (job_id sql_now : text) s : connect_store :=
  match s.(cs_jobs) !! job_id with
  | None => s
  | Some j =>
      set_fires (removed_fire job_id j sql_now <$> s.(cs_fires))
        (set_dispatch (delete job_id s.(cs_dispatch)) (set_jobs (delete job_id s.(cs_jobs)) s))
  end.

(** ** Completed protocol-1 results *)

Definition warning_ok (w : json) : bool :=
  match w with
  | JObj m => has_exactly [str "code"; str "message"] m &&
              is_some (str_of (member (str "code") m)) && is_some (str_of (member (str "message") m))
  | _ => false
  end.

Definition SUMMARY_MEDIA_TYPE : text := str "application/vnd.local-connect.document-summary+json".

Definition summary_content (version summary : text) (warnings : list json) (a : InputArtifact) : json :=
  JObj [(str "summary_version", JStr version); (str "text", JStr summary); (str "warnings", JArr warnings);
        (str "input_artifact",
         JObj [(str "artifact_id", JStr a.(ia_artifact_id)); (str "media_type", JStr a.(ia_media_type));
               (str "byte_size", JInt a.(ia_byte_size)); (str "sha256", JStr a.(ia_sha256))])].

(** [Store.completed_connect_warnings] *)
Definition completed_connect_warnings (j : ConnectJob) : py (list json) :=
  let o := j.(jb_output) in
  match j.(jb_status), o.(vo_artifact_id), o.(vo_byte_size), o.(vo_sha256), o.(vo_summary_version),
        o.(vo_summary_text), o.(vo_warnings_json) with
  | Completed, Some _, Some byte_size, Some sha256, Some version, Some summary, Some warnings_json =>
      _ ← require (bool_decide (o.(vo_media_type) = Some SUMMARY_MEDIA_TYPE))
            (RuntimeError "Completed Connect job is missing its durable result");
      match JsonParse.loads warnings_json with
      | Raise JSONDecodeError => Raise (RuntimeError "Completed Connect job warnings are invalid")
      | Raise e => Raise e
      | Ret (JArr warnings) =>
          _ ← require (forallb warning_ok warnings) (RuntimeError "Completed Connect job warnings are invalid");
          encoded ← require_some
                      (Utf8.encode (dumps false (summary_content version summary warnings j.(jb_request).(jr_input))))
                      UnicodeEncodeError;
          _ ← require ((byte_count encoded =? byte_size) && bool_decide (Sha256.hexdigest encoded = sha256))
                (RuntimeError "Completed Connect job failed its integrity check");
          Ret warnings
      | Ret _ => Raise (RuntimeError "Completed Connect job warnings are invalid")
      end
  | _, _, _, _, _, _, _ => Raise (RuntimeError "Completed Connect job is missing its durable result")
  end.

(** [Store.completed_connect_outputs] *)
Definition completed_connect_outputs (j : ConnectJob) : py (list ConnectOutput) :=
  match j.(jb_status), j.(jb_request).(jr_v2), j.(jb_result_json) with
  | Completed, true, Some raw => _decode_generic_result raw
  | _, _, _ => Raise (RuntimeError "Completed Connect v2 job is missing its durable result")
  end.

End Jobs.
