(* ===== verification/RetainedSources.v ===== *)
(** * Eligibility of retained sources

    Models [_Eligibility.retained_available_sql] and [_Eligibility.message_available] of
    [src/src/eom_email_watcher/removal.py] for the bindings that outlive their message. *)

From S2P Require Export BodyState.
From stdpp Require Import options.

(** The live message of a binding. *)
Definition binding_live (st : SourceTables) (message_id : text) (b : MailScope) : list MessageRow :=
  List.filter (fun m => bool_decide (m.(ms_message_id) = message_id) &&
      bool_decide (m.(ms_provider) = b.1.1) && bool_decide (m.(ms_account_id) = b.1.2) &&
      sql_is m.(ms_mailbox_identity_key) (Some b.2)) st.(st_messages).

(** The frozen targets of a binding without a live message. *)
Definition binding_frozen (st : SourceTables) (message_id : text) (b : MailScope) : list SourceRow :=
  match binding_live st message_id b with
  | _ :: _ => []
  | [] =>
      flat_map (fun t =>
        (fun _ => {| sr_message_id := t.(rt_message_id); sr_provider := t.(rt_provider);
                     sr_account_id := t.(rt_account_id);
                     sr_mailbox_identity_key := t.(rt_stored_identity_key);
                     sr_provider_message_id := t.(rt_provider_message_id) |}) <$>
        List.filter (fun i => bool_decide (t.(rt_message_id) = message_id) &&
            bool_decide (t.(rt_provider) = b.1.1) && bool_decide (t.(rt_account_id) = b.1.2) &&
            sql_is i.(ri_mailbox_identity_key) (Some b.2)) (intents_of_target st t)) st.(st_targets)
  end.

(** [_Eligibility.retained_available_sql] *)
Definition retained_available (st : SourceTables) (include_unfollow : bool) (message_id : text)
    (b : MailScope) : bool :=
  forallb (available st include_unfollow)
    ((source_of_message <$> binding_live st message_id b) ++ binding_frozen st message_id b).

(** [_Eligibility.message_available] with [require_source=False]. *)
Definition retained_message_available (st : SourceTables) (include_unfollow : bool) (message_id : text)
    (bindings : list MailScope) : bool :=
  (negb st.(st_has_removal_schema) || forallb (retained_available st include_unfollow message_id) bindings) &&
  match List.find (fun m => bool_decide (m.(ms_message_id) = message_id)) st.(st_messages) with
  | Some m =>
      if negb (truthy_list bindings) ||
         existsb (fun b => bool_decide (m.(ms_provider) = b.1.1) && bool_decide (m.(ms_account_id) = b.1.2) &&
                           sql_is m.(ms_mailbox_identity_key) (Some b.2)) bindings
      then negb st.(st_has_removal_schema) || available st include_unfollow (source_of_message m)
      else true
  | None => true
  end.

