(* ===== verification/CertificateStore.v ===== *)
(** * Certificates of completed jobs

    Models the certificate part of [src/src/eom_email_watcher/db.py]: the projection of a
    record onto its columns ([_certificate_parent_projection],
    [_certificate_child_projection], [_certificate_assert_projection]), the source a
    certificate belongs to ([_certificate_source_for_job]) and its recording
    ([_persist_certificate_projection]).

    The callers catch [CertificateResultInvalid] and [CertificateResultConflict] inside
    their transaction, so that what was written before such an exception stays: these
    definitions return the store next to their outcome.  Any other exception rolls the
    transaction back.  Writing the rows of a new certificate raises none of the two:
    everything of a validated record can be encoded ([insert_certificate_uncaught]). *)

From S2P Require Export RetainedSources CertificateRecord ConnectJobs.
From stdpp Require Import options.

Local Open Scope Z_scope.

(** ** Projection *)

(** [_certificate_party_projection] *)
Definition _certificate_party_projection (v : option text_value) : option text_columns :=
  match v with
  | None => Some None
  | Some t => p ← _certificate_canonical_json (provenance_json t.(tv_provenance)); Some (Some (t.(tv_text), p))
  end.

(** [_certificate_date_projection] *)
Definition _certificate_date_projection (v : option date_value) : option date_columns :=
  match v with
  | None => Some None
  | Some d =>
      candidates ← _certificate_canonical_json (strings_json d.(dv_candidates));
      p ← _certificate_canonical_json (provenance_json d.(dv_provenance));
      Some (Some (d.(dv_iso), d.(dv_ambiguous), candidates, p))
  end.

(** [_certificate_parent_projection] *)
Definition _certificate_parent_projection (c : certificate) : option parent_columns :=
  holder ← _certificate_party_projection c.(ce_holder);
  insured ← _certificate_party_projection c.(ce_insured);
  producer ← _certificate_party_projection c.(ce_producer);
  reasons ← _certificate_canonical_json (strings_json c.(ce_reasons));
  Some (mk_parent holder insured producer reasons).

(** [_certificate_child_projection] *)
Definition _certificate_child_projection (p : policy) : option child_columns :=
  coverage ← _certificate_party_projection p.(po_coverage);
  insurer ← _certificate_party_projection p.(po_insurer);
  policy_number ← _certificate_party_projection p.(po_policy_number);
  effective_date ← _certificate_date_projection p.(po_effective_date);
  expiration_date ← _certificate_date_projection p.(po_expiration_date);
  reasons ← _certificate_canonical_json (strings_json p.(po_review_reasons));
  Some (mk_child coverage insurer policy_number effective_date expiration_date reasons).

Section Store.
Context `{Unicode} `{ConnectLib}.
Implicit Types s : connect_store.

Definition ordinal_leb (a b : text * PolicyRow) : bool := a.2.(pl_ordinal) <=? b.2.(pl_ordinal).

(** The policy rows of a certificate, in order. *)
Definition policy_rows (certificate_id : text) s : list (text * PolicyRow) :=
  sort_by ordinal_leb
    (List.filter (fun e => bool_decide (e.2.(pl_certificate_id) = certificate_id)) (map_to_list s.(cs_policies))).

(** [_certificate_assert_projection] *)
Definition _certificate_assert_projection (certificate_id : text) (parent : CertificateRow) (c : certificate) s
    : py unit :=
  expected ← require_some (_certificate_parent_projection c) CertificateResultInvalid;
  _ ← require (bool_decide (parent.(cr_columns) = expected))
        (RuntimeError "Stored certificate parent projection is inconsistent");
  expected_rows ← require_some (mapM _certificate_child_projection c.(ce_policies)) CertificateResultInvalid;
  let stored_rows := (policy_rows certificate_id s).*2 in
  _ ← require (bool_decide (length stored_rows = length expected_rows))
        (RuntimeError "Stored certificate policy projection is incomplete");
  require (bool_decide (((fun p => (p.(pl_ordinal), p.(pl_columns))) <$> stored_rows) =
                        imap (fun ordinal e => (Z.of_nat ordinal, e)) expected_rows))
    (RuntimeError "Stored certificate policy projection is inconsistent").

(** ** The source of a job *)

Definition linked_fires (job_id : text) s : list (text * AutomationFire) :=
  List.filter (fun e => sql_eq e.2.(fi_job_id) (Some job_id)) (map_to_list s.(cs_fires)).

Definition fire_open (f : AutomationFire) : bool :=
  bool_decide (f.(fi_state) = Submitted) || bool_decide (f.(fi_state) = EntitlementPaused).

(** A fire of the job that agrees with it: same attachment, submitted or settled by the
    provider, and its current attempt bound to the job. *)
Definition fire_binds (job_id : text) (j : ConnectJob) s (e : text * AutomationFire) : bool :=
  let f := e.2 in
  bool_decide (f.(fi_source).(fs_message_id) = j.(jb_request).(jr_message_id)) &&
  bool_decide (f.(fi_source).(fs_part_id) = j.(jb_request).(jr_part_id)) &&
  (fire_open f || bool_decide (f.(fi_state) = FireCompleted) || bool_decide (f.(fi_state) = FireFailed)) &&
  match s.(cs_attempts) !! (e.1, f.(fi_attempt_no)) with
  | Some a => bool_decide (a.(at_job_id) = Some job_id)
  | None => false
  end.

(** The mailbox of the message while its attachment is there ([None]: it is not).  A
    message without an identity has the text of [None]. *)
Definition live_source (j : ConnectJob) s : option (option MailScope) :=
  let r := j.(jb_request) in
  m ← List.find (fun m => bool_decide (m.(ms_message_id) = r.(jr_message_id))) s.(cs_sources).(st_messages);
  Some (if bool_decide ((r.(jr_message_id), r.(jr_part_id)) ∈ s.(cs_attachments))
        then Some (m.(ms_provider), m.(ms_account_id), default (str "None") m.(ms_mailbox_identity_key)) else None).

(** The retained identity of the fires, or the live mailbox where there is none. *)
Definition bound_source (j : ConnectJob) (retained : list FireIdentity) (live : option (option MailScope))
    : option MailScope :=
  let r := j.(jb_request) in
  match retained with
  | (source, _, _) :: _ =>
      if forallb (fun i : FireIdentity => bool_decide (i = (source, r.(jr_message_id), r.(jr_part_id)))) retained &&
         match live with Some l => bool_decide (l = Some source) | None => true end
      then Some source else None
  | [] => mjoin live
  end.

(** The identity rows of the fires that have none. *)
Definition retain_source (j : ConnectJob) (source : MailScope) (missing : list text) s : connect_store :=
  set_identities (foldr (fun fire_id => <[fire_id := (source, j.(jb_request).(jr_message_id), j.(jb_request).(jr_part_id))]>)
                    s.(cs_identities) missing) s.

(** [_certificate_source_for_job] *)
Definition _certificate_source_for_job (job_id : text) (j : ConnectJob) s : py (option MailScope) * connect_store :=
  let fires := linked_fires job_id s in
  if negb (forallb (fire_binds job_id j s) fires) then (Raise CertificateResultInvalid, s)
  else
    let retained := omap (fun e => s.(cs_identities) !! e.1) fires in
    match bound_source j retained (live_source j s) with
    | None => (Raise CertificateResultInvalid, s)
    | Some source =>
        if negb (retained_message_available s.(cs_sources) CONTENT j.(jb_request).(jr_message_id) [source])
        then (Ret None, s)
        else
          let missing := List.filter (fun fire_id => is_none (s.(cs_identities) !! fire_id)) fires.*1 in
          let row := (source, j.(jb_request).(jr_message_id), j.(jb_request).(jr_part_id)) in
          if truthy_list missing && negb (truthy source.2) then (Raise CertificateResultInvalid, s)
          else if negb (forallb (fun fire_id => identity_row_ok fire_id row) missing)
          then (Raise (IntegrityError "automation_fire_source_identities"), s)
          else
            let s := retain_source j source missing s in
            if identity_key_ok source.2 then (Ret (Some source), s) else (Raise CertificateResultInvalid, s)
    end.

(** ** Recording *)

Definition of_source (source : MailScope) (job_id : text) (j : ConnectJob) (c : CertificateRow) : bool :=
  bool_decide (c.(cr_scope) = source) && bool_decide (c.(cr_message_id) = j.(jb_request).(jr_message_id)) &&
  bool_decide (c.(cr_part_id) = j.(jb_request).(jr_part_id)) && bool_decide (c.(cr_job_id) = job_id).

Definition existing_certificate (source : MailScope) (job_id : text) (j : ConnectJob) s
    : option (text * CertificateRow) :=
  List.find (fun e => of_source source job_id j e.2) (map_to_list s.(cs_certificates)).

(** One policy row; the identifiers are fresh and a certificate has one row per ordinal. *)
Definition insert_policy (policy_id : text) (row : PolicyRow) s : py connect_store :=
  _ ← require (is_none (s.(cs_policies) !! policy_id) && policy_row_ok policy_id row &&
               negb (existsb (fun e => bool_decide (e.2.(pl_certificate_id) = row.(pl_certificate_id)) &&
                                       (e.2.(pl_ordinal) =? row.(pl_ordinal))) (map_to_list s.(cs_policies))))
        (IntegrityError "certificate_policy_rows");
  Ret (set_policies (<[policy_id := row]> s.(cs_policies)) s).

Fixpoint insert_policies (certificate_id stamp : text) (uuids : nat → text) (ordinal : nat)
    (policies : list policy) s : py connect_store :=
  match policies with
  | [] => Ret s
  | p :: policies' =>
      projected ← require_some (_certificate_child_projection p) CertificateResultInvalid;
      s ← insert_policy (uuids (S ordinal)) (mk_policy_row certificate_id (Z.of_nat ordinal) projected stamp stamp) s;
      insert_policies certificate_id stamp uuids (S ordinal) policies' s
  end.

(** The rows of a new certificate; [uuids] are the random identifiers it takes. *)
Definition insert_certificate (job_id : text) (j : ConnectJob) (source : MailScope) (v : ValidatedCertificate)
    (stamp : text) (uuids : nat → text) s : py (text * connect_store) :=
  let certificate_id := uuids 0%nat in
  parent ← require_some (_certificate_parent_projection v.(va_record)) CertificateResultInvalid;
  let row := mk_certificate_row source j.(jb_request).(jr_message_id) j.(jb_request).(jr_part_id) job_id
               j.(jb_request).(jr_input_display_name) v.(va_sha256) v.(va_canonical_json) parent None stamp stamp in
  _ ← require (is_none (s.(cs_certificates) !! certificate_id) && certificate_row_ok certificate_id row)
        (IntegrityError "certificate_records");
  let s := set_certificates (<[certificate_id := row]> s.(cs_certificates)) s in
  s ← insert_policies certificate_id stamp uuids 0 v.(va_record).(ce_policies) s;
  _ ← _certificate_assert_projection certificate_id row v.(va_record) s;
  Ret (certificate_id, s).

(** [_persist_certificate_projection] *)
Definition _persist_certificate_projection (job_id : text) (j : ConnectJob) (v : ValidatedCertificate)
    (stamp : text) (uuids : nat → text) s : py (option text) * connect_store :=
  let '(source, s) := _certificate_source_for_job job_id j s in
  match source with
  | Raise e => (Raise e, s)
  | Ret None => (Ret None, s)
  | Ret (Some source) =>
      match existing_certificate source job_id j s with
      | Some (certificate_id, row) =>
          (_ ← require (bool_decide (row.(cr_result_sha256) = v.(va_sha256)) &&
                        bool_decide (row.(cr_canonical_json) = v.(va_canonical_json))) CertificateResultConflict;
           _ ← _certificate_assert_projection certificate_id row v.(va_record) s;
           Ret (Some certificate_id), s)
      | None =>
          match insert_certificate job_id j source v stamp uuids s with
          | Ret (certificate_id, s') => (Ret (Some certificate_id), s')
          | Raise e => (Raise e, s)
          end
      end
  end.

(** The validated certificate in the outputs of a job. *)
Definition certificate_of_outputs (j : ConnectJob) (outputs : list ConnectOutput) : py ValidatedCertificate :=
  let r := j.(jb_request) in
  match outputs with
  | [o] =>
      _ ← require (bool_decide (o.(co_media_type) = CERTIFICATE_RESULT_MEDIA_TYPE)) CertificateResultInvalid;
      require_some (_validate_certificate_record o.(co_payload) (Some r.(jr_input).(ia_sha256))
                      (Some r.(jr_input).(ia_byte_size)) r.(jr_input_display_name)) CertificateResultInvalid
  | _ => Raise CertificateResultInvalid
  end.

End Store.
