(* ===== verification/ConnectTransition.v ===== *)
(** * Transitions of a Connect job

    Models [transition_connect_job], [_connect_source_available],
    [_discard_settled_source_less_certificate_job] and
    [reset_connect_job_for_resubmission] of [src/src/eom_email_watcher/db.py]. *)

From S2P Require Export CertificateStore.
From stdpp Require Import options.

Local Open Scope Z_scope.

Section Transition.
Context `{Unicode} `{ConnectLib}.
Implicit Types s : connect_store.

(** [_connect_source_available] *)
Definition _connect_source_available (job_id : text) (j : ConnectJob) s : bool :=
  let r := j.(jb_request) in
  let bindings := omap (fun e : text * AutomationFire =>
      if sql_eq e.2.(fi_job_id) (Some job_id) then
        match s.(cs_identities) !! e.1 with
        | Some (scope, message_id, part_id) =>
            if bool_decide (message_id = r.(jr_message_id)) && bool_decide (part_id = r.(jr_part_id))
            then Some scope else None
        | None => None
        end
      else None) (map_to_list s.(cs_fires)) in
  retained_message_available s.(cs_sources) CONTENT r.(jr_message_id) bindings.

(** ** Transitions *)

Definition transition_allowed (expected next : job_status) : bool :=
  match expected, next with
  | Requested, (Accepted | Processing | Completed | Failed) => true
  | Accepted, (Processing | Completed | Failed) => true
  | Processing, (Completed | Failed) => true
  | _, _ => false
  end.

(** The result of a completed job: the output columns of protocol 1 with its warnings
    ([None] when they are not a list), or the value of protocol 2. *)
Inductive job_result :=
| V1Result (output : V1Output) (warnings : option (list json))
| V2Result (value : json).

(** [UPDATE automation_fires SET state, reason ... WHERE job_id = ? AND state IN
    ('submitted', 'entitlement_paused')] *)
Definition settle_fires (job_id : text) (state : fire_state) (reason stamp : text) s : connect_store :=
  set_fires ((fun f => if sql_eq f.(fi_job_id) (Some job_id) && fire_open f
                       then with_fire state (Some reason) stamp f else f) <$> s.(cs_fires)) s.

(** The output, result, metadata and error columns a transition writes. *)
Definition terminal_values (job_id : text) (j : ConnectJob) (next : job_status) (result : option job_result)
    (error : option JobError) : py (V1Output * option bytes * option bytes * JobError) :=
  match next, result, error with
  | Completed, Some (V1Result o warnings), _ =>
      if j.(jb_request).(jr_v2) then Raise (ValueError "Completed Connect v2 result is invalid")
      else
        warnings ← require_some warnings (ValueError "Completed Connect job warnings are invalid");
        Ret (mk_v1_output o.(vo_artifact_id) o.(vo_media_type) o.(vo_byte_size) o.(vo_sha256)
               o.(vo_summary_version) o.(vo_summary_text) (Some (dumps false (JArr warnings))),
             None, None, no_error)
  | Completed, Some (V2Result value), _ =>
      if j.(jb_request).(jr_v2) then
        '(encoded, encoded_metadata) ← _encode_generic_result value;
        Ret (no_output, Some encoded, Some encoded_metadata, no_error)
      else Raise (ValueError "Completed Connect job result is invalid")
  | Failed, _, Some e =>
      Ret (no_output, None, None, mk_error e.(er_code) e.(er_message) (Some (default false e.(er_retryable))))
  | _, _, _ => Ret (no_output, None, None, no_error)
  end.

Definition is_certificate (j : ConnectJob) : bool :=
  j.(jb_request).(jr_v2) && bool_decide (j.(jb_request).(jr_capability_id) = CERTIFICATE_CAPABILITY_ID).

(** What becomes of a certificate: it is recorded or refused; any other exception escapes. *)
Definition outcome_of {A} (r : py A) : py (option certificate_failure) :=
  match r with
  | Ret _ => Ret None
  | Raise CertificateResultConflict => Ret (Some CertificateConflict)
  | Raise CertificateResultInvalid => Ret (Some CertificateInvalid)
  | Raise e => Raise e
  end.

Definition version_supported (j : ConnectJob) : bool :=
  bool_decide (j.(jb_request).(jr_capability_version) = CERTIFICATE_CAPABILITY_VERSION).

(** The certificate of a completed job: [None] when the job makes none. *)
Definition certify (job_id : text) (j : ConnectJob) (next : job_status) (result : option job_result)
    (stamp : text) (uuids : nat → text) s : py (option (option certificate_failure) * connect_store) :=
  match next, result with
  | Completed, Some (V2Result value) =>
      if negb (is_certificate j) then Ret (None, s)
      else
        let '(recorded, s) :=
          match _ ← require (version_supported j) CertificateResultInvalid;
                outputs ← _validate_generic_result value;
                certificate_of_outputs j outputs with
          | Ret v => _persist_certificate_projection job_id j v stamp uuids s
          | Raise e => (Raise e, s)
          end in
        outcome ← outcome_of recorded;
        Ret (Some outcome, s)
  | _, _ => Ret (None, s)
  end.

(** A paused fire whose job a user has authorized, or that no automation attempt
    started. *)
Definition deferred_interactive_fire (job_id : text) s : bool :=
  existsb (fun e => bool_decide (e.2.(fi_state) = EntitlementPaused)) (linked_fires job_id s) &&
  (match s.(cs_dispatch) !! job_id with Some d => is_some d.(ds_interactive_at) | None => false end ||
   negb (existsb (fun e => bool_decide (e.2.(at_dispatch_request_id) = job_id)) (map_to_list s.(cs_attempts)))).

(** The dispatch after a transition that keeps the job. *)
Definition advanced_dispatch (next : job_status) (stamp : text) (d : dispatch_row) : dispatch_row :=
  let owned := bool_decide (next = Accepted) || bool_decide (next = Processing) in
  let d := with_highest
             (if bool_decide (next = Processing) then PProcessing
              else if bool_decide (next = Accepted) && bool_decide (d.(ds_highest) = PRequested) then PAccepted
              else d.(ds_highest)) d in
  let d := with_attempts d.(ds_attempt_count) (if owned then 0 else d.(ds_failure_count)) d in
  let d := if owned then with_last_error None None d else d in
  with_state (if owned then ProviderOwned else Terminal) None
    (owned || bool_decide (next = Completed) || d.(ds_submission_possible)) stamp d.

Definition failure_reason (f : certificate_failure) : text :=
  match f with
  | CertificateConflict => str "CERTIFICATE_RESULT_CONFLICT"
  | CertificateInvalid => str "CERTIFICATE_RESULT_INVALID"
  end.

(** Settle the open fires of a certificate job by its outcome. *)
Definition settle_certificate (job_id : text) (outcome : option certificate_failure) (stamp : text) s
    : connect_store :=
  match outcome with
  | None => settle_fires job_id FireCompleted (str "connect_completed") stamp s
  | Some f => settle_fires job_id FireFailed (failure_reason f) stamp s
  end.

(** [UPDATE automation_fires SET state='failed', reason ... WHERE job_id = ?] *)
Definition fail_fires (job_id reason stamp : text) s : connect_store :=
  set_fires ((fun f => if sql_eq f.(fi_job_id) (Some job_id)
                       then mk_fire f.(fi_source) FireFailed f.(fi_version) (Some reason) f.(fi_attempt_no)
                              f.(fi_job_id) f.(fi_prepared) f.(fi_confirmed) None f.(fi_pending_seconds) stamp
                       else f) <$> s.(cs_fires)) s.

(** [_discard_settled_source_less_certificate_job] *)
Definition _discard_settled_source_less_certificate_job (job_id : text) (failure_reason : option text)
    (stamp sql_now : text) s : py (bool * connect_store) :=
  match s.(cs_dispatch) !! job_id with
  | None => Ret (false, s)
  | Some d =>
      if d.(ds_source_available) || existsb (fun e => fire_open e.2) (linked_fires job_id s) then Ret (false, s)
      else
        _ ← require (bool_decide (jb_status <$> s.(cs_jobs) !! job_id = Some Completed))
              (RuntimeError "Settled source-less certificate job was not discarded");
        let s := delete_job job_id sql_now s in
        Ret (true, match failure_reason with Some r => fail_fires job_id r stamp s | None => s end)
  end.

(** [Store.transition_connect_job] *)
Definition transition_connect_job (job_id : text) (expected next : job_status)
    (provider_app_id provider_instance_id : text) (result : option job_result) (error : option JobError)
    (now : Z) (sql_now : text) (uuids : nat → text) s : py (ConnectJob * connect_store) :=
  _ ← require (transition_allowed expected next) (ValueError "Invalid Connect job transition");
  _ ← match next with
      | Completed => require (is_some result && is_none error)
                       (ValueError "Completed Connect jobs require only a result")
      | Failed => require (is_some error && is_none result)
                    (ValueError "Failed Connect jobs require only an error")
      | _ => require (is_none result && is_none error)
               (ValueError "Active Connect jobs cannot contain terminal data")
      end;
  let stamp := isoformat (utc now) in
  let lost := RuntimeError "Connect job transition lost its expected-state race" in
  j ← require_some (s.(cs_jobs) !! job_id) lost;
  _ ← require (bool_decide (j.(jb_status) = expected)) lost;
  let target_available := _connect_source_available job_id j s in
  let v2 := j.(jb_request).(jr_v2) in
  _ ← require (negb v2 || (sql_eq j.(jb_provider_app_id) (Some provider_app_id) &&
                           sql_eq j.(jb_provider_instance_id) (Some provider_instance_id)))
        (ValueError "Connect v2 provider provenance cannot change");
  let dispatch_before := if v2 then s.(cs_dispatch) !! job_id else None in
  _ ← require (negb v2 || is_some dispatch_before)
        (RuntimeError "Connect job transition is missing dispatch state");
  '(output, encoded, encoded_metadata, failure) ← terminal_values job_id j next result error;
  '(outcome, s) ← certify job_id j next result stamp uuids s;
  let j' := mk_job j.(jb_request) (Some provider_app_id) (Some provider_instance_id) next output encoded
              encoded_metadata failure stamp in
  let terminal := negb (active_status next) in
  _ ← (if bool_decide (next = Completed) && negb v2 then
         match completed_connect_warnings j' with
         | Raise (RuntimeError _) => Raise (ValueError "Completed Connect job result failed validation")
         | Raise e => Raise e
         | Ret _ => Ret tt
         end
       else Ret tt);
  let source_lost := match dispatch_before with Some d => negb d.(ds_source_available) | None => false end in
  let discard := terminal && negb (is_certificate j) && source_lost &&
                 (negb (deferred_interactive_fire job_id s) || negb target_available) in
  if discard then
    let reason := if bool_decide (next = Completed) then str "connect_completed"
                  else take 128 (match failure.(er_code) with
                                 | Some c => if truthy c then c else str "connect_failed"
                                 | None => str "connect_failed"
                                 end) in
    let s := settle_fires job_id (if bool_decide (next = Completed) then FireCompleted else FireFailed)
               reason stamp s in
    Ret (j', delete_job job_id sql_now s)
  else
    _ ← require (job_row_ok j') (IntegrityError "CHECK connect_attachment_jobs");
    let s := set_jobs (<[job_id := j']> s.(cs_jobs)) s in
    let s := if v2 then set_dispatch (alter (advanced_dispatch next stamp) job_id s.(cs_dispatch)) s else s in
    match outcome with
    | None => Ret (j', s)
    | Some o =>
        let s := settle_certificate job_id o stamp s in
        '(_, s) ← _discard_settled_source_less_certificate_job job_id (failure_reason <$> o) stamp sql_now s;
        Ret (j', s)
    end.

(** [Store.reset_connect_job_for_resubmission] *)
Definition reset_connect_job_for_resubmission (job_id : text) (expected : job_status)
    (provider_app_id provider_instance_id : text) (now : Z) s : py (ConnectJob * connect_store) :=
  _ ← require (active_status expected)
        (ValueError "Only active Connect jobs can be reset for resubmission");
  let stamp := isoformat (utc now) in
  let lost := RuntimeError "Connect job resubmission lost its expected-state race" in
  j ← require_some (s.(cs_jobs) !! job_id) lost;
  _ ← require (bool_decide (j.(jb_status) = expected)) lost;
  _ ← require (message_available s.(cs_sources) CONTENT j.(jb_request).(jr_message_id))
        (KeyError j.(jb_request).(jr_message_id));
  let v2 := j.(jb_request).(jr_v2) in
  _ ← (if v2 then
         d ← require_some (s.(cs_dispatch) !! job_id)
               (RuntimeError "Connect job resubmission is missing dispatch state");
         _ ← require (bool_decide (d.(ds_highest) = PRequested))
               (RuntimeError "Connect job cannot be resubmitted after authoritative provider acceptance");
         require (match d.(ds_state) with Waiting | Dispatching | Reconciling => true | _ => false end)
           (RuntimeError "Connect job resubmission has incompatible dispatch state")
       else Ret tt);
  _ ← require (sql_eq j.(jb_provider_app_id) (Some provider_app_id) &&
               sql_eq j.(jb_provider_instance_id) (Some provider_instance_id)) lost;
  let j' := mk_job j.(jb_request) j.(jb_provider_app_id) j.(jb_provider_instance_id) Requested no_output
              None None no_error stamp in
  let s := set_jobs (<[job_id := j']> s.(cs_jobs)) s in
  let s := if v2 then set_dispatch (alter (with_state Waiting None false stamp) job_id s.(cs_dispatch)) s else s in
  Ret (j', s).

End Transition.
