(* ===== verification/CertificateReplay.v ===== *)
(** * Replays of completed certificate jobs

    Models [Store.reconcile_certificate_completed_replay] and
    [Store.reconcile_certificate_completed_join] of [src/src/eom_email_watcher/db.py]: the
    provider repeats the result of a completed job, or another fire joins it. *)

From S2P Require Export ConnectTransition.
From stdpp Require Import options.

Local Open Scope Z_scope.

Section Replay.
Context `{Unicode} `{ConnectLib}.
Implicit Types s : connect_store.

(** A completed certificate job. *)
Definition completed_certificate (j : ConnectJob) : bool :=
  is_certificate j && bool_decide (j.(jb_status) = Completed).

(** [SELECT * FROM certificate_records WHERE connect_job_id = ?] *)
Definition certificates_of (job_id : text) s : list (text * CertificateRow) :=
  List.filter (fun e => bool_decide (e.2.(cr_job_id) = job_id)) (map_to_list s.(cs_certificates)).

(** A fire that a replay failure reopens: settled by the provider, or refused as invalid. *)
Definition fire_reopened (conflict : bool) (f : AutomationFire) : bool :=
  fire_open f || bool_decide (f.(fi_state) = FireCompleted) ||
  (conflict && bool_decide (f.(fi_state) = FireFailed) &&
   bool_decide (f.(fi_reason) = Some (failure_reason CertificateInvalid))).

(** Fail the fires of a job with the failure of its replay. *)
Definition refuse_fires (job_id : text) (failure : certificate_failure) (stamp : text) s : connect_store :=
  set_fires ((fun f => if sql_eq f.(fi_job_id) (Some job_id) &&
                          fire_reopened (bool_decide (failure = CertificateConflict)) f
                       then with_fire FireFailed (Some (failure_reason failure)) stamp f else f)
               <$> s.(cs_fires)) s.

(** The dispatch of a job whose replay conflicts. *)
Definition fence_dispatch (stamp : text) (d : dispatch_row) : dispatch_row :=
  let d := with_last_error (Some (failure_reason CertificateConflict))
             (Some (str "completed certificate replay conflicts with stored evidence")) d in
  with_state d.(ds_state) d.(ds_next_attempt_at) d.(ds_submission_possible) stamp d.

(** The certificate of a job whose replay fails. *)
Definition fence_certificate (failure : certificate_failure) (stamp : text) (c : CertificateRow) : CertificateRow :=
  mk_certificate_row c.(cr_scope) c.(cr_message_id) c.(cr_part_id) c.(cr_job_id) c.(cr_display_reference)
    c.(cr_result_sha256) c.(cr_canonical_json) c.(cr_columns) (Some failure) c.(cr_created_at) stamp.

(** [NOT (f.state = 'failed' AND f.reason = 'CERTIFICATE_RESULT_INVALID')]: of a failed fire
    without a reason the condition is NULL, and the row is not selected. *)
Definition invalid_unsettled (f : AutomationFire) : bool :=
  negb (bool_decide (f.(fi_state) = FireFailed)) ||
  match f.(fi_reason) with
  | Some reason => negb (bool_decide (reason = failure_reason CertificateInvalid))
  | None => false
  end.

(** The replay of a job without a certificate. *)
Definition replay_unrecorded (job_id : text) (j : ConnectJob) (d : dispatch_row) (result : json)
    (stamp sql_now : text) s : py connect_store :=
  '(encoded, _) ← _encode_generic_result result;
  let conflicts := bool_decide (d.(ds_error_code) = Some (failure_reason CertificateConflict)) ||
                   negb (bool_decide (j.(jb_result_json) = Some encoded)) in
  if negb conflicts then
    let s := settle_fires job_id FireFailed (failure_reason CertificateInvalid) stamp s in
    _ ← require (negb (existsb (fun e => invalid_unsettled e.2) (linked_fires job_id s)))
          (RuntimeError "Certificate invalid replay could not settle its automation fires");
    '(_, s) ← _discard_settled_source_less_certificate_job job_id (Some (failure_reason CertificateInvalid))
                stamp sql_now s;
    Ret s
  else
    let s := set_dispatch (alter (fence_dispatch stamp) job_id s.(cs_dispatch)) s in
    let s := refuse_fires job_id CertificateConflict stamp s in
    _ ← require (negb (existsb (fun e => fire_reopened true e.2) (linked_fires job_id s)))
          (RuntimeError "Certificate replay conflict could not settle its automation fires");
    '(_, s) ← _discard_settled_source_less_certificate_job job_id (Some (failure_reason CertificateConflict))
                stamp sql_now s;
    Ret s.

(** How a replayed result compares with the stored certificate. *)
Definition replay_compares (certificate_id : text) (parent : CertificateRow) (j : ConnectJob) (result : json) s
    : py unit :=
  _ ← require (version_supported j) CertificateResultInvalid;
  outputs ← _validate_generic_result result;
  replay ← certificate_of_outputs j outputs;
  _ ← require (bool_decide (parent.(cr_result_sha256) = replay.(va_sha256)) &&
               bool_decide (parent.(cr_canonical_json) = replay.(va_canonical_json))) CertificateResultConflict;
  _certificate_assert_projection certificate_id parent replay.(va_record) s.

(** [except CertificateResultConflict ... except (CertificateResultInvalid, ValueError)] *)
Definition replay_outcome {A} (r : py A) : py (option certificate_failure) :=
  match r with
  | Raise (ValueError _ | UnicodeEncodeError | UnicodeDecodeError | JSONDecodeError) => Ret (Some CertificateInvalid)
  | _ => outcome_of r
  end.

(** A failure that was recorded before stays, and a conflict is final. *)
Definition worst (prior outcome : option certificate_failure) : option certificate_failure :=
  match prior, outcome with
  | Some CertificateConflict, _ | _, Some CertificateConflict => Some CertificateConflict
  | Some CertificateInvalid, None => Some CertificateInvalid
  | _, o => o
  end.

(** The replay of a job with a certificate. *)
Definition replay_recorded (job_id certificate_id : text) (parent : CertificateRow) (j : ConnectJob) (result : json)
    (stamp sql_now : text) s : py connect_store :=
  compared ← replay_outcome (replay_compares certificate_id parent j result s);
  match worst parent.(cr_replay_failure) compared with
  | None => Ret s
  | Some failure =>
      let s := set_certificates (alter (fence_certificate failure stamp) certificate_id s.(cs_certificates)) s in
      let s := refuse_fires job_id failure stamp s in
      _ ← require (negb (existsb (fun e => fire_reopened (bool_decide (failure = CertificateConflict)) e.2)
                           (linked_fires job_id s)))
            (RuntimeError "Certificate replay could not settle its automation fires");
      '(_, s) ← _discard_settled_source_less_certificate_job job_id (Some (failure_reason failure)) stamp sql_now s;
      Ret s
  end.

(** [Store.reconcile_certificate_completed_replay] *)
Definition reconcile_certificate_completed_replay (job_id provider_app_id provider_instance_id : text)
    (result : json) (now : Z) (sql_now : text) s : py (ConnectJob * connect_store) :=
  let stamp := isoformat (utc now) in
  j ← require_some (s.(cs_jobs) !! job_id) (RuntimeError "Certificate replay job is missing");
  _ ← require (completed_certificate j)
        (RuntimeError "Certificate replay job is not a completed certificate job");
  _ ← require (sql_eq j.(jb_provider_app_id) (Some provider_app_id) &&
               sql_eq j.(jb_provider_instance_id) (Some provider_instance_id))
        (ValueError "Connect v2 provider provenance cannot change");
  d ← require_some (s.(cs_dispatch) !! job_id) (RuntimeError "Certificate replay job is missing dispatch state");
  s ← match certificates_of job_id s with
      | [] => replay_unrecorded job_id j d result stamp sql_now s
      | [(certificate_id, parent)] => replay_recorded job_id certificate_id parent j result stamp sql_now s
      | _ => Raise (RuntimeError "Completed certificate job has multiple durable projections")
      end;
  Ret (j, s).

(** What a join makes of the stored result. *)
Definition join_records (job_id : text) (j : ConnectJob) (stamp : text) (uuids : nat → text) s
    : py unit * connect_store :=
  let '(source, s) := _certificate_source_for_job job_id j s in
  match source with
  | Raise e => (Raise e, s)
  | Ret _ =>
      match _ ← require (version_supported j) CertificateResultInvalid;
            raw ← require_some j.(jb_result_json) CertificateResultInvalid;
            outputs ← _decode_generic_result raw;
            certificate_of_outputs j outputs with
      | Raise e => (Raise e, s)
      | Ret v =>
          let '(recorded, s) := _persist_certificate_projection job_id j v stamp uuids s in
          (_ ← recorded; Ret tt, s)
      end
  end.

(** [Store.reconcile_certificate_completed_join] *)
Definition reconcile_certificate_completed_join (job_id : text) (now : Z) (sql_now : text) (uuids : nat → text) s
    : py (ConnectJob * connect_store) :=
  let stamp := isoformat (utc now) in
  j ← require_some (s.(cs_jobs) !! job_id) (RuntimeError "Certificate join job is missing");
  _ ← require (completed_certificate j) (RuntimeError "Certificate join job is not a completed certificate job");
  let fences := certificates_of job_id s in
  _ ← require (bool_decide (length fences <= 1)%nat)
        (RuntimeError "Completed certificate job has multiple durable projections");
  d ← require_some (s.(cs_dispatch) !! job_id) (RuntimeError "Certificate join job is missing dispatch state");
  '(outcome, s) ←
    match (head fences) ≫= (fun e => e.2.(cr_replay_failure)) with
    | Some failure => Ret (Some failure, s)
    | None =>
        if bool_decide (d.(ds_error_code) = Some (failure_reason CertificateConflict))
        then Ret (Some CertificateConflict, s)
        else
          let '(joined, s) := join_records job_id j stamp uuids s in
          outcome ← replay_outcome joined;
          Ret (outcome, s)
    end;
  let s := settle_certificate job_id outcome stamp s in
  '(_, s) ← _discard_settled_source_less_certificate_job job_id (failure_reason <$> outcome) stamp sql_now s;
  Ret (j, s).

End Replay.
