(* ===== verification/CertificateLedger.v ===== *)
(** * The expiry ledger of the certificates

    Models [Store.list_certificate_expiry_ledger] of [src/src/eom_email_watcher/db.py] with
    the readers of its columns: one item per policy row (or per certificate without any), by
    expiration date, rendered from the stored canonical bytes, which are validated again. *)

From S2P Require Export CertificateReplay.
From stdpp Require Import options.

Local Open Scope Z_scope.

Definition MAX_CERTIFICATE_LEDGER_RESPONSE_BYTES : Z := MAX_CONNECT_OUTPUT_BYTES - 4096.
Definition MAX_CERTIFICATE_LEDGER_EVIDENCE_BYTES : Z := 8 * 1024 * 1024.

(** The size of a response without items. *)
Definition EMPTY_RESPONSE_BYTES : Z := 12.

Inductive expiry := Expired | ExpiresToday | Upcoming | NeedsReview.

Record ledger_item := mk_item {
  li_certificate_id : text;
  li_holder : option text;
  li_insured : option text;
  li_producer : option text;
  li_policy : option (text * Z);
  li_coverage : option text;
  li_insurer : option text;
  li_policy_number : option text;
  li_effective_iso : option text;
  li_effective_ambiguous : option bool;
  li_effective_candidates : list text;
  li_expiration_iso : option text;
  li_expiration_ambiguous : option bool;
  li_expiration_candidates : list text;
  li_expiry_status : expiry;
  li_review_reasons : list text;
  li_message_id : text;
  li_part_id : text;
  li_job_id : text;
  li_source_available : bool }.

Definition expiry_text (e : expiry) : text :=
  match e with
  | Expired => str "expired"
  | ExpiresToday => str "expires_today"
  | Upcoming => str "upcoming"
  | NeedsReview => str "review"
  end.

(** The dictionary of an item. *)
Definition item_json (i : ledger_item) : json :=
  let opt := json_of_option JStr in
  JObj [(str "certificate_id", JStr i.(li_certificate_id)); (str "certificate_holder", opt i.(li_holder));
        (str "insured", opt i.(li_insured)); (str "producer", opt i.(li_producer));
        (str "policy_id", opt (fst <$> i.(li_policy))); (str "policy_ordinal", json_of_option JInt (snd <$> i.(li_policy)));
        (str "coverage", opt i.(li_coverage)); (str "insurer", opt i.(li_insurer));
        (str "policy_number", opt i.(li_policy_number)); (str "effective_date_iso", opt i.(li_effective_iso));
        (str "effective_date_ambiguous", json_of_option JBool i.(li_effective_ambiguous));
        (str "effective_date_candidates", strings_json i.(li_effective_candidates));
        (str "expiration_date_iso", opt i.(li_expiration_iso));
        (str "expiration_date_ambiguous", json_of_option JBool i.(li_expiration_ambiguous));
        (str "expiration_date_candidates", strings_json i.(li_expiration_candidates));
        (str "expiry_status", JStr (expiry_text i.(li_expiry_status)));
        (str "review_state", JStr (if truthy_list i.(li_review_reasons) then str "needs_review" else str "extracted"));
        (str "review_reasons", strings_json i.(li_review_reasons));
        (str "source_message_id", JStr i.(li_message_id)); (str "source_part_id", JStr i.(li_part_id));
        (str "connect_job_id", JStr i.(li_job_id)); (str "source_available", JBool i.(li_source_available))].

(** ** The selected rows *)

Record ledger_row := mk_ledger_row {
  lr_certificate_id : text;
  lr_policy : option (text * Z);
  lr_expiration : option text;
  lr_bytes : Z;
  lr_source_available : bool }.

(** [ORDER BY CASE WHEN expiration_date_iso IS NULL ..., certificate_id, ordinal] *)
Definition ledger_leb (a b : ledger_row) : bool :=
  let tail :=
    if decide (a.(lr_certificate_id) = b.(lr_certificate_id)) then
      match snd <$> a.(lr_policy), snd <$> b.(lr_policy) with
      | None, _ => true
      | Some _, None => false
      | Some i, Some j => i <=? j
      end
    else text_ltb a.(lr_certificate_id) b.(lr_certificate_id) in
  match a.(lr_expiration), b.(lr_expiration) with
  | Some x, Some y => if decide (x = y) then tail else text_ltb x y
  | Some _, None => true
  | None, Some _ => false
  | None, None => tail
  end.

Definition expiration_column (p : PolicyRow) : option text :=
  p.(pl_columns).(ch_expiration_date) ≫= (fun d => d.1.1.1).

Section Ledger.
Context `{Unicode} `{ConnectLib}.
Implicit Types s : connect_store.

(** The attachment of a certificate is still there. *)
Definition ledger_source_available (c : CertificateRow) s : bool :=
  match s.(cs_dispatch) !! c.(cr_job_id) with Some d => d.(ds_source_available) | None => true end &&
  existsb (fun m => bool_decide (m.(ms_message_id) = c.(cr_message_id)) &&
      bool_decide (m.(ms_provider) = c.(cr_scope).1.1) && bool_decide (m.(ms_account_id) = c.(cr_scope).1.2) &&
      sql_eq m.(ms_mailbox_identity_key) (Some c.(cr_scope).2)) s.(cs_sources).(st_messages) &&
  bool_decide ((c.(cr_message_id), c.(cr_part_id)) ∈ s.(cs_attachments)).

Definition ledger_eligible (c : CertificateRow) s : bool :=
  negb s.(cs_sources).(st_has_removal_schema) ||
  retained_available s.(cs_sources) CONTENT c.(cr_message_id) c.(cr_scope).

(** A certificate joined with its policies. *)
Definition joined_rows s (e : text * CertificateRow) : list ledger_row :=
  let row policy expiration :=
    mk_ledger_row e.1 policy expiration (byte_count e.2.(cr_canonical_json)) (ledger_source_available e.2 s) in
  match List.filter (fun p => bool_decide (p.2.(pl_certificate_id) = e.1)) (map_to_list s.(cs_policies)) with
  | [] => [row None None]
  | policies => (fun p => row (Some (p.1, p.2.(pl_ordinal))) (expiration_column p.2)) <$> policies
  end.

Definition ledger_rows (limit : Z) s : list ledger_row :=
  take (Z.to_nat limit)
    (sort_by ledger_leb
       (flat_map (joined_rows s) (List.filter (fun e => ledger_eligible e.2 s) (map_to_list s.(cs_certificates))))).

(** [grouped.setdefault(key, []).append(value)] *)
Fixpoint group_add {A} (k : text) (x : A) (groups : list (text * list A)) : list (text * list A) :=
  match groups with
  | [] => [(k, [x])]
  | (k', xs) :: rest => if decide (k' = k) then (k', xs ++ [x])%list :: rest else (k', xs) :: group_add k x rest
  end.

Definition grouped (rows : list ledger_row) : list (text * list (nat * ledger_row)) :=
  foldl (fun groups e => group_add e.2.(lr_certificate_id) e groups) [] (imap pair rows).

(** ** Associations in doubt *)

(** The decimal digits a text starts with, and the rest. *)
Fixpoint leading_digits (t : text) : list N * text :=
  match t with
  | c :: t' =>
      match uni_decimal c with
      | Some d => let '(digits, rest) := leading_digits t' in (d :: digits, rest)
      | None => ([], t)
      end
  | [] => ([], [])
  end.

Definition number_of_digits (digits : list N) : Z := foldl (fun acc d => acc * 10 + Z.of_N d) 0 digits.

Definition lower_or_underscore (c : N) : bool := ((97 <=? c) && (c <=? 122) || (c =? 95))%N.

(** [re.fullmatch(r"policies\[(\d+)\]\.[a-z_]+", field)] *)
Definition association_ordinal (field : text) : option Z :=
  _ ← check (starts_with field (str "policies["));
  let '(digits, rest) := leading_digits (drop 9 field) in
  let name := drop 2 rest in
  _ ← check (truthy_list digits && starts_with rest (str "].") && truthy name && forallb lower_or_underscore name);
  Some (number_of_digits digits).

(** The withheld values whose policy is unclear: their ordinals, and whether one has none. *)
Definition unclear_fields (c : certificate) : list text :=
  wh_field <$> List.filter (fun w => bool_decide (w.(wh_reason) = str "POLICY_ASSOCIATION_UNCLEAR")) c.(ce_withheld).
Definition association_review_ordinals (c : certificate) : list Z := omap association_ordinal (unclear_fields c).
Definition unmapped_association_review (c : certificate) : bool :=
  existsb (fun f => is_none (association_ordinal f)) (unclear_fields c) ||
  existsb (fun ordinal => Z.of_nat (length c.(ce_policies)) <=? ordinal) (association_review_ordinals c).

(** ** Items *)

(** [_certificate_text_value_from_record], [_certificate_text_from_policy] *)
Definition party_text (v : option text_value) : option text := tv_text <$> v.

(** [_certificate_date_field], [_certificate_date_candidates] *)
Definition date_candidates (v : option date_value) : list text :=
  match v with Some d => d.(dv_candidates) | None => [] end.

(** The reasons of an item: those of the certificate that are not about a policy, and those of its policy. *)
Definition item_reasons (c : certificate) (policy : option (Z * policy)) : list text :=
  match policy with
  | None => c.(ce_reasons)
  | Some (ordinal, p) =>
      let dropped := str "POLICY_DATE_REVIEW" ::
        (if unmapped_association_review c then [] else [str "POLICY_ASSOCIATION_UNCLEAR"]) in
      let policy_reasons :=
        if bool_decide (ordinal ∈ association_review_ordinals c) &&
           negb (bool_decide (str "ASSOCIATION_UNCLEAR" ∈ p.(po_review_reasons)))
        then (p.(po_review_reasons) ++ [str "ASSOCIATION_UNCLEAR"])%list else p.(po_review_reasons) in
      (List.filter (fun r => negb (bool_decide (r ∈ dropped))) c.(ce_reasons) ++ policy_reasons)%list
  end.

(** The state of a policy on a day. *)
Definition expiry_status (today : Z) (policy : option policy) : py expiry :=
  match (policy ≫= po_expiration_date) ≫= dv_iso with
  | None => Ret NeedsReview
  | Some iso =>
      expiry_date ← require_some (parse_date iso) (ValueError "Invalid isoformat string");
      Ret (if expiry_date <? today then Expired else if expiry_date =? today then ExpiresToday else Upcoming)
  end.

(** The policy a row selects. *)
Definition selected_policy (c : certificate) (row : ledger_row) : py (option (Z * policy)) :=
  match row.(lr_policy) with
  | None => Ret None
  | Some (_, ordinal) =>
      p ← require_some (if 0 <=? ordinal then c.(ce_policies) !! Z.to_nat ordinal else None)
            (RuntimeError "Stored certificate policy ordinal is invalid");
      Ret (Some (ordinal, p))
  end.

(** The item of a row of a validated certificate. *)
Definition render_item (today : Z) (certificate_id : text) (parent : CertificateRow) (c : certificate)
    (row : ledger_row) : py ledger_item :=
  selected ← selected_policy c row;
  let policy := snd <$> selected in
  status ← expiry_status today policy;
  let effective := policy ≫= po_effective_date in
  let expiration := policy ≫= po_expiration_date in
  Ret (mk_item certificate_id (party_text c.(ce_holder)) (party_text c.(ce_insured)) (party_text c.(ce_producer))
         row.(lr_policy) (party_text (policy ≫= po_coverage)) (party_text (policy ≫= po_insurer))
         (party_text (policy ≫= po_policy_number))
         (effective ≫= dv_iso) (dv_ambiguous <$> effective) (date_candidates effective)
         (expiration ≫= dv_iso) (dv_ambiguous <$> expiration) (date_candidates expiration)
         status (item_reasons c selected) parent.(cr_message_id) parent.(cr_part_id) parent.(cr_job_id)
         row.(lr_source_available)).

(** ** The listing *)

Record ledger_state := mk_ledger {
  lg_values : list (option ledger_item);
  lg_response : Z;
  lg_rendered : Z }.

(** Render the rows of one certificate. *)
Fixpoint render_rows (today : Z) (certificate_id : text) (parent : CertificateRow) (c : certificate)
    (selections : list (nat * ledger_row)) (st : ledger_state) : py ledger_state :=
  match selections with
  | [] => Ret st
  | (index, row) :: rest =>
      rendered ← render_item today certificate_id parent c row;
      encoded ← require_some (Utf8.encode (dumps true (item_json rendered))) UnicodeEncodeError;
      let response := st.(lg_response) + byte_count encoded + (if 0 <? st.(lg_rendered) then 1 else 0) in
      _ ← require (response <=? MAX_CERTIFICATE_LEDGER_RESPONSE_BYTES)
            (RuntimeError "Certificate ledger response size exceeds the local API limit");
      render_rows today certificate_id parent c rest
        (mk_ledger (<[index := Some rendered]> st.(lg_values)) response (st.(lg_rendered) + 1))
  end.

(** The stored certificate, validated again and compared with its rows. *)
Definition stored_certificate (certificate_id : text) s : py (CertificateRow * certificate) :=
  parent ← require_some (s.(cs_certificates) !! certificate_id)
             (RuntimeError "Stored certificate ledger parent is missing");
  v ← require_some (_validate_certificate_record parent.(cr_canonical_json) None None None)
        (RuntimeError "Stored certificate ledger record is invalid");
  _ ← require (bool_decide (v.(va_canonical_json) = parent.(cr_canonical_json)) &&
               bool_decide (v.(va_sha256) = parent.(cr_result_sha256)))
        (RuntimeError "Stored certificate ledger digest is invalid");
  _ ← require (identity_key_ok parent.(cr_scope).2 && truthy parent.(cr_scope).1.1 && truthy parent.(cr_scope).1.2 &&
               truthy parent.(cr_message_id) && truthy parent.(cr_job_id))
        (RuntimeError "Stored certificate source identity is invalid");
  _ ← _certificate_assert_projection certificate_id parent v.(va_record) s;
  Ret (parent, v.(va_record)).

Fixpoint render_groups (today : Z) (groups : list (text * list (nat * ledger_row))) (evidence : Z) s
    (st : ledger_state) : py ledger_state :=
  match groups with
  | [] => Ret st
  | (certificate_id, selections) :: rest =>
      let canonical_result_bytes := match selections with (_, row) :: _ => row.(lr_bytes) | [] => 0 end in
      _ ← require (2 <=? canonical_result_bytes) (RuntimeError "Stored certificate ledger evidence size is invalid");
      let evidence := evidence + canonical_result_bytes in
      _ ← require (evidence <=? MAX_CERTIFICATE_LEDGER_EVIDENCE_BYTES)
            (RuntimeError "Certificate ledger evidence size exceeds the local API limit");
      '(parent, c) ← stored_certificate certificate_id s;
      st ← render_rows today certificate_id parent c selections st;
      render_groups today rest evidence s st
  end.

(** [today] as a day, when it is a canonical date. *)
Definition ledger_today (today : text) : option Z :=
  _ ← check (date_shape today);
  calendar_today ← parse_date today;
  _ ← check (bool_decide (date_isoformat calendar_today = today));
  Some calendar_today.

(** [Store.list_certificate_expiry_ledger] *)
Definition list_certificate_expiry_ledger (today : text) (limit : Z) s : py (list ledger_item) :=
  calendar_today ← require_some (ledger_today today)
                     (ValueError "Certificate ledger today must be canonical YYYY-MM-DD");
  _ ← require ((1 <=? limit) && (limit <=? 500)) (ValueError "Certificate ledger limit must be between 1 and 500");
  let rows := ledger_rows limit s in
  st ← render_groups calendar_today (grouped rows) 0 s
         (mk_ledger (replicate (length rows) None) EMPTY_RESPONSE_BYTES 0);
  require_some (mapM id st.(lg_values)) (RuntimeError "Stored certificate ledger row was not rendered").

End Ledger.
