(* ===== verification/ConnectReads.v ===== *)
(** * Reads of Connect jobs

    Models [Store.connect_job], [Store.connect_job_parameters] and
    [Store.active_connect_job] of [src/src/eom_email_watcher/db.py].  An invocation has at
    most one active job ([ConnectTheorems.connect_queue_sound] and the unique index of
    protocol 1), so the order of the last query decides nothing. *)

From S2P Require Export ConnectTransition.
From stdpp Require Import options.

Local Open Scope Z_scope.

Section Reads.
Context `{Unicode} `{ConnectLib}.
Implicit Types s : connect_store.

(** [Store.connect_job] *)
Definition connect_job (job_id : text) (source_start : bool) s : option ConnectJob :=
  j ← s.(cs_jobs) !! job_id;
  if source_start && negb (_connect_source_available job_id j s) then None else Some j.

(** The columns a protocol-2 request is validated with. *)
Definition durable_request (j : ConnectJob) : option (text * text * text * text * text * bytes) :=
  let r := j.(jb_request) in
  if negb r.(jr_v2) then None else
  match j.(jb_provider_app_id), r.(jr_provider_app_version), j.(jb_provider_instance_id),
        r.(jr_input_display_name), r.(jr_source_app_id), r.(jr_request_json) with
  | Some app, Some version, Some instance, Some name, Some source_app, Some raw =>
      Some (app, version, instance, name, source_app, raw)
  | _, _, _, _, _, _ => None
  end.

(** [except ValueError as exc: raise RuntimeError] *)
Definition as_runtime {A} (message : string) (m : py A) : py A :=
  match m with
  | Raise (ValueError _ | JSONDecodeError | UnicodeDecodeError | UnicodeEncodeError) => Raise (RuntimeError message)
  | _ => m
  end.

(** [Store.connect_job_parameters] *)
Definition connect_job_parameters (job_id : text) (j : ConnectJob) s : py (list (text * parameter)) :=
  let r := j.(jb_request) in
  let invalid := "Connect v2 job has an invalid durable request"%string in
  match durable_request j with
  | None => Raise (RuntimeError "Connect v2 job is missing its durable request")
  | Some (app, version, instance, name, source_app, raw) =>
      '(fingerprint, parameters) ← as_runtime invalid (
        d ← connect_dispatch job_id s;
        d ← require_some d (ValueError "Missing dispatch authority");
        fingerprint ← _validate_v2_request_record raw job_id r.(jr_capability_id) r.(jr_capability_version) app
                        version instance r.(jr_input) name source_app d.(cd_required_features);
        request ← _decode_v2_request raw;
        parameters ← _canonical_v2_parameters (member (str "parameters") request);
        Ret (fingerprint, parameters));
      _ ← require (bool_decide (fingerprint = r.(jr_invocation_fingerprint))) (RuntimeError invalid);
      Ret parameters
  end.

Definition protocol_of (r : JobRequest) : Z := if r.(jr_v2) then 2 else 1.

(** The active jobs with these columns, oldest first. *)
Definition active_jobs (message_id part_id capability_id capability_version : text) (protocol_version : Z)
    (fingerprint : text) s : list (text * ConnectJob) :=
  sort_by job_leb (List.filter (fun e : text * ConnectJob => let r := e.2.(jb_request) in
      bool_decide (r.(jr_message_id) = message_id) && bool_decide (r.(jr_part_id) = part_id) &&
      bool_decide (r.(jr_capability_id) = capability_id) &&
      bool_decide (r.(jr_capability_version) = capability_version) &&
      (protocol_of r =? protocol_version) &&
      bool_decide (r.(jr_invocation_fingerprint) = fingerprint) && active_status e.2.(jb_status))
    (map_to_list s.(cs_jobs))).

(** [Store.active_connect_job] *)
Definition active_connect_job (message_id part_id capability_id capability_version : text)
    (protocol_version : Z) (provider_app_id provider_app_version provider_instance_id : option text)
    (request_json : option bytes) (required_manifest_features : json) s : py (option (text * ConnectJob)) :=
  match _lookup_invocation_fingerprint protocol_version capability_id capability_version
          provider_app_id provider_app_version provider_instance_id request_json
          required_manifest_features with
  | Ret fingerprint =>
      Ret (list.last (active_jobs message_id part_id capability_id capability_version protocol_version
                   fingerprint s))
  | Raise e => Raise e
  end.

End Reads.
