(* ===== verification/FireStore.v ===== *)
(** * The fires of the automation rules

    Models the fire operations of [src/src/eom_email_watcher/db.py] on the tables
    [automation_fires], [automation_fire_attempts] and
    [automation_fire_confirmations]: the state machine
    ([AUTOMATION_FIRE_TRANSITIONS], [transition_automation_fire]), confirmations
    ([decide_automation_fire], [automation_confirmation_matches]), the entitlement
    pause of the linked job ([_resume_automation_dispatch],
    [resume_automation_fire_job], [authorize_connect_job_interactively]) and the one
    retry after a failure ([retry_automation_fire_after_failure]).

    Elapsed times are [int(timedelta.total_seconds())]; the division by a million is
    done on integers here, which agrees with the float division below [2^33] seconds
    (272 years). *)

From S2P Require Export CertificateReplay.
From stdpp Require Import options.

Local Open Scope Z_scope.

Definition AUTOMATION_FIRE_MAX_ATTEMPTS : Z := 2.
Definition MAX_AUTOMATION_PREPARED_IDENTITY_BYTES : Z := 32 * 1024.

(** ** States *)

(** [AUTOMATION_FIRE_STATES] *)
Definition fire_state_text (s : fire_state) : text :=
  match s with
  | PendingDispatch => str "pending_dispatch"
  | EntitlementPaused => str "entitlement_paused"
  | AwaitingConfirmation => str "awaiting_confirmation"
  | Submitted => str "submitted"
  | FireCompleted => str "completed"
  | FireFailed => str "failed"
  | Declined => str "declined"
  | ManualReview => str "manual_review"
  | SourceUnavailable => str "source_unavailable"
  end.

Definition AUTOMATION_FIRE_STATES : list fire_state :=
  [PendingDispatch; EntitlementPaused; AwaitingConfirmation; Submitted; FireCompleted; FireFailed;
   Declined; ManualReview; SourceUnavailable].

(** [AUTOMATION_FIRE_TERMINAL_STATES] *)
Definition fire_terminal (s : fire_state) : bool :=
  match s with
  | FireCompleted | FireFailed | Declined | ManualReview | SourceUnavailable => true
  | _ => false
  end.

(** [AUTOMATION_FIRE_TRANSITIONS] *)
Definition fire_transition (a b : fire_state) : bool :=
  match a, b with
  | PendingDispatch,
    (EntitlementPaused | AwaitingConfirmation | Submitted | ManualReview | SourceUnavailable) => true
  | EntitlementPaused,
    (PendingDispatch | Submitted | FireCompleted | FireFailed | ManualReview | SourceUnavailable) => true
  | AwaitingConfirmation, (PendingDispatch | Declined | ManualReview | SourceUnavailable) => true
  | Submitted,
    (FireCompleted | FireFailed | EntitlementPaused | PendingDispatch | ManualReview
     | SourceUnavailable) => true
  | _, _ => false
  end.

(** ** Times *)

(** [max(0, int((now - then).total_seconds()))] *)
Definition elapsed_seconds (now then_ : Z) : Z := Z.max 0 (Z.quot (now - then_) US).

(** [Store.automation_pending_seconds] *)
Definition automation_pending_seconds (f : AutomationFire) (now : Z) : py Z :=
  if negb (bool_decide (f.(fi_state) = PendingDispatch)) then Ret f.(fi_pending_seconds) else
  match f.(fi_pending_since) with
  | None => Ret f.(fi_pending_seconds)
  | Some since =>
      started_at ← aware_utc "Automation pending time is missing its timezone" since;
      Ret (f.(fi_pending_seconds) + elapsed_seconds now started_at)
  end.

Section Fires.
Context `{Unicode} `{ConnectLib}.
Implicit Types s : connect_store.

(** ** Reads *)

Definition fire_created_leb (a b : text * AutomationFire) : bool :=
  let ca := a.2.(fi_source).(fs_created_at) in
  let cb := b.2.(fi_source).(fs_created_at) in
  text_ltb ca cb || (bool_decide (ca = cb) && text_leb a.1 b.1).

Definition fire_updated_leb (a b : text * AutomationFire) : bool :=
  text_ltb a.2.(fi_updated_at) b.2.(fi_updated_at) ||
  (bool_decide (a.2.(fi_updated_at) = b.2.(fi_updated_at)) && text_leb a.1 b.1).

(** [Store.automation_fires_for_message] *)
Definition automation_fires_for_message (message_id : text) s : list (text * AutomationFire) :=
  sort_by fire_created_leb
    (List.filter (fun e => bool_decide (e.2.(fi_source).(fs_message_id) = message_id))
       (map_to_list s.(cs_fires))).

(** [Store.automation_fire_attempts] *)
Definition automation_fire_attempts (fire_id : text) s : list (Z * AutomationFireAttempt) :=
  (fun e : text * Z * AutomationFireAttempt => (e.1.2, e.2)) <$>
  sort_by (fun a b => a.1.2 <=? b.1.2)
    (List.filter (fun e : text * Z * AutomationFireAttempt => bool_decide (e.1.1 = fire_id))
       (map_to_list s.(cs_attempts))).

(** [Store.automation_fire] *)
Definition automation_fire (fire_id : text) s : option AutomationFire := s.(cs_fires) !! fire_id.

(** [Store.automation_fires_in_states] *)
Definition automation_fires_in_states (states : list text) (limit : Z) s
    : py (list (text * AutomationFire)) :=
  _ ← require (truthy_list states &&
               forallb (fun t => bool_decide (t ∈ fire_state_text <$> AUTOMATION_FIRE_STATES)) states &&
               (1 <=? limit) && (limit <=? Z.of_nat CONNECT_QUEUE_MAX_JOBS))
        (ValueError "Automation fire query boundary is invalid");
  Ret (take (Z.to_nat limit)
         (sort_by fire_updated_leb
            (List.filter (fun e => bool_decide (fire_state_text e.2.(fi_state) ∈ states))
               (map_to_list s.(cs_fires))))).

(** [Store.automation_fires_linked_to_job] *)
Definition automation_fires_linked_to_job (job_id : text) s : list (text * AutomationFire) :=
  sort_by fire_created_leb (List.filter (fun e => fire_open e.2) (linked_fires job_id s)).

(** [Store.touch_automation_fire] *)
Definition touch_automation_fire (fire_id : text) (expected_state : fire_state) (expected_version : Z)
    (now : Z) s : py (bool * connect_store) :=
  _ ← require ((1 <=? expected_version) && (expected_version <=? 2 ^ 63 - 1))
        (ValueError "Automation fire version is invalid");
  match s.(cs_fires) !! fire_id with
  | Some f =>
      if bool_decide (f.(fi_state) = expected_state) && (f.(fi_version) =? expected_version) then
        Ret (true, set_fires (<[fire_id := mk_fire f.(fi_source) f.(fi_state) f.(fi_version) f.(fi_reason)
               f.(fi_attempt_no) f.(fi_job_id) f.(fi_prepared) f.(fi_confirmed) f.(fi_pending_since)
               f.(fi_pending_seconds) (isoformat (utc now))]> s.(cs_fires)) s)
      else Ret (false, s)
  | None => Ret (false, s)
  end.

(** ** The entitlement pause of a job *)

(** [_connect_job_requires_automation_entitlement] *)
Definition _connect_job_requires_automation_entitlement (job_id : text) s : bool :=
  existsb (fun e => bool_decide (e.2.(at_dispatch_request_id) = job_id)) (map_to_list s.(cs_attempts)) &&
  match s.(cs_dispatch) !! job_id with Some d => is_none d.(ds_interactive_at) | None => false end.

(** [datetime.fromisoformat] *)
Definition read_time (value : text) : py datetime :=
  require_some (fromisoformat value) (ValueError "Invalid isoformat string").

(** [_resume_automation_dispatch] *)
Definition _resume_automation_dispatch (job_id : text) (observed_at : Z) (stamp : text) s
    : py connect_store :=
  d ← require_some (s.(cs_dispatch) !! job_id)
        (RuntimeError "Automation entitlement resume lost its Connect job");
  match d.(ds_paused_at) with
  | None => Ret s
  | Some paused_at_value =>
      admission_deadline ← read_time d.(ds_admission_deadline);
      paused_at ← read_time paused_at_value;
      _ ← require (is_some admission_deadline.(dt_offset))
            (RuntimeError "Connect admission deadline is missing its timezone");
      _ ← require (is_some paused_at.(dt_offset))
            (RuntimeError "Automation entitlement pause is missing its timezone");
      paused ← astimezone_utc paused_at;
      deadline ← astimezone_utc admission_deadline;
      extended ← plus_us deadline (elapsed_seconds observed_at paused * US);
      let d' := with_deadline (isoformat (utc extended)) None d in
      let d' := with_state d'.(ds_state) d'.(ds_next_attempt_at) d'.(ds_submission_possible) stamp d' in
      Ret (set_dispatch (<[job_id := d']> s.(cs_dispatch)) s)
  end.

(** [UPDATE connect_job_dispatch SET automation_paused_at = COALESCE(automation_paused_at, ?)] *)
Definition pause_dispatch (stamp : text) (d : dispatch_row) : dispatch_row :=
  with_deadline d.(ds_admission_deadline) (Some (default stamp d.(ds_paused_at))) d.

(** ** Transitions *)

(** [json.dumps(prepared_identity, ...)] and its digest. *)
Definition prepare_identity (identity : list (text * json)) : py (text * bytes) :=
  prepared_json ← require_some (Utf8.encode (dumps true (JObj identity))) UnicodeEncodeError;
  _ ← require ((2 <=? byte_count prepared_json) &&
               (byte_count prepared_json <=? MAX_AUTOMATION_PREPARED_IDENTITY_BYTES))
        (ValueError "Automation prepared identity is invalid");
  Ret (Sha256.hexdigest prepared_json, prepared_json).

(** The pause of the linked job when a fire is paused. *)
Definition pause_linked_job (next_state : fire_state) (job_id : option text) (stamp : text) s
    : py connect_store :=
  match next_state, job_id with
  | EntitlementPaused, Some job_id =>
      _ ← require (is_some (s.(cs_dispatch) !! job_id))
            (RuntimeError "Automation entitlement pause lost its Connect job");
      Ret (if _connect_job_requires_automation_entitlement job_id s
           then set_dispatch (alter (pause_dispatch stamp) job_id s.(cs_dispatch)) s else s)
  | _, _ => Ret s
  end.

(** The attempt of a submitted fire is bound to its job, once. *)
Definition bind_attempt (fire_id : text) (attempt_no : Z) (job_id : text) s : py connect_store :=
  let conflict := RuntimeError "Automation fire attempt job binding conflicted" in
  a ← require_some (s.(cs_attempts) !! (fire_id, attempt_no)) conflict;
  match a.(at_job_id) with
  | None =>
      Ret (set_attempts (<[(fire_id, attempt_no) :=
             mk_attempt a.(at_dispatch_request_id) (Some job_id) a.(at_created_at)]> s.(cs_attempts)) s)
  | Some bound => _ ← require (bool_decide (bound = job_id)) conflict; Ret s
  end.

Definition submit_fire (next_state : fire_state) (fire_id : text) (attempt_no : Z) (job_id : option text)
    (observed_at : Z) (stamp : text) s : py connect_store :=
  match next_state, job_id with
  | Submitted, Some job_id =>
      s ← _resume_automation_dispatch job_id observed_at stamp s;
      bind_attempt fire_id attempt_no job_id s
  | _, _ => Ret s
  end.

(** A settled job whose source is gone is deleted with its last open fire. *)
Definition drop_settled_job (next_state : fire_state) (job_id : option text) (sql_now : text) s
    : connect_store :=
  match next_state, job_id with
  | (FireCompleted | FireFailed), Some job_id =>
      if match s.(cs_jobs) !! job_id with Some j => negb (active_status j.(jb_status)) | None => false end &&
         match s.(cs_dispatch) !! job_id with Some d => negb d.(ds_source_available) | None => false end &&
         negb (existsb (fun e => fire_open e.2) (linked_fires job_id s))
      then delete_job job_id sql_now s else s
  | _, _ => s
  end.

(** [reason is None or (reason and within_utf8_bytes(reason, 128))] *)
Definition reason_ok (reason : option text) : bool :=
  match reason with Some r => truthy r && within_utf8_bytes r 128 | None => true end.

(** [Store.transition_automation_fire] *)
Definition transition_automation_fire (fire_id : text) (expected_state : fire_state) (expected_version : Z)
    (next_state : fire_state) (reason job_id : option text) (prepared_identity : option (list (text * json)))
    (confirmed : option bool) (now : Z) (sql_now : text) s : py (AutomationFire * connect_store) :=
  _ ← require (fire_transition expected_state next_state) (ValueError "Invalid automation fire transition");
  _ ← require (1 <=? expected_version) (ValueError "Automation fire version is invalid");
  _ ← require (reason_ok reason) (ValueError "Automation fire reason is invalid");
  _ ← require (match job_id with Some j => uuid4_text j | None => true end)
        (ValueError "Automation fire job identity is invalid");
  prepared ← match prepared_identity with
             | Some identity => p ← prepare_identity identity; Ret (Some p)
             | None => Ret None
             end;
  let stamp := isoformat (utc now) in
  current ← require_some (s.(cs_fires) !! fire_id) (KeyError fire_id);
  _ ← require (bool_decide (current.(fi_state) = expected_state) && (current.(fi_version) =? expected_version))
        (RuntimeError "Automation fire transition lost its expected-state race");
  accumulated ←
    (if bool_decide (current.(fi_state) = PendingDispatch) && bool_decide (next_state = EntitlementPaused)
     then Ret current.(fi_pending_seconds) else automation_pending_seconds current now);
  let next_job_id := match job_id with Some j => Some j | None => current.(fi_job_id) end in
  let next_prepared := match prepared with Some p => Some p | None => current.(fi_prepared) end in
  _ ← require (negb (bool_decide (next_state = Submitted)) || is_some next_job_id)
        (ValueError "Submitted automation fire requires a Connect job");
  _ ← require (negb (bool_decide (next_state = AwaitingConfirmation)) || is_some next_prepared)
        (ValueError "Confirmation requires a prepared invocation identity");
  s ← pause_linked_job next_state next_job_id stamp s;
  s ← submit_fire next_state fire_id current.(fi_attempt_no) next_job_id now stamp s;
  let updated := mk_fire current.(fi_source) next_state (current.(fi_version) + 1) reason
                   current.(fi_attempt_no) next_job_id next_prepared (default current.(fi_confirmed) confirmed)
                   (if bool_decide (next_state = PendingDispatch) then Some stamp else None)
                   accumulated stamp in
  let s := set_fires (<[fire_id := updated]> s.(cs_fires)) s in
  Ret (updated, drop_settled_job next_state next_job_id sql_now s).

(** ** Confirmations *)

Definition sha256_text (t : text) : bool := bool_decide (length t = 64%nat) && forallb is_lower_hex t.

(** [Store.decide_automation_fire] *)
Definition decide_automation_fire (fire_id : text) (expected_version : Z) (prepared_identity_sha256 : text)
    (confirmed : bool) (now : Z) s : py (AutomationFire * connect_store) :=
  _ ← require (sha256_text prepared_identity_sha256)
        (ValueError "Automation confirmation identity is invalid");
  let stamp := isoformat (utc now) in
  current ← require_some (s.(cs_fires) !! fire_id) (KeyError fire_id);
  _ ← require (bool_decide (current.(fi_state) = AwaitingConfirmation) &&
               (current.(fi_version) =? expected_version) &&
               bool_decide (fst <$> current.(fi_prepared) = Some prepared_identity_sha256))
        (RuntimeError "Automation confirmation lost its expected-state race");
  s ← (if confirmed then
         _ ← require (is_none (s.(cs_confirmations) !! fire_id))
               (IntegrityError "automation_fire_confirmations");
         Ret (set_confirmations (<[fire_id := (prepared_identity_sha256, stamp)]> s.(cs_confirmations)) s)
       else Ret s);
  let updated := mk_fire current.(fi_source) (if confirmed then PendingDispatch else Declined)
                   (current.(fi_version) + 1) (if confirmed then None else Some (str "declined_by_user"))
                   current.(fi_attempt_no) current.(fi_job_id) current.(fi_prepared) confirmed
                   (if confirmed then Some stamp else None) current.(fi_pending_seconds) stamp in
  Ret (updated, set_fires (<[fire_id := updated]> s.(cs_fires)) s).

(** [Store.automation_confirmation_matches] *)
Definition automation_confirmation_matches (fire_id : text) (f : AutomationFire) s : bool :=
  match f.(fi_prepared) with
  | Some (sha256, _) =>
      f.(fi_confirmed) && bool_decide (fst <$> s.(cs_confirmations) !! fire_id = Some sha256)
  | None => false
  end.

(** ** Interactive authority *)

(** [Store.pause_interactive_job_automation_fires] *)
Definition pause_interactive_job_automation_fires (job_id : text) (now : Z) s : py (nat * connect_store) :=
  let inactive := RuntimeError "Only active Connect jobs can pause joined automation fires" in
  j ← require_some (s.(cs_jobs) !! job_id) inactive;
  d ← require_some (s.(cs_dispatch) !! job_id) inactive;
  _ ← require (active_status j.(jb_status)) inactive;
  _ ← require (negb (existsb (fun e => bool_decide (e.2.(at_dispatch_request_id) = job_id))
                      (map_to_list s.(cs_attempts))) || is_some d.(ds_interactive_at))
        (RuntimeError "Automation-origin jobs require durable interactive authority");
  Ret (_pause_linked_automation_fires job_id (isoformat (utc now)) s).

(** [Store.authorize_connect_job_interactively] *)
Definition authorize_connect_job_interactively (job_id : text) (now : Z) s : py (ConnectJob * connect_store) :=
  let missing := RuntimeError "Only persisted Connect v2 jobs can be authorized interactively" in
  j ← require_some (s.(cs_jobs) !! job_id) missing;
  d ← require_some (s.(cs_dispatch) !! job_id) missing;
  _ ← require j.(jb_request).(jr_v2) missing;
  if negb (active_status j.(jb_status)) then Ret (j, s) else
  let stamp := isoformat (utc now) in
  let d := with_interactive (Some (default stamp d.(ds_interactive_at))) d in
  let s := set_dispatch (<[job_id := d]> s.(cs_dispatch)) s in
  s ← _resume_automation_dispatch job_id now stamp s;
  Ret (j, s).

(** [Store.resume_automation_fire_job] *)
Definition resume_automation_fire_job (fire_id : text) (expected_version : Z) (now : Z) s
    : py (AutomationFire * connect_store) :=
  let stamp := isoformat (utc now) in
  let lost := RuntimeError "Automation entitlement resume lost its expected-state race" in
  current ← require_some (s.(cs_fires) !! fire_id) (KeyError fire_id);
  _ ← require (bool_decide (current.(fi_state) = EntitlementPaused) &&
               (current.(fi_version) =? expected_version)) lost;
  job_id ← require_some current.(fi_job_id) lost;
  s ← _resume_automation_dispatch job_id now stamp s;
  let updated := mk_fire current.(fi_source) Submitted (current.(fi_version) + 1) None current.(fi_attempt_no)
                   current.(fi_job_id) current.(fi_prepared) current.(fi_confirmed) current.(fi_pending_since)
                   current.(fi_pending_seconds) stamp in
  Ret (updated, set_fires (<[fire_id := updated]> s.(cs_fires)) s).

(** ** Retry *)

(** [_automation_fire_retry_row] *)
Definition _automation_fire_retry_row (fire_id : text) s : option (AutomationFire * ConnectJob * dispatch_row) :=
  f ← s.(cs_fires) !! fire_id;
  job_id ← f.(fi_job_id);
  j ← s.(cs_jobs) !! job_id;
  d ← s.(cs_dispatch) !! job_id;
  Some (f, j, d).

Inductive retry_kind := AdmissionDeadline | ResourceBusy.

Global Instance retry_kind_eq_dec : EqDecision retry_kind.
Proof. solve_decision. Defined.

Definition retry_kind_text (k : retry_kind) : text :=
  match k with AdmissionDeadline => str "admission_deadline" | ResourceBusy => str "resource_busy" end.

(** [_AUTOMATION_FAILURE_RETRY_KINDS.get] *)
Definition failure_kind (error_code : option text) : option retry_kind :=
  match error_code with
  | Some c => if bool_decide (c = str "connect_queue_deadline_exceeded") then Some AdmissionDeadline
              else if bool_decide (c = str "PROVIDER_RESOURCE_BUSY") then Some ResourceBusy else None
  | None => None
  end.

(** [_automation_failure_retry_kind] *)
Definition _automation_failure_retry_kind (row : option (AutomationFire * ConnectJob * dispatch_row))
    : option retry_kind :=
  match row with
  | Some (_, j, d) =>
      if negb (bool_decide (j.(jb_status) = Failed)) then None else
      match failure_kind j.(jb_error).(er_code) with
      | Some AdmissionDeadline =>
          if bool_decide (d.(ds_highest) = PRequested) then Some AdmissionDeadline else None
      | Some ResourceBusy =>
          if bool_decide (j.(jb_error).(er_retryable) = Some true) && d.(ds_authority).(da_authority_known) &&
             negb d.(ds_authority).(da_external_effects)
          then Some ResourceBusy else None
      | None => None
      end
  | None => None
  end.

(** [Store.automation_fire_retry_kind] *)
Definition automation_fire_retry_kind (fire_id : text) s : option retry_kind :=
  _automation_failure_retry_kind (_automation_fire_retry_row fire_id s).

(** [Store.retry_automation_fire_after_failure]; [request_id] is [str(uuid.uuid4())]. *)
Definition retry_automation_fire_after_failure (fire_id : text) (expected_version : Z) (request_id : text)
    (now : Z) s : py (AutomationFire * connect_store) :=
  let stamp := isoformat (utc now) in
  row ← require_some (_automation_fire_retry_row fire_id s) (KeyError fire_id);
  let current := row.1.1 in
  let unproven := RuntimeError "Automation retry lacks authoritative recovery proof" in
  _ ← require (bool_decide (current.(fi_state) = Submitted) && (current.(fi_version) =? expected_version) &&
               (current.(fi_attempt_no) =? 1)) unproven;
  kind ← require_some (_automation_failure_retry_kind (Some row)) unproven;
  _ ← require (is_none (s.(cs_attempts) !! (fire_id, 2)) &&
               negb (existsb (fun e => bool_decide (e.2.(at_dispatch_request_id) = request_id))
                       (map_to_list s.(cs_attempts))))
        (IntegrityError "automation_fire_attempts");
  let s := set_attempts (<[(fire_id, 2) := mk_attempt request_id None stamp]> s.(cs_attempts)) s in
  let updated := mk_fire current.(fi_source) PendingDispatch (current.(fi_version) + 1)
                   (Some (str "first_" ++ retry_kind_text kind)) 2 None None false (Some stamp) 0 stamp in
  let s := set_fires (<[fire_id := updated]> s.(cs_fires)) s in
  Ret (updated, set_confirmations (delete fire_id s.(cs_confirmations)) s).

(** [Store.automation_fire_settlement_due] *)
Definition settlement_due (s : connect_store) (fire_id : text) (f : AutomationFire) : bool :=
  match f.(fi_job_id) with
  | None => false
  | Some job_id =>
      fire_open f &&
      match s.(cs_jobs) !! job_id with
      | None => true
      | Some j =>
          negb (active_status j.(jb_status)) &&
          (negb (bool_decide (f.(fi_state) = EntitlementPaused)) ||
           match automation_fire_retry_kind fire_id s with
           | Some _ => AUTOMATION_FIRE_MAX_ATTEMPTS <=? f.(fi_attempt_no)
           | None =>
               negb (match s.(cs_dispatch) !! job_id with
                     | Some d => is_some d.(ds_interactive_at) | None => false end) &&
               existsb (fun e => bool_decide (e.2.(at_dispatch_request_id) = job_id))
                 (map_to_list s.(cs_attempts))
           end)
      end
  end.

Definition automation_fire_settlement_due s : bool :=
  existsb (fun e => settlement_due s e.1 e.2) (map_to_list s.(cs_fires)).

End Fires.

(** * Sources of fires and jobs

    Models, of [src/src/eom_email_watcher/db.py], the admission of a fire (the inserts
    of [mark_analyzed] with the constraints and the trigger
    [automation_fires_require_sources]), and what the loss of a message does to its
    fires and Connect jobs: [_AUTOMATION_SOURCE_BINDING_SQL],
    [_CONNECT_SOURCE_INVALIDATION_SQL], [_CONNECT_SOURCE_UNAVAILABLE_SQL] and the
    triggers [messages_delete_pending_automation_fires] and
    [messages_delete_connect_attachment_jobs].

    [sql_now] and [sql_now_utc] are the database's clock in the two formats the
    statements use. *)

Section Sources.
Context `{Unicode} `{ConnectLib}.
Implicit Types s : connect_store.

(** ** Admission *)

Definition new_fire (source : FireSource) : AutomationFire :=
  mk_fire source PendingDispatch 1 None 1 None None false (Some source.(fs_created_at)) 0
    source.(fs_created_at).

(** [UNIQUE (message_id, part_id, rule_id, rule_version)] *)
Definition fire_duplicate (source : FireSource) s : bool :=
  existsb (fun e => let o := e.2.(fi_source) in
      bool_decide (o.(fs_message_id) = source.(fs_message_id)) &&
      bool_decide (o.(fs_part_id) = source.(fs_part_id)) &&
      bool_decide (o.(fs_rule_id) = source.(fs_rule_id)) && (o.(fs_rule_version) =? source.(fs_rule_version)))
    (map_to_list s.(cs_fires)).

Definition request_id_used (request_id : text) s : bool :=
  existsb (fun e => bool_decide (e.2.(at_dispatch_request_id) = request_id)) (map_to_list s.(cs_attempts)).

(** The CHECK constraints on the columns of a new fire, and on the request of its attempt;
    [identity_row_ok] has those on the fire's own id. *)
Definition fire_row_ok (request_id : text) (source : FireSource) : bool :=
  bool_decide (sql_length source.(fs_event_id) = 64%nat) && bool_decide (sql_length source.(fs_rule_id) = 36%nat) &&
  (1 <=? source.(fs_rule_version)) && negb (bool_decide (source.(fs_message_id) = [])) &&
  bool_decide (sql_length request_id = 36%nat).

(** The three inserts of a fire; [rule_known] tells whether the version of the rule is
    a stored definition. *)
Definition insert_fire (fire_id request_id : text) (source : FireSource) (scope : MailScope)
    (rule_known : bool) s : py connect_store :=
  _ ← require (fire_row_ok request_id source) (IntegrityError "CHECK automation_fires");
  _ ← require (is_none (s.(cs_fires) !! fire_id) && negb (fire_duplicate source s))
        (IntegrityError "automation_fires");
  _ ← require (rule_known && bool_decide ((source.(fs_message_id), source.(fs_part_id)) ∈ s.(cs_attachments)))
        (IntegrityError "automation fire source is invalid");
  let s := set_fires (<[fire_id := new_fire source]> s.(cs_fires)) s in
  _ ← require (is_none (s.(cs_identities) !! fire_id) &&
               identity_row_ok fire_id (scope, source.(fs_message_id), source.(fs_part_id)))
        (IntegrityError "automation_fire_source_identities");
  let s := set_identities (<[fire_id := (scope, source.(fs_message_id), source.(fs_part_id))]>
                             s.(cs_identities)) s in
  _ ← require (is_none (s.(cs_attempts) !! (fire_id, 1)) && negb (request_id_used request_id s))
        (IntegrityError "automation_fire_attempts");
  Ret (set_attempts (<[(fire_id, 1) := mk_attempt request_id None source.(fs_created_at)]> s.(cs_attempts)) s).

(** ** Loss of a message *)

(** A job the provider may have seen, under known authority. *)
Definition provider_admitted (request_id : text) s : bool :=
  match s.(cs_jobs) !! request_id, s.(cs_dispatch) !! request_id with
  | Some j, Some d =>
      j.(jb_request).(jr_v2) && d.(ds_authority).(da_authority_known) &&
      negb (bool_decide (d.(ds_state) = Waiting) && negb d.(ds_submission_possible))
  | _, _ => false
  end.

Definition fire_of_message (message_id : text) (f : AutomationFire) : bool :=
  bool_decide (f.(fi_source).(fs_message_id) = message_id) &&
  (bool_decide (f.(fi_state) = PendingDispatch) || bool_decide (f.(fi_state) = EntitlementPaused)).

(** The attempts of the message that the provider admitted are bound to their job. *)
Definition bound_attempt (message_id : text) s (k : text * Z) (a : AutomationFireAttempt)
    : AutomationFireAttempt :=
  if is_none a.(at_job_id) &&
     match s.(cs_fires) !! k.1 with Some f => fire_of_message message_id f | None => false end &&
     provider_admitted a.(at_dispatch_request_id) s
  then mk_attempt a.(at_dispatch_request_id) (Some a.(at_dispatch_request_id)) a.(at_created_at) else a.

(** A fire whose current attempt is bound is submitted. *)
Definition bound_fire (message_id sql_now_utc : text) s (fire_id : text) (f : AutomationFire) : AutomationFire :=
  match (if fire_of_message message_id f && is_none f.(fi_job_id)
         then a ← s.(cs_attempts) !! (fire_id, f.(fi_attempt_no)); a.(at_job_id) else None) with
  | Some job_id =>
      mk_fire f.(fi_source) Submitted (f.(fi_version) + 1)
        (Some (str "source_removed_after_provider_admission")) f.(fi_attempt_no) (Some job_id) f.(fi_prepared)
        f.(fi_confirmed) None f.(fi_pending_seconds) sql_now_utc
  | None => f
  end.

(** [_AUTOMATION_SOURCE_BINDING_SQL] *)
Definition automation_source_binding (message_id sql_now_utc : text) s : connect_store :=
  let s := set_attempts (map_imap (fun k a => Some (bound_attempt message_id s k a)) s.(cs_attempts)) s in
  set_fires (map_imap (fun k f => Some (bound_fire message_id sql_now_utc s k f)) s.(cs_fires)) s.

(** A settled job that a paused fire still waits for, or a certificate job with an
    open fire. *)
Definition settlement_waits (job_id : text) (j : ConnectJob) s : bool :=
  deferred_interactive_fire job_id s ||
  (bool_decide (j.(jb_request).(jr_capability_id) = CERTIFICATE_CAPABILITY_ID) &&
   existsb (fun e => fire_open e.2) (linked_fires job_id s)).

(** The jobs that are deleted with their message. *)
Definition job_invalidated (message_id : text) s (e : text * ConnectJob) : bool :=
  let '(job_id, j) := e in
  bool_decide (j.(jb_request).(jr_message_id) = message_id) &&
  (negb j.(jb_request).(jr_v2) ||
   (negb (active_status j.(jb_status)) && negb (settlement_waits job_id j s)) ||
   match s.(cs_dispatch) !! job_id with
   | Some d => bool_decide (d.(ds_state) = Waiting) && negb d.(ds_submission_possible)
   | None => false
   end).

Definition without_source (sql_now_utc : text) (d : dispatch_row) : dispatch_row :=
  mk_dispatch d.(ds_state) d.(ds_attempt_count) d.(ds_failure_count) d.(ds_next_attempt_at)
    d.(ds_admission_deadline) d.(ds_submission_possible) false d.(ds_authority) d.(ds_interactive_at)
    d.(ds_paused_at) d.(ds_highest) d.(ds_error_code) d.(ds_error_message) sql_now_utc.

(** [_CONNECT_SOURCE_INVALIDATION_SQL] *)
Definition connect_source_invalidation (message_id sql_now sql_now_utc : text) s : connect_store :=
  let doomed := (List.filter (job_invalidated message_id s) (map_to_list s.(cs_jobs))).*1 in
  let s := fold_left (fun s job_id => delete_job job_id sql_now s) doomed s in
  set_dispatch (map_imap (fun job_id d =>
      Some (match s.(cs_jobs) !! job_id with
            | Some j => if bool_decide (j.(jb_request).(jr_message_id) = message_id)
                        then without_source sql_now_utc d else d
            | None => d
            end)) s.(cs_dispatch)) s.

(** [_CONNECT_SOURCE_UNAVAILABLE_SQL] *)
Definition connect_source_unavailable (message_id sql_now sql_now_utc : text) s : connect_store :=
  connect_source_invalidation message_id sql_now sql_now_utc
    (automation_source_binding message_id sql_now_utc s).

(** A fire that dies with its message. *)
Definition fire_abandoned (message_id : text) (f : AutomationFire) : bool :=
  bool_decide (f.(fi_source).(fs_message_id) = message_id) &&
  match f.(fi_state) with
  | PendingDispatch | AwaitingConfirmation => true
  | EntitlementPaused => is_none f.(fi_job_id)
  | _ => false
  end.

(** [DELETE FROM automation_fire_confirmations, automation_fire_attempts,
    automation_fires] for them, with the trigger [automation_fires_delete_source_identity]. *)
Definition abandon (message_id : text) s : connect_store :=
  let kept fire_id := match s.(cs_fires) !! fire_id with
                      | Some f => negb (fire_abandoned message_id f) | None => true end in
  set_confirmations (filter (fun e => kept e.1) s.(cs_confirmations))
    (set_attempts (filter (fun e => kept e.1.1) s.(cs_attempts))
      (set_identities (filter (fun e => kept e.1) s.(cs_identities))
         (set_fires (filter (fun e => kept e.1) s.(cs_fires)) s))).

(** [DELETE FROM messages]: the trigger [messages_delete_pending_automation_fires]
    before it, [messages_delete_connect_attachment_jobs] after it. *)
Definition messages_delete (message_id sql_now sql_now_utc : text) s : connect_store :=
  connect_source_invalidation message_id sql_now sql_now_utc
    (abandon message_id (automation_source_binding message_id sql_now_utc s)).

End Sources.
