(* ===== verification/ConnectSteps.v ===== *)
(** * Steps of the Connect queue and of the fires

    The specification the queue is held against: the stage of a job, the moves of a job
    and of a fire, and the row steps every transaction is made of.  [queue_step] lists
    the operations; [ConnectRows.queue_step_rows] shows that each is such a transaction. *)

From S2P Require Export FireStore.
From stdpp Require Import options.

Local Open Scope Z_scope.

(** ** Stages of a job *)

(** How far the provider has taken a job. *)
Definition status_rank (s : job_status) : Z :=
  match s with Requested => 0 | Accepted => 1 | Processing => 2 | Completed | Failed => 3 end.

Definition provider_rank (p : provider_state) : Z :=
  match p with PRequested => 0 | PAccepted => 1 | PProcessing => 2 end.

Definition highest_of (s : job_status) : provider_state :=
  match s with Accepted => PAccepted | Processing => PProcessing | _ => PRequested end.

(** The dispatch state a status can have: only a job the provider never accepted
    waits, and it is never marked as possibly submitted. *)
Definition stage_ok (s : job_status) (d : dispatch_row) : bool :=
  match d.(ds_state) with
  | Waiting => bool_decide (s = Requested) && negb d.(ds_submission_possible) &&
               bool_decide (d.(ds_highest) = PRequested)
  | Dispatching => bool_decide (s = Requested) && d.(ds_submission_possible) &&
                   bool_decide (d.(ds_highest) = PRequested)
  | Reconciling => active_status s && d.(ds_submission_possible) && bool_decide (d.(ds_highest) = highest_of s)
  | ProviderOwned => active_status s && negb (bool_decide (s = Requested)) && d.(ds_submission_possible) &&
                     bool_decide (d.(ds_highest) = highest_of s)
  | Terminal => negb (active_status s)
  end.

(** One write to a protocol-2 job and its dispatch. *)
Record job_move (j j' : ConnectJob) (d d' : dispatch_row) : Prop := {
  jm_request : j'.(jb_request) = j.(jb_request);
  jm_provider : j.(jb_request).(jr_v2) = true →
    j'.(jb_provider_app_id) = j.(jb_provider_app_id) ∧ j'.(jb_provider_instance_id) = j.(jb_provider_instance_id);
  jm_row : job_row_ok j = true → job_row_ok j' = true;
  jm_settled : active_status j.(jb_status) = false → j' = j;
  jm_authority : d'.(ds_authority) = d.(ds_authority);
  jm_interactive : is_some d.(ds_interactive_at) = true → d'.(ds_interactive_at) = d.(ds_interactive_at);
  jm_attempts : d.(ds_attempt_count) <= d'.(ds_attempt_count);
  jm_highest : provider_rank d.(ds_highest) <= provider_rank d'.(ds_highest);
  jm_rank : stage_ok j.(jb_status) d = true → status_rank j.(jb_status) <= status_rank j'.(jb_status);
  jm_stage : stage_ok j.(jb_status) d = true → stage_ok j'.(jb_status) d' = true }.

(** ** Moves of a fire *)

Inductive fire_hop (f f' : AutomationFire) : Prop :=
| hop_stay : f' = mk_fire f.(fi_source) f.(fi_state) f.(fi_version) f.(fi_reason) f.(fi_attempt_no)
      f.(fi_job_id) f.(fi_prepared) f.(fi_confirmed) f.(fi_pending_since) f.(fi_pending_seconds)
      f'.(fi_updated_at) → fire_hop f f'
| hop_move :
    fire_transition f.(fi_state) f'.(fi_state) = true →
    f'.(fi_source) = f.(fi_source) → f'.(fi_version) = f.(fi_version) + 1 →
    f'.(fi_attempt_no) = f.(fi_attempt_no) →
    (f'.(fi_state) = Submitted → is_some f'.(fi_job_id) = true) →
    (f'.(fi_state) = AwaitingConfirmation → is_some f'.(fi_prepared) = true) →
    (∀ h b, f'.(fi_prepared) = Some (h, b) → f.(fi_prepared) = Some (h, b) ∨ h = Sha256.hexdigest b) →
    fire_hop f f'.

(** The moves outside the machine, in an operation on the certificate job [cert]: a replay
    that refuses the certificate fails the fires its job had settled; and
    [_discard_settled_source_less_certificate_job] overwrites the settled fires of the job
    it has removed. *)
Inductive fire_refused (cert : option text) (jobs : gmap text ConnectJob) (f f' : AutomationFire) : Prop :=
| refused_replay job_id failure :
    cert = Some job_id → f.(fi_job_id) = Some job_id →
    f.(fi_state) = FireCompleted ∨
      f.(fi_state) = FireFailed ∧ f.(fi_reason) = Some (failure_reason CertificateInvalid) ∧ failure = CertificateConflict →
    f'.(fi_state) = FireFailed → f'.(fi_reason) = Some (failure_reason failure) →
    f'.(fi_source) = f.(fi_source) → f'.(fi_version) = f.(fi_version) + 1 →
    f'.(fi_attempt_no) = f.(fi_attempt_no) → f'.(fi_job_id) = f.(fi_job_id) →
    f'.(fi_prepared) = f.(fi_prepared) → fire_refused cert jobs f f'
| refused_discard job_id failure :
    cert = Some job_id → f.(fi_job_id) = Some job_id → jobs !! job_id = None → fire_open f = false →
    f'.(fi_state) = FireFailed → f'.(fi_reason) = Some (failure_reason failure) →
    f'.(fi_source) = f.(fi_source) → f'.(fi_version) = f.(fi_version) →
    f'.(fi_attempt_no) = f.(fi_attempt_no) → f'.(fi_job_id) = f.(fi_job_id) →
    f'.(fi_prepared) = f.(fi_prepared) → fire_refused cert jobs f f'.

Definition fire_change (cert : option text) (jobs : gmap text ConnectJob) (f f' : AutomationFire) : Prop :=
  fire_hop f f' ∨ fire_refused cert jobs f f'.

(** The second attempt of a fire. *)
Record fire_retry (f f' : AutomationFire) : Prop := {
  fr_from : f.(fi_state) = Submitted;
  fr_to : f'.(fi_state) = PendingDispatch;
  fr_source : f'.(fi_source) = f.(fi_source);
  fr_version : f'.(fi_version) = f.(fi_version) + 1;
  fr_first : f.(fi_attempt_no) = 1;
  fr_second : f'.(fi_attempt_no) = 2;
  fr_job : f'.(fi_job_id) = None;
  fr_prepared : f'.(fi_prepared) = None;
  fr_confirmed : f'.(fi_confirmed) = false }.

Lemma hop_refl f : fire_hop f f.
Proof. apply hop_stay. by destruct f. Qed.

Definition fires_hop (cert : option text) (jobs : gmap text ConnectJob) (m m' : gmap text AutomationFire) : Prop :=
  ∀ k, option_Forall2 (fire_change cert jobs) (m !! k) (m' !! k).

Lemma change_refl cert jobs f : fire_change cert jobs f f.
Proof. left. apply hop_refl. Qed.

Lemma fires_hop_refl cert jobs m : fires_hop cert jobs m m.
Proof. intros k. destruct (m !! k); constructor. apply change_refl. Qed.

Lemma fires_hop_insert cert jobs m k f f' : m !! k = Some f → fire_hop f f' → fires_hop cert jobs m (<[k := f']> m).
Proof.
  intros Hk Hh i. destruct (decide (i = k)) as [->|].
  - rewrite Hk, lookup_insert_eq. constructor. by left.
  - rewrite lookup_insert_ne by done. apply fires_hop_refl.
Qed.

Lemma fires_change_fmap cert jobs m g : (∀ k f, m !! k = Some f → fire_change cert jobs f (g f)) → fires_hop cert jobs m (g <$> m).
Proof. intros Hg k. rewrite lookup_fmap. destruct (m !! k) eqn:E; constructor; eauto. Qed.

Lemma fires_hop_fmap cert jobs m g : (∀ k f, m !! k = Some f → fire_hop f (g f)) → fires_hop cert jobs m (g <$> m).
Proof. intros Hg. apply fires_change_fmap. intros k f Hf. left. eauto. Qed.

Lemma fires_hop_imap cert jobs m (g : text → AutomationFire → AutomationFire) :
  (∀ k f, m !! k = Some f → fire_hop f (g k f)) → fires_hop cert jobs m (map_imap (fun k f => Some (g k f)) m).
Proof. intros Hg k. rewrite map_lookup_imap. destruct (m !! k) eqn:E; simpl; constructor. left. eauto. Qed.

(** A settled fire goes nowhere by [with_fire] from an open one. *)
Lemma with_fire_hop state reason stamp f :
  fire_transition f.(fi_state) state = true → state ≠ Submitted → state ≠ AwaitingConfirmation →
  fire_hop f (with_fire state reason stamp f).
Proof. intros. apply hop_move; simpl; try done; tauto. Qed.

Lemma open_settles f state :
  fire_open f = true → state = FireCompleted ∨ state = FireFailed ∨ state = SourceUnavailable →
  fire_transition f.(fi_state) state = true.
Proof. unfold fire_open. destruct (fi_state f); try done; naive_solver. Qed.

Section Steps.
Context `{Unicode} `{ConnectLib}.
Implicit Types s : connect_store.

(** ** Row steps *)

(** A job is created for an invocation that no active job has. *)
Record creates (job_id : text) (j : ConnectJob) (s : connect_store) : Prop := {
  cr_fresh : s.(cs_jobs) !! job_id = None;
  cr_row : job_row_ok j = true;
  cr_status : j.(jb_status) = Requested;
  cr_invocation : let r := j.(jb_request) in r.(jr_v2) = true →
    same_invocation r.(jr_message_id) r.(jr_part_id) r.(jr_invocation_fingerprint) s = [] }.

Definition first_dispatch (d : dispatch_row) : Prop :=
  d.(ds_state) = Waiting ∧ d.(ds_submission_possible) = false ∧ d.(ds_highest) = PRequested ∧
  d.(ds_attempt_count) = 0.

(** The job of an attempt is bound at most once. *)
Record attempt_bound (a a' : AutomationFireAttempt) : Prop := {
  ab_request : a'.(at_dispatch_request_id) = a.(at_dispatch_request_id);
  ab_created : a'.(at_created_at) = a.(at_created_at);
  ab_job : ∀ job_id, a.(at_job_id) = Some job_id → a'.(at_job_id) = Some job_id }.

(** The rows a certificate keys its policies by: one per ordinal, with the projected columns. *)
Definition policies_match (id : text) (rows : list child_columns) (policies : gmap text PolicyRow) : Prop :=
  (∀ k p, policies !! k = Some p → p.(pl_certificate_id) = id →
     ∃ i : nat, p.(pl_ordinal) = Z.of_nat i ∧ rows !! i = Some p.(pl_columns)) ∧
  (∀ (i : nat) e, rows !! i = Some e → ∃ k p, policies !! k = Some p ∧ p.(pl_certificate_id) = id ∧
     p.(pl_ordinal) = Z.of_nat i ∧ p.(pl_columns) = e).

Definition ordinals_unique (policies : gmap text PolicyRow) : Prop :=
  ∀ k k' p p', policies !! k = Some p → policies !! k' = Some p' →
    p.(pl_certificate_id) = p'.(pl_certificate_id) → p.(pl_ordinal) = p'.(pl_ordinal) → k = k'.

(** The row of a validated certificate. *)
Record certifies (c : CertificateRow) (v : ValidatedCertificate) : Prop := {
  cf_validated : ∃ payload sha size name, _validate_certificate_record payload sha size name = Some v;
  cf_sha256 : c.(cr_result_sha256) = v.(va_sha256);
  cf_canonical : c.(cr_canonical_json) = v.(va_canonical_json);
  cf_columns : _certificate_parent_projection v.(va_record) = Some c.(cr_columns) }.

Definition same_evidence (c c' : CertificateRow) : Prop :=
  c.(cr_scope) = c'.(cr_scope) ∧ c.(cr_message_id) = c'.(cr_message_id) ∧ c.(cr_part_id) = c'.(cr_part_id) ∧
  c.(cr_job_id) = c'.(cr_job_id).

(** A new certificate, with all its policies. *)
Record certificate_new s (id : text) (c : CertificateRow) (policies : gmap text PolicyRow) : Prop := {
  cn_fresh : s.(cs_certificates) !! id = None;
  cn_unique : ∀ k x, s.(cs_certificates) !! k = Some x → ¬ same_evidence c x;
  cn_row : certificate_row_ok id c = true;
  cn_unfenced : c.(cr_replay_failure) = None;
  cn_evidence : ∃ v rows, certifies c v ∧ mapM _certificate_child_projection v.(va_record).(ce_policies) = Some rows ∧
    policies_match id rows policies;
  cn_kept : ∀ k p, s.(cs_policies) !! k = Some p → policies !! k = Some p;
  cn_added : ∀ k p, policies !! k = Some p → s.(cs_policies) !! k = Some p ∨ p.(pl_certificate_id) = id;
  cn_ordinals : ordinals_unique s.(cs_policies) → ordinals_unique policies }.

(** Rows that change, or go. *)
(** [cert] is the certificate job whose operation this is, if it is one. *)
Inductive row_keep (cert : option text) s : connect_store → Prop :=
| row_v1 job_id j j' :
    s.(cs_jobs) !! job_id = Some j → j.(jb_request).(jr_v2) = false →
    j'.(jb_request) = j.(jb_request) → (job_row_ok j = true → job_row_ok j' = true) →
    active_status j.(jb_status) = true →
    row_keep cert s (set_jobs (<[job_id := j']> s.(cs_jobs)) s)
| row_job job_id j j' d d' :
    s.(cs_jobs) !! job_id = Some j → s.(cs_dispatch) !! job_id = Some d → job_move j j' d d' →
    row_keep cert s (set_dispatch (<[job_id := d']> s.(cs_dispatch)) (set_jobs (<[job_id := j']> s.(cs_jobs)) s))
| row_dispatches dispatch :
    (∀ k, option_Forall2 (fun d d' => ∀ j, s.(cs_jobs) !! k = Some j → job_move j j d d')
            (s.(cs_dispatch) !! k) (dispatch !! k)) →
    row_keep cert s (set_dispatch dispatch s)
| row_delete job_id sql_now : row_keep cert s (delete_job job_id sql_now s)
| row_fires fires : fires_hop cert s.(cs_jobs) s.(cs_fires) fires → row_keep cert s (set_fires fires s)
| row_bind attempts :
    (∀ k, option_Forall2 attempt_bound (s.(cs_attempts) !! k) (attempts !! k)) →
    row_keep cert s (set_attempts attempts s)
| row_abandon message_id :
    row_keep cert s (abandon message_id s)
| row_sources sources attachments : row_keep cert s (set_sources sources attachments s)
| row_retain identities :
    (∀ k i, s.(cs_identities) !! k = Some i → identities !! k = Some i) →
    (∀ k i, identities !! k = Some i → s.(cs_identities) !! k = Some i ∨
       identity_row_ok k i = true ∧ is_some (s.(cs_fires) !! k) = true) →
    row_keep cert s (set_identities identities s)
| row_certificate id c policies :
    certificate_new s id c policies →
    row_keep cert s (set_policies policies (set_certificates (<[id := c]> s.(cs_certificates)) s))
| row_fence id c failure stamp :
    s.(cs_certificates) !! id = Some c → (c.(cr_replay_failure) = Some CertificateConflict → failure = CertificateConflict) →
    row_keep cert s (set_certificates (<[id := fence_certificate failure stamp c]> s.(cs_certificates)) s).

(** Rows that an operation of their own adds: jobs, fires, second attempts, receipts. *)
Inductive row_new s : connect_store → Prop :=
| row_create_v1 job_id j :
    creates job_id j s → j.(jb_request).(jr_v2) = false →
    row_new s (set_jobs (<[job_id := j]> s.(cs_jobs)) s)
| row_create job_id j d :
    creates job_id j s → j.(jb_request).(jr_v2) = true → s.(cs_dispatch) !! job_id = None →
    first_dispatch d →
    row_new s (set_dispatch (<[job_id := d]> s.(cs_dispatch)) (set_jobs (<[job_id := j]> s.(cs_jobs)) s))
| row_admit fire_id request_id source scope :
    s.(cs_fires) !! fire_id = None → s.(cs_attempts) !! (fire_id, 1) = None →
    request_id_used request_id s = false →
    row_new s (set_attempts (<[(fire_id, 1) := mk_attempt request_id None source.(fs_created_at)]> s.(cs_attempts))
      (set_identities (<[fire_id := (scope, source.(fs_message_id), source.(fs_part_id))]> s.(cs_identities))
         (set_fires (<[fire_id := new_fire source]> s.(cs_fires)) s)))
| row_retry fire_id f f' request_id stamp :
    s.(cs_fires) !! fire_id = Some f → fire_retry f f' →
    is_some (automation_fire_retry_kind fire_id s) = true →
    s.(cs_attempts) !! (fire_id, 2) = None → request_id_used request_id s = false →
    row_new s (set_confirmations (delete fire_id s.(cs_confirmations))
      (set_fires (<[fire_id := f']> s.(cs_fires))
         (set_attempts (<[(fire_id, 2) := mk_attempt request_id None stamp]> s.(cs_attempts)) s)))
| row_confirm fire_id f f' h stamp :
    s.(cs_fires) !! fire_id = Some f → f.(fi_state) = AwaitingConfirmation →
    fst <$> f.(fi_prepared) = Some h → s.(cs_confirmations) !! fire_id = None →
    fire_hop f f' →
    row_new s (set_fires (<[fire_id := f']> s.(cs_fires))
      (set_confirmations (<[fire_id := (h, stamp)]> s.(cs_confirmations)) s)).

(** The jobs stay, and the other tables are untouched. *)
Record jobs_kept s s' : Prop := {
  jk_jobs : ∀ id, is_some (s'.(cs_jobs) !! id) = is_some (s.(cs_jobs) !! id);
  jk_fires : s'.(cs_fires) = s.(cs_fires);
  jk_attempts : s'.(cs_attempts) = s.(cs_attempts);
  jk_confirmations : s'.(cs_confirmations) = s.(cs_confirmations);
  jk_identities : s'.(cs_identities) = s.(cs_identities);
  jk_certificates : s'.(cs_certificates) = s.(cs_certificates);
  jk_policies : s'.(cs_policies) = s.(cs_policies) }.

(** A transaction changes rows, or changes jobs without removing any and adds a row. *)
Definition row_transaction (cert : option text) s s' : Prop :=
  rtc (row_keep cert) s s' ∨ ∃ s1, rtc (row_keep cert) s s1 ∧ jobs_kept s s1 ∧ row_new s1 s'.

(** ** Operations *)

Inductive queue_step s : connect_store → Prop :=
| step_create n now r s' : create_connect_job n now s = Ret (r, s') → queue_step s s'
| step_heads now limit r s' : due_connect_lane_heads now limit s = Ret (r, s') → queue_step s s'
| step_expire now : queue_step s (expire_waiting_connect_jobs now s).2
| step_claim app instance expected now r s' :
    claim_connect_lane_head app instance expected now s = Ret (r, s') → queue_step s s'
| step_defer job_id expected next code message delay pause linked now r s' :
    defer_connect_job job_id expected next code message delay pause linked now s = Ret (r, s') →
    queue_step s s'
| step_transition job_id expected next app instance result error now sql_now uuids r s' :
    transition_connect_job job_id expected next app instance result error now sql_now uuids s = Ret (r, s') →
    queue_step s s'
| step_replay job_id app instance result now sql_now r s' :
    reconcile_certificate_completed_replay job_id app instance result now sql_now s = Ret (r, s') → queue_step s s'
| step_join job_id now sql_now uuids r s' :
    reconcile_certificate_completed_join job_id now sql_now uuids s = Ret (r, s') → queue_step s s'
| step_reset job_id expected app instance now r s' :
    reset_connect_job_for_resubmission job_id expected app instance now s = Ret (r, s') → queue_step s s'
| step_fire fire_id expected version next reason job_id identity confirmed now sql_now r s' :
    transition_automation_fire fire_id expected version next reason job_id identity confirmed now sql_now s
      = Ret (r, s') → queue_step s s'
| step_decide fire_id version h confirmed now r s' :
    decide_automation_fire fire_id version h confirmed now s = Ret (r, s') → queue_step s s'
| step_touch fire_id expected version now r s' :
    touch_automation_fire fire_id expected version now s = Ret (r, s') → queue_step s s'
| step_pause job_id now r s' :
    pause_interactive_job_automation_fires job_id now s = Ret (r, s') → queue_step s s'
| step_authorize job_id now r s' :
    authorize_connect_job_interactively job_id now s = Ret (r, s') → queue_step s s'
| step_resume fire_id version now r s' :
    resume_automation_fire_job fire_id version now s = Ret (r, s') → queue_step s s'
| step_retry fire_id version request_id now r s' :
    retry_automation_fire_after_failure fire_id version request_id now s = Ret (r, s') → queue_step s s'
| step_admit fire_id request_id source scope known s' :
    insert_fire fire_id request_id source scope known s = Ret s' → queue_step s s'
| step_unavailable message_id sql_now sql_now_utc :
    queue_step s (connect_source_unavailable message_id sql_now sql_now_utc s)
| step_delete message_id sql_now sql_now_utc :
    queue_step s (messages_delete message_id sql_now sql_now_utc s)
(** the other writers of the message and removal tables *)
| step_sources sources attachments : queue_step s (set_sources sources attachments s).

(** The operations that settle a certificate job: its completion, a replay, a join. *)
Inductive certificate_step (job_id : text) s s' : Prop :=
| certificate_completed j expected app instance result error now sql_now uuids r :
    s.(cs_jobs) !! job_id = Some j → is_certificate j = true →
    transition_connect_job job_id expected Completed app instance result error now sql_now uuids s = Ret (r, s') →
    certificate_step job_id s s'
| certificate_replayed app instance result now sql_now r :
    reconcile_certificate_completed_replay job_id app instance result now sql_now s = Ret (r, s') →
    certificate_step job_id s s'
| certificate_joined now sql_now uuids r :
    reconcile_certificate_completed_join job_id now sql_now uuids s = Ret (r, s') → certificate_step job_id s s'.

End Steps.
