(* ===== verification/CertificateRows.v ===== *)
(** * Row steps of the certificates

    What the recording of a certificate does to the rows of the store. *)

From S2P Require Export ConnectSteps GmailCodec.
From stdpp Require Import options.

Local Open Scope Z_scope.

Section CertificateRows.
Context `{Unicode} `{ConnectLib} {cert : option text}.
Implicit Types s : connect_store.

(** The tables of jobs and fires are the same. *)
Record same_queue s s' : Prop := {
  sq_jobs : s'.(cs_jobs) = s.(cs_jobs);
  sq_dispatch : s'.(cs_dispatch) = s.(cs_dispatch);
  sq_fires : s'.(cs_fires) = s.(cs_fires) }.

Lemma same_queue_refl s : same_queue s s.
Proof. done. Qed.

Lemma same_queue_trans s s1 s2 : same_queue s s1 → same_queue s1 s2 → same_queue s s2.
Proof. intros [] []. split; congruence. Qed.

(** ** Retained sources *)

Lemma foldr_insert_lookup {A} (x : A) (m : gmap text A) ks k :
  foldr (fun k => <[k := x]>) m ks !! k = if decide (k ∈ ks) then Some x else m !! k.
Proof.
  induction ks as [|k' ks IH]; cbn [foldr].
  - by rewrite decide_False by apply not_elem_of_nil.
  - destruct (decide (k = k')) as [->|Hne].
    + rewrite lookup_insert_eq, decide_True; [done|]. by left.
    + rewrite lookup_insert_ne, IH by done. apply decide_ext. rewrite elem_of_cons. naive_solver.
Qed.

Lemma linked_fires_some job_id s k f : (k, f) ∈ linked_fires job_id s → s.(cs_fires) !! k = Some f.
Proof. unfold linked_fires. rewrite list_elem_of_In, filter_In, <- list_elem_of_In, elem_of_map_to_list. by intros [? _]. Qed.

Lemma source_for_job_rows job_id j s r s' :
  _certificate_source_for_job job_id j s = (r, s') →
  match r with Raise (CertificateResultInvalid | IntegrityError _) | Ret _ => True | _ => False end ∧
  rtc (row_keep cert) s s' ∧ same_queue s s' ∧ s'.(cs_certificates) = s.(cs_certificates) ∧ s'.(cs_policies) = s.(cs_policies).
Proof.
  unfold _certificate_source_for_job. intros Hop.
  destruct (negb (forallb _ _)); [simplify_eq; split_and!; try done; apply rtc_refl|].
  destruct (bound_source _ _ _) as [source|]; [|simplify_eq; split_and!; try done; apply rtc_refl].
  destruct (negb (retained_message_available _ _ _ _)); [simplify_eq; split_and!; try done; apply rtc_refl|].
  cbv zeta in Hop. set (missing := List.filter _ _) in *.
  destruct (_ && _); [simplify_eq; split_and!; try done; apply rtc_refl|].
  destruct (negb (forallb _ missing)) eqn:Ei; [simplify_eq; split_and!; try done; apply rtc_refl|].
  apply negb_false_iff in Ei. rewrite forallb_forall in Ei.
  assert (s' = retain_source j source missing s ∧
    match r with Raise (CertificateResultInvalid | IntegrityError _) | Ret _ => True | _ => False end) as [-> Hr]
    by (destruct (identity_key_ok _); by simplify_eq).
  split_and!; try done. apply rtc_once, row_retain.
  - intros k i Hk. rewrite foldr_insert_lookup. case_decide as Hm; [|done].
    unfold missing in Hm. rewrite list_elem_of_In, filter_In in Hm. destruct Hm as [_ Hm]. by rewrite Hk in Hm.
  - intros k i. rewrite foldr_insert_lookup. case_decide as Hm; [|by left]. intros [= <-]. right.
    split; [apply Ei; by apply list_elem_of_In|].
    unfold missing in Hm. rewrite list_elem_of_In, filter_In, <- list_elem_of_In in Hm. destruct Hm as [Hm _].
    apply list_elem_of_fmap in Hm as ([k' f] & -> & Hf). simpl. by rewrite (linked_fires_some _ _ _ _ Hf).
Qed.

(** ** Policies *)

Lemma policy_rows_elem id s k p :
  (k, p) ∈ policy_rows id s ↔ s.(cs_policies) !! k = Some p ∧ p.(pl_certificate_id) = id.
Proof.
  unfold policy_rows. rewrite (sort_by_perm ordinal_leb), list_elem_of_In, filter_In, <- list_elem_of_In.
  rewrite elem_of_map_to_list, bool_decide_eq_true. done.
Qed.

(** A projection that is found consistent is complete, with one row per policy. *)
Lemma assert_match id parent c s u : _certificate_assert_projection id parent c s = Ret u →
  _certificate_parent_projection c = Some parent.(cr_columns) ∧
  ∃ rows, mapM _certificate_child_projection c.(ce_policies) = Some rows ∧ policies_match id rows s.(cs_policies).
Proof.
  unfold _certificate_assert_projection. intros Hop.
  apply bind_ret_inv in Hop as (expected & He%require_some_ret_inv & Hop).
  apply bind_ret_inv in Hop as (? & Hp%require_ret_inv & Hop). bools. subst expected.
  apply bind_ret_inv in Hop as (rows & Hr%require_some_ret_inv & Hop). cbv zeta in Hop.
  apply bind_ret_inv in Hop as (? & _ & Hop). apply require_ret_inv in Hop. bools.
  split; [done|]. exists rows. split; [done|]. split.
  - intros k p Hk Hid. assert ((k, p) ∈ policy_rows id s) as Hin by (by apply policy_rows_elem).
    assert ((p.(pl_ordinal), p.(pl_columns)) ∈ imap (fun ordinal e => (Z.of_nat ordinal, e)) rows) as Hm.
    { rewrite <- Hop. apply list_elem_of_fmap. exists p. split; [done|]. apply list_elem_of_fmap. by exists (k, p). }
    apply list_elem_of_lookup_1 in Hm as [i Hi]. rewrite list_lookup_imap in Hi.
    destruct (rows !! i) as [e|] eqn:E; simpl in Hi; [|done]. injection Hi as <- <-. eauto.
  - intros i e Hi. assert ((Z.of_nat i, e) ∈ imap (fun ordinal e => (Z.of_nat ordinal, e)) rows) as Hm.
    { apply (list_elem_of_lookup_2 _ i). by rewrite list_lookup_imap, Hi. }
    rewrite <- Hop in Hm. apply list_elem_of_fmap in Hm as (p & [= -> ->] & Hm).
    apply list_elem_of_fmap in Hm as ([k q] & -> & Hm). apply policy_rows_elem in Hm as [Hk Hid]. eauto 10.
Qed.

Lemma insert_policy_unique k p s :
  negb (existsb (fun e => bool_decide (e.2.(pl_certificate_id) = p.(pl_certificate_id)) &&
                          (e.2.(pl_ordinal) =? p.(pl_ordinal))) (map_to_list s.(cs_policies))) = true →
  ordinals_unique s.(cs_policies) → ordinals_unique (<[k := p]> s.(cs_policies)).
Proof.
  intros Hn%negb_true_iff Hu. rewrite existsb_false in Hn.
  assert (∀ i x, s.(cs_policies) !! i = Some x → x.(pl_certificate_id) = p.(pl_certificate_id) →
    x.(pl_ordinal) = p.(pl_ordinal) → False) as Hx.
  { intros i x Hi Hc Ho. specialize (Hn (i, x)). rewrite elem_of_map_to_list in Hn. specialize (Hn Hi). simpl in Hn.
    rewrite bool_decide_eq_true_2, Ho, Z.eqb_refl in Hn by done. done. }
  intros i i' x x'. rewrite !lookup_insert_Some.
  intros [[-> <-]|[? Hi]] [[-> <-]|[? Hi']] Hc Ho; [done|by destruct (Hx _ _ Hi')|by destruct (Hx _ _ Hi)|by eapply Hu].
Qed.

Lemma insert_policies_rows id stamp uuids n ps s s' : insert_policies id stamp uuids n ps s = Ret s' →
  s' = set_policies s'.(cs_policies) s ∧
  (∀ k p, s.(cs_policies) !! k = Some p → s'.(cs_policies) !! k = Some p) ∧
  (∀ k p, s'.(cs_policies) !! k = Some p → s.(cs_policies) !! k = Some p ∨ p.(pl_certificate_id) = id) ∧
  (ordinals_unique s.(cs_policies) → ordinals_unique s'.(cs_policies)).
Proof.
  revert n s. induction ps as [|p ps IH]; intros n s Hop; cbn [insert_policies] in Hop.
  { injection Hop as ->. split_and!; try done; [by destruct s'|by left]. }
  apply bind_ret_inv in Hop as (row & _ & Hop). apply bind_ret_inv in Hop as (s1 & Hs1 & Hop).
  unfold insert_policy in Hs1. apply bind_ret_inv in Hs1 as (? & Hr%require_ret_inv & Hs1). injection Hs1 as <-.
  apply andb_prop in Hr as [Hr Hun]. apply andb_prop in Hr as [Hf _]. apply IH in Hop as (E & Hk & Ha & Hu). simpl in *.
  split_and!.
  - by rewrite E at 1.
  - intros k q Hx. apply Hk. rewrite lookup_insert_ne; [done|]. intros <-. by rewrite Hx in Hf.
  - intros k q Hx. apply Ha in Hx as [Hx|]; [|by right]. apply lookup_insert_Some in Hx as [[_ <-]|[_ Hx]]; [by right|by left].
  - intros Hs. apply Hu. by apply insert_policy_unique.
Qed.

(** ** Recording *)

Lemma existing_none source job_id j s k c : existing_certificate source job_id j s = None →
  s.(cs_certificates) !! k = Some c → of_source source job_id j c = false.
Proof.
  unfold existing_certificate. intros Hn Hk. apply (find_none _ _ Hn (k, c)).
  by apply list_elem_of_In, elem_of_map_to_list.
Qed.

Lemma existing_some source job_id j s k c : existing_certificate source job_id j s = Some (k, c) →
  s.(cs_certificates) !! k = Some c ∧ of_source source job_id j c = true.
Proof.
  unfold existing_certificate. intros [Hin Hs]%find_some. split; [|done].
  by apply elem_of_map_to_list, list_elem_of_In.
Qed.

Lemma insert_certificate_rows job_id j source v stamp uuids s id s' :
  insert_certificate job_id j source v stamp uuids s = Ret (id, s') →
  (∃ payload sha size name, _validate_certificate_record payload sha size name = Some v) →
  existing_certificate source job_id j s = None →
  row_keep cert s s' ∧ same_queue s s'.
Proof.
  unfold insert_certificate. intros Hop Hv Hn. cbv zeta in Hop.
  apply bind_ret_inv in Hop as (parent & Hp%require_some_ret_inv & Hop).
  apply bind_ret_inv in Hop as (? & Hr%require_ret_inv & Hop). apply andb_prop in Hr as [Hf Hrow].
  apply bind_ret_inv in Hop as (s1 & Hs1 & Hop). apply bind_ret_inv in Hop as (? & Ha & Hop).
  injection Hop as <- <-. apply assert_match in Ha as (Hc & rows & Hrows & Hm).
  apply insert_policies_rows in Hs1 as (-> & Hk & Hadd & Hu). simpl in *. split; [|done].
  apply (row_certificate cert s). split; simpl; try done.
  - by destruct (cs_certificates s !! _).
  - intros k q Hx (E1 & E2 & E3 & E4). simpl in *. pose proof (existing_none _ _ _ _ _ _ Hn Hx) as Hof.
    unfold of_source in Hof. by rewrite !bool_decide_eq_true_2 in Hof by done.
  - exists v, rows. split_and!; [|done..]. by split.
Qed.

Lemma persist_rows job_id j v stamp uuids s r s' :
  _persist_certificate_projection job_id j v stamp uuids s = (r, s') →
  (∃ payload sha size name, _validate_certificate_record payload sha size name = Some v) →
  rtc (row_keep cert) s s' ∧ same_queue s s'.
Proof.
  unfold _persist_certificate_projection. intros Hop Hv.
  destruct (_certificate_source_for_job job_id j s) as [source s1] eqn:Es.
  apply source_for_job_rows in Es as (_ & Hrows & Hq & _ & _).
  destruct source as [[source|]|e]; [|by simplify_eq..].
  destruct (existing_certificate source job_id j s1) as [[id row]|] eqn:Ee; [by simplify_eq|].
  destruct (insert_certificate _ _ _ _ _ _ _) as [[id s2]|e] eqn:Ei; [|by simplify_eq].
  injection Hop as <- <-. apply insert_certificate_rows in Ei as [Hk Hq2]; [|done..].
  split; [by eapply rtc_r | by eapply same_queue_trans].
Qed.

Lemma certificate_of_outputs_validated j outputs v : certificate_of_outputs j outputs = Ret v →
  ∃ payload sha size name, _validate_certificate_record payload sha size name = Some v.
Proof.
  unfold certificate_of_outputs. destruct outputs as [|o []]; try done. intros Hop.
  apply bind_ret_inv in Hop as (? & _ & Hop). apply require_some_ret_inv in Hop. eauto.
Qed.

Lemma certify_rows job_id j next result stamp uuids s o s' :
  certify job_id j next result stamp uuids s = Ret (o, s') → rtc (row_keep cert) s s' ∧ same_queue s s'.
Proof.
  assert (rtc (row_keep cert) s s ∧ same_queue s s) as Hrefl by (split; [apply rtc_refl|done]).
  unfold certify. intros Hop. destruct next, result as [[]|]; try (by simplify_eq).
  destruct (negb (is_certificate j)); [by simplify_eq|].
  destruct (_ ← require _ _; outputs ← _; _) as [v|e] eqn:Ev; [|by peel; simplify_eq].
  apply bind_ret_inv in Ev as (? & _ & Ev). apply bind_ret_inv in Ev as (outputs & _ & Ev).
  destruct (_persist_certificate_projection _ _ _ _ _ _) as [recorded s1] eqn:Ep.
  apply bind_ret_inv in Hop as (outcome & _ & Hop). simplify_eq.
  eapply persist_rows; [exact Ep | by eapply certificate_of_outputs_validated].
Qed.

Lemma join_rows job_id j stamp uuids s r s' :
  join_records job_id j stamp uuids s = (r, s') → rtc (row_keep cert) s s' ∧ same_queue s s'.
Proof.
  unfold join_records. intros Hop.
  destruct (_certificate_source_for_job job_id j s) as [source s1] eqn:Es.
  apply source_for_job_rows in Es as (_ & Hrows & Hq & _ & _). destruct source; [|by simplify_eq].
  destruct (_ ← require _ _; raw ← _; _) as [v|e] eqn:Ev; [|by simplify_eq].
  apply bind_ret_inv in Ev as (? & _ & Ev). apply bind_ret_inv in Ev as (raw & _ & Ev).
  apply bind_ret_inv in Ev as (outputs & _ & Ev).
  destruct (_persist_certificate_projection _ _ _ _ _ _) as [recorded s2] eqn:Ep. injection Hop as <- <-.
  apply persist_rows in Ep as [Hr2 Hq2]; [|by eapply certificate_of_outputs_validated].
  split; [by etrans | by eapply same_queue_trans].
Qed.

(** ** Everything of a validated record can be encoded *)

(** [a] is [j] or occurs in it. *)
Inductive part (a : json) : json → Prop :=
| part_self : part a a
| part_member k v m : (k, v) ∈ m → part a v → part a (JObj m)
| part_item v l : v ∈ l → part a v → part a (JArr l).

Lemma join_elem (sep : text) l t c : t ∈ l → c ∈ t → c ∈ join sep l.
Proof.
  induction l as [|x l IH]; intros Ht Hc; [by apply not_elem_of_nil in Ht|].
  apply elem_of_cons in Ht as [->|Ht]; destruct l as [|y l]; simpl; try done.
  - apply elem_of_app. by left.
  - by apply not_elem_of_nil in Ht.
  - rewrite !elem_of_app. right. right. by apply IH.
Qed.

Lemma part_chars a j c : part a j → c ∈ dumps true a → c ∈ dumps true j.
Proof.
  intros Hp. induction Hp as [|k v m Hm _ IH|v l Hl _ IH]; intros Hc; [done| |]; apply IH in Hc;
    unfold dumps; simpl; rewrite elem_of_cons, elem_of_app; right; left.
  - apply (join_elem _ _ (quoted false k ++ [58] ++ dumps true v)%N%list).
    + apply list_elem_of_fmap. exists (k, dumps true v). split; [done|]. rewrite sort_members_perm.
      apply list_elem_of_fmap. by exists (k, v).
    + rewrite !elem_of_app. by right; right.
  - eapply join_elem; [|exact Hc]. apply list_elem_of_fmap. by exists v.
Qed.

Lemma encode_chars t t' b : (∀ c, c ∈ t → c ∈ t') → Utf8.encode t' = Some b → is_some (Utf8.encode t) = true.
Proof.
  intros Hsub Ht'. assert (Hall : ∀ c, c ∈ t' → is_some (Utf8.encode_char c) = true).
  { clear Hsub. revert b Ht'. induction t' as [|x t' IH]; intros b Ht' c Hc; [by apply not_elem_of_nil in Hc|].
    simpl in Ht'. destruct (Utf8.encode_char x) eqn:Ex; [|done]. destruct (Utf8.encode t'); [|done].
    apply elem_of_cons in Hc as [->|Hc]; [by rewrite Ex | by eapply IH]. }
  induction t as [|x t IH]; [done|]. simpl.
  pose proof (Hall x (Hsub x ltac:(by left))) as Hx. destruct (Utf8.encode_char x); [|done].
  destruct (Utf8.encode t); [done|]. apply IH. intros c Hc. apply Hsub. by right.
Qed.

Lemma part_encodes a j b : part a j → _certificate_canonical_json j = Some b →
  ∃ b', _certificate_canonical_json a = Some b'.
Proof.
  intros Hp Hj. assert (Hs : is_some (_certificate_canonical_json a) = true).
  { eapply encode_chars; [|exact Hj]. intros c. by apply part_chars. }
  destruct (_certificate_canonical_json a); [eauto|done].
Qed.

Lemma part_trans a b j : part a b → part b j → part a j.
Proof. intros Ha. induction 1; [done|by eapply part_member|by eapply part_item]. Qed.

Lemma party_projects v j b : part (json_of_option text_value_json v) j → _certificate_canonical_json j = Some b →
  ∃ c, _certificate_party_projection v = Some c.
Proof.
  intros Hp Hj. destruct v as [t|]; simpl; [|eauto].
  destruct (part_encodes (provenance_json t.(tv_provenance)) j b) as [p ->]; [|done|eauto].
  eapply part_trans; [|exact Hp]. eapply (part_member _ (str "provenance")); [|constructor]. set_solver.
Qed.

Lemma date_projects v j b : part (json_of_option date_value_json v) j → _certificate_canonical_json j = Some b →
  ∃ c, _certificate_date_projection v = Some c.
Proof.
  intros Hp Hj. destruct v as [d|]; simpl; [|eauto].
  destruct (part_encodes (strings_json d.(dv_candidates)) j b) as [c ->]; [|done|].
  { eapply part_trans; [|exact Hp]. eapply (part_member _ (str "candidates")); [|constructor]. set_solver. }
  destruct (part_encodes (provenance_json d.(dv_provenance)) j b) as [p ->]; [|done|eauto].
  eapply part_trans; [|exact Hp]. eapply (part_member _ (str "provenance")); [|constructor]. set_solver.
Qed.

Ltac member k := eapply (part_member _ (str k)); [repeat first [apply list_elem_of_here | apply list_elem_of_further]|].

Lemma child_projects p j b : part (policy_json p) j → _certificate_canonical_json j = Some b →
  ∃ c, _certificate_child_projection p = Some c.
Proof.
  intros Hp Hj. assert (Hin : ∀ a, part a (policy_json p) → part a j) by (intros; by eapply part_trans).
  unfold _certificate_child_projection.
  destruct (party_projects p.(po_coverage) j b) as [? ->]; [apply Hin; member "coverage"; constructor|done|].
  destruct (party_projects p.(po_insurer) j b) as [? ->]; [apply Hin; member "insurer"; constructor|done|].
  destruct (party_projects p.(po_policy_number) j b) as [? ->]; [apply Hin; member "policy_number"; constructor|done|].
  destruct (date_projects p.(po_effective_date) j b) as [? ->]; [apply Hin; member "effective_date"; constructor|done|].
  destruct (date_projects p.(po_expiration_date) j b) as [? ->]; [apply Hin; member "expiration_date"; constructor|done|].
  destruct (part_encodes (strings_json p.(po_review_reasons)) j b) as [? ->];
    [apply Hin; member "review_reasons"; constructor|done|]. by eexists.
Qed.

Lemma parent_projects c b : _certificate_canonical_json (record_json c) = Some b →
  ∃ row, _certificate_parent_projection c = Some row.
Proof.
  intros Hj. unfold _certificate_parent_projection.
  destruct (party_projects c.(ce_holder) (record_json c) b) as [? ->]; [member "certificate_holder"; constructor|done|].
  destruct (party_projects c.(ce_insured) (record_json c) b) as [? ->]; [member "insured"; constructor|done|].
  destruct (party_projects c.(ce_producer) (record_json c) b) as [? ->]; [member "producer"; constructor|done|].
  destruct (part_encodes (strings_json c.(ce_reasons)) (record_json c) b) as [? ->];
    [member "review"; member "reasons"; constructor|done|]. by eexists.
Qed.

(** A record with canonical bytes has all its columns. *)
Lemma record_projects c b : _certificate_canonical_json (record_json c) = Some b →
  (∃ row, _certificate_parent_projection c = Some row) ∧
  ∀ p, p ∈ c.(ce_policies) → ∃ row, _certificate_child_projection p = Some row.
Proof.
  intros Hj. split; [by eapply parent_projects|]. intros p Hp. eapply child_projects; [|exact Hj].
  member "policies". eapply part_item; [|constructor]. apply list_elem_of_fmap. eauto.
Qed.

(** An exception the callers of the recording catch. *)
Definition caught (e : exn) : bool :=
  match e with CertificateResultInvalid | CertificateResultConflict => true | _ => false end.

Lemma insert_policies_uncaught id stamp uuids n ps s e :
  (∀ p, p ∈ ps → ∃ row, _certificate_child_projection p = Some row) →
  insert_policies id stamp uuids n ps s = Raise e → caught e = false.
Proof.
  revert n s. induction ps as [|p ps IH]; intros n s Hall; simpl; [done|].
  destruct (Hall p ltac:(by left)) as [row ->]. simpl. unfold insert_policy.
  destruct (_ && _); simpl; [|by intros [= <-]]. apply IH. intros q Hq. apply Hall. by right.
Qed.

Lemma mapM_total {A B} (f : A → option B) l : (∀ x, x ∈ l → ∃ y, f x = Some y) → ∃ r, mapM f l = Some r.
Proof.
  induction l as [|x l IH]; intros Hall; [by eexists|]. destruct (Hall x ltac:(by left)) as [y Hy].
  destruct IH as [r Hr]; [intros z Hz; apply Hall; by right|]. exists (y :: r). cbn. rewrite Hy. cbn. by setoid_rewrite Hr.
Qed.

Lemma require_uncaught b t e : require b (RuntimeError t) = Raise e → caught e = false.
Proof. destruct b; simpl; [done|]. by intros [= <-]. Qed.

Lemma assert_uncaught id row c s e :
  (∃ row, _certificate_parent_projection c = Some row) →
  (∀ p, p ∈ c.(ce_policies) → ∃ row, _certificate_child_projection p = Some row) →
  _certificate_assert_projection id row c s = Raise e → caught e = false.
Proof.
  intros [parent Hp] [rows Hr]%mapM_total. unfold _certificate_assert_projection. rewrite Hp, Hr. simpl.
  intros Ha. do 2 (apply bind_raise_inv in Ha as [Ha|(? & _ & Ha)]; [by eapply require_uncaught|]).
  by eapply require_uncaught.
Qed.

(** Recording a certificate never stops half-way with an exception that is caught: what the
    recording has written when it fails is rolled back. *)
Lemma insert_certificate_uncaught job_id j source v stamp uuids s e :
  _certificate_canonical_json (record_json v.(va_record)) = Some v.(va_canonical_json) →
  insert_certificate job_id j source v stamp uuids s = Raise e → caught e = false.
Proof.
  intros [Hparent Hall]%record_projects. unfold insert_certificate. cbv zeta.
  pose proof Hparent as [row Hrow]. rewrite Hrow. simpl. destruct (_ && _); simpl; [|by intros [= <-]].
  destruct (insert_policies _ _ _ _ _ _) as [s1|e1] eqn:Ei; simpl.
  - destruct (_certificate_assert_projection _ _ _ _) eqn:Ea; simpl; [done|]. intros [= <-].
    eapply assert_uncaught in Ea; eauto.
  - intros [= <-]. by eapply insert_policies_uncaught.
Qed.
End CertificateRows.
