(* ===== verification/ConnectRows.v ===== *)
(** * Every transaction of the queue is a sequence of row steps *)

From S2P Require Export CertificateRows.
From stdpp Require Import options.

Local Open Scope Z_scope.

(** Guards of a stage, as propositions. *)
Ltac stage_solve :=
  rewrite ?andb_true_iff, ?negb_true_iff, ?bool_decide_eq_true, ?bool_decide_eq_false;
  intros; destruct_and?;
  repeat match goal with H : jb_status _ = _ |- _ => rewrite H in *; clear H end;
  split_and?; (done || congruence || naive_solver).

(** [UPDATE ... WHERE key = ?] of a row that exists. *)
Lemma alter_insert_eq {A} (f : A → A) (m : gmap text A) k x : m !! k = Some x → alter f k m = <[k := f x]> m.
Proof.
  intros Hk. apply map_eq. intros i. destruct (decide (i = k)) as [->|].
  - by rewrite lookup_alter_eq, lookup_insert_eq, Hk.
  - by rewrite lookup_alter_ne, lookup_insert_ne.
Qed.

(** ** Jobs *)

(** A move that keeps the job and its stage. *)
Lemma dispatch_stays j d d' :
  d'.(ds_authority) = d.(ds_authority) →
  (is_some d.(ds_interactive_at) = true → d'.(ds_interactive_at) = d.(ds_interactive_at)) →
  d'.(ds_attempt_count) = d.(ds_attempt_count) →
  d'.(ds_highest) = d.(ds_highest) → d'.(ds_state) = d.(ds_state) →
  d'.(ds_submission_possible) = d.(ds_submission_possible) → job_move j j d d'.
Proof.
  intros Ha Hi Hn Hh Hs Hp. split; try done; try lia; [rewrite Hh; lia|].
  intros Hok. unfold stage_ok in *. by rewrite Hs, Hp, Hh.
Qed.

Lemma job_row_expired j stamp :
  j.(jb_status) = Requested → job_row_ok j = true → job_row_ok (with_status Failed deadline_error stamp j) = true.
Proof.
  unfold job_row_ok. intros ->. simpl. rewrite !andb_true_iff. intros H; destruct_and?.
  rewrite ?andb_true_iff; split_and!; done.
Qed.

Lemma expire_move j d stamp :
  j.(jb_status) = Requested → d.(ds_state) = Waiting → d.(ds_submission_possible) = false →
  job_move j (with_status Failed deadline_error stamp j) d
    (with_state Terminal None d.(ds_submission_possible) stamp d).
Proof.
  intros Hj Hd Hp. split; simpl; try done; try lia.
  - by apply job_row_expired.
  - by rewrite Hj.
  - rewrite Hj. simpl. lia.
Qed.

Lemma claim_move j d stamp : active_status j.(jb_status) = true → job_move j j d (claimed stamp d).
Proof.
  intros Ha. split; try done; simpl; try lia; [case_bool_decide; lia|].
  unfold stage_ok, claimed. simpl. destruct (ds_state d); simpl; stage_solve.
Qed.

(** A deferral to one of the states the guards of [defer_connect_job] leave. *)
Lemma defer_move j d d' next :
  active_status j.(jb_status) = true → in_flight d.(ds_state) = true →
  match next with Waiting | Reconciling | ProviderOwned => True | _ => False end →
  (next = Waiting → j.(jb_status) = Requested ∧ d.(ds_highest) = PRequested) →
  (next = ProviderOwned → j.(jb_status) ≠ Requested) →
  d'.(ds_state) = next → d'.(ds_submission_possible) = negb (bool_decide (next = Waiting)) →
  d'.(ds_authority) = d.(ds_authority) → d'.(ds_interactive_at) = d.(ds_interactive_at) →
  d'.(ds_attempt_count) = d.(ds_attempt_count) → d'.(ds_highest) = d.(ds_highest) → job_move j j d d'.
Proof.
  intros Ha Hf Hn Hw Ho Hs Hp Hau Hi Hat Hh. split; try done; try lia; [rewrite Hh; lia|].
  unfold stage_ok. rewrite Hs, Hp, Hh.
  destruct (ds_state d), next; try done; simpl; stage_solve.
Qed.

Lemma reset_row j stamp :
  job_row_ok j = true →
  job_row_ok (mk_job j.(jb_request) j.(jb_provider_app_id) j.(jb_provider_instance_id) Requested no_output
                None None no_error stamp) = true.
Proof. unfold job_row_ok. simpl. rewrite !andb_true_iff. intros; destruct_and?. by split_and!. Qed.

(** A job is reset only when the provider never accepted it. *)
Lemma reset_move j d stamp :
  active_status j.(jb_status) = true → d.(ds_highest) = PRequested →
  match d.(ds_state) with Waiting | Dispatching | Reconciling => true | _ => false end = true →
  job_move j (mk_job j.(jb_request) j.(jb_provider_app_id) j.(jb_provider_instance_id) Requested no_output
                None None no_error stamp) d (with_state Waiting None false stamp d).
Proof.
  intros Ha Hh Hs. split; simpl; try done; try lia.
  - apply reset_row.
  - unfold stage_ok. rewrite Hh. destruct (ds_state d); try done; destruct (jb_status j); simpl; rewrite ?andb_false_r; (done || lia).
  - intros _. unfold stage_ok. simpl. by rewrite Hh.
Qed.

Lemma transition_allowed_inv a b :
  transition_allowed a b = true →
  active_status a = true ∧ status_rank a < status_rank b ∧ b ≠ Requested.
Proof. destruct a, b; simpl; try done; lia || (split_and!; done || lia). Qed.

Lemma advance_move j j' d stamp :
  transition_allowed j.(jb_status) j'.(jb_status) = true →
  j'.(jb_request) = j.(jb_request) → job_row_ok j' = true →
  (j.(jb_request).(jr_v2) = true →
   j'.(jb_provider_app_id) = j.(jb_provider_app_id) ∧
   j'.(jb_provider_instance_id) = j.(jb_provider_instance_id)) →
  job_move j j' d (advanced_dispatch j'.(jb_status) stamp d).
Proof.
  intros Ht Hr Hok Hp. pose proof (transition_allowed_inv _ _ Ht) as (Ha & Hlt & Hne).
  split; try done; try lia; try (destruct (jb_status j'); simpl; (done || lia)).
  - unfold advanced_dispatch. simpl. destruct (jb_status j'); simpl; destruct (ds_highest d); simpl; lia.
  - unfold stage_ok, advanced_dispatch. simpl.
    destruct (ds_state d), (jb_status j) eqn:E1, (jb_status j') eqn:E2; try done; simpl;
      destruct (ds_highest d); simpl; try done;
      rewrite ?andb_false_r, ?andb_true_r; done.
Qed.

Section Rows.
Context `{Unicode} `{ConnectLib} {cert : option text}.
Implicit Types s : connect_store.

Lemma dispatch_refl j d : job_move j j d d.
Proof. by apply dispatch_stays. Qed.

Lemma row_dispatch s job_id d d' :
  s.(cs_dispatch) !! job_id = Some d →
  (∀ j, s.(cs_jobs) !! job_id = Some j → job_move j j d d') →
  row_keep cert s (set_dispatch (<[job_id := d']> s.(cs_dispatch)) s).
Proof.
  intros Hd Hm. apply row_dispatches. intros k. destruct (decide (k = job_id)) as [->|].
  - rewrite lookup_insert_eq, Hd. by constructor.
  - rewrite lookup_insert_ne by done. destruct (cs_dispatch s !! k); constructor. intros. apply dispatch_refl.
Qed.

Lemma elem_of_joined job_id j d s :
  (job_id, (j, d)) ∈ joined s ↔ s.(cs_jobs) !! job_id = Some j ∧ s.(cs_dispatch) !! job_id = Some d.
Proof.
  unfold joined. rewrite list_elem_of_omap. split.
  - intros ([id j0] & Hin & He). apply elem_of_map_to_list in Hin. simpl in He.
    destruct (cs_dispatch s !! id) eqn:Ed; simpl in He; by simplify_eq.
  - intros [Hj Hd]. exists (job_id, j). split; [by apply elem_of_map_to_list|]. simpl. by rewrite Hd.
Qed.

Lemma joined_keys (l : list (text * ConnectJob)) (m : gmap text dispatch_row) k :
  k ∈ (omap (fun e => d ← m !! e.1; Some (e.1, (e.2, d))) l).*1 → k ∈ l.*1.
Proof.
  rewrite !list_elem_of_fmap. intros (e & -> & He). apply list_elem_of_omap in He as (x & Hx & Hd).
  exists x. split; [|done]. destruct (m !! x.1); simpl in Hd; by simplify_eq.
Qed.

Lemma joined_nodup s : NoDup (joined s).*1.
Proof.
  unfold joined. pose proof (NoDup_fst_map_to_list (cs_jobs s)) as Hn. revert Hn.
  induction (map_to_list (cs_jobs s)) as [|[k j] l IH]; [constructor|].
  rewrite fmap_cons, list.NoDup_cons. simpl. intros [Hk Hl].
  destruct (cs_dispatch s !! k) as [d|]; simpl; [|by apply IH].
  constructor; [|by apply IH]. intros Hin. by apply joined_keys in Hin.
Qed.

Lemma expirable_inv stamp job_id j d :
  expirable stamp (job_id, (j, d)) = true →
  j.(jb_request).(jr_v2) = true ∧ j.(jb_status) = Requested ∧ d.(ds_state) = Waiting ∧
  d.(ds_submission_possible) = false ∧ d.(ds_paused_at) = None ∧ deadline_passed stamp d = true.
Proof.
  unfold expirable. rewrite !andb_true_iff, negb_true_iff, !bool_decide_eq_true.
  intros; destruct_and?. by destruct (ds_paused_at d).
Qed.

(** The expiry of one job. *)
Definition expired_job (stamp : text) (j : ConnectJob) : ConnectJob := with_status Failed deadline_error stamp j.
Definition expired_dispatch (stamp : text) (d : dispatch_row) : dispatch_row :=
  with_state Terminal None d.(ds_submission_possible) stamp d.

Lemma expire_job_eq stamp job_id j d s :
  s.(cs_jobs) !! job_id = Some j → s.(cs_dispatch) !! job_id = Some d →
  expirable stamp (job_id, (j, d)) = true →
  expire_job stamp s job_id =
  set_dispatch (<[job_id := expired_dispatch stamp d]> s.(cs_dispatch))
    (set_jobs (<[job_id := expired_job stamp j]> s.(cs_jobs)) s).
Proof.
  intros Hj Hd (_ & Hs & Hw & Hp & _)%expirable_inv. unfold expire_job.
  rewrite (alter_insert_eq _ _ _ _ Hj). simpl. rewrite (alter_insert_eq _ _ _ _ Hd), Hs, Hw, Hp. unfold expired_job, expired_dispatch. rewrite ?bool_decide_eq_true_2 by done. by rewrite Hp.
Qed.

Lemma expire_job_rows stamp job_id j d s :
  s.(cs_jobs) !! job_id = Some j → s.(cs_dispatch) !! job_id = Some d →
  expirable stamp (job_id, (j, d)) = true → row_keep cert s (expire_job stamp s job_id).
Proof.
  intros Hj Hd He. rewrite (expire_job_eq _ _ _ _ _ Hj Hd He).
  apply (row_job _ _ _ _ _ _ _ Hj Hd). apply expirable_inv in He as (_ & ? & ? & ? & _). by apply expire_move.
Qed.

(** The jobs of a list that are all due to expire. *)
Definition all_expirable (stamp : text) (l : list text) s : Prop :=
  ∀ job_id, job_id ∈ l → ∃ j d, s.(cs_jobs) !! job_id = Some j ∧ s.(cs_dispatch) !! job_id = Some d ∧
    expirable stamp (job_id, (j, d)) = true.

Lemma all_expirable_tail stamp job_id l s :
  NoDup (job_id :: l) → all_expirable stamp (job_id :: l) s → all_expirable stamp l (expire_job stamp s job_id).
Proof.
  intros Hn Ha k Hk. apply list.NoDup_cons in Hn as [Hn _].
  destruct (Ha k) as (j & d & Hj & Hd & He); [by right|].
  exists j, d. unfold expire_job. simpl.
  assert (k ≠ job_id) by (intros ->; done). by rewrite !lookup_alter_ne.
Qed.

Lemma expire_fold_rows stamp l s :
  NoDup l → all_expirable stamp l s → rtc (row_keep cert) s (fold_left (expire_job stamp) l s).
Proof.
  revert s. induction l as [|k l IH]; intros s Hn Ha; [apply rtc_refl|]. simpl.
  destruct (Ha k) as (j & d & Hj & Hd & He); [by left|].
  eapply rtc_l; [by eapply expire_job_rows|].
  apply IH; [by apply list.NoDup_cons in Hn as [_ ?] | by apply all_expirable_tail].
Qed.

Lemma expiring_nodup stamp s :
  NoDup (sort_by deadline_leb (List.filter (expirable stamp) (joined s))).*1.
Proof.
  rewrite sort_by_perm.
  pose proof (joined_nodup s) as Hn. induction (joined s) as [|e l IH]; [done|].
  rewrite fmap_cons, list.NoDup_cons in Hn. destruct Hn as [He Hn]. simpl.
  destruct (expirable stamp e); [|by apply IH]. constructor; [|by apply IH].
  intros Hin. apply He. apply list_elem_of_fmap in Hin as (x & -> & Hin).
  apply elem_of_filter_b in Hin as [Hin _]. by apply list_elem_of_fmap_2.
Qed.

Lemma expiring_all stamp s :
  all_expirable stamp (sort_by deadline_leb (List.filter (expirable stamp) (joined s))).*1 s.
Proof.
  intros k. rewrite sort_by_perm, list_elem_of_fmap. intros ([k' [j d]] & -> & Hin%elem_of_filter_b).
  destruct Hin as [Hin He]. apply elem_of_joined in Hin as [? ?]. by exists j, d.
Qed.

Lemma expire_rows stamp s : rtc (row_keep cert) s (_expire_waiting_connect_jobs_transaction stamp s).2.
Proof. apply expire_fold_rows; [apply expiring_nodup | apply expiring_all]. Qed.

Lemma kept_jobs_refl s : jobs_kept s s.
Proof. by split. Qed.

Lemma expire_kept stamp s : jobs_kept s (_expire_waiting_connect_jobs_transaction stamp s).2.
Proof.
  unfold _expire_waiting_connect_jobs_transaction. simpl. generalize (sort_by deadline_leb
    (List.filter (expirable stamp) (joined s))).*1. intros l. revert s.
  induction l as [|k l IH]; intros s; [apply kept_jobs_refl|]. simpl.
  destruct (IH (expire_job stamp s k)) as [Hj ? ? ? ? ?]. split; try done. intros id. rewrite Hj.
  unfold expire_job. simpl.
  destruct (decide (k = id)) as [->|]; [rewrite lookup_alter_eq; by destruct (cs_jobs s !! id)|].
  by rewrite lookup_alter_ne.
Qed.

(** ** The queue *)

Lemma heads_rows now limit s r s' : due_connect_lane_heads now limit s = Ret (r, s') → rtc (row_keep cert) s s'.
Proof. unfold due_connect_lane_heads. intros Hop. peel. simplify_eq. apply expire_rows. Qed.

Lemma head_elem {A} (l : list A) x : head l = Some x → x ∈ l.
Proof. destruct l; simpl; [done|]. intros [= ->]. by left. Qed.

Lemma lane_elem app instance s job_id j d :
  (job_id, (j, d)) ∈ lane app instance s ↔
  s.(cs_jobs) !! job_id = Some j ∧ s.(cs_dispatch) !! job_id = Some d ∧
  in_lane (job_id, (j, d)) = true ∧ lane_of app instance (job_id, (j, d)) = true.
Proof.
  unfold lane. rewrite sort_by_perm, elem_of_filter_b, elem_of_joined, andb_true_iff. tauto.
Qed.

Lemma in_lane_inv job_id j d :
  in_lane (job_id, (j, d)) = true →
  j.(jb_request).(jr_v2) = true ∧ active_status j.(jb_status) = true ∧ d.(ds_state) ≠ Terminal ∧
  (d.(ds_paused_at) = None ∨ in_flight d.(ds_state) = true).
Proof.
  unfold in_lane. rewrite !andb_true_iff, negb_true_iff, orb_true_iff, bool_decide_eq_false.
  intros; destruct_and?. split_and!; try done. destruct (ds_paused_at d); naive_solver.
Qed.

Lemma claim_rows app instance expected now s r s' :
  claim_connect_lane_head app instance expected now s = Ret (r, s') → rtc (row_keep cert) s s'.
Proof.
  unfold claim_connect_lane_head. intros Hop.
  pose proof (expire_rows (isoformat (utc now)) s) as Hex.
  set (s1 := (_expire_waiting_connect_jobs_transaction (isoformat (utc now)) s).2) in *.
  destruct (head (lane app instance s1)) as [[job_id [j d]]|] eqn:Eh; [|by simplify_eq].
  apply head_elem, lane_elem in Eh as (Hj & Hd & Hl & _).
  repeat (case_match; [by simplify_eq|]). simplify_eq.
  eapply rtc_r; [exact Hex|]. apply (row_dispatch _ _ _ _ Hd). intros j' Hj'. simplify_eq.
  apply in_lane_inv in Hl as (_ & Ha & _). by apply claim_move.
Qed.

Lemma pause_linked_rows job_id stamp s : row_keep cert s (_pause_linked_automation_fires job_id stamp s).2.
Proof.
  apply row_fires. apply fires_hop_fmap. intros k f _. unfold pause_fire.
  case_match; [|apply hop_refl]. bools. apply with_fire_hop; [|done..].
  by match goal with H : fi_state f = _ |- _ => rewrite H end.
Qed.

Lemma defer_rows job_id expected next code message delay pause linked now s r s' :
  defer_connect_job job_id expected next code message delay pause linked now s = Ret (r, s') →
  rtc (row_keep cert) s s'.
Proof.
  unfold defer_connect_job. intros Hop. peel. bools. simplify_eq.
  match goal with |- context [set_dispatch (<[job_id := ?x]> (cs_dispatch s)) s] => set (d' := x) end.
  eapply rtc_l; [eapply (row_dispatch s job_id _ d'); [eassumption|]|].
  { intros j' Hj'. simplify_eq. eapply (defer_move _ _ _ next); simpl; try done.
    - by destruct next.
    - intros ->. match goal with H : bool_decide (Waiting = Waiting) && _ = false |- _ =>
        simpl in H; apply orb_false_elim in H as [? ?]; by bools end.
    - intros ->. match goal with H : bool_decide (ProviderOwned = _) && _ = false |- _ =>
        simpl in H; by apply bool_decide_eq_false_1 in H end.
  }
  destruct linked.
  - eapply rtc_l; [apply pause_linked_rows|]. case_match; [apply expire_rows | apply rtc_refl].
  - case_match; [apply expire_rows | apply rtc_refl].
Qed.

Lemma insert_job_rows job_id j a now stamp s s' :
  insert_job job_id j a now stamp s = Ret s' → j.(jb_status) = Requested →
  (let r := j.(jb_request) in r.(jr_v2) = true →
   same_invocation r.(jr_message_id) r.(jr_part_id) r.(jr_invocation_fingerprint) s = []) →
  row_new s s'.
Proof.
  unfold insert_job. intros Hop Hs Hi.
  apply bind_ret_inv in Hop as (u & Hreq & Hop). apply require_ret_inv in Hreq. bools.
  assert (Hc : creates job_id j s) by (split; try done; by destruct (cs_jobs s !! job_id)).
  peel; bools; simplify_eq.
  - apply row_create; try done. simpl in *. by destruct (cs_dispatch s !! job_id).
  - by apply row_create_v1.
Qed.

Lemma place_rows job_id j a app instance now stamp s r s' :
  place_job job_id j a app instance now stamp s = Ret (r, s') → j.(jb_status) = Requested → row_transaction cert s s'.
Proof.
  unfold place_job. intros Hop Hst.
  set (s1 := if jr_v2 (jb_request j) then _ else s) in *.
  assert (Hex : rtc (row_keep cert) s s1) by (unfold s1; destruct (jr_v2 _); [apply expire_rows | apply rtc_refl]).
  destruct (head _) as [[k e]|] eqn:Eh; peel; simplify_eq; [by left|].
  right. exists s1. split_and!; [done | unfold s1; destruct (jr_v2 _); [apply expire_kept | apply kept_jobs_refl] |].
  eapply insert_job_rows; [done..|].
  cbv zeta. intros Hv. rewrite Hv in Eh.
  pose proof (sort_by_perm job_leb (same_invocation (jr_message_id (jb_request j)) (jr_part_id (jb_request j))
    (jr_invocation_fingerprint (jb_request j)) s1)) as Hp.
  destruct (sort_by _ _); [|done]. by apply Permutation_nil_l in Hp.
Qed.

Lemma create_inv n now s r s' :
  create_connect_job n now s = Ret (r, s') →
  ∃ j a, place_job n.(nj_job_id) j a n.(nj_provider_app_id) n.(nj_provider_instance_id) now
    (isoformat (utc now)) s = Ret (r, s') ∧ j.(jb_status) = Requested ∧
    j.(jb_provider_app_id) = Some n.(nj_provider_app_id) ∧
    j.(jb_provider_instance_id) = Some n.(nj_provider_instance_id).
Proof.
  unfold create_connect_job. intros Hop.
  repeat match type of Hop with
  | place_job _ _ _ _ _ _ _ _ = _ => fail 1
  | _ => first [ apply bind_ret_inv in Hop as (? & ? & Hop) | case_match ]; cbv beta zeta in Hop
  end; by eexists _, _.
Qed.

Lemma create_rows n now s r s' : create_connect_job n now s = Ret (r, s') → row_transaction cert s s'.
Proof. intros (j & a & Hop & Hst & _)%create_inv. by eapply place_rows. Qed.

Lemma reset_rows job_id expected app instance now s r s' :
  reset_connect_job_for_resubmission job_id expected app instance now s = Ret (r, s') → rtc (row_keep cert) s s'.
Proof.
  unfold reset_connect_job_for_resubmission. intros Hop.
  repeat (apply bind_ret_inv in Hop as (? & ? & Hop); cbv beta zeta in Hop).
  repeat match goal with
  | H : require _ _ = Ret _ |- _ => apply require_ret_inv in H
  | H : require_some _ _ = Ret _ |- _ => apply require_some_ret_inv in H
  end. bools. simplify_eq. apply rtc_once.
  destruct (jr_v2 (jb_request _)) eqn:Ev.
  - peel. bools. simpl. rewrite (alter_insert_eq _ _ _ _ Hsome).
    eapply row_job; [done..|]. apply reset_move; [done..|]. by eapply require_ret_inv.
  - eapply row_v1; try done. simpl. apply reset_row.
Qed.

(** ** Fires of a job *)

Lemma settle_rows job_id state reason stamp s :
  state = FireCompleted ∨ state = FireFailed → row_keep cert s (settle_fires job_id state reason stamp s).
Proof.
  intros Hst. apply row_fires, fires_hop_fmap. intros k f _. case_match; [|apply hop_refl]. bools.
  apply with_fire_hop; [by apply open_settles; naive_solver | naive_solver..].
Qed.

Lemma linked_fires_elem job_id s fire_id f :
  (fire_id, f) ∈ linked_fires job_id s ↔ s.(cs_fires) !! fire_id = Some f ∧ f.(fi_job_id) = Some job_id.
Proof.
  unfold linked_fires. rewrite elem_of_filter_b, elem_of_map_to_list. simpl. unfold sql_eq.
  destruct (fi_job_id f); [rewrite bool_decide_eq_true|]; naive_solver.
Qed.

(** With no open fire left, the triggers of a deletion leave the fires alone. *)
Lemma delete_job_fires job_id sql_now s :
  existsb (fun e => fire_open e.2) (linked_fires job_id s) = false →
  (delete_job job_id sql_now s).(cs_fires) = s.(cs_fires).
Proof.
  intros Hno. unfold delete_job. destruct (cs_jobs s !! job_id); [|done]. simpl.
  apply map_eq. intros k. rewrite lookup_fmap. destruct (cs_fires s !! k) as [f|] eqn:Ef; [|done]. simpl. f_equal.
  unfold removed_fire. case_match eqn:E; [|done]. exfalso.
  apply andb_prop in E as [Hl Ho]. unfold sql_eq in Hl. destruct (fi_job_id f) as [k'|] eqn:Ek; [|done]. bools. subst.
  rewrite existsb_false in Hno. specialize (Hno (k, f)). simpl in Hno. unfold fire_open in Hno.
  rewrite Ho in Hno. discriminate Hno. by apply linked_fires_elem.
Qed.

Lemma certificate_reason failure r : Some (failure_reason failure) = Some r → ∃ failure, r = failure_reason failure.
Proof. intros E. exists failure. congruence. Qed.

Lemma discard_rows job_id reason stamp sql_now s b s' :
  cert = Some job_id → (∀ r, reason = Some r → ∃ failure, r = failure_reason failure) →
  _discard_settled_source_less_certificate_job job_id reason stamp sql_now s = Ret (b, s') →
  rtc (row_keep cert) s s'.
Proof.
  unfold _discard_settled_source_less_certificate_job. intros Hcert Hreason Hop.
  destruct (cs_dispatch s !! job_id) as [d|]; [|injection Hop as <- <-; apply rtc_refl].
  destruct (ds_source_available d || existsb _ _) eqn:Eo; [injection Hop as <- <-; apply rtc_refl|].
  apply bind_ret_inv in Hop as (? & _ & Hop). injection Hop as <- <-. eapply rtc_l; [apply row_delete|].
  apply orb_false_elim in Eo as [_ Hno].
  destruct reason as [r|]; [|apply rtc_refl]. destruct (Hreason r eq_refl) as [failure ->]. apply rtc_once, row_fires.
  rewrite (delete_job_fires _ _ _ Hno). apply fires_change_fmap. intros k f Hf.
  case_match eqn:E; [|apply change_refl].
  assert (Hl : fi_job_id f = Some job_id)
    by (unfold sql_eq in E; destruct (fi_job_id f); [bools; by subst | done]).
  right. eapply refused_discard; simpl; try done.
  { unfold delete_job. destruct (cs_jobs s !! job_id) eqn:Ej; [apply lookup_delete_eq|done]. }
  rewrite existsb_false in Hno. apply (Hno (k, f)). by apply linked_fires_elem.
Qed.

Lemma sql_eq_some a b : sql_eq a (Some b) = true → a = Some b.
Proof. unfold sql_eq. destruct a; [|done]. intros; bools. by subst. Qed.

Lemma settle_certificate_rows job_id o stamp s : row_keep cert s (settle_certificate job_id o stamp s).
Proof. destruct o; apply settle_rows; tauto. Qed.

Lemma certify_outcome job_id j next result stamp uuids s o s' :
  certify job_id j next result stamp uuids s = Ret (Some o, s') → is_certificate j = true ∧ next = Completed.
Proof.
  unfold certify. intros Hop. destruct next, result as [[]|]; try done. by destruct (is_certificate j).
Qed.

Lemma transition_rows job_id expected next app instance result error now sql_now uuids s r s' :
  transition_connect_job job_id expected next app instance result error now sql_now uuids s = Ret (r, s') →
  (∀ j, s.(cs_jobs) !! job_id = Some j → is_certificate j = true → next = Completed → cert = Some job_id) →
  rtc (row_keep cert) s s'.
Proof.
  unfold transition_connect_job. intros Hop Hcert.
  apply bind_ret_inv in Hop as (? & Ht & Hop). apply require_ret_inv in Ht.
  apply bind_ret_inv in Hop as (? & _ & Hop). cbv zeta in Hop.
  apply bind_ret_inv in Hop as (j & Hj & Hop). apply require_some_ret_inv in Hj.
  apply bind_ret_inv in Hop as (? & He & Hop). apply require_ret_inv in He. bools. subst expected.
  apply bind_ret_inv in Hop as (? & Hp & Hop). apply require_ret_inv in Hp.
  apply bind_ret_inv in Hop as (? & Hd & Hop). apply require_ret_inv in Hd.
  apply bind_ret_inv in Hop as ([[[output encoded] metadata] failure] & _ & Hop).
  apply bind_ret_inv in Hop as ([outcome s1] & Hc & Hop).
  assert (∀ o, outcome = Some o → cert = Some job_id) as Hcert'.
  { intros o ->. apply certify_outcome in Hc as [Hc Hn]. by eapply Hcert. }
  clear Hcert. apply (certify_rows (cert := cert)) in Hc as (Hrows & [Hjobs Hdis _]).
  apply bind_ret_inv in Hop as (? & _ & Hop).
  etrans; [exact Hrows|]. case_match.
  - simplify_eq. eapply rtc_r; [|apply row_delete].
    apply rtc_once, settle_rows. destruct (bool_decide (next = Completed)); tauto.
  - apply bind_ret_inv in Hop as (? & Hok & Hop). apply require_ret_inv in Hok.
    set (j' := mk_job _ _ _ _ _ _ _ _ _) in *.
    assert (Hstep : row_keep cert s1 (if jr_v2 (jb_request j)
        then set_dispatch (alter (advanced_dispatch next (isoformat (utc now))) job_id
               (cs_dispatch (set_jobs (<[job_id := j']> (cs_jobs s1)) s1)))
               (set_jobs (<[job_id := j']> (cs_jobs s1)) s1)
        else set_jobs (<[job_id := j']> (cs_jobs s1)) s1)).
    { destruct (jr_v2 (jb_request j)) eqn:Ev; simpl in *.
      - destruct (cs_dispatch s !! job_id) as [d|] eqn:Ed; [|done]. rewrite <- Hdis in Ed.
        rewrite (alter_insert_eq _ _ _ _ Ed). apply andb_prop in Hp as [Ha%sql_eq_some Hi%sql_eq_some].
        eapply row_job; [by rewrite Hjobs | done |].
        apply (advance_move j j' d); simpl; try done.
      - eapply row_v1; [by rewrite Hjobs | done..|].
        by apply transition_allowed_inv in Ht as (? & _). }
    eapply rtc_l; [exact Hstep|]. destruct outcome as [o|]; [|simplify_eq; apply rtc_refl].
    apply bind_ret_inv in Hop as ([b s2] & Hdisc & Hop). simplify_eq.
    eapply rtc_l; [apply settle_certificate_rows|]. eapply discard_rows; [by eapply Hcert'| |exact Hdisc].
    destruct o; [apply certificate_reason|done].
Qed.

(** ** Replays *)

Lemma refuse_rows job_id failure stamp s : cert = Some job_id → row_keep cert s (refuse_fires job_id failure stamp s).
Proof.
  intros Hcert. apply row_fires, fires_change_fmap. intros k f Hf. case_match eqn:E; [|apply change_refl].
  apply andb_prop in E as [Hl%sql_eq_some Hr]. unfold fire_reopened in Hr.
  destruct (fire_open f) eqn:Ho.
  - left. apply with_fire_hop; [apply open_settles; [done|tauto] | done..].
  - right. eapply refused_replay; simpl; try done. simpl in Hr.
    apply orb_prop in Hr as [Hr|Hr]; bools; auto.
Qed.

Lemma replay_unrecorded_rows job_id j d result stamp sql_now s s' :
  cert = Some job_id → replay_unrecorded job_id j d result stamp sql_now s = Ret s' → rtc (row_keep cert) s s'.
Proof.
  unfold replay_unrecorded. intros Hcert Hop. apply bind_ret_inv in Hop as ([encoded m] & _ & Hop). cbv zeta in Hop.
  case_match; apply bind_ret_inv in Hop as (? & _ & Hop); apply bind_ret_inv in Hop as ([b s1] & Hd & Hop);
    injection Hop as <-; (apply discard_rows in Hd; [|done|apply certificate_reason]).
  - eapply rtc_l; [|exact Hd]. apply settle_rows. tauto.
  - eapply rtc_l; [|eapply rtc_l; [by apply refuse_rows|exact Hd]]. apply row_dispatches. intros k.
    destruct (decide (k = job_id)) as [->|].
    + rewrite lookup_alter_eq. destruct (cs_dispatch s !! job_id) as [d0|]; simpl; constructor. intros.
      by apply dispatch_stays.
    + rewrite lookup_alter_ne by done. destruct (cs_dispatch s !! k); constructor. intros. by apply dispatch_stays.
Qed.

Lemma worst_conflict prior o failure : worst prior o = Some failure →
  prior = Some CertificateConflict → failure = CertificateConflict.
Proof. intros Hw ->. simpl in Hw. congruence. Qed.

Lemma replay_recorded_rows job_id id parent j result stamp sql_now s s' :
  s.(cs_certificates) !! id = Some parent →
  cert = Some job_id → replay_recorded job_id id parent j result stamp sql_now s = Ret s' → rtc (row_keep cert) s s'.
Proof.
  unfold replay_recorded. intros Hp Hcert Hop. apply bind_ret_inv in Hop as (compared & _ & Hop).
  destruct (worst _ compared) as [failure|] eqn:Ew; [|simplify_eq; apply rtc_refl]. cbv zeta in Hop.
  apply bind_ret_inv in Hop as (? & _ & Hop); apply bind_ret_inv in Hop as ([b s1] & Hd & Hop);
    injection Hop as <-; (apply discard_rows in Hd; [|done|apply certificate_reason]).
  eapply rtc_l; [|eapply rtc_l; [by apply refuse_rows|exact Hd]].
  rewrite (alter_insert_eq _ _ _ _ Hp). apply row_fence; [done|]. by eapply worst_conflict.
Qed.

Lemma certificates_of_elem job_id s k c :
  (k, c) ∈ certificates_of job_id s ↔ s.(cs_certificates) !! k = Some c ∧ c.(cr_job_id) = job_id.
Proof.
  unfold certificates_of. rewrite list_elem_of_In, filter_In, <- list_elem_of_In, elem_of_map_to_list.
  by rewrite bool_decide_eq_true.
Qed.

Lemma replay_rows job_id app instance result now sql_now s r s' :
  cert = Some job_id → reconcile_certificate_completed_replay job_id app instance result now sql_now s = Ret (r, s') → rtc (row_keep cert) s s'.
Proof.
  unfold reconcile_certificate_completed_replay. intros Hcert Hop. cbv zeta in Hop.
  apply bind_ret_inv in Hop as (j & _ & Hop). do 2 apply bind_ret_inv in Hop as (? & _ & Hop).
  apply bind_ret_inv in Hop as (d & _ & Hop). apply bind_ret_inv in Hop as (s1 & Hr & Hop). injection Hop as <- <-.
  destruct (certificates_of job_id s) as [|[id parent] []] eqn:Ec; [by eapply replay_unrecorded_rows| |done].
  eapply replay_recorded_rows; [|done|exact Hr]. apply (certificates_of_elem job_id s id parent). rewrite Ec. by left.
Qed.

Lemma join_certificate_rows job_id now sql_now uuids s r s' :
  cert = Some job_id → reconcile_certificate_completed_join job_id now sql_now uuids s = Ret (r, s') → rtc (row_keep cert) s s'.
Proof.
  unfold reconcile_certificate_completed_join. intros Hcert Hop. cbv zeta in Hop.
  apply bind_ret_inv in Hop as (j & _ & Hop). do 2 apply bind_ret_inv in Hop as (? & _ & Hop).
  apply bind_ret_inv in Hop as (d & _ & Hop). apply bind_ret_inv in Hop as ([outcome s1] & Ho & Hop).
  apply bind_ret_inv in Hop as ([b s2] & Hd & Hop). injection Hop as <- <-. apply discard_rows in Hd; [|done|destruct outcome; [apply certificate_reason|done]].
  assert (rtc (row_keep cert) s s1) as H1.
  { destruct (head _ ≫= _); [simplify_eq; apply rtc_refl|]. case_match; [simplify_eq; apply rtc_refl|].
    destruct (join_records _ _ _ _ _) as [joined s3] eqn:Ej. apply bind_ret_inv in Ho as (o & _ & Ho).
    simplify_eq. by apply (join_rows (cert := Some job_id)) in Ej as [? _]. }
  etrans; [exact H1|]. eapply rtc_l; [apply settle_certificate_rows|exact Hd].
Qed.

(** ** Fires *)

Lemma resume_dispatch_rows job_id now stamp s s' :
  _resume_automation_dispatch job_id now stamp s = Ret s' →
  rtc (row_keep cert) s s' ∧ s'.(cs_fires) = s.(cs_fires) ∧ s'.(cs_attempts) = s.(cs_attempts).
Proof.
  unfold _resume_automation_dispatch. intros Hop. peel; simplify_eq; split_and!; try done; try apply rtc_refl.
  apply rtc_once. eapply row_dispatch; [done|]. intros j _. by apply dispatch_stays.
Qed.

Lemma pause_job_rows next job_id stamp s s' :
  pause_linked_job next job_id stamp s = Ret s' →
  rtc (row_keep cert) s s' ∧ s'.(cs_fires) = s.(cs_fires) ∧ s'.(cs_attempts) = s.(cs_attempts).
Proof.
  unfold pause_linked_job. intros Hop.
  destruct next, job_id as [job_id|]; peel; simplify_eq; split_and!; try done; try apply rtc_refl.
  all: match goal with |- context [if ?b then _ else _] => destruct b end; try done; try apply rtc_refl.
  destruct (cs_dispatch s !! job_id) as [d|] eqn:Ed; [|done]. rewrite (alter_insert_eq _ _ _ _ Ed).
  apply rtc_once. eapply row_dispatch; [done|]. intros j _. by apply dispatch_stays.
Qed.

Lemma bind_attempt_rows fire_id n job_id s s' :
  bind_attempt fire_id n job_id s = Ret s' → rtc (row_keep cert) s s' ∧ s'.(cs_fires) = s.(cs_fires).
Proof.
  unfold bind_attempt. intros Hop. peel; simplify_eq; split; try done; try apply rtc_refl.
  apply rtc_once, row_bind. intros k. destruct (decide (k = (fire_id, n))) as [->|].
  - rewrite lookup_insert_eq, Hsome. constructor. split; try done. simpl. congruence.
  - rewrite lookup_insert_ne by done. destruct (cs_attempts s !! k); by constructor.
Qed.

Lemma submit_rows next fire_id n job_id now stamp s s' :
  submit_fire next fire_id n job_id now stamp s = Ret s' → rtc (row_keep cert) s s' ∧ s'.(cs_fires) = s.(cs_fires).
Proof.
  unfold submit_fire. intros Hop.
  destruct next, job_id as [job_id|]; peel; simplify_eq; split; try done; try apply rtc_refl.
  all: apply resume_dispatch_rows in Hbind as (? & ? & _); apply bind_attempt_rows in Hop as [? ?].
  - by etrans.
  - congruence.
Qed.

Lemma drop_rows next job_id sql_now s : rtc (row_keep cert) s (drop_settled_job next job_id sql_now s).
Proof.
  unfold drop_settled_job. destruct next, job_id; try apply rtc_refl.
  all: case_match; [apply rtc_once, row_delete | apply rtc_refl].
Qed.

Lemma prepare_identity_hash identity h b : prepare_identity identity = Ret (h, b) → h = Sha256.hexdigest b.
Proof. unfold prepare_identity. intros Hop. peel. by simplify_eq. Qed.

(** The fire a transition leaves, and the store before its job is dropped. *)
Lemma fire_transition_inv fire_id expected version next reason job_id identity confirmed now sql_now s r s' :
  transition_automation_fire fire_id expected version next reason job_id identity confirmed now sql_now s
    = Ret (r, s') →
  ∃ f s1, s.(cs_fires) !! fire_id = Some f ∧ f.(fi_state) = expected ∧ f.(fi_version) = version ∧
    rtc (row_keep cert) s s1 ∧ s1.(cs_fires) = s.(cs_fires) ∧ fire_hop f r ∧ r.(fi_state) = next ∧
    r.(fi_version) = version + 1 ∧
    s' = drop_settled_job next r.(fi_job_id) sql_now (set_fires (<[fire_id := r]> s1.(cs_fires)) s1).
Proof.
  unfold transition_automation_fire. intros Hop.
  do 4 (apply bind_ret_inv in Hop as (? & ? & Hop)).
  apply bind_ret_inv in Hop as (prepared & Hprep & Hop). cbv zeta in Hop.
  apply bind_ret_inv in Hop as (f & Hf & Hop). apply require_some_ret_inv in Hf.
  do 4 (apply bind_ret_inv in Hop as (? & ? & Hop)).
  apply bind_ret_inv in Hop as (sa & Ha & Hop). apply bind_ret_inv in Hop as (sb & Hb & Hop).
  apply pause_job_rows in Ha as (Ha & Hfa & _). apply submit_rows in Hb as (Hb & Hfb).
  repeat match goal with H : require _ _ = Ret _ |- _ => apply require_ret_inv in H end. bools.
  injection Hop as Hr Hs. exists f, sb.
  assert (Hv : fi_version f = version) by lia.
  split_and!; try done; [by etrans | congruence | | by subst r | by subst r; simpl; lia | by subst r].
  subst r. apply hop_move; simpl; try done; [congruence | | |].
  - intros ->. match goal with H : negb (bool_decide (Submitted = _)) || _ = true |- _ => by apply H end.
  - intros ->. match goal with H : negb (bool_decide (AwaitingConfirmation = _)) || _ = true |- _ => by apply H end.
  - intros h b Hp. destruct identity as [i|]; [|injection Hprep as <-; by left].
    apply bind_ret_inv in Hprep as ([h0 b0] & Hpi & Hprep). injection Hprep as <-. injection Hp as -> ->.
    right. by eapply prepare_identity_hash.
Qed.

Lemma fire_transition_rows fire_id expected version next reason job_id identity confirmed now sql_now s r s' :
  transition_automation_fire fire_id expected version next reason job_id identity confirmed now sql_now s
    = Ret (r, s') → rtc (row_keep cert) s s'.
Proof.
  intros (f & s1 & Hf & _ & _ & Hrows & Hfires & Hhop & _ & _ & ->)%fire_transition_inv.
  etrans; [exact Hrows|]. eapply rtc_l; [|apply drop_rows].
  apply row_fires. eapply fires_hop_insert; [|done]. by rewrite Hfires.
Qed.

Lemma touch_rows fire_id expected version now s r s' :
  touch_automation_fire fire_id expected version now s = Ret (r, s') → rtc (row_keep cert) s s'.
Proof.
  unfold touch_automation_fire. intros Hop. peel; simplify_eq; try apply rtc_refl.
  apply rtc_once, row_fires. eapply fires_hop_insert; [done|]. by apply hop_stay.
Qed.

(** What a decision does. *)
Lemma decide_inv fire_id version h confirmed now s r s' :
  decide_automation_fire fire_id version h confirmed now s = Ret (r, s') →
  ∃ f, s.(cs_fires) !! fire_id = Some f ∧ f.(fi_state) = AwaitingConfirmation ∧ f.(fi_version) = version ∧
    fst <$> f.(fi_prepared) = Some h ∧ r.(fi_prepared) = f.(fi_prepared) ∧ r.(fi_confirmed) = confirmed ∧
    fire_hop f r ∧ (confirmed = true → s.(cs_confirmations) !! fire_id = None) ∧
    s' = set_fires (<[fire_id := r]> s.(cs_fires))
           (if confirmed then set_confirmations (<[fire_id := (h, isoformat (utc now))]> s.(cs_confirmations)) s
            else s).
Proof.
  unfold decide_automation_fire. intros Hop. peel; bools; simplify_eq.
  all: eexists; split_and!; try done; try lia.
  all: try (apply hop_move; simpl; try done; [|by left..]; match goal with H : fi_state _ = _ |- _ => by rewrite H end).
  intros _. by destruct (cs_confirmations s !! fire_id).
Qed.

Lemma decide_rows fire_id version h confirmed now s r s' :
  decide_automation_fire fire_id version h confirmed now s = Ret (r, s') → row_transaction cert s s'.
Proof.
  intros (f & Hf & Hst & _ & Hp & _ & _ & Hhop & Hno & ->)%decide_inv. 
  destruct confirmed; [right; exists s; split_and!; [done..|]; by eapply row_confirm; eauto|].
  left. apply rtc_once, row_fires. by eapply fires_hop_insert.
Qed.

Lemma pause_interactive_rows job_id now s r s' :
  pause_interactive_job_automation_fires job_id now s = Ret (r, s') → rtc (row_keep cert) s s'.
Proof.
  unfold pause_interactive_job_automation_fires. intros Hop. peel.
  simplify_eq. apply rtc_once, (pause_linked_rows job_id (isoformat (utc now)) s).
Qed.

Lemma authorize_rows job_id now s r s' :
  authorize_connect_job_interactively job_id now s = Ret (r, s') → rtc (row_keep cert) s s'.
Proof.
  unfold authorize_connect_job_interactively. intros Hop. peel; simplify_eq; [apply rtc_refl|].
  apply resume_dispatch_rows in Hbind as (Hrows & _). eapply rtc_l; [|exact Hrows].
  eapply row_dispatch; [done|]. intros j' _. apply dispatch_stays; simpl; try done.
  by destruct (ds_interactive_at _).
Qed.

Lemma resume_rows fire_id version now s r s' :
  resume_automation_fire_job fire_id version now s = Ret (r, s') → rtc (row_keep cert) s s'.
Proof.
  unfold resume_automation_fire_job. intros Hop. peel. bools. simplify_eq.
  apply resume_dispatch_rows in Hbind as (Hrows & Hfires & _). eapply rtc_r; [exact Hrows|].
  apply row_fires. rewrite Hfires. eapply fires_hop_insert; [done|].
  apply hop_move; simpl; try done; [| |by left].
  - by match goal with H : fi_state _ = _ |- _ => rewrite H end.
  - intros _. by match goal with H : fi_job_id _ = _ |- _ => rewrite H end.
Qed.

Lemma retry_row_inv fire_id s f j d :
  _automation_fire_retry_row fire_id s = Some (f, j, d) →
  s.(cs_fires) !! fire_id = Some f ∧
  ∃ job_id, f.(fi_job_id) = Some job_id ∧ s.(cs_jobs) !! job_id = Some j ∧ s.(cs_dispatch) !! job_id = Some d.
Proof.
  unfold _automation_fire_retry_row.
  destruct (cs_fires s !! fire_id) as [f0|] eqn:Ef; simpl; [|done].
  destruct (fi_job_id f0) as [job_id|] eqn:Ej; simpl; [|done].
  destruct (cs_jobs s !! job_id) as [j0|] eqn:Ejj; simpl; [|done].
  destruct (cs_dispatch s !! job_id) as [d0|] eqn:Ed; simpl; [|done].
  intros [= <- <- <-]. split; [done|]. by exists job_id.
Qed.

Lemma retry_inv fire_id version request_id now s r s' :
  retry_automation_fire_after_failure fire_id version request_id now s = Ret (r, s') →
  ∃ f, s.(cs_fires) !! fire_id = Some f ∧ f.(fi_version) = version ∧ fire_retry f r ∧
    is_some (automation_fire_retry_kind fire_id s) = true ∧
    s.(cs_attempts) !! (fire_id, 2) = None ∧ request_id_used request_id s = false ∧
    s' = set_confirmations (delete fire_id s.(cs_confirmations))
      (set_fires (<[fire_id := r]> s.(cs_fires))
         (set_attempts (<[(fire_id, 2) := mk_attempt request_id None (isoformat (utc now))]> s.(cs_attempts)) s)).
Proof.
  unfold retry_automation_fire_after_failure. intros Hop.
  apply bind_ret_inv in Hop as ([[f j] d] & Hrow & Hop). apply require_some_ret_inv in Hrow.
  pose proof (retry_row_inv _ _ _ _ _ Hrow) as (Hf & _).
  apply bind_ret_inv in Hop as (? & Hg & Hop). apply require_ret_inv in Hg.
  apply bind_ret_inv in Hop as (kind & Hk & Hop). apply require_some_ret_inv in Hk.
  apply bind_ret_inv in Hop as (? & Hu & Hop). apply require_ret_inv in Hu. bools.
  simpl in *. injection Hop as Hr Hs. exists f. subst r s'.
  split_and!; try done; try lia.
  - split; simpl; try done; lia.
  - unfold automation_fire_retry_kind. rewrite Hrow. simpl. by rewrite Hk.
  - by destruct (cs_attempts s !! (fire_id, 2)).
Qed.

Lemma retry_rows fire_id version request_id now s r s' :
  retry_automation_fire_after_failure fire_id version request_id now s = Ret (r, s') → row_transaction cert s s'.
Proof.
  intros (f & Hf & _ & Hr & Hk & Hn & Hu & ->)%retry_inv. 
  right. exists s. split_and!; [done..|]. by eapply row_retry.
Qed.

Lemma admit_rows fire_id request_id source scope known s s' :
  insert_fire fire_id request_id source scope known s = Ret s' → row_transaction cert s s'.
Proof.
  unfold insert_fire. intros Hop. peel. bools. simplify_eq. 
  right. exists s. split_and!; [done..|]. apply row_admit; try done.
  - by destruct (cs_fires s !! fire_id).
  - by destruct (cs_attempts s !! (fire_id, 1)) eqn:E; simpl in *; rewrite ?E in *.
Qed.

(** ** Loss of a message *)

Lemma bound_fire_hop message_id now s fire_id f :
  fire_hop f (bound_fire message_id now s fire_id f).
Proof.
  unfold bound_fire. destruct (fire_of_message message_id f && _) eqn:E; [|apply hop_refl].
  case_match; [|apply hop_refl]. apply andb_prop in E as [E _]. unfold fire_of_message in E.
  apply andb_prop in E as [_ E]. apply hop_move; simpl; try done; [|by left].
  apply orb_true_iff in E as [E|E]; bools; by rewrite E.
Qed.

Lemma binding_rows message_id now s : rtc (row_keep cert) s (automation_source_binding message_id now s).
Proof.
  unfold automation_source_binding. eapply rtc_l; [apply row_bind|apply rtc_once, row_fires].
  - intros k. rewrite map_lookup_imap. destruct (cs_attempts s !! k) as [a|]; simpl; constructor.
    unfold bound_attempt. case_match eqn:E; [|by split]. bools.
    split; try done. simpl. intros job_id Hj. by rewrite Hj in *.
  - apply fires_hop_imap. intros k f _. apply bound_fire_hop.
Qed.

Lemma delete_jobs_rows sql_now l s : rtc (row_keep cert) s (fold_left (fun s job_id => delete_job job_id sql_now s) l s).
Proof. revert s. induction l as [|k l IH]; intros s; [apply rtc_refl|]. eapply rtc_l; [apply row_delete | apply IH]. Qed.

Lemma invalidation_rows message_id sql_now now s :
  rtc (row_keep cert) s (connect_source_invalidation message_id sql_now now s).
Proof.
  unfold connect_source_invalidation. eapply rtc_r; [apply delete_jobs_rows|].
  apply row_dispatches. intros k. rewrite map_lookup_imap.
  destruct (cs_dispatch _ !! k); simpl; constructor.
  intros j Hj. rewrite Hj. case_bool_decide; [by apply dispatch_stays | apply dispatch_refl].
Qed.

Lemma unavailable_rows message_id sql_now now s :
  rtc (row_keep cert) s (connect_source_unavailable message_id sql_now now s).
Proof. etrans; [apply binding_rows | apply invalidation_rows]. Qed.

Lemma messages_delete_rows message_id sql_now now s :
  rtc (row_keep cert) s (messages_delete message_id sql_now now s).
Proof. etrans; [apply binding_rows | eapply rtc_l; [apply row_abandon | apply invalidation_rows]]. Qed.

End Rows.

(** Every operation is a transaction of row steps; only those that settle a certificate
    job leave the machine of the fires. *)
Lemma queue_step_rows `{Unicode} `{ConnectLib} s s' : queue_step s s' →
  ∃ cert, row_transaction cert s s' ∧ ∀ job_id, cert = Some job_id → certificate_step job_id s s'.
Proof.
  assert (row_transaction None s s' → ∃ cert, row_transaction cert s s' ∧ ∀ job_id, cert = Some job_id → certificate_step job_id s s') as Hnone
    by (intros Hr; exists None; done).
  assert (∀ job_id, certificate_step job_id s s' → rtc (row_keep (Some job_id)) s s' →
    ∃ cert, row_transaction cert s s' ∧ ∀ job_id, cert = Some job_id → certificate_step job_id s s') as Hsome
    by (intros job_id Hc Hr; exists (Some job_id); split; [by left|]; by intros ? [= <-]).
  destruct 1 as [| | | | |job_id expected next app instance result error now sql_now uuids r s' Hop
    |job_id app instance result now sql_now r s' Hop|job_id now sql_now uuids r s' Hop| | | | | | | | | | | |];
    [apply Hnone; by eapply create_rows | apply Hnone; left; by eapply heads_rows | apply Hnone; left; apply expire_rows
    | apply Hnone; left; by eapply claim_rows | apply Hnone; left; by eapply defer_rows | | |
    | apply Hnone; left; by eapply reset_rows | apply Hnone; left; by eapply fire_transition_rows | apply Hnone; by eapply decide_rows
    | apply Hnone; left; by eapply touch_rows | apply Hnone; left; by eapply pause_interactive_rows | apply Hnone; left; by eapply authorize_rows
    | apply Hnone; left; by eapply resume_rows | apply Hnone; by eapply retry_rows | apply Hnone; by eapply admit_rows
    | apply Hnone; left; apply unavailable_rows | apply Hnone; left; apply messages_delete_rows | apply Hnone; left; apply rtc_once, row_sources].
  - destruct (decide (next = Completed)) as [->|Hn]; [|apply Hnone; left; by eapply transition_rows].
    destruct (s.(cs_jobs) !! job_id) as [j|] eqn:Hj; [destruct (is_certificate j) eqn:Hc|].
    + apply (Hsome job_id); [by eapply certificate_completed|]. by eapply transition_rows.
    + apply Hnone. left. eapply transition_rows; [exact Hop|]. intros. simplify_eq. congruence.
    + apply Hnone. left. eapply transition_rows; [exact Hop|]. intros. congruence.
  - apply (Hsome job_id); [by eapply certificate_replayed|]. by eapply replay_rows.
  - apply (Hsome job_id); [by eapply certificate_joined|]. by eapply join_certificate_rows.
Qed.
