(* ===== verification/ConnectInvariant.v ===== *)
(** * The invariant of the Connect queue

    Jobs: row constraints, one dispatch per protocol-2 job, the stage of every job, and
    at most one active job per invocation.  Fires: row constraints, attempts numbered
    without gaps up to the current one, unique dispatch requests, and receipts only for
    fires. *)

From S2P Require Export ConnectRows.
From stdpp Require Import options.

Local Open Scope Z_scope.

(** The row constraints of a fire that the operations rely on. *)
Record fire_ok (f : AutomationFire) : Prop := {
  fk_version : 1 <= f.(fi_version);
  fk_attempt : f.(fi_attempt_no) = 1 ∨ f.(fi_attempt_no) = 2;
  fk_submitted : f.(fi_state) = Submitted → is_some f.(fi_job_id) = true;
  fk_awaiting : f.(fi_state) = AwaitingConfirmation → is_some f.(fi_prepared) = true;
  fk_prepared : ∀ h b, f.(fi_prepared) = Some (h, b) → h = Sha256.hexdigest b }.

Lemma hop_ok f f' : fire_hop f f' → fire_ok f → fire_ok f'.
Proof.
  intros [Heq|? ? Hv Ha Hsub Haw Hprep] [].
  - rewrite Heq. by split.
  - split; try done; [lia | by rewrite Ha | naive_solver].
Qed.

Lemma change_ok cert jobs f f' : fire_change cert jobs f f' → fire_ok f → fire_ok f'.
Proof.
  intros [Hh|[job_id x _ _ _ Hst _ _ Hv Ha _ Hp|job_id x _ _ _ _ Hst _ _ Hv Ha _ Hp]]; [by apply hop_ok|..];
    intros []; split; rewrite ?Hst, ?Ha, ?Hp; try done; lia.
Qed.

Lemma retry_ok f f' : fire_retry f f' → fire_ok f → fire_ok f'.
Proof. intros [] []. split; (congruence || lia || auto || intros h b ?; congruence). Qed.

(** Two requests for the same invocation. *)
Definition same_call (r r' : JobRequest) : Prop :=
  r.(jr_message_id) = r'.(jr_message_id) ∧ r.(jr_part_id) = r'.(jr_part_id) ∧
  r.(jr_invocation_fingerprint) = r'.(jr_invocation_fingerprint).

Section Invariant.
Context `{Unicode} `{ConnectLib}.
Implicit Types s : connect_store.

Record jobs_inv s : Prop := {
  ji_row : ∀ id j, s.(cs_jobs) !! id = Some j → job_row_ok j = true;
  ji_dispatch : ∀ id j, s.(cs_jobs) !! id = Some j → is_some (s.(cs_dispatch) !! id) = j.(jb_request).(jr_v2);
  ji_owned : ∀ id, is_some (s.(cs_dispatch) !! id) = true → is_some (s.(cs_jobs) !! id) = true;
  ji_stage : ∀ id j d, s.(cs_jobs) !! id = Some j → s.(cs_dispatch) !! id = Some d →
    stage_ok j.(jb_status) d = true;
  ji_unique : ∀ id id' j j', s.(cs_jobs) !! id = Some j → s.(cs_jobs) !! id' = Some j' →
    j.(jb_request).(jr_v2) = true → j'.(jb_request).(jr_v2) = true →
    active_status j.(jb_status) = true → active_status j'.(jb_status) = true →
    same_call j.(jb_request) j'.(jb_request) → id = id' }.

Record fires_inv s : Prop := {
  fv_fire : ∀ k f, s.(cs_fires) !! k = Some f → fire_ok f;
  fv_attempts : ∀ k f n, s.(cs_fires) !! k = Some f →
    is_some (s.(cs_attempts) !! (k, n)) = (1 <=? n) && (n <=? f.(fi_attempt_no));
  fv_orphan : ∀ k n, is_some (s.(cs_attempts) !! (k, n)) = true → is_some (s.(cs_fires) !! k) = true;
  fv_request : ∀ k k' a a', s.(cs_attempts) !! k = Some a → s.(cs_attempts) !! k' = Some a' →
    a.(at_dispatch_request_id) = a'.(at_dispatch_request_id) → k = k';
  fv_receipt : ∀ k, is_some (s.(cs_confirmations) !! k) = true → is_some (s.(cs_fires) !! k) = true }.

(** Every certificate row stands for a validated record and has its policies. *)
Record certificates_inv s : Prop := {
  ci_row : ∀ id c, s.(cs_certificates) !! id = Some c → certificate_row_ok id c = true;
  ci_evidence : ∀ id c, s.(cs_certificates) !! id = Some c → ∃ v rows, certifies c v ∧
    mapM _certificate_child_projection v.(va_record).(ce_policies) = Some rows ∧
    policies_match id rows s.(cs_policies);
  ci_unique : ∀ id id' c c', s.(cs_certificates) !! id = Some c → s.(cs_certificates) !! id' = Some c' →
    same_evidence c c' → id = id';
  ci_owned : ∀ k p, s.(cs_policies) !! k = Some p → is_some (s.(cs_certificates) !! p.(pl_certificate_id)) = true;
  ci_ordinals : ordinals_unique s.(cs_policies) }.

Definition queue_inv s : Prop := jobs_inv s ∧ fires_inv s ∧ certificates_inv s.

(** ** Jobs *)

(** Only the job tables matter. *)
Lemma jobs_inv_frame s s' :
  s'.(cs_jobs) = s.(cs_jobs) → s'.(cs_dispatch) = s.(cs_dispatch) → jobs_inv s → jobs_inv s'.
Proof. intros Hj Hd []. split; rewrite ?Hj, ?Hd; eauto. Qed.

Lemma same_invocation_nil m p h s id j :
  same_invocation m p h s = [] → s.(cs_jobs) !! id = Some j → j.(jb_request).(jr_v2) = true →
  active_status j.(jb_status) = true → j.(jb_request).(jr_message_id) = m → j.(jb_request).(jr_part_id) = p →
  j.(jb_request).(jr_invocation_fingerprint) = h → False.
Proof.
  intros Hnil Hj Hv Ha <- <- <-. apply elem_of_map_to_list in Hj.
  assert (Hin : (id, j) ∈ same_invocation (jr_message_id (jb_request j)) (jr_part_id (jb_request j))
                  (jr_invocation_fingerprint (jb_request j)) s).
  { unfold same_invocation. apply elem_of_filter_b. split; [done|]. simpl.
    by rewrite !bool_decide_eq_true_2, Hv, Ha. }
  rewrite Hnil in Hin. by apply not_elem_of_nil in Hin.
Qed.

Lemma create_v1_jobs s id j :
  creates id j s → j.(jb_request).(jr_v2) = false → jobs_inv s →
  jobs_inv (set_jobs (<[id := j]> s.(cs_jobs)) s).
Proof.
  intros [Hf Hr Hst Hi] Hv []. split; simpl.
  - intros k x. rewrite lookup_insert_Some. naive_solver.
  - intros k x. rewrite lookup_insert_Some. intros [[-> <-]|[_ Hx]]; [|by apply ji_dispatch0].
    rewrite Hv. destruct (cs_dispatch s !! k) eqn:E; [|done].
    specialize (ji_owned0 k). rewrite E, Hf in ji_owned0. by specialize (ji_owned0 eq_refl).
  - intros k Hk. destruct (decide (k = id)) as [->|]; [by rewrite lookup_insert_eq|].
    rewrite lookup_insert_ne by done. auto.
  - intros k x d. rewrite lookup_insert_Some. intros [[-> <-]|[_ Hx]] Hd; [|by eapply ji_stage0].
    specialize (ji_owned0 k). rewrite Hd, Hf in ji_owned0. by specialize (ji_owned0 eq_refl).
  - intros k k' x x'. rewrite !lookup_insert_Some. intros [[-> <-]|[_ Hx]] [[-> <-]|[_ Hx']] V V'; eauto; congruence.
Qed.

Lemma create_jobs s id j d :
  creates id j s → j.(jb_request).(jr_v2) = true → s.(cs_dispatch) !! id = None → first_dispatch d →
  jobs_inv s → jobs_inv (set_dispatch (<[id := d]> s.(cs_dispatch)) (set_jobs (<[id := j]> s.(cs_jobs)) s)).
Proof.
  intros [Hf Hr Hst Hi] Hv Hd (D1 & D2 & D3 & _) []. specialize (Hi Hv). split; simpl.
  - intros k x. rewrite lookup_insert_Some. naive_solver.
  - intros k x. rewrite lookup_insert_Some. intros [[-> <-]|[? Hx]]; [by rewrite lookup_insert_eq, Hv|].
    rewrite lookup_insert_ne by done. by apply ji_dispatch0.
  - intros k. destruct (decide (k = id)) as [->|]; [by rewrite !lookup_insert_eq|].
    rewrite !lookup_insert_ne by done. auto.
  - intros k x y. rewrite !lookup_insert_Some. intros [[-> <-]|[? Hx]] [[? <-]|[? Hy]]; try done; [|by eapply ji_stage0].
    unfold stage_ok. by rewrite D1, D2, D3, Hst.
  - intros k k' x x'. rewrite !lookup_insert_Some.
    intros [[-> <-]|[_ Hx]] [[-> <-]|[_ Hx']] V V' A A' (C1 & C2 & C3); [done| | |by eapply ji_unique0].
    + exfalso. by eapply (same_invocation_nil _ _ _ _ _ _ Hi Hx').
    + exfalso. by eapply (same_invocation_nil _ _ _ _ _ _ Hi Hx).
Qed.

Lemma move_jobs s id j j' d d' :
  s.(cs_jobs) !! id = Some j → s.(cs_dispatch) !! id = Some d → job_move j j' d d' → jobs_inv s →
  jobs_inv (set_dispatch (<[id := d']> s.(cs_dispatch)) (set_jobs (<[id := j']> s.(cs_jobs)) s)).
Proof.
  intros Hj Hd [] []. split; simpl.
  - intros k x. rewrite lookup_insert_Some. intros [[-> <-]|[? Hx]]; eauto.
  - intros k x. rewrite lookup_insert_Some. intros [[-> <-]|[? Hx]].
    + rewrite lookup_insert_eq, jm_request. specialize (ji_dispatch0 _ _ Hj). by rewrite Hd in ji_dispatch0.
    + rewrite lookup_insert_ne by done. by apply ji_dispatch0.
  - intros k. destruct (decide (k = id)) as [->|]; [by rewrite !lookup_insert_eq|].
    rewrite !lookup_insert_ne by done. auto.
  - intros k x y. rewrite !lookup_insert_Some. intros [[-> <-]|[? Hx]] [[? <-]|[? Hy]]; try done; eauto.
  - assert (Ha : active_status (jb_status j') = true → active_status (jb_status j) = true).
    { intros Ha. destruct (active_status (jb_status j)) eqn:E; [done|].
      rewrite (jm_settled eq_refl) in Ha. congruence. }
    intros k k' x x'. rewrite !lookup_insert_Some.
    intros [[-> <-]|[? Hx]] [[-> <-]|[? Hx']] V V' A A' C; [done| | |by eapply ji_unique0];
      rewrite jm_request in *; eapply ji_unique0; eauto.
Qed.

Lemma v1_jobs s id j j' :
  s.(cs_jobs) !! id = Some j → j.(jb_request).(jr_v2) = false → j'.(jb_request) = j.(jb_request) →
  (job_row_ok j = true → job_row_ok j' = true) → jobs_inv s →
  jobs_inv (set_jobs (<[id := j']> s.(cs_jobs)) s).
Proof.
  intros Hj Hv Hr Hok []. pose proof (ji_dispatch0 _ _ Hj) as Hd. rewrite Hv in Hd. split; simpl.
  - intros k x. rewrite lookup_insert_Some. intros [[-> <-]|[? Hx]]; eauto.
  - intros k x. rewrite lookup_insert_Some. intros [[-> <-]|[? Hx]]; [by rewrite Hr, Hv|auto].
  - intros k. destruct (decide (k = id)) as [->|]; [by rewrite lookup_insert_eq|].
    rewrite lookup_insert_ne by done. auto.
  - intros k x y. rewrite !lookup_insert_Some. intros [[-> <-]|[? Hx]] Hy; [by rewrite Hy in Hd|eauto].
  - intros k k' x x'. rewrite !lookup_insert_Some.
    intros [[-> <-]|[_ Hx]] [[-> <-]|[_ Hx']] V V'; eauto; congruence.
Qed.

Lemma dispatches_jobs s m :
  (∀ k, option_Forall2 (fun d d' => ∀ j, s.(cs_jobs) !! k = Some j → job_move j j d d')
          (s.(cs_dispatch) !! k) (m !! k)) →
  jobs_inv s → jobs_inv (set_dispatch m s).
Proof.
  intros Hm []. split; simpl; [done| | | |done].
  - intros k j Hj. rewrite <- (ji_dispatch0 _ _ Hj). by destruct (Hm k).
  - intros k Hk. apply ji_owned0. by destruct (Hm k).
  - intros k j d' Hj Hd'. specialize (Hm k). rewrite Hd' in Hm.
    inversion Hm as [d x Hmv Hd|]; subst. apply (jm_stage _ _ _ _ (Hmv _ Hj)). by eapply ji_stage0.
Qed.

Lemma delete_jobs s id sql_now : jobs_inv s → jobs_inv (delete_job id sql_now s).
Proof.
  intros Hi. unfold delete_job. destruct (cs_jobs s !! id) as [j|]; [|done].
  destruct Hi. split; simpl.
  - intros k x [_ Hx]%lookup_delete_Some. eauto.
  - intros k x [? Hx]%lookup_delete_Some. rewrite lookup_delete_ne by done. auto.
  - intros k Hk. destruct (decide (k = id)) as [->|]; [by rewrite lookup_delete_eq in Hk|].
    rewrite lookup_delete_ne by done. rewrite lookup_delete_ne in Hk by done. auto.
  - intros k x d [? Hx]%lookup_delete_Some [? Hd]%lookup_delete_Some. eauto.
  - intros k k' x x' [_ Hx]%lookup_delete_Some [_ Hx']%lookup_delete_Some. eauto.
Qed.

Lemma keep_jobs_inv {cert} s s' : row_keep cert s s' → jobs_inv s → jobs_inv s'.
Proof.
  intros Hstep Hi. destruct Hstep; [by eapply v1_jobs | by eapply move_jobs | by apply dispatches_jobs
    | by apply delete_jobs | ..]; by apply (jobs_inv_frame s).
Qed.

Lemma new_jobs_inv s s' : row_new s s' → jobs_inv s → jobs_inv s'.
Proof.
  intros Hstep Hi. destruct Hstep; [by apply create_v1_jobs | by apply create_jobs | ..];
    by apply (jobs_inv_frame s).
Qed.

(** ** Fires *)

(** Only the fire tables matter. *)
Lemma fires_inv_frame s s' :
  s'.(cs_fires) = s.(cs_fires) → s'.(cs_attempts) = s.(cs_attempts) →
  s'.(cs_confirmations) = s.(cs_confirmations) → fires_inv s → fires_inv s'.
Proof. intros Hf Ha Hc []. split; rewrite ?Hf, ?Ha, ?Hc; eauto. Qed.

Lemma hop_attempt_no cert jobs f f' : fire_change cert jobs f f' → f'.(fi_attempt_no) = f.(fi_attempt_no).
Proof. by intros [[-> |]|[]]. Qed.

Lemma hop_some cert jobs m m' k : fires_hop cert jobs m m' → is_some (m' !! k) = is_some (m !! k).
Proof. intros Hh. by destruct (Hh k). Qed.

Lemma hop_fires cert jobs s m : fires_hop cert jobs s.(cs_fires) m → fires_inv s → fires_inv (set_fires m s).
Proof.
  intros Hh []. split; simpl; try done.
  - intros k f' Hf'. specialize (Hh k). rewrite Hf' in Hh. inversion Hh as [f x Hhop Hf|]; subst.
    by eapply change_ok; eauto.
  - intros k f' n Hf'. specialize (Hh k). rewrite Hf' in Hh. inversion Hh as [f x Hhop Hf|]; subst.
    rewrite (hop_attempt_no _ _ _ _ Hhop). by apply fv_attempts0.
  - intros k n Hk. rewrite (hop_some _ _ _ _ _ Hh). by eapply fv_orphan0.
  - intros k Hk. rewrite (hop_some _ _ _ _ _ Hh). by apply fv_receipt0.
Qed.

Lemma removed_hop job_id j sql_now f : fire_hop f (removed_fire job_id j sql_now f).
Proof.
  unfold removed_fire. case_match eqn:E; [|apply hop_refl]. apply andb_prop in E as [_ E].
  destruct (jb_status j); apply hop_move; simpl; try done; try (by left);
    apply (open_settles f); naive_solver.
Qed.

Lemma delete_fires s id sql_now : fires_inv s → fires_inv (delete_job id sql_now s).
Proof.
  intros Hi. unfold delete_job. destruct (cs_jobs s !! id) as [j|]; [|done].
  eapply (fires_inv_frame (set_fires (removed_fire id j sql_now <$> s.(cs_fires)) s)); [done..|].
  apply (hop_fires None ∅); [|done]. apply fires_hop_fmap. intros. apply removed_hop.
Qed.

(** A fresh request identifies the attempt it is inserted with. *)
Lemma fresh_request s k0 request_id stamp :
  request_id_used request_id s = false →
  (∀ k k' a a', s.(cs_attempts) !! k = Some a → s.(cs_attempts) !! k' = Some a' →
     a.(at_dispatch_request_id) = a'.(at_dispatch_request_id) → k = k') →
  ∀ k k' a a', <[k0 := mk_attempt request_id None stamp]> s.(cs_attempts) !! k = Some a →
    <[k0 := mk_attempt request_id None stamp]> s.(cs_attempts) !! k' = Some a' →
    a.(at_dispatch_request_id) = a'.(at_dispatch_request_id) → k = k'.
Proof.
  intros Hu Hinj k k' a a'. rewrite !lookup_insert_Some.
  assert (Hne : ∀ k a, s.(cs_attempts) !! k = Some a → a.(at_dispatch_request_id) ≠ request_id).
  { intros i x Hx Hid. unfold request_id_used in Hu. rewrite existsb_false in Hu.
    specialize (Hu (i, x)). simpl in Hu. rewrite bool_decide_eq_false in Hu.
    by apply Hu; [apply elem_of_map_to_list|]. }
  intros [[-> <-]|[? Hx]] [[-> <-]|[? Hx']] Heq; simpl in *; try done; eauto.
  - by destruct (Hne _ _ Hx').
  - by destruct (Hne _ _ Hx).
Qed.

Lemma admit_fires s fire_id request_id source scope :
  s.(cs_fires) !! fire_id = None → request_id_used request_id s = false → fires_inv s →
  fires_inv (set_attempts (<[(fire_id, 1) := mk_attempt request_id None source.(fs_created_at)]> s.(cs_attempts))
    (set_identities (<[fire_id := (scope, source.(fs_message_id), source.(fs_part_id))]> s.(cs_identities))
       (set_fires (<[fire_id := new_fire source]> s.(cs_fires)) s))).
Proof.
  intros Hf Hu [].
  assert (Hno : ∀ n, s.(cs_attempts) !! (fire_id, n) = None).
  { intros n. destruct (cs_attempts s !! (fire_id, n)) eqn:E; [|done].
    specialize (fv_orphan0 fire_id n). rewrite E, Hf in fv_orphan0. by specialize (fv_orphan0 eq_refl). }
  split; simpl.
  - intros k f. rewrite lookup_insert_Some. intros [[-> <-]|[_ ?]]; [|eauto].
    split; simpl; try done; auto; lia.
  - intros k f n. rewrite lookup_insert_Some. intros [[-> <-]|[? ?]].
    + destruct (decide (n = 1)) as [->|]; [by rewrite lookup_insert_eq|].
      rewrite lookup_insert_ne, Hno by congruence. change (fi_attempt_no (new_fire source)) with 1. unfold is_some; simpl is_none. lia.
    + rewrite lookup_insert_ne by congruence. auto.
  - intros k n Hk. destruct (decide (k = fire_id)) as [->|]; [by rewrite lookup_insert_eq|].
    rewrite lookup_insert_ne by done. rewrite lookup_insert_ne in Hk by congruence. eauto.
  - by apply fresh_request.
  - intros k Hk. destruct (decide (k = fire_id)) as [->|]; [by rewrite lookup_insert_eq|].
    rewrite lookup_insert_ne by done. auto.
Qed.

Lemma bind_fires s m :
  (∀ k, option_Forall2 attempt_bound (s.(cs_attempts) !! k) (m !! k)) → fires_inv s → fires_inv (set_attempts m s).
Proof.
  intros Hm []. assert (Hs : ∀ k, is_some (m !! k) = is_some (s.(cs_attempts) !! k)) by (intros k; by destruct (Hm k)).
  split; simpl; try done.
  - intros k f n Hf. rewrite Hs. by apply fv_attempts0.
  - intros k n. rewrite Hs. by apply fv_orphan0.
  - intros k k' a a' Ha Ha' Heq. pose proof (Hm k) as Hk. pose proof (Hm k') as Hk'. rewrite Ha in Hk.
    rewrite Ha' in Hk'. inversion Hk as [x ? [E _ _] Hx|]; inversion Hk' as [x' ? [E' _ _] Hx'|]; subst.
    symmetry in Hx, Hx'. apply (fv_request0 _ _ _ _ Hx Hx'). congruence.
Qed.

Lemma retry_fires s fire_id f f' request_id stamp :
  s.(cs_fires) !! fire_id = Some f → fire_retry f f' → request_id_used request_id s = false → fires_inv s →
  fires_inv (set_confirmations (delete fire_id s.(cs_confirmations))
    (set_fires (<[fire_id := f']> s.(cs_fires))
       (set_attempts (<[(fire_id, 2) := mk_attempt request_id None stamp]> s.(cs_attempts)) s))).
Proof.
  intros Hf Hr Hu Hi. pose proof Hi as []. split; simpl.
  - intros k x. rewrite lookup_insert_Some. intros [[-> <-]|[_ ?]]; eauto using retry_ok.
  - intros k x n. rewrite lookup_insert_Some. intros [[-> <-]|[? ?]].
    + rewrite (fr_second _ _ Hr). destruct (decide (n = 2)) as [->|]; [by rewrite lookup_insert_eq|].
      rewrite lookup_insert_ne, (fv_attempts0 _ _ n Hf), (fr_first _ _ Hr) by congruence. lia.
    + rewrite lookup_insert_ne by congruence. auto.
  - intros k n Hk. destruct (decide (k = fire_id)) as [->|]; [by rewrite lookup_insert_eq|].
    rewrite lookup_insert_ne by done. rewrite lookup_insert_ne in Hk by congruence. eauto.
  - by apply fresh_request.
  - intros k Hk. destruct (decide (k = fire_id)) as [->|]; [by rewrite lookup_insert_eq|].
    rewrite lookup_insert_ne by done. rewrite lookup_delete_ne in Hk by done. auto.
Qed.

Lemma confirm_fires s fire_id f f' h stamp :
  s.(cs_fires) !! fire_id = Some f → fire_hop f f' → fires_inv s →
  fires_inv (set_fires (<[fire_id := f']> s.(cs_fires))
    (set_confirmations (<[fire_id := (h, stamp)]> s.(cs_confirmations)) s)).
Proof.
  intros Hf Hh Hi. apply (hop_fires None ∅ (set_confirmations _ s)); [by eapply fires_hop_insert|].
  destruct Hi. split; simpl; try done. intros k.
  destruct (decide (k = fire_id)) as [->|]; [by rewrite Hf | rewrite lookup_insert_ne by done; auto].
Qed.

Lemma abandon_fires s message_id : fires_inv s → fires_inv (abandon message_id s).
Proof.
  intros []. unfold abandon. split; simpl.
  - intros k f [Hf _]%map_lookup_filter_Some. eauto.
  - intros k f n [Hf Hk]%map_lookup_filter_Some. rewrite <- (fv_attempts0 _ _ n Hf).
    destruct (cs_attempts s !! (k, n)) as [a|] eqn:Ea.
    + by rewrite (map_lookup_filter_Some_2 _ _ _ _ Ea).
    + by rewrite map_lookup_filter_None_2 by auto.
  - intros k n Hk. destruct (filter _ _ !! (k, n)) as [a|] eqn:Ea; [|done].
    apply map_lookup_filter_Some in Ea as [Ea Hkept]. simpl in Hkept.
    specialize (fv_orphan0 k n). rewrite Ea in fv_orphan0. specialize (fv_orphan0 eq_refl).
    destruct (cs_fires s !! k) as [f|] eqn:Ef; [|done]. rewrite (map_lookup_filter_Some_2 _ _ k f Ef); [done|].
    simpl. by rewrite Ef.
  - intros k k' a a' [Ha _]%map_lookup_filter_Some [Ha' _]%map_lookup_filter_Some. eauto.
  - intros k Hk. destruct (filter _ _ !! k) as [c|] eqn:Ec; [|done].
    apply map_lookup_filter_Some in Ec as [Ec Hkept]. simpl in Hkept.
    specialize (fv_receipt0 k). rewrite Ec in fv_receipt0. specialize (fv_receipt0 eq_refl).
    destruct (cs_fires s !! k) as [f|] eqn:Ef; [|done]. rewrite (map_lookup_filter_Some_2 _ _ k f Ef); [done|].
    simpl. by rewrite Ef.
Qed.

Lemma keep_fires_inv {cert} s s' : row_keep cert s s' → fires_inv s → fires_inv s'.
Proof.
  intros Hstep Hi. destruct Hstep; [.. | by apply delete_fires | by eapply hop_fires | by apply bind_fires
    | by apply abandon_fires | | | |]; by apply (fires_inv_frame s).
Qed.

Lemma new_fires_inv s s' : row_new s s' → fires_inv s → fires_inv s'.
Proof.
  intros Hstep Hi. destruct Hstep; [.. | by apply admit_fires | by eapply retry_fires | by eapply confirm_fires];
    by apply (fires_inv_frame s).
Qed.

(** ** Certificates *)

Lemma certificates_inv_frame s s' :
  s'.(cs_certificates) = s.(cs_certificates) → s'.(cs_policies) = s.(cs_policies) →
  certificates_inv s → certificates_inv s'.
Proof. intros Hc Hp []. split; rewrite ?Hc, ?Hp; eauto. Qed.

Lemma record_certificates s id c policies :
  certificate_new s id c policies → certificates_inv s →
  certificates_inv (set_policies policies (set_certificates (<[id := c]> s.(cs_certificates)) s)).
Proof.
  intros [Hf Hu Hr _ He Hk Ha Ho] []. split; simpl.
  - intros k x. rewrite lookup_insert_Some. intros [[-> <-]|[_ Hx]]; eauto.
  - intros k x. rewrite lookup_insert_Some. intros [[-> <-]|[Hne Hx]]; [done|].
    destruct (ci_evidence0 _ _ Hx) as (v & rows & Hc & Hm & [Hp1 Hp2]). exists v, rows. split_and!; [done..|].
    split.
    + intros i p Hp Hid. apply Ha in Hp as [Hp|Hp]; [eauto|congruence].
    + intros i e He'. destruct (Hp2 _ _ He') as (k' & p & Hk' & ?). eauto 6.
  - intros k k' x x'. rewrite !lookup_insert_Some.
    intros [[-> <-]|[_ Hx]] [[-> <-]|[_ Hx']] Hs; [done| | |by eapply ci_unique0].
    + by destruct (Hu _ _ Hx').
    + destruct (Hu _ _ Hx). destruct Hs as (? & ? & ? & ?). by split_and!.
  - intros k p Hp. destruct (decide (pl_certificate_id p = id)) as [->|]; [by rewrite lookup_insert_eq|].
    rewrite lookup_insert_ne by done. apply Ha in Hp as [Hp|]; [eauto|done].
  - by apply Ho.
Qed.

Lemma fence_certificates s id c failure stamp :
  s.(cs_certificates) !! id = Some c → certificates_inv s →
  certificates_inv (set_certificates (<[id := fence_certificate failure stamp c]> s.(cs_certificates)) s).
Proof.
  intros Hc []. split; simpl; [..|done].
  - intros k x. rewrite lookup_insert_Some. intros [[-> <-]|[_ Hx]]; [apply (ci_row0 _ _ Hc)|eauto].
  - intros k x. rewrite lookup_insert_Some. intros [[-> <-]|[_ Hx]]; [|eauto].
    destruct (ci_evidence0 _ _ Hc) as (v & rows & [] & Hm). exists v, rows. split; [by split|done].
  - intros k k' x x'. rewrite !lookup_insert_Some.
    intros [[-> <-]|[_ Hx]] [[-> <-]|[_ Hx']] Hs; [done|by eapply (ci_unique0 _ _ c x')|by eapply (ci_unique0 _ _ x c)|].
    by eapply ci_unique0.
  - intros k p Hp. destruct (decide (pl_certificate_id p = id)) as [->|]; [by rewrite lookup_insert_eq|].
    rewrite lookup_insert_ne by done. eauto.
Qed.

Lemma keep_certificates_inv {cert} s s' : row_keep cert s s' → certificates_inv s → certificates_inv s'.
Proof.
  intros Hstep Hi. destruct Hstep; [.. | by apply record_certificates | by apply fence_certificates];
    try (by apply (certificates_inv_frame s)).
  apply (certificates_inv_frame s); [..|done]; unfold delete_job; by destruct (cs_jobs s !! job_id).
Qed.

Lemma new_certificates_inv s s' : row_new s s' → certificates_inv s → certificates_inv s'.
Proof. intros Hstep Hi. by destruct Hstep; apply (certificates_inv_frame s). Qed.

Lemma keep_inv {cert} s s' : row_keep cert s s' → queue_inv s → queue_inv s'.
Proof.
  intros Hstep (Hj & Hf & Hc). split_and!; [by eapply keep_jobs_inv | by eapply keep_fires_inv
    | by eapply keep_certificates_inv].
Qed.

Lemma keeps_inv {cert} s s' : rtc (row_keep cert) s s' → queue_inv s → queue_inv s'.
Proof. induction 1; eauto using keep_inv. Qed.

Lemma queue_step_inv s s' : queue_step s s' → queue_inv s → queue_inv s'.
Proof.
  intros (cert & [Hk|(s1 & Hk & _ & Hn)] & _)%queue_step_rows Hi; [by eapply keeps_inv|].
  pose proof (keeps_inv _ _ Hk Hi) as (Hj & Hf & Hc).
  split_and!; [by eapply new_jobs_inv | by eapply new_fires_inv | by eapply new_certificates_inv].
Qed.

(** ** Reachable stores *)

Definition empty_connect (st : SourceTables) (attachments : gset (text * text)) : connect_store :=
  mk_connect ∅ ∅ ∅ ∅ ∅ ∅ st attachments ∅ ∅.

Lemma empty_queue_inv st attachments : queue_inv (empty_connect st attachments).
Proof. split_and!; split; repeat intro; simpl in *; simplify_map_eq. Qed.

(** The stores the operations reach from an empty queue. *)
Definition queue_reachable s : Prop :=
  ∃ st attachments, rtc queue_step (empty_connect st attachments) s.

Lemma reachable_queue_inv s : queue_reachable s → queue_inv s.
Proof.
  intros (st & a & Hr). revert Hr. generalize (empty_queue_inv st a).
  intros Hi Hr. induction Hr as [|s1 s2 s3 Hstep _ IH]; [done|]. eauto using queue_step_inv.
Qed.

Lemma queue_reachable_step s s' : queue_reachable s → queue_step s s' → queue_reachable s'.
Proof. intros (st & a & Hr) Hstep. exists st, a. by eapply rtc_r. Qed.

End Invariant.
