(* ===== verification/ConnectTheorems.v ===== *)
(** * Properties of the Connect queue and of the fires *)

From S2P Require Export ConnectInvariant.
From stdpp Require Import options.

Local Open Scope Z_scope.

(** How a protocol-2 job develops: its request, provider and authority are fixed, the
    provider's word is never taken back, and a settled job no longer changes. *)
Record job_progress (j j' : ConnectJob) (d d' : dispatch_row) : Prop := {
  jp_request : j'.(jb_request) = j.(jb_request);
  jp_app : j'.(jb_provider_app_id) = j.(jb_provider_app_id);
  jp_instance : j'.(jb_provider_instance_id) = j.(jb_provider_instance_id);
  jp_authority : d'.(ds_authority) = d.(ds_authority);
  jp_rank : status_rank j.(jb_status) <= status_rank j'.(jb_status);
  jp_highest : provider_rank d.(ds_highest) <= provider_rank d'.(ds_highest);
  jp_attempts : d.(ds_attempt_count) <= d'.(ds_attempt_count);
  jp_settled : active_status j.(jb_status) = false → j' = j }.

Lemma progress_refl j d : job_progress j j d d.
Proof. by split. Qed.

Lemma progress_trans j1 j2 j3 d1 d2 d3 :
  job_progress j1 j2 d1 d2 → job_progress j2 j3 d2 d3 → job_progress j1 j3 d1 d3.
Proof.
  intros [] []. split; try congruence; try lia. intros Hs. rewrite jp_settled1; [by apply jp_settled0|].
  by rewrite jp_settled0.
Qed.

(** The moves of a fire between two stores. *)
Definition fire_edge (a b : fire_state) : Prop := fire_transition a b = true.

(** A fire that an operation on its certificate job has failed. *)
Definition failed_by_certificate (cert : option text) (f : AutomationFire) : Prop :=
  f.(fi_state) = FireFailed ∧ is_some cert = true ∧ f.(fi_job_id) = cert ∧
  ∃ failure, f.(fi_reason) = Some (failure_reason failure).

(** From a fire to a later one, in an operation that settles the certificate job [cert] (if
    any) and has removed it when [removed]: along the machine with a growing version; or,
    for a fire of that job, to failed, out of completed (with a growing version) or when
    the job was removed. *)
Record fire_path (cert : option text) (removed : Prop) (f f' : AutomationFire) : Prop := {
  fp_source : f'.(fi_source) = f.(fi_source);
  fp_version : f.(fi_version) <= f'.(fi_version);
  fp_attempt : f.(fi_attempt_no) <= f'.(fi_attempt_no);
  fp_state : rtc fire_edge f.(fi_state) f'.(fi_state) ∨
    failed_by_certificate cert f' ∧ (removed ∨ rtc fire_edge f.(fi_state) FireCompleted);
  fp_changed : f'.(fi_state) ≠ f.(fi_state) →
    f.(fi_version) < f'.(fi_version) ∨ failed_by_certificate cert f' ∧ removed;
  fp_final : fire_terminal f.(fi_state) = true →
    f'.(fi_job_id) = f.(fi_job_id) ∧
    (f'.(fi_state) = f.(fi_state) ∧ f'.(fi_version) = f.(fi_version) ∧ f'.(fi_reason) = f.(fi_reason) ∨
     failed_by_certificate cert f' ∧ (removed ∨ f.(fi_state) = FireCompleted ∨ f.(fi_state) = FireFailed)) }.

Lemma terminal_stuck a b : fire_terminal a = true → fire_transition a b = true → False.
Proof. by destruct a, b. Qed.

Lemma open_not_terminal f : fire_open f = true → fire_terminal f.(fi_state) = false.
Proof. unfold fire_open. by destruct (fi_state f). Qed.

Lemma hop_path cert removed f f' : fire_hop f f' → fire_path cert removed f f'.
Proof.
  intros [Heq|Ht Hs Hv Ha _ _ _].
  - rewrite Heq. split; simpl; try done; try lia; auto using rtc_refl.
  - split; try done; try lia; [left; by apply rtc_once|].
    intros Hf. exfalso. by eapply terminal_stuck.
Qed.

Lemma change_path cert jobs (removed : Prop) f f' :
  (∀ job_id, cert = Some job_id → jobs !! job_id = None → removed) →
  fire_change cert jobs f f' → fire_path cert removed f f'.
Proof.
  intros Hr [Hh|[job_id x Hc Hj Hst Hst' Hre Hs Hv Ha Hj' _|job_id x Hc Hj Hg Ho Hst' Hre Hs Hv Ha Hj' _]]; [by apply hop_path|..];
    (assert (failed_by_certificate cert f') as F by (rewrite Hc; split_and!; try done; [congruence|eauto])).
  - split; try done; try lia.
    + destruct Hst as [E|(E & _)]; [right; split; [done|right; rewrite E; apply rtc_refl]|left; rewrite E, Hst'; apply rtc_refl].
    + intros _. split; [done|]. right. split; [done|]. right. naive_solver.
  - assert removed by eauto. split; try done; try lia; auto.
Qed.

Lemma retry_path cert removed f f' : fire_retry f f' → fire_path cert removed f f'.
Proof.
  intros []. split; try done; try lia.
  - left. apply rtc_once. unfold fire_edge. by rewrite fr_from, fr_to.
  - by rewrite fr_from.
Qed.

Lemma path_refl cert removed f : fire_path cert removed f f.
Proof. split; try done; try lia; auto using rtc_refl. Qed.

Lemma path_weaken cert (removed removed' : Prop) f f' : (removed → removed') → fire_path cert removed f f' → fire_path cert removed' f f'.
Proof. intros Hw []. split; try done; naive_solver. Qed.

Lemma failed_stays cert removed f f' : failed_by_certificate cert f → fire_path cert removed f f' → failed_by_certificate cert f'.
Proof.
  intros (Hs & Hc & Hj & x & Hre) []. rewrite Hs in fp_final0. destruct (fp_final0 eq_refl) as (Hj' & [(Hst & _ & Hre')|[? _]]); [|done].
  split_and!; [congruence|done|congruence|]. exists x. congruence.
Qed.

Lemma path_trans cert removed f1 f2 f3 :
  fire_path cert removed f1 f2 → fire_path cert removed f2 f3 → fire_path cert removed f1 f3.
Proof.
  intros H12 H23. pose proof H12 as []. pose proof H23 as [].
  split; try congruence; try lia.
  - destruct fp_state0 as [E1|[F Hw]]; [|right; split; [by eapply failed_stays|done]].
    destruct fp_state1 as [E2|[F [Hw|E2]]]; [left; by etrans|right; auto|].
    right. split; [done|]. right. by etrans.
  - intros Hne. destruct (decide (fi_state f2 = fi_state f1)) as [E|E].
    + rewrite <- E in Hne. destruct (fp_changed1 Hne); [left; lia | by right].
    + destruct (fp_changed0 E) as [?|[F ?]]; [left; lia | right; split; [by eapply failed_stays|done]].
  - intros Hf. destruct (fp_final0 Hf) as (Hj & [(Hs & Hv & Hre)|[F Hw]]).
    + rewrite Hs in fp_final1. destruct (fp_final1 Hf) as (Hj' & [(Hs' & Hv' & Hre')|F]).
      * split; [congruence|]. left. split_and!; congruence.
      * split; [congruence|]. by right.
    + pose proof F as (Hs & _). rewrite Hs in fp_final1. destruct (fp_final1 eq_refl) as (Hj' & _).
      split; [congruence|]. right. split; [by eapply failed_stays|done].
Qed.

Section Theorems.
Context `{Unicode} `{ConnectLib}.
Implicit Types s : connect_store.

(** ** Jobs *)

Lemma move_progress j j' d d' :
  job_move j j' d d' → stage_ok j.(jb_status) d = true → j.(jb_request).(jr_v2) = true → job_progress j j' d d'.
Proof. intros [] Hst Hv. destruct (jm_provider Hv). split; auto. Qed.

Lemma keep_progress {cert} s s' id j' d' :
  row_keep cert s s' → queue_inv s → s'.(cs_jobs) !! id = Some j' → s'.(cs_dispatch) !! id = Some d' →
  ∃ j d, s.(cs_jobs) !! id = Some j ∧ s.(cs_dispatch) !! id = Some d ∧ job_progress j j' d d'.
Proof.
  intros Hstep [[_ Hd Hown Hst _] _] Hj' Hd'.
  assert (Hsame : s.(cs_jobs) !! id = Some j' → s.(cs_dispatch) !! id = Some d' →
    ∃ j d, s.(cs_jobs) !! id = Some j ∧ s.(cs_dispatch) !! id = Some d ∧ job_progress j j' d d')
    by (intros; eexists _, _; eauto using progress_refl).
  destruct Hstep as [k j x Hj Hv Hr _ _|k j x d y Hj Hdd Hm|m Hm|k ?| | | | | | |]; simpl in *; auto.
  - apply lookup_insert_Some in Hj' as [[-> <-]|[_ Hj']]; [|auto].
    specialize (Hd _ _ Hj). rewrite Hd', Hv in Hd. done.
  - apply lookup_insert_Some in Hj' as [[-> <-]|[? Hj']].
    + rewrite lookup_insert_eq in Hd'. simplify_eq. exists j, d. split_and!; try done.
      apply move_progress; [done | by eapply Hst |]. rewrite <- (Hd _ _ Hj), Hdd. done.
    + rewrite lookup_insert_ne in Hd' by done. auto.
  - specialize (Hm id). rewrite Hd' in Hm. inversion Hm as [d x Hmv Hdd|]; subst. symmetry in Hdd.
    exists j', d. split_and!; try done. apply move_progress; [by apply Hmv | by eapply Hst |].
    rewrite <- (Hd _ _ Hj'), Hdd. done.
  - unfold delete_job in *. destruct (cs_jobs s !! k) eqn:E; [|auto]. simpl in *.
    apply lookup_delete_Some in Hj' as [? ?], Hd' as [_ ?]. auto.
Qed.

Lemma keeps_progress {cert} s s' id j' d' :
  rtc (row_keep cert) s s' → queue_inv s → s'.(cs_jobs) !! id = Some j' → s'.(cs_dispatch) !! id = Some d' →
  ∃ j d, s.(cs_jobs) !! id = Some j ∧ s.(cs_dispatch) !! id = Some d ∧ job_progress j j' d d'.
Proof.
  intros Hr. revert j' d'. induction Hr as [|s1 s2 s3 Hk _ IH]; intros j' d' Hi Hj Hd;
    [eexists _, _; eauto using progress_refl|].
  destruct (IH _ _ (keep_inv _ _ Hk Hi) Hj Hd) as (j2 & d2 & Hj2 & Hd2 & Hp2).
  destruct (keep_progress _ _ _ _ _ Hk Hi Hj2 Hd2) as (j1 & d1 & Hj1 & Hd1 & Hp1).
  eexists _, _. split_and!; [done..|]. by eapply progress_trans.
Qed.

(** A job that is there before and after an operation has progressed. *)
Lemma step_progress s s' id j j' d d' :
  queue_step s s' → queue_inv s →
  s.(cs_jobs) !! id = Some j → s.(cs_dispatch) !! id = Some d →
  s'.(cs_jobs) !! id = Some j' → s'.(cs_dispatch) !! id = Some d' → job_progress j j' d d'.
Proof.
  intros Hstep Hi Hj Hd Hj' Hd'.
  assert (Hkeep : ∀ cert s1, rtc (row_keep cert) s s1 → s1.(cs_jobs) !! id = Some j' → s1.(cs_dispatch) !! id = Some d' →
    job_progress j j' d d').
  { intros cert s1 Hr E1 E2. destruct (keeps_progress _ _ _ _ _ Hr Hi E1 E2) as (? & ? & ? & ? & ?). by simplify_eq. }
  apply queue_step_rows in Hstep as (cert & [Hk|(s1 & Hk & Hpres & Hn)] & _); [eauto|].
  apply (Hkeep cert s1); [done|..]; specialize (jk_jobs _ _ Hpres id) as Hid; rewrite Hj in Hid.
  - destruct Hn as [k x [Hf _ _ _]|k x y [Hf _ _ _]| | |]; simpl in *; try done;
      apply lookup_insert_Some in Hj' as [[-> _]|[_ ?]]; try done; by rewrite Hf in Hid.
  - destruct Hn as [|k x y [Hf _ _ _]| | |]; simpl in *; try done;
      apply lookup_insert_Some in Hd' as [[-> _]|[_ ?]]; try done; by rewrite Hf in Hid.
Qed.

Lemma reset_needs_requested id expected app instance now s r s' d :
  reset_connect_job_for_resubmission id expected app instance now s = Ret (r, s') →
  queue_inv s → s.(cs_dispatch) !! id = Some d → d.(ds_highest) = PRequested.
Proof.
  unfold reset_connect_job_for_resubmission. intros Hop [[_ Hv Hown _ _] _] Hd.
  apply bind_ret_inv in Hop as (? & _ & Hop). cbv zeta in Hop.
  apply bind_ret_inv in Hop as (j & Hj & Hop). apply require_some_ret_inv in Hj.
  do 2 (apply bind_ret_inv in Hop as (? & _ & Hop)).
  apply bind_ret_inv in Hop as (? & Hg & _). specialize (Hv _ _ Hj). rewrite Hd in Hv.
  rewrite <- Hv in Hg. simpl in Hg. rewrite Hd in Hg. peel. simplify_eq. bools. done.
Qed.

Lemma stage_waiting (status : job_status) d : stage_ok status d = true → d.(ds_state) = Waiting → d.(ds_highest) = PRequested.
Proof. unfold stage_ok. intros Hok Hw. rewrite Hw in Hok. by bools. Qed.

(** C15: In every reachable store a protocol-2 job that survives an operation keeps its request, provider
    and authority, its status and the furthest provider state only advance, and once settled it no longer
    changes; a job the provider has accepted never waits for dispatch again, and resetting it for
    resubmission raises. *)
Theorem provider_work_never_rewound s s' id j j' d d' :
  queue_reachable s → queue_step s s' →
  s.(cs_jobs) !! id = Some j → s.(cs_dispatch) !! id = Some d →
  s'.(cs_jobs) !! id = Some j' → s'.(cs_dispatch) !! id = Some d' →
  job_progress j j' d d' ∧
  (d.(ds_highest) ≠ PRequested →
   d'.(ds_state) ≠ Waiting ∧
   ∀ expected app instance now, is_ret (reset_connect_job_for_resubmission id expected app instance now s) = false).
Proof.
  intros Hr Hstep Hj Hd Hj' Hd'. pose proof (reachable_queue_inv _ Hr) as Hi.
  pose proof (step_progress _ _ _ _ _ _ _ Hstep Hi Hj Hd Hj' Hd') as Hp. split; [done|].
  intros Hh. split.
  - intros Hw. destruct (queue_step_inv _ _ Hstep Hi) as [[_ _ _ Hst _] _].
    pose proof (stage_waiting _ _ (Hst _ _ _ Hj' Hd') Hw) as Hh'. destruct Hp as [_ _ _ _ _ Hle _ _].
    rewrite Hh' in Hle. destruct (ds_highest d); simpl in Hle; [done|lia..].
  - intros *. destruct (reset_connect_job_for_resubmission id expected app instance now s) as [[r s2]|] eqn:E; [|done].
    by destruct Hh; eapply reset_needs_requested.
Qed.

(** C16: Every store the queue reaches is sound: rows satisfy their constraints, every protocol-2 job has one
    dispatch whose state agrees with its status (what waits was never submitted nor accepted, what is in flight
    may have been), no two active jobs have the same invocation, submitted fires have a job, attempts are
    numbered 1 to the current one (two at most), prepared hashes are those of the prepared bytes, dispatch
    requests are unique, and every certificate stands for a validated record, has exactly the policy rows of that
    record and is the only one of its source and job. *)
Theorem connect_queue_sound s : queue_reachable s → queue_inv s.
Proof. apply reachable_queue_inv. Qed.

(** ** Fires *)

(** What a kept fire went through, and which fires may go. *)
Definition fire_kept (cert : option text) (removed : Prop) (f : AutomationFire) (o : option AutomationFire) : Prop :=
  match o with Some f' => fire_path cert removed f f' | None => fire_terminal f.(fi_state) = false end.

(** The job of an operation is gone. *)
Definition job_removed (cert : option text) s : Prop := ∃ job_id, cert = Some job_id ∧ s.(cs_jobs) !! job_id = None.

Lemma kept_refl cert removed f : fire_kept cert removed f (Some f).
Proof. apply path_refl. Qed.

Lemma hops_kept cert jobs (removed : Prop) m m' k f :
  (∀ job_id, cert = Some job_id → jobs !! job_id = None → removed) →
  fires_hop cert jobs m m' → m !! k = Some f → fire_kept cert removed f (m' !! k).
Proof. intros Hr Hh Hf. specialize (Hh k). rewrite Hf in Hh. inversion Hh; subst. by eapply change_path. Qed.

Lemma keep_removed {cert} s s' : row_keep cert s s' → job_removed cert s → job_removed cert s'.
Proof.
  intros Hstep (job_id & Hc & Hn). exists job_id. split; [done|].
  destruct Hstep as [k j x Hj _ _ _ _|k j x d y Hj _ _|m Hm|k ?| | | | | | |]; simpl; try done.
  - rewrite lookup_insert_ne; [done|congruence].
  - rewrite lookup_insert_ne; [done|congruence].
  - unfold delete_job. destruct (cs_jobs s !! k); simpl; [|done]. by apply lookup_delete_None; right.
Qed.

Lemma keep_fires {cert} s s' k f :
  row_keep cert s s' → s.(cs_fires) !! k = Some f → fire_kept cert (job_removed cert s') f (s'.(cs_fires) !! k).
Proof.
  intros Hstep Hf. destruct Hstep as [| | |id now|m Hh| |message_id| | | |]; simpl;
    try (rewrite Hf; apply kept_refl).
  - unfold delete_job. destruct (cs_jobs s !! id) as [j|]; simpl; [|rewrite Hf; apply kept_refl].
    rewrite lookup_fmap, Hf. simpl. apply hop_path, removed_hop.
  - eapply hops_kept; [|done|done]. intros job_id Hc Hn. by exists job_id.
  - destruct (filter _ _ !! k) as [f'|] eqn:E.
    + apply map_lookup_filter_Some in E as [E _]. rewrite Hf in E. simplify_eq. apply kept_refl.
    + rewrite map_lookup_filter_None in E. destruct E as [E|E]; [by rewrite Hf in E|].
      specialize (E _ Hf). simpl in E. rewrite Hf in E. unfold fire_abandoned in E. simpl.
      destruct (fi_state f); try done; by rewrite andb_false_r in E.
Qed.

Lemma kept_trans cert removed f f' o : fire_path cert removed f f' → fire_kept cert removed f' o → fire_kept cert removed f o.
Proof.
  intros Hp. destruct o as [f''|]; simpl; [by apply path_trans|]. intros Ht.
  destruct (fire_terminal (fi_state f)) eqn:E; [|done]. destruct Hp as [_ _ _ _ _ Hfin].
  destruct (Hfin E) as (_ & [[Hs _]|[[Hs _] _]]); rewrite Hs in Ht; [congruence | done].
Qed.

Lemma keep_none {cert} s s' k : row_keep cert s s' → s.(cs_fires) !! k = None → s'.(cs_fires) !! k = None.
Proof.
  intros Hstep Hf. destruct Hstep as [| | |id now|m Hh| |message_id| | | |]; simpl; try done.
  - unfold delete_job. destruct (cs_jobs s !! id); simpl; [by rewrite lookup_fmap, Hf | done].
  - specialize (Hh k). rewrite Hf in Hh. by inversion Hh.
  - apply map_lookup_filter_None_2. by left.
Qed.

Lemma keeps_none {cert} s s' k : rtc (row_keep cert) s s' → s.(cs_fires) !! k = None → s'.(cs_fires) !! k = None.
Proof. induction 1; eauto using keep_none. Qed.

Lemma keeps_removed {cert} s s' : rtc (row_keep cert) s s' → job_removed cert s → job_removed cert s'.
Proof. induction 1; eauto using keep_removed. Qed.

Lemma keeps_fires {cert} s s' k f :
  rtc (row_keep cert) s s' → s.(cs_fires) !! k = Some f → fire_kept cert (job_removed cert s') f (s'.(cs_fires) !! k).
Proof.
  intros Hr. revert f. induction Hr as [s|s1 s2 s3 Hk Hrest IH]; intros f Hf; [rewrite Hf; apply kept_refl|].
  pose proof (keep_fires _ _ _ _ Hk Hf) as H12. destruct (cs_fires s2 !! k) as [f2|] eqn:E2.
  - eapply kept_trans; [|by apply IH]. eapply path_weaken; [|exact H12]. by apply keeps_removed.
  - by rewrite (keeps_none _ _ _ Hrest E2).
Qed.

Lemma new_fires cert removed s s' k f : row_new s s' → s.(cs_fires) !! k = Some f → fire_kept cert removed f (s'.(cs_fires) !! k).
Proof.
  intros Hn Hf. destruct Hn as [| |k' ? ? ? Hno _ _|k' x y ? ? Hx Hr _ _ _|k' x y ? ? Hx _ _ _ Hh]; simpl;
    try (rewrite Hf; apply kept_refl); destruct (decide (k = k')) as [->|];
    rewrite ?lookup_insert_eq, ?lookup_insert_ne by done; simplify_eq; try (rewrite Hf; apply kept_refl); simpl.
  - by apply retry_path.
  - by apply hop_path.
Qed.

(** A fire that follows AUTOMATION_FIRE_TRANSITIONS. *)
Record fire_followed (f f' : AutomationFire) : Prop := {
  ff_source : f'.(fi_source) = f.(fi_source);
  ff_state : rtc fire_edge f.(fi_state) f'.(fi_state);
  ff_version : f.(fi_version) <= f'.(fi_version);
  ff_changed : f'.(fi_state) ≠ f.(fi_state) → f.(fi_version) < f'.(fi_version);
  ff_attempt : f.(fi_attempt_no) <= f'.(fi_attempt_no);
  ff_final : fire_terminal f.(fi_state) = true →
    f'.(fi_job_id) = f.(fi_job_id) ∧ f'.(fi_state) = f.(fi_state) ∧ f'.(fi_version) = f.(fi_version) ∧
    f'.(fi_reason) = f.(fi_reason) }.

Lemma path_followed removed f f' : fire_path None removed f f' → fire_followed f f'.
Proof.
  intros [Hs Hv Ha Hst Hc Hf]. split; try done.
  - by destruct Hst as [?|[(_ & ? & _) _]].
  - intros Hne. by destruct (Hc Hne) as [?|[(_ & ? & _) _]].
  - intros Ht. by destruct (Hf Ht) as (? & [(? & ? & ?)|[(_ & ? & _) _]]).
Qed.

(** A path that does not end in a certificate failure follows the machine. *)
Lemma path_or_failed cert removed f f' : fire_path cert removed f f' → fire_followed f f' ∨ failed_by_certificate cert f'.
Proof.
  intros [Hs Hv Ha Hst Hc Hf].
  destruct Hst as [Hst|[F _]]; [|by right].
  destruct (decide (fi_state f' = fi_state f)) as [E|E].
  - destruct (fire_terminal (fi_state f)) eqn:Ht.
    + destruct (Hf eq_refl) as (Hj & [(_ & Hv' & Hr)|[F _]]); [|by right]. left. by split.
    + left. split; try done. congruence.
  - destruct (Hc E) as [Hlt|[F _]]; [|by right]. destruct (fire_terminal (fi_state f)) eqn:Ht.
    + destruct (Hf eq_refl) as (_ & [(E' & _)|[F _]]); [done|by right].
    + left. split; try done. congruence.
Qed.

Lemma queue_step_kept s s' k f :
  queue_step s s' → s.(cs_fires) !! k = Some f →
  ∃ cert, fire_kept cert (job_removed cert s') f (s'.(cs_fires) !! k) ∧ ∀ job_id, cert = Some job_id → certificate_step job_id s s'.
Proof.
  intros (cert & [Hk|(s1 & Hk & Hs1 & Hn)] & Hc)%queue_step_rows Hf; exists cert; (split; [|done]); [by eapply keeps_fires|].
  rewrite <- (jk_fires _ _ Hs1) in Hf. by eapply new_fires.
Qed.


(** The receipts after a transaction of row steps were there before. *)
Definition receipts_kept s s' : Prop :=
  ∀ k c, s'.(cs_confirmations) !! k = Some c → s.(cs_confirmations) !! k = Some c.

Lemma keep_receipts {cert} s s' : row_keep cert s s' → receipts_kept s s'.
Proof.
  intros Hstep k c. destruct Hstep; simpl; try done.
  - unfold delete_job. by destruct (cs_jobs s !! job_id).
  - by intros [? _]%map_lookup_filter_Some.
Qed.

Lemma keeps_receipts {cert} s s' : rtc (row_keep cert) s s' → receipts_kept s s'.
Proof. induction 1 as [|s1 s2 s3 Hk _ IH]; intros k c; [done|]. intros Hc. by apply (keep_receipts _ _ Hk), IH. Qed.

Lemma create_receipts n now s r s' : create_connect_job n now s = Ret (r, s') → receipts_kept s s'.
Proof.
  intros (j & a & Hop & _)%create_inv. unfold place_job in Hop. intros k c.
  assert (Hs1 : ∀ stamp, (if jr_v2 (jb_request j) then (_expire_waiting_connect_jobs_transaction stamp s).2
    else s).(cs_confirmations) = s.(cs_confirmations))
    by (intros stamp; destruct (jr_v2 _); [apply (jk_confirmations _ _ (expire_kept stamp s)) | done]).
  rewrite <- (Hs1 (isoformat (utc now))). clear Hs1.
  destruct (head _) as [[? ?]|]; [peel; by simplify_eq|].
  apply bind_ret_inv in Hop as (? & _ & Hop). apply bind_ret_inv in Hop as (s2 & Hins & Hop). simplify_eq.
  unfold insert_job in Hins. peel; by simplify_eq.
Qed.

(** Receipts are kept by every step that is not a confirming decision. *)
Lemma step_receipts s s' :
  queue_step s s' →
  receipts_kept s s' ∨ ∃ k version h now r, decide_automation_fire k version h true now s = Ret (r, s').
Proof.
  destruct 1 as [n now r s' Hop| | | | |job_id ? ? ? ? ? ? ? ? ? ? ? Hop|job_id ? ? ? ? ? ? ? Hop|job_id ? ? ? ? ? Hop| | |k version h confirmed now r s' Hop| | | |
    |? version ? now r s' Hop|fire_id request_id source scope known s' Hop| | |].
  17: { left. unfold insert_fire in Hop. peel. simplify_eq. by intros k c. }
  16: { left. apply retry_inv in Hop as (f & _ & _ & _ & _ & _ & _ & ->). intros k c. simpl.
        by intros [_ ?]%lookup_delete_Some. }
  11: { destruct confirmed; [right; by eexists _, _, _, _, _|]. left.
       apply decide_inv in Hop as (f & _ & _ & _ & _ & _ & _ & _ & _ & ->). by intros k' c. }
  1: { left. by eapply create_receipts. }
  all: left.
  5: { apply (keeps_receipts (cert := Some job_id)). by eapply transition_rows. }
  5: { apply (keeps_receipts (cert := Some job_id)). by eapply replay_rows. }
  5: { apply (keeps_receipts (cert := Some job_id)). by eapply join_certificate_rows. }
  all: apply (keeps_receipts (cert := None)).
  - by eapply heads_rows.
  - apply expire_rows.
  - by eapply claim_rows.
  - by eapply defer_rows.
  - by eapply reset_rows.
  - by eapply fire_transition_rows.
  - by eapply touch_rows.
  - by eapply pause_interactive_rows.
  - by eapply authorize_rows.
  - by eapply resume_rows.
  - apply unavailable_rows.
  - apply messages_delete_rows.
  - apply rtc_once, row_sources.
Qed.

(** C27: A confirmation receipt appears only by a decision: the step is decide_automation_fire with
    confirmed set, on a fire that was awaiting confirmation of exactly the prepared identity the
    receipt names, and from then on the fire's confirmation matches. *)
Theorem receipt_needs_decision s s' k h t :
  queue_reachable s → queue_step s s' → s'.(cs_confirmations) !! k = Some (h, t) →
  s.(cs_confirmations) !! k = Some (h, t) ∨
  ∃ f f' b now, s.(cs_fires) !! k = Some f ∧ f.(fi_state) = AwaitingConfirmation ∧
    f.(fi_prepared) = Some (h, b) ∧ h = Sha256.hexdigest b ∧
    decide_automation_fire k f.(fi_version) h true now s = Ret (f', s') ∧
    s'.(cs_fires) !! k = Some f' ∧ automation_confirmation_matches k f' s' = true.
Proof.
  intros Hr Hstep Hc. pose proof (reachable_queue_inv _ Hr) as (_ & Hfv & _).
  apply step_receipts in Hstep as [Hk|(k' & version & h' & now & f' & Hop)]; [left; by apply Hk|].
  pose proof (decide_inv _ _ _ _ _ _ _ _ Hop) as (f & Hf & Hst & Hv & Hp & Hp' & Hcf & _ & _ & Hs').
  rewrite Hs' in Hc. simpl in Hc. apply lookup_insert_Some in Hc as [[-> Heq]|[_ ?]]; [|by left].
  right. injection Heq as -> <-. destruct (fi_prepared f) as [[h0 b]|] eqn:Ep; [|done]. injection Hp as ->.
  exists f, f', b, now. rewrite Hv. split_and!; try done.
  - by eapply (fk_prepared _ (fv_fire _ Hfv _ _ Hf)).
  - rewrite Hs'. simpl. by rewrite lookup_insert_eq.
  - unfold automation_confirmation_matches. rewrite Hp', Hcf, Hs'. simpl.
    by rewrite lookup_insert_eq, bool_decide_eq_true_2.
Qed.

(** ** Retry *)

(** The proof of failure a retry needs: the job failed before the provider ever accepted it, or
    the provider was busy, says so, and the capability is known to have no external effects. *)
Definition failure_proven (j : ConnectJob) (d : dispatch_row) : Prop :=
  j.(jb_status) = Failed ∧
  ((j.(jb_error).(er_code) = Some (str "connect_queue_deadline_exceeded") ∧ d.(ds_highest) = PRequested) ∨
   (j.(jb_error).(er_code) = Some (str "PROVIDER_RESOURCE_BUSY") ∧ j.(jb_error).(er_retryable) = Some true ∧
    d.(ds_authority).(da_authority_known) = true ∧ d.(ds_authority).(da_external_effects) = false)).

Lemma retry_kind_proven f j d k : _automation_failure_retry_kind (Some (f, j, d)) = Some k → failure_proven j d.
Proof.
  unfold _automation_failure_retry_kind, failure_kind. intros Hk. repeat case_match; bools; simplify_eq; split; auto.
Qed.

(** C29: A fire is retried only when it is submitted, at the expected version, on its first attempt, and its
    job has failed with proof that no work was or will be done; the retry starts the second attempt under a
    fresh dispatch request, withdraws the confirmation and the prepared identity, and no later retry of the
    fire returns while it is on that attempt. *)
Theorem retry_needs_proof s s' k version request_id now f' :
  queue_reachable s → retry_automation_fire_after_failure k version request_id now s = Ret (f', s') →
  (∃ f j d job_id, s.(cs_fires) !! k = Some f ∧ f.(fi_state) = Submitted ∧ f.(fi_version) = version ∧
     f.(fi_attempt_no) = 1 ∧ f.(fi_job_id) = Some job_id ∧ s.(cs_jobs) !! job_id = Some j ∧
     s.(cs_dispatch) !! job_id = Some d ∧ failure_proven j d) ∧
  s'.(cs_fires) !! k = Some f' ∧ f'.(fi_state) = PendingDispatch ∧ f'.(fi_attempt_no) = 2 ∧
  s'.(cs_attempts) !! (k, 2) = Some (mk_attempt request_id None (isoformat (utc now))) ∧
  (∀ n a, s.(cs_attempts) !! (k, n) = Some a → s'.(cs_attempts) !! (k, n) = Some a ∧
     a.(at_dispatch_request_id) ≠ request_id) ∧
  s'.(cs_confirmations) !! k = None ∧ f'.(fi_prepared) = None ∧
  ∀ t g v r u, t.(cs_fires) !! k = Some g → g.(fi_attempt_no) = 2 →
    is_ret (retry_automation_fire_after_failure k v r u t) = false.
Proof.
  intros Hr Hop. pose proof (retry_inv _ _ _ _ _ _ _ Hop) as (f & Hf & Hv & Hretry & Hkind & Hno & Hu & Hs').
  pose proof Hretry as [Hst Hst' _ _ H1a H2a _ Hp _].
  split_and!; try (rewrite Hs'; simpl; by rewrite ?lookup_insert_eq, ?lookup_delete_eq); try done.
  - unfold automation_fire_retry_kind in Hkind.
    destruct (_automation_fire_retry_row k s) as [[[g j] d]|] eqn:Erow; [|done].
    pose proof (retry_row_inv _ _ _ _ _ Erow) as (Hg & job_id & Hjob & Hj & Hd). simplify_eq.
    destruct (_automation_failure_retry_kind _) as [kind|] eqn:Ek; [|done].
    exists f, j, d, job_id. split_and!; try done. by eapply retry_kind_proven.
  - intros n a Ha. rewrite Hs'. simpl. split.
    + rewrite lookup_insert_ne; [done|]. intros [= <-]. congruence.
    + intros Heq. unfold request_id_used in Hu. rewrite existsb_false in Hu. specialize (Hu ((k, n), a)).
      simpl in Hu. rewrite bool_decide_eq_false in Hu. apply Hu; [by apply elem_of_map_to_list | done].
  - intros t g v r u Hg Htwo. destruct (retry_automation_fire_after_failure k v r u t) as [[? ?]|] eqn:E; [|done].
    apply retry_inv in E as (g' & Hg' & _ & [_ _ _ _ Hone _ _ _ _] & _). simplify_eq. lia.
Qed.

(** ** A settled fire rewritten

    The last statement of [_discard_settled_source_less_certificate_job] has no condition on
    the state: a fire of the job that was left for review becomes failed, at the same version. *)
Lemma discard_overwrites_review id r stamp sql_now s s' d k f :
  s.(cs_dispatch) !! id = Some d → d.(ds_source_available) = false →
  existsb (fun e => fire_open e.2) (linked_fires id s) = false →
  s.(cs_fires) !! k = Some f → f.(fi_job_id) = Some id → f.(fi_state) = ManualReview →
  _discard_settled_source_less_certificate_job id (Some r) stamp sql_now s = Ret (true, s') →
  ∃ f', s'.(cs_fires) !! k = Some f' ∧ f'.(fi_state) = FireFailed ∧ f'.(fi_version) = f.(fi_version).
Proof.
  intros Hd Hs Ho Hf Hfj _ Hop. unfold _discard_settled_source_less_certificate_job in Hop.
  rewrite Hd, Hs, Ho in Hop. simpl in Hop. peel. simplify_eq. simpl.
  rewrite lookup_fmap, (delete_job_fires _ _ _ Ho), Hf. simpl. rewrite Hfj. simpl.
  rewrite bool_decide_eq_true_2 by done. eexists. by split_and!.
Qed.

End Theorems.
