(* ===== verification/QueueTheorems.v ===== *)
(** * Properties of the queue: expiry, claims, deadlines, creation and loss of sources *)

From S2P Require Export ConnectTheorems IsoTimeFacts.
From stdpp Require Import options.

Local Open Scope Z_scope.

Section Queue.
Context `{Unicode} `{ConnectLib}.
Implicit Types s : connect_store.

(** ** Expiry *)

(** What the expiry leaves of a job and of its dispatch. *)
Definition expire_result (stamp : text) s (job_id : text) : option ConnectJob * option dispatch_row :=
  match s.(cs_jobs) !! job_id, s.(cs_dispatch) !! job_id with
  | Some j, Some d =>
      if expirable stamp (job_id, (j, d)) then (Some (expired_job stamp j), Some (expired_dispatch stamp d))
      else (Some j, Some d)
  | o, o' => (o, o')
  end.

Lemma expire_job_other stamp s k id : k ≠ id →
  (expire_job stamp s k).(cs_jobs) !! id = s.(cs_jobs) !! id ∧
  (expire_job stamp s k).(cs_dispatch) !! id = s.(cs_dispatch) !! id.
Proof. intros Hne. unfold expire_job. simpl. by rewrite !lookup_alter_ne. Qed.

Lemma expire_fold_other stamp l s id : id ∉ l →
  (fold_left (expire_job stamp) l s).(cs_jobs) !! id = s.(cs_jobs) !! id ∧
  (fold_left (expire_job stamp) l s).(cs_dispatch) !! id = s.(cs_dispatch) !! id.
Proof.
  revert s. induction l as [|k l IH]; intros s Hid; [done|]. simpl.
  rewrite list.not_elem_of_cons in Hid. destruct Hid as [Hne Hid].
  destruct (IH (expire_job stamp s k) Hid) as [-> ->]. by apply expire_job_other.
Qed.

Lemma expire_fold_in stamp l s id j d :
  NoDup l → id ∈ l → s.(cs_jobs) !! id = Some j → s.(cs_dispatch) !! id = Some d →
  expirable stamp (id, (j, d)) = true →
  (fold_left (expire_job stamp) l s).(cs_jobs) !! id = Some (expired_job stamp j) ∧
  (fold_left (expire_job stamp) l s).(cs_dispatch) !! id = Some (expired_dispatch stamp d).
Proof.
  revert s. induction l as [|k l IH]; intros s Hn Hid Hj Hd He; [by apply not_elem_of_nil in Hid|].
  apply list.NoDup_cons in Hn as [Hk Hn]. simpl. destruct (decide (k = id)) as [->|Hne].
  - destruct (expire_fold_other stamp l (expire_job stamp s id) id Hk) as [-> ->].
    rewrite (expire_job_eq _ _ _ _ _ Hj Hd He). simpl. by rewrite !lookup_insert_eq.
  - apply elem_of_cons in Hid as [->|Hid]; [done|].
    destruct (expire_job_other stamp s k id Hne) as [Ej Ed]. apply IH; [done..|by rewrite Ej|by rewrite Ed|done].
Qed.

Lemma expiring_spec stamp s id :
  id ∈ (_expire_waiting_connect_jobs_transaction stamp s).1 ↔
  ∃ j d, s.(cs_jobs) !! id = Some j ∧ s.(cs_dispatch) !! id = Some d ∧ expirable stamp (id, (j, d)) = true.
Proof.
  unfold _expire_waiting_connect_jobs_transaction. simpl. rewrite sort_by_perm, list_elem_of_fmap. split.
  - intros ([k [j d]] & -> & Hin%elem_of_filter_b). destruct Hin as [Hin%elem_of_joined He]. naive_solver.
  - intros (j & d & Hj & Hd & He). exists (id, (j, d)). split; [done|].
    apply elem_of_filter_b. by rewrite elem_of_joined.
Qed.

Lemma expire_lookup stamp s id :
  let s' := (_expire_waiting_connect_jobs_transaction stamp s).2 in
  (s'.(cs_jobs) !! id, s'.(cs_dispatch) !! id) = expire_result stamp s id.
Proof.
  simpl. unfold expire_result.
  destruct (decide (id ∈ (_expire_waiting_connect_jobs_transaction stamp s).1)) as [Hin|Hout].
  - pose proof Hin as (j & d & Hj & Hd & He)%expiring_spec. rewrite Hj, Hd, He.
    destruct (expire_fold_in stamp _ s id j d (expiring_nodup stamp s) Hin Hj Hd He) as [E1 E2].
    simpl in E1, E2. by rewrite E1, E2.
  - destruct (expire_fold_other stamp _ s id Hout) as [E1 E2]. simpl in E1, E2. rewrite E1, E2.
    rewrite expiring_spec in Hout.
    destruct (cs_jobs s !! id) as [j|], (cs_dispatch s !! id) as [d|]; try done.
    destruct (expirable stamp (id, (j, d))) eqn:He; [|done]. destruct Hout. by exists j, d.
Qed.

(** Expiry fails exactly the protocol-2 jobs that wait, were never submitted, are not paused and whose
    admission deadline has passed: each gets the deadline error and a terminal dispatch, is reported once, and
    every other row of every table is as before. *)
Theorem expiry_exact now s ids s' :
  expire_waiting_connect_jobs now s = (ids, s') →
  let stamp := isoformat (utc now) in
  NoDup ids ∧
  (∀ id, id ∈ ids ↔ ∃ j d, s.(cs_jobs) !! id = Some j ∧ s.(cs_dispatch) !! id = Some d ∧
     j.(jb_request).(jr_v2) = true ∧ j.(jb_status) = Requested ∧ d.(ds_state) = Waiting ∧
     d.(ds_submission_possible) = false ∧ d.(ds_paused_at) = None ∧ deadline_passed stamp d = true) ∧
  (∀ id, id ∉ ids → s'.(cs_jobs) !! id = s.(cs_jobs) !! id ∧ s'.(cs_dispatch) !! id = s.(cs_dispatch) !! id) ∧
  (∀ id j d, id ∈ ids → s.(cs_jobs) !! id = Some j → s.(cs_dispatch) !! id = Some d →
     s'.(cs_jobs) !! id = Some (with_status Failed deadline_error stamp j) ∧
     s'.(cs_dispatch) !! id = Some (with_state Terminal None false stamp d)) ∧
  s'.(cs_fires) = s.(cs_fires) ∧ s'.(cs_attempts) = s.(cs_attempts) ∧
  s'.(cs_confirmations) = s.(cs_confirmations).
Proof.
  intros Heq stamp. unfold expire_waiting_connect_jobs in Heq. fold stamp in Heq.
  pose proof (f_equal fst Heq) as Hids. pose proof (f_equal snd Heq) as Hs. simpl in Hids, Hs.
  pose proof (expire_kept stamp s) as [_ K1 K2 K3 _ _]. rewrite Heq in K1, K2, K3. simpl in K1, K2, K3.
  assert (Hlook : ∀ id, (s'.(cs_jobs) !! id, s'.(cs_dispatch) !! id) = expire_result stamp s id).
  { intros id. pose proof (expire_lookup stamp s id) as El. rewrite Heq in El. exact El. }
  assert (Hspec : ∀ id, id ∈ ids ↔ _) by (intros id; pose proof (expiring_spec stamp s id) as E; rewrite Heq in E; exact E).
  split_and!; try done.
  - rewrite <- Hids. apply expiring_nodup.
  - intros id. rewrite Hspec. split; intros (j & d & Hj & Hd & He); exists j, d.
    + apply expirable_inv in He as (? & ? & ? & ? & ? & ?). by split_and!.
    + destruct He as (V & R & W & P & Q & D). split_and!; try done. unfold expirable.
      rewrite V, P, Q, D, R, W. done.
  - intros id Hid. specialize (Hlook id). unfold expire_result in Hlook.
    rewrite Hspec in Hid.
    destruct (cs_jobs s !! id) as [j|], (cs_dispatch s !! id) as [d|]; try (by injection Hlook as -> ->).
    destruct (expirable stamp (id, (j, d))) eqn:He; [|by injection Hlook as -> ->]. destruct Hid. by exists j, d.
  - intros id j d Hid Hj Hd. apply Hspec in Hid as (j' & d' & Hj' & Hd' & He). rewrite Hj in Hj'. rewrite Hd in Hd'. injection Hj' as <-. injection Hd' as <-.
    specialize (Hlook id). unfold expire_result in Hlook. rewrite Hj, Hd, He in Hlook. injection Hlook as -> ->.
    apply expirable_inv in He as (_ & _ & _ & Hp & _). unfold expired_dispatch. by rewrite Hp.
Qed.

(** ** The order of a lane *)

Lemma text_ltb_irrefl a : text_ltb a a = false.
Proof. destruct (text_ltb a a) eqn:E; [|done]. pose proof (text_ltb_asym _ _ E). congruence. Qed.

Lemma created_asym a b : created_ltb a b = true → created_ltb b a = false.
Proof.
  unfold created_ltb. rewrite !orb_true_iff, !andb_true_iff, bool_decide_eq_true.
  intros [Hlt|[Heq Hlt]]; rewrite orb_false_iff, andb_false_iff, bool_decide_eq_false.
  - split; [by apply text_ltb_asym|]. left. intros Heq. rewrite Heq in Hlt.
    by rewrite text_ltb_irrefl in Hlt.
  - rewrite Heq. split; [apply text_ltb_irrefl|]. right. by apply text_ltb_asym.
Qed.

Lemma created_total a b : created_ltb a b = false → created_ltb b a = false → a.1 = b.1.
Proof.
  unfold created_ltb. rewrite !orb_false_iff, !andb_false_iff, !bool_decide_eq_false.
  intros [L1 R1] [L2 R2]. pose proof (text_ltb_antisym _ _ L1 L2) as Heq.
  destruct R1 as [R1|R1]; [done|]. destruct R2 as [R2|R2]; [done|]. by apply text_ltb_antisym.
Qed.

Lemma lane_asym a b : lane_ltb a b = true → lane_ltb b a = false.
Proof.
  unfold lane_ltb. rewrite orb_true_iff, andb_true_iff, orb_false_iff, andb_false_iff.
  intros [Hlt|[Heq Hlt]]; [lia|]. split; [lia|]. right. by apply created_asym.
Qed.

Lemma lane_total a b : lane_ltb a b = false → lane_ltb b a = false → a.1 = b.1.
Proof.
  unfold lane_ltb. rewrite !orb_false_iff, !andb_false_iff. intros [L1 R1] [L2 R2].
  destruct R1 as [R1|R1]; [lia|]. destruct R2 as [R2|R2]; [lia|]. by apply created_total.
Qed.

Lemma created_leb_trans a b c : created_ltb b a = false → created_ltb c b = false → created_ltb c a = false.
Proof.
  unfold created_ltb. rewrite !orb_false_iff, !andb_false_iff, !bool_decide_eq_false.
  intros [L1 R1] [L2 R2]. split; [by eapply text_leb_trans|].
  destruct (decide (jr_created_at (jb_request c.2.1) = jr_created_at (jb_request a.2.1))) as [Heq|]; [|by left].
  right. assert (jr_created_at (jb_request b.2.1) = jr_created_at (jb_request a.2.1)) as Eb.
  { apply text_ltb_antisym; [done|]. by rewrite <- Heq. }
  destruct R1 as [R1|R1]; [done|]. destruct R2 as [R2|R2]; [congruence|]. by eapply text_leb_trans.
Qed.

Lemma lane_leb_trans a b c : lane_leb a b = true → lane_leb b c = true → lane_leb a c = true.
Proof.
  unfold lane_leb, lane_ltb. rewrite !negb_true_iff, !orb_false_iff, !andb_false_iff.
  intros [L1 R1] [L2 R2]. split; [lia|].
  destruct (decide (lane_class (ds_state c.2.2) = lane_class (ds_state a.2.2))); [|left; lia].
  right. destruct R1 as [R1|R1]; [lia|]. destruct R2 as [R2|R2]; [lia|]. by eapply created_leb_trans.
Qed.

Lemma lane_head_first app instance s h e :
  head (lane app instance s) = Some h → e ∈ lane app instance s → e.1 ≠ h.1 → lane_ltb h e = true.
Proof.
  intros Hh He Hne. unfold lane in *.
  pose proof (sort_by_sorted lane_leb (List.filter (fun e => in_lane e && lane_of app instance e) (joined s))
    (λ a b, ltac:(unfold lane_leb; rewrite negb_false_iff, negb_true_iff; apply lane_asym))
    lane_leb_trans) as Hsort.
  destruct (sort_by lane_leb _) as [|x l]; [done|]. injection Hh as ->.
  apply StronglySorted_inv in Hsort as [_ Hall]. apply elem_of_cons in He as [->|He]; [done|].
  rewrite list.Forall_forall in Hall. specialize (Hall e He). apply Is_true_true in Hall.
  unfold lane_leb in Hall. rewrite negb_true_iff in Hall.
  destruct (lane_ltb h e) eqn:E; [done|]. by destruct Hne; symmetry; apply lane_total.
Qed.

(** ** Claims *)

Lemma expire_inv stamp s : queue_inv s → queue_inv (_expire_waiting_connect_jobs_transaction stamp s).2.
Proof. apply (keeps_inv (cert := None)), expire_rows. Qed.

(** After the expiry nothing that waits in a lane is past its deadline. *)
Lemma waiting_in_time stamp s id j d :
  let s1 := (_expire_waiting_connect_jobs_transaction stamp s).2 in
  queue_inv s → s1.(cs_jobs) !! id = Some j → s1.(cs_dispatch) !! id = Some d →
  in_lane (id, (j, d)) = true → d.(ds_state) = Waiting → deadline_passed stamp d = false.
Proof.
  intros s1 Hi Hj Hd Hl Hw.
  destruct (expire_inv stamp s Hi) as [[_ _ _ Hst _] _]. specialize (Hst _ _ _ Hj Hd).
  pose proof (expire_lookup stamp s id) as El. cbv zeta in El. fold s1 in El. rewrite Hj, Hd in El.
  unfold expire_result in El. destruct (cs_jobs s !! id) as [j0|], (cs_dispatch s !! id) as [d0|]; try done.
  destruct (expirable stamp (id, (j0, d0))) eqn:E; injection El as -> ->; [done|].
  apply in_lane_inv in Hl as (Hv & _ & _ & Hp). rewrite Hw in Hp. destruct Hp as [Hp|Hp]; [|done].
  unfold stage_ok in Hst. rewrite Hw in Hst. bools. unfold expirable in E.
  destruct (deadline_passed stamp d0) eqn:Ed; [|done].
  revert E. rewrite Hv, Hw, Hp. repeat match goal with H : _ = _ |- _ => rewrite H end. done.
Qed.

(** C26: A claim takes the head of the provider's lane: every other job of the lane comes strictly after it
    (in flight before waiting, then by creation), it is due, and a waiting job is only taken when nothing of the
    lane is in flight and its admission deadline has not passed; it is then marked as dispatched and possibly
    submitted before it is handed out, and nothing else changes but the expiries. *)
Theorem claim_serves_lane_head app instance expected now s s' id j view :
  queue_reachable s →
  claim_connect_lane_head app instance expected now s = Ret (Some (id, j, view), s') →
  let stamp := isoformat (utc now) in
  let s1 := (expire_waiting_connect_jobs now s).2 in
  ∃ d d', s1.(cs_jobs) !! id = Some j ∧ s1.(cs_dispatch) !! id = Some d ∧
    (id, (j, d)) ∈ lane app instance s1 ∧ (∀ e, expected = Some e → id = e) ∧
    (∀ e, e ∈ lane app instance s1 → e.1 ≠ id → lane_ltb (id, (j, d)) e = true) ∧
    (d.(ds_state) ≠ Dispatching → attempt_due stamp d = true) ∧
    (d.(ds_state) = Waiting →
     deadline_passed stamp d = false ∧ d'.(ds_state) = Dispatching ∧
     d'.(ds_attempt_count) = d.(ds_attempt_count) + 1 ∧
     ∀ k jk dk, s1.(cs_jobs) !! k = Some jk → s1.(cs_dispatch) !! k = Some dk →
       lane_of app instance (k, (jk, dk)) = true → in_flight dk.(ds_state) = false) ∧
    in_flight d'.(ds_state) = true ∧ d'.(ds_submission_possible) = true ∧
    s' = set_dispatch (<[id := d']> s1.(cs_dispatch)) s1.
Proof.
  intros Hr Hop stamp s1. pose proof (reachable_queue_inv _ Hr) as Hi.
  unfold claim_connect_lane_head in Hop. fold stamp in Hop.
  change (_expire_waiting_connect_jobs_transaction stamp s).2 with s1 in Hop.
  destruct (head (lane app instance s1)) as [[k [jk d]]|] eqn:Eh; [|done].
  destruct (negb (match expected with Some e => _ | None => _ end)) eqn:E1; [done|].
  destruct (negb (bool_decide (ds_state d = Dispatching)) && _) eqn:E2; [done|].
  destruct (negb _ && _ && _) eqn:E3; [done|]. injection Hop as -> -> _ <-.
  pose proof (head_elem _ _ Eh) as Hin. pose proof Hin as (Hj & Hd & Hl & Ho)%lane_elem.
  pose proof (in_lane_inv _ _ _ Hl) as (Hv & Ha & Hnt & Hpause).
  destruct (expire_inv stamp s Hi) as [[_ Hdis Hown Hst _] _].
  pose proof (Hst _ _ _ Hj Hd) as Hok.
  exists d, (claimed stamp d). split_and!; try done.
  - intros e ->. by bools.
  - intros e He Hne. by eapply lane_head_first.
  - intros Hnd. rewrite bool_decide_eq_false_2 in E2 by done. simpl in E2. by bools.
  - intros Hw. split_and!; [by eapply (waiting_in_time stamp s)|..]; unfold claimed; rewrite ?Hw; simpl;
      rewrite ?bool_decide_eq_true_2 by done; try done.
    intros k jk dk Hjk Hdk Hok'. destruct (in_flight (ds_state dk)) eqn:Ef; [|done]. exfalso.
    assert (Hlk : (k, (jk, dk)) ∈ lane app instance s1).
    { apply lane_elem. split_and!; try done. specialize (Hst _ _ _ Hjk Hdk). unfold in_lane.
      assert (Hvk : is_some (s1.(cs_dispatch) !! k) = jr_v2 (jb_request jk)) by exact (Hdis _ _ Hjk).
      rewrite Hdk in Hvk. rewrite <- Hvk. simpl. rewrite Ef, orb_true_r, andb_true_r.
      unfold stage_ok in Hst. destruct (ds_state dk); try done; bools; simpl;
        rewrite ?andb_true_r; try done; match goal with H : jb_status jk = _ |- _ => by rewrite H end. }
    assert (Hne : k ≠ id) by (intros ->; simplify_eq; by rewrite Hw in Ef).
    pose proof (lane_head_first _ _ _ _ _ Eh Hlk Hne) as Hlt. unfold lane_ltb in Hlt. simpl in Hlt.
    rewrite Hw in Hlt. destruct (ds_state dk); done.
  - unfold claimed. simpl. by destruct (ds_state d).
  - unfold claimed. simpl. unfold stage_ok in Hok. destruct (ds_state d); try done; by bools.
Qed.

(** ** Deadlines *)

Lemma read_time_stamp w : wall_ok w = true → read_time (isoformat (utc w)) = Ret (utc w).
Proof. intros Hw. unfold read_time. by rewrite (fromisoformat_isoformat _ Hw). Qed.

Lemma astimezone_stamp w : wall_ok w = true → astimezone_utc (utc w) = Ret w.
Proof. intros Hw. unfold astimezone_utc. simpl. by rewrite Z.sub_0_r, Hw. Qed.

(** Resuming a paused job extends its admission deadline by the time it was paused, in whole seconds: what
    is left until the deadline when it resumes is what was left when it was paused, less than a second short;
    the pause ends and no other row changes. *)
Theorem resume_extends_deadline s id d deadline paused now stamp :
  s.(cs_dispatch) !! id = Some d → d.(ds_admission_deadline) = isoformat (utc deadline) →
  d.(ds_paused_at) = Some (isoformat (utc paused)) →
  wall_ok deadline = true → wall_ok paused = true → paused <= now → wall_ok (deadline + (now - paused)) = true →
  ∃ extended d' s', _resume_automation_dispatch id now stamp s = Ret s' ∧
    s' = set_dispatch (<[id := d']> s.(cs_dispatch)) s ∧
    d'.(ds_paused_at) = None ∧ d'.(ds_admission_deadline) = isoformat (utc extended) ∧
    aware_iso_epoch d'.(ds_admission_deadline) = Some extended ∧
    d'.(ds_state) = d.(ds_state) ∧ d'.(ds_submission_possible) = d.(ds_submission_possible) ∧
    d'.(ds_next_attempt_at) = d.(ds_next_attempt_at) ∧
    deadline - paused - US < extended - now <= deadline - paused.
Proof.
  intros Hd Hdl Hp Wd Wp Hle We.
  set (extended := deadline + elapsed_seconds now paused * US).
  assert (Hel : elapsed_seconds now paused * US <= now - paused < elapsed_seconds now paused * US + US).
  { unfold elapsed_seconds. rewrite Z.quot_div_nonneg by (unfold US; lia). unfold US. lia. }
  assert (0 <= elapsed_seconds now paused) by (unfold elapsed_seconds; lia).
  assert (Wx : wall_ok extended = true) by (unfold wall_ok, extended, US in *; lia).
  eexists extended, _, _. split_and!.
  - unfold _resume_automation_dispatch. rewrite Hd. cbn [require_some mbind py_bind]. rewrite Hp, Hdl.
    rewrite (read_time_stamp _ Wd), (read_time_stamp _ Wp). cbn [mbind py_bind require is_some is_none negb utc dt_offset].
    fold (utc deadline). fold (utc paused).
    rewrite (astimezone_stamp _ Wp), (astimezone_stamp _ Wd). cbn [mbind py_bind].
    unfold plus_us. fold extended. rewrite Wx. cbn [mbind py_bind]. reflexivity.
  - reflexivity.
  - reflexivity.
  - reflexivity.
  - by apply aware_iso_epoch_isoformat.
  - reflexivity.
  - reflexivity.
  - reflexivity.
  - unfold extended. lia.
  - unfold extended. lia.
Qed.

(** ** Creation *)

Lemma joined_insert s id j d :
  s.(cs_jobs) !! id = None →
  joined (set_dispatch (<[id := d]> s.(cs_dispatch)) (set_jobs (<[id := j]> s.(cs_jobs)) s))
    ≡ₚ (id, (j, d)) :: joined s.
Proof.
  intros Hno. apply NoDup_Permutation.
  - eapply NoDup_fmap_1, joined_nodup.
  - constructor; [rewrite elem_of_joined; by rewrite Hno; intros [? _] | eapply NoDup_fmap_1, joined_nodup].
  - intros [k [jk dk]]. rewrite elem_of_cons, !elem_of_joined. simpl.
    destruct (decide (k = id)) as [->|Hne].
    + rewrite !lookup_insert_eq, Hno. naive_solver.
    + rewrite !lookup_insert_ne by done. naive_solver.
Qed.

Lemma lane_insert app instance s id j d :
  s.(cs_jobs) !! id = None →
  (length (lane app instance
     (set_dispatch (<[id := d]> s.(cs_dispatch)) (set_jobs (<[id := j]> s.(cs_jobs)) s)))
   <= S (length (lane app instance s)))%nat.
Proof.
  intros Hno. unfold lane. rewrite !sort_by_perm.
  set (p := fun e => in_lane e && lane_of app instance e).
  assert (Hf : ∀ l l' : list queued, l ≡ₚ l' → List.filter p l ≡ₚ List.filter p l').
  { induction 1; simpl; repeat case_match; try done; [by constructor|by constructor|by etrans]. }
  rewrite (Hf _ _ (joined_insert s id j d Hno)). simpl. case_match; simpl; lia.
Qed.

Lemma same_invocation_elem m p h s id j :
  (id, j) ∈ same_invocation m p h s → s.(cs_jobs) !! id = Some j ∧ active_status j.(jb_status) = true ∧
  j.(jb_request).(jr_v2) = true ∧ j.(jb_request).(jr_message_id) = m ∧ j.(jb_request).(jr_part_id) = p ∧
  j.(jb_request).(jr_invocation_fingerprint) = h.
Proof.
  unfold same_invocation. rewrite elem_of_filter_b, elem_of_map_to_list. simpl.
  intros [Hj Hb]. bools. by split_and!.
Qed.

(** Creating a protocol-2 job, after the expiries, either returns the active job of the same invocation
    without adding anything, or adds the new job, waiting, never submitted, with an admission deadline two hours
    ahead, when no active job has its invocation and its lane had fewer than 25 jobs, so the lane never exceeds
    25 by a creation; a full lane raises ConnectQueueFull. *)
Theorem create_admits_or_joins id j a app instance now s :
  j.(jb_request).(jr_v2) = true →
  let stamp := isoformat (utc now) in
  let s1 := (expire_waiting_connect_jobs now s).2 in
  let call k := match s1.(cs_jobs) !! k with
                | Some x => jr_v2 x.(jb_request) = true ∧ active_status x.(jb_status) = true ∧
                            same_call x.(jb_request) j.(jb_request)
                | None => False end in
  match place_job id j a app instance now stamp s with
  | Ret (k, x, s') =>
      (k ≠ id ∧ s' = s1 ∧ s1.(cs_jobs) !! k = Some x ∧ call k) ∨
      (k = id ∧ x = j ∧ (∀ k', ¬ call k') ∧ (length (lane app instance s1) < 25)%nat ∧
       (length (lane app instance s') <= 25)%nat ∧
       ∃ d, s' = set_dispatch (<[id := d]> s1.(cs_dispatch)) (set_jobs (<[id := j]> s1.(cs_jobs)) s1) ∧
         first_dispatch d ∧ d.(ds_authority) = a ∧
         d.(ds_admission_deadline) = isoformat (utc (now + CONNECT_QUEUE_ADMISSION_WINDOW)))
  | Raise (ConnectQueueFull _) => (∀ k', ¬ call k') ∧ (25 <= length (lane app instance s1))%nat
  | Raise _ => True
  end.
Proof.
  intros Hv stamp s1 call. unfold place_job. rewrite Hv.
  change (_expire_waiting_connect_jobs_transaction stamp s).2 with s1. cbv zeta.
  set (r := jb_request j). set (same := same_invocation _ _ _ s1).
  pose proof (sort_by_perm job_leb same) as Hperm.
  destruct (sort_by job_leb same) as [|[k x] l] eqn:Es; simpl head; cbv iota.
  - assert (Hnone : ∀ k', ¬ call k').
    { intros k' Hc. unfold call in Hc. destruct (cs_jobs s1 !! k') as [y|] eqn:Ey; [|done].
      destruct Hc as (Vy & Ay & (C1 & C2 & C3)). apply Permutation_nil_l in Hperm.
      by eapply (same_invocation_nil _ _ _ _ _ _ (eq_sym Hperm) Ey). }
    unfold require at 1. destruct (length (lane app instance s1) <? CONNECT_QUEUE_MAX_JOBS)%nat eqn:El; cbn [negb orb mbind py_bind].
    + apply Nat.ltb_lt in El. unfold CONNECT_QUEUE_MAX_JOBS in El.
      unfold insert_job. fold r in Hv |- *. rewrite Hv.
      destruct (is_none (cs_jobs s1 !! id) && job_row_ok j && _) eqn:E1; [|done]. cbn [require mbind py_bind].
      unfold plus_us. destruct (wall_ok _); [|done]. cbn [mbind py_bind].
      destruct (is_none _ && authority_row_ok a) eqn:E2; [|done]. cbn [require mbind py_bind].
      assert (Hno : s1.(cs_jobs) !! id = None) by (bools; by destruct (cs_jobs s1 !! id)).
      right. split_and!; try done.
      * pose proof (lane_insert app instance s1 id j (mk_dispatch Waiting 0 0 None
          (isoformat (utc (now + CONNECT_QUEUE_ADMISSION_WINDOW))) false true a None None PRequested None None stamp) Hno).
        simpl in *. lia.
      * eexists. split_and!; [reflexivity | by split_and! | reflexivity..].
    + apply Nat.ltb_ge in El. split; [done|]. unfold CONNECT_QUEUE_MAX_JOBS in El. lia.
  - assert (Hin : (k, x) ∈ same) by (rewrite <- Hperm; by left).
    apply same_invocation_elem in Hin as (Hx & Ax & Vx & M & P & F).
    cbn [hd_error]. unfold require. case_bool_decide; [done|]. simpl.
    left. split_and!; try done. unfold call. rewrite Hx. by split_and!.
Qed.

(** ** Loss of a source *)

(** The fire of a deleted job. *)
Definition orphaned (s : connect_store) (l : list text) (sql_now : text) (f : AutomationFire) : AutomationFire :=
  match f.(fi_job_id) with
  | Some id => if decide (id ∈ l) then match s.(cs_jobs) !! id with
                                       | Some j => removed_fire id j sql_now f | None => f end else f
  | None => f
  end.

Lemma removed_fire_other id j sql_now f : f.(fi_job_id) ≠ Some id → removed_fire id j sql_now f = f.
Proof.
  intros Hne. unfold removed_fire. destruct (sql_eq (fi_job_id f) (Some id)) eqn:E; [|done].
  by apply sql_eq_some in E.
Qed.

Lemma removed_fire_closed id j sql_now f :
  (removed_fire id j sql_now f).(fi_job_id) = Some id → fire_open (removed_fire id j sql_now f) = true → False.
Proof.
  unfold removed_fire. case_match eqn:E.
  - by destruct (jb_status j).
  - intros Hj Ho. rewrite Hj in E. simpl in E. rewrite bool_decide_eq_true_2 in E by done.
    unfold fire_open in Ho. by rewrite Ho in E.
Qed.

(** The deletion of a list of jobs. *)
Lemma delete_fold l sql_now s :
  NoDup l → (∀ id, id ∈ l → is_some (s.(cs_jobs) !! id) = true) →
  let s' := fold_left (fun s id => delete_job id sql_now s) l s in
  (∀ id, s'.(cs_jobs) !! id = if decide (id ∈ l) then None else s.(cs_jobs) !! id) ∧
  (∀ id, s'.(cs_dispatch) !! id = if decide (id ∈ l) then None else s.(cs_dispatch) !! id) ∧
  (∀ k, s'.(cs_fires) !! k = orphaned s l sql_now <$> s.(cs_fires) !! k).
Proof.
  revert s. induction l as [|x l IH]; intros s Hn Hl; simpl.
  - split_and!; try done. intros k. destruct (cs_fires s !! k) as [f|]; [|done]. simpl. unfold orphaned.
    by destruct (fi_job_id f).
  - apply list.NoDup_cons in Hn as [Hx Hn].
    destruct (s.(cs_jobs) !! x) as [j|] eqn:Ej; [|specialize (Hl x); rewrite Ej in Hl; by discriminate Hl; left].
    assert (Hdel : delete_job x sql_now s = set_fires (removed_fire x j sql_now <$> s.(cs_fires))
      (set_dispatch (delete x s.(cs_dispatch)) (set_jobs (delete x s.(cs_jobs)) s)))
      by (unfold delete_job; by rewrite Ej).
    destruct (IH (delete_job x sql_now s)) as (I1 & I2 & I3); [done| |].
    { intros id Hid. rewrite Hdel. simpl. rewrite lookup_delete_ne by (intros ->; done). apply Hl. by right. }
    rewrite Hdel in I1, I2, I3 |- *. simpl in I1, I2, I3. split_and!.
    + intros id. rewrite I1. destruct (decide (id = x)) as [->|Hne].
      * rewrite lookup_delete_eq. repeat case_decide; try done; exfalso; set_solver.
      * rewrite lookup_delete_ne by done. repeat case_decide; try done; exfalso; set_solver.
    + intros id. rewrite I2. destruct (decide (id = x)) as [->|Hne].
      * rewrite lookup_delete_eq. repeat case_decide; try done; exfalso; set_solver.
      * rewrite lookup_delete_ne by done. repeat case_decide; try done; exfalso; set_solver.
    + intros k. rewrite I3, lookup_fmap. destruct (cs_fires s !! k) as [f|]; [|done]. simpl. f_equal.
      unfold orphaned. destruct (decide (fi_job_id f = Some x)) as [E|E].
      * rewrite E. rewrite decide_True, Ej by (by left).
        destruct (fi_job_id (removed_fire x j sql_now f)) as [y|] eqn:Ey; [|done].
        assert (y = x) as ->.
        { revert Ey. unfold removed_fire. case_match; [destruct (jb_status j)|]; simpl; congruence. }
        by rewrite decide_False.
      * rewrite (removed_fire_other _ _ _ _ E). destruct (fi_job_id f) as [y|] eqn:Ey; [|done].
        assert (y ≠ x) by congruence. simpl. rewrite lookup_delete_ne by done.
        repeat case_decide; try done; exfalso; set_solver.
Qed.

(** The jobs, dispatches and fires an invalidation leaves. *)
Lemma invalidation_result m sql_now now s :
  let s' := connect_source_invalidation m sql_now now s in
  let doomed := (List.filter (job_invalidated m s) (map_to_list s.(cs_jobs))).*1 in
  (∀ id, s'.(cs_jobs) !! id = if decide (id ∈ doomed) then None else s.(cs_jobs) !! id) ∧
  (∀ id, s'.(cs_dispatch) !! id =
     if decide (id ∈ doomed) then None else
     (fun d => match s.(cs_jobs) !! id with
               | Some j => if bool_decide (j.(jb_request).(jr_message_id) = m) then without_source now d else d
               | None => d end) <$> s.(cs_dispatch) !! id) ∧
  (∀ k, s'.(cs_fires) !! k = orphaned s doomed sql_now <$> s.(cs_fires) !! k).
Proof.
  intros s' doomed.
  assert (Hn : NoDup doomed).
  { unfold doomed. pose proof (NoDup_fst_map_to_list (cs_jobs s)) as Hn. revert Hn.
    induction (map_to_list (cs_jobs s)) as [|e l IH]; [done|]. rewrite fmap_cons, list.NoDup_cons. intros [He Hl].
    simpl. case_match; [|by apply IH]. constructor; [|by apply IH].
    intros Hin. apply He. apply list_elem_of_fmap in Hin as (x & -> & Hin).
    apply elem_of_filter_b in Hin as [Hin _]. by apply list_elem_of_fmap_2. }
  assert (Hp : ∀ id, id ∈ doomed → is_some (s.(cs_jobs) !! id) = true).
  { intros id. unfold doomed. rewrite list_elem_of_fmap. intros ([k j] & -> & Hin%elem_of_filter_b).
    destruct Hin as [Hin%elem_of_map_to_list _]. simpl. by rewrite Hin. }
  destruct (delete_fold doomed sql_now s Hn Hp) as (D1 & D2 & D3).
  unfold s', connect_source_invalidation. fold doomed. simpl. split_and!; try done.
  intros id. rewrite map_lookup_imap, D2, D1. case_decide; [done|]. by destruct (cs_dispatch s !! id).
Qed.

Lemma doomed_elem m s id :
  id ∈ (List.filter (job_invalidated m s) (map_to_list s.(cs_jobs))).*1 ↔
  ∃ j, s.(cs_jobs) !! id = Some j ∧ job_invalidated m s (id, j) = true.
Proof.
  rewrite list_elem_of_fmap. split.
  - intros ([k j] & -> & Hin%elem_of_filter_b). destruct Hin as [Hin%elem_of_map_to_list Hi]. by exists j.
  - intros (j & Hj & Hi). exists (id, j). split; [done|]. apply elem_of_filter_b. by rewrite elem_of_map_to_list.
Qed.

(** Whether an active protocol-2 job goes depends on its dispatch alone. *)
Lemma active_invalidated m s id j d :
  j.(jb_request).(jr_v2) = true → active_status j.(jb_status) = true → s.(cs_dispatch) !! id = Some d →
  job_invalidated m s (id, j) =
  bool_decide (j.(jb_request).(jr_message_id) = m) &&
  (bool_decide (d.(ds_state) = Waiting) && negb d.(ds_submission_possible)).
Proof. intros Hv Ha Hd. unfold job_invalidated. by rewrite Hv, Ha, Hd. Qed.

Lemma binding_fire m now s k f :
  s.(cs_fires) !! k = Some f →
  (automation_source_binding m now s).(cs_fires) !! k =
  Some (bound_fire m now (set_attempts (map_imap (fun k a => Some (bound_attempt m s k a)) s.(cs_attempts)) s) k f).
Proof. intros Hf. unfold automation_source_binding. simpl. by rewrite map_lookup_imap, Hf. Qed.

Lemma stage_waiting_inv status d :
  stage_ok status d = true → d.(ds_state) = Waiting →
  status = Requested ∧ d.(ds_submission_possible) = false ∧ d.(ds_highest) = PRequested.
Proof. unfold stage_ok. intros Hok Hw. rewrite Hw in Hok. by bools. Qed.

(** A loss of source on a sound store, as three lookups and the jobs it deletes. *)
Record loss_of (m sql_now now : text) s s' (doomed : text → Prop) : Prop := {
  lo_jobs : ∀ id j, s.(cs_jobs) !! id = Some j →
    (doomed id → s'.(cs_jobs) !! id = None ∧ s'.(cs_dispatch) !! id = None) ∧
    (¬ doomed id → s'.(cs_jobs) !! id = Some j ∧
       s'.(cs_dispatch) !! id = (fun d => if bool_decide (j.(jb_request).(jr_message_id) = m)
                                          then without_source now d else d) <$> s.(cs_dispatch) !! id);
  lo_gone : ∀ k f j id, s.(cs_fires) !! k = Some f → f.(fi_job_id) = Some id → s.(cs_jobs) !! id = Some j →
    doomed id → s'.(cs_fires) !! k = Some (removed_fire id j sql_now f);
  lo_bound : ∀ k f f' id, s.(cs_fires) !! k = Some f →
    bound_fire m now (set_attempts (map_imap (fun k a => Some (bound_attempt m s k a)) s.(cs_attempts)) s) k f = f' →
    f'.(fi_job_id) = Some id → ¬ doomed id → s'.(cs_fires) !! k = Some f';
  lo_other : ∀ id j, s.(cs_jobs) !! id = Some j → j.(jb_request).(jr_message_id) ≠ m → ¬ doomed id;
  lo_active : ∀ id j d, s.(cs_jobs) !! id = Some j → s.(cs_dispatch) !! id = Some d →
    j.(jb_request).(jr_message_id) = m → active_status j.(jb_status) = true →
    (doomed id ↔ d.(ds_state) = Waiting) }.

Lemma unavailable_loss m sql_now now s :
  queue_inv s → ∃ doomed, loss_of m sql_now now s (connect_source_unavailable m sql_now now s) doomed.
Proof.
  intros [[_ Hdis _ Hst _] _]. set (sb := automation_source_binding m now s).
  destruct (invalidation_result m sql_now now sb) as (R1 & R2 & R3). cbv zeta in R1, R2, R3.
  set (doomed := (List.filter (job_invalidated m sb) (map_to_list sb.(cs_jobs))).*1) in *.
  change sb.(cs_jobs) with s.(cs_jobs) in R1, R2. change sb.(cs_dispatch) with s.(cs_dispatch) in R2.
  assert (Hdoom : ∀ id, id ∈ doomed ↔ ∃ j, s.(cs_jobs) !! id = Some j ∧ job_invalidated m sb (id, j) = true)
    by (intros id; exact (doomed_elem m sb id)).
  exists (fun id => id ∈ doomed). unfold connect_source_unavailable. fold sb. split.
  - intros id j Hj. rewrite R1, R2. split; intros Hd; [by rewrite !decide_True | by rewrite !decide_False, Hj].
  - intros k f j id Hf Hfj Hj Hd. rewrite R3. unfold sb at 2. rewrite (binding_fire _ _ _ _ _ Hf). simpl. f_equal.
    unfold bound_fire. rewrite Hfj. simpl. rewrite andb_false_r. unfold orphaned. rewrite Hfj, decide_True by done.
    change (cs_jobs sb) with (cs_jobs s). by rewrite Hj.
  - intros k f f' id Hf Hb Hfj Hd. rewrite R3. unfold sb at 2. rewrite (binding_fire _ _ _ _ _ Hf), Hb. simpl. f_equal.
    unfold orphaned. by rewrite Hfj, decide_False.
  - intros id j Hj Hm (j' & Hj' & Hinv)%Hdoom. simplify_eq. unfold job_invalidated in Hinv. by bools.
  - intros id j d Hj Hd Hm Ha. rewrite Hdoom.
    pose proof (active_invalidated m sb id j d (ltac:(by rewrite <- (Hdis _ _ Hj), Hd)) Ha Hd) as Hinv.
    rewrite bool_decide_eq_true_2 in Hinv by done. cbn [andb] in Hinv. split.
    + intros (j' & Hj' & Hi). simplify_eq. rewrite Hinv in Hi. by bools.
    + intros Hw. exists j. split; [done|]. destruct (stage_waiting_inv _ _ (Hst _ _ _ Hj Hd) Hw) as (_ & Hp & _).
      by rewrite Hinv, Hw, Hp.
Qed.

(** A fire whose attempt the provider admitted. *)
Lemma admitted_bound m now s k f a :
  s.(cs_fires) !! k = Some f → f.(fi_source).(fs_message_id) = m → f.(fi_state) = PendingDispatch →
  f.(fi_job_id) = None → s.(cs_attempts) !! (k, f.(fi_attempt_no)) = Some a → a.(at_job_id) = None →
  provider_admitted a.(at_dispatch_request_id) s = true →
  let f' := bound_fire m now
    (set_attempts (map_imap (fun k a => Some (bound_attempt m s k a)) s.(cs_attempts)) s) k f in
  f'.(fi_state) = Submitted ∧ f'.(fi_job_id) = Some a.(at_dispatch_request_id).
Proof.
  intros Hf Hm Hs Hfj Ha Haj Hadm.
  assert (Hof : fire_of_message m f = true) by (unfold fire_of_message; rewrite Hm, Hs; by rewrite bool_decide_eq_true_2).
  unfold bound_fire. rewrite Hof, Hfj. simpl. rewrite map_lookup_imap, Ha. simpl.
  unfold bound_attempt. simpl. by rewrite Haj, Hf, Hof, Hadm.
Qed.

Lemma admitted_in_flight request_id s d :
  provider_admitted request_id s = true → s.(cs_dispatch) !! request_id = Some d → queue_inv s →
  d.(ds_state) ≠ Waiting.
Proof.
  unfold provider_admitted. intros Hadm Hd [[_ _ _ Hst _] _] Hw. rewrite Hd in Hadm.
  destruct (cs_jobs s !! request_id) as [j|] eqn:Hj; [|done].
  destruct (stage_waiting_inv _ _ (Hst _ _ _ Hj Hd) Hw) as (_ & Hp & _). by rewrite Hw, Hp, andb_false_r in Hadm.
Qed.

(** When the source of a message is lost, its waiting jobs, which were never submitted, are deleted and their
    open fires become source_unavailable; its active jobs that may have been submitted stay, marked as without
    source; a pending fire whose attempt the provider admitted is submitted under that job; and the jobs of other
    messages are untouched. *)
Theorem source_loss_settles m sql_now now s :
  queue_reachable s →
  let s' := connect_source_unavailable m sql_now now s in
  (∀ id j, s.(cs_jobs) !! id = Some j → j.(jb_request).(jr_message_id) ≠ m →
     s'.(cs_jobs) !! id = Some j ∧ s'.(cs_dispatch) !! id = s.(cs_dispatch) !! id) ∧
  (∀ id j d, s.(cs_jobs) !! id = Some j → s.(cs_dispatch) !! id = Some d →
     j.(jb_request).(jr_message_id) = m → d.(ds_state) = Waiting →
     s'.(cs_jobs) !! id = None ∧ s'.(cs_dispatch) !! id = None ∧
     ∀ k f, s.(cs_fires) !! k = Some f → f.(fi_job_id) = Some id → fire_open f = true →
       ∃ f', s'.(cs_fires) !! k = Some f' ∧ f'.(fi_state) = SourceUnavailable ∧ f'.(fi_job_id) = None) ∧
  (∀ id j d, s.(cs_jobs) !! id = Some j → s.(cs_dispatch) !! id = Some d →
     j.(jb_request).(jr_message_id) = m → active_status j.(jb_status) = true → d.(ds_state) ≠ Waiting →
     s'.(cs_jobs) !! id = Some j ∧ s'.(cs_dispatch) !! id = Some (without_source now d)) ∧
  (∀ k f a j, s.(cs_fires) !! k = Some f → f.(fi_source).(fs_message_id) = m → f.(fi_state) = PendingDispatch →
     f.(fi_job_id) = None → s.(cs_attempts) !! (k, f.(fi_attempt_no)) = Some a → a.(at_job_id) = None →
     provider_admitted a.(at_dispatch_request_id) s = true →
     s.(cs_jobs) !! a.(at_dispatch_request_id) = Some j → active_status j.(jb_status) = true →
     ∃ f', s'.(cs_fires) !! k = Some f' ∧ f'.(fi_state) = Submitted ∧
       f'.(fi_job_id) = Some a.(at_dispatch_request_id)).
Proof.
  intros Hr s'. pose proof (reachable_queue_inv _ Hr) as Hi. destruct (unavailable_loss m sql_now now s Hi) as [doomed L].
  fold s' in L. pose proof Hi as [[_ _ _ Hst _] _]. split_and!.
  - intros id j Hj Hm. destruct (lo_jobs _ _ _ _ _ _ L id j Hj) as [_ K].
    destruct (K (lo_other _ _ _ _ _ _ L id j Hj Hm)) as [-> ->]. split; [done|].
    rewrite bool_decide_eq_false_2 by done. by destruct (cs_dispatch s !! id).
  - intros id j d Hj Hd Hm Hw. destruct (stage_waiting_inv _ _ (Hst _ _ _ Hj Hd) Hw) as (Hreq & _ & _).
    assert (Hdo : doomed id) by (apply (lo_active _ _ _ _ _ _ L id j d); try done; by rewrite Hreq).
    destruct (lo_jobs _ _ _ _ _ _ L id j Hj) as [K _]. destruct (K Hdo) as [-> ->]. split_and!; try done.
    intros k f Hf Hfj Ho. eexists. split; [by eapply (lo_gone _ _ _ _ _ _ L)|].
    unfold removed_fire, sql_eq. unfold fire_open in Ho. rewrite Hfj, Hreq, Ho, bool_decide_eq_true_2 by done. done.
  - intros id j d Hj Hd Hm Ha Hw. destruct (lo_jobs _ _ _ _ _ _ L id j Hj) as [_ K].
    destruct K as [-> ->]; [by rewrite (lo_active _ _ _ _ _ _ L id j d)|]. by rewrite Hd, bool_decide_eq_true_2.
  - intros k f a j Hf Hm Hs Hfj Ha Haj Hadm Hj Hja.
    destruct (admitted_bound m now s k f a Hf Hm Hs Hfj Ha Haj Hadm) as [Hst' Hfj'].
    eexists. split; [|done]. eapply (lo_bound _ _ _ _ _ _ L); [done..|].
    destruct (decide (jr_message_id (jb_request j) = m)) as [Hjm|Hjm]; [|by eapply (lo_other _ _ _ _ _ _ L)].
    destruct (cs_dispatch s !! at_dispatch_request_id a) as [d|] eqn:Hd.
    + rewrite (lo_active _ _ _ _ _ _ L _ j d); try done. by eapply admitted_in_flight.
    + unfold provider_admitted in Hadm. by rewrite Hj, Hd in Hadm.
Qed.

End Queue.
