(* ===== verification/CertificateTheorems.v ===== *)
(** * Properties of the certificates *)

From S2P Require Export ConnectTheorems CertificateFacts.
From stdpp Require Import options.

Local Open Scope Z_scope.

Section Certificates.
Context `{Unicode} `{ConnectLib}.
Implicit Types s : connect_store.

(** ** Durable evidence *)

(** Everything of a certificate but the fence of its replays. *)
Record evidence_kept (c c' : CertificateRow) : Prop := {
  ek_source : same_evidence c c';
  ek_display : c'.(cr_display_reference) = c.(cr_display_reference);
  ek_sha256 : c'.(cr_result_sha256) = c.(cr_result_sha256);
  ek_canonical : c'.(cr_canonical_json) = c.(cr_canonical_json);
  ek_columns : c'.(cr_columns) = c.(cr_columns);
  ek_created : c'.(cr_created_at) = c.(cr_created_at);
  ek_fenced : is_some c.(cr_replay_failure) = true → is_some c'.(cr_replay_failure) = true;
  ek_conflict : c.(cr_replay_failure) = Some CertificateConflict → c'.(cr_replay_failure) = Some CertificateConflict }.

(** The policies of a certificate are the same rows. *)
Definition policies_kept (id : text) s s' : Prop :=
  ∀ k p, p.(pl_certificate_id) = id → s.(cs_policies) !! k = Some p ↔ s'.(cs_policies) !! k = Some p.

Lemma evidence_refl c : evidence_kept c c.
Proof. by split. Qed.

Lemma evidence_trans c1 c2 c3 : evidence_kept c1 c2 → evidence_kept c2 c3 → evidence_kept c1 c3.
Proof.
  intros E1 E2. destruct E1 as [S1 D1 H1 J1 C1 T1 F1 X1], E2 as [S2 D2 H2 J2 C2 T2 F2 X2].
  split; [|congruence..|by auto|by auto].
  unfold same_evidence in *. destruct_and?. split_and!; congruence.
Qed.

Definition certificate_kept (id : text) (c : CertificateRow) s s' : Prop :=
  (∃ c', s'.(cs_certificates) !! id = Some c' ∧ evidence_kept c c') ∧ policies_kept id s s'.

Lemma kept_frame id c s s' : s'.(cs_certificates) = s.(cs_certificates) → s'.(cs_policies) = s.(cs_policies) →
  s.(cs_certificates) !! id = Some c → certificate_kept id c s s'.
Proof.
  intros Hc Hp Hid. split; [exists c; rewrite Hc; split; [done|apply evidence_refl]|]. intros k p _. by rewrite Hp.
Qed.

Lemma fence_evidence failure stamp c :
  (c.(cr_replay_failure) = Some CertificateConflict → failure = CertificateConflict) →
  evidence_kept c (fence_certificate failure stamp c).
Proof. intros Hf. split; simpl; try done. intros Hc. by rewrite Hf. Qed.

Lemma keep_certificate {cert} s s' id c :
  row_keep cert s s' → s.(cs_certificates) !! id = Some c → certificate_kept id c s s'.
Proof.
  intros Hstep Hid. destruct Hstep as [| | |k ?| | | | | |k x policies Hn|k x failure stamp Hk Hf];
    try (by apply kept_frame).
  - apply kept_frame; [..|done]; unfold delete_job; by destruct (cs_jobs s !! k).
  - destruct Hn as [Hfresh _ _ _ _ Hkept Hadd _]. assert (id ≠ k) by congruence. split.
    + exists c. simpl. rewrite lookup_insert_ne by done. split; [done|apply evidence_refl].
    + intros i p Hp. simpl. split; [apply Hkept|]. intros [?|?]%Hadd; [done|congruence].
  - split; [|done]. simpl. destruct (decide (id = k)) as [->|].
    + rewrite lookup_insert_eq. rewrite Hid in Hk. injection Hk as <-. eexists. split; [done|]. by apply fence_evidence.
    + rewrite lookup_insert_ne by done. exists c. split; [done|apply evidence_refl].
Qed.

Lemma certificate_kept_trans id c s1 s2 s3 :
  certificate_kept id c s1 s2 → (∀ c', s2.(cs_certificates) !! id = Some c' → certificate_kept id c' s2 s3) →
  certificate_kept id c s1 s3.
Proof.
  intros [(c2 & H2 & E2) P2] H23. destruct (H23 _ H2) as [(c3 & H3 & E3) P3]. split.
  - exists c3. split; [done|by eapply evidence_trans].
  - intros k p Hp. by rewrite (P2 k p Hp), (P3 k p Hp).
Qed.

Lemma keeps_certificate {cert} s s' id c :
  rtc (row_keep cert) s s' → s.(cs_certificates) !! id = Some c → certificate_kept id c s s'.
Proof.
  intros Hr. revert c. induction Hr as [|s1 s2 s3 Hk _ IH]; intros c Hc; [by apply kept_frame|].
  eapply certificate_kept_trans; [by eapply keep_certificate|]. auto.
Qed.

Lemma new_certificate s s' id c :
  row_new s s' → s.(cs_certificates) !! id = Some c → certificate_kept id c s s'.
Proof. intros Hn Hc. by destruct Hn; apply kept_frame. Qed.

Lemma step_certificate s s' id c :
  queue_step s s' → s.(cs_certificates) !! id = Some c → certificate_kept id c s s'.
Proof.
  intros (cert & [Hk|(s1 & Hk & _ & Hn)] & _)%queue_step_rows Hc; [by eapply keeps_certificate|].
  eapply certificate_kept_trans; [by eapply keeps_certificate|]. intros. by eapply new_certificate.
Qed.

(** C17: A recorded certificate is durable evidence: whatever operations follow, its row stays with its source, job,
    digest, canonical bytes and columns, its policy rows are exactly the same, a replay failure recorded on it is
    never lifted and a conflict never softened. *)
Theorem certificate_evidence_durable s s' id c :
  rtc queue_step s s' → s.(cs_certificates) !! id = Some c → certificate_kept id c s s'.
Proof.
  intros Hr. revert c. induction Hr as [|s1 s2 s3 Hk _ IH]; intros c Hc; [by apply kept_frame|].
  eapply certificate_kept_trans; [by eapply step_certificate|]. auto.
Qed.

(** ** Replays *)

(** No fire of a job is open, completed, or (for a conflict) refused as merely invalid. *)
Definition fires_refused (job_id : text) (conflict : bool) s : Prop :=
  ∀ k f, s.(cs_fires) !! k = Some f → f.(fi_job_id) = Some job_id → fire_reopened conflict f = false.

Lemma linked_refused job_id conflict s :
  existsb (fun e => fire_reopened conflict e.2) (linked_fires job_id s) = false → fires_refused job_id conflict s.
Proof.
  intros Hn k f Hk Hj. destruct (fire_reopened conflict f) eqn:E; [|done]. rewrite <- Hn. symmetry.
  apply existsb_exists. exists (k, f). split; [|done]. apply list_elem_of_In, elem_of_filter_b.
  split; [by apply elem_of_map_to_list|]. simpl. rewrite Hj. unfold sql_eq. by rewrite bool_decide_eq_true_2.
Qed.

Lemma failed_refused failure f :
  f.(fi_state) = FireFailed → f.(fi_reason) = Some (failure_reason failure) →
  fire_reopened (bool_decide (failure = CertificateConflict)) f = false.
Proof. intros Hs Hr. unfold fire_reopened, fire_open. rewrite Hs, Hr. by destruct failure. Qed.

Lemma discard_refused job_id failure stamp sql_now s b s' :
  fires_refused job_id (bool_decide (failure = CertificateConflict)) s →
  _discard_settled_source_less_certificate_job job_id (Some (failure_reason failure)) stamp sql_now s = Ret (b, s') →
  fires_refused job_id (bool_decide (failure = CertificateConflict)) s' ∧ s'.(cs_certificates) = s.(cs_certificates).
Proof.
  intros Hs. unfold _discard_settled_source_less_certificate_job.
  destruct (cs_dispatch s !! job_id) as [d|]; [|by intros [= <- <-]].
  case_match; [by intros [= <- <-]|]. intros Hop. apply bind_ret_inv in Hop as (? & _ & [= <- <-]).
  split; [|unfold delete_job; simpl; by destruct (cs_jobs s !! job_id)].
  intros k f. unfold fail_fires. simpl. rewrite lookup_fmap. intros (g & _ & ->)%fmap_Some_1.
  case_match eqn:E; intros Hj; [by apply failed_refused|]. rewrite Hj in E. unfold sql_eq in E. by bools.
Qed.

(** The verdict on a replay, from the failure on record and the comparison. *)
Definition replay_verdict (id : text) (parent : CertificateRow) (j : ConnectJob) (result : json) s
    : py (option certificate_failure) :=
  compared ← replay_outcome (replay_compares id parent j result s); Ret (worst parent.(cr_replay_failure) compared).

Lemma replay_recorded_verdict job_id id parent j result stamp sql_now s s' :
  replay_recorded job_id id parent j result stamp sql_now s = Ret s' → s.(cs_certificates) !! id = Some parent →
  ∃ verdict, replay_verdict id parent j result s = Ret verdict ∧
  match verdict with
  | None => s' = s
  | Some failure => s'.(cs_certificates) !! id = Some (fence_certificate failure stamp parent) ∧
      fires_refused job_id (bool_decide (failure = CertificateConflict)) s'
  end.
Proof.
  unfold replay_recorded, replay_verdict. intros Hop Hid. apply bind_ret_inv in Hop as (compared & Hc & Hop).
  rewrite Hc. exists (worst parent.(cr_replay_failure) compared). split; [done|].
  destruct (worst _ _) as [failure|]; [|by injection Hop]. cbv zeta in Hop.
  apply bind_ret_inv in Hop as (? & Hn & Hop). apply require_ret_inv, negb_true_iff, linked_refused in Hn.
  apply bind_ret_inv in Hop as ([b s2] & Hd & [= <-]). apply discard_refused in Hd as [Hr Hcs]; [|done].
  split; [|done]. rewrite Hcs. simpl. by rewrite lookup_alter_eq, Hid.
Qed.

(** The repeated result validates to the bytes of the certificate. *)
Definition replays_same (parent : CertificateRow) (j : ConnectJob) (result : json) : Prop :=
  ∃ outputs v, _validate_generic_result result = Ret outputs ∧ certificate_of_outputs j outputs = Ret v ∧
  parent.(cr_result_sha256) = v.(va_sha256) ∧ parent.(cr_canonical_json) = v.(va_canonical_json).

Lemma verdict_passes id parent j result s :
  replay_verdict id parent j result s = Ret None → parent.(cr_replay_failure) = None ∧ replays_same parent j result.
Proof.
  unfold replay_verdict. intros Hv. apply bind_ret_inv in Hv as (compared & Hc & [= Hw]).
  destruct (cr_replay_failure parent) as [[]|], compared as [[]|]; try done. split; [done|].
  destruct (replay_compares id parent j result s) as [u|e] eqn:E; [|by destruct e].
  unfold replay_compares in E. apply bind_ret_inv in E as (? & _ & E).
  apply bind_ret_inv in E as (outputs & Ho & E). apply bind_ret_inv in E as (v & Hv & E).
  apply bind_ret_inv in E as (? & Hb & _). apply require_ret_inv in Hb. bools. exists outputs, v. by split_and!.
Qed.

(** C18: A replay of a certified job leaves the store as it is only when the stored certificate has no failure and
    the repeated result validates to the bytes of that certificate; otherwise the certificate is fenced with the worse of the failure on
    record and the new one, and no fire of the job stays open or completed. *)
Theorem replay_fences_certificate job_id app instance result now sql_now s j s' id parent :
  reconcile_certificate_completed_replay job_id app instance result now sql_now s = Ret (j, s') →
  certificates_of job_id s = [(id, parent)] →
  ∃ verdict, replay_verdict id parent j result s = Ret verdict ∧
  match verdict with
  | None => s' = s ∧ parent.(cr_replay_failure) = None ∧ replays_same parent j result
  | Some failure =>
      s'.(cs_certificates) !! id = Some (fence_certificate failure (isoformat (utc now)) parent) ∧
      fires_refused job_id (bool_decide (failure = CertificateConflict)) s'
  end.
Proof.
  intros Hop Hc. assert (Hid : s.(cs_certificates) !! id = Some parent).
  { apply (certificates_of_elem job_id s id parent). rewrite Hc. by left. }
  unfold reconcile_certificate_completed_replay in Hop. cbv zeta in Hop. rewrite Hc in Hop.
  apply bind_ret_inv in Hop as (j0 & _ & Hop). apply bind_ret_inv in Hop as (? & _ & Hop).
  apply bind_ret_inv in Hop as (? & _ & Hop). apply bind_ret_inv in Hop as (d & _ & Hop).
  apply bind_ret_inv in Hop as (s1 & Hr & [= <- <-]). apply replay_recorded_verdict in Hr as ([failure|] & Hv & Hr); [by exists (Some failure)| |done].
  pose proof (verdict_passes _ _ _ _ _ Hv) as [? ?]. exists None. by split_and!.
Qed.

End Certificates.
