(* ===== verification/LedgerTheorems.v ===== *)
(** * Properties of the expiry ledger *)

From S2P Require Export CertificateLedger CertificateTheorems.
From stdpp Require Import options.

Local Open Scope Z_scope.

(** ** The order of the rows *)

Lemma text_ltb_self t : text_ltb t t = false.
Proof. destruct (text_ltb t t) eqn:E; [|done]. by rewrite (text_ltb_asym _ _ E) in E. Qed.

Lemma text_ltb_trans a b c : text_ltb a b = true → text_ltb b c = true → text_ltb a c = true.
Proof.
  intros Hab Hbc. destruct (text_ltb a c) eqn:E; [done|].
  pose proof (text_leb_trans a b c (text_ltb_asym _ _ Hab) (text_ltb_asym _ _ Hbc)) as Hac.
  rewrite (text_ltb_antisym _ _ E Hac) in Hab. by rewrite (text_ltb_asym _ _ Hbc) in Hab.
Qed.

(** Lexicographic composition on a text key. *)
Definition by_text (a b : text) (tail : bool) : bool := if decide (a = b) then tail else text_ltb a b.

Lemma by_text_total a b t t' : (t = false → t' = true) → by_text a b t = false → by_text b a t' = true.
Proof.
  unfold by_text. intros Ht. destruct (decide (a = b)) as [->|Hne].
  - rewrite decide_True by done. done.
  - rewrite decide_False by congruence. intros E. destruct (text_ltb b a) eqn:E'; [done|].
    by destruct Hne; apply text_ltb_antisym.
Qed.

Lemma by_text_trans a b c t t' t'' : (t = true → t' = true → t'' = true) →
  by_text a b t = true → by_text b c t' = true → by_text a c t'' = true.
Proof.
  unfold by_text. intros Ht. destruct (decide (a = b)) as [->|Hab], (decide (b = c)) as [->|Hbc].
  - done.
  - done.
  - intros ? _. by rewrite decide_False.
  - intros H1 H2. pose proof (text_ltb_trans _ _ _ H1 H2) as H3. rewrite decide_False; [done|].
    intros ->. by rewrite text_ltb_self in H3.
Qed.

Lemma ledger_total a b : ledger_leb a b = false → ledger_leb b a = true.
Proof.
  unfold ledger_leb. cbv zeta. destruct (lr_expiration a) as [x|], (lr_expiration b) as [y|]; try done;
    [apply (by_text_total x y)|]; apply (by_text_total (lr_certificate_id a)); 
    destruct (snd <$> lr_policy a), (snd <$> lr_policy b); simpl; try done; lia.
Qed.

Lemma ledger_trans a b c : ledger_leb a b = true → ledger_leb b c = true → ledger_leb a c = true.
Proof.
  unfold ledger_leb. cbv zeta.
  destruct (lr_expiration a) as [x|], (lr_expiration b) as [y|], (lr_expiration c) as [z|]; try done;
    [apply (by_text_trans x y z)|]; apply (by_text_trans (lr_certificate_id a));
    destruct (snd <$> lr_policy a), (snd <$> lr_policy b), (snd <$> lr_policy c); simpl; try done; lia.
Qed.

Section Ledger.
Context `{Unicode} `{ConnectLib}.
Implicit Types s : connect_store.

Lemma take_sorted {A} (R : A → A → Prop) n l : StronglySorted R l → StronglySorted R (take n l).
Proof.
  intros Hs. revert n. induction Hs as [|x l Hs IH Hx]; intros [|n]; simpl; try constructor; [apply IH|].
  by apply Forall_take.
Qed.

Lemma ledger_rows_sorted limit s : StronglySorted ledger_leb (ledger_rows limit s).
Proof. apply take_sorted, sort_by_sorted; [apply ledger_total | apply ledger_trans]. Qed.

(** A row stands for an eligible certificate and one of its policies. *)
Lemma joined_row s e row : row ∈ joined_rows s e →
  row.(lr_certificate_id) = e.1 ∧ row.(lr_bytes) = byte_count e.2.(cr_canonical_json) ∧
  row.(lr_source_available) = ledger_source_available e.2 s ∧
  match row.(lr_policy) with
  | None => row.(lr_expiration) = None ∧ ∀ k p, s.(cs_policies) !! k = Some p → p.(pl_certificate_id) ≠ e.1
  | Some (k, ordinal) => ∃ p, s.(cs_policies) !! k = Some p ∧ p.(pl_certificate_id) = e.1 ∧ p.(pl_ordinal) = ordinal ∧
      row.(lr_expiration) = expiration_column p
  end.
Proof.
  unfold joined_rows. set (ps := List.filter _ _).
  assert (Hps : ∀ k p, (k, p) ∈ ps ↔ s.(cs_policies) !! k = Some p ∧ p.(pl_certificate_id) = e.1).
  { intros k p. unfold ps. rewrite list_elem_of_In, filter_In, <- list_elem_of_In, elem_of_map_to_list.
    by rewrite bool_decide_eq_true. }
  destruct ps as [|p0 ps'] eqn:E.
  - intros ->%list_elem_of_singleton. simpl. split_and!; try done. intros k p Hk Hid.
    apply (not_elem_of_nil (k, p)), Hps. done.
  - intros ([k p] & -> & Hin)%list_elem_of_fmap. apply Hps in Hin as [Hk Hid]. simpl. split_and!; try done. by exists p.
Qed.

Lemma ledger_row_source limit s row : row ∈ ledger_rows limit s →
  ∃ c, s.(cs_certificates) !! row.(lr_certificate_id) = Some c ∧ ledger_eligible c s = true ∧
    row ∈ joined_rows s (row.(lr_certificate_id), c).
Proof.
  unfold ledger_rows. intros Hin%(subseteq_take (Z.to_nat limit)). rewrite (sort_by_perm ledger_leb) in Hin.
  apply list_elem_of_In, in_flat_map in Hin as ([id c] & He & Hin). apply list_elem_of_In in Hin.
  apply filter_In in He as [He Hel]. apply list_elem_of_In, elem_of_map_to_list in He.
  destruct (joined_row _ _ _ Hin) as [-> _]. eauto.
Qed.

(** ** Grouping *)

Definition member_of {A} (groups : list (text * list A)) (k : text) (x : A) : Prop :=
  ∃ xs, (k, xs) ∈ groups ∧ x ∈ xs.

Lemma group_add_member {A} k (x : A) groups k' y :
  member_of (group_add k x groups) k' y ↔ (k' = k ∧ y = x) ∨ member_of groups k' y.
Proof.
  unfold member_of. induction groups as [|[k0 xs] groups IH]; simpl.
  - split.
    + intros (ys & [= -> ->]%list_elem_of_singleton & ->%list_elem_of_singleton). by left.
    + intros [[-> ->]|(ys & Hin & _)]; [|by apply not_elem_of_nil in Hin].
      exists [x]. split; by apply list_elem_of_singleton.
  - destruct (decide (k0 = k)) as [->|Hne]; setoid_rewrite elem_of_cons.
    + split.
      * intros (ys & [[= -> ->]|Hin] & Hy); [|by eauto]. apply elem_of_app in Hy as [Hy| ->%list_elem_of_singleton]; eauto.
      * intros [[-> ->]|(ys & [[= -> ->]|Hin] & Hy)].
        -- exists (xs ++ [x])%list. split; [by left|]. apply elem_of_app. right. by apply list_elem_of_singleton.
        -- exists (xs ++ [x])%list. split; [by left|]. apply elem_of_app. by left.
        -- eauto.
    + split.
      * intros (ys & [Heq|Hin] & Hy); [by eauto|]. destruct (proj1 IH) as [?|(zs & ? & ?)]; [by eauto| |]; eauto.
      * intros [Hk|(ys & [Heq|Hin] & Hy)]; [|by eauto|].
        -- destruct (proj2 IH (or_introl Hk)) as (ys & ? & ?). eauto.
        -- destruct (proj2 IH) as (zs & ? & ?); eauto.
Qed.

Lemma grouped_member rows k i row :
  member_of (grouped rows) k (i, row) ↔ rows !! i = Some row ∧ row.(lr_certificate_id) = k.
Proof.
  assert (Hf : ∀ (l : list (nat * ledger_row)) groups,
    member_of (foldl (fun groups e => group_add e.2.(lr_certificate_id) e groups) groups l) k (i, row) ↔
    ((i, row) ∈ l ∧ row.(lr_certificate_id) = k) ∨ member_of groups k (i, row)).
  { induction l as [|e l IH]; intros groups; simpl.
    - setoid_rewrite elem_of_nil. naive_solver.
    - rewrite IH, group_add_member, elem_of_cons. naive_solver. }
  unfold grouped. rewrite Hf. split.
  - intros [[Hin <-]|(xs & Hx & _)]; [|by apply not_elem_of_nil in Hx].
    apply list_elem_of_lookup_1 in Hin as [n Hn]. rewrite list_lookup_imap in Hn.
    destruct (rows !! n) eqn:E; simpl in Hn; [|done]. by injection Hn as -> ->.
  - intros [Hi <-]. left. split; [|done]. apply (list_elem_of_lookup_2 _ i). by rewrite list_lookup_imap, Hi.
Qed.

(** ** Rendering *)

(** What [stored_certificate] checks. *)
Lemma stored_certificate_inv id s parent c : stored_certificate id s = Ret (parent, c) →
  s.(cs_certificates) !! id = Some parent ∧
  (∃ v, _validate_certificate_record parent.(cr_canonical_json) None None None = Some v ∧ v.(va_record) = c ∧
        v.(va_canonical_json) = parent.(cr_canonical_json) ∧ v.(va_sha256) = parent.(cr_result_sha256)) ∧
  ∃ rows, mapM _certificate_child_projection c.(ce_policies) = Some rows ∧ policies_match id rows s.(cs_policies).
Proof.
  unfold stored_certificate. intros Hop. apply bind_ret_inv in Hop as (row & Hp%require_some_ret_inv & Hop).
  apply bind_ret_inv in Hop as (v & Hv%require_some_ret_inv & Hop).
  apply bind_ret_inv in Hop as (? & Hd%require_ret_inv & Hop). bools.
  apply bind_ret_inv in Hop as (? & _ & Hop). apply bind_ret_inv in Hop as (? & Ha & [= <- <-]).
  apply assert_match in Ha as [_ Hrows]. split_and!; [done| |done]. by exists v.
Qed.

(** The item of a row, rendered from the stored certificate. *)
Definition row_item (today : Z) s (row : ledger_row) (item : ledger_item) : Prop :=
  ∃ parent c, stored_certificate row.(lr_certificate_id) s = Ret (parent, c) ∧
    render_item today row.(lr_certificate_id) parent c row = Ret item.

Definition values_from (today : Z) s (rows : list ledger_row) (st : ledger_state) : Prop :=
  length st.(lg_values) = length rows ∧
  ∀ i item, st.(lg_values) !! i = Some (Some item) → ∃ row, rows !! i = Some row ∧ row_item today s row item.

Lemma render_rows_from today id parent c sels st st' s rows :
  stored_certificate id s = Ret (parent, c) →
  (∀ i row, (i, row) ∈ sels → rows !! i = Some row ∧ row.(lr_certificate_id) = id) →
  render_rows today id parent c sels st = Ret st' → values_from today s rows st → values_from today s rows st'.
Proof.
  intros Hs. revert st. induction sels as [|[index row] sels IH]; intros st Hall Hop [Hl Hv]; simpl in Hop.
  { by injection Hop as <-. }
  apply bind_ret_inv in Hop as (item & Hi & Hop). apply bind_ret_inv in Hop as (? & _ & Hop). cbv zeta in Hop.
  apply bind_ret_inv in Hop as (? & _ & Hop). destruct (Hall index row) as [Hrow Hid]; [by left|].
  eapply IH; [|exact Hop|]; [intros i r Hir; apply Hall; by right|].
  split; simpl; [by rewrite length_insert|]. intros i y Hx.
  destruct (decide (i = index)) as [->|Hne]; [|rewrite list_lookup_insert_ne in Hx by done; by apply Hv].
  rewrite list_lookup_insert_eq in Hx by (rewrite Hl; by eapply lookup_lt_Some). injection Hx as <-.
  exists row. split; [done|]. exists parent, c. by rewrite Hid.
Qed.

Lemma render_groups_from today groups evidence s st st' rows :
  (∀ k i row, member_of groups k (i, row) → rows !! i = Some row ∧ row.(lr_certificate_id) = k) →
  render_groups today groups evidence s st = Ret st' → values_from today s rows st → values_from today s rows st'.
Proof.
  revert evidence st. induction groups as [|[k sels] groups IH]; intros evidence st Hall Hop Hv; simpl in Hop.
  { by injection Hop as <-. }
  apply bind_ret_inv in Hop as (? & _ & Hop). apply bind_ret_inv in Hop as (? & _ & Hop).
  apply bind_ret_inv in Hop as ([parent c] & Hs & Hop). apply bind_ret_inv in Hop as (st1 & Hr & Hop).
  eapply IH; [|exact Hop|].
  - intros k' i row (xs & Hin & Hx). apply Hall. exists xs. split; [by right|done].
  - eapply render_rows_from; [done| |done|done]. intros i row Hin. apply Hall. exists sels. split; [by left|done].
Qed.

Lemma values_all {A} (l : list (option A)) items : mapM id l = Some items → l = Some <$> items.
Proof.
  revert items. induction l as [|x l IH]; intros items Hm; [by injection Hm as <-|].
  cbn in Hm. destruct x as [x|]; [|done]. cbn in Hm.
  apply bind_Some in Hm as (r & Hr & [= <-]). by rewrite (IH r Hr).
Qed.

(** The listing is the list of the items of its rows. *)
Lemma ledger_items today limit s items : list_certificate_expiry_ledger today limit s = Ret items →
  ∃ day, ledger_today today = Some day ∧ 1 <= limit <= 500 ∧ Forall2 (row_item day s) (ledger_rows limit s) items.
Proof.
  unfold list_certificate_expiry_ledger. intros Hop.
  apply bind_ret_inv in Hop as (day & Hd%require_some_ret_inv & Hop).
  apply bind_ret_inv in Hop as (? & Hl%require_ret_inv & Hop). bools. cbv zeta in Hop.
  apply bind_ret_inv in Hop as (st & Hg & Hop). apply require_some_ret_inv, values_all in Hop.
  exists day. split; [done|]. split; [lia|].
  eapply (render_groups_from _ _ _ _ _ _ (ledger_rows limit s)) in Hg as [Hlen Hv].
  - apply Forall2_same_length_lookup_2; [by rewrite <- Hlen, Hop, length_fmap|].
    intros i row item Hr Hi. destruct (Hv i item) as (row' & Hr' & Hitem).
    + by rewrite Hop, list_lookup_fmap, Hi.
    + congruence.
  - intros k i row. apply grouped_member.
  - split; simpl; [apply length_replicate|]. intros i item Hi. by apply lookup_replicate in Hi as [? _].
Qed.

(** ** What an item says *)

Lemma read_iso_none b cs j : read_iso b cs j = Some None → b = true.
Proof.
  unfold read_iso. destruct b; [done|]. intros (iso & _ & Hi)%bind_Some. by apply bind_Some in Hi as (? & _ & [=]).
Qed.

Lemma read_iso_some b cs j iso : read_iso b cs j = Some (Some iso) → is_some (parse_date iso) = true.
Proof.
  unfold read_iso. destruct b.
  - intros (? & _ & Hi)%bind_Some. by destruct j.
  - intros (t & Ht & Hi)%bind_Some. apply bind_Some in Hi as (? & _ & [= <-]).
    unfold _certificate_iso_date in Ht. destruct j; try done. opts Ht. injection Ht as <-.
    match goal with P : parse_date _ = Some _ |- _ => by rewrite P end.
Qed.

(** A date without a single reading is ambiguous. *)
Lemma date_value_ambiguous pc j d : read_date_value pc j = Some d →
  (d.(dv_iso) = None → d.(dv_ambiguous) = true) ∧ ∀ iso, d.(dv_iso) = Some iso → is_some (parse_date iso) = true.
Proof.
  unfold read_date_value. intros Hd. opts Hd. facts. injection Hd as <-. simpl. split; intros; subst;
    match goal with P : read_iso _ _ _ = Some _ |- _ =>
      first [by apply read_iso_none in P | by apply read_iso_some in P] end.
Qed.

(** The reasons of a policy, and a date that is not there or not single. *)
Definition policy_reviewed (p : policy) : Prop :=
  p.(po_review_reasons) =
    _certificate_policy_review p.(po_effective_date) p.(po_expiration_date) p.(po_review_reasons) ∧
  ∀ d, p.(po_expiration_date) = Some d →
    (d.(dv_iso) = None → d.(dv_ambiguous) = true) ∧ ∀ iso, d.(dv_iso) = Some iso → is_some (parse_date iso) = true.

Lemma read_optional_some {A} (read : json → option A) j x : read_optional read j = Some (Some x) → read j = Some x.
Proof. unfold read_optional. destruct j; try done; by intros (y & Hy & [= ->])%fmap_Some_1. Qed.

Lemma read_policy_reviewed pc j p : read_policy pc j = Some p → policy_reviewed p.
Proof.
  intros Hp. split; [by eapply ps_reasons, read_policy_sound|].
  unfold read_policy in Hp. opts Hp. facts. injection Hp as <-. simpl. intros d Hd. subst.
  match goal with P : _certificate_date_value _ _ = Some (Some d) |- _ =>
    by apply read_optional_some in P; apply (date_value_ambiguous _ _ _ P) end.
Qed.

Lemma validated_policies payload sha size name v :
  _validate_certificate_record payload sha size name = Some v → Forall policy_reviewed v.(va_record).(ce_policies).
Proof.
  intros (j & _ & Hr & _)%validated_inv. unfold read_record in Hr. opts Hr. destruct x12 as [required reasons].
  cbv beta iota in Hr. opts Hr. facts. injection Hr as <-. simpl.
  match goal with P : read_policies _ _ _ = Some ?ps |- Forall _ ?ps => revert P end. clear.
  match goal with |- read_policies _ ?seen ?raws = Some ?ps → _ => generalize seen, ps; induction raws as [|j raws IH] end;
    intros seen ps; cbn [read_policies]; [by intros [= <-]; constructor|].
  intros Hp. opts Hp. facts. injection Hp as <-. constructor; [by eapply read_policy_reviewed|by eapply IH].
Qed.

(** The expiration column of a projected policy. *)
Lemma child_expiration p ch : _certificate_child_projection p = Some ch →
  (ch.(ch_expiration_date) ≫= fun d => d.1.1.1) = date_iso p.(po_expiration_date).
Proof.
  unfold _certificate_child_projection. intros Hc. opts Hc. injection Hc as <-. simpl. unfold date_iso.
  match goal with P : _certificate_date_projection (po_expiration_date p) = Some ?x |- _ => rename P into Hx end.
  unfold _certificate_date_projection in Hx. destruct (po_expiration_date p); [|by injection Hx as <-].
  opts Hx. by injection Hx as <-.
Qed.

(** The policy an item shows is the one of its row. *)
Definition item_policy (c : certificate) (item : ledger_item) : Prop :=
  match item.(li_policy) with
  | None => c.(ce_policies) = [] ∧ item.(li_expiration_iso) = None
  | Some (_, ordinal) => ∃ p, 0 <= ordinal ∧ c.(ce_policies) !! Z.to_nat ordinal = Some p ∧
      item.(li_coverage) = party_text p.(po_coverage) ∧ item.(li_insurer) = party_text p.(po_insurer) ∧
      item.(li_policy_number) = party_text p.(po_policy_number) ∧
      item.(li_expiration_iso) = date_iso p.(po_expiration_date)
  end.

Record item_sound (day : Z) s (row : ledger_row) (item : ledger_item) : Prop := {
  is_row : item.(li_certificate_id) = row.(lr_certificate_id) ∧ item.(li_policy) = row.(lr_policy) ∧
    item.(li_expiration_iso) = row.(lr_expiration) ∧ item.(li_source_available) = row.(lr_source_available);
  (** rendered from the record the stored bytes validate to *)
  is_record : ∃ parent v, s.(cs_certificates) !! item.(li_certificate_id) = Some parent ∧
    _validate_certificate_record parent.(cr_canonical_json) None None None = Some v ∧
    item.(li_insured) = party_text v.(va_record).(ce_insured) ∧ item_policy v.(va_record) item ∧
    (item.(li_message_id), item.(li_part_id), item.(li_job_id)) =
      (parent.(cr_message_id), parent.(cr_part_id), parent.(cr_job_id));
  is_status : match item.(li_expiration_iso) with
    | None => item.(li_expiry_status) = NeedsReview
    | Some iso => ∃ d, parse_date iso = Some d ∧
        (item.(li_expiry_status) = Expired ↔ d < day) ∧ (item.(li_expiry_status) = ExpiresToday ↔ d = day) ∧
        (item.(li_expiry_status) = Upcoming ↔ day < d)
    end;
  (** an item without a single expiration date asks for a review *)
  is_review : item.(li_expiration_iso) = None → item.(li_review_reasons) ≠ [] }.

(** The policy of a row, as the record has it. *)
Lemma selected_inv limit s row parent c selected :
  row ∈ ledger_rows limit s → stored_certificate row.(lr_certificate_id) s = Ret (parent, c) →
  selected_policy c row = Ret selected →
  ((snd <$> selected) ≫= po_expiration_date) ≫= dv_iso = row.(lr_expiration) ∧
  match row.(lr_policy) with
  | None => c.(ce_policies) = [] ∧ selected = None
  | Some (_, ordinal) => ∃ p, 0 <= ordinal ∧ c.(ce_policies) !! Z.to_nat ordinal = Some p ∧ selected = Some (ordinal, p)
  end.
Proof.
  intros (c0 & _ & _ & Hj)%ledger_row_source (_ & _ & rows & Hrows & Hm1 & Hm2)%stored_certificate_inv Hsel.
  destruct (joined_row _ _ _ Hj) as (_ & _ & _ & Hp). unfold selected_policy in Hsel. simpl in Hp.
  destruct (lr_policy row) as [[k ordinal]|].
  - destruct Hp as (p & Hk & Hid & Hord & Hexp).
    destruct (Hm1 k p Hk Hid) as (i & Hi & Hcol). apply mapM_Some_1 in Hrows.
    destruct (Forall2_lookup_r _ _ _ _ _ Hrows Hcol) as (po & Hpo & Hch).
    assert (ordinal = Z.of_nat i) as -> by congruence. rewrite Hexp. unfold expiration_column.
    rewrite (child_expiration _ _ Hch). rewrite (proj2 (Z.leb_le 0 (Z.of_nat i))), Nat2Z.id, Hpo in Hsel by lia.
    injection Hsel as <-. split; [done|]. exists po. rewrite Nat2Z.id. split_and!; [lia|done|done].
  - destruct Hp as [-> Hnone]. injection Hsel as <-. split; [done|]. split; [|done].
    destruct rows as [|e rows].
    + apply mapM_Some_1 in Hrows. by inversion Hrows.
    + destruct (Hm2 0%nat e eq_refl) as (k & p & Hk & Hid & _). by destruct (Hnone k p Hk).
Qed.

Lemma status_inv day policy status : expiry_status day policy = Ret status →
  match (policy ≫= po_expiration_date) ≫= dv_iso with
  | None => status = NeedsReview
  | Some iso => ∃ d, parse_date iso = Some d ∧ (status = Expired ↔ d < day) ∧ (status = ExpiresToday ↔ d = day) ∧
      (status = Upcoming ↔ day < d)
  end.
Proof.
  unfold expiry_status. destruct (_ ≫= dv_iso) as [iso|]; [|by intros [= <-]]. intros Hop.
  apply bind_ret_inv in Hop as (d & Hd%require_some_ret_inv & [= <-]). exists d. split; [done|].
  destruct (Z.ltb_spec d day); [|destruct (Z.eqb_spec d day)]; split_and!; split; intros; try done; lia.
Qed.

(** A policy without a single expiration date has a reason, which its item keeps. *)
Lemma policy_needs_review c ordinal p : policy_reviewed p → date_iso p.(po_expiration_date) = None →
  item_reasons c (Some (ordinal, p)) ≠ [].
Proof.
  intros [Hr Ha] Hd Hnil. unfold item_reasons in Hnil. apply app_nil in Hnil as [_ Hnil].
  assert (p.(po_review_reasons) = []) as Hempty by (case_match; [by destruct (po_review_reasons p)|done]).
  assert (str "EXPIRATION_DATE_MISSING" ∈ po_review_reasons p ∨ str "EXPIRATION_DATE_AMBIGUOUS" ∈ po_review_reasons p)
    as [Hin|Hin]; [|by rewrite Hempty in Hin; apply not_elem_of_nil in Hin..].
  rewrite Hr, review_missing_end, review_ambiguous_end. unfold date_iso in Hd.
  destruct (po_expiration_date p) as [d|]; [right; by apply (Ha d)|by left].
Qed.

Lemma row_item_sound limit day s row item :
  row ∈ ledger_rows limit s → row_item day s row item → item_sound day s row item.
Proof.
  intros Hrow (parent & c & Hs & Hi). unfold render_item in Hi.
  apply bind_ret_inv in Hi as (selected & Hsel & Hi). cbv zeta in Hi.
  apply bind_ret_inv in Hi as (status & Hst%status_inv & [= <-]).
  destruct (selected_inv _ _ _ _ _ _ Hrow Hs Hsel) as [Hexp Hpol].
  destruct (stored_certificate_inv _ _ _ _ Hs) as (Hid & (v & Hv & <- & _) & _).
  split; simpl; [by rewrite Hexp| | by rewrite Hexp in * |].
  - exists parent, v. split_and!; [done..| |done]. unfold item_policy. simpl.
    destruct (lr_policy row) as [[k ordinal]|].
    + destruct Hpol as (p & ? & ? & ->). exists p. by split_and!.
    + destruct Hpol as [? ->]. done.
  - intros Hnone. destruct (lr_policy row) as [[k ordinal]|].
    + destruct Hpol as (p & _ & Hp & ->). apply policy_needs_review; [|done].
      apply validated_policies in Hv. rewrite list.Forall_forall in Hv. apply Hv. by eapply list_elem_of_lookup_2.
    + destruct Hpol as [Hnil ->]. simpl. intros Hr.
      apply validated_inv in Hv as (j & _ & (Hrs & _)%read_record_sound & _).
      apply (rs_rows _ Hrs) in Hnil. rewrite Hr in Hnil. by apply not_elem_of_nil in Hnil.
Qed.

(** C25: The expiry ledger lists the rows of the eligible certificates, by expiration date and with what has none last.
    Every item shows the policy of its row as the validated bytes have it, its status is the comparison of its single
    expiration date with the day that was asked for, and an item without such a date always asks for a review. *)
Theorem ledger_exact today limit s items :
  list_certificate_expiry_ledger today limit s = Ret items →
  ∃ day, ledger_today today = Some day ∧ 1 <= limit <= 500 ∧
    StronglySorted ledger_leb (ledger_rows limit s) ∧ Forall2 (item_sound day s) (ledger_rows limit s) items.
Proof.
  intros (day & Hd & Hl & Hf)%ledger_items. exists day. split_and!; try done; try lia; [apply ledger_rows_sorted|].
  apply Forall2_same_length_lookup_2; [by eapply Forall2_length|]. intros i row item Hr Hi.
  apply (row_item_sound limit); [by eapply list_elem_of_lookup_2|]. by eapply Forall2_lookup_lr.
Qed.

End Ledger.

(** * The expiry ledger can be read

    In every reachable store the listing fails only by what it bounds: the rows agree with
    the stored bytes, and the bytes validate again. *)

Section Readable.
Context `{Unicode} `{ConnectLib}.
Implicit Types s : connect_store.

(** ** The rows agree with the record *)

Lemma filter_nodup {A} (f : A → bool) l : NoDup l → NoDup (List.filter f l).
Proof.
  induction 1 as [|x l Hx Hl IH]; simpl; [constructor|]. case_match; [|done].
  constructor; [|done]. rewrite elem_filter. by intros [? _].
Qed.

Lemma NoDup_fmap_on {A B} (f : A → B) l :
  (∀ x y, x ∈ l → y ∈ l → f x = f y → x = y) → NoDup l → NoDup (f <$> l).
Proof.
  intros Hf Hl. induction Hl as [|x l Hx Hl IH]; simpl; [constructor|]. constructor.
  - intros (y & Hy & Hin)%list_elem_of_fmap. apply Hf in Hy; [by subst|by left|by right].
  - apply IH. intros y z ? ?. apply Hf; by right.
Qed.

Lemma ordinal_total a b : ordinal_leb a b = false → ordinal_leb b a = true.
Proof. unfold ordinal_leb. lia. Qed.
Lemma ordinal_trans a b c : ordinal_leb a b = true → ordinal_leb b c = true → ordinal_leb a c = true.
Proof. unfold ordinal_leb. lia. Qed.

Abbreviation columns_of := (fun e : text * PolicyRow => (e.2.(pl_ordinal), e.2.(pl_columns))).

Lemma policy_columns id rows s : policies_match id rows s.(cs_policies) → ordinals_unique s.(cs_policies) →
  columns_of <$> policy_rows id s = imap (fun ordinal e => (Z.of_nat ordinal, e)) rows.
Proof.
  intros [Hm1 Hm2] Hu.
  assert (Hl : ∀ x, x ∈ columns_of <$> policy_rows id s ↔ ∃ i : nat, x.1 = Z.of_nat i ∧ rows !! i = Some x.2).
  { intros x. rewrite list_elem_of_fmap. split.
    - intros ([k p] & -> & [Hk Hid]%policy_rows_elem). destruct (Hm1 k p Hk Hid) as (i & ? & ?). by exists i.
    - intros (i & Hi & Hr). destruct (Hm2 i _ Hr) as (k & p & Hk & Hid & Ho & Hc). exists (k, p).
      split; [destruct x; simpl in *; congruence|]. by apply policy_rows_elem. }
  assert (Hr : ∀ x, x ∈ imap (fun ordinal e => (Z.of_nat ordinal, e)) rows ↔
    ∃ i : nat, x.1 = Z.of_nat i ∧ rows !! i = Some x.2).
  { intros x. rewrite list_elem_of_lookup. setoid_rewrite list_lookup_imap. split.
    - intros (i & (e & He & ->)%fmap_Some_1). eauto.
    - intros (i & Hi & He). exists i. rewrite He. destruct x. simpl in *. by subst. }
  apply (StronglySorted_unique_strong (fun a b => a.1 <= b.1)).
  - intros x y (i & Hi & Hx)%Hl (j & Hj & Hy)%Hr ? ?. assert (i = j) as -> by lia. destruct x, y. simpl in *. congruence.
  - eapply StronglySorted_fmap; [|apply sort_by_sorted; [apply ordinal_total|apply ordinal_trans]].
    intros a b Hab%Is_true_true. unfold ordinal_leb in Hab. simpl. lia.
  - clear Hl Hr Hm1 Hm2. generalize rows. clear. intros rows.
    assert (Hg : ∀ n, StronglySorted (fun a b : Z * child_columns => a.1 <= b.1)
                        (imap (fun ordinal e => (Z.of_nat (n + ordinal), e)) rows)); [|apply (Hg 0%nat)].
    induction rows as [|e rows IH]; intros n; simpl; constructor.
    + eapply (eq_rect _ _ (IH (S n))). apply imap_ext. intros i x _. simpl. do 2 f_equal. lia.
    + apply list.Forall_forall. intros [z x] (i & Hi)%list_elem_of_lookup. rewrite list_lookup_imap in Hi.
      apply fmap_Some_1 in Hi as (y & _ & [= -> ->]). simpl. lia.
  - apply NoDup_Permutation.
    + apply NoDup_fmap_on.
      * intros [k p] [k' p'] [Hk Hid]%policy_rows_elem [Hk' Hid']%policy_rows_elem [= Ho _].
        assert (k = k') as <- by (eapply Hu; eauto; congruence). congruence.
      * unfold policy_rows. rewrite (sort_by_perm ordinal_leb). apply filter_nodup, NoDup_map_to_list.
    + apply NoDup_alt. intros i j x. rewrite !list_lookup_imap.
      intros (e & _ & ->)%fmap_Some_1 (e' & _ & [= ?])%fmap_Some_1. lia.
    + intros x. by rewrite Hl, Hr.
Qed.

Lemma match_assert id parent c rows s :
  _certificate_parent_projection c = Some parent.(cr_columns) →
  mapM _certificate_child_projection c.(ce_policies) = Some rows →
  policies_match id rows s.(cs_policies) → ordinals_unique s.(cs_policies) →
  _certificate_assert_projection id parent c s = Ret tt.
Proof.
  intros Hp Hr Hm Hu. pose proof (policy_columns id rows s Hm Hu) as Hcols.
  assert (length (policy_rows id s).*2 = length rows) as Hlen.
  { apply (f_equal length) in Hcols. rewrite length_imap, length_fmap in Hcols. by rewrite length_fmap. }
  unfold _certificate_assert_projection. rewrite Hp, Hr. cbn [require_some mbind py_bind].
  rewrite (bool_decide_eq_true_2 (_ = cr_columns parent)) by done. simpl. rewrite (bool_decide_eq_true_2 _ Hlen). simpl.
  rewrite bool_decide_eq_true_2; [done|]. by rewrite <- list_fmap_compose.
Qed.

(** ** The stored certificates *)

Lemma sql_length_nonempty t n : sql_length t = S n → truthy t = true.
Proof. destruct t; [done|]. intros _. by apply bool_decide_eq_true_2. Qed.

Lemma row_identity id c : certificate_row_ok id c = true →
  identity_key_ok c.(cr_scope).2 && truthy c.(cr_scope).1.1 && truthy c.(cr_scope).1.2 &&
  truthy c.(cr_message_id) && truthy c.(cr_job_id) = true ∧ 2 <= byte_count c.(cr_canonical_json).
Proof.
  unfold certificate_row_ok, blob_between. intros Hok. rewrite !andb_true_iff, !negb_true_iff, !bool_decide_eq_true,
    !bool_decide_eq_false in Hok. destruct_and?. split; [|lia]. rewrite !andb_true_iff. split_and!; try done;
    try (by apply bool_decide_eq_true_2). by eapply sql_length_nonempty.
Qed.

Lemma stored_ok id c s : certificates_inv s → s.(cs_certificates) !! id = Some c →
  ∃ record, stored_certificate id s = Ret (c, record).
Proof.
  intros Hinv Hid. destruct (ci_evidence _ Hinv _ _ Hid) as (v & rows & Hce & Hm & Hpm).
  destruct Hce as [(payload & sha & size & name & Hv) Hs Hc Hp].
  apply validated_inv in Hv as (j & Hi & Hr%read_record_unbound & Hj & Hsz & Hd).
  assert (Hagain : _validate_certificate_record c.(cr_canonical_json) None None None = Some v)
    by (rewrite Hc; by eapply canonical_again).
  exists v.(va_record). unfold stored_certificate. rewrite Hid. simpl. rewrite Hagain. simpl.
  rewrite !bool_decide_eq_true_2 by done. simpl.
  rewrite (proj1 (row_identity _ _ (ci_row _ Hinv _ _ Hid))). simpl.
  by rewrite (match_assert id c v.(va_record) rows s Hp Hm Hpm (ci_ordinals _ Hinv)).
Qed.

(** ** Texts with UTF-8 *)

Definition plain (t : text) : Prop := is_Some (Utf8.encode t).
Definition plain_char (c : N) : Prop := is_Some (Utf8.encode_char c).

Lemma plain_cons c t : plain (c :: t) ↔ plain_char c ∧ plain t.
Proof.
  unfold plain, plain_char. simpl. destruct (Utf8.encode_char c), (Utf8.encode t); split; try (by intros [? [=]]);
    try (by intros [[? [=]] _]); try (by intros [_ [? [=]]]); by eauto.
Qed.

Lemma plain_app t1 t2 : plain (t1 ++ t2) ↔ plain t1 ∧ plain t2.
Proof.
  induction t1 as [|c t1 IH]; simpl; [|rewrite !plain_cons, IH; tauto]. split; [|by intros [_ ?]]. intros ?. split; [by eexists|done].
Qed.

Lemma plain_nil : plain [].
Proof. by eexists. Qed.

Lemma plain_ascii c : (c < 128)%N → plain_char c.
Proof. intros Hc. unfold plain_char, Utf8.encode_char. rewrite (proj2 (N.ltb_lt c 128)) by done. by eexists. Qed.

Lemma plain_ascii_text t : Forall (fun c => (c < 128)%N) t → plain t.
Proof. induction 1 as [|c t Hc _ IH]; [apply plain_nil|]. apply plain_cons. split; [by apply plain_ascii|done]. Qed.

Lemma plain_join sep l : plain sep → (plain (join sep l) ↔ Forall plain l).
Proof.
  intros Hs. induction l as [|x l IH]; [split; intros; [constructor|apply plain_nil]|].
  rewrite list.Forall_cons, <- IH. destruct l as [|y l]; simpl; [|rewrite !plain_app; tauto].
  split; [intros ?; split; [done|apply plain_nil]|by intros []].
Qed.

Lemma hex4_ascii c : Forall (fun c => (c < 128)%N) (hex4 c).
Proof.
  assert (∀ x, ((if N.land x 15 <? 10 then 48 + N.land x 15 else 87 + N.land x 15) < 128)%N) as Hd.
  { intros x. assert (N.land x 15 < 16)%N by (change 15%N with (N.ones 4); rewrite N.land_ones; by apply N.mod_lt).
    case_match; lia. }
  unfold hex4. cbv zeta. repeat (apply list.Forall_cons; split; [apply Hd|]). constructor.
Qed.

Lemma escape_plain c : plain (escape_char false c) ↔ plain_char c.
Proof.
  assert (∀ t, Forall (fun c => (c < 128)%N) t → (c < 128)%N → plain t ↔ plain_char c) as Hesc.
  { intros t Ht Hc. split; intros _; [by apply plain_ascii|by apply plain_ascii_text]. }
  unfold escape_char.
  repeat match goal with |- context [(c =? ?n)%N] => destruct (N.eqb_spec c n); [subst; apply Hesc; [repeat constructor|]; lia|] end.
  destruct (N.ltb_spec c 32).
  - apply Hesc; [|lia]. apply list.Forall_app. split; [repeat constructor; lia|apply hex4_ascii].
  - simpl. rewrite plain_cons. split; [by intros []|]. intros ?. split; [done|apply plain_nil].
Qed.

Lemma quoted_plain t : plain (quoted false t) ↔ plain t.
Proof.
  unfold quoted. rewrite !plain_app. assert (plain [34%N]) as Hq by (apply plain_ascii_text; repeat constructor; lia).
  assert (plain (flat_map (escape_char false) t) ↔ plain t) as ->; [|tauto].
  induction t as [|c t IH]; simpl; [done|]. by rewrite plain_app, plain_cons, escape_plain, IH.
Qed.

Lemma digits_encodable t : forallb is_digit t = true → plain t.
Proof.
  intros Ht. apply plain_ascii_text, list.Forall_forall. intros c Hc. rewrite forallb_forall in Ht.
  apply list_elem_of_In, Ht in Hc. unfold is_digit in Hc. lia.
Qed.

Lemma int_plain z : plain (int_text z).
Proof.
  destruct z as [|p|p]; simpl; [apply plain_ascii_text; repeat constructor; lia| |apply plain_cons; split; [apply plain_ascii; lia|]];
    apply digits_encodable, decimal_spec.
Qed.

(** Every text of a value has UTF-8. *)
Fixpoint json_plain (j : json) : Prop :=
  match j with
  | JFloat f => plain (Float64.float_repr f)
  | JStr t => plain t
  | JArr l => foldr (fun x acc => json_plain x ∧ acc) True l
  | JObj m => foldr (fun e acc => (plain e.1 ∧ json_plain e.2) ∧ acc) True m
  | _ => True
  end.

Lemma Forall_iff_elem {A} (P Q : A → Prop) l : Forall (fun x => P x ↔ Q x) l → Forall P l ↔ Forall Q l.
Proof. induction 1 as [|x l Hx _ IH]; [by split; constructor|]. by rewrite !list.Forall_cons, Hx, IH. Qed.

Lemma dumps_plain b j : plain (dumps b j) ↔ json_plain j.
Proof.
  assert (∀ c : N, (c < 128)%N → plain [c]) as Hone by (intros c Hc; apply plain_ascii_text; by repeat constructor).
  induction j as [|[]|z|f|t|l IH|m IH] using json_induction.
  - split; [done|intros _]. apply plain_ascii_text. by repeat constructor.
  - split; [done|intros _]. apply plain_ascii_text. by repeat constructor.
  - split; [done|intros _]. apply plain_ascii_text. by repeat constructor.
  - split; [done|intros _]. apply int_plain.
  - done.
  - apply quoted_plain.
  - change (dumps b (JArr l)) with ([91%N] ++ join [44%N] (dumps b <$> l) ++ [93%N])%list.
    rewrite !plain_app, plain_join by (apply Hone; lia). simpl json_plain. rewrite foldr_and_Forall, Forall_fmap.
    rewrite (Forall_iff_elem _ _ _ IH). pose proof (Hone 91%N ltac:(lia)). pose proof (Hone 93%N ltac:(lia)). tauto.
  - rewrite dumps_obj. rewrite plain_cons, plain_app, plain_join by (apply Hone; lia). simpl json_plain.
    rewrite (foldr_and_Forall (fun e : text * json => plain e.1 ∧ json_plain e.2)), Forall_fmap.
    assert (Forall (plain ∘ member_text b) (if b then sort_members m else m) ↔ Forall (plain ∘ member_text b) m) as ->.
    { destruct b; [|done]. by rewrite (sort_members_perm m). }
    assert (Forall (fun e => (plain ∘ member_text b) e ↔ plain e.1 ∧ json_plain e.2) m) as Hm.
    { eapply list.Forall_impl; [exact IH|]. intros e He. unfold member_text, compose. rewrite !plain_app, quoted_plain, He.
      pose proof (Hone 58%N ltac:(lia)). tauto. }
    rewrite (Forall_iff_elem _ _ _ Hm). pose proof (plain_ascii 123 ltac:(lia)). pose proof (Hone 125%N ltac:(lia)). tauto.
Qed.

(** The texts of an item come from the record and from the rows. *)

Lemma strings_plain l : json_plain (strings_json l) ↔ Forall plain l.
Proof. unfold strings_json. simpl. by rewrite foldr_and_Forall, Forall_fmap. Qed.

Lemma option_plain o : json_plain (json_of_option JStr o) ↔ ∀ t, o = Some t → plain t.
Proof. destruct o as [t|]; simpl; [|by split]. split; [by intros ? ? [= <-]|auto]. Qed.

Lemma party_plain o : json_plain (json_of_option text_value_json o) → json_plain (json_of_option JStr (party_text o)).
Proof. destruct o as [v|]; [|done]. simpl. tauto. Qed.

Lemma date_plain o : json_plain (json_of_option date_value_json o) →
  json_plain (json_of_option JStr (o ≫= dv_iso)) ∧ json_plain (strings_json (date_candidates o)).
Proof. destruct o as [v|]; [|done]. simpl. tauto. Qed.

Lemma policies_plain c : json_plain (record_json c) → Forall (fun p => json_plain (policy_json p)) c.(ce_policies).
Proof. simpl. rewrite !foldr_and_Forall, !Forall_fmap. unfold compose. tauto. Qed.

Lemma reasons_plain c selected : json_plain (record_json c) →
  (∀ o p, selected = Some (o, p) → json_plain (policy_json p)) → Forall plain (item_reasons c selected).
Proof.
  intros Hc Hp. assert (Forall plain c.(ce_reasons)) as Hr by (apply strings_plain; simpl in Hc; tauto).
  unfold item_reasons. destruct selected as [[o p]|]; [|done]. specialize (Hp o p eq_refl).
  assert (Forall plain p.(po_review_reasons)) as Hr' by (apply strings_plain; simpl in Hp; tauto).
  apply list.Forall_app. split.
  - rewrite list.Forall_forall in *. intros x [Hx _]%elem_of_filter_b. auto.
  - case_match; [|done]. apply list.Forall_app. split; [done|]. constructor; [by eexists|constructor].
Qed.

Lemma item_plain day id parent c row item : render_item day id parent c row = Ret item →
  json_plain (record_json c) → Forall plain [id; parent.(cr_message_id); parent.(cr_part_id); parent.(cr_job_id)] →
  (∀ k o, row.(lr_policy) = Some (k, o) → plain k) → json_plain (item_json item).
Proof.
  unfold render_item. intros (selected & Hsel & Hop)%bind_ret_inv Hc Hrow Hk. apply bind_ret_inv in Hop as (status & _ & Hop).
  injection Hop as <-.
  assert (∀ o p, selected = Some (o, p) → json_plain (policy_json p)) as Hp.
  { intros o p ->. unfold selected_policy in Hsel. destruct (lr_policy row) as [[k ordinal]|]; [|done].
    apply bind_ret_inv in Hsel as (p' & Hp'%require_some_ret_inv & [= <- <-]). apply policies_plain in Hc.
    rewrite list.Forall_forall in Hc. apply Hc. case_match; [|done]. by eapply list_elem_of_lookup_2. }
  pose proof (reasons_plain c selected Hc Hp) as Hreasons.
  assert (Hpol : ∀ g : policy → option text_value, (∀ p, json_plain (policy_json p) → json_plain (json_of_option text_value_json (g p))) →
    json_plain (json_of_option JStr (party_text ((snd <$> selected) ≫= g)))).
  { intros g Hg. destruct selected as [[o p]|]; [|done]. simpl. apply party_plain, Hg. by eapply Hp. }
  assert (Hdate : ∀ g : policy → option date_value, (∀ p, json_plain (policy_json p) → json_plain (json_of_option date_value_json (g p))) →
    json_plain (json_of_option JStr (((snd <$> selected) ≫= g) ≫= dv_iso)) ∧
    json_plain (strings_json (date_candidates ((snd <$> selected) ≫= g)))).
  { intros g Hg. destruct selected as [[o p]|]; [|done]. simpl. apply date_plain, Hg. by eapply Hp. }
  pose proof (Hdate po_effective_date ltac:(intros p; simpl; tauto)) as [He1 He2].
  pose proof (Hdate po_expiration_date ltac:(intros p; simpl; tauto)) as [Hx1 Hx2].
  pose proof (Hpol po_coverage ltac:(intros p; simpl; tauto)). pose proof (Hpol po_insurer ltac:(intros p; simpl; tauto)).
  pose proof (Hpol po_policy_number ltac:(intros p; simpl; tauto)).
  assert (json_plain (json_of_option text_value_json c.(ce_holder)) ∧ json_plain (json_of_option text_value_json c.(ce_insured)) ∧
    json_plain (json_of_option text_value_json c.(ce_producer))) as (Hh%party_plain & Hi%party_plain & Hpr%party_plain)
    by (simpl in Hc; tauto).
  rewrite !list.Forall_cons in Hrow. destruct Hrow as (R1 & R2 & R3 & R4 & _).
  unfold item_json. cbv zeta.
  cbn [li_certificate_id li_holder li_insured li_producer li_policy li_coverage li_insurer li_policy_number li_effective_iso
    li_effective_ambiguous li_effective_candidates li_expiration_iso li_expiration_ambiguous li_expiration_candidates
    li_expiry_status li_review_reasons li_message_id li_part_id li_job_id li_source_available].
  cbn [json_plain foldr fst snd].
  repeat (split; [split; [by eexists|]|]); try done.
  - apply option_plain. intros t Ht. destruct (lr_policy row) as [[k o]|] eqn:E; [|done]. injection Ht as <-. by eapply Hk.
  - by destruct (lr_policy row).
  - by destruct (dv_ambiguous <$> _).
  - by destruct (dv_ambiguous <$> _).
  - destruct status; by eexists.
  - destruct (truthy_list _); by eexists.
  - by apply strings_plain.
Qed.

(** ** Rendering does not fail *)

Lemma status_ok day policy : (∀ p, policy = Some p → policy_reviewed p) → ∃ status, expiry_status day policy = Ret status.
Proof.
  intros Hp. unfold expiry_status. destruct (_ ≫= dv_iso) as [iso|] eqn:E; [|eauto].
  apply bind_Some in E as (d & (p & -> & Hd)%bind_Some & Hi).
  destruct (Hp p eq_refl) as [_ Ha]. destruct (Ha d Hd) as [_ Hs]. specialize (Hs iso Hi).
  destruct (parse_date iso); [by eexists|done].
Qed.

Lemma render_ok limit day s row parent c :
  row ∈ ledger_rows limit s → stored_certificate row.(lr_certificate_id) s = Ret (parent, c) →
  ∃ item, render_item day row.(lr_certificate_id) parent c row = Ret item.
Proof.
  intros Hrow Hs. assert (∃ selected, selected_policy c row = Ret selected) as [selected Hsel].
  { destruct (ledger_row_source _ _ _ Hrow) as (c0 & _ & _ & Hj). destruct (joined_row _ _ _ Hj) as (_ & _ & _ & Hp).
    destruct (stored_certificate_inv _ _ _ _ Hs) as (_ & _ & rows & Hrows%mapM_Some_1 & Hm1 & _).
    unfold selected_policy. simpl in Hp. destruct (lr_policy row) as [[k ordinal]|]; [|eauto].
    destruct Hp as (p & Hk & Hid & <- & _). destruct (Hm1 k p Hk Hid) as (i & -> & Hcol).
    destruct (Forall2_lookup_r _ _ _ _ _ Hrows Hcol) as (po & Hpo & _).
    rewrite (proj2 (Z.leb_le 0 (Z.of_nat i))), Nat2Z.id, Hpo by lia. by eexists. }
  unfold render_item. rewrite Hsel. simpl.
  destruct (status_ok day (snd <$> selected)) as [status ->]; [|by eexists].
  destruct (stored_certificate_inv _ _ _ _ Hs) as (_ & (v & Hv%validated_policies & <- & _) & _).
  intros p Hp. rewrite list.Forall_forall in Hv. apply Hv.
  destruct (selected_inv _ _ _ _ _ _ Hrow Hs Hsel) as [_ Hpol]. destruct (lr_policy row) as [[k ordinal]|].
  - destruct Hpol as (q & _ & Hq & ->). injection Hp as <-. by eapply list_elem_of_lookup_2.
  - by destruct Hpol as [_ ->].
Qed.

(** The failures that are left: the two bounds. *)
Definition ledger_bound (e : exn) : Prop :=
  e = RuntimeError "Certificate ledger evidence size exceeds the local API limit" ∨
  e = RuntimeError "Certificate ledger response size exceeds the local API limit".

(** The texts of the rows of certificates that are shown have UTF-8: SQLite stores no other. *)
Definition stored_texts s : Prop :=
  (∀ id c, s.(cs_certificates) !! id = Some c →
     Forall plain [id; c.(cr_message_id); c.(cr_part_id); c.(cr_job_id)]) ∧
  ∀ k p, s.(cs_policies) !! k = Some p → plain k.

(** A row that is rendered and encoded. *)
Definition shown (day : Z) (id : text) (parent : CertificateRow) (c : certificate) (row : ledger_row) : Prop :=
  ∃ item, render_item day id parent c row = Ret item ∧ plain (dumps true (item_json item)).

Definition covered (st : ledger_state) (i : nat) : Prop := ∃ item, st.(lg_values) !! i = Some (Some item).

Lemma render_rows_covers day id parent c sels st st' :
  render_rows day id parent c sels st = Ret st' → length st'.(lg_values) = length st.(lg_values) ∧
  ∀ i, (i < length st.(lg_values))%nat → covered st i ∨ (∃ row, (i, row) ∈ sels) → covered st' i.
Proof.
  revert st. induction sels as [|[index row] sels IH]; intros st Hop; simpl in Hop.
  { injection Hop as <-. split; [done|]. intros i _ [Hc|(row & Hin)]; [done|by apply not_elem_of_nil in Hin]. }
  apply bind_ret_inv in Hop as (item & _ & Hop). apply bind_ret_inv in Hop as (? & _ & Hop). cbv zeta in Hop.
  apply bind_ret_inv in Hop as (? & _ & Hop). apply IH in Hop as [Hl Hc]. simpl in Hl. rewrite length_insert in Hl.
  split; [done|]. intros i Hi Hcase. apply Hc; [simpl; by rewrite length_insert|].
  destruct (decide (i = index)) as [->|Hne].
  - left. exists item. simpl. apply list_lookup_insert_eq. lia.
  - destruct Hcase as [[z Hz]|(r & Hin)].
    + left. exists z. simpl. by rewrite list_lookup_insert_ne.
    + apply elem_of_cons in Hin as [[= -> _]|Hin]; [done|]. right. by exists r.
Qed.

Lemma render_rows_bound day id parent c sels st e :
  (∀ i row, (i, row) ∈ sels → shown day id parent c row) →
  render_rows day id parent c sels st = Raise e → ledger_bound e.
Proof.
  unfold ledger_bound. revert st. induction sels as [|[index row] sels IH]; intros st Hall Hop; cbn [render_rows] in Hop; [done|].
  destruct (Hall index row) as (item & Hi & raw & He); [by left|]. rewrite Hi in Hop. cbn [mbind py_bind] in Hop.
  rewrite He in Hop. cbn [require_some mbind py_bind] in Hop.
  cbv zeta in Hop. apply bind_raise_inv in Hop as [Hop|(? & _ & Hop)].
  - unfold require in Hop. case_match; [done|]. injection Hop as <-. tauto.
  - eapply IH; [|exact Hop]. intros i r Hin. apply (Hall i). by right.
Qed.

(** A group that can be rendered. *)
Definition group_ok (day : Z) s (g : text * list (nat * ledger_row)) : Prop :=
  (∃ i row rest, g.2 = (i, row) :: rest ∧ 2 <= row.(lr_bytes)) ∧
  ∃ parent c, stored_certificate g.1 s = Ret (parent, c) ∧
    ∀ i row, (i, row) ∈ g.2 → shown day g.1 parent c row.

Lemma render_groups_covers day groups evidence s st st' :
  render_groups day groups evidence s st = Ret st' → length st'.(lg_values) = length st.(lg_values) ∧
  ∀ i, (i < length st.(lg_values))%nat → covered st i ∨ (∃ k row, member_of groups k (i, row)) → covered st' i.
Proof.
  revert evidence st. induction groups as [|[k sels] groups IH]; intros evidence st Hop; simpl in Hop.
  { injection Hop as <-. split; [done|]. intros i _ [Hc|(k & row & xs & Hin & _)]; [done|by apply not_elem_of_nil in Hin]. }
  apply bind_ret_inv in Hop as (? & _ & Hop). apply bind_ret_inv in Hop as (? & _ & Hop).
  apply bind_ret_inv in Hop as ([parent c] & _ & Hop). apply bind_ret_inv in Hop as (st1 & Hr & Hop).
  apply render_rows_covers in Hr as [Hl1 Hc1]. apply IH in Hop as [Hl2 Hc2]. split; [congruence|].
  intros i Hi Hcase. apply Hc2; [by rewrite Hl1|].
  destruct Hcase as [Hc|(k' & row & xs & [[= -> ->]|Hin]%elem_of_cons & Hx)].
  - left. apply Hc1; [done|by left].
  - left. apply Hc1; [done|]. right. by exists row.
  - right. exists k', row, xs. done.
Qed.

Lemma render_groups_bound day groups evidence s st e :
  Forall (group_ok day s) groups → render_groups day groups evidence s st = Raise e → ledger_bound e.
Proof.
  intros Hall. revert evidence st. induction Hall as [|[k sels] groups Hg _ IH]; intros evidence st Hop; simpl in Hop; [done|].
  destruct Hg as [(i & row & rest & Hsel & Hb) (parent & c & Hs & Hr)]. simpl in *. subst sels.
  apply bind_raise_inv in Hop as [Hop|(? & _ & Hop)].
  { unfold require in Hop. case_match eqn:E; [done|]. lia. }
  apply bind_raise_inv in Hop as [Hop|(? & _ & Hop)].
  { unfold require in Hop. case_match; [done|]. injection Hop as <-. by left. }
  rewrite Hs in Hop. cbn [mbind py_bind] in Hop. apply bind_raise_inv in Hop as [Hop|(st1 & _ & Hop)].
  - eapply render_rows_bound; [|exact Hop]. exact Hr.
  - by eapply IH.
Qed.

Lemma row_shown limit day s row parent c : stored_texts s →
  row ∈ ledger_rows limit s → stored_certificate row.(lr_certificate_id) s = Ret (parent, c) →
  shown day row.(lr_certificate_id) parent c row.
Proof.
  intros [Hcert Hpol] Hrow Hs. destruct (render_ok limit day s row parent c Hrow Hs) as [item Hi]. exists item. split; [done|].
  apply dumps_plain. destruct (stored_certificate_inv _ _ _ _ Hs) as (Hp & (v & (j & _ & _ & Hc & _)%validated_inv & <- & _) & _).
  eapply item_plain; [done| |by apply Hcert|].
  - apply (dumps_plain true). by eexists.
  - intros k o E. destruct (ledger_row_source _ _ _ Hrow) as (c0 & _ & _ & Hj). destruct (joined_row _ _ _ Hj) as (_ & _ & _ & Hk).
    rewrite E in Hk. destruct Hk as (p & Hk & _). by eapply Hpol.
Qed.

Lemma group_add_nonempty {A} k (x : A) groups :
  Forall (fun g => g.2 ≠ []) groups → Forall (fun g => g.2 ≠ []) (group_add k x groups).
Proof.
  induction 1 as [|[k' xs] groups Hg Hgs IH]; simpl; [by repeat constructor|].
  case_decide; constructor; simpl; try done. by destruct xs.
Qed.

Lemma grouped_nonempty rows : Forall (fun g => g.2 ≠ []) (grouped rows).
Proof.
  unfold grouped. assert (Hf : ∀ (l : list (nat * ledger_row)) groups, Forall (fun g => g.2 ≠ []) groups →
    Forall (fun g => g.2 ≠ []) (foldl (fun groups e => group_add e.2.(lr_certificate_id) e groups) groups l)).
  { induction l as [|e l IH]; intros groups Hg; simpl; [done|]. by apply IH, group_add_nonempty. }
  apply Hf. constructor.
Qed.

Lemma groups_ok limit day s : certificates_inv s → stored_texts s →
  Forall (group_ok day s) (grouped (ledger_rows limit s)).
Proof.
  intros Hinv Htexts. apply list.Forall_forall. intros [k sels] Hg.
  assert (Hmem : ∀ i row, (i, row) ∈ sels → row ∈ ledger_rows limit s ∧ row.(lr_certificate_id) = k).
  { intros i row Hin. destruct (proj1 (grouped_member (ledger_rows limit s) k i row)) as [Hi Hid]; [by exists sels|].
    split; [by eapply list_elem_of_lookup_2|done]. }
  assert (Hne : sels ≠ []) by (by apply (proj1 (list.Forall_forall _ _) (grouped_nonempty (ledger_rows limit s)) (k, sels))).
  destruct sels as [|[i row] rest]; [done|]. destruct (Hmem i row) as [Hrow Hid]; [by left|].
  destruct (ledger_row_source _ _ _ Hrow) as (c & Hc & _ & Hj). destruct (joined_row _ _ _ Hj) as (_ & Hb & _).
  rewrite Hid in Hc. destruct (stored_ok k c s Hinv Hc) as [record Hs]. split; simpl.
  - exists i, row, rest. split; [done|]. rewrite Hb. simpl. by eapply row_identity, ci_row.
  - exists c, record. split; [done|].
    intros i' row' Hin. destruct (Hmem i' row' Hin) as [Hrow' <-]. by eapply row_shown.
Qed.

Lemma covered_all (l : list (option ledger_item)) : (∀ i, (i < length l)%nat → ∃ x, l !! i = Some (Some x)) → ∃ r, mapM id l = Some r.
Proof.
  intros Hall. apply mapM_total. intros o (i & Hi)%list_elem_of_lookup.
  destruct (Hall i) as [x Hx]; [apply lookup_lt_Some in Hi; lia|]. exists x. unfold id. congruence.
Qed.

(** C24: In every reachable store whose certificate rows hold texts with UTF-8 (SQLite stores no other), for a canonical
    day and a limit from 1 to 500, the ledger is listed, or refused by one of its two size bounds and by nothing else:
    no stored certificate is found missing, invalid or different from its rows, every selected row is rendered, and
    every coordinate on file, printed as the shortest decimal, is read back as the same float. *)
Theorem ledger_readable today limit s :
  queue_reachable s → stored_texts s → is_some (ledger_today today) = true → 1 <= limit <= 500 →
  match list_certificate_expiry_ledger today limit s with Ret _ => True | Raise e => ledger_bound e end.
Proof.
  intros (_ & _ & Hinv)%reachable_queue_inv Htexts Ht Hl. unfold list_certificate_expiry_ledger.
  destruct (ledger_today today) as [day|]; [|done]. cbn [require_some mbind py_bind].
  rewrite (proj2 (Z.leb_le 1 limit)), (proj2 (Z.leb_le limit 500)) by lia. cbn [andb require mbind py_bind]. cbv zeta.
  destruct (render_groups _ _ _ _ _) as [st|e] eqn:Eg; cbn [mbind py_bind].
  - apply render_groups_covers in Eg as [Hlen Hc]. simpl in *. rewrite length_replicate in *.
    destruct (covered_all st.(lg_values)) as [r ->]; [|done]. rewrite Hlen. intros i Hi. apply Hc; [done|]. right.
    destruct (lookup_lt_is_Some_2 (ledger_rows limit s) i ltac:(lia)) as [row Hrow].
    exists row.(lr_certificate_id), row. by apply grouped_member.
  - eapply render_groups_bound; [by apply groups_ok|done].
Qed.

End Readable.
