(* ===== verification/ConnectWitness.v ===== *)
(** * A concrete queue

    A rule fires for one attachment; its job is created, claimed and accepted; in other
    histories the fire is confirmed, its job expires and is retried, is paused, or its
    message is lost.  The hypotheses of the theorems on the queue hold on them. *)

From S2P Require Export QueueTheorems ConnectCodec.
From S2P Require Import BodyTheorems RuleStoreTheorems.
From stdpp Require Import options.

Local Open Scope Z_scope.

Module ConnectDemo.

Import RuleDemo.
Local Existing Instance ascii_unicode.
Local Existing Instance RuleStoreDemo.no_capabilities.

Definition job : text := str "7c9e6679-7425-40de-944b-e07fc1f90ae7".
Definition fire : text := str "16fd2706-8baf-433b-82eb-8c7fada847da".
Definition second : text := str "5b0b8b51-2b7c-4a51-9a3c-1f4fd6a5d3f1".
Definition digest : text := Eval vm_compute in Sha256.hexdigest (str "invoice").
Definition noon : Z := BodyDemo.day 2.
Definition msg : text := BodyDemo.msg.
Definition mailbox : text := digest.
Definition scope : MailScope := (str "gmail", str "me", mailbox).

(** The message of the bodies, in a mailbox with a proper identity. *)
Definition tables : SourceTables := {|
  st_messages := [{| ms_message_id := msg; ms_provider := str "gmail"; ms_account_id := str "me";
    ms_mailbox_identity_key := Some mailbox; ms_provider_message_id := str "p1"; ms_logical_of := None;
    ms_thread_key := Some (str "t1"); ms_received_at := Some (isoformat (utc noon));
    ms_discovered_at := Some (isoformat (utc noon)) |}];
  st_thread_follow := []; st_mail_accounts := []; st_has_removal_schema := true; st_intents := []; st_targets := [] |}.

Definition input : InputArtifact := mk_input (str "a1") (str "application/pdf") 7 digest.
Definition request : json :=
  JObj [(str "protocol_version", JInt 2); (str "job_id", JStr job);
        (str "capability", JObj [(str "id", JStr (str "invoice.read")); (str "version", JStr (str "1.0"))]);
        (str "inputs", JArr [JObj [(str "artifact_id", JStr (str "a1"));
           (str "media_type", JStr (str "application/pdf")); (str "byte_size", JInt 7);
           (str "sha256", JStr digest); (str "display_name", JStr (str "invoice.pdf"));
           (str "source_app_id", JStr (str "watcher"))]]);
        (str "parameters", JObj [])].
Definition new_job : NewJob :=
  mk_new_job job msg (str "p1") (str "invoice.read") (str "1.0") (str "app") (str "instance") input 2
    (Some (str "1.0")) (Some (str "invoice.pdf")) (Some (str "watcher")) (Utf8.encode (dumps false request))
    (JArr []) None [str "application/json"] false false.

Definition source : FireSource := mk_fire_source digest job 1 msg (str "p1") (isoformat (utc noon)).

(** Random identifiers. *)
Definition uuids (n : nat) : text :=
  (str "00000000-0000-4000-8000-0000000000" ++ [48 + N.of_nat n / 10; 48 + N.of_nat n mod 10]%N)%list.

Definition after {A} (m : py (A * connect_store)) s : connect_store :=
  match m with Ret (_, s') => s' | Raise _ => s end.

Lemma op_returned {A} (m : py (A * connect_store)) s : is_ret m = true → ∃ a, m = Ret (a, after m s).
Proof. destruct m as [[a s']|e]; [eauto|done]. Qed.

Lemma found_row {A} (o : option A) d : is_some o = true → o = Some (default d o).
Proof. by destruct o. Qed.

Definition s0 : connect_store := empty_connect tables {[ (msg, str "p1") ]}.
Definition s1 : connect_store :=
  match insert_fire fire job source scope true s0 with Ret s => s | Raise _ => s0 end.
Abbreviation created := (create_connect_job new_job noon s1).
Definition s2 := after created s1.
Abbreviation submitted := (transition_automation_fire fire PendingDispatch 1 Submitted None (Some job) None None
  noon (str "now") s2).
Definition s3 := after submitted s2.
Abbreviation claim := (claim_connect_lane_head (str "app") (str "instance") None noon s3).
Definition s4 := after claim s3.
Abbreviation accepted_by := (transition_connect_job job Requested Accepted (str "app") (str "instance") None None
  noon (str "now") uuids s4).
Definition s5 := after accepted_by s4.
Abbreviation deferred := (defer_connect_job job ProviderOwned Reconciling (str "timeout") (str "No answer") 4
  false false noon s5).
Definition s6 := after deferred s5.

Definition identity : list (text * json) := [(str "fire_id", JStr fire)].
Abbreviation asked := (transition_automation_fire fire PendingDispatch 1 AwaitingConfirmation None None
  (Some identity) None noon (str "now") s1).
Definition a1 := after asked s1.
Definition hash : text := Eval vm_compute in
  match prepare_identity identity with Ret (h, _) => h | Raise _ => [] end.
Abbreviation decided := (decide_automation_fire fire 2 hash true noon a1).
Definition a2 := after decided a1.

Definition late : Z := noon + 3 * 3600 * US.
Definition x3 : connect_store := (expire_waiting_connect_jobs late s3).2.
Abbreviation retried := (retry_automation_fire_after_failure fire 2 second late x3).
Definition x4 := after retried x3.

Abbreviation paused := (transition_automation_fire fire Submitted 2 EntitlementPaused
  (Some (str "entitlement_inactive")) None None None noon (str "now") s3).
Definition p4 := after paused s3.

(** ** The histories are reachable *)

Lemma admitted_ret : insert_fire fire job source scope true s0 = Ret s1.
Proof.
  unfold s1. destruct (insert_fire _ _ _ _ _ _) eqn:E; [done|]. exfalso.
  assert (Hr : is_ret (insert_fire fire job source scope true s0) = true) by (vm_compute; reflexivity).
  by rewrite E in Hr.
Qed.

Lemma queue_created_ret : ∃ a, created = Ret (a, s2).
Proof. apply op_returned. vm_compute. reflexivity. Qed.
Lemma submitted_ret : ∃ a, submitted = Ret (a, s3).
Proof. apply op_returned. vm_compute. reflexivity. Qed.
Lemma claim_ret : ∃ a, claim = Ret (a, s4).
Proof. apply op_returned. vm_compute. reflexivity. Qed.
Lemma accepted_ret : ∃ a, accepted_by = Ret (a, s5).
Proof. apply op_returned. vm_compute. reflexivity. Qed.
Lemma deferred_ret : ∃ a, deferred = Ret (a, s6).
Proof. apply op_returned. vm_compute. reflexivity. Qed.
Lemma asked_ret : ∃ a, asked = Ret (a, a1).
Proof. apply op_returned. vm_compute. reflexivity. Qed.
Lemma decided_ret : ∃ a, decided = Ret (a, a2).
Proof. apply op_returned. vm_compute. reflexivity. Qed.
Lemma retried_ret : ∃ a, retried = Ret (a, x4).
Proof. apply op_returned. vm_compute. reflexivity. Qed.
Lemma paused_ret : ∃ a, paused = Ret (a, p4).
Proof. apply op_returned. vm_compute. reflexivity. Qed.

Lemma s1_queue : queue_reachable s1.
Proof. exists tables, {[ (msg, str "p1") ]}. apply rtc_once. eapply step_admit, admitted_ret. Qed.
Lemma s2_queue : queue_reachable s2.
Proof. destruct queue_created_ret. eapply queue_reachable_step; [apply s1_queue|]. by eapply step_create. Qed.
Lemma s3_queue : queue_reachable s3.
Proof. destruct submitted_ret. eapply queue_reachable_step; [apply s2_queue|]. by eapply step_fire. Qed.
Lemma s4_queue : queue_reachable s4.
Proof. destruct claim_ret. eapply queue_reachable_step; [apply s3_queue|]. by eapply step_claim. Qed.
Lemma s5_queue : queue_reachable s5.
Proof. destruct accepted_ret. eapply queue_reachable_step; [apply s4_queue|]. by eapply step_transition. Qed.
Lemma a1_queue : queue_reachable a1.
Proof. destruct asked_ret. eapply queue_reachable_step; [apply s1_queue|]. by eapply step_fire. Qed.
Lemma x3_queue : queue_reachable x3.
Proof. eapply queue_reachable_step; [apply s3_queue|]. apply step_expire. Qed.

(** ** Witnesses *)

Definition no_job : ConnectJob :=
  mk_job (mk_job_request [] [] true [] [] None [] input None None None []) None None Requested no_output None None
    no_error [].
Definition no_dispatch : dispatch_row :=
  mk_dispatch Waiting 0 0 None [] false false (mk_authority false false false [] [] None []) None None PRequested
    None None [].
Abbreviation job_in s := (default no_job (s.(cs_jobs) !! job)).
Abbreviation dispatch_in s := (default no_dispatch (s.(cs_dispatch) !! job)).

Lemma s5_job : s5.(cs_jobs) !! job = Some (job_in s5).
Proof. apply found_row. vm_compute. reflexivity. Qed.
Lemma s5_dispatch : s5.(cs_dispatch) !! job = Some (dispatch_in s5).
Proof. apply found_row. vm_compute. reflexivity. Qed.
Lemma s6_job : s6.(cs_jobs) !! job = Some (job_in s6).
Proof. apply found_row. vm_compute. reflexivity. Qed.
Lemma s6_dispatch : s6.(cs_dispatch) !! job = Some (dispatch_in s6).
Proof. apply found_row. vm_compute. reflexivity. Qed.
Lemma s5_accepted : ds_highest (dispatch_in s5) = ConnectStore.PAccepted.
Proof. vm_compute. reflexivity. Qed.
Lemma s5_s6 : queue_step s5 s6.
Proof. destruct deferred_ret. by eapply step_defer. Qed.

(** The provider has accepted the job; deferring it does not let it wait again. *)
Lemma provider_work_never_rewound_witness :
  ds_highest (dispatch_in s5) = ConnectStore.PAccepted ∧ ds_state (dispatch_in s6) ≠ Waiting.
Proof.
  destruct (provider_work_never_rewound s5 s6 job (job_in s5) (job_in s6) (dispatch_in s5) (dispatch_in s6)
    s5_queue s5_s6 s5_job s5_dispatch s6_job s6_dispatch) as [_ Hw].
  split; [exact s5_accepted|]. apply Hw. rewrite s5_accepted. discriminate.
Defined.

Lemma connect_queue_sound_witness : queue_inv s5.
Proof. exact (connect_queue_sound s5 s5_queue). Defined.

Definition fire_in (s : connect_store) : AutomationFire := default (new_fire source) (s.(cs_fires) !! fire).
Lemma s2_fire : s2.(cs_fires) !! fire = Some (fire_in s2).
Proof. apply found_row. vm_compute. reflexivity. Qed.
Lemma s2_s3 : queue_step s2 s3.
Proof. destruct submitted_ret. by eapply step_fire. Qed.


Lemma a1_a2 : queue_step a1 a2.
Proof. destruct decided_ret. by eapply step_decide. Qed.
Lemma a2_receipt : a2.(cs_confirmations) !! fire = Some (hash, isoformat (utc noon)).
Proof. vm_compute. reflexivity. Qed.
Lemma a1_no_receipt : a1.(cs_confirmations) !! fire = None.
Proof. vm_compute. reflexivity. Qed.

(** The receipt of the confirmed fire comes from the decision. *)
Lemma receipt_needs_decision_witness :
  ∃ f, a1.(cs_fires) !! fire = Some f ∧ f.(fi_state) = AwaitingConfirmation.
Proof.
  destruct (receipt_needs_decision a1 a2 fire hash (isoformat (utc noon)) a1_queue a1_a2 a2_receipt)
    as [Hold|(f & f' & b & now & Hf & Hs & _)].
  - rewrite a1_no_receipt in Hold. discriminate.
  - exact (ex_intro _ f (conj Hf Hs)).
Defined.

Lemma retry_needs_proof_witness :
  ∃ j d, x3.(cs_jobs) !! job = Some j ∧ failure_proven j d.
Proof.
  destruct retried_ret as [f' Hop].
  destruct (retry_needs_proof x3 x4 fire 2 second late f' x3_queue Hop)
    as ((f & j & d & job_id & Hf & _ & _ & _ & Hfj & Hj & Hd & Hp) & _).
  assert (Hid : fi_job_id <$> x3.(cs_fires) !! fire = Some (Some job)) by (vm_compute; reflexivity).
  rewrite Hf in Hid. simpl in Hid. rewrite Hfj in Hid. injection Hid as ->. exact (ex_intro _ j (ex_intro _ d (conj Hj Hp))).
Defined.

(** The unclaimed job has expired three hours later. *)
Lemma expiry_exact_witness :
  let r := expire_waiting_connect_jobs late s3 in NoDup r.1 ∧ r.2.(cs_fires) = s3.(cs_fires).
Proof.
  destruct (expiry_exact late s3 (expire_waiting_connect_jobs late s3).1 (expire_waiting_connect_jobs late s3).2
    (surjective_pairing _)) as (Hn & _ & _ & _ & Hf & _).
  exact (conj Hn Hf).
Defined.
Example expiry_reports : (expire_waiting_connect_jobs late s3).1 = [job].
Proof. vm_compute. reflexivity. Qed.

Definition taken : text * ConnectJob * py ConnectDispatch :=
  match claim with Ret (Some x, _) => x | _ => ([], no_job, Raise OverflowError) end.
Lemma claim_taken : claim = Ret (Some (taken.1.1, taken.1.2, taken.2), s4).
Proof.
  unfold taken. destruct claim_ret as [o Hop]. rewrite Hop.
  assert (Hs : is_some o = true).
  { assert (H : is_some (match claim with Ret (o, _) => o | Raise _ => None end) = true) by (vm_compute; reflexivity).
    rewrite Hop in H. exact H. }
  destruct o as [[[? ?] ?]|]; [reflexivity | discriminate Hs].
Qed.

Lemma claim_serves_lane_head_witness :
  ∃ d, (expire_waiting_connect_jobs noon s3).2.(cs_dispatch) !! taken.1.1 = Some d.
Proof.
  destruct (claim_serves_lane_head (str "app") (str "instance") None noon s3 s4 taken.1.1 taken.1.2 taken.2
    s3_queue claim_taken) as (d & d' & _ & Hd & _).
  exact (ex_intro _ d Hd).
Defined.

Lemma p4_dispatch : p4.(cs_dispatch) !! job = Some (dispatch_in p4).
Proof. apply found_row. vm_compute. reflexivity. Qed.
Lemma p4_deadline : ds_admission_deadline (dispatch_in p4) = isoformat (utc (noon + 2 * 3600 * US)).
Proof. vm_compute. reflexivity. Qed.
Lemma p4_paused : ds_paused_at (dispatch_in p4) = Some (isoformat (utc noon)).
Proof. vm_compute. reflexivity. Qed.

(** Paused for three hours, the job gets three hours more. *)
Lemma resume_extends_deadline_witness :
  is_ret (_resume_automation_dispatch job late (str "now") p4) = true.
Proof.
  assert (L : noon <= late) by (vm_compute; discriminate).
  destruct (resume_extends_deadline p4 job (dispatch_in p4) (noon + 2 * 3600 * US) noon late (str "now")
    p4_dispatch p4_deadline p4_paused eq_refl eq_refl L eq_refl) as (extended & d' & s' & Hop & _).
  rewrite Hop. reflexivity.
Defined.

Abbreviation again := (place_job second (job_in s3) (ds_authority (dispatch_in s3)) (str "app") (str "instance")
  noon (isoformat (utc noon)) s3).
Lemma s3_v2 : jr_v2 (jb_request (job_in s3)) = true.
Proof. vm_compute. reflexivity. Qed.
Lemma again_ret : ∃ a, again = Ret (a, after again s3).
Proof. apply op_returned. vm_compute. reflexivity. Qed.
Lemma again_joins : match again with Ret (k, _, _) => k = job | Raise _ => False end.
Proof. vm_compute. reflexivity. Qed.
Lemma job_not_second : job ≠ second.
Proof. apply (bool_decide_unpack _). vm_compute. exact I. Qed.

(** The same call a second time joins the job and adds nothing. *)
Lemma create_admits_or_joins_witness : after again s3 = (expire_waiting_connect_jobs noon s3).2.
Proof.
  pose proof (create_admits_or_joins second (job_in s3) (ds_authority (dispatch_in s3)) (str "app")
    (str "instance") noon s3 s3_v2) as Hc. cbv zeta in Hc.
  destruct again_ret as [[k x] Hop]. pose proof again_joins as Hk. rewrite Hop in Hk. rewrite Hop in Hc.
  destruct Hc as [(_ & Hs & _)|(Hsecond & _)]; [exact Hs|].
  destruct job_not_second. rewrite <- Hk. exact Hsecond.
Defined.

(** The message of the waiting job is lost: the job goes. *)
Lemma source_loss_settles_witness :
  (connect_source_unavailable msg (str "now") (str "now") s3).(cs_jobs) !! job = None.
Proof.
  destruct (source_loss_settles msg (str "now") (str "now") s3 s3_queue) as (_ & Hw & _).
  assert (Hj : s3.(cs_jobs) !! job = Some (job_in s3)) by (apply found_row; vm_compute; reflexivity).
  assert (Hd : s3.(cs_dispatch) !! job = Some (dispatch_in s3)) by (apply found_row; vm_compute; reflexivity).
  destruct (Hw job (job_in s3) (dispatch_in s3) Hj Hd) as [Hnone _]; [vm_compute; reflexivity..|]. exact Hnone.
Defined.

(** ** A result *)

Definition payload : bytes := str "ok".
Definition result : json :=
  JObj [(str "outputs", JArr [JObj [(str "artifact_id", JStr second);
     (str "media_type", JStr (str "text/plain")); (str "byte_size", JInt 2);
     (str "sha256", JStr (Sha256.hexdigest payload)); (str "display_name", JStr (str "out.txt"));
     (str "payload_base64", JStr (str "b2s="))]])].
Definition stored_result : bytes * bytes :=
  match _encode_generic_result result with Ret b => b | Raise _ => ([], []) end.

Lemma stored_result_ret : _encode_generic_result result = Ret (stored_result.1, stored_result.2).
Proof.
  unfold stored_result. assert (Hr : is_ret (_encode_generic_result result) = true) by (vm_compute; reflexivity).
  destruct (_encode_generic_result result) as [[? ?]|]; [reflexivity | discriminate Hr].
Qed.

Lemma result_roundtrip_witness : is_ret (_decode_generic_result stored_result.1) = true.
Proof.
  destruct (result_roundtrip result stored_result.1 stored_result.2 stored_result_ret) as (outs & _ & Hd & _).
  rewrite Hd. reflexivity.
Defined.

End ConnectDemo.
