(* ===== verification/CertificateWitness.v ===== *)
(** * A concrete certificate

    A job asks for the certificate of an attachment; its result is validated and recorded,
    repeated with another insured, and listed in the ledger. *)

From S2P Require Export ConnectWitness LedgerTheorems.
From S2P Require Import RuleStoreTheorems.
From stdpp Require Import options.

Local Open Scope Z_scope.

Module CertificateDemo.

Import RuleDemo ConnectDemo.
Local Existing Instance ascii_unicode.
Local Existing Instance RuleStoreDemo.no_capabilities.

(** ** A record *)

Definition quoted : json :=
  JObj [(str "span_id", JStr (str "s1")); (str "page", JInt 1);
        (str "bbox", JArr [JInt 0; JFloat (Float64.of_decimal false 15 (-1)); JInt 10; JInt 20]);
        (str "exact_text", JStr (str "Acme Ltd 2026-01-01")); (str "token_start", JInt 0); (str "token_end", JInt 3)].
Definition party (t : text) : json :=
  JObj [(str "text", JStr t); (str "whole_span", JBool false); (str "provenance", quoted)].
Definition date (t : text) : json :=
  JObj [(str "iso", JStr t); (str "ambiguous", JBool false); (str "candidates", JArr [JStr t]);
        (str "provenance", quoted)].
Definition one_policy : json :=
  JObj [(str "coverage", JNull); (str "insurer", party (str "Acme")); (str "policy_number", JNull);
        (str "effective_date", date (str "2026-01-01")); (str "expiration_date", date (str "2027-01-01"));
        (str "review_reasons", JArr [])].
Definition record (insured : text) : json :=
  JObj [(str "record_version", JStr (str "1.0"));
        (str "source", JObj [(str "sha256", JStr digest); (str "byte_size", JInt 7); (str "page_count", JInt 2);
           (str "display_name", JStr (str "invoice.pdf"));
           (str "parser", JObj [(str "id", JStr (str "p")); (str "version", JStr (str "1"));
                                (str "settings", JStr (str "d"))])]);
        (str "insured", party insured); (str "certificate_holder", JNull); (str "producer", JNull);
        (str "policies", JArr [one_policy]);
        (str "withheld", JArr [JObj [(str "field", JStr (str "policies[0].coverage"));
           (str "reason", JStr (str "SPAN_UNKNOWN")); (str "detail", JStr (str "none"))]]);
        (str "review", JObj [(str "required", JBool false); (str "reasons", JArr [])]);
        (str "extracted_at", JStr (str "2026-03-01T10:00:00.5Z"))].
Definition payload_of (insured : text) : bytes := default [] (Utf8.encode (dumps false (record insured))).

Abbreviation validating :=
  (_validate_certificate_record (payload_of (str "Acme Ltd")) (Some digest) (Some 7) (Some (str "invoice.pdf"))).
Lemma validating_ok : ∃ v, validating = Some v.
Proof.
  assert (Hv : is_some validating = true) by (vm_compute; reflexivity).
  destruct validating as [v|]; [eauto | discriminate Hv].
Qed.

Lemma certificate_canonical_stable_witness : ∃ v, validating = Some v ∧
  _validate_certificate_record v.(va_canonical_json) (Some digest) (Some 7) (Some (str "invoice.pdf")) = Some v.
Proof.
  destruct validating_ok as (v & Hv). exists v. split; [exact Hv|].
  exact (certificate_canonical_stable _ _ _ _ _ Hv).
Defined.

Lemma certificate_review_exact_witness : ∃ v, validating = Some v ∧ record_sound v.(va_record).
Proof.
  destruct validating_ok as (v & Hv). exists v. split; [exact Hv|].
  exact (proj1 (certificate_review_exact _ _ _ _ _ Hv)).
Defined.

(** ** Its job *)

Definition certificate_request : json :=
  JObj [(str "protocol_version", JInt 2); (str "job_id", JStr job);
        (str "capability", JObj [(str "id", JStr CERTIFICATE_CAPABILITY_ID);
                                 (str "version", JStr CERTIFICATE_CAPABILITY_VERSION)]);
        (str "inputs", JArr [JObj [(str "artifact_id", JStr (str "a1"));
           (str "media_type", JStr (str "application/pdf")); (str "byte_size", JInt 7);
           (str "sha256", JStr digest); (str "display_name", JStr (str "invoice.pdf"));
           (str "source_app_id", JStr (str "watcher"))]]);
        (str "parameters", JObj [])].
Definition certificate_job : NewJob :=
  mk_new_job job msg (str "p1") CERTIFICATE_CAPABILITY_ID CERTIFICATE_CAPABILITY_VERSION (str "app") (str "instance")
    input 2 (Some (str "1.0")) (Some (str "invoice.pdf")) (Some (str "watcher"))
    (Utf8.encode (dumps false certificate_request)) (JArr []) None [CERTIFICATE_RESULT_MEDIA_TYPE] false false.

Definition result_of (insured : text) : json :=
  let payload := payload_of insured in
  JObj [(str "outputs", JArr [JObj [(str "artifact_id", JStr second);
     (str "media_type", JStr CERTIFICATE_RESULT_MEDIA_TYPE); (str "byte_size", JInt (byte_count payload));
     (str "sha256", JStr (Sha256.hexdigest payload)); (str "display_name", JStr (str "certificate.json"));
     (str "payload_base64", JStr (Base64.b64encode payload))]])].

Abbreviation asking := (create_connect_job certificate_job noon s0).
Definition c1 := after asking s0.
Abbreviation taking := (claim_connect_lane_head (str "app") (str "instance") None noon c1).
Definition c2 := after taking c1.
Abbreviation answered := (transition_connect_job job Requested Completed (str "app") (str "instance")
  (Some (V2Result (result_of (str "Acme Ltd")))) None noon (str "now") uuids c2).
Definition c3 := after answered c2.
Abbreviation repeated t := (reconcile_certificate_completed_replay job (str "app") (str "instance") (result_of t) late
  (str "now") c3).
Definition c4 := after (repeated (str "Acme")) c3.

Lemma answered_ret : ∃ a, answered = Ret (a, c3).
Proof. apply op_returned. vm_compute. reflexivity. Qed.
Lemma repeated_ret : ∃ a, repeated (str "Acme") = Ret (a, c4).
Proof. apply op_returned. vm_compute. reflexivity. Qed.
Lemma c3_c4 : queue_step c3 c4.
Proof. destruct repeated_ret. by eapply step_replay. Qed.

Lemma c3_certificate : ∃ parent, certificates_of job c3 = [(uuids 0, parent)].
Proof.
  assert (Hl : ((certificates_of job c3).*1) = [uuids 0]) by (vm_compute; reflexivity).
  destruct (certificates_of job c3) as [|[id parent] []]; [discriminate Hl| |discriminate Hl].
  injection Hl as ->. by exists parent.
Qed.
Lemma c3_stored : ∃ parent, c3.(cs_certificates) !! uuids 0 = Some parent.
Proof.
  destruct c3_certificate as [parent Hc]. exists parent. apply (certificates_of_elem job c3 (uuids 0) parent).
  rewrite Hc. by left.
Qed.

(** The changed result leaves the evidence as it was. *)
Lemma certificate_evidence_durable_witness : ∃ c, certificate_kept (uuids 0) c c3 c4.
Proof.
  destruct c3_stored as [c Hc]. exists c. exact (certificate_evidence_durable c3 c4 (uuids 0) c (rtc_once _ _ c3_c4) Hc).
Defined.

(** The changed result is a conflict. *)
Lemma conflict_found : ∀ parent j, certificates_of job c3 = [(uuids 0, parent)] → c3.(cs_jobs) !! job = Some j →
  replay_verdict (uuids 0) parent j (result_of (str "Acme")) c3 = Ret (Some CertificateConflict).
Proof.
  assert (Hv : match certificates_of job c3, c3.(cs_jobs) !! job with
    | [(id, parent)], Some j =>
        match replay_verdict id parent j (result_of (str "Acme")) c3 with
        | Ret v => bool_decide (v = Some CertificateConflict) | Raise _ => false end
    | _, _ => false end = true) by (vm_compute; reflexivity).
  intros parent j Hc Hj. rewrite Hc, Hj in Hv. destruct (replay_verdict _ _ _ _ _) as [v|]; [|discriminate Hv].
  by apply bool_decide_eq_true_1 in Hv as ->.
Qed.

Lemma replay_job j s' : repeated (str "Acme") = Ret (j, s') → c3.(cs_jobs) !! job = Some j.
Proof.
  unfold reconcile_certificate_completed_replay. intros Hop. cbv zeta in Hop.
  apply bind_ret_inv in Hop as (j0 & Hj & Hop). apply require_some_ret_inv in Hj.
  apply bind_ret_inv in Hop as (? & _ & Hop). apply bind_ret_inv in Hop as (? & _ & Hop).
  apply bind_ret_inv in Hop as (d & _ & Hop). by apply bind_ret_inv in Hop as (s1 & _ & [= <- <-]).
Qed.

(** Repeating the result with another insured fences the certificate. *)
Lemma replay_fences_certificate_witness :
  ∃ c, c4.(cs_certificates) !! uuids 0 = Some c ∧ c.(cr_replay_failure) = Some CertificateConflict.
Proof.
  destruct c3_certificate as [parent Hc], repeated_ret as [j Hop].
  destruct (replay_fences_certificate _ _ _ _ _ _ _ _ _ _ _ Hop Hc) as (verdict & Hv & Hs).
  rewrite (conflict_found parent j Hc (replay_job j c4 Hop)) in Hv. injection Hv as <-.
  exact (ex_intro _ _ (conj (proj1 Hs) eq_refl)).
Defined.

(** ** The ledger *)

Lemma asking_ret : ∃ a, asking = Ret (a, c1).
Proof. apply op_returned. vm_compute. reflexivity. Qed.
Lemma taking_ret : ∃ a, taking = Ret (a, c2).
Proof. apply op_returned. vm_compute. reflexivity. Qed.
Lemma c1_queue : queue_reachable c1.
Proof. destruct asking_ret. exists tables, {[ (msg, str "p1") ]}. apply rtc_once. by eapply step_create. Qed.
Lemma c2_queue : queue_reachable c2.
Proof. destruct taking_ret. eapply queue_reachable_step; [apply c1_queue|]. by eapply step_claim. Qed.
Lemma c3_queue : queue_reachable c3.
Proof. destruct answered_ret. eapply queue_reachable_step; [apply c2_queue|]. by eapply step_transition. Qed.

Definition today : text := str "2026-12-31".
Abbreviation listing := (list_certificate_expiry_ledger today 100 c3).
Lemma listed : ∃ items, listing = Ret items ∧ (li_expiry_status <$> items) = [Upcoming].
Proof.
  assert (Hr : match listing with Ret [i] => match i.(li_expiry_status) with Upcoming => true | _ => false end
               | _ => false end = true) by (vm_compute; reflexivity).
  destruct listing as [[|i [|]]|]; try discriminate Hr. exists [i]. split; [done|]. simpl.
  by destruct (li_expiry_status i).
Qed.

(** The policy expires on the first of January. *)
Lemma ledger_exact_witness : ∃ items day, listing = Ret items ∧ Forall2 (item_sound day c3) (ledger_rows 100 c3) items.
Proof.
  destruct listed as (items & Hl & _).
  destruct (ledger_exact today 100 c3 items Hl) as (day & _ & _ & _ & Hf).
  exact (ex_intro _ items (ex_intro _ day (conj Hl Hf))).
Defined.

Lemma today_ok : is_some (ledger_today today) = true.
Proof. vm_compute. reflexivity. Qed.

Lemma plain_by t : is_some (Utf8.encode t) = true → plain t.
Proof. unfold plain. by destruct (Utf8.encode t); [eexists|]. Qed.

Lemma c3_texts : stored_texts c3.
Proof.
  assert (Hc : forallb (fun e : text * CertificateRow => forallb (fun t => is_some (Utf8.encode t))
    [e.1; e.2.(cr_message_id); e.2.(cr_part_id); e.2.(cr_job_id)]) (map_to_list c3.(cs_certificates)) = true)
    by (vm_compute; reflexivity).
  assert (Hp : forallb (fun e : text * PolicyRow => is_some (Utf8.encode e.1)) (map_to_list c3.(cs_policies)) = true)
    by (vm_compute; reflexivity).
  rewrite forallb_forall in Hc, Hp. split.
  - intros id c E. apply elem_of_map_to_list, list_elem_of_In, Hc in E. rewrite forallb_forall in E.
    apply list.Forall_forall. intros t Ht. by apply plain_by, E, list_elem_of_In.
  - intros k p E. apply elem_of_map_to_list, list_elem_of_In, Hp in E. by apply plain_by.
Qed.

Lemma ledger_readable_witness :
  match listing with Ret _ => True | Raise e => ledger_bound e end.
Proof. apply (ledger_readable today 100 c3 c3_queue c3_texts today_ok). lia. Defined.

End CertificateDemo.
