(* ===== verification/AutomationOps.v ===== *)
(** * Preparation of an automation run

    The store operations that take a detected scheduling request through its
    extraction attempts ([db.py]): admission, reservation of a model attempt, the
    recorded failure or result, the transition to review, and the loss of the
    source.  Each operation is one transaction: it returns the new database or
    raises.  Random identifiers ([uuid.uuid4]) and the clock are arguments. *)

From S2P Require Export AutomationSources Addresses Json.
From stdpp Require Import options.

Local Open Scope Z_scope.

(** One statement [UPDATE automation_runs SET ...]: every mutable column. *)
Definition set_run (r : AutomationRun) (st : run_state) (version : Z)
    (failure : option text) (context : RunContext) (payload_id payload_sha : option text)
    (review : option text) (updated : text) : AutomationRun := {|
  run_key := r.(run_key);
  run_st := st;
  run_version := version;
  run_failure_code := failure;
  run_context := context;
  run_current_payload_id := payload_id;
  run_current_payload_sha256 := payload_sha;
  run_review_notified_at := review;
  run_updated_at := updated |}.

(** [WHERE run_id = ? AND state = ? AND state_version = ?] *)
Definition at_state (st : run_state) (version : Z) (r : AutomationRun) : bool :=
  bool_decide (r.(run_st) = st) && (r.(run_version) =? version).

(** [_append_automation_event]; the identity columns come from the run row. *)
Definition append_automation_event (db : Db) (event_id : text) (k : RunKey)
    (sequence_no : Z) (previous_state : option run_state) (next_state : run_state)
    (state_version : Z) (transition_kind : run_state) (failure_code : option text)
    (created_at : text) (payload_id payload_sha256 : option text)
    (decision : option event_decision) (transaction_id graph_event_id : option text)
    : py Db :=
  insert_event db {|
    ev_event_id := event_id;
    ev_run_id := k.(rk_run_id);
    ev_sequence_no := sequence_no;
    ev_previous_state := previous_state;
    ev_next_state := next_state;
    ev_state_version := state_version;
    ev_automation_id := k.(rk_automation_id);
    ev_automation_version := k.(rk_automation_version);
    ev_extraction_schema_version := k.(rk_extraction_schema_version);
    ev_calendar_principal_key := k.(rk_calendar_principal_key);
    ev_transition_kind := transition_kind;
    ev_failure_code := failure_code;
    ev_payload_id := payload_id;
    ev_payload_sha256 := payload_sha256;
    ev_decision := decision;
    ev_transaction_id := transaction_id;
    ev_graph_event_id := graph_event_id;
    ev_created_at := created_at |}.

(** ** Admission *)

(** [_admit_scheduling_automation]: one run per source message and automation
    version; a second admission of the same source changes nothing. *)
Definition admit_scheduling_automation (db : Db) (provider account_id
    calendar_principal_key provider_message_id mailbox_identity_key
    created_at expires_at : text) (run_id event_id : text) : py Db :=
  source_message_key ←
    require_some (message_suppression_key provider account_id provider_message_id
                    (Some mailbox_identity_key)) (ValueError "UnicodeEncodeError");
  let key := {|
    rk_run_id := run_id; rk_provider := provider; rk_account_id := account_id;
    rk_calendar_principal_key := calendar_principal_key;
    rk_source_message_key := source_message_key;
    rk_automation_id := SCHEDULING_AUTOMATION_ID;
    rk_automation_version := SCHEDULING_AUTOMATION_VERSION;
    rk_extraction_schema_version := SCHEDULING_EXTRACTION_SCHEMA_VERSION;
    rk_expires_at := expires_at; rk_created_at := created_at |} in
  let row := {|
    run_key := key; run_st := RDetected; run_version := 1; run_failure_code := None;
    run_context := {| rc_source_content_sha256 := None; rc_extraction_context_at := None;
                      rc_extraction_timezone := None; rc_extraction_body_char_limit := None |};
    run_current_payload_id := None; run_current_payload_sha256 := None;
    run_review_notified_at := None; run_updated_at := created_at |} in
  '(db, inserted) ← insert_run db row;
  if negb inserted then Ret db
  else
    _ ← require (is_none (db.(db_identities) !! run_id) && truthy run_id &&
                 len_is 64 mailbox_identity_key)
          (IntegrityError "automation_run_source_identities");
    let db := set_identities db (<[run_id := mailbox_identity_key]> db.(db_identities)) in
    append_automation_event db event_id key 0 None RDetected 1 RDetected None created_at
      None None None None None.

(** ** Loss of the source *)

(** [_CALENDAR_PENDING_STATES] *)
Definition calendar_pending (s : run_state) : bool :=
  match s with
  | RDetected | RExtracting | RProposing | RAwaitingConfirmation => true
  | _ => false
  end.

(** [_CALENDAR_REVIEW_STATES] *)
Definition calendar_review (s : run_state) : bool :=
  match s with RManualReview | RAmbiguous => true | _ => false end.

(** [_cancel_automation_source]: drop the prepared payloads and, for a run that
    is still pending (or under review, when its thread was unfollowed), cancel an
    unsubmitted write and move the run to [source_unavailable].  [transaction_id]
    is the joined column of the calendar write. *)
Definition cancel_automation_source (db : Db) (row : AutomationRun)
    (transaction_id : option text) (updated_at : text) (cause : source_cause)
    (event_id : text) : py (Db * bool) :=
  let run_id := row.(run_key).(rk_run_id) in
  let db := delete_proposals (delete_extractions db run_id) run_id in
  let previous_state := row.(run_st) in
  if negb (calendar_pending previous_state || bool_decide (previous_state = RWriteAuthorized))
     && negb (bool_decide (cause = CauseThreadUnfollowed) && calendar_review previous_state)
  then Ret (db, false)
  else
    let previous_version := row.(run_version) in
    let next_version := previous_version + 1 in
    db ← (if decide (previous_state = RWriteAuthorized) then
            '(db, cancelled) ← update_write db run_id WAuthorized (fun w => {|
              wr_run_id := w.(wr_run_id); wr_transaction_id := w.(wr_transaction_id);
              wr_proposal_version := w.(wr_proposal_version);
              wr_proposal_sha256 := w.(wr_proposal_sha256);
              wr_calendar_principal_key := w.(wr_calendar_principal_key);
              wr_calendar_id := w.(wr_calendar_id); wr_start := w.(wr_start);
              wr_end := w.(wr_end); wr_timezone := w.(wr_timezone);
              wr_status := WCancelled; wr_graph_event_id := w.(wr_graph_event_id);
              wr_failure_code := Some (cause_text cause);
              wr_confirmed_at := w.(wr_confirmed_at); wr_submitted_at := w.(wr_submitted_at);
              wr_completed_at := w.(wr_completed_at); wr_updated_at := updated_at |});
            _ ← require cancelled
                  (RuntimeError "Automation source cleanup lost its write-state race");
            Ret db
          else Ret db);
    '(db, changed) ← update_run db run_id (at_state previous_state previous_version) (fun r =>
      set_run r RSourceUnavailable next_version (Some (str "source_unavailable"))
        r.(run_context) r.(run_current_payload_id) r.(run_current_payload_sha256)
        (if automation_source_loss_requires_review (cause_text cause) then None
         else Some updated_at)
        updated_at);
    _ ← require changed
          (RuntimeError "Automation source cleanup lost its expected-state race");
    db ← append_automation_event db event_id row.(run_key) (next_version - 1)
           (Some previous_state) RSourceUnavailable next_version RSourceUnavailable
           (Some (cause_text cause)) updated_at
           row.(run_current_payload_id) row.(run_current_payload_sha256) None
           (if decide (previous_state = RWriteAuthorized) then transaction_id else None) None;
    Ret (db, true).

(** Insertion sort of runs by [run_id]. *)
Fixpoint insert_run_by_id (r : AutomationRun) (l : list AutomationRun) : list AutomationRun :=
  match l with
  | [] => [r]
  | x :: l' =>
      match text_compare r.(run_key).(rk_run_id) x.(run_key).(rk_run_id) with
      | Gt => x :: insert_run_by_id r l'
      | _ => r :: l
      end
  end.

Definition sort_runs (l : list AutomationRun) : list AutomationRun :=
  foldr insert_run_by_id [] l.

(** The runs bound to one of the messages (one row per matching message),
    [ORDER BY r.run_id], with the joined transaction id of their calendar write. *)
Definition runs_bound_to (db : Db) (message_ids : list text)
    : list (AutomationRun * option text) :=
  let bound := flat_map (fun r =>
    (fun _ => r) <$> List.filter (fun m => bool_decide (m.(ms_message_id) ∈ message_ids) &&
      automation_message_binding r (identity_of db r.(run_key).(rk_run_id)) m)
    db.(db_sources).(st_messages)) (all_runs db) in
  (fun r => (r, wr_transaction_id <$> db.(db_writes) !! r.(run_key).(rk_run_id)))
  <$> sort_runs bound.

Definition AUTOMATION_CLEANUP_CHUNK_SIZE : nat := 500.

(** The inner loop of [_mark_automation_sources_unavailable] over the selected
    rows; [event_ids] supplies one identifier per row. *)
Fixpoint cancel_each (db : Db) (runs : list (AutomationRun * option text))
    (event_ids : list text) (updated_at : text) (cause : source_cause)
    (transitioned : nat) : py (Db * nat * list text) :=
  match runs, event_ids with
  | [], _ => Ret (db, transitioned, event_ids)
  | (row, txn) :: runs', event_id :: event_ids' =>
      '(db, changed) ← cancel_automation_source db row txn updated_at cause event_id;
      cancel_each db runs' event_ids' updated_at cause
        (if (changed : bool) then S transitioned else transitioned)
  | _ :: _, [] => Raise (RuntimeError "uuid supply exhausted")
  end.

(** Its outer loop, one chunk of message ids at a time; [fuel] bounds the number
    of chunks by the number of ids. *)
Fixpoint cancel_chunks (fuel : nat) (db : Db) (message_ids : list text)
    (event_ids : list text) (updated_at : text) (cause : source_cause)
    (transitioned : nat) : py (Db * nat) :=
  match fuel, message_ids with
  | S fuel', _ :: _ =>
      let chunk := take AUTOMATION_CLEANUP_CHUNK_SIZE message_ids in
      '(db, transitioned, event_ids) ←
        cancel_each db (runs_bound_to db chunk) event_ids updated_at cause transitioned;
      cancel_chunks fuel' db (drop AUTOMATION_CLEANUP_CHUNK_SIZE message_ids)
        event_ids updated_at cause transitioned
  | _, _ => Ret (db, transitioned)
  end.

(** [_mark_automation_sources_unavailable], on the automation tables. *)
Definition mark_automation_sources_unavailable (db : Db) (message_ids : list text)
    (event_ids : list text) (updated_at : text) (cause : source_cause) : py (Db * nat) :=
  cancel_chunks (length message_ids) db message_ids event_ids updated_at cause 0.

(** [_purge_expired_automation_tombstones]: expired runs outside a running write
    go, with (by trigger) their payloads and calendar write, and their events. *)
Definition tombstone_expired (now : text) (r : AutomationRun) : bool :=
  negb (bool_decide (r.(run_st) = RWriting) || bool_decide (r.(run_st) = RReconciling)) &&
  match aware_iso_epoch r.(run_key).(rk_expires_at) with
  | None => true
  | Some e => match aware_iso_epoch now with Some n => e <=? n | None => false end
  end.

Definition purge_expired_automation_tombstones (db : Db) (now : text) : Db :=
  let expired := (List.filter (fun kv => tombstone_expired now kv.2)
                    (map_to_list db.(db_runs))).*1 in
  let gone (run_id : text) : bool := bool_decide (run_id ∈ expired) in
  {| db_runs := filter (fun kv : text * AutomationRun => gone kv.1 = false) db.(db_runs);
     db_identities := db.(db_identities);
     db_events := List.filter (fun e => negb (gone e.(ev_run_id))) db.(db_events);
     db_extractions := List.filter (fun x => negb (gone x.(ex_run_id))) db.(db_extractions);
     db_proposals := List.filter (fun p => negb (gone p.(pr_run_id))) db.(db_proposals);
     db_writes := filter (fun kv : text * AutomationCalendarWrite => gone kv.1 = false) db.(db_writes);
     db_sources := db.(db_sources) |}.

(** ** Extraction attempts *)

(** The second half of [reserve_automation_extraction]: a first attempt, or the
    one retry after a rejected result. *)
Definition reserve_new_attempt (db : Db) (row : AutomationRun) (repreparing : bool)
    (attempts : nat) (expected_state_version : Z)
    (source_content_sha256 context_at timezone : text) (body_char_limit : Z)
    (organizer_address stamp payload_id request_id event_id : text)
    : py (AutomationExtractionPayload * Db) :=
  let run_id := row.(run_key).(rk_run_id) in
  let attempt_no := Z.of_nat attempts + 1 in
  _ ← require ((attempt_no =? 1) || (attempt_no =? 2))
        (RuntimeError "Automation extraction retry budget is exhausted");
  _ ← require (repreparing || is_none row.(run_context).(rc_extraction_context_at) ||
               (bool_decide (row.(run_context).(rc_extraction_context_at) = Some context_at) &&
                bool_decide (row.(run_context).(rc_extraction_timezone) = Some timezone) &&
                bool_decide (row.(run_context).(rc_extraction_body_char_limit)
                             = Some body_char_limit)))
        (AutomationSourceChanged "Automation extraction context changed after admission");
  let reserved := {|
    ex_payload_id := payload_id; ex_run_id := run_id; ex_attempt_no := attempt_no;
    ex_request_id := request_id; ex_status := XReserved;
    ex_source_content_sha256 := source_content_sha256; ex_context_at := context_at;
    ex_timezone := timezone; ex_body_char_limit := body_char_limit;
    ex_organizer_address := Some organizer_address; ex_failure_count := 0;
    ex_next_retry_at := None; ex_last_error_code := None; ex_result_sha256 := None;
    ex_result_json := None; ex_violations_json := None; ex_created_at := stamp;
    ex_completed_at := None |} in
  db ← insert_extraction db reserved;
  let previous_state := row.(run_st) in
  let next_version := expected_state_version + 1 in
  '(db, changed) ← update_run db run_id (at_state previous_state expected_state_version) (fun r =>
    set_run r RExtracting next_version None
      {| rc_source_content_sha256 := Some source_content_sha256;
         rc_extraction_context_at := Some context_at;
         rc_extraction_timezone := Some timezone;
         rc_extraction_body_char_limit := Some body_char_limit |}
      (Some payload_id) None r.(run_review_notified_at) stamp);
  _ ← require changed (RuntimeError "Automation extraction lost its expected-state race");
  db ← append_automation_event db event_id row.(run_key) (next_version - 1)
         (Some previous_state) RExtracting next_version RExtracting None stamp
         (Some payload_id) None None None None;
  Ret (reserved, db).

(** [reserve_automation_extraction] *)
Definition reserve_automation_extraction (db : Db) (run_id : text)
    (expected_state_version : Z) (source_content_sha256 context_at timezone : text)
    (body_char_limit : Z) (organizer_address : text) (now : datetime)
    (payload_id request_id event_id : text) : py (AutomationExtractionPayload * Db) :=
  _ ← require (len_is 64 source_content_sha256)
        (ValueError "source_content_sha256 must be a SHA-256 digest");
  _ ← require (truthy context_at && truthy timezone && (1 <=? body_char_limit) &&
               truthy organizer_address && bool_decide (length organizer_address <= 320)%nat)
        (ValueError "extraction context must be complete");
  let stamp := isoformat now in
  _ ← require (automation_source_available db run_id CONTENT) (KeyError run_id);
  row ← require_some (db.(db_runs) !! run_id) (KeyError run_id);
  _ ← require (scheduling_preparation_available db row &&
               (row.(run_version) =? expected_state_version))
        (RuntimeError "Automation extraction lost its expected-state race");
  let repreparing := bool_decide (row.(run_st) = RSourceUnavailable) in
  let previous_source_hash :=
    if repreparing then None else row.(run_context).(rc_source_content_sha256) in
  _ ← require (match previous_source_hash with
               | Some h => bool_decide (h = source_content_sha256) | None => true end)
        (AutomationSourceChanged "Automation source content changed after admission");
  let payload_rows := extractions_of db run_id in
  _ ← require (match payload_rows with
               | first :: _ => bool_decide (first.(ex_organizer_address) = Some organizer_address)
               | [] => true end)
        (AutomationSourceChanged "Automation organizer changed or was not pinned after reservation");
  match list.last payload_rows with
  | Some reserved =>
      match reserved.(ex_status) with
      | XReserved =>
          _ ← require (bool_decide (reserved.(ex_source_content_sha256) = source_content_sha256) &&
                       bool_decide (reserved.(ex_context_at) = context_at) &&
                       bool_decide (reserved.(ex_timezone) = timezone) &&
                       (reserved.(ex_body_char_limit) =? body_char_limit) &&
                       bool_decide (reserved.(ex_organizer_address) = Some organizer_address))
                (AutomationSourceChanged
                   "Automation source or extraction context changed after reservation");
          Ret (reserved, db)
      | XAccepted => Raise (RuntimeError "Automation extraction already has a terminal result")
      | XRejected => reserve_new_attempt db row repreparing (length payload_rows)
          expected_state_version source_content_sha256 context_at timezone body_char_limit
          organizer_address stamp payload_id request_id event_id
      end
  | None => reserve_new_attempt db row repreparing (length payload_rows)
          expected_state_version source_content_sha256 context_at timezone body_char_limit
          organizer_address stamp payload_id request_id event_id
  end.

(** [error_code] of [record_automation_extraction_failure] is well formed. *)
Definition error_code_ok `{Unicode} (error_code : text) : bool :=
  match error_code with
  | [] => false
  | c :: _ =>
      bool_decide (length error_code <= 64)%nat && uni_islower c &&
      (let bare := List.filter (fun x => negb (bool_decide (x = 95%N))) error_code in
       truthy bare && forallb uni_isalnum bare) &&
      bool_decide (error_code = uni_casefold error_code)
  end.

(** [record_automation_extraction_failure]; [stamp] is the instant of the clock,
    [(now or datetime.now(UTC)).astimezone(UTC)]. *)
Definition record_automation_extraction_failure `{Unicode} (db : Db) (run_id : text)
    (expected_state_version : Z) (payload_id error_code : text) (retryable : bool)
    (retry_after_seconds : option Z) (stamp : Z) (event_id : text)
    : py (AutomationRun * Db) :=
  _ ← require (error_code_ok error_code)
        (ValueError "automation extraction error code is invalid");
  _ ← require (opt_all (fun s => (1 <=? s) && (s <=? 86400)) retry_after_seconds)
        (ValueError "retry_after_seconds must be between 1 and 86400");
  _ ← require (retryable || is_none retry_after_seconds)
        (ValueError "permanent extraction failures cannot carry a retry delay");
  _ ← require (automation_source_available db run_id CONTENT) (KeyError run_id);
  let lost := RuntimeError "Automation extraction failure lost its expected-state race" in
  row ← require_some (db.(db_runs) !! run_id) lost;
  payload ← require_some (extraction_by_id db payload_id) lost;
  _ ← require (at_state RExtracting expected_state_version row &&
               bool_decide (row.(run_current_payload_id) = Some payload_id) &&
               bool_decide (payload.(ex_run_id) = run_id) &&
               bool_decide (payload.(ex_status) = XReserved)) lost;
  let failure_count := payload.(ex_failure_count) + 1 in
  next_retry_at ←
    (if retryable then
       let delay := match retry_after_seconds with
                    | Some s => s
                    | None => nth (Z.to_nat (Z.min (failure_count - 1) 3))
                                AUTOMATION_RETRY_DELAYS_SECONDS 0
                    end in
       let due := stamp + delay * US in
       _ ← require (wall_ok due) OverflowError;
       Ret (Some (isoformat (utc due)))
     else Ret None);
  let next_state := if retryable then RExtracting else RManualReview in
  '(db, updated) ← update_reserved_extraction db payload_id run_id (fun x => {|
    ex_payload_id := x.(ex_payload_id); ex_run_id := x.(ex_run_id);
    ex_attempt_no := x.(ex_attempt_no); ex_request_id := x.(ex_request_id);
    ex_status := x.(ex_status); ex_source_content_sha256 := x.(ex_source_content_sha256);
    ex_context_at := x.(ex_context_at); ex_timezone := x.(ex_timezone);
    ex_body_char_limit := x.(ex_body_char_limit);
    ex_organizer_address := x.(ex_organizer_address);
    ex_failure_count := failure_count; ex_next_retry_at := next_retry_at;
    ex_last_error_code := Some error_code;
    ex_result_sha256 := x.(ex_result_sha256); ex_result_json := x.(ex_result_json);
    ex_violations_json := x.(ex_violations_json); ex_created_at := x.(ex_created_at);
    ex_completed_at := x.(ex_completed_at) |});
  _ ← require updated (RuntimeError "Automation extraction payload was not reserved");
  let next_version := expected_state_version + 1 in
  let failure_code := Some (str "model_" ++ error_code)%list in
  '(db, changed) ← update_run db run_id (fun r =>
      at_state RExtracting expected_state_version r &&
      bool_decide (r.(run_current_payload_id) = Some payload_id)) (fun r =>
    set_run r next_state next_version failure_code r.(run_context)
      r.(run_current_payload_id) r.(run_current_payload_sha256) None (isoformat (utc stamp)));
  _ ← require changed lost;
  db ← append_automation_event db event_id row.(run_key) (next_version - 1)
         (Some RExtracting) next_state next_version next_state failure_code
         (isoformat (utc stamp)) (Some payload_id) None None None None;
  updated ← require_some (db.(db_runs) !! run_id)
              (RuntimeError "Automation extraction failure was not readable");
  Ret (updated, db).

(** [_encoded_automation_violations]: at most 32 violations, with clipped codes
    and paths, as bounded JSON. *)
Definition encoded_automation_violations (violations : list (text * text)) : py bytes :=
  let document := JArr ((fun v => JObj [(str "code", JStr (clip 64 v.1));
                                        (str "path", JStr (clip 256 v.2))])
                        <$> take 32 violations) in
  encoded ← require_some (Utf8.encode (ascii_dumps document)) (ValueError "UnicodeEncodeError");
  _ ← require (bytes_between 2 8192 encoded)
        (ValueError "automation extraction violations are not bounded");
  Ret encoded.

(** [record_automation_extraction]: the model's result, accepted or rejected.
    The first rejected attempt leaves the run in extraction for its one retry. *)
Definition record_automation_extraction (db : Db) (run_id : text)
    (expected_state_version : Z) (payload_id result_sha256 : text) (result_json : bytes)
    (violations : list (text * text)) (accepted_state : option run_state)
    (accepted_code : option text) (now : datetime) (event_id : text)
    : py (AutomationRun * Db) :=
  _ ← require (len_is 64 result_sha256 &&
               bool_decide (Sha256.hexdigest result_json = result_sha256) &&
               bytes_between 1 32768 result_json)
        (ValueError "automation extraction result is not bounded");
  violations_json ← encoded_automation_violations violations;
  let accepted := bool_decide (violations = []) in
  _ ← require (Bool.eqb accepted (is_some accepted_state))
        (ValueError "accepted extraction state does not match validation outcome");
  _ ← require (opt_all (fun s => bool_decide (s = RProposing ∨ s = RManualReview ∨ s = RAmbiguous))
                 accepted_state)
        (ValueError "accepted extraction state is not supported");
  let stamp := isoformat now in
  _ ← require (automation_source_available db run_id CONTENT) (KeyError run_id);
  row ← require_some (db.(db_runs) !! run_id) (KeyError run_id);
  payload ← require_some (extraction_by_id db payload_id) (KeyError run_id);
  let lost := RuntimeError "Automation extraction completion lost its expected-state race" in
  _ ← require (at_state RExtracting expected_state_version row &&
               bool_decide (row.(run_current_payload_id) = Some payload_id) &&
               bool_decide (payload.(ex_run_id) = run_id) &&
               bool_decide (payload.(ex_status) = XReserved)) lost;
  let '(next_state, failure_code, payload_status) :=
    match accepted_state with
    | Some s => (s, accepted_code, XAccepted)
    | None =>
        if payload.(ex_attempt_no) =? 1
        then (RExtracting, Some (str "validation_rejected_once"), XRejected)
        else (RManualReview, Some (str "validation_rejected"), XRejected)
    end in
  '(db, finalized) ← update_reserved_extraction db payload_id run_id (fun x => {|
    ex_payload_id := x.(ex_payload_id); ex_run_id := x.(ex_run_id);
    ex_attempt_no := x.(ex_attempt_no); ex_request_id := x.(ex_request_id);
    ex_status := payload_status; ex_source_content_sha256 := x.(ex_source_content_sha256);
    ex_context_at := x.(ex_context_at); ex_timezone := x.(ex_timezone);
    ex_body_char_limit := x.(ex_body_char_limit);
    ex_organizer_address := x.(ex_organizer_address);
    ex_failure_count := x.(ex_failure_count); ex_next_retry_at := None;
    ex_last_error_code := x.(ex_last_error_code);
    ex_result_sha256 := Some result_sha256; ex_result_json := Some result_json;
    ex_violations_json := Some violations_json; ex_created_at := x.(ex_created_at);
    ex_completed_at := Some stamp |});
  _ ← require finalized (RuntimeError "Automation extraction payload was not reserved");
  let next_version := expected_state_version + 1 in
  '(db, changed) ← update_run db run_id (fun r =>
      at_state RExtracting expected_state_version r &&
      bool_decide (r.(run_current_payload_id) = Some payload_id)) (fun r =>
    set_run r next_state next_version failure_code r.(run_context)
      r.(run_current_payload_id) (Some result_sha256) None stamp);
  _ ← require changed lost;
  db ← append_automation_event db event_id row.(run_key) (next_version - 1)
         (Some RExtracting) next_state next_version next_state failure_code stamp
         (Some payload_id) (Some result_sha256) None None None;
  updated ← require_some (db.(db_runs) !! run_id)
              (RuntimeError "Automation extraction result was not readable");
  Ret (updated, db).

(** ** Review *)

(** [transition_automation_to_review] *)
Definition transition_automation_to_review (db : Db) (run_id : text)
    (expected_state_version : Z) (next_state : run_state) (failure_code : text)
    (now : datetime) (event_id : text) : py (AutomationRun * Db) :=
  _ ← require (bool_decide (next_state = RManualReview ∨ next_state = RSourceUnavailable))
        (ValueError "automation review transition is not supported");
  let stamp := isoformat now in
  row ← require_some (db.(db_runs) !! run_id) (KeyError run_id);
  let previous_state := row.(run_st) in
  let lost := RuntimeError "Automation review transition lost its expected-state race" in
  _ ← require (bool_decide (previous_state = RDetected ∨ previous_state = RExtracting ∨
                            previous_state = RProposing) &&
               (row.(run_version) =? expected_state_version)) lost;
  let db := if decide (next_state = RSourceUnavailable) then delete_extractions db run_id
            else db in
  let next_version := expected_state_version + 1 in
  '(db, changed) ← update_run db run_id (at_state previous_state expected_state_version) (fun r =>
    set_run r next_state next_version (Some failure_code) r.(run_context)
      r.(run_current_payload_id) r.(run_current_payload_sha256) None stamp);
  _ ← require changed lost;
  db ← append_automation_event db event_id row.(run_key) (next_version - 1)
         (Some previous_state) next_state next_version next_state (Some failure_code) stamp
         row.(run_current_payload_id) row.(run_current_payload_sha256) None None None;
  updated ← require_some (db.(db_runs) !! run_id)
              (RuntimeError "Automation review transition was not readable");
  Ret (updated, db).

(** The [automation_review] branch of [acknowledge_notification]; [true] is
    "acknowledged", [false] "already_acknowledged". *)
Definition acknowledge_automation_review (db : Db) (run_id : text) (state_version : Z)
    (stamp : text) : py (bool * Db) :=
  _ ← require (automation_source_available db run_id CONTENT) (KeyError run_id);
  row ← require_some (db.(db_runs) !! run_id) (KeyError run_id);
  _ ← require ((row.(run_version) =? state_version) &&
               bool_decide (row.(run_st) = RAmbiguous ∨ row.(run_st) = RManualReview ∨
                            row.(run_st) = RSourceUnavailable))
        (RuntimeError "Automation notification intent is no longer current");
  if is_some row.(run_review_notified_at) then Ret (false, db)
  else
    '(db, changed) ← update_run db run_id (fun r =>
        (r.(run_version) =? state_version) && is_none r.(run_review_notified_at)) (fun r =>
      set_run r r.(run_st) r.(run_version) r.(run_failure_code) r.(run_context)
        r.(run_current_payload_id) r.(run_current_payload_sha256) (Some stamp)
        r.(run_updated_at));
    _ ← require changed (RuntimeError "Automation notification acknowledgement lost its race");
    Ret (true, db).
