(* ===== verification/CalendarOps.v ===== *)
(** * Proposals, consent and the calendar write

    The second half of an automation run ([db.py]): the calendar proposal made
    from an accepted extraction, the user's decision on it, the durable write
    admission with its transaction id, and the outcome of the write.  Time zones
    ([zoneinfo]) and the zone of the host are parameters. *)

From S2P Require Export AutomationOps.
From stdpp Require Import options.

Local Open Scope Z_scope.

(** The time-zone services of the host. *)
Class Zones := {
  (** [ZoneInfo(name)]: the UTC offset of the zone at an instant; [None] is an
      unknown zone. *)
  zone_info : text → option (Z → Z);
  (** The instant of a naive local time, [naive.astimezone(UTC)]. *)
  system_instant : Z → option Z }.

(** [value.astimezone(UTC)], aware or naive. *)
Definition to_utc `{Zones} (d : datetime) : py Z :=
  match d.(dt_offset) with
  | Some _ => astimezone_utc d
  | None => require_some (system_instant d.(dt_wall)) OverflowError
  end.

(** [_calendar_run_live_sql]: [aware_iso_epoch(r.expires_at) > ?] *)
Definition run_live (r : AutomationRun) (now : Z) : bool :=
  match aware_iso_epoch r.(run_key).(rk_expires_at) with Some e => now <? e | None => false end.

(** ** Cancelled admissions *)

(** [calendar_write_outcome]: the content-free projection of a write. *)
Record WriteOutcome := {
  wo_run_id : text;
  wo_state_version : Z;
  wo_transaction_id : option text;
  wo_status : write_status;
  wo_failure_code : option text;
  wo_graph_event_id : option text }.

Definition calendar_write_outcome (run_id : text) (state_version : Z)
    (transaction_id : option text) (status : write_status)
    (failure_code graph_event_id : option text) : WriteOutcome := {|
  wo_run_id := run_id; wo_state_version := state_version;
  wo_transaction_id := transaction_id; wo_status := status;
  wo_failure_code := failure_code; wo_graph_event_id := graph_event_id |}.

(** [AutomationRun | AutomationCalendarWriteCancelled] *)
Inductive write_result :=
| RunResult (run : AutomationRun)
| CancelledResult (run : AutomationRun) (outcome : WriteOutcome).

(** [_calendar_proposal_generation] *)
Definition proposal_transition (run_id : text) (before : option Z) (e : AutomationEvent) : bool :=
  bool_decide (e.(ev_run_id) = run_id) &&
  bool_decide (e.(ev_previous_state) = Some RProposing) &&
  bool_decide (e.(ev_next_state) = RAwaitingConfirmation ∨ e.(ev_next_state) = RManualReview) &&
  opt_all (fun v => e.(ev_state_version) <? v) before.

Definition calendar_proposal_generation (db : Db) (run_id : text) (before : option Z) : Z :=
  Z.of_nat (length (List.filter (proposal_transition run_id before) db.(db_events))).

(** The join of [_cancelled_calendar_admission]: a confirmed admission [a] and
    the adjacent cancellation [c] of the same transaction. *)
Definition cancelled_pair (run_id : text) (confirmed_version : Z)
    (proposal_sha256 : option text) (a c : AutomationEvent) : bool :=
  bool_decide (c.(ev_run_id) = a.(ev_run_id)) &&
  (c.(ev_state_version) =? a.(ev_state_version) + 1) &&
  sql_eq c.(ev_transaction_id) a.(ev_transaction_id) &&
  bool_decide (a.(ev_run_id) = run_id) && (a.(ev_state_version) =? confirmed_version) &&
  bool_decide (a.(ev_decision) = Some DConfirmed) &&
  bool_decide (a.(ev_previous_state) = Some RAwaitingConfirmation) &&
  bool_decide (a.(ev_next_state) = RWriteAuthorized) &&
  bool_decide (a.(ev_transition_kind) = RWriteAuthorized) &&
  bool_decide (c.(ev_previous_state) = Some RWriteAuthorized) &&
  bool_decide (c.(ev_next_state) = RSourceUnavailable) &&
  bool_decide (c.(ev_transition_kind) = RSourceUnavailable) &&
  bool_decide (c.(ev_failure_code) = Some (str "source_unavailable") ∨
               c.(ev_failure_code) = Some (str "thread_unfollowed")) &&
  opt_all (fun h => sql_eq a.(ev_payload_sha256) (Some h)) proposal_sha256.

Definition cancellation_event (db : Db) (run_id : text) (confirmed_version : Z)
    (proposal_sha256 : option text) : option AutomationEvent :=
  snd <$> List.find (fun '(a, c) => cancelled_pair run_id confirmed_version proposal_sha256 a c)
            (list_prod db.(db_events) db.(db_events)).

(** The historical projection of the run at its cancellation event. *)
Definition cancelled_run (row : AutomationRun) (event : AutomationEvent) : AutomationRun := {|
  run_key := {|
    rk_run_id := row.(run_key).(rk_run_id);
    rk_provider := row.(run_key).(rk_provider);
    rk_account_id := row.(run_key).(rk_account_id);
    rk_calendar_principal_key := event.(ev_calendar_principal_key);
    rk_source_message_key := row.(run_key).(rk_source_message_key);
    rk_automation_id := event.(ev_automation_id);
    rk_automation_version := event.(ev_automation_version);
    rk_extraction_schema_version := event.(ev_extraction_schema_version);
    rk_expires_at := row.(run_key).(rk_expires_at);
    rk_created_at := row.(run_key).(rk_created_at) |};
  run_st := RSourceUnavailable;
  run_version := event.(ev_state_version);
  run_failure_code := Some (str "source_unavailable");
  run_context := {| rc_source_content_sha256 := None; rc_extraction_context_at := None;
                    rc_extraction_timezone := None; rc_extraction_body_char_limit := None |};
  run_current_payload_id := event.(ev_payload_id);
  run_current_payload_sha256 := event.(ev_payload_sha256);
  run_review_notified_at :=
    if opt_all automation_source_loss_requires_review event.(ev_failure_code) then None
    else Some event.(ev_created_at);
  run_updated_at := event.(ev_created_at) |}.

(** [_cancelled_calendar_admission] *)
Definition cancelled_calendar_admission (db : Db) (row : AutomationRun)
    (confirmed_version : Z) (proposal_sha256 : option text) (proposal_version : option Z)
    : py (option write_result) :=
  let run_id := row.(run_key).(rk_run_id) in
  match cancellation_event db run_id confirmed_version proposal_sha256 with
  | None => Ret None
  | Some event =>
      if opt_all (fun v => v =? calendar_proposal_generation db run_id (Some confirmed_version))
           proposal_version
      then
        let inconsistent := RuntimeError "Cancelled automation admission ledger is inconsistent" in
        current ← require_some (db.(db_writes) !! run_id) inconsistent;
        _ ← require (negb (bool_decide (event.(ev_transaction_id) = Some current.(wr_transaction_id)) &&
                           (negb (bool_decide (current.(wr_status) = WCancelled)) ||
                            negb (bool_decide (current.(wr_failure_code) = event.(ev_failure_code))))))
              inconsistent;
        let run := cancelled_run row event in
        Ret (Some (CancelledResult run
          (calendar_write_outcome run_id event.(ev_state_version) event.(ev_transaction_id)
             WCancelled event.(ev_failure_code) None)))
      else Ret None
  end.

(** ** Proposals *)

(** What [record_automation_proposal] has checked before its transaction. *)
Record ValidProposal := {
  vp_attendees : list text;
  vp_attendees_json : bytes;
  vp_accepted : bool;
  vp_stamp : Z;
  vp_expires_at : option text }.

(** [normalize_validated_address] of each attendee; [None] when one is invalid. *)
Definition normalized_attendees `{Unicode} `{AddressLib} (attendees : list text)
    : option (list text) :=
  mapM normalize_validated_address attendees.

(** The admissible window: an aware start after the observation, a later end, and
    both written in the zone they name. *)
Definition proposal_window `{Zones} (start end_ timezone : text) (stamp : Z) : py text :=
  let invalid := ValueError "automation proposal time is invalid" in
  parsed_start ← require_some (fromisoformat start) invalid;
  parsed_end ← require_some (fromisoformat end_) invalid;
  zone ← require_some (zone_info timezone) invalid;
  _ ← require (is_some parsed_start.(dt_offset) && is_some parsed_end.(dt_offset)) invalid;
  start_at ← astimezone_utc parsed_start;
  _ ← require (stamp <? start_at) invalid;
  end_at ← astimezone_utc parsed_end;
  _ ← require (start_at <? end_at) invalid;
  _ ← require (wall_ok (start_at + zone start_at)) OverflowError;
  _ ← require (start_at + zone start_at =? parsed_start.(dt_wall)) invalid;
  _ ← require (wall_ok (end_at + zone end_at)) OverflowError;
  _ ← require ((end_at + zone end_at =? parsed_end.(dt_wall)) &&
               bool_decide (Some (zone start_at) = parsed_start.(dt_offset)) &&
               bool_decide (Some (zone end_at) = parsed_end.(dt_offset))) invalid;
  _ ← require (wall_ok (stamp + 15 * MINUTE)) OverflowError;
  Ret (isoformat (utc (Z.min (stamp + 15 * MINUTE) start_at))).

(** The checks of [record_automation_proposal] before its transaction. *)
Definition validate_proposal `{Unicode} `{AddressLib} `{Zones}
    (request_sha256 subject : text) (attendees : list text)
    (start end_ timezone suggestion_reason empty_reason : option text)
    (observed_at : datetime) : py ValidProposal :=
  _ ← require (len_is 64 request_sha256 && forallb is_hex request_sha256)
        (ValueError "proposal request hash must be a SHA-256 digest");
  let invalid := ValueError "automation proposal content is invalid" in
  let unbounded := ValueError "automation proposal content is not bounded" in
  subject_bytes ← require_some (Utf8.encode subject) invalid;
  normalized ← require_some (normalized_attendees attendees) invalid;
  attendees_json ← require_some (Utf8.encode (dumps false (JArr (JStr <$> normalized)))) invalid;
  _ ← require (bool_decide (length subject_bytes <= 512)%nat &&
               bool_decide (length normalized <= MAX_AUTOMATION_PROPOSAL_ATTENDEES)%nat &&
               bool_decide (NoDup normalized) && bytes_between 2 32768 attendees_json)
        unbounded;
  _ ← require (opt_all (fun v => within_utf8_bytes v 64) start &&
               opt_all (fun v => within_utf8_bytes v 64) end_ &&
               opt_all (fun v => within_utf8_bytes v 128) timezone &&
               opt_all (fun v => within_utf8_bytes v 512) suggestion_reason &&
               opt_all (fun v => within_utf8_bytes v 512) empty_reason)
        unbounded;
  let accepted := is_some start && is_some end_ && is_some timezone &&
    match suggestion_reason with Some r => truthy r | None => false end && is_none empty_reason in
  let no_suggestions := is_none start && is_none end_ && is_none timezone &&
    is_none suggestion_reason && match empty_reason with Some r => truthy r | None => false end in
  _ ← require (negb (Bool.eqb accepted no_suggestions))
        (ValueError "automation proposal outcome is incomplete");
  _ ← require (is_some observed_at.(dt_offset))
        (ValueError "automation proposal observation time must be timezone-aware");
  stamp ← astimezone_utc observed_at;
  expires_at ← match accepted, start, end_, timezone with
               | true, Some s, Some e, Some z =>
                   x ← proposal_window s e z stamp; Ret (Some x)
               | _, _, _, _ => Ret None
               end;
  Ret {| vp_attendees := normalized; vp_attendees_json := attendees_json;
         vp_accepted := accepted; vp_stamp := stamp; vp_expires_at := expires_at |}.

(** The hashed document of a proposal. *)
Definition proposal_document (attendees : list text) (principal_key : text) (version : Z)
    (subject : text) (start end_ timezone suggestion_reason empty_reason : option text) : json :=
  JObj [
    (str "attendees", JArr (JStr <$> attendees));
    (str "calendar", JStr (str "primary"));
    (str "empty_reason", json_of_option JStr empty_reason);
    (str "end", json_of_option JStr end_);
    (str "online_meeting", JBool false);
    (str "principal_key", JStr principal_key);
    (str "start", json_of_option JStr start);
    (str "subject", JStr subject);
    (str "suggestion_reason", json_of_option JStr suggestion_reason);
    (str "timezone", json_of_option JStr timezone);
    (str "version", JInt version)].

(** Proposal versions already used by a run: its payloads, its calendar write and
    its logged generations. *)
Definition latest_proposal_version (db : Db) (run_id : text) : Z :=
  Z.max (Z.max (foldr Z.max 0 (pr_proposal_version <$> proposals_of db run_id))
               (match db.(db_writes) !! run_id with
                | Some w => w.(wr_proposal_version) | None => 0 end))
        (calendar_proposal_generation db run_id None).

(** [record_automation_proposal] *)
Definition record_automation_proposal `{Unicode} `{AddressLib} `{Zones} (db : Db)
    (run_id : text) (expected_state_version : Z) (extraction_payload_id request_sha256
    subject : text) (attendees : list text)
    (start end_ timezone suggestion_reason empty_reason : option text)
    (observed_at : datetime) (payload_id event_id : text) : py (AutomationRun * Db) :=
  valid ← validate_proposal request_sha256 subject attendees start end_ timezone
            suggestion_reason empty_reason observed_at;
  let created_at := isoformat (utc valid.(vp_stamp)) in
  let next_state := if valid.(vp_accepted) then RAwaitingConfirmation else RManualReview in
  let failure_code :=
    if valid.(vp_accepted) then None else Some (str "proposal_no_suggestions") in
  _ ← require (automation_source_available db run_id CONTENT) (KeyError run_id);
  row ← require_some (db.(db_runs) !! run_id) (KeyError run_id);
  _ ← require (run_live row valid.(vp_stamp)) (KeyError run_id);
  extraction ← require_some (List.find (fun x =>
      bool_decide (x.(ex_payload_id) = extraction_payload_id) &&
      bool_decide (x.(ex_run_id) = run_id)) db.(db_extractions)) (KeyError run_id);
  let lost := RuntimeError "Automation proposal lost its expected-state race" in
  _ ← require (at_state RProposing expected_state_version row &&
               bool_decide (extraction.(ex_status) = XAccepted)) lost;
  let proposal_version := latest_proposal_version db run_id + 1 in
  expires_at ← match valid.(vp_expires_at) with
    | None => Ret None
    | Some e =>
        e0 ← require_some (fromisoformat e) (ValueError "Invalid isoformat string");
        e0 ← to_utc e0;
        e1 ← require_some (fromisoformat row.(run_key).(rk_expires_at))
               (ValueError "Invalid isoformat string");
        e1 ← to_utc e1;
        Ret (Some (isoformat (utc (Z.min e0 e1))))
    end;
  proposal_json ← require_some (Utf8.encode (dumps true
      (proposal_document valid.(vp_attendees) row.(run_key).(rk_calendar_principal_key)
         proposal_version subject start end_ timezone suggestion_reason empty_reason)))
    (ValueError "UnicodeEncodeError");
  let proposal_sha256 := Sha256.hexdigest proposal_json in
  db ← insert_proposal db {|
    pr_payload_id := payload_id; pr_run_id := run_id;
    pr_proposal_version := proposal_version;
    pr_status := if valid.(vp_accepted) then PAccepted else PNoSuggestions;
    pr_request_sha256 := request_sha256; pr_proposal_sha256 := proposal_sha256;
    pr_subject := subject; pr_attendees_json := valid.(vp_attendees_json);
    pr_start := start; pr_end := end_; pr_timezone := timezone;
    pr_suggestion_reason := suggestion_reason; pr_empty_reason := empty_reason;
    pr_observed_at := created_at; pr_expires_at := expires_at; pr_created_at := created_at |};
  let next_version := expected_state_version + 1 in
  '(db, changed) ← update_run db run_id (at_state RProposing expected_state_version) (fun r =>
    set_run r next_state next_version failure_code r.(run_context)
      (Some payload_id) (Some proposal_sha256) None created_at);
  _ ← require changed lost;
  db ← append_automation_event db event_id row.(run_key) (next_version - 1)
         (Some RProposing) next_state next_version next_state failure_code created_at
         (Some payload_id) (Some proposal_sha256) None None None;
  updated ← require_some (db.(db_runs) !! run_id)
              (RuntimeError "Automation proposal was not readable");
  Ret (updated, db).

(** ** The decision *)

(** What a decision on a current proposal does to the run. *)
Record DecisionEffect := {
  de_next_state : run_state;
  de_failure_code : option text;
  de_transaction_id : option text;
  de_event_decision : option event_decision;
  de_payload_id : text;
  de_payload_sha256 : text }.

(** The row a confirmation inserts into [automation_calendar_writes]. *)
Definition authorized_write (row : AutomationRun) (transaction_id : text)
    (proposal_version : Z) (proposal_sha256 start end_ timezone stamp : text)
    : AutomationCalendarWrite := {|
  wr_run_id := row.(run_key).(rk_run_id); wr_transaction_id := transaction_id;
  wr_proposal_version := proposal_version; wr_proposal_sha256 := proposal_sha256;
  wr_calendar_principal_key := row.(run_key).(rk_calendar_principal_key);
  wr_calendar_id := str "primary"; wr_start := start; wr_end := end_; wr_timezone := timezone;
  wr_status := WAuthorized; wr_graph_event_id := None; wr_failure_code := None;
  wr_confirmed_at := stamp; wr_submitted_at := None; wr_completed_at := None;
  wr_updated_at := stamp |}.

(** The confirm branch: an expired proposal sends the run back to [proposing];
    otherwise consent creates the write, in place of a cancelled one. *)
Definition confirm_effect `{Zones} (db : Db) (row : AutomationRun)
    (proposal : AutomationProposalPayload) (existing_write : option AutomationCalendarWrite)
    (proposal_version : Z) (proposal_sha256 : text) (write_authorized : bool)
    (stamp : Z) (transaction_id : text) : py (DecisionEffect * Db) :=
  let run_id := row.(run_key).(rk_run_id) in
  let incomplete := RuntimeError "Stored automation proposal is incomplete" in
  let bad_time := RuntimeError "Stored automation proposal time is invalid" in
  start_value ← require_some proposal.(pr_start) incomplete;
  end_value ← require_some proposal.(pr_end) incomplete;
  timezone_value ← require_some proposal.(pr_timezone) incomplete;
  expires_value ← require_some proposal.(pr_expires_at) incomplete;
  _ ← require (truthy start_value && truthy end_value && truthy timezone_value &&
               truthy expires_value) incomplete;
  start_time ← require_some (d ← fromisoformat start_value; py_option (to_utc d)) bad_time;
  expires_at ← require_some (d ← fromisoformat expires_value; py_option (to_utc d)) bad_time;
  if negb (run_live row stamp) || (expires_at <=? stamp) || (start_time <=? stamp) then
    extraction ← require_some (List.find (fun x =>
        bool_decide (x.(ex_run_id) = run_id) && bool_decide (x.(ex_status) = XAccepted))
        db.(db_extractions)) (RuntimeError "Accepted automation extraction is unavailable");
    result_sha256 ← require_some extraction.(ex_result_sha256)
                      (RuntimeError "Accepted automation extraction is unavailable");
    Ret ({| de_next_state := RProposing; de_failure_code := Some (str "proposal_expired");
            de_transaction_id := None; de_event_decision := None;
            de_payload_id := extraction.(ex_payload_id);
            de_payload_sha256 := result_sha256 |}, db)
  else
    _ ← require write_authorized (PermissionError "Calendar write authorization is required");
    db ← match existing_write with
         | Some w =>
             _ ← require (bool_decide (w.(wr_status) = WCancelled))
                   (RuntimeError "Cancelled automation admission changed");
             Ret (set_writes db (delete run_id db.(db_writes)))
         | None => Ret db
         end;
    db ← insert_write db (authorized_write row transaction_id proposal_version
           proposal_sha256 start_value end_value timezone_value (isoformat (utc stamp)));
    Ret ({| de_next_state := RWriteAuthorized; de_failure_code := None;
            de_transaction_id := Some transaction_id;
            de_event_decision := Some DConfirmed;
            de_payload_id := proposal.(pr_payload_id);
            de_payload_sha256 := proposal_sha256 |}, db).

(** The run update and event common to both decisions. *)
Definition commit_decision (db : Db) (row : AutomationRun)
    (proposal : AutomationProposalPayload) (proposal_sha256 : text)
    (effect : DecisionEffect) (stamp : Z) (event_id : text) : py (write_result * Db) :=
  let run_id := row.(run_key).(rk_run_id) in
  let previous_version := row.(run_version) in
  let next_version := previous_version + 1 in
  let updated_at := isoformat (utc stamp) in
  '(db, changed) ← update_run db run_id (fun r =>
      at_state RAwaitingConfirmation previous_version r &&
      bool_decide (r.(run_current_payload_id) = Some proposal.(pr_payload_id)) &&
      bool_decide (r.(run_current_payload_sha256) = Some proposal_sha256)) (fun r =>
    set_run r effect.(de_next_state) next_version effect.(de_failure_code) r.(run_context)
      (Some effect.(de_payload_id)) (Some effect.(de_payload_sha256)) None updated_at);
  _ ← require changed
        (RuntimeError "Automation proposal decision lost its expected-state race");
  db ← append_automation_event db event_id row.(run_key) (next_version - 1)
         (Some RAwaitingConfirmation) effect.(de_next_state) next_version
         effect.(de_next_state) effect.(de_failure_code) updated_at
         (Some proposal.(pr_payload_id)) (Some proposal_sha256)
         effect.(de_event_decision) effect.(de_transaction_id) None;
  updated ← require_some (db.(db_runs) !! run_id)
              (RuntimeError "Automation proposal decision was not readable");
  Ret (RunResult updated, db).

Definition proposal_by_identity (db : Db) (run_id : text) (version : Z) (sha256 : text)
    : option AutomationProposalPayload :=
  List.find (fun p => bool_decide (p.(pr_run_id) = run_id) &&
                      (p.(pr_proposal_version) =? version) &&
                      bool_decide (p.(pr_proposal_sha256) = sha256)) db.(db_proposals).

(** The transaction after the replay of cancelled admissions: repeated decisions
    replay, and anything else must be about the current proposal. *)
Definition decide_current `{Zones} (db : Db) (row : AutomationRun)
    (expected_state_version proposal_version : Z) (proposal_sha256 : text) (confirm : bool)
    (write_authorized : bool) (stamp : Z) (transaction_id event_id : text)
    : py (write_result * Db) :=
  let run_id := row.(run_key).(rk_run_id) in
  proposal ← require_some (proposal_by_identity db run_id proposal_version proposal_sha256)
               (KeyError run_id);
  let existing_write := db.(db_writes) !! run_id in
  replay ← (match confirm, existing_write with
            | true, Some w =>
                if (w.(wr_proposal_version) =? proposal_version) &&
                   bool_decide (w.(wr_proposal_sha256) = proposal_sha256) then
                  _ ← require (negb (bool_decide (w.(wr_status) = WCancelled)))
                        (RuntimeError "Cancelled automation confirmation identity does not match");
                  Ret true
                else
                  _ ← require (bool_decide (w.(wr_status) = WCancelled))
                        (RuntimeError "Automation confirmation conflicts with its durable write");
                  Ret false
            | false, _ => Ret (bool_decide (row.(run_st) = RDeclined))
            | true, None => Ret false
            end);
  if replay : bool then Ret (RunResult row, db)
  else
    _ ← require (at_state RAwaitingConfirmation expected_state_version row &&
                 bool_decide (row.(run_current_payload_id) = Some proposal.(pr_payload_id)) &&
                 bool_decide (row.(run_current_payload_sha256) = Some proposal_sha256) &&
                 bool_decide (proposal.(pr_status) = PAccepted))
          (RuntimeError "Automation proposal decision lost its expected-state race");
    '(effect, db) ←
      (if confirm then
         confirm_effect db row proposal existing_write proposal_version proposal_sha256
           write_authorized stamp transaction_id
       else Ret ({| de_next_state := RDeclined; de_failure_code := None;
                    de_transaction_id := None; de_event_decision := Some DDeclined;
                    de_payload_id := proposal.(pr_payload_id);
                    de_payload_sha256 := proposal_sha256 |}, db));
    commit_decision db row proposal proposal_sha256 effect stamp event_id.

(** [decide_automation_proposal] *)
Definition decide_automation_proposal `{Zones} (db : Db) (run_id : text)
    (expected_state_version proposal_version : Z) (proposal_sha256 decision : text)
    (write_authorized : bool) (now : datetime) (transaction_id event_id : text)
    : py (write_result * Db) :=
  let confirm := bool_decide (decision = str "confirm") in
  _ ← require (confirm || bool_decide (decision = str "decline"))
        (ValueError "automation proposal decision is invalid");
  _ ← require ((1 <=? expected_state_version) && (1 <=? proposal_version) &&
               len_is 64 proposal_sha256)
        (ValueError "automation proposal identity is invalid");
  _ ← require (is_some now.(dt_offset))
        (ValueError "automation proposal decision time must be timezone-aware");
  stamp ← astimezone_utc now;
  row ← require_some (db.(db_runs) !! run_id) (KeyError run_id);
  cancelled ← (if confirm then
                 cancelled_calendar_admission db row (expected_state_version + 1)
                   (Some proposal_sha256) (Some proposal_version)
               else Ret None);
  match cancelled with
  | Some result => Ret (result, db)
  | None => decide_current db row expected_state_version proposal_version proposal_sha256
              confirm write_authorized stamp transaction_id event_id
  end.

(** ** The write *)

(** The handoff of [begin_automation_calendar_write]: the authorized write of a
    run whose source and proposal still exist becomes [writing]. *)
Definition submit_write (db : Db) (row : AutomationRun) (write : AutomationCalendarWrite)
    (expected_state_version : Z) (stamp event_id : text) : py (write_result * Db) :=
  let run_id := row.(run_key).(rk_run_id) in
  let lost := RuntimeError "Automation write lost its expected-state race" in
  let next_version := expected_state_version + 1 in
  '(db, changed_write) ← update_write db run_id WAuthorized (fun w => {|
    wr_run_id := w.(wr_run_id); wr_transaction_id := w.(wr_transaction_id);
    wr_proposal_version := w.(wr_proposal_version);
    wr_proposal_sha256 := w.(wr_proposal_sha256);
    wr_calendar_principal_key := w.(wr_calendar_principal_key);
    wr_calendar_id := w.(wr_calendar_id); wr_start := w.(wr_start); wr_end := w.(wr_end);
    wr_timezone := w.(wr_timezone); wr_status := WWriting;
    wr_graph_event_id := w.(wr_graph_event_id); wr_failure_code := None;
    wr_confirmed_at := w.(wr_confirmed_at); wr_submitted_at := Some stamp;
    wr_completed_at := w.(wr_completed_at); wr_updated_at := stamp |});
  _ ← require changed_write lost;
  '(db, changed) ← update_run db run_id (at_state RWriteAuthorized expected_state_version)
    (fun r => set_run r RWriting next_version None r.(run_context)
       r.(run_current_payload_id) r.(run_current_payload_sha256) None stamp);
  _ ← require changed lost;
  db ← append_automation_event db event_id row.(run_key) (next_version - 1)
         (Some RWriteAuthorized) RWriting next_version RWriting None stamp
         row.(run_current_payload_id)
         (Some (default (str "None") row.(run_current_payload_sha256)))
         None (Some write.(wr_transaction_id)) None;
  updated ← require_some (db.(db_runs) !! run_id)
              (RuntimeError "Automation write transition was not readable");
  Ret (RunResult updated, db).

(** [begin_automation_calendar_write]; [now] is the clock in UTC. *)
Definition begin_automation_calendar_write (db : Db) (run_id : text)
    (expected_state_version : Z) (now : Z) (event_id : text) : py (write_result * Db) :=
  _ ← require (1 <=? expected_state_version) (ValueError "Automation write version is invalid");
  let stamp := isoformat (utc now) in
  row ← require_some (db.(db_runs) !! run_id) (KeyError run_id);
  cancelled ← cancelled_calendar_admission db row expected_state_version None None;
  match cancelled with
  | Some result => Ret (result, db)
  | None =>
      write ← require_some (db.(db_writes) !! run_id) (KeyError run_id);
      _ ← require (at_state RWriteAuthorized expected_state_version row)
            (AutomationCalendarWriteStateChanged "Automation write lost its expected-state race");
      _ ← require (bool_decide (write.(wr_status) = WAuthorized))
            (RuntimeError "Automation write admission ledger is inconsistent");
      let source_exists := bool_decide (scheduling_source_join db row ≠ []) in
      let proposal_exists := existsb (fun p =>
        bool_decide (p.(pr_run_id) = run_id) &&
        bool_decide (Some p.(pr_payload_id) = row.(run_current_payload_id)) &&
        (p.(pr_proposal_version) =? write.(wr_proposal_version)) &&
        bool_decide (p.(pr_proposal_sha256) = write.(wr_proposal_sha256))) db.(db_proposals) in
      if source_exists && proposal_exists then
        submit_write db row write expected_state_version stamp event_id
      else
        '(db, _) ← cancel_automation_source db row (Some write.(wr_transaction_id)) stamp
                     CauseSourceUnavailable event_id;
        cancelled ← cancelled_calendar_admission db row expected_state_version None None;
        result ← require_some cancelled
                   (RuntimeError "Automation cancellation was not readable");
        Ret (result, db)
  end.

(** The [allowed] transitions of a calendar write. *)
Definition write_transition_allowed (previous_state next_state : run_state) : bool :=
  match previous_state, next_state with
  | RWriting, RCompleted | RWriting, RFailed | RWriting, RUnresolved
  | RUnresolved, RReconciling | RReconciling, RCompleted | RReconciling, RUnresolved => true
  | _, _ => false
  end.

(** [write_status = next_state] *)
Definition write_status_of (s : run_state) : option write_status :=
  match s with
  | RWriteAuthorized => Some WAuthorized
  | RWriting => Some WWriting
  | RUnresolved => Some WUnresolved
  | RReconciling => Some WReconciling
  | RCompleted => Some WCompleted
  | RFailed => Some WFailed
  | _ => None
  end.

(** The argument checks of [transition_automation_calendar_write]: the failure
    code and completion time to store. *)
Definition write_outcome_fields (next_state : run_state) (failure_code graph_event_id : option text)
    (stamp : text) : py (option text * option text) :=
  if decide (next_state = RCompleted) then
    _ ← require (match graph_event_id with
                 | Some g => truthy g && within_utf8_bytes g 512 | None => false end)
          (ValueError "Graph event identity is invalid");
    Ret (None, Some stamp)
  else
    _ ← require (is_none graph_event_id)
          (ValueError "Only completed writes may record a Graph event identity");
    if decide (next_state = RFailed ∨ next_state = RUnresolved) then
      _ ← require (match failure_code with
                   | Some f => bool_decide (1 <= length f <= 64)%nat | None => false end)
            (ValueError "Automation write failure code is invalid");
      Ret (failure_code, None)
    else Ret (None, None).

(** [transition_automation_calendar_write] *)
Definition transition_automation_calendar_write (db : Db) (run_id : text)
    (expected_state_version : Z) (next_state : run_state)
    (failure_code graph_event_id : option text) (now : Z) (event_id : text)
    : py (AutomationRun * Db) :=
  let stamp := isoformat (utc now) in
  row ← require_some (db.(db_runs) !! run_id) (KeyError run_id);
  write ← require_some (db.(db_writes) !! run_id) (KeyError run_id);
  let previous_state := row.(run_st) in
  let lost := RuntimeError "Automation write transition lost its expected-state race" in
  _ ← require (write_transition_allowed previous_state next_state &&
               (row.(run_version) =? expected_state_version)) lost;
  '(stored_failure, completed_at) ←
    write_outcome_fields next_state failure_code graph_event_id stamp;
  status ← require_some (write_status_of next_state)
             (IntegrityError "automation_calendar_writes CHECK");
  let next_version := expected_state_version + 1 in
  '(db, changed_write) ← update_write db run_id write.(wr_status) (fun w => {|
    wr_run_id := w.(wr_run_id); wr_transaction_id := w.(wr_transaction_id);
    wr_proposal_version := w.(wr_proposal_version);
    wr_proposal_sha256 := w.(wr_proposal_sha256);
    wr_calendar_principal_key := w.(wr_calendar_principal_key);
    wr_calendar_id := w.(wr_calendar_id); wr_start := w.(wr_start); wr_end := w.(wr_end);
    wr_timezone := w.(wr_timezone); wr_status := status;
    wr_graph_event_id := graph_event_id; wr_failure_code := stored_failure;
    wr_confirmed_at := w.(wr_confirmed_at); wr_submitted_at := w.(wr_submitted_at);
    wr_completed_at := completed_at; wr_updated_at := stamp |});
  _ ← require changed_write lost;
  '(db, changed) ← update_run db run_id (at_state previous_state expected_state_version)
    (fun r => set_run r next_state next_version stored_failure r.(run_context)
       r.(run_current_payload_id) r.(run_current_payload_sha256) None stamp);
  _ ← require changed lost;
  db ← append_automation_event db event_id row.(run_key) (next_version - 1)
         (Some previous_state) next_state next_version next_state stored_failure stamp
         row.(run_current_payload_id) row.(run_current_payload_sha256)
         None (Some write.(wr_transaction_id)) graph_event_id;
  updated ← require_some (db.(db_runs) !! run_id)
              (RuntimeError "Automation write outcome was not readable");
  Ret (updated, db).
