(* ===== verification/AutomationRefine.v ===== *)
(** * What each automation statement and operation does

    Inversion lemmas of the table statements, and for every store operation one
    characterisation: the run it moves, the single event it appends, and what it
    does to the payload and write tables. *)

From S2P Require Export CalendarOps.
From stdpp Require Import options.

Local Open Scope Z_scope.

(** ** The state machine of a run *)

(** The edges the store can log. *)
Definition run_edge (s s' : run_state) : bool :=
  match s, s' with
  | RDetected, (RExtracting | RManualReview | RSourceUnavailable) => true
  | RExtracting, (RExtracting | RProposing | RManualReview | RAmbiguous | RSourceUnavailable) => true
  | RProposing, (RAwaitingConfirmation | RManualReview | RSourceUnavailable) => true
  | RAwaitingConfirmation, (RDeclined | RProposing | RWriteAuthorized | RSourceUnavailable) => true
  | RWriteAuthorized, (RWriting | RSourceUnavailable) => true
  | RWriting, (RCompleted | RFailed | RUnresolved) => true
  | RUnresolved, RReconciling => true
  | RReconciling, (RCompleted | RUnresolved) => true
  | (RManualReview | RAmbiguous), RSourceUnavailable => true
  | RSourceUnavailable, RExtracting => true
  | _, _ => false
  end.

(** ** Statements *)

Lemma update_run_true db id g f db' :
  update_run db id g f = Ret (db', true) →
  ∃ r, db.(db_runs) !! id = Some r ∧ g r = true ∧ run_row_ok (f r) = true ∧
       db' = set_runs db (<[id := f r]> db.(db_runs)).
Proof.
  unfold update_run. destruct (db_runs db !! id) as [r|]; [|done].
  destruct (g r) eqn:Hg; [|done]. intros H. peel. simplify_eq. eauto 10.
Qed.

Lemma insert_event_inv db e db' :
  insert_event db e = Ret db' →
  event_row_ok e = true ∧
  (∀ o, o ∈ db.(db_events) → o.(ev_event_id) ≠ e.(ev_event_id) ∧
     (o.(ev_run_id) = e.(ev_run_id) →
      o.(ev_sequence_no) ≠ e.(ev_sequence_no) ∧ o.(ev_state_version) ≠ e.(ev_state_version))) ∧
  db' = set_events db (db.(db_events) ++ [e]).
Proof.
  unfold insert_event. intros H. peel. bools. simplify_eq. split_and!; try done.
  rewrite existsb_false in *. intros o Ho.
  match goal with H : ∀ x, _ → _ = false |- _ =>
    specialize (H o Ho) as Hno; apply orb_false_iff in Hno as [? Hand] end. bools. split; [done|].
  intros Heq. rewrite bool_decide_eq_true_2 in Hand by done. simpl in Hand. bools. lia.
Qed.

Lemma update_write_true db id s f db' :
  update_write db id s f = Ret (db', true) →
  ∃ w, db.(db_writes) !! id = Some w ∧ w.(wr_status) = s ∧ write_row_ok (f w) = true ∧
       db' = set_writes db (<[id := f w]> db.(db_writes)).
Proof.
  unfold update_write. destruct (db_writes db !! id) as [w|]; [|done].
  case_decide; [|done]. intros H'. peel. simplify_eq. eauto 10.
Qed.

Lemma insert_write_inv db w db' :
  insert_write db w = Ret db' →
  write_row_ok w = true ∧ db.(db_writes) !! w.(wr_run_id) = None ∧
  (∀ id o, db.(db_writes) !! id = Some o → o.(wr_transaction_id) ≠ w.(wr_transaction_id)) ∧
  db' = set_writes db (<[w.(wr_run_id) := w]> db.(db_writes)).
Proof.
  unfold insert_write. intros H. peel. bools. simplify_eq. split_and!; try done.
  - by destruct (db_writes db !! wr_run_id w).
  - intros id o Ho. rewrite forallb_elem in *.
    match goal with H : ∀ x, _ → _ = true |- _ =>
      specialize (H (id, o) ltac:(by apply elem_of_map_to_list)) end. by bools.
Qed.

Lemma insert_extraction_inv db x db' :
  insert_extraction db x = Ret db' →
  extraction_row_ok x = true ∧
  (∀ o, o ∈ db.(db_extractions) → o.(ex_payload_id) ≠ x.(ex_payload_id)) ∧
  db' = set_extractions db (db.(db_extractions) ++ [x]).
Proof.
  unfold insert_extraction. intros H. peel. bools. simplify_eq. split_and!; try done.
  rewrite existsb_false in *. intros o Ho.
  match goal with H : ∀ x, _ → _ = false |- _ => specialize (H o Ho) end. by bools.
Qed.

Lemma insert_proposal_inv db p db' :
  insert_proposal db p = Ret db' →
  proposal_row_ok p = true ∧
  (∀ o, o ∈ db.(db_proposals) → o.(pr_payload_id) ≠ p.(pr_payload_id)) ∧
  db' = set_proposals db (db.(db_proposals) ++ [p]).
Proof.
  unfold insert_proposal. intros H. peel. bools. simplify_eq. split_and!; try done.
  rewrite existsb_false in *. intros o Ho.
  match goal with H : ∀ x, _ → _ = false |- _ => specialize (H o Ho) end. by bools.
Qed.

(** The predicate of [update_reserved_extraction]. *)
Definition reserved_hit (payload_id run_id : text) (x : AutomationExtractionPayload) : bool :=
  bool_decide (x.(ex_payload_id) = payload_id) && bool_decide (x.(ex_run_id) = run_id) &&
  bool_decide (x.(ex_status) = XReserved).

Lemma update_reserved_inv db pid id f db' b :
  update_reserved_extraction db pid id f = Ret (db', b) →
  (∀ x, x ∈ db.(db_extractions) → reserved_hit pid id x = true → extraction_row_ok (f x) = true) ∧
  db' = set_extractions db ((fun x => if reserved_hit pid id x then f x else x) <$>
                            db.(db_extractions)).
Proof.
  unfold update_reserved_extraction. intros H. peel. simplify_eq. split; [|done].
  intros x Hx Hit. rewrite forallb_elem in *.
  match goal with H : ∀ x, _ → _ = true |- _ => specialize (H x Hx) end.
  unfold reserved_hit in Hit. rewrite Hit in *. done.
Qed.

(** ** One transition of one run *)

Record event_for (r r' : AutomationRun) (e : AutomationEvent) : Prop := {
  ef_run_id : e.(ev_run_id) = r.(run_key).(rk_run_id);
  ef_sequence : e.(ev_sequence_no) = r.(run_version);
  ef_version : e.(ev_state_version) = r.(run_version) + 1;
  ef_previous : e.(ev_previous_state) = Some r.(run_st);
  ef_next : e.(ev_next_state) = r'.(run_st);
  ef_kind : e.(ev_transition_kind) = r'.(run_st);
  ef_automation : e.(ev_automation_id) = r.(run_key).(rk_automation_id) ∧
    e.(ev_automation_version) = r.(run_key).(rk_automation_version) ∧
    e.(ev_extraction_schema_version) = r.(run_key).(rk_extraction_schema_version) ∧
    e.(ev_calendar_principal_key) = r.(run_key).(rk_calendar_principal_key) }.

(** Run [r] became [r'] and [e] was logged; nothing else of the run and event
    tables changed. *)
Record advance (db db' : Db) (r r' : AutomationRun) (e : AutomationEvent) : Prop := {
  adv_found : db.(db_runs) !! r.(run_key).(rk_run_id) = Some r;
  adv_runs : db'.(db_runs) = <[r.(run_key).(rk_run_id) := r']> db.(db_runs);
  adv_events : db'.(db_events) = (db.(db_events) ++ [e])%list;
  adv_key : r'.(run_key) = r.(run_key);
  adv_version : r'.(run_version) = r.(run_version) + 1;
  adv_row_ok : run_row_ok r' = true;
  adv_event : event_for r r' e;
  adv_event_ok : event_row_ok e = true;
  adv_fresh : ∀ o, o ∈ db.(db_events) → o.(ev_event_id) ≠ e.(ev_event_id);
  adv_edge : run_edge r.(run_st) r'.(run_st) = true;
  adv_identities : db'.(db_identities) = db.(db_identities);
  adv_sources : db'.(db_sources) = db.(db_sources) }.

(** Every run is stored under its own id. *)
Definition keyed (db : Db) : Prop :=
  ∀ id r, db.(db_runs) !! id = Some r → r.(run_key).(rk_run_id) = id.

(** The fields of an event the specification talks about. *)
Record event_says (e : AutomationEvent) (failure : option text) (payload_id payload_sha : option text)
    (decision : option event_decision) (txn : option text) : Prop := {
  es_failure : e.(ev_failure_code) = failure;
  es_payload_id : e.(ev_payload_id) = payload_id;
  es_payload_sha : e.(ev_payload_sha256) = payload_sha;
  es_decision : e.(ev_decision) = decision;
  es_txn : e.(ev_transaction_id) = txn }.

(** The tail every transition shares: update the run, then append its event. *)
Lemma advance_intro db db1 db2 db3 id row g f eid v prev next failure at_ pid psha dec txn gid :
  keyed db →
  db.(db_runs) !! id = Some row →
  db1.(db_runs) = db.(db_runs) → db1.(db_events) = db.(db_events) →
  db1.(db_identities) = db.(db_identities) → db1.(db_sources) = db.(db_sources) →
  update_run db1 id g f = Ret (db2, true) →
  append_automation_event db2 eid row.(run_key) (v - 1) prev next v next failure at_
    pid psha dec txn gid = Ret db3 →
  prev = Some row.(run_st) → v = row.(run_version) + 1 →
  (f row).(run_st) = next → (f row).(run_version) = v → (f row).(run_key) = row.(run_key) →
  run_edge row.(run_st) next = true →
  ∃ e, advance db db3 row (f row) e ∧ event_says e failure pid psha dec txn ∧
       db3.(db_extractions) = db1.(db_extractions) ∧ db3.(db_proposals) = db1.(db_proposals) ∧
       db3.(db_writes) = db1.(db_writes).
Proof.
  intros Hk Hrow Hr He Hi Hs Hu Ha -> -> Hst Hv Hkey Hedge.
  apply update_run_true in Hu as (r & Hr' & _ & Hok & ->).
  rewrite Hr, Hrow in Hr'. simplify_eq.
  apply insert_event_inv in Ha as (Hev & Hfresh & ->). simpl in *.
  pose proof (Hk _ _ Hrow) as <-.
  match type of Hev with event_row_ok ?e = _ => exists e end.
  split_and!; simpl; try reflexivity; [|by constructor].
  constructor; simpl; rewrite ?Hr, ?He, ?Hi, ?Hs; try done.
  - constructor; simpl; try done. lia.
  - intros o Ho. apply Hfresh. by rewrite He.
Qed.

(** ** The ledger specification

    What one transaction may do to the automation tables, without how it decides.
    [id] abbreviates the run's id in the comments. *)

Definition rid (r : AutomationRun) : text := r.(run_key).(rk_run_id).

(** [f] completes or reschedules an attempt without changing its identity. *)
Definition keeps_attempt (f : AutomationExtractionPayload → AutomationExtractionPayload) : Prop :=
  ∀ x, (f x).(ex_run_id) = x.(ex_run_id) ∧ (f x).(ex_payload_id) = x.(ex_payload_id) ∧
       (f x).(ex_attempt_no) = x.(ex_attempt_no).

(** The write keeps its admission: transaction, proposal and consent. *)
Definition same_admission (w w' : AutomationCalendarWrite) : Prop :=
  w'.(wr_run_id) = w.(wr_run_id) ∧ w'.(wr_transaction_id) = w.(wr_transaction_id) ∧
  w'.(wr_proposal_version) = w.(wr_proposal_version) ∧
  w'.(wr_proposal_sha256) = w.(wr_proposal_sha256) ∧
  w'.(wr_confirmed_at) = w.(wr_confirmed_at).

Inductive ledger_step (db db' : Db) : Prop :=
(** a run is admitted with its pinned mailbox identity *)
| LAdmit r e identity :
    db.(db_runs) !! rid r = None → db.(db_identities) !! rid r = None →
    db'.(db_runs) = <[rid r := r]> db.(db_runs) →
    db'.(db_identities) = <[rid r := identity]> db.(db_identities) →
    db'.(db_events) = (db.(db_events) ++ [e])%list →
    r.(run_st) = RDetected → r.(run_version) = 1 → run_row_ok r = true →
    e.(ev_run_id) = rid r → e.(ev_sequence_no) = 0 → e.(ev_state_version) = 1 →
    e.(ev_previous_state) = None → e.(ev_next_state) = RDetected →
    e.(ev_decision) = None → e.(ev_transaction_id) = None → event_row_ok e = true →
    (∀ o, o ∈ db.(db_events) → o.(ev_event_id) ≠ e.(ev_event_id)) →
    db'.(db_extractions) = db.(db_extractions) → db'.(db_proposals) = db.(db_proposals) →
    db'.(db_writes) = db.(db_writes) → ledger_step db db'
(** a model attempt is reserved: the first, or the retry of a rejected one *)
| LPrepare r r' e x :
    advance db db' r r' e → r'.(run_st) = RExtracting →
    event_says e None (Some x.(ex_payload_id)) None None None →
    db'.(db_extractions) = (db.(db_extractions) ++ [x])%list →
    x.(ex_run_id) = rid r → extraction_row_ok x = true → x.(ex_status) = XReserved →
    x.(ex_attempt_no) = Z.of_nat (length (extractions_of db (rid r))) + 1 →
    (∀ y, list.last (extractions_of db (rid r)) = Some y → y.(ex_status) = XRejected) →
    (∀ o, o ∈ db.(db_extractions) → o.(ex_payload_id) ≠ x.(ex_payload_id)) →
    db'.(db_proposals) = db.(db_proposals) → db'.(db_writes) = db.(db_writes) →
    ledger_step db db'
(** the reserved attempt is finalized or rescheduled *)
| LExtract r r' e pid f failure sha :
    advance db db' r r' e → r.(run_st) = RExtracting → r'.(run_st) ≠ RExtracting ∨ failure ≠ None →
    event_says e failure (Some pid) sha None None →
    keeps_attempt f →
    (∀ x, x ∈ db.(db_extractions) → reserved_hit pid (rid r) x = true →
       extraction_row_ok (f x) = true) →
    db'.(db_extractions) = (fun x => if reserved_hit pid (rid r) x then f x else x) <$>
                           db.(db_extractions) →
    db'.(db_proposals) = db.(db_proposals) → db'.(db_writes) = db.(db_writes) →
    ledger_step db db'
(** the run is handed to a person, or its source is given up *)
| LReview r r' e failure pid sha :
    advance db db' r r' e →
    r'.(run_st) = RManualReview ∨ r'.(run_st) = RSourceUnavailable →
    r.(run_st) ≠ RWriteAuthorized →
    event_says e (Some failure) pid sha None None →
    db'.(db_extractions) = db.(db_extractions) ∨
      db'.(db_extractions) = (delete_extractions db (rid r)).(db_extractions) →
    db'.(db_proposals) = db.(db_proposals) → db'.(db_writes) = db.(db_writes) →
    ledger_step db db'
(** a proposal is recorded *)
| LPropose r r' e p failure :
    advance db db' r r' e → r.(run_st) = RProposing →
    r'.(run_st) = (if decide (p.(pr_status) = PAccepted) then RAwaitingConfirmation else RManualReview) →
    r'.(run_current_payload_id) = Some p.(pr_payload_id) →
    r'.(run_current_payload_sha256) = Some p.(pr_proposal_sha256) →
    event_says e failure (Some p.(pr_payload_id)) (Some p.(pr_proposal_sha256)) None None →
    p.(pr_run_id) = rid r → proposal_row_ok p = true →
    p.(pr_proposal_version) = latest_proposal_version db (rid r) + 1 →
    (∀ o, o ∈ db.(db_proposals) → o.(pr_payload_id) ≠ p.(pr_payload_id)) →
    db'.(db_proposals) = (db.(db_proposals) ++ [p])%list →
    db'.(db_extractions) = db.(db_extractions) → db'.(db_writes) = db.(db_writes) →
    ledger_step db db'
(** the proposal is declined, or found expired *)
| LLapse r r' e failure pid sha d :
    advance db db' r r' e → r.(run_st) = RAwaitingConfirmation →
    r'.(run_st) = RDeclined ∨ r'.(run_st) = RProposing →
    event_says e failure pid sha d None → d ≠ Some DConfirmed →
    db'.(db_proposals) = db.(db_proposals) → db'.(db_extractions) = db.(db_extractions) →
    db'.(db_writes) = db.(db_writes) → ledger_step db db'
(** consent: the current proposal is confirmed and its write admitted *)
| LConfirm r r' e p w :
    advance db db' r r' e → r.(run_st) = RAwaitingConfirmation → r'.(run_st) = RWriteAuthorized →
    p ∈ db.(db_proposals) → p.(pr_run_id) = rid r → p.(pr_status) = PAccepted →
    r.(run_current_payload_id) = Some p.(pr_payload_id) →
    r.(run_current_payload_sha256) = Some p.(pr_proposal_sha256) →
    r'.(run_current_payload_id) = r.(run_current_payload_id) →
    r'.(run_current_payload_sha256) = r.(run_current_payload_sha256) →
    event_says e None (Some p.(pr_payload_id)) (Some p.(pr_proposal_sha256))
      (Some DConfirmed) (Some w.(wr_transaction_id)) →
    w.(wr_run_id) = rid r → w.(wr_status) = WAuthorized → write_row_ok w = true →
    w.(wr_proposal_version) = p.(pr_proposal_version) →
    w.(wr_proposal_sha256) = p.(pr_proposal_sha256) →
    w.(wr_calendar_principal_key) = r.(run_key).(rk_calendar_principal_key) →
    Some w.(wr_start) = p.(pr_start) → Some w.(wr_end) = p.(pr_end) →
    Some w.(wr_timezone) = p.(pr_timezone) →
    (∀ w0, db.(db_writes) !! rid r = Some w0 → w0.(wr_status) = WCancelled) →
    (∀ id o, id ≠ rid r → db.(db_writes) !! id = Some o →
       o.(wr_transaction_id) ≠ w.(wr_transaction_id)) →
    (∀ o, o ∈ db.(db_events) → o.(ev_transaction_id) ≠ Some w.(wr_transaction_id)) →
    db'.(db_writes) = <[rid r := w]> db.(db_writes) →
    db'.(db_proposals) = db.(db_proposals) → db'.(db_extractions) = db.(db_extractions) →
    ledger_step db db'
(** the source is lost: payloads go, and an unsubmitted write is cancelled *)
| LCancel r r' e cause pid sha txn :
    advance db db' r r' e → r'.(run_st) = RSourceUnavailable →
    (r.(run_st) = RWriteAuthorized → ∃ w w', db.(db_writes) !! rid r = Some w ∧
       w.(wr_status) = WAuthorized ∧ same_admission w w' ∧ w'.(wr_status) = WCancelled ∧
       w'.(wr_failure_code) = Some (cause_text cause) ∧ write_row_ok w' = true ∧
       txn = Some w.(wr_transaction_id) ∧
       db'.(db_writes) = <[rid r := w']> db.(db_writes)) →
    (r.(run_st) ≠ RWriteAuthorized → txn = None ∧ db'.(db_writes) = db.(db_writes)) →
    event_says e (Some (cause_text cause)) pid sha None txn →
    db'.(db_extractions) = (delete_extractions db (rid r)).(db_extractions) →
    db'.(db_proposals) = (delete_proposals db (rid r)).(db_proposals) →
    ledger_step db db'
(** the payloads of a run that cannot be cancelled any more are dropped *)
| LDrop id :
    db' = delete_proposals (delete_extractions db id) id → ledger_step db db'
(** the admitted write moves with its run: handed off, then resolved *)
| LWrite r r' e w w' status failure pid sha :
    advance db db' r r' e → db.(db_writes) !! rid r = Some w →
    is_Some (write_status_of r.(run_st)) → write_status_of r'.(run_st) = Some status →
    same_admission w w' → w'.(wr_status) = status → write_row_ok w' = true →
    event_says e failure pid sha None (Some w.(wr_transaction_id)) →
    db'.(db_writes) = <[rid r := w']> db.(db_writes) →
    db'.(db_proposals) = db.(db_proposals) → db'.(db_extractions) = db.(db_extractions) →
    ledger_step db db'
(** a review notification is acknowledged *)
| LNotified r stamp :
    db.(db_runs) !! rid r = Some r →
    let r' := set_run r r.(run_st) r.(run_version) r.(run_failure_code) r.(run_context)
                r.(run_current_payload_id) r.(run_current_payload_sha256) (Some stamp)
                r.(run_updated_at) in
    run_row_ok r' = true → db' = set_runs db (<[rid r := r']> db.(db_runs)) →
    ledger_step db db'
(** expired runs are purged *)
| LPurge now : db' = purge_expired_automation_tombstones db now → ledger_step db db'
(** another component changes the source tables *)
| LSources s : db' = set_sources db s → ledger_step db db'.

(** * The store operations refine the ledger specification

    Each automation transaction that returns has made one step of
    [AutomationRefine.ledger_step] (or none, when it replays an earlier result);
    the cleanup of many messages makes several. *)

Lemma at_state_true st v r : at_state st v r = true → r.(run_st) = st ∧ r.(run_version) = v.
Proof. unfold at_state. intros. bools. split; [done|lia]. Qed.

(** Boolean guards of a peeled transaction as equations. *)
Ltac guards := bools; repeat match goal with
  | H : at_state _ _ _ = true |- _ => apply at_state_true in H as [? ?]
  | H : (_ =? _) = true |- _ => apply Z.eqb_eq in H
  end.

(** The edge of a transition from its guards. *)
Ltac edge := destruct_or?; destruct_and?; subst; repeat match goal with
  | H : run_st _ = _ |- _ => rewrite H in * end; simpl in *; try done.

(** Recover the shared tail of a transition from the peeled hypotheses. *)
Ltac advance_from Hk Hrow :=
  match goal with
  | Hu : update_run ?db1 ?id ?g ?f = Ret (?db2, true),
    Ha : append_automation_event ?db2 _ _ _ _ _ _ _ _ _ _ _ _ _ _ = Ret _ |- _ =>
      let e := fresh "e" in let Hadv := fresh "Hadv" in let Hsays := fresh "Hsays" in
      let Hx := fresh "Hx" in let Hp := fresh "Hp" in let Hw := fresh "Hw" in
      odestruct (advance_intro _ db1 db2 _ id _ g f _ _ _ _ _ _ _ _ _ _ _
                   Hk Hrow _ _ _ _ Hu Ha _ _ _ _ _ _) as (e & Hadv & Hsays & Hx & Hp & Hw);
      try solve [reflexivity | congruence | lia | repeat case_decide; reflexivity | edge]
  end.

(** Invert the payload and write statements of a peeled transaction. *)
Ltac statements := repeat match goal with
  | H : update_reserved_extraction _ _ _ _ = Ret _ |- _ =>
      let Hok := fresh "Hok" in apply update_reserved_inv in H as [Hok ->]
  | H : insert_extraction _ _ = Ret _ |- _ =>
      let Hok := fresh "Hok" in let Hnew := fresh "Hnew" in
      apply insert_extraction_inv in H as (Hok & Hnew & ->)
  | H : insert_proposal _ _ = Ret _ |- _ =>
      let Hok := fresh "Hok" in let Hnew := fresh "Hnew" in
      apply insert_proposal_inv in H as (Hok & Hnew & ->)
  | H : insert_write _ _ = Ret _ |- _ =>
      let Hok := fresh "Hok" in let Hnone := fresh "Hnone" in let Hnew := fresh "Hnew" in
      apply insert_write_inv in H as (Hok & Hnone & Hnew & ->)
  | H : update_write _ _ _ _ = Ret (_, true) |- _ =>
      let w := fresh "w" in let Hwr := fresh "Hwr" in let Hst := fresh "Hst" in
      let Hok := fresh "Hok" in apply update_write_true in H as (w & Hwr & Hst & Hok & ->)
  end.

(** Open the transaction on run [id] of [db] and recover its transition. *)
Ltac transition Hk db id :=
  match goal with H : db_runs db !! id = Some _ |- _ =>
    pose proof (Hk _ _ H) as <-; advance_from Hk H end.

Lemma review_refines db id v next failure now eid r' db' :
  keyed db →
  transition_automation_to_review db id v next failure now eid = Ret (r', db') →
  ledger_step db db'.
Proof.
  intros Hk H. unfold transition_automation_to_review in H. peel. simplify_eq. guards.
  transition Hk db id.
  eapply LReview; [exact Hadv| | |exact Hsays|..]; simpl; try done.
  - by edge.
  - case_decide; [by right | by left].
  - by case_decide.
  - by case_decide.
Qed.

Lemma failure_refines `{Unicode} db id v pid code retryable delay stamp eid r' db' :
  keyed db →
  record_automation_extraction_failure db id v pid code retryable delay stamp eid = Ret (r', db') →
  ledger_step db db'.
Proof.
  intros Hk Hop. unfold record_automation_extraction_failure in Hop. peel; simplify_eq; guards.
  all: statements; transition Hk db id.
  all: eapply LExtract; [exact Hadv|done| |exact Hsays| |exact Hok|exact Hx|..]; simpl; try done.
  all: by right.
Qed.

Lemma result_refines db id v pid sha result violations accepted code now eid r' db' :
  keyed db →
  record_automation_extraction db id v pid sha result violations accepted code now eid
    = Ret (r', db') →
  ledger_step db db'.
Proof.
  intros Hk Hop. unfold record_automation_extraction in Hop. peel; simplify_eq; guards.
  statements.
  match goal with E : _ = (?next, ?failure, _) |- _ =>
    assert ((next = RExtracting ∧ failure ≠ None) ∨
            next = RProposing ∨ next = RManualReview ∨ next = RAmbiguous) as Hnext
      by (destruct accepted; [|destruct (_ =? 1)]; simplify_eq/=; guards;
          [by right | by left | by right; right; left]) end.
  transition Hk db id.
  eapply LExtract; [exact Hadv|done| |exact Hsays| |exact Hok|exact Hx|..]; simpl; try done.
  destruct Hnext as [[? ?]|Hnext]; [by right|left]. by edge.
Qed.

(** The attempts of a run follow one another: a new one is reserved only when the
    last is rejected, and numbered by its position. *)
Lemma reserve_new_refines db row rep n v sha ctx tz lim org stamp pid qid eid x db' :
  keyed db → db.(db_runs) !! rid row = Some row →
  row.(run_st) = RDetected ∨ row.(run_st) = RExtracting ∨ row.(run_st) = RSourceUnavailable →
  row.(run_version) = v →
  n = length (extractions_of db (rid row)) →
  (∀ y, list.last (extractions_of db (rid row)) = Some y → y.(ex_status) = XRejected) →
  reserve_new_attempt db row rep n v sha ctx tz lim org stamp pid qid eid = Ret (x, db') →
  ledger_step db db'.
Proof.
  intros Hk Hrow Hst Hv -> Hlast Hop. unfold reserve_new_attempt in Hop. peel. simplify_eq.
  statements. unfold rid in *. advance_from Hk Hrow.
  match type of Hok with extraction_row_ok ?x = _ =>
    eapply (LPrepare _ _ _ _ _ x); [exact Hadv|..]; done end.
Qed.

Lemma preparation_states db r :
  scheduling_preparation_available db r = true →
  r.(run_st) = RDetected ∨ r.(run_st) = RExtracting ∨ r.(run_st) = RSourceUnavailable.
Proof.
  unfold scheduling_preparation_available. intros H.
  apply orb_true_iff in H as [H|H]; [apply orb_true_iff in H as [H|H]|]; bools; eauto.
Qed.

Lemma reserve_refines db id v sha ctx tz lim org now pid qid eid x db' :
  keyed db →
  reserve_automation_extraction db id v sha ctx tz lim org now pid qid eid = Ret (x, db') →
  db' = db ∨ ledger_step db db'.
Proof.
  intros Hk Hop. unfold reserve_automation_extraction in Hop.
  peel; simplify_eq; guards; [by left| |].
  all: match goal with Hk : keyed ?db, H : db_runs ?db !! _ = Some _ |- _ =>
         pose proof (Hk _ _ H) as <- end.
  all: match goal with H : scheduling_preparation_available _ _ = true |- _ =>
         apply preparation_states in H end.
  all: right; eapply reserve_new_refines; [done| |eassumption|done|reflexivity| |eassumption]; [done|].
  all: unfold rid; congruence.
Qed.

Lemma insert_run_inv db r db' b :
  insert_run db r = Ret (db', b) →
  run_row_ok r = true ∧
  if b then db.(db_runs) !! rid r = None ∧ db' = set_runs db (<[rid r := r]> db.(db_runs)) ∧
            (∀ id o, db.(db_runs) !! id = Some o → run_unique o ≠ run_unique r)
  else db' = db.
Proof.
  unfold insert_run. intros H. peel; simplify_eq; split; try done. split_and!; [done..|].
  intros id o Ho Heq.
  match goal with H : runs_with_unique _ _ = [] |- _ => rename H into Hnone end.
  assert (In (id, o) (runs_with_unique db r)) as Hin.
  { apply filter_In. split; [|by apply bool_decide_eq_true_2].
    by apply list_elem_of_In, elem_of_map_to_list. }
  by rewrite Hnone in Hin.
Qed.

Lemma admit_refines db prov acct principal pmid mid created expires rid_ eid db' :
  admit_scheduling_automation db prov acct principal pmid mid created expires rid_ eid = Ret db' →
  db' = db ∨ ledger_step db db'.
Proof.
  intros Hop. unfold admit_scheduling_automation in Hop. peel; simplify_eq; guards; subst.
  all: match goal with H : insert_run _ _ = Ret _ |- _ => apply insert_run_inv in H as [Hok Hrun] end.
  - by left.
  - right. destruct Hrun as (Hnone & -> & _).
    match goal with H : append_automation_event _ _ _ _ _ _ _ _ _ _ _ _ _ _ _ = Ret _ |- _ =>
      apply insert_event_inv in H as (Hev & Hnew & ->) end.
    match type of Hok with run_row_ok ?r = _ =>
      match type of Hev with event_row_ok ?e = _ => eapply (LAdmit _ _ r e) end end;
      simpl in *; try done.
    + unfold rid; simpl. by destruct (db_identities db !! rid_).
    + intros o Ho. by apply Hnew.
Qed.

Lemma cancellable_edge st cause :
  negb (calendar_pending st || bool_decide (st = RWriteAuthorized)) &&
  negb (bool_decide (cause = CauseThreadUnfollowed) && calendar_review st) = false →
  run_edge st RSourceUnavailable = true.
Proof. destruct st; simpl; try done; by rewrite andb_false_r. Qed.

(** The runs and admissions of the two databases are the same ones. *)
Definition same_keys (db db' : Db) : Prop := ∀ id,
  run_key <$> db'.(db_runs) !! id = run_key <$> db.(db_runs) !! id ∧
  wr_transaction_id <$> db'.(db_writes) !! id = wr_transaction_id <$> db.(db_writes) !! id.

Lemma same_keys_keyed db db' : same_keys db db' → keyed db → keyed db'.
Proof.
  intros Hs Hk id r Hr. destruct (Hs id) as [H _]. rewrite Hr in H. simpl in H.
  destruct (db_runs db !! id) as [r0|] eqn:E; [|done]. simplify_eq/=.
  rewrite H. by apply Hk.
Qed.

Lemma advance_same_keys db db' r r' e :
  advance db db' r r' e →
  (∀ id, wr_transaction_id <$> db'.(db_writes) !! id =
         wr_transaction_id <$> db.(db_writes) !! id) →
  same_keys db db'.
Proof.
  intros Ha Hw id. split; [|done]. rewrite (adv_runs _ _ _ _ _ Ha).
  destruct (decide (id = r.(run_key).(rk_run_id))) as [->|].
  - rewrite lookup_insert_eq, (adv_found _ _ _ _ _ Ha). simpl. by rewrite (adv_key _ _ _ _ _ Ha).
  - by rewrite lookup_insert_ne.
Qed.

Lemma insert_same_txn (m : gmap text AutomationCalendarWrite) id w w' :
  m !! id = Some w → w'.(wr_transaction_id) = w.(wr_transaction_id) →
  ∀ i, wr_transaction_id <$> <[id := w']> m !! i = wr_transaction_id <$> m !! i.
Proof.
  intros Hm Hw i. destruct (decide (i = id)) as [->|].
  - rewrite lookup_insert_eq, Hm. simpl. by rewrite Hw.
  - by rewrite lookup_insert_ne.
Qed.

Lemma cancel_refines db row r txn at_ cause eid db' b :
  keyed db → db.(db_runs) !! rid row = Some r → r.(run_key) = row.(run_key) →
  txn = wr_transaction_id <$> db.(db_writes) !! rid row →
  cancel_automation_source db row txn at_ cause eid = Ret (db', b) →
  ledger_step db db' ∧ same_keys db db'.
Proof.
  intros Hk Hrow Hkey -> Hop. unfold cancel_automation_source in Hop. unfold rid in *.
  destruct (negb _ && negb _) eqn:Hedge; [peel; simplify_eq; split; [by eapply LDrop|done]|].
  apply cancellable_edge in Hedge.
  peel; simplify_eq; statements.
  all: match goal with H : update_run _ _ _ _ = Ret (_, true) |- _ =>
         pose proof (update_run_true _ _ _ _ _ H) as (r0 & Hr0 & Hg & _ & _) end.
  all: apply at_state_true in Hg as [Hs Hv]; simpl in Hr0; rewrite <- Hkey in *.
  all: simplify_eq; rewrite <- Hs, <- Hv in *.
  all: advance_from Hk Hrow; split.
  - eapply LCancel; [exact Hadv|..|exact Hsays|exact Hx|exact Hp]; [done| |congruence].
    intros _. do 2 eexists. split_and!; try exact Hok; try exact Hw; try done.
    unfold rid. simpl in Hwr. by rewrite Hwr.
  - eapply advance_same_keys; [exact Hadv|]. rewrite Hw. simpl in *. by eapply insert_same_txn.
  - eapply LCancel; [exact Hadv|..|exact Hsays|exact Hx|exact Hp]; [done|congruence|done].
  - eapply advance_same_keys; [exact Hadv|]. by rewrite Hw.
Qed.

(** Rows selected for cancellation, with the transaction id of their write. *)
Definition bound_rows (db : Db) (rows : list (AutomationRun * option text)) : Prop :=
  Forall (fun '(row, txn) => ∃ r, db.(db_runs) !! rid row = Some r ∧
    r.(run_key) = row.(run_key) ∧
    txn = wr_transaction_id <$> db.(db_writes) !! rid row) rows.

Lemma same_keys_bound db db' rows : same_keys db db' → bound_rows db rows → bound_rows db' rows.
Proof.
  intros Hs Hb. eapply list.Forall_impl; [exact Hb|]. intros [row txn] (r & Hr & Hkey & ->).
  destruct (Hs (rid row)) as [H1 H2]. rewrite Hr in H1. simpl in H1.
  destruct (db_runs db' !! rid row) as [r'|]; [|done]. simplify_eq/=. eexists.
  split_and!; [done|congruence|done].
Qed.

Lemma runs_bound_to_bound db ids : keyed db → bound_rows db (runs_bound_to db ids).
Proof.
  intros Hk. unfold bound_rows, runs_bound_to. rewrite Forall_fmap, list.Forall_forall.
  intros row Hrow. exists row. simpl. split_and!; try done.
  assert (∀ l r, r ∈ sort_runs l → r ∈ l) as Hsort.
  { clear. intros l. induction l as [|x l IH]; simpl; intros r Hr; [done|].
    assert (∀ l', r ∈ insert_run_by_id x l' → r = x ∨ r ∈ l') as Hins.
    { clear. induction l' as [|y l' IH]; simpl; [set_solver|]. case_match; set_solver. }
    apply Hins in Hr as [->|Hr]; set_solver. }
  apply Hsort in Hrow. rewrite list_elem_of_In, in_flat_map in Hrow.
  destruct Hrow as (r & Hr & Hin). apply in_map_iff in Hin as (? & <- & _).
  apply list_elem_of_In, list_elem_of_fmap in Hr as ([id r'] & -> & Hr).
  apply elem_of_map_to_list in Hr. simpl. by rewrite <- (Hk _ _ Hr) in Hr.
Qed.

Lemma cancel_each_refines rows : ∀ db eids at_ cause n db' n' eids',
  keyed db → bound_rows db rows →
  cancel_each db rows eids at_ cause n = Ret (db', n', eids') →
  rtc ledger_step db db' ∧ keyed db'.
Proof.
  induction rows as [|[row txn] rows IH]; intros db eids at_ cause n db' n' eids' Hk Hb Hop.
  - destruct eids; simpl in Hop; simplify_eq; split; (reflexivity || done).
  - destruct eids as [|eid eids]; [done|]. simpl in Hop. peel.
    apply list.Forall_cons in Hb as [(r & Hr & Hkey & Htxn) Hb].
    edestruct cancel_refines as [Hstep Hs]; [done|exact Hr|done|exact Htxn|eassumption|].
    edestruct IH as [Hsteps Hk']; [..|exact Hop|].
    + by eapply same_keys_keyed.
    + by eapply same_keys_bound.
    + split; [by eapply rtc_l|done].
Qed.

Lemma mark_unavailable_refines db ids eids at_ cause db' n :
  keyed db →
  mark_automation_sources_unavailable db ids eids at_ cause = Ret (db', n) →
  rtc ledger_step db db'.
Proof.
  unfold mark_automation_sources_unavailable. generalize (length ids) as fuel, 0%nat as k.
  intros fuel. revert db ids eids.
  induction fuel as [|fuel IH]; intros db ids eids k Hk Hop; simpl in Hop;
    [by simplify_eq|].
  destruct ids as [|i ids]; [by simplify_eq|]. peel.
  edestruct cancel_each_refines as [Hsteps Hk']; [exact Hk|by apply runs_bound_to_bound|eassumption|].
  etrans; [exact Hsteps|]. by eapply IH.
Qed.

Lemma proposal_refines `{Unicode} `{AddressLib} `{Zones} db id v xid req subj att start end_ tz
    why empty obs pid eid r' db' :
  keyed db →
  record_automation_proposal db id v xid req subj att start end_ tz why empty obs pid eid
    = Ret (r', db') →
  ledger_step db db'.
Proof.
  intros Hk Hop. unfold record_automation_proposal in Hop.
  apply bind_ret_inv in Hop as (valid & _ & Hop). lazy zeta in Hop.
  peel_in Hop. peel_in Hop. peel_in Hop. peel_in Hop. peel_in Hop. 
  apply bind_ret_inv in Hop as (expires & _ & Hop).
  destruct (vp_accepted valid) eqn:Hacc; peel; simplify_eq; guards; statements;
    transition Hk db id.
  all: match type of Hok with proposal_row_ok ?p = _ =>
         eapply (LPropose _ _ _ _ _ p); [exact Hadv|..|exact Hnew|exact Hp|exact Hx|exact Hw] end;
       simpl; rewrite ?Hacc; (exact Hsays || done).
Qed.

Lemma acknowledge_refines db id v stamp b db' :
  keyed db → acknowledge_automation_review db id v stamp = Ret (b, db') →
  db' = db ∨ ledger_step db db'.
Proof.
  intros Hk Hop. unfold acknowledge_automation_review in Hop. peel; simplify_eq; [by left|].
  match goal with H : update_run _ _ _ _ = Ret _ |- _ =>
    apply update_run_true in H as (r & Hr & _ & Hok & ->) end.
  pose proof (Hk _ _ Hr) as <-. right. by eapply LNotified.
Qed.

Lemma write_transition_states s s' :
  write_transition_allowed s s' = true →
  run_edge s s' = true ∧ is_Some (write_status_of s).
Proof. by destruct s, s'. Qed.

Lemma transition_write_refines db id v next failure gid now eid r' db' :
  keyed db →
  transition_automation_calendar_write db id v next failure gid now eid = Ret (r', db') →
  ledger_step db db'.
Proof.
  intros Hk Hop. unfold transition_automation_calendar_write in Hop. peel; simplify_eq; guards.
  match goal with H : write_transition_allowed _ _ = true |- _ =>
    apply write_transition_states in H as [Hedge Hsome'] end.
  statements. transition Hk db id.
  match type of Hok with write_row_ok ?w' = _ =>
    eapply (LWrite _ _ _ _ _ w w'); [exact Hadv|done|done|eassumption|..|exact Hw|done|done] end;
    simplify_eq; done.
Qed.

Lemma cancelled_admission_result db row v sha pv res :
  cancelled_calendar_admission db row v sha pv = Ret (Some res) →
  ∃ e, cancellation_event db (rid row) v sha = Some e ∧
    res = CancelledResult (cancelled_run row e)
            (calendar_write_outcome (rid row) e.(ev_state_version) e.(ev_transaction_id)
               WCancelled e.(ev_failure_code) None).
Proof.
  unfold cancelled_calendar_admission, rid. intros H. peel; simplify_eq. eauto.
Qed.

Lemma submit_refines db row w v stamp eid res db' :
  keyed db → db.(db_runs) !! rid row = Some row → db.(db_writes) !! rid row = Some w →
  row.(run_st) = RWriteAuthorized → row.(run_version) = v →
  submit_write db row w v stamp eid = Ret (res, db') →
  ledger_step db db'.
Proof.
  unfold rid. intros Hk Hrow Hwrite Hst Hv Hop. unfold submit_write in Hop. peel; simplify_eq.
  statements. advance_from Hk Hrow. simplify_eq.
  match type of Hok with write_row_ok ?w' = _ =>
    eapply (LWrite _ _ _ _ _ w w'); [exact Hadv|done| | | |reflexivity|exact Hok|exact Hsays|exact Hw|..] end;
    try done. rewrite Hst. by eexists.
Qed.

Lemma begin_refines db id v now eid res db' :
  keyed db → begin_automation_calendar_write db id v now eid = Ret (res, db') →
  db' = db ∨ ledger_step db db'.
Proof.
  intros Hk Hop. unfold begin_automation_calendar_write in Hop.
  peel; simplify_eq; guards; [by left|right..].
  all: match goal with Hk : keyed ?db, H : db_runs ?db !! _ = Some _ |- _ =>
         pose proof (Hk _ _ H) as <- end.
  - by eapply submit_refines.
  - eapply cancel_refines; [done|eassumption|done| |eassumption].
    match goal with H : db_writes _ !! _ = Some _ |- _ => unfold rid; by rewrite H end.
Qed.

(** The two outcomes of a confirmation. *)
Lemma confirm_effect_inv `{Zones} db row p existing pv sha wa stamp txn eff db1 :
  confirm_effect db row p existing pv sha wa stamp txn = Ret (eff, db1) →
  existing = db.(db_writes) !! rid row →
  ∃ start end_ tz expires start_at expires_at,
    p.(pr_start) = Some start ∧ p.(pr_end) = Some end_ ∧ p.(pr_timezone) = Some tz ∧
    p.(pr_expires_at) = Some expires ∧
    (d ← fromisoformat start; py_option (to_utc d)) = Some start_at ∧
    (d ← fromisoformat expires; py_option (to_utc d)) = Some expires_at ∧
    ((eff.(de_next_state) = RProposing ∧ eff.(de_failure_code) = Some (str "proposal_expired") ∧
      eff.(de_transaction_id) = None ∧ eff.(de_event_decision) = None ∧ db1 = db ∧
      (run_live row stamp = false ∨ expires_at <= stamp ∨ start_at <= stamp))
     ∨
     (eff = {| de_next_state := RWriteAuthorized; de_failure_code := None;
               de_transaction_id := Some txn; de_event_decision := Some DConfirmed;
               de_payload_id := p.(pr_payload_id); de_payload_sha256 := sha |} ∧
      run_live row stamp = true ∧ stamp < expires_at ∧ stamp < start_at ∧ wa = true ∧
      (∀ w0, db.(db_writes) !! rid row = Some w0 → w0.(wr_status) = WCancelled) ∧
      (∀ id o, id ≠ rid row → db.(db_writes) !! id = Some o → o.(wr_transaction_id) ≠ txn) ∧
      ∃ w, w = authorized_write row txn pv sha start end_ tz (isoformat (utc stamp)) ∧
           write_row_ok w = true ∧
           db1 = set_writes db (<[rid row := w]> db.(db_writes)))).
Proof.
  unfold confirm_effect, rid. intros Hop ->. peel; simplify_eq; statements; simpl in *.
  all: do 6 eexists; split_and!; try eassumption.
  - left. repeat match goal with H : (_ || _) = true |- _ => apply orb_true_iff in H as [H|H] end;
      bools; split_and!; try done; [by left|right; left; lia|right; right; lia].
  - right. bools. split_and!; try done; try lia; [by intros ? [= <-]| |].
    + intros i o Hi Ho. apply (Hnew i). by rewrite lookup_delete_ne.
    + eexists. split_and!; [done|done|]. by rewrite insert_delete_eq.
  - right. bools. split_and!; try done; try lia.
    + intros i o Hi Ho. by apply (Hnew i).
    + eexists. by split_and!.
Qed.

Lemma find_some_elem {A} (f : A → bool) l x : List.find f l = Some x → x ∈ l ∧ f x = true.
Proof. intros Hf. apply find_some in Hf as [? ?]. by rewrite list_elem_of_In. Qed.

Lemma decide_current_refines `{Zones} db row v pv sha confirm wa stamp txn eid res db' :
  keyed db → db.(db_runs) !! rid row = Some row →
  (∀ o, o ∈ db.(db_events) → o.(ev_transaction_id) ≠ Some txn) →
  decide_current db row v pv sha confirm wa stamp txn eid = Ret (res, db') →
  db' = db ∨ ledger_step db db'.
Proof.
  unfold rid. intros Hk Hrow Hfresh Hop. unfold decide_current in Hop. peel_in Hop.
  apply find_some_elem in Hsome as [Hin Hid]. lazy zeta in Hop.
  apply bind_ret_inv in Hop as (replay & Hreplay & Hop). destruct replay;
    [clear Hreplay; peel; simplify_eq; by left|clear Hreplay].
  right. peel_in Hop. guards. destruct confirm.
  - apply bind_ret_inv in Hop as ([eff db1] & Heff & Hop).
    apply confirm_effect_inv in Heff as
      (start & end_ & tz & expires & start_at & expires_at & Hst & He & Ht & Hx & _ & _ & [Hlapse|Hok]);
      [| |done].
    + destruct Hlapse as (Hn & Hf & Htx & Hd & -> & _).
      unfold commit_decision in Hop. rewrite Hn, Htx, Hd in Hop. peel; simplify_eq. advance_from Hk Hrow.
      eapply LLapse; [exact Hadv|done|by right|exact Hsays|done..].
    + destruct Hok as (-> & _ & _ & _ & _ & Hold & Huniq & w & -> & Hrowok & ->).
      unfold commit_decision in Hop. peel; simplify_eq. advance_from Hk Hrow.
      match type of Hrowok with write_row_ok ?w = _ =>
        eapply (LConfirm _ _ _ _ _ a w); [exact Hadv|..] end; try done.
  - peel_in Hop. unfold commit_decision in Hop. peel; simplify_eq. advance_from Hk Hrow.
    eapply LLapse; [exact Hadv|done|by left|exact Hsays|done..].
Qed.

Lemma decide_refines `{Zones} db id v pv sha decision wa now txn eid res db' :
  keyed db →
  (∀ o, o ∈ db.(db_events) → o.(ev_transaction_id) ≠ Some txn) →
  decide_automation_proposal db id v pv sha decision wa now txn eid = Ret (res, db') →
  db' = db ∨ ledger_step db db'.
Proof.
  intros Hk Hfresh Hop. unfold decide_automation_proposal in Hop. peel; simplify_eq; try by left.
  all: match goal with Hk : keyed ?db, H : db_runs ?db !! _ = Some _ |- _ =>
         pose proof (Hk _ _ H) as <- end.
  all: by eapply decide_current_refines.
Qed.
