(* ===== verification/AutomationInvariant.v ===== *)
(** * The event log of the automation runs

    Every run's events form one unbroken chain that ends in the run's current
    state: the [i]-th event has sequence number [i] and version [i + 1] and starts
    where the one before ended.  Every ledger step keeps this. *)

From S2P Require Export AutomationRefine.
From stdpp Require Import options.

Local Open Scope Z_scope.

Record log_ok (r : AutomationRun) (es : list AutomationEvent) : Prop := {
  log_length : Z.of_nat (length es) = r.(run_version);
  log_last : ev_next_state <$> list.last es = Some r.(run_st);
  log_entry : ∀ i e, es !! i = Some e →
    e.(ev_sequence_no) = Z.of_nat i ∧ e.(ev_state_version) = Z.of_nat i + 1 ∧
    e.(ev_previous_state) = match i with O => None | S j => ev_next_state <$> es !! j end ∧
    match e.(ev_previous_state) with
    | None => e.(ev_next_state) = RDetected
    | Some s => run_edge s e.(ev_next_state) = true
    end }.

Record LogInv (db : Db) : Prop := {
  inv_keyed : keyed db;
  inv_rows : ∀ id r, db.(db_runs) !! id = Some r → run_row_ok r = true;
  inv_identity : ∀ id r, db.(db_runs) !! id = Some r → is_Some (db.(db_identities) !! id);
  inv_log : ∀ id r, db.(db_runs) !! id = Some r → log_ok r (events_of db id);
  inv_orphan : ∀ e, e ∈ db.(db_events) → is_Some (db.(db_runs) !! e.(ev_run_id));
  inv_event_ids : NoDup (ev_event_id <$> db.(db_events)) }.

(** ** Reading the log *)

Lemma events_of_app db l id :
  events_of (set_events db (db.(db_events) ++ l)%list) id =
  (events_of db id ++ List.filter (fun e => bool_decide (e.(ev_run_id) = id)) l)%list.
Proof. unfold events_of. simpl. by rewrite List.filter_app. Qed.

Lemma events_of_same db db' id :
  db'.(db_events) = db.(db_events) → events_of db' id = events_of db id.
Proof. unfold events_of. by intros ->. Qed.

Lemma events_of_snoc db db' e id :
  db'.(db_events) = (db.(db_events) ++ [e])%list →
  events_of db' id =
    if decide (e.(ev_run_id) = id) then (events_of db id ++ [e])%list else events_of db id.
Proof.
  intros H. unfold events_of. rewrite H, List.filter_app. simpl.
  case_decide; simpl; [by rewrite bool_decide_eq_true_2|].
  by rewrite bool_decide_eq_false_2, app_nil_r.
Qed.

Lemma elem_of_events_of db id e : e ∈ events_of db id ↔ e ∈ db.(db_events) ∧ e.(ev_run_id) = id.
Proof.
  unfold events_of. rewrite !list_elem_of_In, filter_In, bool_decide_eq_true. done.
Qed.

Lemma last_snoc_entry {A} (l : list A) x : list.last (l ++ [x]) = Some x.
Proof. by rewrite last_snoc. Qed.

(** A run's log grows by the event of its next transition. *)
Lemma log_ok_snoc r r' es e :
  log_ok r es → event_for r r' e → r'.(run_version) = r.(run_version) + 1 →
  run_edge r.(run_st) r'.(run_st) = true → log_ok r' (es ++ [e]).
Proof.
  intros [Hlen Hlast Hent] He Hv Hedge. constructor.
  - rewrite length_app. simpl. lia.
  - rewrite last_snoc_entry. simpl. by rewrite (ef_next _ _ _ He).
  - intros i x Hx. rewrite lookup_app in Hx. destruct (es !! i) as [y|] eqn:Ei.
    + simplify_eq. destruct (Hent _ _ Ei) as (? & ? & Hp & Hm). split_and!; try done.
      destruct i as [|j]; [done|]. rewrite Hp, lookup_app_l; [done|].
      apply lookup_lt_Some in Ei. lia.
    + apply lookup_ge_None in Ei. destruct (i - length es)%nat eqn:Ed; [|by destruct n].
      simplify_eq/=. assert (i = length es) as -> by lia.
      rewrite (ef_sequence _ _ _ He), (ef_version _ _ _ He), (ef_previous _ _ _ He).
      split_and!; [lia|lia| |by rewrite (ef_next _ _ _ He)].
      rewrite last_lookup in Hlast.
      destruct (length es) as [|j] eqn:El; simpl in *.
      * destruct es; [done|by simpl in El].
      * rewrite lookup_app_l by lia. by rewrite Hlast.
Qed.

(** What each ledger step does to runs and events. *)
Lemma ledger_step_log db db' :
  ledger_step db db' →
  (∃ r e identity, db.(db_runs) !! rid r = None ∧ db.(db_identities) !! rid r = None ∧
     db'.(db_runs) = <[rid r := r]> db.(db_runs) ∧
     db'.(db_identities) = <[rid r := identity]> db.(db_identities) ∧
     db'.(db_events) = (db.(db_events) ++ [e])%list ∧
     run_row_ok r = true ∧ log_ok r [e] ∧ e.(ev_run_id) = rid r ∧
     e.(ev_decision) = None ∧ e.(ev_transaction_id) = None ∧
     (∀ o, o ∈ db.(db_events) → o.(ev_event_id) ≠ e.(ev_event_id)))
  ∨ (∃ r r' e, advance db db' r r' e)
  ∨ (db'.(db_events) = db.(db_events) ∧ db'.(db_identities) = db.(db_identities) ∧
     (db'.(db_runs) = db.(db_runs) ∨
      ∃ r r', db.(db_runs) !! rid r = Some r ∧ db'.(db_runs) = <[rid r := r']> db.(db_runs) ∧
        run_row_ok r' = true ∧ r'.(run_key) = r.(run_key) ∧ r'.(run_st) = r.(run_st) ∧
        r'.(run_version) = r.(run_version) ∧
        r'.(run_current_payload_id) = r.(run_current_payload_id)))
  ∨ (∃ now, db' = purge_expired_automation_tombstones db now).
Proof.
  intros Hs. destruct Hs; subst; eauto 10.
  - left. exists r, e, identity. split_and!; try done. constructor; simpl; [lia|congruence|].
    intros [|i] x Hx; [|done]. simplify_eq/=.
    match goal with H : ev_previous_state _ = None |- _ => rewrite H end.
    split_and!; (done || lia).
  - right; right; left. split_and!; [done..|]. right. do 2 eexists. by split_and!.
Qed.

(** ** Purging *)

Definition purged (db : Db) (now id : text) : Prop :=
  ∃ r, db.(db_runs) !! id = Some r ∧ tombstone_expired now r = true.

Lemma purged_spec db now id :
  id ∈ (List.filter (fun kv : text * AutomationRun => tombstone_expired now kv.2)
          (map_to_list db.(db_runs))).*1 ↔ purged db now id.
Proof.
  rewrite list_elem_of_fmap. split.
  - intros ([i r] & -> & Hin). rewrite list_elem_of_In, filter_In in Hin.
    destruct Hin as [Hin Ht]. rewrite <- list_elem_of_In, elem_of_map_to_list in Hin. by exists r.
  - intros (r & Hr & Ht). exists (id, r). split; [done|].
    rewrite list_elem_of_In, filter_In. split; [|done].
    by apply list_elem_of_In, elem_of_map_to_list.
Qed.

Global Instance purged_dec db now id : Decision (purged db now id).
Proof.
  destruct (decide (id ∈ (List.filter (fun kv : text * AutomationRun => tombstone_expired now kv.2)
    (map_to_list db.(db_runs))).*1)) as [Hin|Hn]; [left|right]; by rewrite <- purged_spec.
Defined.

Lemma map_filter_gone {V} (m : gmap text V) (l : list text) id :
  filter (fun kv : text * V => bool_decide (kv.1 ∈ l) = false) m !! id =
  if decide (id ∈ l) then None else m !! id.
Proof.
  rewrite map_lookup_filter. destruct (m !! id) as [v|] eqn:E; simpl; [|by case_decide].
  case_guard as Hg; case_decide as Hd; simpl; try done.
Qed.

Lemma decide_purged {A} db now id (x y : A) :
  (if decide (id ∈ (List.filter (fun kv : text * AutomationRun => tombstone_expired now kv.2)
      (map_to_list db.(db_runs))).*1) then x else y) =
  (if decide (purged db now id) then x else y).
Proof.
  destruct (decide (purged db now id)) as [Hp|Hp]; rewrite <- purged_spec in Hp.
  - by rewrite decide_True.
  - by rewrite decide_False.
Qed.

Lemma purge_runs db now id :
  (purge_expired_automation_tombstones db now).(db_runs) !! id =
  if decide (purged db now id) then None else db.(db_runs) !! id.
Proof. simpl. rewrite map_filter_gone. apply decide_purged. Qed.

Lemma purge_writes db now id :
  (purge_expired_automation_tombstones db now).(db_writes) !! id =
  if decide (purged db now id) then None else db.(db_writes) !! id.
Proof. simpl. rewrite map_filter_gone. apply decide_purged. Qed.

(** Rows of a list table that survive: those of unpurged runs, in order. *)
Lemma filter_gone {A} (key : A → text) (l : list A) (gone : list text) id :
  List.filter (fun x => bool_decide (key x = id))
    (List.filter (fun x => negb (bool_decide (key x ∈ gone))) l) =
  if decide (id ∈ gone) then [] else List.filter (fun x => bool_decide (key x = id)) l.
Proof.
  induction l as [|x l IH]; simpl; [by case_decide|].
  destruct (decide (key x = id)) as [<-|Hne].
  - rewrite (bool_decide_eq_true_2 (key x = key x)) by done.
    destruct (bool_decide (key x ∈ gone)) eqn:Eg; bools; simpl.
    + rewrite IH. by rewrite !decide_True by done.
    + rewrite (bool_decide_eq_true_2 (key x = key x)) by done. rewrite IH.
      by rewrite !decide_False by done.
  - rewrite (bool_decide_eq_false_2 (key x = id)) by done.
    destruct (bool_decide (key x ∈ gone)); simpl; [done|].
    by rewrite (bool_decide_eq_false_2 (key x = id)) by done.
Qed.

Lemma purge_events_of db now id :
  events_of (purge_expired_automation_tombstones db now) id =
  if decide (purged db now id) then [] else events_of db id.
Proof. unfold events_of. simpl. rewrite filter_gone. apply decide_purged. Qed.

Lemma elem_of_filter_gone {A} (key : A → text) (l : list A) (gone : list text) x :
  x ∈ List.filter (fun x => negb (bool_decide (key x ∈ gone))) l ↔ x ∈ l ∧ key x ∉ gone.
Proof. rewrite list_elem_of_In, filter_In, <- list_elem_of_In, negb_true_iff, bool_decide_eq_false. done. Qed.

Lemma purge_events db now e :
  e ∈ (purge_expired_automation_tombstones db now).(db_events) ↔
  e ∈ db.(db_events) ∧ ¬ purged db now e.(ev_run_id).
Proof. simpl. by rewrite elem_of_filter_gone, purged_spec. Qed.

Lemma sublist_filter {A} (f : A → bool) (l : list A) : List.filter f l `sublist_of` l.
Proof. induction l; simpl; [done|]. case_match; by constructor. Qed.

(** ** Preservation *)

Lemma advance_log_inv db db' r r' e : advance db db' r r' e → LogInv db → LogInv db'.
Proof.
  intros Ha [Hk Hrows Hi Hlog Ho Hid].
  pose proof (adv_found _ _ _ _ _ Ha) as Hr. pose proof (adv_event _ _ _ _ _ Ha) as He.
  constructor; rewrite ?(adv_runs _ _ _ _ _ Ha), ?(adv_identities _ _ _ _ _ Ha).
  - intros id x. rewrite (adv_runs _ _ _ _ _ Ha), lookup_insert_Some.
    intros [[<- <-]|[? ?]]; [by rewrite (adv_key _ _ _ _ _ Ha)|by apply Hk].
  - intros id x. rewrite lookup_insert_Some. intros [[<- <-]|[? ?]]; [apply Ha|by eapply Hrows].
  - intros id x. rewrite lookup_insert_Some. intros [[<- <-]|[? ?]]; by eapply Hi.
  - intros id x. rewrite lookup_insert_Some, (events_of_snoc db db' e) by apply Ha.
    rewrite (ef_run_id _ _ _ He). intros [[<- <-]|[Hne Hx]].
    + rewrite decide_True by done. by eapply log_ok_snoc; [by apply Hlog|done|apply Ha..].
    + rewrite decide_False by done. by apply Hlog.
  - intros o. rewrite (adv_events _ _ _ _ _ Ha), elem_of_app, list_elem_of_singleton, lookup_insert_is_Some.
    intros [Hin| ->]; [|left; by rewrite (ef_run_id _ _ _ He)].
    destruct (decide (r.(run_key).(rk_run_id) = o.(ev_run_id))); [by left|right; eauto].
  - rewrite (adv_events _ _ _ _ _ Ha). apply nodup_fmap_snoc; [done|apply Ha].
Qed.

Lemma purge_log_inv db now : LogInv db → LogInv (purge_expired_automation_tombstones db now).
Proof.
  intros [Hk Hrows Hi Hlog Ho Hid]. constructor.
  - intros id r. rewrite purge_runs. case_decide; [done|]. apply Hk.
  - intros id r. rewrite purge_runs. case_decide; [done|]. apply Hrows.
  - intros id r. rewrite purge_runs. case_decide; [done|]. apply Hi.
  - intros id r. rewrite purge_runs, purge_events_of. case_decide; [done|]. apply Hlog.
  - intros e. rewrite purge_events, purge_runs. intros [He Hn]. rewrite decide_False by done. auto.
  - eapply sublist_NoDup; [done|apply fmap_sublist, sublist_filter].
Qed.

Lemma events_of_absent db id : LogInv db → db.(db_runs) !! id = None → events_of db id = [].
Proof.
  intros HL Hn. destruct (events_of db id) as [|x l] eqn:E; [done|].
  assert (x ∈ events_of db id) as Hx by (rewrite E; by left).
  apply elem_of_events_of in Hx as [Hx <-]. destruct (inv_orphan _ HL _ Hx). congruence.
Qed.

Lemma ledger_step_log_inv db db' : ledger_step db db' → LogInv db → LogInv db'.
Proof.
  intros Hs HI. destruct (ledger_step_log _ _ Hs) as
    [(r & e & i & Hr & Hi & HR & HI' & HE & Hok & Hl & He & _ & _ & Hnew)
    |[(r & r' & e & Ha)|[(HE & HI' & HR)|(now & ->)]]].
  - destruct HI as [Hk Hrows Hids Hlog Ho Hid].
    assert (events_of db (rid r) = []) as Hnil by (apply events_of_absent; [by constructor|done]).
    constructor; rewrite ?HI'.
    + intros id x. rewrite HR, lookup_insert_Some. intros [[<- <-]|[? ?]]; [done|by apply Hk].
    + intros id x. rewrite HR, lookup_insert_Some. intros [[<- <-]|[? ?]]; [done|by eapply Hrows].
    + intros id x. rewrite HR, lookup_insert_Some, lookup_insert_is_Some.
      intros [[<- <-]|[? ?]]; [by left|right; eauto].
    + intros id x. rewrite HR, lookup_insert_Some, (events_of_snoc _ _ _ _ HE), He.
      intros [[<- <-]|[? ?]].
      * by rewrite decide_True, Hnil.
      * rewrite decide_False by done. by apply Hlog.
    + intros o. rewrite HE, elem_of_app, list_elem_of_singleton, HR, lookup_insert_is_Some.
      intros [Hin| ->]; [|left; done].
      destruct (decide (rid r = o.(ev_run_id))); [by left|right; eauto].
    + rewrite HE. by apply nodup_fmap_snoc.
  - by eapply advance_log_inv.
  - destruct HI as [Hk Hrows Hids Hlog Ho Hid].
    destruct HR as [HR|(r & r' & Hr & HR & Hok & Hkey & Hst & Hv & _)];
      constructor; unfold keyed; rewrite ?HE, ?HI', ?HR; try done.
    + intros id x. rewrite (events_of_same _ _ _ HE). apply Hlog.
    + intros id x. rewrite lookup_insert_Some. intros [[<- <-]|[? ?]]; [|by apply Hk].
      by rewrite Hkey.
    + intros id x. rewrite lookup_insert_Some. intros [[<- <-]|[? ?]]; [done|by eapply Hrows].
    + intros id x. rewrite lookup_insert_Some. intros [[<- <-]|[? ?]]; by eapply Hids.
    + intros id x. rewrite lookup_insert_Some, (events_of_same _ _ _ HE).
      intros [[<- <-]|[? ?]]; [|by apply Hlog].
      destruct (Hlog _ _ Hr) as [H1 H2 H3]. constructor; [lia|congruence|done].
    + intros e He. rewrite lookup_insert_is_Some.
      destruct (decide (rid r = e.(ev_run_id))); [by left|right; eauto].
  - by apply purge_log_inv.
Qed.

(** * The invariant of the automation tables

    Beside the event log ([AutomationLog]): the extraction attempts of a run are
    numbered 1, 2 and only the last can be open or accepted; the calendar write
    of a run agrees with the run's state and carries a logged consent; proposal
    versions never outrun the logged generations.  Every ledger step keeps the
    invariant, so every reachable store has it. *)

(** ** Rows of one run in a list table *)

Section Rows.
Context {A : Type} (key : A → text).

Definition rows (l : list A) (id : text) : list A :=
  List.filter (fun x => bool_decide (key x = id)) l.

Lemma elem_of_rows l id x : x ∈ rows l id ↔ x ∈ l ∧ key x = id.
Proof. unfold rows. by rewrite list_elem_of_In, filter_In, <- list_elem_of_In, bool_decide_eq_true. Qed.

Lemma rows_snoc l x id :
  rows (l ++ [x]) id = if decide (key x = id) then (rows l id ++ [x])%list else rows l id.
Proof.
  unfold rows. rewrite List.filter_app. simpl. case_decide.
  - by rewrite bool_decide_eq_true_2.
  - by rewrite bool_decide_eq_false_2, app_nil_r.
Qed.

Lemma rows_map (f : A → A) l id : (∀ x, key (f x) = key x) →
  rows (f <$> l) id = f <$> rows l id.
Proof.
  intros Hf. unfold rows. induction l as [|x l IH]; csimpl; [done|].
  rewrite Hf. case_bool_decide; csimpl; by rewrite IH.
Qed.

Lemma rows_drop l id id' :
  rows (List.filter (fun x => negb (bool_decide (key x = id))) l) id' =
  if decide (id' = id) then [] else rows l id'.
Proof.
  unfold rows. induction l as [|x l IH]; simpl; [by case_decide|].
  case_decide as Hid; case_bool_decide as Hx; simpl.
  - done.
  - rewrite bool_decide_eq_false_2 by congruence. done.
  - rewrite IH. by rewrite bool_decide_eq_false_2 by congruence.
  - by rewrite IH.
Qed.
End Rows.

Lemma extraction_rows_eq db id : extraction_rows db id = rows ex_run_id db.(db_extractions) id.
Proof. done. Qed.

Lemma proposals_of_eq db id : proposals_of db id = rows pr_run_id db.(db_proposals) id.
Proof. done. Qed.

(** ** Extraction attempts *)

Definition attempts_ok (l : list AutomationExtractionPayload) : Prop :=
  ∀ i x, l !! i = Some x →
    x.(ex_attempt_no) = Z.of_nat i + 1 ∧ extraction_row_ok x = true ∧
    ((S i < length l)%nat → x.(ex_status) = XRejected).

Record AttemptInv (db : Db) : Prop := {
  att_rows : ∀ id, attempts_ok (extraction_rows db id);
  att_ids : NoDup (ex_payload_id <$> db.(db_extractions)) }.

Lemma attempts_ordered l : attempts_ok l → order_by ex_attempt_no l = l.
Proof.
  intros H. apply order_by_sorted. intros i j x y Hx Hy Hij.
  apply H in Hx as [-> _]. apply H in Hy as [-> _]. lia.
Qed.

(** The second attempt is the last. *)
Lemma attempts_bound l : attempts_ok l → (length l <= 2)%nat.
Proof.
  intros H. destruct (decide (length l <= 2)%nat) as [|Hn]; [done|]. exfalso.
  destruct (lookup_lt_is_Some_2 l 2) as [x Hx]; [lia|].
  apply H in Hx as (Hno & Hok & _). unfold extraction_row_ok in Hok. bools.
  rewrite Hno in *. done.
Qed.

Lemma attempts_snoc l x :
  attempts_ok l → extraction_row_ok x = true →
  x.(ex_attempt_no) = Z.of_nat (length l) + 1 →
  (∀ y, list.last l = Some y → y.(ex_status) = XRejected) →
  attempts_ok (l ++ [x]).
Proof.
  intros H Hok Hno Hlast i y Hy. rewrite length_app. simpl.
  rewrite lookup_app in Hy. destruct (l !! i) as [z|] eqn:Ei.
  - simplify_eq. destruct (H _ _ Ei) as (? & ? & Hr). split_and!; try done. intros Hi.
    destruct (decide (S i < length l)%nat); [auto|]. apply Hlast.
    rewrite last_lookup. pose proof (lookup_lt_Some _ _ _ Ei).
    by replace (Nat.pred (length l)) with i by lia.
  - apply lookup_ge_None in Ei. destruct (i - length l)%nat eqn:Ed; [|by destruct n].
    simplify_eq/=. split_and!; [lia|done|lia].
Qed.

Lemma attempts_map (f : AutomationExtractionPayload → AutomationExtractionPayload)
    (hit : AutomationExtractionPayload → bool) l :
  attempts_ok l → keeps_attempt f →
  (∀ x, x ∈ l → hit x = true → extraction_row_ok (f x) = true ∧ x.(ex_status) = XReserved) →
  attempts_ok ((fun x => if hit x then f x else x) <$> l).
Proof.
  intros H Hf Hhit i y Hy. rewrite length_fmap. rewrite list_lookup_fmap in Hy.
  destruct (l !! i) as [x|] eqn:Ei; [|done]. simplify_eq/=.
  destruct (H _ _ Ei) as (Hno & Hok & Hr). destruct (hit x) eqn:Eh; [|done].
  destruct (Hhit x) as [? Hres]; [by eapply list_elem_of_lookup_2|done|].
  destruct (Hf x) as (_ & _ & ->). split_and!; try done.
  intros Hi. apply Hr in Hi. congruence.
Qed.

Lemma reserved_hit_status pid id x : reserved_hit pid id x = true → x.(ex_status) = XReserved.
Proof. unfold reserved_hit. intros. by bools. Qed.

Lemma ledger_step_attempts db db' :
  ledger_step db db' → AttemptInv db → AttemptInv db'.
Proof.
  intros Hs [Hrows Hids].
  assert (db'.(db_extractions) = db.(db_extractions) → AttemptInv db') as Hsame.
  { intros He. constructor; [intros id; rewrite extraction_rows_eq, He; apply Hrows|by rewrite He]. }
  assert (∀ id, db'.(db_extractions) = (delete_extractions db id).(db_extractions) →
                AttemptInv db') as Hdrop.
  { intros id He. constructor; [intros id'; rewrite extraction_rows_eq|]; rewrite He; simpl.
    - rewrite rows_drop. case_decide; [done|apply Hrows].
    - eapply sublist_NoDup; [done|apply fmap_sublist, sublist_filter]. }
  destruct Hs as [|? ? ? x ? ? ? He ? ? ? Hno Hlast Hnew|? ? ? pid f ? ? ? ? ? ? Hf Hok He
    |? ? ? ? ? ? ? ? ? ? Hx|? ? ? ? ?|? ? ? ? ? ? ?|? ? ? ? ?|? ? ? ? ? ? ?|id ->| |?|now ->|? ->]; auto.
  - unfold extractions_of in Hno, Hlast. rewrite !(attempts_ordered _ (Hrows _)) in Hno, Hlast.
    constructor; [intros id; rewrite extraction_rows_eq|]; rewrite He.
    + rewrite rows_snoc. case_decide as Hid; [|apply Hrows].
      replace id with (rid r) by congruence. apply attempts_snoc; try done. apply Hrows.
    + by apply nodup_fmap_snoc.
  - constructor; [intros id; rewrite extraction_rows_eq|]; rewrite He.
    + rewrite rows_map by (intros x; case_match; [apply Hf|done]).
      apply attempts_map; [apply Hrows|done|]. intros x Hx Hh.
      apply elem_of_rows in Hx as [Hx _]. split; [by apply Hok|by eapply reserved_hit_status].
    + rewrite <- list_fmap_compose. erewrite list_fmap_ext; [exact Hids|].
      intros i x _. simpl. case_match; [apply Hf|done].
  - destruct Hx; eauto.
  - by eapply Hdrop.
  - by eapply Hdrop.
  - subst; by apply Hsame.
  - constructor.
    + intros id. unfold extraction_rows. simpl. rewrite filter_gone. case_decide; [done|apply Hrows].
    + eapply sublist_NoDup; [done|apply fmap_sublist, sublist_filter].
Qed.

(** ** Calendar writes and consent *)

(** The write row a run in state [s] may have. *)
Definition write_agrees (s : run_state) (w : option AutomationCalendarWrite) : Prop :=
  match write_status_of s with
  | Some status => ∃ x, w = Some x ∧ x.(wr_status) = status
  | None => ∀ x, w = Some x → x.(wr_status) = WCancelled
  end.

(** Event [a] is the user's confirmation of the proposal that [w] writes. *)
Definition consent (a : AutomationEvent) (w : AutomationCalendarWrite) : Prop :=
  a.(ev_decision) = Some DConfirmed ∧
  a.(ev_previous_state) = Some RAwaitingConfirmation ∧ a.(ev_next_state) = RWriteAuthorized ∧
  a.(ev_transaction_id) = Some w.(wr_transaction_id) ∧
  a.(ev_payload_sha256) = Some w.(wr_proposal_sha256).

(** Event [c] cancels an authorized write. *)
Definition cancels (c : AutomationEvent) : Prop :=
  c.(ev_previous_state) = Some RWriteAuthorized ∧ c.(ev_next_state) = RSourceUnavailable.

Record ConsentInv (db : Db) : Prop := {
  con_write : ∀ id w, db.(db_writes) !! id = Some w →
    w.(wr_run_id) = id ∧ write_row_ok w = true ∧ is_Some (db.(db_runs) !! id);
  con_agrees : ∀ id r, db.(db_runs) !! id = Some r → write_agrees r.(run_st) (db.(db_writes) !! id);
  con_consent : ∀ id w, db.(db_writes) !! id = Some w → ∃ a, a ∈ events_of db id ∧ consent a w;
  con_ledger : ∀ a, a ∈ db.(db_events) → a.(ev_decision) = Some DConfirmed →
    is_Some (db.(db_writes) !! a.(ev_run_id));
  con_cancelled : ∀ c w, c ∈ db.(db_events) → cancels c →
    db.(db_writes) !! c.(ev_run_id) = Some w →
    c.(ev_transaction_id) = Some w.(wr_transaction_id) →
    w.(wr_status) = WCancelled ∧ w.(wr_failure_code) = c.(ev_failure_code) }.

(** What a step does to the writes, seen from the run that moves. *)
Inductive write_step (db db' : Db) : Prop :=
| WSKeep r r' e :
    advance db db' r r' e → db'.(db_writes) = db.(db_writes) →
    write_status_of r.(run_st) = None → write_status_of r'.(run_st) = None →
    e.(ev_decision) ≠ Some DConfirmed → write_step db db'
| WSConfirm r r' e w :
    advance db db' r r' e → r.(run_st) = RAwaitingConfirmation → r'.(run_st) = RWriteAuthorized →
    consent e w → w.(wr_status) = WAuthorized → write_row_ok w = true → w.(wr_run_id) = rid r →
    (∀ o, o ∈ db.(db_events) → o.(ev_transaction_id) ≠ Some w.(wr_transaction_id)) →
    db'.(db_writes) = <[rid r := w]> db.(db_writes) → write_step db db'
| WSMove r r' e w w' :
    advance db db' r r' e → db.(db_writes) !! rid r = Some w → same_admission w w' →
    write_row_ok w' = true → db'.(db_writes) = <[rid r := w']> db.(db_writes) →
    is_Some (write_status_of r.(run_st)) → e.(ev_decision) = None →
    e.(ev_transaction_id) = Some w.(wr_transaction_id) →
    (r'.(run_st) = RSourceUnavailable → ∃ cause, e.(ev_failure_code) = Some (cause_text cause)) →
    (write_status_of r'.(run_st) = Some w'.(wr_status) ∨
     r.(run_st) = RWriteAuthorized ∧ r'.(run_st) = RSourceUnavailable ∧
     w'.(wr_status) = WCancelled ∧ w'.(wr_failure_code) = e.(ev_failure_code)) →
    write_step db db'
| WSQuiet :
    db'.(db_events) = db.(db_events) → db'.(db_writes) = db.(db_writes) →
    (∀ id, run_st <$> db'.(db_runs) !! id = run_st <$> db.(db_runs) !! id) → write_step db db'
| WSAdmit r e :
    db.(db_runs) !! rid r = None → db'.(db_runs) = <[rid r := r]> db.(db_runs) →
    r.(run_st) = RDetected → db'.(db_events) = (db.(db_events) ++ [e])%list →
    e.(ev_decision) = None → e.(ev_previous_state) = None → e.(ev_run_id) = rid r →
    db'.(db_writes) = db.(db_writes) → write_step db db'
| WSPurge now : db' = purge_expired_automation_tombstones db now → write_step db db'.

(** Edges that neither authorize nor leave an authorization keep the run away
    from the states that own a write. *)
Lemma quiet_edge s s' :
  run_edge s s' = true → s ≠ RWriteAuthorized → s' ≠ RWriteAuthorized →
  s' = RExtracting ∨ s' = RSourceUnavailable ∨ s' = RManualReview ∨ write_status_of s = None →
  write_status_of s = None ∧ write_status_of s' = None.
Proof. destruct s, s'; naive_solver. Qed.

Lemma ledger_write_step db db' : ledger_step db db' → write_step db db'.
Proof.
  assert (∀ r r' e failure pid sha d txn, advance db db' r r' e →
    event_says e failure pid sha d txn → d ≠ Some DConfirmed →
    r.(run_st) ≠ RWriteAuthorized → r'.(run_st) ≠ RWriteAuthorized →
    (r'.(run_st) = RExtracting ∨ r'.(run_st) = RSourceUnavailable ∨ r'.(run_st) = RManualReview ∨
     write_status_of r.(run_st) = None) →
    db'.(db_writes) = db.(db_writes) → write_step db db') as Hkeep.
  { intros r r' e failure pid sha d txn Ha Hsays Hd H1 H2 Hq Hw.
    destruct (quiet_edge _ _ (adv_edge _ _ _ _ _ Ha) H1 H2 Hq).
    eapply WSKeep; try done. by rewrite (es_decision _ _ _ _ _ _ Hsays). }
  intros Hs. destruct Hs.
  - by eapply WSAdmit.
  - eapply Hkeep; try done; [|congruence|tauto].
    intros Heq. pose proof (adv_edge _ _ _ _ _ H) as He. by rewrite Heq, H0 in He.
  - eapply Hkeep; try done; [congruence| |rewrite H0; tauto].
    intros Heq. pose proof (adv_edge _ _ _ _ _ H) as He. by rewrite Heq, H0 in He.
  - eapply Hkeep; try done; [|tauto]. destruct H0; congruence.
  - eapply Hkeep; try done; [congruence| |rewrite H0; tauto]. rewrite H1. by case_decide.
  - eapply Hkeep; try done; [congruence| |rewrite H0; tauto]. destruct H1; congruence.
  - eapply WSConfirm; try done. destruct H9. split_and!; try congruence.
    + rewrite (ef_previous _ _ _ (adv_event _ _ _ _ _ H)). congruence.
    + rewrite (ef_next _ _ _ (adv_event _ _ _ _ _ H)). congruence.
  - destruct (decide (r.(run_st) = RWriteAuthorized)) as [Hst|Hst].
    + destruct H1 as (w & w' & Hw & Hws & Hsame & Hc & Hf & Hok & -> & Hwr); [done|].
      eapply WSMove; try done; [by rewrite Hst; eexists|apply H3..| |].
      { intros _. exists cause. apply H3. }
      right. split_and!; try done. by rewrite (es_failure _ _ _ _ _ _ H3).
    + destruct H2 as [-> Hw]; [done|]. eapply Hkeep; try done; [congruence|tauto].
  - subst. by apply WSQuiet.
  - eapply WSMove; try done; [apply H6..| |].
    + intros Hst. by rewrite Hst in H2.
    + left. congruence.
  - subst. apply WSQuiet; try done. intros id. simpl.
    destruct (decide (id = rid r)) as [->|]; [|by rewrite lookup_insert_ne].
    by rewrite lookup_insert_eq, H.
  - by eapply WSPurge.
  - subst. by apply WSQuiet.
Qed.

(** Events, runs and writes after a step in which one run advances. *)
Lemma advance_events db db' r r' e o :
  advance db db' r r' e → o ∈ db'.(db_events) ↔ o ∈ db.(db_events) ∨ o = e.
Proof. intros Ha. by rewrite (adv_events _ _ _ _ _ Ha), elem_of_app, list_elem_of_singleton. Qed.

Lemma advance_events_of db db' r r' e o id :
  advance db db' r r' e →
  o ∈ events_of db' id ↔ o ∈ events_of db id ∨ (o = e ∧ id = rid r).
Proof.
  intros Ha. rewrite !elem_of_events_of, (advance_events _ _ _ _ _ _ Ha).
  pose proof (ef_run_id _ _ _ (adv_event _ _ _ _ _ Ha)). unfold rid. naive_solver.
Qed.

Lemma advance_run db db' r r' e id x :
  advance db db' r r' e →
  db'.(db_runs) !! id = Some x ↔
    (id = rid r ∧ x = r') ∨ (id ≠ rid r ∧ db.(db_runs) !! id = Some x).
Proof.
  intros Ha. rewrite (adv_runs _ _ _ _ _ Ha), lookup_insert_Some. unfold rid. naive_solver.
Qed.

Lemma advance_run_is_Some db db' r r' e id :
  advance db db' r r' e → is_Some (db.(db_runs) !! id) → is_Some (db'.(db_runs) !! id).
Proof.
  intros Ha. rewrite (adv_runs _ _ _ _ _ Ha), lookup_insert_is_Some'. by right.
Qed.

Lemma advance_not_cancels db db' r r' e :
  advance db db' r r' e → cancels e →
  r.(run_st) = RWriteAuthorized ∧ r'.(run_st) = RSourceUnavailable.
Proof.
  intros Ha [Hp Hn]. destruct (adv_event _ _ _ _ _ Ha). split; congruence.
Qed.

Lemma ws_keep db db' r r' e :
  advance db db' r r' e → db'.(db_writes) = db.(db_writes) →
  write_status_of r.(run_st) = None → write_status_of r'.(run_st) = None →
  e.(ev_decision) ≠ Some DConfirmed → ConsentInv db → ConsentInv db'.
Proof.
  intros Ha Hw Hn Hn' Hd [H1 H2 H3 H4 H5]. constructor; rewrite ?Hw.
  - intros id w Hid. destruct (H1 _ _ Hid) as (? & ? & ?). split_and!; try done.
    by eapply advance_run_is_Some.
  - intros id x. rewrite (advance_run _ _ _ _ _ _ _ Ha). intros [[-> ->]|[? Hx]]; [|by apply H2].
    specialize (H2 _ _ (adv_found _ _ _ _ _ Ha)). unfold write_agrees in *.
    rewrite Hn in H2. by rewrite Hn'.
  - intros id w Hid. destruct (H3 _ _ Hid) as (a & ? & ?). exists a. split; [|done].
    rewrite advance_events_of by done. by left.
  - intros a. rewrite (advance_events _ _ _ _ _ _ Ha). intros [?| ->] Hc; [by apply H4|done].
  - intros c w. rewrite (advance_events _ _ _ _ _ _ Ha). intros [?| ->] Hc; [by apply H5|].
    destruct (advance_not_cancels _ _ _ _ _ Ha Hc) as [Hst _]. by rewrite Hst in Hn.
Qed.

Lemma ws_confirm db db' r r' e w :
  advance db db' r r' e → r.(run_st) = RAwaitingConfirmation → r'.(run_st) = RWriteAuthorized →
  consent e w → w.(wr_status) = WAuthorized → write_row_ok w = true → w.(wr_run_id) = rid r →
  (∀ o, o ∈ db.(db_events) → o.(ev_transaction_id) ≠ Some w.(wr_transaction_id)) →
  db'.(db_writes) = <[rid r := w]> db.(db_writes) → ConsentInv db → ConsentInv db'.
Proof.
  intros Ha Hst Hst' Hc Hs Hok Hid Hfresh Hw [H1 H2 H3 H4 H5].
  constructor; rewrite ?Hw.
  - intros id x. rewrite lookup_insert_Some. intros [[<- <-]|[? Hx]].
    + split_and!; try done. eapply advance_run_is_Some; [done|]. eexists. apply Ha.
    + destruct (H1 _ _ Hx) as (? & ? & ?). split_and!; try done. by eapply advance_run_is_Some.
  - intros id x. rewrite (advance_run _ _ _ _ _ _ _ Ha). intros [[-> ->]|[? Hx]].
    + rewrite Hst', lookup_insert_eq. simpl. unfold write_agrees; simpl. eauto.
    + rewrite lookup_insert_ne by done. by apply H2.
  - intros id x. rewrite lookup_insert_Some. intros [[<- <-]|[? Hx]].
    + exists e. split; [|done]. rewrite advance_events_of by done. by right.
    + destruct (H3 _ _ Hx) as (a & ? & ?). exists a. split; [|done].
      rewrite advance_events_of by done. by left.
  - intros a. rewrite (advance_events _ _ _ _ _ _ Ha), lookup_insert_is_Some'.
    intros [?| ->] Hd; [right; by apply H4|left].
    by rewrite (ef_run_id _ _ _ (adv_event _ _ _ _ _ Ha)).
  - intros c x. rewrite (advance_events _ _ _ _ _ _ Ha). intros [Hin| ->] Hcan Hl Htx.
    + apply lookup_insert_Some in Hl as [[? <-]|[? Hl]]; [|by apply H5].
      by destruct (Hfresh _ Hin).
    + destruct (advance_not_cancels _ _ _ _ _ Ha Hcan). congruence.
Qed.

Lemma ws_move db db' r r' e w w' :
  advance db db' r r' e → db.(db_writes) !! rid r = Some w → same_admission w w' →
  write_row_ok w' = true → db'.(db_writes) = <[rid r := w']> db.(db_writes) →
  is_Some (write_status_of r.(run_st)) → e.(ev_decision) = None →
  (write_status_of r'.(run_st) = Some w'.(wr_status) ∨
   r.(run_st) = RWriteAuthorized ∧ r'.(run_st) = RSourceUnavailable ∧
   w'.(wr_status) = WCancelled ∧ w'.(wr_failure_code) = e.(ev_failure_code)) →
  ConsentInv db → ConsentInv db'.
Proof.
  intros Ha Hl (Hrid & Htx & Hpv & Hsha & _) Hok Hw [s Hs] Hd Hor [H1 H2 H3 H4 H5].
  assert (w.(wr_status) ≠ WCancelled) as Hlive.
  { specialize (H2 _ _ (adv_found _ _ _ _ _ Ha)). unfold write_agrees in H2.
    rewrite Hs in H2. destruct H2 as (x & Hx & <-). unfold rid in Hl. simplify_eq.
    intros Hc. rewrite Hc in Hs. by destruct (run_st r). }
  constructor; rewrite ?Hw.
  - intros id x. rewrite lookup_insert_Some. intros [[<- <-]|[? Hx]].
    + destruct (H1 _ _ Hl) as (? & ? & ?). split_and!; [congruence|done|].
      by eapply advance_run_is_Some.
    + destruct (H1 _ _ Hx) as (? & ? & ?). split_and!; try done. by eapply advance_run_is_Some.
  - intros id x. rewrite (advance_run _ _ _ _ _ _ _ Ha). intros [[-> ->]|[? Hx]].
    + rewrite lookup_insert_eq. unfold write_agrees.
      destruct Hor as [->|(_ & -> & Hc & _)]; [eauto|]. simpl. by intros ? [= <-].
    + rewrite lookup_insert_ne by done. by apply H2.
  - intros id x. rewrite lookup_insert_Some. intros [[<- <-]|[? Hx]].
    + destruct (H3 _ _ Hl) as (a & ? & Hc). exists a. split.
      * rewrite advance_events_of by done. by left.
      * unfold consent in *. by rewrite Htx, Hsha.
    + destruct (H3 _ _ Hx) as (a & ? & ?). exists a. split; [|done].
      rewrite advance_events_of by done. by left.
  - intros a. rewrite (advance_events _ _ _ _ _ _ Ha), lookup_insert_is_Some'.
    intros [?| ->] Hc; [right; by apply H4|]. congruence.
  - intros c x. rewrite (advance_events _ _ _ _ _ _ Ha). intros Hin Hcan Hx Htxn.
    apply lookup_insert_Some in Hx as [[Heq <-]|[Hne Hx]].
    + destruct Hin as [Hin| ->].
      * exfalso. destruct Hlive. eapply (H5 c); try done; congruence.
      * destruct (advance_not_cancels _ _ _ _ _ Ha Hcan) as [_ Hst'].
        destruct Hor as [Hor|(_ & _ & ? & ?)]; [by rewrite Hst' in Hor|done].
    + destruct Hin as [Hin| ->]; [by apply (H5 c)|].
      by rewrite (ef_run_id _ _ _ (adv_event _ _ _ _ _ Ha)) in Hne.
Qed.

Lemma write_step_consent db db' : write_step db db' → ConsentInv db → ConsentInv db'.
Proof.
  intros Hs. destruct Hs as [| | |He Hw Hst|r e Hnone HR Hst HE Hd Hp _ Hw|now ->];
    [by eapply ws_keep|by eapply ws_confirm|by eapply ws_move|..]; intros [H1 H2 H3 H4 H5].
  - assert (∀ id x, db'.(db_runs) !! id = Some x →
              ∃ y, db.(db_runs) !! id = Some y ∧ y.(run_st) = x.(run_st)) as Hback.
    { intros id x Hx. specialize (Hst id). rewrite Hx in Hst.
      destruct (db_runs db !! id); simplify_eq/=; eauto. }
    constructor; rewrite ?Hw, ?He; try done.
    + intros id w Hid. destruct (H1 _ _ Hid) as (? & ? & [x Hx]). split_and!; try done.
      specialize (Hst id). rewrite Hx in Hst. by destruct (db_runs db' !! id).
    + intros id x Hx. destruct (Hback _ _ Hx) as (y & Hy & <-). by apply H2.
    + intros id w. rewrite (events_of_same _ _ _ He). apply H3.
  - constructor; rewrite ?Hw.
    + intros id w Hid. destruct (H1 _ _ Hid) as (? & ? & ?). split_and!; try done.
      rewrite HR, lookup_insert_is_Some'. by right.
    + intros id x. rewrite HR, lookup_insert_Some. intros [[<- <-]|[? Hx]]; [|by apply H2].
      rewrite Hst. intros w Hx. destruct (H1 _ _ Hx) as (_ & _ & [? ?]). congruence.
    + intros id w Hid. destruct (H3 _ _ Hid) as (a & Ha & ?). exists a. split; [|done].
      rewrite (events_of_snoc _ _ _ _ HE). case_decide; [|done]. apply elem_of_app. by left.
    + intros a. rewrite HE, elem_of_app, list_elem_of_singleton. intros [?| ->] Hc; [by apply H4|].
      congruence.
    + intros c w. rewrite HE, elem_of_app, list_elem_of_singleton.
      intros [?| ->] [Hc1 Hc2]; [by apply H5|congruence].
  - constructor.
    + intros id w. rewrite purge_writes, purge_runs. case_decide; [done|]. apply H1.
    + intros id r. rewrite purge_writes, purge_runs. case_decide; [done|]. apply H2.
    + intros id w. rewrite purge_writes, purge_events_of. case_decide; [done|]. apply H3.
    + intros a. rewrite purge_events, purge_writes. intros [Ha Hn]. rewrite decide_False by done.
      by apply H4.
    + intros c w. rewrite purge_events, purge_writes. intros [Ha Hn]. rewrite decide_False by done.
      by apply H5.
Qed.

(** ** Adjacent events

    A run in [write_authorized] has just been confirmed, and the event that
    follows a confirmation belongs to the same transaction. *)

Record PairInv (db : Db) : Prop := {
  pair_authorized : ∀ id r, db.(db_runs) !! id = Some r → r.(run_st) = RWriteAuthorized →
    ∃ a w, list.last (events_of db id) = Some a ∧ db.(db_writes) !! id = Some w ∧ consent a w;
  pair_follows : ∀ id a c, a ∈ events_of db id → c ∈ events_of db id →
    a.(ev_next_state) = RWriteAuthorized → c.(ev_state_version) = a.(ev_state_version) + 1 →
    a.(ev_decision) = Some DConfirmed ∧ is_Some a.(ev_transaction_id) ∧
    c.(ev_transaction_id) = a.(ev_transaction_id) ∧
    (cancels c → c.(ev_transition_kind) = RSourceUnavailable ∧
       ∃ cause, c.(ev_failure_code) = Some (cause_text cause)) }.

Lemma log_last_version r es a : log_ok r es → list.last es = Some a →
  a.(ev_state_version) = r.(run_version) ∧ a.(ev_next_state) = r.(run_st).
Proof.
  intros [Hlen Hlast Hent] Ha. rewrite Ha in Hlast. simplify_eq/=. split; [|done].
  rewrite last_lookup in Ha. pose proof (lookup_lt_Some _ _ _ Ha).
  apply Hent in Ha as (_ & V & _). lia.
Qed.

Lemma log_version_unique r es e1 e2 :
  log_ok r es → e1 ∈ es → e2 ∈ es → e1.(ev_state_version) = e2.(ev_state_version) → e1 = e2.
Proof.
  intros [_ _ Hent] H1 H2 Hv. apply list_elem_of_lookup in H1 as [i Hi], H2 as [j Hj].
  destruct (Hent _ _ Hi) as (_ & V1 & _), (Hent _ _ Hj) as (_ & V2 & _).
  assert (i = j) as -> by lia. congruence.
Qed.

Lemma log_versions r es e : log_ok r es → e ∈ es → 1 <= e.(ev_state_version) <= r.(run_version).
Proof.
  intros [Hlen _ Hent] He. apply list_elem_of_lookup in He as [i Hi].
  destruct (Hent _ _ Hi) as (_ & V & _). apply lookup_lt_Some in Hi. lia.
Qed.

(** The pairs after an advance: the old ones, and the new event after the last. *)
Lemma advance_pairs db db' r r' e :
  advance db db' r r' e → LogInv db → PairInv db →
  (r.(run_st) = RWriteAuthorized → ∀ a, list.last (events_of db (rid r)) = Some a →
     a.(ev_next_state) = RWriteAuthorized →
     a.(ev_decision) = Some DConfirmed ∧ is_Some a.(ev_transaction_id) ∧
     e.(ev_transaction_id) = a.(ev_transaction_id) ∧
     (cancels e → ∃ cause, e.(ev_failure_code) = Some (cause_text cause))) →
  ∀ id a c, a ∈ events_of db' id → c ∈ events_of db' id →
    a.(ev_next_state) = RWriteAuthorized → c.(ev_state_version) = a.(ev_state_version) + 1 →
    a.(ev_decision) = Some DConfirmed ∧ is_Some a.(ev_transaction_id) ∧
    c.(ev_transaction_id) = a.(ev_transaction_id) ∧
    (cancels c → c.(ev_transition_kind) = RSourceUnavailable ∧
       ∃ cause, c.(ev_failure_code) = Some (cause_text cause)).
Proof.
  intros Ha HL [_ Hpairs] Hnew id a c. rewrite !(advance_events_of _ _ _ _ _ _ _ Ha).
  pose proof (inv_log _ HL _ _ (adv_found _ _ _ _ _ Ha)) as Hlog. fold (rid r) in Hlog.
  pose proof (adv_event _ _ _ _ _ Ha) as He.
  intros [Hina|[-> ->]] [Hinc|[-> Hid]] Hn Hv.
  - by eapply Hpairs.
  - subst id. destruct (list.last (events_of db (rid r))) as [l|] eqn:El;
      [|by destruct Hlog as [_ Hl _]; rewrite El in Hl].
    destruct (log_last_version _ _ _ Hlog El) as [Vl Sl].
    assert (a = l) as ->.
    { eapply log_version_unique; [exact Hlog|done| |].
      - rewrite last_lookup in El. by eapply list_elem_of_lookup_2.
      - rewrite (ef_version _ _ _ He) in Hv. lia. }
    destruct (Hnew ltac:(congruence) l eq_refl Hn) as (? & ? & ? & Hcan). split_and!; try done.
    intros Hc. split; [|by apply Hcan]. rewrite (ef_kind _ _ _ He), <- (ef_next _ _ _ He). apply Hc.
  - pose proof (log_versions _ _ _ Hlog Hinc). rewrite (ef_version _ _ _ He) in Hv. lia.
  - lia.
Qed.

(** The run that advances is the only one whose confirmation can change. *)
Lemma advance_authorized db db' r r' e :
  advance db db' r r' e → PairInv db →
  (∀ id, id ≠ rid r → db'.(db_writes) !! id = db.(db_writes) !! id) →
  (r'.(run_st) = RWriteAuthorized → ∃ w, db'.(db_writes) !! rid r = Some w ∧ consent e w) →
  ∀ id x, db'.(db_runs) !! id = Some x → x.(run_st) = RWriteAuthorized →
    ∃ a w, list.last (events_of db' id) = Some a ∧ db'.(db_writes) !! id = Some w ∧ consent a w.
Proof.
  intros Ha HP Hw Hnew id x. rewrite (advance_run _ _ _ _ _ _ _ Ha).
  rewrite (events_of_snoc _ _ _ _ (adv_events _ _ _ _ _ Ha)), (ef_run_id _ _ _ (adv_event _ _ _ _ _ Ha)).
  intros [[-> ->]|[Hne Hx]] Hst.
  - rewrite decide_True by done. rewrite last_snoc. destruct (Hnew Hst) as (w & ? & ?). eauto.
  - rewrite decide_False by (unfold rid in Hne; congruence). rewrite Hw by done.
    by eapply (pair_authorized _ HP).
Qed.

Lemma write_step_pairs db db' :
  write_step db db' → LogInv db → PairInv db → PairInv db'.
Proof.
  intros Hs HL HP. destruct Hs as
    [r r' e Ha Hw Hn Hn' Hd|r r' e w Ha Hst Hst' Hc Hs' Hok Hid Hfr Hw
    |r r' e w w' Ha Hl Hsame Hok Hw Hsome Hd Htx Hf Hor|He Hw Hst|r e Hnone HR Hst HE Hd Hp Hid Hw|now ->].
  - constructor; [eapply advance_authorized|eapply advance_pairs]; try done; rewrite ?Hw; try done;
      intros Hst; by rewrite Hst in *.
  - constructor; [eapply advance_authorized|eapply advance_pairs]; try done; rewrite ?Hw; try congruence.
    + intros id Hne. by rewrite lookup_insert_ne.
    + intros _. exists w. by rewrite lookup_insert_eq.
  - constructor; [eapply advance_authorized|eapply advance_pairs]; try done; rewrite ?Hw.
    + intros id Hne. by rewrite lookup_insert_ne.
    + intros Hst. pose proof (adv_edge _ _ _ _ _ Ha) as He. rewrite Hst in He.
      destruct Hsome as [? Hs]. by destruct (run_st r).
    + intros Hst a Hla Hna. destruct (pair_authorized _ HP (rid r) r) as (a' & x & Hla' & Hx & Hc); try done.
      { apply Ha. }
      simplify_eq. destruct Hc as (? & ? & ? & Htxa & ?). split_and!; try done; [congruence|].
      intros [_ Hcn]. apply Hf. by rewrite <- (ef_next _ _ _ (adv_event _ _ _ _ _ Ha)).
  - constructor.
    + intros id x Hx. specialize (Hst id). rewrite Hx in Hst. rewrite Hw, (events_of_same _ _ _ He).
      destruct (db_runs db !! id) as [y|] eqn:Ey; simplify_eq/=. intros Hs.
      eapply (pair_authorized _ HP); [done|congruence].
    + intros id a c. rewrite (events_of_same _ _ _ He). apply HP.
  - constructor.
    + intros id x. rewrite HR, lookup_insert_Some, Hw, (events_of_snoc _ _ _ _ HE), Hid.
      intros [[<- <-]|[Hne Hx]]; [congruence|]. rewrite decide_False by done. by apply HP.
    + intros id a c. rewrite (events_of_snoc _ _ _ _ HE), Hid. case_decide as Heq; [|apply HP].
      rewrite (events_of_absent db id HL) by congruence. simpl.
      rewrite !list_elem_of_singleton. intros -> -> _ ?. lia.
  - constructor.
    + intros id x. rewrite purge_runs, purge_writes, purge_events_of. case_decide; [done|]. apply HP.
    + intros id a c. rewrite purge_events_of. case_decide; [set_solver|]. apply HP.
Qed.

(** ** Proposal generations *)

(** A transition that used up a proposal generation. *)
Definition generation_event (e : AutomationEvent) : bool :=
  bool_decide (e.(ev_previous_state) = Some RProposing) &&
  bool_decide (e.(ev_next_state) = RAwaitingConfirmation ∨ e.(ev_next_state) = RManualReview).

Lemma generation_events_of db id before :
  calendar_proposal_generation db id before =
  Z.of_nat (length (List.filter
    (fun e => generation_event e && opt_all (fun v => e.(ev_state_version) <? v) before)
    (events_of db id))).
Proof.
  unfold calendar_proposal_generation, events_of. f_equal. f_equal.
  induction (db_events db) as [|e l IH]; simpl; [done|].
  unfold proposal_transition, generation_event in *.
  destruct (bool_decide (ev_run_id e = id)); simpl; [|done].
  destruct (_ && opt_all _ _); simpl; by rewrite IH.
Qed.

Definition generation (db : Db) (id : text) : Z := calendar_proposal_generation db id None.

Lemma generation_snoc db db' e id :
  db'.(db_events) = (db.(db_events) ++ [e])%list →
  generation db' id = generation db id +
    if decide (e.(ev_run_id) = id) then (if generation_event e then 1 else 0) else 0.
Proof.
  intros He. unfold generation. rewrite !generation_events_of, (events_of_snoc _ _ _ _ He).
  case_decide; [|lia]. rewrite List.filter_app, length_app. simpl.
  destruct (generation_event e); simpl; lia.
Qed.

Lemma generation_same db db' id :
  events_of db' id = events_of db id → generation db' id = generation db id.
Proof. intros He. unfold generation. by rewrite !generation_events_of, He. Qed.

Record GenInv (db : Db) : Prop := {
  gen_ids : NoDup (pr_payload_id <$> db.(db_proposals));
  gen_proposals : ∀ p, p ∈ db.(db_proposals) →
    is_Some (db.(db_runs) !! p.(pr_run_id)) ∧ proposal_row_ok p = true ∧
    1 <= p.(pr_proposal_version) <= generation db p.(pr_run_id);
  gen_writes : ∀ id w, db.(db_writes) !! id = Some w →
    w.(wr_proposal_version) <= generation db id;
  gen_current : ∀ id r p, db.(db_runs) !! id = Some r → r.(run_st) = RAwaitingConfirmation →
    p ∈ db.(db_proposals) → p.(pr_run_id) = id →
    r.(run_current_payload_id) = Some p.(pr_payload_id) →
    p.(pr_proposal_version) = generation db id;
  gen_stale : ∀ id r w, db.(db_runs) !! id = Some r → r.(run_st) = RAwaitingConfirmation →
    db.(db_writes) !! id = Some w → w.(wr_proposal_version) < generation db id }.

Lemma max_bound (l : list Z) b : 0 <= b → (∀ x, x ∈ l → x <= b) → 0 <= foldr Z.max 0 l <= b.
Proof.
  intros Hb. induction l as [|x l IH]; intros Hl; simpl; [lia|].
  assert (x <= b) by (apply Hl; by left).
  assert (0 <= foldr Z.max 0 l <= b) by (apply IH; intros; apply Hl; by right). lia.
Qed.

(** Proposals are numbered by generation: the next version is one more than the
    number of generations in the log. *)
Lemma latest_is_generation db id : GenInv db → latest_proposal_version db id = generation db id.
Proof.
  intros [_ Hp Hw _ _]. unfold latest_proposal_version. fold (generation db id).
  assert (0 <= generation db id) by (unfold generation, calendar_proposal_generation; lia).
  destruct (max_bound (pr_proposal_version <$> proposals_of db id) (generation db id)) as [? ?];
    [done| |].
  - intros x Hx. apply list_elem_of_fmap in Hx as (p & -> & Hin).
    rewrite proposals_of_eq in Hin. apply elem_of_rows in Hin as [Hin <-].
    by apply Hp.
  - destruct (db_writes db !! id) as [w|] eqn:E; [|lia]. specialize (Hw _ _ E). lia.
Qed.

Lemma generation_grows db db' r r' e id :
  advance db db' r r' e → generation db id <= generation db' id.
Proof.
  intros Ha. rewrite (generation_snoc _ _ _ _ (adv_events _ _ _ _ _ Ha)).
  repeat case_match; lia.
Qed.

Lemma generation_other db db' r r' e id :
  advance db db' r r' e → id ≠ rid r → generation db' id = generation db id.
Proof.
  intros Ha Hne. rewrite (generation_snoc _ _ _ _ (adv_events _ _ _ _ _ Ha)).
  rewrite decide_False; [lia|]. rewrite (ef_run_id _ _ _ (adv_event _ _ _ _ _ Ha)).
  unfold rid in Hne. congruence.
Qed.

(** The writes of the other runs are the same. *)
Definition write_other (id : text) (db db' : Db) : Prop :=
  ∀ id', id' ≠ id → db'.(db_writes) !! id' = db.(db_writes) !! id'.

(** A step that leaves no run newly awaiting confirmation. *)
Lemma gen_advance db db' r r' e :
  advance db db' r r' e → r'.(run_st) ≠ RAwaitingConfirmation →
  db'.(db_proposals) `sublist_of` db.(db_proposals) →
  (∀ id w, db'.(db_writes) !! id = Some w → w.(wr_proposal_version) <= generation db id) →
  write_other (rid r) db db' →
  GenInv db → GenInv db'.
Proof.
  intros Ha Hst Hsub Hw Hwo [H1 H2 H3 H4 H5].
  assert (∀ p, p ∈ db'.(db_proposals) → p ∈ db.(db_proposals)) as Hin.
  { intros p Hp. eapply elem_of_submseteq; [done|]. by apply sublist_submseteq. }
  constructor.
  - eapply sublist_NoDup; [exact H1|]. by apply fmap_sublist.
  - intros p Hp. destruct (H2 _ (Hin _ Hp)) as (? & ? & ?). split_and!;
      [by eapply advance_run_is_Some|done|..];
    pose proof (generation_grows _ _ _ _ _ (pr_run_id p) Ha); lia.
  - intros id w Hid. pose proof (generation_grows _ _ _ _ _ id Ha). specialize (Hw _ _ Hid). lia.
  - intros id x p. rewrite (advance_run _ _ _ _ _ _ _ Ha). intros [[-> ->]|[Hne Hx]]; [done|].
    intros. rewrite (generation_other _ _ _ _ _ _ Ha Hne). eapply H4; eauto.
  - intros id x w. rewrite (advance_run _ _ _ _ _ _ _ Ha). intros [[-> ->]|[Hne Hx]]; [done|].
    rewrite Hwo by done. intros. rewrite (generation_other _ _ _ _ _ _ Ha Hne). eapply H5; eauto.
Qed.

Lemma gen_propose db db' r r' e p :
  advance db db' r r' e → r.(run_st) = RProposing →
  r'.(run_st) = (if decide (p.(pr_status) = PAccepted) then RAwaitingConfirmation else RManualReview) →
  r'.(run_current_payload_id) = Some p.(pr_payload_id) →
  p.(pr_run_id) = rid r → proposal_row_ok p = true →
  p.(pr_proposal_version) = latest_proposal_version db (rid r) + 1 →
  (∀ o, o ∈ db.(db_proposals) → o.(pr_payload_id) ≠ p.(pr_payload_id)) →
  db'.(db_proposals) = (db.(db_proposals) ++ [p])%list → db'.(db_writes) = db.(db_writes) →
  GenInv db → GenInv db'.
Proof.
  intros Ha Hst Hst' Hcur Hid Hrow Hver Hnew HP HW HG. pose proof HG as [H1 H2 H3 H4 H5].
  rewrite latest_is_generation in Hver by done.
  assert (generation db' (rid r) = generation db (rid r) + 1) as Hgen.
  { rewrite (generation_snoc _ _ _ _ (adv_events _ _ _ _ _ Ha)).
    destruct (adv_event _ _ _ _ _ Ha) as [Her _ _ Hprev Hnext _ _].
    rewrite decide_True by (unfold rid; congruence).
    unfold generation_event. rewrite Hprev, Hnext, Hst, Hst'. by case_decide. }
  assert (0 <= generation db (rid r)) by (unfold generation, calendar_proposal_generation; lia).
  constructor.
  - rewrite HP. by apply nodup_fmap_snoc.
  - intros q. rewrite HP, elem_of_app, list_elem_of_singleton. intros [Hq| ->].
    + destruct (H2 _ Hq) as (? & ? & ?). split_and!; [by eapply advance_run_is_Some|done|..];
      pose proof (generation_grows _ _ _ _ _ (pr_run_id q) Ha); lia.
    + rewrite Hid, Hver, Hgen. split_and!; [|done|lia..]. eapply advance_run_is_Some; [done|].
      eexists. apply Ha.
  - intros id w. rewrite HW. intros Hw. specialize (H3 _ _ Hw).
    pose proof (generation_grows _ _ _ _ _ id Ha). lia.
  - intros id x q. rewrite (advance_run _ _ _ _ _ _ _ Ha), HP, elem_of_app, list_elem_of_singleton.
    intros [[-> ->]|[Hne Hx]] Haw Hq Hqid Hqcur.
    + rewrite Hcur in Hqcur. destruct Hq as [Hq| ->]; [|lia]. by destruct (Hnew _ Hq); congruence.
    + rewrite (generation_other _ _ _ _ _ _ Ha Hne). destruct Hq as [Hq| ->]; [|congruence].
      by eapply H4.
  - intros id x w. rewrite (advance_run _ _ _ _ _ _ _ Ha), HW.
    intros [[-> ->]|[Hne Hx]] Haw Hw.
    + specialize (H3 _ _ Hw). lia.
    + rewrite (generation_other _ _ _ _ _ _ Ha Hne). by eapply H5.
Qed.

(** A step that logs no generation and moves no run to or from confirmation. *)
Lemma gen_quiet db db' :
  (∀ id, is_Some (db'.(db_runs) !! id) → generation db' id = generation db id) →
  db'.(db_writes) ⊆ db.(db_writes) →
  (∀ id w, db'.(db_writes) !! id = Some w → is_Some (db'.(db_runs) !! id)) →
  db'.(db_proposals) `sublist_of` db.(db_proposals) →
  (∀ id r', db'.(db_runs) !! id = Some r' → r'.(run_st) = RAwaitingConfirmation →
     ∃ r, db.(db_runs) !! id = Some r ∧ r.(run_st) = r'.(run_st) ∧
          r.(run_current_payload_id) = r'.(run_current_payload_id)) →
  (∀ p, p ∈ db'.(db_proposals) → is_Some (db.(db_runs) !! p.(pr_run_id)) →
     is_Some (db'.(db_runs) !! p.(pr_run_id))) →
  GenInv db → GenInv db'.
Proof.
  intros Hsame HW HWr Hsub Hruns Hkeep [H1 H2 H3 H4 H5].
  assert (∀ p, p ∈ db'.(db_proposals) → p ∈ db.(db_proposals)) as Hin.
  { intros p Hp. eapply elem_of_submseteq; [done|]. by apply sublist_submseteq. }
  constructor.
  - eapply sublist_NoDup; [exact H1|]. by apply fmap_sublist.
  - intros p Hp. destruct (H2 _ (Hin _ Hp)) as (Hs & ? & Hb).
    pose proof (Hkeep _ Hp Hs) as Hs'. by rewrite Hsame.
  - intros id w Hw. rewrite Hsame by eauto. apply H3. by eapply lookup_weaken.
  - intros id r' p Hr' Hst Hp Hid Hcur.
    destruct (Hruns _ _ Hr' Hst) as (r & Hr & Hs' & Hc').
    rewrite Hsame by eauto. eapply H4; eauto; congruence.
  - intros id r' w Hr' Hst Hw. destruct (Hruns _ _ Hr' Hst) as (r & Hr & Hs' & _).
    rewrite Hsame by eauto. eapply H5; eauto; [congruence|by eapply lookup_weaken].
Qed.

(** The effect of a step on proposals and writes when a run advances without a
    new proposal or confirmation. *)
Lemma gen_advance_same db db' r r' e :
  advance db db' r r' e → r'.(run_st) ≠ RAwaitingConfirmation →
  db'.(db_proposals) `sublist_of` db.(db_proposals) →
  (db'.(db_writes) = db.(db_writes) ∨ ∃ w w', db.(db_writes) !! rid r = Some w ∧
     same_admission w w' ∧ db'.(db_writes) = <[rid r := w']> db.(db_writes)) →
  GenInv db → GenInv db'.
Proof.
  intros Ha Hst Hsub Hw HG. eapply gen_advance; try done.
  - intros id x. destruct Hw as [->|(w & w' & Hwr & (_ & _ & Hv & _) & ->)]; [apply HG|].
    rewrite lookup_insert_Some. intros [[<- <-]|[? Hx]]; [rewrite Hv|]; by apply HG.
  - intros id Hne. destruct Hw as [->|(w & w' & _ & _ & ->)]; [done|]. by rewrite lookup_insert_ne.
Qed.

Ltac same_proposals :=
  match goal with H : db_proposals _ = db_proposals _ |- _ => by rewrite H end.

Lemma ledger_step_generations db db' :
  ledger_step db db' → ConsentInv db → GenInv db → GenInv db'.
Proof.
  intros Hs HC HG. destruct Hs.
  - apply gen_quiet with db; rewrite ?H17, ?H18; try done.
    + intros id _. rewrite (generation_snoc _ _ _ _ H3). unfold generation_event.
      rewrite H10. simpl. case_decide; lia.
    + intros id w Hw. destruct (con_write _ HC _ _ Hw) as (_ & _ & ?).
      rewrite H1, lookup_insert_is_Some'. by right.
    + intros id x. rewrite H1, lookup_insert_Some. intros [[<- <-]|[? ?]]; [congruence|eauto].
    + intros p _ Hp. rewrite H1, lookup_insert_is_Some'. by right.
  - eapply gen_advance_same; try done; [congruence|same_proposals|by left].
  - eapply gen_advance_same; try done; [|same_proposals|by left].
    pose proof (adv_edge _ _ _ _ _ H) as He. rewrite H0 in He. by destruct (run_st r').
  - eapply gen_advance_same; try done; [|same_proposals|by left]. destruct H0; congruence.
  - by eapply gen_propose.
  - eapply gen_advance_same; try done; [|same_proposals|by left]. destruct H1; congruence.
  - eapply gen_advance; try done; [congruence|same_proposals| |].
    + intros id x. rewrite H22, lookup_insert_Some. intros [[<- <-]|[? Hx]]; [|by apply HG].
      rewrite H13. destruct (gen_proposals _ HG _ H2) as (_ & _ & Hb). rewrite H3 in Hb. lia.
    + intros id Hne. by rewrite H22, lookup_insert_ne.
  - eapply gen_advance_same; try done; [congruence| |].
    + rewrite H5. apply sublist_filter.
    + destruct (decide (r.(run_st) = RWriteAuthorized)) as [Hst|Hst].
      * destruct H1 as (w & w' & ? & ? & ? & ? & ? & ? & ? & ?); [done|]. right. eauto.
      * left. by apply H2.
  - subst. apply gen_quiet with db; simpl; try done; [|apply sublist_filter|eauto].
    intros id' w Hw. by destruct (con_write _ HC _ _ Hw) as (_ & _ & ?).
  - eapply gen_advance_same; try done; [|same_proposals|right; eauto].
    intros Heq. by rewrite Heq in H2.
  - subst. apply gen_quiet with db; simpl; try done.
    + intros id w Hw. destruct (con_write _ HC _ _ Hw) as (_ & _ & ?).
      rewrite lookup_insert_is_Some'. by right.
    + intros id x. rewrite lookup_insert_Some. intros [[<- <-]|[? ?]]; [|eauto].
      intros _. exists r. by split_and!.
    + intros p _ Hp. rewrite lookup_insert_is_Some'. by right.
  - subst. apply gen_quiet with db; try done.
    + intros id [x Hx]. apply generation_same. rewrite purge_events_of. rewrite purge_runs in Hx.
      by case_decide.
    + apply map_filter_subseteq.
    + intros id w. rewrite purge_writes, purge_runs. case_decide; [done|]. intros Hw.
      by destruct (con_write _ HC _ _ Hw) as (_ & _ & ?).
    + apply sublist_filter.
    + intros id x. rewrite purge_runs. case_decide; [done|]. eauto.
    + intros p Hp Hr. simpl in Hp. rewrite elem_of_filter_gone, purged_spec in Hp.
      rewrite purge_runs, decide_False; [done|tauto].
  - subst. apply gen_quiet with db; simpl; try done; [|eauto].
    intros id w Hw. by destruct (con_write _ HC _ _ Hw) as (_ & _ & ?).
Qed.
