(* ===== verification/AutomationReach.v ===== *)
(** * Reachable automation stores

    The transactions of the store as one step relation, what they refine, and
    the invariant of every store reachable from an empty one. *)

From S2P Require Export AutomationInvariant.
From stdpp Require Import options.

Local Open Scope Z_scope.

Record Inv (db : Db) : Prop := {
  inv_log_part : LogInv db;
  inv_attempts : AttemptInv db;
  inv_consent : ConsentInv db;
  inv_pairs : PairInv db;
  inv_generations : GenInv db }.

(** A store with no automation rows. *)
Definition empty_db (s : SourceTables) : Db := {|
  db_runs := ∅; db_identities := ∅; db_events := []; db_extractions := [];
  db_proposals := []; db_writes := ∅; db_sources := s |}.

Lemma empty_inv s : Inv (empty_db s).
Proof.
  split; constructor; simpl; unfold keyed; simpl;
    try (intros; rewrite ?lookup_empty in *; done); try (intros; set_solver);
    try apply NoDup_nil_2.
Qed.

Lemma ledger_step_inv db db' : ledger_step db db' → Inv db → Inv db'.
Proof.
  intros Hs [HL HA HC HP HG]. constructor.
  - by eapply ledger_step_log_inv.
  - by eapply ledger_step_attempts.
  - by eapply write_step_consent; [apply ledger_write_step|].
  - by eapply write_step_pairs; [apply ledger_write_step|..].
  - by eapply ledger_step_generations.
Qed.

Lemma ledger_steps_inv db db' : rtc ledger_step db db' → Inv db → Inv db'.
Proof. induction 1; eauto using ledger_step_inv. Qed.

(** [uuid.uuid4()]: an identifier no event has used. *)
Definition fresh_transaction (db : Db) (txn : text) : Prop :=
  ∀ o, o ∈ db.(db_events) → o.(ev_transaction_id) ≠ Some txn.

Section Steps.
Context `{Unicode} `{AddressLib} `{Zones}.

(** One committed transaction of the store, or a change of the source tables by
    another component. *)
Inductive store_step (db db' : Db) : Prop :=
| SAdmit prov acct principal pmid mid created expires id eid :
    admit_scheduling_automation db prov acct principal pmid mid created expires id eid = Ret db' →
    store_step db db'
| SMarkUnavailable ids eids at_ cause n :
    mark_automation_sources_unavailable db ids eids at_ cause = Ret (db', n) → store_step db db'
| SPurge now : db' = purge_expired_automation_tombstones db now → store_step db db'
| SReserve id v sha ctx tz lim org now pid qid eid x :
    reserve_automation_extraction db id v sha ctx tz lim org now pid qid eid = Ret (x, db') →
    store_step db db'
| SFailure id v pid code retryable delay stamp eid r :
    record_automation_extraction_failure db id v pid code retryable delay stamp eid = Ret (r, db') →
    store_step db db'
| SResult id v pid sha result violations accepted code now eid r :
    record_automation_extraction db id v pid sha result violations accepted code now eid
      = Ret (r, db') → store_step db db'
| SReview id v next failure now eid r :
    transition_automation_to_review db id v next failure now eid = Ret (r, db') → store_step db db'
| SAcknowledge id v stamp b :
    acknowledge_automation_review db id v stamp = Ret (b, db') → store_step db db'
| SPropose id v xid req subj att start end_ tz why empty obs pid eid r :
    record_automation_proposal db id v xid req subj att start end_ tz why empty obs pid eid
      = Ret (r, db') → store_step db db'
| SDecide id v pv sha decision wa now txn eid res :
    fresh_transaction db txn →
    decide_automation_proposal db id v pv sha decision wa now txn eid = Ret (res, db') →
    store_step db db'
| SBegin id v now eid res :
    begin_automation_calendar_write db id v now eid = Ret (res, db') → store_step db db'
| STransition id v next failure gid now eid r :
    transition_automation_calendar_write db id v next failure gid now eid = Ret (r, db') →
    store_step db db'
| SSources s : db' = set_sources db s → store_step db db'.

Definition reachable (db : Db) : Prop := ∃ s, rtc store_step (empty_db s) db.

Lemma refine_or db db' : db' = db ∨ ledger_step db db' → rtc ledger_step db db'.
Proof. intros [->|Hs]; [done|by apply rtc_once]. Qed.

Lemma store_step_ledger db db' : keyed db → store_step db db' → rtc ledger_step db db'.
Proof.
  intros Hk Hs. destruct Hs; subst.
  - by apply refine_or; eapply admit_refines.
  - by eapply mark_unavailable_refines.
  - by eapply rtc_once, LPurge.
  - by apply refine_or; eapply reserve_refines.
  - by eapply rtc_once, failure_refines.
  - by eapply rtc_once, result_refines.
  - by eapply rtc_once, review_refines.
  - by apply refine_or; eapply acknowledge_refines.
  - by eapply rtc_once, proposal_refines.
  - by apply refine_or; eapply decide_refines.
  - by apply refine_or; eapply begin_refines.
  - by eapply rtc_once, transition_write_refines.
  - by eapply rtc_once, LSources.
Qed.

Lemma store_step_inv db db' : store_step db db' → Inv db → Inv db'.
Proof.
  intros Hs HI. eapply ledger_steps_inv; [|done]. apply store_step_ledger; [apply HI|done].
Qed.

Lemma store_steps_inv db db' : rtc store_step db db' → Inv db → Inv db'.
Proof. induction 1; eauto using store_step_inv. Qed.

Lemma store_steps_ledger db db' : rtc store_step db db' → Inv db → rtc ledger_step db db'.
Proof.
  induction 1 as [|db db1 db' Hs _ IH]; intros HI; [done|].
  etrans; [apply store_step_ledger; [apply HI|done]|]. apply IH. by eapply store_step_inv.
Qed.

Lemma reachable_store_inv db : reachable db → Inv db.
Proof. intros (s & Hs). eapply store_steps_inv; [done|apply empty_inv]. Qed.

End Steps.

(** ** Histories of one run *)

Lemma ledger_step_identities db db' id :
  ledger_step db db' → is_Some (db.(db_identities) !! id) →
  is_Some (db'.(db_identities) !! id).
Proof.
  intros Hs Hi. destruct (ledger_step_log _ _ Hs) as
    [(r & e & i & _ & _ & _ & HI' & _)|[(r & r' & e & Ha)|[(_ & HI' & _)|(now & ->)]]].
  - rewrite HI', lookup_insert_is_Some'. by right.
  - by rewrite (adv_identities _ _ _ _ _ Ha).
  - by rewrite HI'.
  - done.
Qed.

(** A run that is gone never comes back: its id stays in the identity table. *)
Lemma ledger_step_gone db db' id :
  ledger_step db db' → is_Some (db.(db_identities) !! id) → db.(db_runs) !! id = None →
  db'.(db_runs) !! id = None.
Proof.
  intros Hs [x Hi] Hr. destruct (ledger_step_log _ _ Hs) as
    [(r & e & i & _ & Hid & HR & _)|[(r & r' & e & Ha)|[(_ & _ & HR)|(now & ->)]]].
  - rewrite HR, lookup_insert_ne; congruence.
  - rewrite (adv_runs _ _ _ _ _ Ha), lookup_insert_ne; [done|].
    pose proof (adv_found _ _ _ _ _ Ha). congruence.
  - destruct HR as [->|(r & r' & Hr' & -> & _)]; [done|]. rewrite lookup_insert_ne; congruence.
  - rewrite purge_runs. by case_decide.
Qed.

Lemma gone_steps db db' id :
  rtc ledger_step db db' → is_Some (db.(db_identities) !! id) → db.(db_runs) !! id = None →
  db'.(db_runs) !! id = None.
Proof.
  induction 1 as [|db db1 db' Hs _ IH]; intros Hi Hr; [done|]. apply IH.
  - by eapply ledger_step_identities.
  - by eapply ledger_step_gone.
Qed.

(** As long as a run is present its log only grows. *)
Lemma ledger_step_prefix db db' id r :
  ledger_step db db' → Inv db → db.(db_runs) !! id = Some r → is_Some (db'.(db_runs) !! id) →
  events_of db id `prefix_of` events_of db' id.
Proof.
  intros Hs _ Hr Hr'. destruct (ledger_step_log _ _ Hs) as
    [(x & e & i & _ & _ & _ & _ & HE & _)|[(x & x' & e & Ha)|[(HE & _)|(now & ->)]]].
  - rewrite (events_of_snoc _ _ _ _ HE). case_decide; [by eexists|done].
  - rewrite (events_of_snoc _ _ _ _ (adv_events _ _ _ _ _ Ha)). case_decide; [by eexists|done].
  - by rewrite (events_of_same _ _ _ HE).
  - rewrite purge_events_of. rewrite purge_runs in Hr'. case_decide; [by destruct Hr'|done].
Qed.

Lemma ledger_steps_prefix db db' id r :
  rtc ledger_step db db' → Inv db → db.(db_runs) !! id = Some r → is_Some (db'.(db_runs) !! id) →
  events_of db id `prefix_of` events_of db' id.
Proof.
  intros Hs. revert r. induction Hs as [|db db1 db' Hs1 Hs IH]; intros r HI Hr Hr'; [done|].
  destruct (db_runs db1 !! id) as [r1|] eqn:E1.
  - etrans; [eapply ledger_step_prefix; eauto|]. eapply IH; eauto using ledger_step_inv.
  - exfalso. assert (is_Some (db_identities db1 !! id)) as Hi.
    { eapply ledger_step_identities; [done|]. eapply inv_identity; [apply HI|done]. }
    eapply gone_steps in Hs; [|done|done]. rewrite Hs in Hr'. by destruct Hr'.
Qed.
