(* ===== verification/AutomationTheorems.v ===== *)
(** * Correctness of the calendar automation

    The statements about every reachable store: its event log, consent, the retry
    budget, settled runs, expiry and cancellation. *)

From S2P Require Export AutomationReach.
From stdpp Require Import options.

Local Open Scope Z_scope.

(** ** Reading a log that is in order *)

Lemma log_ordered r es : log_ok r es → order_by ev_sequence_no es = es.
Proof.
  intros [_ _ Hent]. apply order_by_sorted. intros i j x y Hx Hy Hij.
  apply Hent in Hx as [-> _]. apply Hent in Hy as [-> _]. lia.
Qed.

(** ** Settled runs *)

Definition settled (s : run_state) : bool :=
  match s with RCompleted | RFailed | RDeclined => true | _ => false end.

Lemma settled_no_edge s s' : settled s = true → run_edge s s' = false.
Proof. by destruct s. Qed.

(** Every row of run [id] is the same in both stores. *)
Definition untouched (db db' : Db) (id : text) : Prop :=
  db'.(db_runs) !! id = db.(db_runs) !! id ∧ events_of db' id = events_of db id ∧
  extraction_rows db' id = extraction_rows db id ∧ proposals_of db' id = proposals_of db id ∧
  db'.(db_writes) !! id = db.(db_writes) !! id.

(** Its state, log and calendar write are. *)
Definition unmoved (db db' : Db) (id : text) : Prop :=
  (λ r, (run_st r, run_version r)) <$> db'.(db_runs) !! id =
    (λ r, (run_st r, run_version r)) <$> db.(db_runs) !! id ∧
  events_of db' id = events_of db id ∧ db'.(db_writes) !! id = db.(db_writes) !! id.

Lemma untouched_unmoved db db' id : untouched db db' id → unmoved db db' id.
Proof. intros (H1 & H2 & _ & _ & H5). unfold unmoved. by rewrite H1. Qed.

Lemma advance_other db db' r r' e id :
  advance db db' r r' e → id ≠ rid r →
  db'.(db_runs) !! id = db.(db_runs) !! id ∧ events_of db' id = events_of db id.
Proof.
  intros Ha Hne. rewrite (adv_runs _ _ _ _ _ Ha), (events_of_snoc _ _ _ _ (adv_events _ _ _ _ _ Ha)).
  rewrite (ef_run_id _ _ _ (adv_event _ _ _ _ _ Ha)), decide_False by (unfold rid in *; congruence).
  by rewrite lookup_insert_ne by (unfold rid in *; congruence).
Qed.

(** The payload tables of another run after a payload statement on run [id]. *)
Inductive payload_change {A} (key : A → text) (id : text) (l : list A) : list A → Prop :=
| PKeep : payload_change key id l l
| PAdd x : key x = id → payload_change key id l (l ++ [x])
| PDropped : payload_change key id l (List.filter (fun x => negb (bool_decide (key x = id))) l)
| PMap f : (∀ x, key (f x) = key x) → (∀ x, key x ≠ id → f x = x) →
    payload_change key id l (f <$> l).

Lemma payload_change_other {A} (key : A → text) id l l' id' :
  payload_change key id l l' → id' ≠ id → rows key l' id' = rows key l id'.
Proof.
  intros Hc Hne. destruct Hc as [|x Hx| |f Hk Hf].
  - done.
  - rewrite rows_snoc, decide_False; [done|congruence].
  - rewrite rows_drop. by rewrite decide_False.
  - rewrite rows_map by done.
    assert (∀ x, x ∈ rows key l id' → f x = x) as Hid.
    { intros x Hx. apply elem_of_rows in Hx as [_ Hx]. apply Hf. congruence. }
    clear -Hid. induction (rows key l id') as [|x r IH]; csimpl; [done|].
    rewrite Hid by (by left). f_equal. apply IH. intros y Hy. apply Hid. by right.
Qed.

Definition write_change (id : text) (m m' : gmap text AutomationCalendarWrite) : Prop :=
  ∀ id', id' ≠ id → m' !! id' = m !! id'.

(** A step in which run [r] advances leaves every other run alone. *)
Lemma advance_untouched db db' r r' e id :
  advance db db' r r' e →
  payload_change ex_run_id (rid r) db.(db_extractions) db'.(db_extractions) →
  payload_change pr_run_id (rid r) db.(db_proposals) db'.(db_proposals) →
  write_change (rid r) db.(db_writes) db'.(db_writes) →
  id ≠ rid r → untouched db db' id.
Proof.
  intros Ha Hx Hp Hw Hne. destruct (advance_other _ _ _ _ _ _ Ha Hne) as [H1 H2].
  split_and!; try done.
  - rewrite !extraction_rows_eq. by eapply payload_change_other.
  - rewrite !proposals_of_eq. by eapply payload_change_other.
  - by apply Hw.
Qed.

(** What a step does to run [id]. *)
Inductive touch (db db' : Db) (id : text) : Prop :=
| TUntouched : untouched db db' id → touch db db' id
| TAdvance r r' e : advance db db' r r' e → rid r = id → touch db db' id
| TAdmitted : db.(db_runs) !! id = None → is_Some (db'.(db_runs) !! id) → touch db db' id
| TQuiet : unmoved db db' id → touch db db' id
| TPurged now : purged db now id → db' = purge_expired_automation_tombstones db now →
    touch db db' id.

Lemma write_change_insert id w m : write_change id m (<[id := w]> m).
Proof. intros id' Hne. by rewrite lookup_insert_ne. Qed.

Lemma delete_extractions_change db id :
  payload_change ex_run_id id db.(db_extractions) (delete_extractions db id).(db_extractions).
Proof. apply PDropped. Qed.

Lemma delete_proposals_change db id :
  payload_change pr_run_id id db.(db_proposals) (delete_proposals db id).(db_proposals).
Proof. apply PDropped. Qed.

Lemma reserved_map_change pid id f l : keeps_attempt f →
  payload_change ex_run_id id l ((fun x => if reserved_hit pid id x then f x else x) <$> l).
Proof.
  intros Hf. apply PMap.
  - intros x. case_match; [apply Hf|done].
  - intros x Hne. unfold reserved_hit. rewrite (bool_decide_eq_false_2 (ex_run_id x = id)) by done.
    by rewrite andb_false_r.
Qed.

Lemma ledger_step_touch db db' id : ledger_step db db' → Inv db → touch db db' id.
Proof.
  intros Hs HI.
  assert (∀ r r' e, advance db db' r r' e →
    payload_change ex_run_id (rid r) db.(db_extractions) db'.(db_extractions) →
    payload_change pr_run_id (rid r) db.(db_proposals) db'.(db_proposals) →
    write_change (rid r) db.(db_writes) db'.(db_writes) → touch db db' id) as Hadv.
  { intros r r' e Ha Hx Hp Hw. destruct (decide (id = rid r)) as [->|Hne].
    - by eapply TAdvance.
    - by eapply TUntouched, advance_untouched. }
  assert (∀ {A} (key : A → text) i l l', l' = l → payload_change key i l l') as Hkeep
    by (intros ? ? ? ? ? ->; constructor).
  assert (∀ i m m', m' = m → write_change i m m') as Hwk by (intros ? ? ? -> ? ?; done).
  assert (∀ i w m m', m' = <[i := w]> m → write_change i m m') as Hwi
    by (intros ? ? ? ? ->; apply write_change_insert).
  destruct Hs.
  2: { eapply Hadv; eauto. rewrite H2. by apply PAdd. }
  2: { eapply Hadv; eauto. rewrite H5. by apply reserved_map_change. }
  2: { eapply Hadv; eauto. destruct H3 as [->| ->]; [constructor|apply delete_extractions_change]. }
  2: { eapply Hadv; eauto. rewrite H9. by apply PAdd. }
  2: { eapply Hadv; eauto. }
  2: { eapply Hadv; eauto. }
  2: { eapply Hadv; eauto.
       - rewrite H4. apply delete_extractions_change.
       - rewrite H5. apply delete_proposals_change.
       - destruct (decide (r.(run_st) = RWriteAuthorized)) as [Hst|Hst].
         + destruct H1 as (w & w' & ? & ? & ? & ? & ? & ? & ? & Hw); eauto.
         + apply Hwk. by apply H2. }
  2: { subst. by apply TQuiet. }
  2: { eapply Hadv; eauto. }
  - destruct (decide (id = rid r)) as [->|Hne].
    + apply TAdmitted; [done|]. by rewrite H1, lookup_insert_eq.
    + apply TUntouched. split_and!.
      * by rewrite H1, lookup_insert_ne.
      * rewrite (events_of_snoc _ _ _ _ H3). by rewrite decide_False by congruence.
      * by rewrite !extraction_rows_eq, H16.
      * by rewrite !proposals_of_eq, H17.
      * by rewrite H18.
  - subst. apply TQuiet. split_and!; [|done..]. simpl.
    destruct (decide (id = rid r)) as [->|]; [by rewrite lookup_insert_eq, H|].
    by rewrite lookup_insert_ne.
  - subst. destruct (decide (purged db now id)) as [Hp|Hp]; [by eapply TPurged|].
    apply TUntouched. split_and!; unfold extraction_rows, proposals_of;
      rewrite ?purge_runs, ?purge_events_of, ?purge_writes, ?decide_False by done; try done.
    all: simpl; rewrite filter_gone, decide_False; [done|by rewrite purged_spec].
  - subst. by apply TUntouched.
Qed.

Lemma settled_step db db' id r :
  ledger_step db db' → Inv db → db.(db_runs) !! id = Some r → settled r.(run_st) = true →
  unmoved db db' id ∨ db'.(db_runs) !! id = None.
Proof.
  intros Hs HI Hr Hset. destruct (ledger_step_touch _ _ id Hs HI) as
    [Hu|r0 r' e Ha Hid|Hn _|Hq|now Hp ->].
  - left. by apply untouched_unmoved.
  - exfalso. pose proof (adv_found _ _ _ _ _ Ha) as Hf. pose proof (adv_edge _ _ _ _ _ Ha) as He.
    unfold rid in Hid. rewrite Hid, Hr in Hf. simplify_eq. by rewrite settled_no_edge in He.
  - congruence.
  - by left.
  - right. by rewrite purge_runs, decide_True.
Qed.

Lemma settled_steps db db' id r :
  rtc ledger_step db db' → Inv db → db.(db_runs) !! id = Some r → settled r.(run_st) = true →
  is_Some (db'.(db_runs) !! id) → unmoved db db' id.
Proof.
  intros Hs. revert r. induction Hs as [|db db1 db' Hs1 Hs IH]; intros r HI Hr Hset Hr'; [done|].
  destruct (settled_step _ _ _ _ Hs1 HI Hr Hset) as [Hu|Hn].
  - destruct Hu as (H1 & H2 & H3). rewrite Hr in H1.
    destruct (db_runs db1 !! id) as [r1|] eqn:E1; [|done]. simplify_eq/=.
    destruct (IH r1) as (G1 & G2 & G3); try done; [by eapply ledger_step_inv|congruence|].
    unfold unmoved. rewrite G1, G2, G3, H2, H3, E1, Hr. simpl. by split_and!; try congruence.
  - exfalso. assert (is_Some (db_identities db1 !! id)) as Hi.
    { eapply ledger_step_identities; [done|]. eapply inv_identity; [apply HI|done]. }
    eapply gone_steps in Hs; [|done|done]. rewrite Hs in Hr'. by destruct Hr'.
Qed.

Section Reachable.
Context `{Unicode} `{AddressLib} `{Zones}.

(** C33: every store reachable by the store's transactions satisfies the
    automation invariant: complete event logs, numbered attempts, writes that agree
    with their run and carry consent, proposal versions bounded by generations. *)
Theorem reachable_inv (db : Db) (Hr : reachable db) : Inv db.
Proof. by apply reachable_store_inv. Qed.

(** C34: every committed transaction of the store makes only steps of the ledger
    specification. *)
Theorem store_refines_ledger (db db' : Db) (Hr : reachable db) (Hs : store_step db db') :
  rtc ledger_step db db'.
Proof. apply store_step_ledger; [|done]. by apply reachable_store_inv. Qed.

(** [automation_events] returns a complete audit trail: one event per version,
    numbered without gaps, each starting where the previous one ended along an edge
    of the state machine, the last one ending in the run's current state. *)
Theorem event_log_complete (db : Db) (id : text) (r : AutomationRun)
    (Hr : reachable db) (Hrun : db.(db_runs) !! id = Some r) :
  automation_events db id = events_of db id ∧ log_ok r (automation_events db id).
Proof.
  apply reachable_store_inv in Hr. pose proof (inv_log _ (inv_log_part _ Hr) _ _ Hrun) as Hlog.
  unfold automation_events. by rewrite (log_ordered _ _ Hlog).
Qed.

(** C2: no calendar write without consent: every row of the write table has a run
    whose log holds the user's confirmation of exactly the proposal hash and
    transaction the row carries; the run's state is the one the row's status names,
    and a run outside the writing states has at most a cancelled row. *)
Theorem write_has_consent (db : Db) (id : text) (w : AutomationCalendarWrite)
    (Hr : reachable db) (Hw : db.(db_writes) !! id = Some w) :
  ∃ r a, db.(db_runs) !! id = Some r ∧ a ∈ automation_events db id ∧ consent a w ∧
    (w.(wr_status) = WCancelled ∧ write_status_of r.(run_st) = None ∨
     write_status_of r.(run_st) = Some w.(wr_status)).
Proof.
  apply reachable_store_inv in Hr. destruct (inv_consent _ Hr) as [H1' H2' H3' _ _].
  destruct (H1' _ _ Hw) as (_ & _ & [r Hrun]). destruct (H3' _ _ Hw) as (a & Ha & Hc).
  exists r, a. split_and!; try done.
  - unfold automation_events. by rewrite order_by_perm.
  - specialize (H2' _ _ Hrun). unfold write_agrees in H2'. rewrite Hw in H2'.
    destruct (write_status_of (run_st r)) as [s|].
    + destruct H2' as (x & [= <-] & <-). by right.
    + left. split; [by apply H2'|done].
Qed.

(** The retry budget: a run never has more than two extraction attempts, they
    are numbered 1 and 2, the first of two is rejected, and at most one attempt is
    accepted. *)
Theorem extraction_budget (db : Db) (id : text) (Hr : reachable db) :
  (length (extractions_of db id) <= 2)%nat ∧
  (∀ i x, extractions_of db id !! i = Some x → x.(ex_attempt_no) = Z.of_nat i + 1) ∧
  (∀ x y, x ∈ extractions_of db id → y ∈ extractions_of db id →
     x.(ex_status) = XAccepted → y.(ex_status) = XAccepted → x = y).
Proof.
  apply reachable_store_inv in Hr. pose proof (att_rows _ (inv_attempts _ Hr) id) as Hok.
  unfold extractions_of. rewrite (attempts_ordered _ Hok). split_and!.
  - by apply attempts_bound.
  - intros i x Hx. by apply Hok in Hx as [? _].
  - intros x y Hx Hy Sx Sy. apply list_elem_of_lookup in Hx as [i Hi], Hy as [j Hj].
    pose proof (lookup_lt_Some _ _ _ Hi). pose proof (lookup_lt_Some _ _ _ Hj).
    destruct (Hok _ _ Hi) as (_ & _ & Ri), (Hok _ _ Hj) as (_ & _ & Rj).
    destruct (decide (i = j)) as [->|]; [congruence|].
    destruct (decide (i < j)%nat); [rewrite Ri in Sx by lia|rewrite Rj in Sy by lia]; done.
Qed.

(** Settled runs are final: no transaction of the store changes the state, the
    log or the calendar write of a completed, failed or declined run that it does
    not purge. *)
Theorem settled_run_final (db db' : Db) (id : text) (r : AutomationRun)
    (Hr : reachable db) (Hs : store_step db db') (Hrun : db.(db_runs) !! id = Some r)
    (Hset : settled r.(run_st) = true) (Hkept : is_Some (db'.(db_runs) !! id)) :
  unmoved db db' id.
Proof.
  apply reachable_store_inv in Hr. eapply settled_steps; try done.
  apply store_step_ledger; [apply Hr|done].
Qed.

(** ** Cancelled admissions *)

Lemma cancellation_event_some (db : Db) (id : text) (r : AutomationRun) (v : Z)
    (sha : option text) (a c : AutomationEvent) :
  LogInv db → db.(db_runs) !! id = Some r →
  a ∈ db.(db_events) → c ∈ db.(db_events) → cancelled_pair id v sha a c = true →
  cancellation_event db id v sha = Some c.
Proof.
  intros HL Hrun Ha Hc Hpair. unfold cancellation_event.
  destruct (List.find _ _) as [[a' c']|] eqn:Hf; simpl.
  - apply find_some in Hf as [Hin Hp]. apply in_prod_iff in Hin as [Ha' Hc'].
    rewrite <- list_elem_of_In in Ha', Hc'. f_equal.
    unfold cancelled_pair in Hpair, Hp. bools.
    eapply log_version_unique; [by eapply (inv_log _ HL)|..]; rewrite ?elem_of_events_of;
      try (split; [done|congruence]). lia.
  - exfalso. pose proof (find_none _ _ Hf (a, c)) as Hn. simpl in Hn.
    rewrite Hn in Hpair; [done|]. apply in_prod; by apply list_elem_of_In.
Qed.

(** What [_cancelled_calendar_admission] returns for a logged cancellation. *)
Lemma cancelled_admission_replays (db : Db) (id : text) (r : AutomationRun) (v : Z)
    (sha : option text) (pv : option Z) (a c : AutomationEvent) :
  Inv db → db.(db_runs) !! id = Some r →
  a ∈ db.(db_events) → c ∈ db.(db_events) → cancelled_pair id v sha a c = true →
  opt_all (fun p => p =? calendar_proposal_generation db id (Some v)) pv = true →
  cancelled_calendar_admission db r v sha pv =
    Ret (Some (CancelledResult (cancelled_run r c)
      (calendar_write_outcome id c.(ev_state_version) c.(ev_transaction_id)
         WCancelled c.(ev_failure_code) None))).
Proof.
  intros HI Hrun Ha Hc Hpair Hpv. pose proof (inv_log_part _ HI) as HL.
  pose proof (inv_keyed _ HL _ _ Hrun) as Hid. unfold cancelled_calendar_admission.
  rewrite Hid, (cancellation_event_some db id r v sha a c) by done. rewrite Hpv.
  pose proof Hpair as Hp. unfold cancelled_pair in Hp. bools.
  destruct (con_ledger _ (inv_consent _ HI) a) as [w Hw]; [done|done|].
  replace (ev_run_id a) with id in Hw by done. rewrite Hw. simpl.
  destruct (bool_decide (ev_transaction_id c = Some (wr_transaction_id w))) eqn:Etx; [|done].
  bools. destruct (con_cancelled _ (inv_consent _ HI) c w) as [Hst Hfc]; try done.
  { congruence. }
  rewrite Hst, Hfc. by rewrite !bool_decide_eq_true_2.
Qed.

(** A cancelled admission is never handed off: as long as the run exists, and
    whatever happened since, [begin_automation_calendar_write] for the version of a
    confirmed admission that was cancelled returns the cancellation and changes
    nothing. *)
Theorem cancelled_begin_replays (db : Db) (id : text) (r : AutomationRun) (v now : Z)
    (eid : text) (a c : AutomationEvent)
    (Hr : reachable db) (Hrun : db.(db_runs) !! id = Some r)
    (Ha : a ∈ automation_events db id) (Hc : c ∈ automation_events db id)
    (Hpair : cancelled_pair id v None a c = true) :
  begin_automation_calendar_write db id v now eid =
    Ret (CancelledResult (cancelled_run r c)
      (calendar_write_outcome id (v + 1) a.(ev_transaction_id) WCancelled
         c.(ev_failure_code) None), db).
Proof.
  apply reachable_store_inv in Hr. pose proof (inv_log_part _ Hr) as HL.
  unfold automation_events in Ha, Hc. rewrite order_by_perm, elem_of_events_of in Ha, Hc.
  destruct Ha as [Ha Hia], Hc as [Hc Hic].
  assert (1 <= a.(ev_state_version)) as Hpos.
  { eapply log_versions; [by eapply (inv_log _ HL)|]. by rewrite elem_of_events_of. }
  pose proof (cancelled_admission_replays _ id _ _ _ None a c Hr Hrun Ha Hc Hpair eq_refl) as Hres.
  unfold cancelled_pair in Hpair. bools. unfold begin_automation_calendar_write.
  rewrite (proj2 (Z.leb_le 1 v)), Hrun by lia. simpl. rewrite Hres. simpl.
  replace (ev_state_version c) with (v + 1) by lia.
  destruct (ev_transaction_id c), (ev_transaction_id a); simplify_eq/=; bools; by subst.
Qed.

End Reachable.
