(* ===== verification/CalendarTheorems.v ===== *)
(** * Consent and the calendar write

    What a decision on a proposal does, case by case, and the theorems about
    expiry, replay, progress and cancellation that follow. *)

From S2P Require Export AutomationTheorems.
From stdpp Require Import options.

Local Open Scope Z_scope.

(** The stored times of a proposal, as instants. *)
Definition stored_instant `{Zones} (value : option text) : option Z :=
  t ← value; d ← fromisoformat t; py_option (to_utc d).

(** The proposal is open at [stamp]: the run lives, and neither the proposal's
    expiry nor its start has come. *)
Definition proposal_open `{Zones} (r : AutomationRun) (p : AutomationProposalPayload)
    (stamp : Z) : Prop :=
  run_live r stamp = true ∧
  ∃ expires_at start_at, stored_instant p.(pr_expires_at) = Some expires_at ∧
    stored_instant p.(pr_start) = Some start_at ∧ stamp < expires_at ∧ stamp < start_at.

(** The proposal a decision is about: the run's current one. *)
Definition current_proposal (db : Db) (r : AutomationRun) (v pv : Z) (sha : text)
    (p : AutomationProposalPayload) : Prop :=
  p ∈ db.(db_proposals) ∧ p.(pr_run_id) = rid r ∧ p.(pr_proposal_version) = pv ∧
  p.(pr_proposal_sha256) = sha ∧ p.(pr_status) = PAccepted ∧
  r.(run_st) = RAwaitingConfirmation ∧ r.(run_version) = v ∧
  r.(run_current_payload_id) = Some p.(pr_payload_id) ∧
  r.(run_current_payload_sha256) = Some sha.

(** The four outcomes of a confirmation that returns. *)
Inductive confirmation `{Zones} (db db' : Db) (r : AutomationRun) (v pv : Z) (sha : text)
    (wa : bool) (stamp : Z) (txn : text) : write_result → Prop :=
| CReplayCancelled run outcome :
    cancelled_calendar_admission db r (v + 1) (Some sha) (Some pv) =
      Ret (Some (CancelledResult run outcome)) →
    db' = db → confirmation db db' r v pv sha wa stamp txn (CancelledResult run outcome)
| CReplayWrite w :
    db.(db_writes) !! rid r = Some w → w.(wr_proposal_version) = pv →
    w.(wr_proposal_sha256) = sha → w.(wr_status) ≠ WCancelled →
    db' = db → confirmation db db' r v pv sha wa stamp txn (RunResult r)
| CExpired p r' e :
    current_proposal db r v pv sha p → ¬ proposal_open r p stamp →
    advance db db' r r' e → r'.(run_st) = RProposing →
    r'.(run_failure_code) = Some (str "proposal_expired") →
    db'.(db_writes) = db.(db_writes) →
    confirmation db db' r v pv sha wa stamp txn (RunResult r')
| CAuthorized p r' e w :
    current_proposal db r v pv sha p → proposal_open r p stamp → wa = true →
    advance db db' r r' e → r'.(run_st) = RWriteAuthorized →
    event_says e None (Some p.(pr_payload_id)) (Some sha) (Some DConfirmed) (Some txn) →
    (∀ w0, db.(db_writes) !! rid r = Some w0 → w0.(wr_status) = WCancelled) →
    w.(wr_transaction_id) = txn → w.(wr_proposal_version) = pv → w.(wr_proposal_sha256) = sha →
    w.(wr_status) = WAuthorized → Some w.(wr_start) = p.(pr_start) →
    Some w.(wr_end) = p.(pr_end) → Some w.(wr_timezone) = p.(pr_timezone) →
    db'.(db_writes) = <[rid r := w]> db.(db_writes) →
    confirmation db db' r v pv sha wa stamp txn (RunResult r').

Lemma commit_decision_result db row p sha eff stamp eid res db' db0 :
  keyed db0 → db0.(db_runs) !! rid row = Some row →
  db.(db_runs) = db0.(db_runs) → db.(db_events) = db0.(db_events) →
  db.(db_identities) = db0.(db_identities) → db.(db_sources) = db0.(db_sources) →
  row.(run_st) = RAwaitingConfirmation →
  run_edge RAwaitingConfirmation eff.(de_next_state) = true →
  commit_decision db row p sha eff stamp eid = Ret (res, db') →
  ∃ r' e, res = RunResult r' ∧ advance db0 db' row r' e ∧ r'.(run_st) = eff.(de_next_state) ∧
    r'.(run_failure_code) = eff.(de_failure_code) ∧
    event_says e eff.(de_failure_code) (Some p.(pr_payload_id)) (Some sha)
      eff.(de_event_decision) eff.(de_transaction_id) ∧
    db'.(db_writes) = db.(db_writes).
Proof.
  unfold rid. intros Hk Hrow Hr He Hi Hs Hst Hedge Hop. unfold commit_decision in Hop.
  peel; simplify_eq. advance_from Hk Hrow.
  match goal with H : db_runs db' !! _ = Some ?x |- _ =>
    rewrite (adv_runs _ _ _ _ _ Hadv), lookup_insert_eq in H; injection H as <- end.
  do 2 eexists. split_and!; [done|exact Hadv|done..].
Qed.

Lemma decide_confirm_inv `{Zones} db id v pv sha wa now txn eid res db' :
  keyed db →
  decide_automation_proposal db id v pv sha (str "confirm") wa now txn eid = Ret (res, db') →
  ∃ r stamp, db.(db_runs) !! id = Some r ∧ astimezone_utc now = Ret stamp ∧
    confirmation db db' r v pv sha wa stamp txn res.
Proof.
  intros Hk Hop. unfold decide_automation_proposal in Hop.
  rewrite (bool_decide_eq_true_2 (str "confirm" = str "confirm")) in Hop by done.
  apply bind_ret_inv in Hop as ([] & _ & Hop). apply bind_ret_inv in Hop as ([] & _ & Hop).
  apply bind_ret_inv in Hop as ([] & _ & Hop). apply bind_ret_inv in Hop as (stamp & Hst & Hop).
  apply bind_ret_inv in Hop as (r & Hrow & Hop). apply require_some_ret_inv in Hrow.
  exists r, stamp. split_and!; try done. pose proof (Hk _ _ Hrow) as <-.
  apply bind_ret_inv in Hop as ([c|] & Hc & Hop).
  { simplify_eq. apply cancelled_admission_result in Hc as Hc'. destruct Hc' as (e & _ & ->).
    by eapply CReplayCancelled. }
  clear Hc. unfold decide_current in Hop. peel_in Hop.
  apply find_some_elem in Hsome as [Hin Hid]. lazy zeta in Hop.
  apply bind_ret_inv in Hop as (replay & Hreplay & Hop). destruct replay.
  { destruct (db_writes db !! _) as [w|] eqn:Ew; [|done]. peel; simplify_eq; guards.
    eapply CReplayWrite; try done. }
  clear Hreplay. peel_in Hop. guards.
  assert (current_proposal db r v pv sha a) as Hcur by (split_and!; done).
  apply bind_ret_inv in Hop as ([eff db1] & Heff & Hop).
  apply confirm_effect_inv in Heff as
    (start & end_ & tz & expires & start_at & expires_at & Hs & He & Ht & Hx & Hsi & Hxi & [Hl|Ho]);
    [| |done].
  - destruct Hl as (Hn & Hf & _ & _ & -> & Hclosed).
    apply (commit_decision_result _ _ _ _ _ _ _ _ _ db) in Hop as
      (r' & e & -> & Hadv & Hst' & Hf' & _ & Hw); try done; [|by rewrite Hn].
    eapply CExpired; try done; try congruence.
    intros (Hlive & x & s & Hx' & Hs' & ? & ?). unfold stored_instant in Hx', Hs'.
    rewrite Hx in Hx'. rewrite Hs in Hs'. simpl in Hx', Hs'. rewrite Hxi in Hx'.
    rewrite Hsi in Hs'. simplify_eq. destruct Hclosed as [Hc|[Hc|Hc]]; [congruence|lia..].
  - destruct Ho as (-> & Hlive & ? & ? & -> & Hold & _ & w & -> & _ & ->).
    apply (commit_decision_result _ _ _ _ _ _ _ _ _ db) in Hop as
      (r' & e & -> & Hadv & Hst' & Hf' & Hsays & Hw); try done.
    eapply CAuthorized; [..|exact Hw]; try done.
    split; [done|]. exists expires_at, start_at. unfold stored_instant.
    rewrite Hx, Hs. simpl. by rewrite Hxi, Hsi.
Qed.

(** A decline never touches the calendar writes. *)
Lemma decide_other_writes `{Zones} db id v pv sha decision wa now txn eid res db' :
  keyed db → decision ≠ str "confirm" →
  decide_automation_proposal db id v pv sha decision wa now txn eid = Ret (res, db') →
  db'.(db_writes) = db.(db_writes).
Proof.
  intros Hk Hd Hop. unfold decide_automation_proposal in Hop.
  rewrite (bool_decide_eq_false_2 (decision = str "confirm")) in Hop by done.
  peel; simplify_eq.
  match goal with H : db_runs db !! id = Some _ |- _ => rename H into Hrow end.
  pose proof (Hk _ _ Hrow) as <-. unfold decide_current in Hop. peel; simplify_eq; guards; try done.
  match goal with H : commit_decision ?d _ _ _ _ _ _ = Ret _ |- _ =>
    apply (commit_decision_result _ _ _ _ _ _ _ _ _ d) in H as (r' & e & _ & _ & _ & _ & _ & ->) end;
    done.
Qed.

Lemma decide_arguments `{Zones} db id v pv sha decision wa now txn eid res :
  decide_automation_proposal db id v pv sha decision wa now txn eid = Ret res →
  (1 <=? v) && (1 <=? pv) && len_is 64 sha = true.
Proof.
  intros Hop. unfold decide_automation_proposal in Hop.
  apply bind_ret_inv in Hop as ([] & _ & Hop). apply bind_ret_inv in Hop as ([] & Hreq & _).
  by apply require_ret_inv in Hreq.
Qed.

Section Theorems.
Context `{Unicode} `{AddressLib} `{Zones}.

(** C1: consent is the only way to a calendar write, and only while the proposal is
    open: a decision that changes the write table is a confirmation with write
    authorization of the run's current accepted proposal, made before the proposal's
    expiry, before its start and within the run's lifetime; the new row carries the
    proposal's hash, version and times. *)
Theorem authorization_needs_open_proposal (db db' : Db) (id : text) (v pv : Z)
    (sha decision : text) (wa : bool) (now : datetime) (txn eid : text) (res : write_result)
    (Hr : reachable db)
    (Hop : decide_automation_proposal db id v pv sha decision wa now txn eid = Ret (res, db'))
    (Hchanged : db'.(db_writes) ≠ db.(db_writes)) :
  decision = str "confirm" ∧ wa = true ∧
  ∃ r stamp p w, db.(db_runs) !! id = Some r ∧ astimezone_utc now = Ret stamp ∧
    current_proposal db r v pv sha p ∧ proposal_open r p stamp ∧
    db'.(db_writes) = <[id := w]> db.(db_writes) ∧ w.(wr_status) = WAuthorized ∧
    w.(wr_transaction_id) = txn ∧ w.(wr_proposal_version) = pv ∧ w.(wr_proposal_sha256) = sha ∧
    Some w.(wr_start) = p.(pr_start) ∧ Some w.(wr_end) = p.(pr_end).
Proof.
  apply reachable_store_inv in Hr. pose proof (inv_keyed _ (inv_log_part _ Hr)) as Hk.
  destruct (decide (decision = str "confirm")) as [->|Hne];
    [|by destruct Hchanged; eapply decide_other_writes].
  apply decide_confirm_inv in Hop as (r & stamp & Hrun & Hst & Hc); [|done].
  destruct Hc as [| |p r' e|p r' e w]; subst; try done.
  split_and!; try done. pose proof (Hk _ _ Hrun) as <-. exists r, stamp, p, w. by split_and!.
Qed.

(** Generations before a version depend only on the log up to it. *)
Lemma generation_before_prefix db0 db2 id r0 :
  LogInv db0 → db0.(db_runs) !! id = Some r0 →
  events_of db0 id `prefix_of` events_of db2 id →
  (∃ r2, log_ok r2 (events_of db2 id)) →
  calendar_proposal_generation db2 id (Some (r0.(run_version) + 1)) = generation db0 id.
Proof.
  intros HL Hr0 [l Hl] (r2 & [_ _ Hent]). unfold generation. rewrite !generation_events_of.
  rewrite Hl in *. destruct (inv_log _ HL _ _ Hr0) as [Hlen _ Hent0].
  f_equal. rewrite List.filter_app, length_app.
  assert (∀ e, e ∈ l → e.(ev_state_version) <? r0.(run_version) + 1 = false) as Hnew.
  { intros e He. apply list_elem_of_lookup in He as [i Hi].
    destruct (Hent (length (events_of db0 id) + i)%nat e) as (_ & V & _); [|lia].
    by rewrite lookup_app_r, Nat.add_comm, Nat.add_sub by lia. }
  assert (List.filter (fun e => generation_event e &&
            opt_all (fun v => e.(ev_state_version) <? v) (Some (r0.(run_version) + 1))) l = []) as ->.
  { clear -Hnew. induction l as [|e l IH]; csimpl; [done|].
    rewrite Hnew by (by left). rewrite andb_false_r. apply IH. intros x Hx. apply Hnew. by right. }
  simpl. rewrite Nat.add_0_r. f_equal.
  assert (∀ e, e ∈ events_of db0 id → e.(ev_state_version) <? r0.(run_version) + 1 = true) as Hold.
  { intros e He. pose proof (log_versions _ _ _ (inv_log _ HL _ _ Hr0) He). lia. }
  clear -Hold. induction (events_of db0 id) as [|e es IH]; csimpl; [done|].
  rewrite Hold by (by left). rewrite !andb_true_r.
  rewrite IH by (intros x Hx; apply Hold; by right). done.
Qed.

(** A confirmation and the cancellation that follows it form the pair
    [_cancelled_calendar_admission] looks for. *)
Lemma adjacent_pair db id v sha a c :
  Inv db → a ∈ events_of db id → c ∈ events_of db id →
  a.(ev_next_state) = RWriteAuthorized → a.(ev_transition_kind) = RWriteAuthorized →
  a.(ev_previous_state) = Some RAwaitingConfirmation → a.(ev_payload_sha256) = Some sha →
  a.(ev_state_version) = v → c.(ev_state_version) = v + 1 → cancels c →
  cancelled_pair id v (Some sha) a c = true ∧ c.(ev_transaction_id) = a.(ev_transaction_id).
Proof.
  intros HI Ha Hc Hn Hk Hp Hsha Hva Hvc Hcan.
  destruct (pair_follows _ (inv_pairs _ HI) id a c) as (Hd & [t Ht] & Htx & Hcc); try done; [lia|].
  destruct (Hcc Hcan) as (Hkind & cause & Hf). destruct Hcan as [Hcp Hcn]. split; [|done].
  apply elem_of_events_of in Ha as [_ Ha], Hc as [_ Hc].
  unfold cancelled_pair. rewrite Ha, Hc, Hn, Hk, Hp, Hsha, Hva, Hvc, Hd, Hcp, Hcn, Hkind, Hf, Htx, Ht.
  simpl. rewrite !bool_decide_eq_true_2, !Z.eqb_refl; try done. destruct cause; simpl; auto.
Qed.

(** Confirmations replay after cancellation: when a confirmation authorized a
    write and the very next event of the run cancelled it, the same confirmation
    sent again, in any later store in which the run still exists (even after a fresh
    proposal was made or confirmed), returns that cancellation and changes nothing. *)
Theorem cancelled_confirm_replays (db0 db1 db2 : Db) (id : text) (r0 r1 r2 : AutomationRun)
    (v pv : Z) (sha txn eid : text) (wa : bool) (now : datetime) (c : AutomationEvent)
    (wa' : bool) (now' : datetime) (stamp' : Z) (txn' eid' : text)
    (Hr : reachable db0) (Hfresh : fresh_transaction db0 txn)
    (Hr0 : db0.(db_runs) !! id = Some r0) (Hst0 : r0.(run_st) = RAwaitingConfirmation)
    (Hop : decide_automation_proposal db0 id v pv sha (str "confirm") wa now txn eid
             = Ret (RunResult r1, db1))
    (Hst1 : r1.(run_st) = RWriteAuthorized)
    (Hlater : rtc store_step db1 db2) (Hr2 : db2.(db_runs) !! id = Some r2)
    (Hc : c ∈ automation_events db2 id) (Hcv : c.(ev_state_version) = v + 2)
    (Hcancel : cancels c) (Hnow : astimezone_utc now' = Ret stamp') :
  decide_automation_proposal db2 id v pv sha (str "confirm") wa' now' txn' eid' =
    Ret (CancelledResult (cancelled_run r2 c)
      (calendar_write_outcome id (v + 2) (Some txn) WCancelled c.(ev_failure_code) None), db2).
Proof.
  apply reachable_store_inv in Hr. pose proof (inv_keyed _ (inv_log_part _ Hr)) as Hk.
  assert (store_step db0 db1) as Hstep by (by eapply SDecide).
  assert (Inv db2) as HI2 by (eapply store_steps_inv; [done|]; by eapply store_step_inv).
  pose proof (inv_log_part _ HI2) as HL2.
  assert (events_of db1 id `prefix_of` events_of db2 id) as Hpre.
  { assert (Inv db1) as HI1 by (by eapply store_step_inv).
    destruct (db_runs db1 !! id) as [x|] eqn:Ex.
    - eapply ledger_steps_prefix; eauto. by apply store_steps_ledger.
    - exists (events_of db2 id). by rewrite (events_of_absent _ _ (inv_log_part _ HI1) Ex). }
  pose proof (decide_arguments _ _ _ _ _ _ _ _ _ _ _ Hop) as Hargs.
  apply decide_confirm_inv in Hop as (r & stamp & Hrun & Hstamp & Hconf); [|done].
  rewrite Hr0 in Hrun. simplify_eq. inversion Hconf as [|w|p r' e|p r' e w Hcur ? ? Hadv Hst Hsays];
    simplify_eq; try congruence.
  destruct Hcur as (Hp & Hprid & Hpver & Hpsha & _ & _ & Hver & Hcid & _).
  pose proof (Hk _ _ Hr0) as Hid. unfold rid in Hprid. rewrite Hid in Hprid.
  pose proof (adv_event _ _ _ _ _ Hadv) as He. destruct Hsays as [_ _ Hsha _ Htx].
  rewrite (events_of_snoc _ _ _ _ (adv_events _ _ _ _ _ Hadv)), (ef_run_id _ _ _ He), decide_True in Hpre
    by done.
  assert (e ∈ events_of db2 id) as Hein.
  { destruct Hpre as [l ->]. rewrite !elem_of_app, list_elem_of_singleton. tauto. }
  unfold automation_events in Hc. rewrite order_by_perm in Hc.
  destruct (adjacent_pair db2 id (v + 1) w.(wr_proposal_sha256) e c) as [Hpair Htxc]; try done;
    try (destruct He; congruence || lia).
  apply elem_of_events_of in Hein as [Hein _], Hc as [Hc _].
  pose proof (cancelled_admission_replays db2 id r2 (v + 1) (Some w.(wr_proposal_sha256))
    (Some w.(wr_proposal_version)) e c HI2 Hr2 Hein Hc Hpair) as Hres. simpl in Hres.
  rewrite <- Hver, (generation_before_prefix db0 db2 id r) in Hres; try done; [|apply Hr| |].
  2: { etrans; [|exact Hpre]. by eexists. }
  2: { eexists. by eapply (inv_log _ HL2). }
  rewrite <- Hpver, (gen_current _ (inv_generations _ Hr) id r p), Z.eqb_refl, Hver in Hres by done.
  unfold decide_automation_proposal. rewrite Hargs, Hnow, Hr2.
  assert (is_some (dt_offset now') = true) as -> by (unfold astimezone_utc in Hnow; by case_match).
  simpl. rewrite <- Hpver, (gen_current _ (inv_generations _ Hr) id r p), Hres by done. simpl.
  rewrite Htxc, Htx, Hcv. done.
Qed.

(** No admission of version [v] was cancelled when the log stops before it, or when
    it belongs to a write that is still live. *)
Lemma not_cancelled db r v sha pv :
  (∀ a c, a ∈ db.(db_events) → c ∈ db.(db_events) →
     cancelled_pair (rid r) v sha a c = false) →
  cancelled_calendar_admission db r v sha pv = Ret None.
Proof.
  intros Hnone. unfold cancelled_calendar_admission.
  destruct (cancellation_event _ _ _ _) as [c|] eqn:Hc; [|done]. exfalso.
  unfold cancellation_event in Hc. destruct (List.find _ _) as [[a c']|] eqn:Hf; [|done].
  apply find_some in Hf as [Hin Hp]. apply in_prod_iff in Hin as [Ha Hc'].
  rewrite <- list_elem_of_In in Ha, Hc'. unfold rid in Hnone. by rewrite Hnone in Hp.
Qed.

(** Confirming twice is confirming once: while the write of a confirmation is
    live, repeating the confirmation (same version, proposal and hash) returns the
    run as it is now and changes nothing: no second transaction id is issued. *)
Theorem confirm_idempotent (db : Db) (id : text) (r : AutomationRun)
    (w : AutomationCalendarWrite) (a : AutomationEvent) (p : AutomationProposalPayload)
    (wa : bool) (now : datetime) (stamp : Z) (txn eid : text)
    (Hr : reachable db) (Hrun : db.(db_runs) !! id = Some r)
    (Hw : db.(db_writes) !! id = Some w) (Hlive : w.(wr_status) ≠ WCancelled)
    (Ha : a ∈ automation_events db id) (Hc : consent a w)
    (Hp : proposal_by_identity db id w.(wr_proposal_version) w.(wr_proposal_sha256) = Some p)
    (Hnow : astimezone_utc now = Ret stamp) :
  decide_automation_proposal db id (a.(ev_state_version) - 1) w.(wr_proposal_version)
    w.(wr_proposal_sha256) (str "confirm") wa now txn eid = Ret (RunResult r, db).
Proof.
  apply reachable_store_inv in Hr. pose proof (inv_log_part _ Hr) as HL.
  pose proof (inv_log _ HL _ _ Hrun) as Hlog. pose proof (inv_keyed _ HL _ _ Hrun) as Hid.
  unfold automation_events in Ha. rewrite order_by_perm in Ha.
  destruct Hc as (Hd & Hprev & Hnext & Htx & Hsha).
  assert (2 <= a.(ev_state_version)) as Hv.
  { apply list_elem_of_lookup in Ha as [i Hi]. destruct Hlog as [_ _ Hent].
    destruct (Hent _ _ Hi) as (_ & V & Hpr & _). destruct i; [congruence|lia]. }
  assert ((1 <=? a.(ev_state_version) - 1) && (1 <=? w.(wr_proposal_version)) &&
          len_is 64 w.(wr_proposal_sha256) = true) as Hargs.
  { destruct (con_write _ (inv_consent _ Hr) _ _ Hw) as (_ & Hok & _).
    unfold write_row_ok in Hok. bools.
    match goal with Hp : (0 <? wr_proposal_version w) = true |- _ => apply Z.ltb_lt in Hp; rename Hp into Hpos end.
    rewrite (proj2 (Z.leb_le _ _)), (proj2 (Z.leb_le _ _)); [done|clear -Hpos; lia|clear -Hv; lia]. }
  unfold decide_automation_proposal. rewrite Hargs, Hnow, Hrun.
  assert (is_some (dt_offset now) = true) as -> by (unfold astimezone_utc in Hnow; by case_match).
  simpl. rewrite not_cancelled.
  - simpl. unfold decide_current. rewrite Hid, Hp, Hw. simpl.
    rewrite Z.eqb_refl, (bool_decide_eq_true_2 (wr_proposal_sha256 w = _)) by done. simpl.
    by rewrite (bool_decide_eq_false_2 (wr_status w = WCancelled)) by done.
  - intros a' c Ha' Hc'. destruct (cancelled_pair _ _ _ a' c) eqn:Hpair; [exfalso|done].
    pose proof Hpair as Hpr. unfold cancelled_pair in Hpr. bools. unfold rid in *. rewrite Hid in *.
    assert (a' = a) as ->.
    { eapply log_version_unique; [exact Hlog| |done|lia]. by rewrite elem_of_events_of. }
    apply Hlive. eapply (con_cancelled _ (inv_consent _ Hr) c w); try done; [congruence|].
    rewrite Htx in *. by destruct (ev_transaction_id c); simplify_eq/=; bools; subst.
Qed.

(** ** Progress *)

(** [uuid.uuid4()] as an event id: 36 characters, not yet in the log. *)
Definition fresh_event (db : Db) (eid : text) : Prop :=
  length eid = 36%nat ∧ ∀ o, o ∈ db.(db_events) → o.(ev_event_id) ≠ eid.

Lemma run_row_parts r : run_row_ok r = true →
  length r.(run_key).(rk_run_id) = 36%nat ∧ length r.(run_key).(rk_calendar_principal_key) = 64%nat ∧
  r.(run_key).(rk_automation_id) ≠ [] ∧ 0 < r.(run_key).(rk_automation_version) ∧
  0 < r.(run_key).(rk_extraction_schema_version) ∧ 1 <= r.(run_version).
Proof. unfold run_row_ok, len_is. intros Hok. bools. split_and!; try done; by apply Z.ltb_lt || apply Z.leb_le. Qed.

(** The next event of a run can always be appended. *)
Lemma append_progress db db1 r eid next failure at_ pid psha dec txn gid :
  LogInv db → db.(db_runs) !! rid r = Some r → db1.(db_events) = db.(db_events) →
  fresh_event db eid → next ≠ RDetected →
  opt_all (len_is 36) pid = true → opt_all (len_is 64) psha = true →
  opt_all (len_is 36) txn = true → opt_all (blob_between 1 512) gid = true →
  is_ret (append_automation_event db1 eid r.(run_key) (r.(run_version) + 1 - 1) (Some r.(run_st))
    next (r.(run_version) + 1) next failure at_ pid psha dec txn gid) = true.
Proof.
  intros HL Hrun HE [Hlen Hnew] Hnext Hpid Hsha Htxn Hgid.
  destruct (run_row_parts _ (inv_rows _ HL _ _ Hrun)) as (Hid & Hpr & Hau & Hav & Hsv & Hv).
  unfold append_automation_event, insert_event, event_row_ok. simpl.
  rewrite Hpid, Hsha, Htxn, Hgid, decide_False by done.
  unfold len_is. rewrite !bool_decide_eq_true_2 by done.
  assert (truthy (rk_run_id (run_key r)) = true) as ->.
  { apply bool_decide_eq_true_2. intros Hn. by rewrite Hn in Hid. }
  assert (truthy (rk_automation_id (run_key r)) = true) as -> by by apply bool_decide_eq_true_2.
  rewrite !(proj2 (Z.leb_le _ _)), !(proj2 (Z.ltb_lt _ _)), (proj2 (Z.eqb_eq _ _)) by (clear -Hv Hav Hsv; lia). simpl.
  destruct (existsb _ _) eqn:Ex; [exfalso|done]. rewrite HE in Ex.
  apply existsb_exists_elem in Ex as (o & Ho & Hor).
  rewrite bool_decide_eq_false_2 in Hor by (by apply Hnew). simpl in Hor. bools.
  match goal with Heq : ev_run_id o = _ |- _ =>
    pose proof (log_versions _ _ o (inv_log _ HL _ _ Hrun)) as Hb;
    rewrite elem_of_events_of in Hb; specialize (Hb (conj Ho Heq)) end.
  destruct (inv_log _ HL _ _ Hrun) as [_ _ Hent].
  assert (o ∈ events_of db (rid r)) as Hin by (rewrite elem_of_events_of; done).
  apply list_elem_of_lookup in Hin as [i Hi]. destruct (Hent _ _ Hi) as (Hs & Hsv' & _).
  match goal with Ho : (_ || _) = true |- _ => 
    apply orb_true_iff in Ho as [Ho|Ho]; apply Z.eqb_eq in Ho; clear -Hs Hsv' Hb Ho; lia end.
Qed.

Lemma bind_is_ret {A B} (m : py A) (f : A → py B) :
  is_ret m = true → (∀ a, m = Ret a → is_ret (f a) = true) → is_ret (m ≫= f) = true.
Proof. destruct m; simpl; [by auto|done]. Qed.

Lemma update_run_progress db id g f r :
  db.(db_runs) !! id = Some r → g r = true → run_row_ok (f r) = true →
  update_run db id g f = Ret (set_runs db (<[id := f r]> db.(db_runs)), true).
Proof. unfold update_run. intros -> -> ->. done. Qed.

Lemma proposal_row_parts p : proposal_row_ok p = true →
  len_is 36 p.(pr_payload_id) = true ∧ len_is 64 p.(pr_proposal_sha256) = true ∧
  0 < p.(pr_proposal_version) ∧ opt_all (blob_at_most 64) p.(pr_start) = true ∧
  opt_all (blob_at_most 64) p.(pr_end) = true ∧ opt_all (blob_at_most 128) p.(pr_timezone) = true.
Proof. unfold proposal_row_ok. intros Hok. bools. split_and!; try done. by apply Z.ltb_lt. Qed.

(** The row a confirmation writes is acceptable. *)
Lemma authorized_write_ok r p txn s e z stamp :
  run_row_ok r = true → proposal_row_ok p = true → length txn = 36%nat →
  p.(pr_start) = Some s → p.(pr_end) = Some e → p.(pr_timezone) = Some z →
  write_row_ok (authorized_write r txn p.(pr_proposal_version) p.(pr_proposal_sha256) s e z stamp) = true.
Proof.
  intros Hr Hp Htxn Hs He Hz. destruct (run_row_parts _ Hr) as (Hid & Hpr & _).
  destruct (proposal_row_parts _ Hp) as (_ & Hsha & Hv & Hbs & Hbe & Hbz).
  rewrite Hs in Hbs. rewrite He in Hbe. rewrite Hz in Hbz. simpl in *.
  unfold write_row_ok, authorized_write. simpl.
  assert (truthy (rk_run_id (run_key r)) = true) as ->.
  { apply bool_decide_eq_true_2. intros Hn. by rewrite Hn in Hid. }
  unfold len_is in *. rewrite Hsha, Hbs, Hbe, Hbz, (proj2 (Z.ltb_lt _ _)) by done.
  by rewrite !bool_decide_eq_true_2.
Qed.

Lemma set_run_ok r st v failure ctx pid sha review at_ :
  run_row_ok r = true → 1 <= v → (st = RDetected → failure = None) →
  (st = RSourceUnavailable → failure = Some (str "source_unavailable")) →
  ctx = r.(run_context) → opt_all (len_is 36) pid = true → opt_all (len_is 64) sha = true →
  run_row_ok (set_run r st v failure ctx pid sha review at_) = true.
Proof.
  intros Hr Hv Hn1 Hn2 -> Hpid Hsha. unfold run_row_ok in *. simpl.
  repeat match goal with H : _ && _ = true |- _ => apply andb_prop in H as [? ?] end.
  rewrite Hpid, Hsha, (proj2 (Z.leb_le 1 v)) by done.
  repeat match goal with H : ?b = true |- context [?b] => rewrite H end. simpl.
  apply andb_true_intro; split.
  - destruct (decide (st = RDetected)) as [Hd|Hd]; [by rewrite Hn1, orb_true_r|].
    by rewrite bool_decide_eq_false_2.
  - destruct (decide (st = RSourceUnavailable)) as [Hd|Hd];
      [rewrite Hn2 by done; by rewrite (bool_decide_eq_true_2 (Some _ = _)), orb_true_r|].
    by rewrite (bool_decide_eq_false_2 (st = _)).
Qed.

(** A version the log has not reached was not cancelled. *)
Lemma waiting_not_cancelled db id r sha pv :
  Inv db → db.(db_runs) !! id = Some r →
  cancelled_calendar_admission db r (r.(run_version) + 1) sha pv = Ret None.
Proof.
  intros HI Hrun. pose proof (inv_log_part _ HI) as HL. apply not_cancelled. intros a c Ha Hc.
  destruct (cancelled_pair _ _ _ a c) eqn:Hpair; [exfalso|done].
  unfold cancelled_pair in Hpair. bools.
  assert (a ∈ events_of db (rid r)) as Hin by (by rewrite elem_of_events_of).
  unfold rid in Hin. rewrite (inv_keyed _ HL _ _ Hrun) in Hin.
  pose proof (log_versions _ _ _ (inv_log _ HL _ _ Hrun) Hin) as Hb.
  match goal with Hv : (ev_state_version a =? _) = true |- _ => apply Z.eqb_eq in Hv; clear -Hv Hb; lia end.
Qed.

(** A waiting run has at most a cancelled write, of an earlier proposal. *)
Lemma waiting_write db id r p w :
  Inv db → db.(db_runs) !! id = Some r → r.(run_st) = RAwaitingConfirmation →
  p ∈ db.(db_proposals) → p.(pr_run_id) = id → r.(run_current_payload_id) = Some p.(pr_payload_id) →
  db.(db_writes) !! id = Some w →
  w.(wr_status) = WCancelled ∧ (w.(wr_proposal_version) =? p.(pr_proposal_version)) = false.
Proof.
  intros HI Hrun Hst Hp Hpid Hcur Hw. pose proof (inv_generations _ HI) as HG.
  pose proof (gen_current _ HG _ _ _ Hrun Hst Hp Hpid Hcur).
  pose proof (gen_stale _ HG _ _ _ Hrun Hst Hw).
  pose proof (con_agrees _ (inv_consent _ HI) _ _ Hrun) as Ha. unfold write_agrees in Ha.
  rewrite Hst in Ha. split; [by apply Ha|lia].
Qed.

Lemma current_proposal_unique db r v pv sha p p' :
  GenInv db → current_proposal db r v pv sha p → current_proposal db r v pv sha p' → p = p'.
Proof.
  intros HG (Hp & _ & _ & _ & _ & _ & _ & Hc & _) (Hp' & _ & _ & _ & _ & _ & _ & Hc' & _).
  rewrite Hc in Hc'. apply list_elem_of_lookup in Hp as [i Hi], Hp' as [j Hj].
  assert (i = j) as ->; [|congruence].
  eapply (NoDup_lookup (pr_payload_id <$> db_proposals db)); [apply HG|..];
    rewrite list_lookup_fmap; [by rewrite Hi|by rewrite Hj; simpl; congruence].
Qed.

(** A fresh transaction id can be inserted: every stored write has a logged one. *)
Lemma insert_write_progress db m w :
  Inv db → m ⊆ db.(db_writes) → m !! w.(wr_run_id) = None → write_row_ok w = true →
  fresh_transaction db w.(wr_transaction_id) →
  ∃ db1, insert_write (set_writes db m) w = Ret db1 ∧
    db1.(db_runs) = db.(db_runs) ∧ db1.(db_events) = db.(db_events).
Proof.
  intros HI Hm Hn Hok Hfresh. unfold insert_write. rewrite Hok. simpl. rewrite Hn. simpl.
  assert (forallb (fun kv : text * AutomationCalendarWrite => negb (bool_decide
    (wr_transaction_id kv.2 = wr_transaction_id w))) (map_to_list m) = true) as ->; [|simpl; eauto].
  apply forallb_elem. intros [i x] Hx. apply elem_of_map_to_list in Hx.
  apply negb_true_iff, bool_decide_eq_false_2. simpl. intros Heq.
  destruct (con_consent _ (inv_consent _ HI) i x) as (a & Ha & Hc); [by eapply lookup_weaken|].
  apply elem_of_events_of in Ha as [Ha _]. destruct Hc as (_ & _ & _ & Htx & _).
  apply (Hfresh _ Ha). congruence.
Qed.

(** The effect of a confirmation in the window is computed without failure. *)
Lemma confirm_effect_returns db r p pv sha stamp txn end_ tz :
  Inv db → db.(db_runs) !! rid r = Some r → p ∈ db.(db_proposals) →
  p.(pr_proposal_version) = pv → p.(pr_proposal_sha256) = sha →
  (∀ w, db.(db_writes) !! rid r = Some w → w.(wr_status) = WCancelled) →
  proposal_open r p stamp → p.(pr_end) = Some end_ → end_ ≠ [] →
  p.(pr_timezone) = Some tz → tz ≠ [] → length txn = 36%nat → fresh_transaction db txn →
  ∃ db1, confirm_effect db r p (db.(db_writes) !! rid r) pv sha true stamp txn =
    Ret ({| de_next_state := RWriteAuthorized; de_failure_code := None;
            de_transaction_id := Some txn; de_event_decision := Some DConfirmed;
            de_payload_id := p.(pr_payload_id); de_payload_sha256 := sha |}, db1) ∧
    db1.(db_runs) = db.(db_runs) ∧ db1.(db_events) = db.(db_events).
Proof.
  intros HI Hrun Hp <- <- Hold (Hlive & expires_at & start_at & Hx & Hs & Hlt1 & Hlt2)
    He Hne Hz Hnz Hlen Hfresh.
  unfold stored_instant in Hx, Hs.
  destruct (pr_expires_at p) as [expires|] eqn:Ex; [|done].
  destruct (pr_start p) as [start|] eqn:Es; [|done]. simpl in Hx, Hs.
  unfold confirm_effect. rewrite Ex, Es, He, Hz. simpl.
  assert (truthy start && truthy end_ && truthy tz && truthy expires = true) as ->.
  { unfold truthy. rewrite !bool_decide_eq_true_2; try done; intros ->; done. }
  simpl. rewrite Hs. simpl. rewrite Hx. simpl. rewrite Hlive. simpl.
  rewrite (proj2 (Z.leb_gt _ _)), (proj2 (Z.leb_gt _ _)) by done. simpl. fold (rid r).
  assert (write_row_ok (authorized_write r txn p.(pr_proposal_version) p.(pr_proposal_sha256)
            start end_ tz (isoformat (utc stamp))) = true) as Hok.
  { apply authorized_write_ok; try done; [by eapply (inv_rows _ (inv_log_part _ HI))|].
    by destruct (gen_proposals _ (inv_generations _ HI) _ Hp) as (_ & ? & _). }
  assert (∀ m, m ⊆ db.(db_writes) → m !! rid r = None → ∃ db1,
    insert_write (set_writes db m) (authorized_write r txn p.(pr_proposal_version)
      p.(pr_proposal_sha256) start end_ tz (isoformat (utc stamp))) = Ret db1 ∧
    db1.(db_runs) = db.(db_runs) ∧ db1.(db_events) = db.(db_events)) as Hins
    by (intros m Hm Hn; by eapply (insert_write_progress db m)).
  destruct (db_writes db !! rid r) as [w|] eqn:Ew.
  - rewrite bool_decide_eq_true_2 by (by apply Hold). simpl.
    destruct (Hins (delete (rid r) (db_writes db))) as (db1 & -> & ? & ?);
      [apply delete_subseteq|by rewrite lookup_delete_eq|]. simpl. eauto.
  - simpl. destruct (Hins (db_writes db)) as (db1 & Hdb1 & ? & ?); [done|done|].
    replace (set_writes db (db_writes db)) with db in Hdb1 by (by destruct db).
    rewrite Hdb1. simpl. eauto.
Qed.

(** The decision on a waiting run can be committed. *)
Lemma commit_returns db db1 id r p eff stamp eid :
  LogInv db → db.(db_runs) !! id = Some r → db1.(db_runs) = db.(db_runs) →
  db1.(db_events) = db.(db_events) → r.(run_st) = RAwaitingConfirmation →
  r.(run_current_payload_id) = Some p.(pr_payload_id) →
  r.(run_current_payload_sha256) = Some p.(pr_proposal_sha256) →
  eff.(de_next_state) ≠ RDetected → eff.(de_next_state) ≠ RSourceUnavailable →
  len_is 36 eff.(de_payload_id) = true → len_is 64 eff.(de_payload_sha256) = true →
  len_is 36 p.(pr_payload_id) = true → len_is 64 p.(pr_proposal_sha256) = true →
  opt_all (len_is 36) eff.(de_transaction_id) = true → fresh_event db eid →
  is_ret (commit_decision db1 r p p.(pr_proposal_sha256) eff stamp eid) = true.
Proof.
  intros HL Hrun HR HE Hst Hcid Hcsha Hn1 Hn2 He1 He2 Hp1 Hp2 Htx Hev.
  pose proof (inv_keyed _ HL _ _ Hrun) as Hid. pose proof (inv_rows _ HL _ _ Hrun) as Hok.
  destruct (run_row_parts _ Hok) as (_ & _ & _ & _ & _ & Hv).
  unfold commit_decision. rewrite Hid.
  rewrite (update_run_progress _ _ _ _ r); [|by rewrite HR| |].
  - simpl. rewrite <- Hst. apply bind_is_ret.
    + eapply append_progress; try done. unfold rid. by rewrite Hid.
    + intros db2 Hdb2. apply insert_event_inv in Hdb2 as (_ & _ & ->). simpl.
      by rewrite lookup_insert_eq.
  - unfold at_state. by rewrite Hst, Hcid, Hcsha, Z.eqb_refl, !bool_decide_eq_true_2.
  - apply set_run_ok; try done. clear -Hv; lia.
Qed.

Lemma confirm_returns db id r p v pv sha now stamp txn eid end_ tz :
  Inv db → db.(db_runs) !! id = Some r → proposal_by_identity db id pv sha = Some p →
  current_proposal db r v pv sha p → proposal_open r p stamp → astimezone_utc now = Ret stamp →
  (∀ w, db.(db_writes) !! id = Some w → w.(wr_status) = WCancelled ∧
     (w.(wr_proposal_version) =? p.(pr_proposal_version)) = false) →
  p.(pr_end) = Some end_ ∧ end_ ≠ [] → p.(pr_timezone) = Some tz ∧ tz ≠ [] →
  length txn = 36%nat ∧ fresh_transaction db txn → fresh_event db eid →
  is_ret (decide_automation_proposal db id v pv sha (str "confirm") true now txn eid) = true.
Proof.
  intros HI Hrun Hp (Hpin & Hprid & Hpv & Hsha & Hacc & Hst & Hv & Hcid & Hcsha) Hopen Hnow Hold
    [He Hne] [Hz Hnz] [Hlen Hfresh] Hev.
  pose proof (inv_log_part _ HI) as HL. pose proof (inv_keyed _ HL _ _ Hrun) as Hid.
  destruct (gen_proposals _ (inv_generations _ HI) _ Hpin) as (_ & Hrow & Hpos & _).
  destruct (proposal_row_parts _ Hrow) as (Hl36 & Hl64 & _).
  destruct (run_row_parts _ (inv_rows _ HL _ _ Hrun)) as (_ & _ & _ & _ & _ & Hv1).
  subst v pv sha. unfold decide_automation_proposal.
  rewrite (proj2 (Z.leb_le 1 _)), (proj2 (Z.leb_le 1 _)), Hl64, Hnow, Hrun by done.
  assert (is_some (dt_offset now) = true) as -> by (unfold astimezone_utc in Hnow; by case_match).
  simpl. rewrite (waiting_not_cancelled _ id) by done. simpl.
  unfold decide_current. rewrite Hid, Hp. simpl.
  destruct (confirm_effect_returns db r p p.(pr_proposal_version) p.(pr_proposal_sha256) stamp txn end_ tz)
    as (db1 & Heff & HR & HE); unfold rid; rewrite ?Hid; try done; [by intros; apply Hold|].
  unfold rid in Heff. rewrite Hid in Heff.
  assert (is_ret (commit_decision db1 r p p.(pr_proposal_sha256)
    {| de_next_state := RWriteAuthorized; de_failure_code := None;
       de_transaction_id := Some txn; de_event_decision := Some DConfirmed;
       de_payload_id := p.(pr_payload_id); de_payload_sha256 := p.(pr_proposal_sha256) |}
    stamp eid) = true) as Hcommit.
  { eapply commit_returns; try done. by apply bool_decide_eq_true_2. }
  destruct (db_writes db !! id) as [w|] eqn:Ew.
  - destruct (Hold _ eq_refl) as [Hc Hneq]. rewrite Hneq. simpl.
    rewrite (bool_decide_eq_true_2 (wr_status w = WCancelled)) by done. simpl.
    unfold at_state. rewrite Hst, Hcid, Hcsha, Hacc, Z.eqb_refl, !bool_decide_eq_true_2 by done. simpl.
    rewrite Heff. done.
  - simpl. unfold at_state. rewrite Hst, Hcid, Hcsha, Hacc, Z.eqb_refl, !bool_decide_eq_true_2 by done.
    simpl. rewrite Heff. done.
Qed.

(** Consent is honoured: on the current accepted proposal of a waiting run,
    inside its window and with write authorization, a confirmation succeeds; it moves
    the run to [write_authorized] and creates the authorized write under the new
    transaction id. *)
Theorem confirm_progress (db : Db) (id : text) (r : AutomationRun)
    (p : AutomationProposalPayload) (v pv : Z) (sha end_ tz : text) (now : datetime)
    (stamp : Z) (txn eid : text)
    (Hr : reachable db) (Hrun : db.(db_runs) !! id = Some r)
    (Hp : proposal_by_identity db id pv sha = Some p) (Hcur : current_proposal db r v pv sha p)
    (Hopen : proposal_open r p stamp) (Hnow : astimezone_utc now = Ret stamp)
    (Hend : p.(pr_end) = Some end_ ∧ end_ ≠ []) (Htz : p.(pr_timezone) = Some tz ∧ tz ≠ [])
    (Htxn : length txn = 36%nat ∧ fresh_transaction db txn) (Heid : fresh_event db eid) :
  ∃ r' db' w, decide_automation_proposal db id v pv sha (str "confirm") true now txn eid
      = Ret (RunResult r', db') ∧
    r'.(run_st) = RWriteAuthorized ∧ r'.(run_version) = v + 1 ∧
    db'.(db_runs) !! id = Some r' ∧ db'.(db_writes) !! id = Some w ∧
    w.(wr_status) = WAuthorized ∧ w.(wr_transaction_id) = txn ∧ w.(wr_proposal_sha256) = sha.
Proof.
  pose proof Hr as HI. apply reachable_store_inv in HI. pose proof (inv_log_part _ HI) as HL.
  pose proof (inv_keyed _ HL) as Hk. pose proof (Hk _ _ Hrun) as Hid.
  pose proof Hcur as (Hpin & Hprid & Hpv & Hsha & Hacc & Hst & Hv & Hcid & Hcsha).
  assert (∀ w, db.(db_writes) !! id = Some w → w.(wr_status) = WCancelled ∧
            (w.(wr_proposal_version) =? p.(pr_proposal_version)) = false) as Hold.
  { intros w Hw. eapply waiting_write; try done. unfold rid in Hprid. congruence. }
  assert (is_ret (decide_automation_proposal db id v pv sha (str "confirm") true now txn eid) = true)
    as Hret by (by eapply confirm_returns).
  destruct (decide_automation_proposal _ _ _ _ _ _ _ _ _ _) as [[res db']|] eqn:Hop; [|done].
  apply decide_confirm_inv in Hop as (r0 & stamp0 & Hrun0 & Hnow0 & Hc); [|done].
  rewrite Hrun in Hrun0. rewrite Hnow in Hnow0. injection Hrun0 as <-. injection Hnow0 as <-.
  unfold rid in *. destruct Hc as [run out Hcc|w Hw _ _ Hlive|p' r' e Hcur' Hclosed|p' r' e w ? ? ? Hadv ? ? ? ? ? ? ? ? ? ? Hws].
  - rewrite <- Hv, (waiting_not_cancelled _ id) in Hcc by done. done.
  - unfold rid in Hw. rewrite Hid in Hw. by destruct (Hold _ Hw).
  - assert (p = p') as <- by (eapply current_proposal_unique; [apply HI|done|done]). done.
  - exists r', db', w. split_and!; try done.
    + rewrite (adv_version _ _ _ _ _ Hadv). congruence.
    + by rewrite (adv_runs _ _ _ _ _ Hadv), Hid, lookup_insert_eq.
    + unfold rid in Hws. by rewrite Hws, Hid, lookup_insert_eq.
Qed.

End Theorems.

(** * Proposals, source loss and cleanup

    What a recorded proposal guarantees (its window, expiry, hash and version), and
    what losing the source or purging expired runs does. *)

Section Proposals.
Context `{Unicode} `{AddressLib} `{Zones}.

Lemma window_inv s e z stamp x :
  proposal_window s e z stamp = Ret x →
  ∃ ds de zone start_at end_at,
    fromisoformat s = Some ds ∧ fromisoformat e = Some de ∧ zone_info z = Some zone ∧
    astimezone_utc ds = Ret start_at ∧ astimezone_utc de = Ret end_at ∧
    ds.(dt_offset) = Some (zone start_at) ∧ de.(dt_offset) = Some (zone end_at) ∧
    stamp < start_at < end_at ∧ wall_ok (stamp + 15 * MINUTE) = true ∧
    x = isoformat (utc (Z.min (stamp + 15 * MINUTE) start_at)).
Proof.
  unfold proposal_window. intros Hop. peel; simplify_eq. bools.
  do 5 eexists. split_and!; try done; by apply Z.ltb_lt.
Qed.

Lemma validate_inv req subj att start end_ tz why empty obs valid :
  validate_proposal req subj att start end_ tz why empty obs = Ret valid →
  astimezone_utc obs = Ret valid.(vp_stamp) ∧
  (length valid.(vp_attendees) <= MAX_AUTOMATION_PROPOSAL_ATTENDEES)%nat ∧
  NoDup valid.(vp_attendees) ∧ normalized_attendees att = Some valid.(vp_attendees) ∧
  if valid.(vp_accepted) then
    ∃ s e z x, start = Some s ∧ end_ = Some e ∧ tz = Some z ∧ empty = None ∧
      valid.(vp_expires_at) = Some x ∧ proposal_window s e z valid.(vp_stamp) = Ret x
  else start = None ∧ end_ = None ∧ tz = None ∧ is_Some empty ∧ valid.(vp_expires_at) = None.
Proof.
  unfold validate_proposal. intros Hop.
  apply bind_ret_inv in Hop as ([] & _ & Hop). lazy zeta in Hop.
  apply bind_ret_inv in Hop as (sb & _ & Hop).
  apply bind_ret_inv in Hop as (norm & Hnorm & Hop). apply require_some_ret_inv in Hnorm.
  apply bind_ret_inv in Hop as (aj & _ & Hop).
  apply bind_ret_inv in Hop as ([] & Hb & Hop). apply require_ret_inv in Hb.
  apply bind_ret_inv in Hop as ([] & _ & Hop).
  apply bind_ret_inv in Hop as ([] & Hx & Hop). apply require_ret_inv in Hx.
  apply bind_ret_inv in Hop as ([] & _ & Hop).
  apply bind_ret_inv in Hop as (stamp & Hst & Hop).
  apply bind_ret_inv in Hop as (expires & Hexp & Hop). simplify_eq/=. bools.
  split_and!; try done.
  destruct start, end_, tz, why as [w|], empty as [em|]; simpl in *; try done;
    try (destruct (truthy w) eqn:Ew); try (destruct (truthy em) eqn:Ee); simpl in *; try done.
  - peel; simplify_eq. eauto 10.
  - simplify_eq. by split_and!.
Qed.

(** The row [record_automation_proposal] inserts. *)
Definition proposal_row (db : Db) (id : text) (valid : ValidProposal) (req subj : text)
    (start end_ tz why empty expires : option text) (json : bytes) (pid : text)
    : AutomationProposalPayload := {|
  pr_payload_id := pid; pr_run_id := id;
  pr_proposal_version := latest_proposal_version db id + 1;
  pr_status := if valid.(vp_accepted) then PAccepted else PNoSuggestions;
  pr_request_sha256 := req; pr_proposal_sha256 := Sha256.hexdigest json;
  pr_subject := subj; pr_attendees_json := valid.(vp_attendees_json);
  pr_start := start; pr_end := end_; pr_timezone := tz;
  pr_suggestion_reason := why; pr_empty_reason := empty;
  pr_observed_at := isoformat (utc valid.(vp_stamp)); pr_expires_at := expires;
  pr_created_at := isoformat (utc valid.(vp_stamp)) |}.

Lemma record_proposal_inv db id v xid req subj att start end_ tz why empty obs pid eid r' db' :
  record_automation_proposal db id v xid req subj att start end_ tz why empty obs pid eid
    = Ret (r', db') →
  ∃ r valid expires json,
    db.(db_runs) !! id = Some r ∧
    validate_proposal req subj att start end_ tz why empty obs = Ret valid ∧
    run_live r valid.(vp_stamp) = true ∧
    match valid.(vp_expires_at) with
    | None => expires = None
    | Some e => ∃ d0 e0 d1 e1, fromisoformat e = Some d0 ∧ to_utc d0 = Ret e0 ∧
        fromisoformat r.(run_key).(rk_expires_at) = Some d1 ∧ to_utc d1 = Ret e1 ∧
        expires = Some (isoformat (utc (Z.min e0 e1)))
    end ∧
    Utf8.encode (dumps true (proposal_document valid.(vp_attendees)
      r.(run_key).(rk_calendar_principal_key) (latest_proposal_version db id + 1)
      subj start end_ tz why empty)) = Some json ∧
    db'.(db_proposals) = (db.(db_proposals) ++
      [proposal_row db id valid req subj start end_ tz why empty expires json pid])%list.
Proof.
  intros Hop. unfold record_automation_proposal in Hop.
  apply bind_ret_inv in Hop as (valid & Hv & Hop). lazy zeta in Hop.
  peel_in Hop. peel_in Hop. peel_in Hop. peel_in Hop. peel_in Hop.
  apply bind_ret_inv in Hop as (expires & Hx & Hop).
  apply bind_ret_inv in Hop as (json & Hj & Hop). apply require_some_ret_inv in Hj.
  exists a, valid, expires, json. split_and!; try done.
  - clear Hop. destruct (vp_expires_at valid); [|by simplify_eq]. peel; simplify_eq. eauto 10.
  - apply bind_ret_inv in Hop as (db1 & Hins & Hop).
    apply insert_proposal_inv in Hins as (_ & _ & ->).
    apply bind_ret_inv in Hop as ([db2 ch] & Hup & Hop).
    apply bind_ret_inv in Hop as ([] & Hch & Hop). apply require_ret_inv in Hch. subst ch.
    apply update_run_true in Hup as (r1 & _ & _ & _ & ->).
    apply bind_ret_inv in Hop as (db3 & Hev & Hop). apply insert_event_inv in Hev as (_ & _ & ->).
    apply bind_ret_inv in Hop as (u2 & _ & Hop). by simplify_eq.
Qed.

Lemma astimezone_utc_inv d w : astimezone_utc d = Ret w →
  wall_ok w = true ∧ to_utc d = Ret w.
Proof.
  unfold to_utc, astimezone_utc. destruct (dt_offset d); [|done]. intros Hd. case_match; by simplify_eq.
Qed.

Lemma run_live_inv r stamp : run_live r stamp = true →
  ∃ d expiry, fromisoformat r.(run_key).(rk_expires_at) = Some d ∧ to_utc d = Ret expiry ∧
    aware_iso_epoch r.(run_key).(rk_expires_at) = Some expiry ∧ stamp < expiry ∧
    wall_ok expiry = true.
Proof.
  unfold run_live, aware_iso_epoch. destruct (fromisoformat _) as [d|]; [|done].
  destruct (astimezone_utc d) as [e|] eqn:Ee; simpl; [|done]. intros Hlt.
  apply astimezone_utc_inv in Ee as [Hw Hu]. exists d, e. split_and!; try done. by apply Z.ltb_lt.
Qed.

Lemma stored_instant_utc w : wall_ok w = true → stored_instant (Some (isoformat (utc w))) = Some w.
Proof.
  intros Hw. unfold stored_instant. simpl. rewrite fromisoformat_isoformat by done. simpl.
  unfold to_utc, astimezone_utc, utc. simpl. by rewrite Z.sub_0_r, Hw.
Qed.

Lemma wall_ok_min a b : wall_ok a = true → wall_ok b = true → wall_ok (Z.min a b) = true.
Proof. intros. by destruct (Z.min_spec a b) as [[_ ->]|[_ ->]]. Qed.

(** A recorded proposal is bounded in time: its start lies after the observation
    and before its end, both are written at the offset of the named zone, and the
    stored expiry, read back, is the earliest of fifteen minutes after the
    observation, the start and the end of the run's lifetime. *)
Theorem proposal_window_bounded (db db' : Db) (id : text) (v : Z) (xid req subj : text)
    (att : list text) (s : text) (end_ tz why empty : option text) (obs : datetime)
    (pid eid : text) (r r' : AutomationRun) (Hr : reachable db)
    (Hrun : db.(db_runs) !! id = Some r)
    (Hop : record_automation_proposal db id v xid req subj att (Some s) end_ tz why empty obs pid eid
             = Ret (r', db')) :
  ∃ p zone stamp start_at end_at expiry,
    p ∈ db'.(db_proposals) ∧ p.(pr_payload_id) = pid ∧ p.(pr_status) = PAccepted ∧
    p.(pr_start) = Some s ∧ p.(pr_end) = end_ ∧
    astimezone_utc obs = Ret stamp ∧ stored_instant (Some s) = Some start_at ∧
    stored_instant end_ = Some end_at ∧ aware_iso_epoch r.(run_key).(rk_expires_at) = Some expiry ∧
    (z ← tz; zone_info z) = Some zone ∧
    (d ← fromisoformat s; dt_offset d) = Some (zone start_at) ∧
    stamp < start_at < end_at ∧ stamp < expiry ∧
    stored_instant p.(pr_expires_at) =
      Some (Z.min (Z.min (stamp + 15 * MINUTE) start_at) expiry).
Proof.
  apply record_proposal_inv in Hop as (r0 & valid & expires & json & Hr0 & Hv & Hlive & Hx & _ & HP).
  rewrite Hrun in Hr0. injection Hr0 as <-.
  apply validate_inv in Hv as (Hst & _ & _ & _ & Hacc).
  destruct (vp_accepted valid) eqn:Ea; [|by destruct Hacc].
  destruct Hacc as (s' & e & z & x & [= <-] & -> & -> & -> & Hex & Hwin). rewrite Hex in Hx.
  apply window_inv in Hwin as
    (ds & de & zone & start_at & end_at & Hs & He & Hz & Hsa & Hea & Hso & Heo & Hlt & Hw15 & ->).
  apply run_live_inv in Hlive as (d1 & expiry & Hd1 & Hu1 & Haw & Hle & Hwe).
  apply astimezone_utc_inv in Hsa as [Hws Hus], Hea as [_ Hue].
  pose proof (wall_ok_min _ _ Hw15 Hws) as Hwm.
  destruct Hx as (d0 & e0 & d1' & e1 & Hd0 & He0 & Hd1' & He1 & ->).
  rewrite fromisoformat_isoformat in Hd0 by done. injection Hd0 as <-.
  assert (e0 = Z.min (vp_stamp valid + 15 * MINUTE) start_at) as ->.
  { unfold to_utc, astimezone_utc, utc in He0. simpl in He0. rewrite Z.sub_0_r, Hwm in He0. congruence. }
  rewrite Hd1 in Hd1'. injection Hd1' as <-. rewrite Hu1 in He1. injection He1 as <-.
  exists (proposal_row db id valid req subj (Some s) (Some e) (Some z) why None
    (Some (isoformat (utc (Z.min (Z.min (vp_stamp valid + 15 * MINUTE) start_at) expiry)))) json pid),
    zone, (vp_stamp valid), start_at, end_at, expiry.
  unfold stored_instant at 1 2. simpl. rewrite Hs, He, Ea. simpl. rewrite Hus, Hue. simpl.
  split_and!; try done; try (clear -Hlt; lia).
  - rewrite HP. apply elem_of_app. right. by apply list_elem_of_singleton.
  - apply stored_instant_utc. by apply wall_ok_min.
Qed.

(** Proposal versions never repeat: the recorded proposal has the version after
    the number of generations in the run's log, above every stored proposal and
    calendar write of the run (also after its earlier payloads were deleted), and its
    hash is the SHA-256 of the canonical document with that version. *)
Theorem proposal_version_fresh (db db' : Db) (id : text) (v : Z) (xid req subj : text)
    (att : list text) (start end_ tz why empty : option text) (obs : datetime)
    (pid eid : text) (r r' : AutomationRun) (Hr : reachable db)
    (Hrun : db.(db_runs) !! id = Some r)
    (Hop : record_automation_proposal db id v xid req subj att start end_ tz why empty obs pid eid
             = Ret (r', db')) :
  ∃ p atts json, p ∈ db'.(db_proposals) ∧ p.(pr_payload_id) = pid ∧ p.(pr_run_id) = id ∧
    p.(pr_proposal_version) = calendar_proposal_generation db id None + 1 ∧
    (∀ q, q ∈ db.(db_proposals) → q.(pr_run_id) = id →
       q.(pr_proposal_version) < p.(pr_proposal_version)) ∧
    (∀ w, db.(db_writes) !! id = Some w → w.(wr_proposal_version) < p.(pr_proposal_version)) ∧
    normalized_attendees att = Some atts ∧ NoDup atts ∧
    (length atts <= MAX_AUTOMATION_PROPOSAL_ATTENDEES)%nat ∧
    Utf8.encode (dumps true (proposal_document atts r.(run_key).(rk_calendar_principal_key)
      p.(pr_proposal_version) subj start end_ tz why empty)) = Some json ∧
    p.(pr_proposal_sha256) = Sha256.hexdigest json.
Proof.
  apply record_proposal_inv in Hop as (r0 & valid & expires & json & Hr0 & Hv & _ & _ & Hj & HP).
  rewrite Hrun in Hr0. injection Hr0 as <-.
  apply validate_inv in Hv as (_ & Hlen & Hnd & Hatt & _).
  apply reachable_store_inv in Hr. pose proof (inv_generations _ Hr) as HG.
  eexists _, valid.(vp_attendees), json.
  split_and!; try done.
  - rewrite HP. apply elem_of_app. right. by apply list_elem_of_singleton.
  - done.
  - done.
  - simpl. by rewrite latest_is_generation.
  - intros q Hq Hqid. simpl. rewrite latest_is_generation by done.
    destruct (gen_proposals _ HG _ Hq) as (_ & _ & Hb). rewrite Hqid in Hb. lia.
  - intros w Hw. simpl. rewrite latest_is_generation by done.
    pose proof (gen_writes _ HG _ _ Hw). lia.
  - exact Hj.
  - done.
Qed.

(** ** Losing the source *)

Lemma cancelled_row_ok w code at_ :
  write_row_ok w = true → w.(wr_status) ≠ WCompleted → (1 <= length code <= 64)%nat →
  write_row_ok {|
    wr_run_id := w.(wr_run_id); wr_transaction_id := w.(wr_transaction_id);
    wr_proposal_version := w.(wr_proposal_version); wr_proposal_sha256 := w.(wr_proposal_sha256);
    wr_calendar_principal_key := w.(wr_calendar_principal_key);
    wr_calendar_id := w.(wr_calendar_id); wr_start := w.(wr_start); wr_end := w.(wr_end);
    wr_timezone := w.(wr_timezone); wr_status := WCancelled;
    wr_graph_event_id := w.(wr_graph_event_id); wr_failure_code := Some code;
    wr_confirmed_at := w.(wr_confirmed_at); wr_submitted_at := w.(wr_submitted_at);
    wr_completed_at := w.(wr_completed_at); wr_updated_at := at_ |} = true.
Proof.
  intros Hok Hst Hlen. unfold write_row_ok in *. rewrite decide_False in Hok by done. simpl.
  repeat match goal with H : _ && _ = true |- _ => apply andb_prop in H as [? ?] end.
  rewrite (bool_decide_eq_true_2 (1 <= length code <= 64)%nat) by done.
  repeat match goal with H : ?b = true |- context [?b] => rewrite H end. done.
Qed.

Lemma cancellable st cause :
  calendar_pending st = true ∨ st = RWriteAuthorized →
  negb (calendar_pending st || bool_decide (st = RWriteAuthorized)) &&
  negb (bool_decide (cause = CauseThreadUnfollowed) && calendar_review st) = false.
Proof. intros [Hp| ->]; [by rewrite Hp|done]. Qed.

Lemma cause_length cause : (1 <= length (cause_text cause) <= 64)%nat.
Proof. destruct cause; vm_compute; lia. Qed.

(** The tail of the cleanup, once the write is cancelled: the new run row and one
    more event. *)
Lemma cancel_tail db db1 id r at_ eid txn failure review :
  LogInv db → db.(db_runs) !! id = Some r → db1.(db_runs) = db.(db_runs) →
  db1.(db_events) = db.(db_events) → fresh_event db eid → opt_all (len_is 36) txn = true →
  let row := set_run r RSourceUnavailable (r.(run_version) + 1) (Some (str "source_unavailable"))
               r.(run_context) r.(run_current_payload_id) r.(run_current_payload_sha256) review at_ in
  ∃ db2 db3,
    update_run db1 id (at_state r.(run_st) r.(run_version)) (fun r0 =>
      set_run r0 RSourceUnavailable (r.(run_version) + 1) (Some (str "source_unavailable"))
        r0.(run_context) r0.(run_current_payload_id) r0.(run_current_payload_sha256) review at_)
      = Ret (db2, true) ∧
    append_automation_event db2 eid r.(run_key) (r.(run_version) + 1 - 1) (Some r.(run_st))
      RSourceUnavailable (r.(run_version) + 1) RSourceUnavailable failure at_
      r.(run_current_payload_id) r.(run_current_payload_sha256) None txn None = Ret db3 ∧
    db3.(db_runs) !! id = Some row ∧ db3.(db_extractions) = db1.(db_extractions) ∧
    db3.(db_proposals) = db1.(db_proposals) ∧ db3.(db_writes) = db1.(db_writes).
Proof.
  intros HL Hrun HR HE Hev Htx row. pose proof (inv_rows _ HL _ _ Hrun) as Hok.
  pose proof (inv_keyed _ HL _ _ Hrun) as Hid.
  destruct (run_row_parts _ Hok) as (_ & _ & _ & _ & _ & Hv).
  assert (opt_all (len_is 36) r.(run_current_payload_id) = true ∧
          opt_all (len_is 64) r.(run_current_payload_sha256) = true) as [Hp1 Hp2].
  { unfold run_row_ok in Hok. bools. done. }
  eexists. rewrite (update_run_progress _ _ _ _ r).
  - pose proof (append_progress db (set_runs db1 (<[id := row]> db1.(db_runs))) r eid
      RSourceUnavailable failure at_ r.(run_current_payload_id) r.(run_current_payload_sha256)
      None txn None) as Happ.
    destruct (append_automation_event _ _ _ _ _ _ _ _ _ _ _ _ _ _ _) as [db3|] eqn:Ha in Happ.
    + exists db3. split_and!; [done|exact Ha|..];
        apply insert_event_inv in Ha as (_ & _ & ->); simpl; try done. by rewrite lookup_insert_eq.
    + exfalso. discriminate Happ; try done. unfold rid. by rewrite Hid.
  - by rewrite HR.
  - unfold at_state. by rewrite bool_decide_eq_true_2, Z.eqb_refl.
  - apply set_run_ok; try done. clear -Hv; lia.
Qed.

(** Losing the source stops an unsubmitted write: for a run that is still
    pending or authorized, the cleanup succeeds, deletes the prepared content of the
    run, moves it to [source_unavailable] with one logged event, and cancels its
    authorized write under the same transaction; nothing remains to be handed off. *)
Theorem source_loss_cancels (db : Db) (id : text) (r : AutomationRun) (at_ : text)
    (cause : source_cause) (eid : text) (Hr : reachable db)
    (Hrun : db.(db_runs) !! id = Some r)
    (Hst : calendar_pending r.(run_st) = true ∨ r.(run_st) = RWriteAuthorized)
    (Heid : fresh_event db eid) :
  ∃ db' r', cancel_automation_source db r (wr_transaction_id <$> db.(db_writes) !! id)
      at_ cause eid = Ret (db', true) ∧
    db'.(db_runs) !! id = Some r' ∧ r'.(run_st) = RSourceUnavailable ∧
    r'.(run_version) = r.(run_version) + 1 ∧
    extraction_rows db' id = [] ∧ proposals_of db' id = [] ∧
    (∀ w', db'.(db_writes) !! id = Some w' → w'.(wr_status) = WCancelled) ∧
    wr_transaction_id <$> db'.(db_writes) !! id = wr_transaction_id <$> db.(db_writes) !! id.
Proof.
  apply reachable_store_inv in Hr. pose proof (inv_log_part _ Hr) as HL.
  pose proof (inv_keyed _ HL _ _ Hrun) as Hid. pose proof (inv_rows _ HL _ _ Hrun) as Hok.
  pose proof (con_agrees _ (inv_consent _ Hr) _ _ Hrun) as Hag. unfold write_agrees in Hag.
  unfold cancel_automation_source. rewrite Hid, (cancellable _ _ Hst). simpl.
  destruct (decide (r.(run_st) = RWriteAuthorized)) as [Ha|Ha].
  - rewrite Ha in Hag. destruct Hag as (w & Hw & Hws).
    destruct (con_write _ (inv_consent _ Hr) _ _ Hw) as (_ & Hwok & _).
    assert (len_is 36 w.(wr_transaction_id) = true) as Hlen
      by (unfold write_row_ok in Hwok; bools; done).
    unfold update_write. simpl. rewrite Hw. rewrite decide_True by done.
    rewrite cancelled_row_ok by (done || apply cause_length || congruence). simpl.
    match goal with |- context [update_run ?d _ _ _] =>
      destruct (cancel_tail db d id r at_ eid (Some w.(wr_transaction_id))
        (Some (cause_text cause)) (if automation_source_loss_requires_review (cause_text cause)
          then None else Some at_)) as (db2 & db3 & Hu & Hap & Hrow & Hx & Hp & Hw'); try done end.
    rewrite Hu. simpl. rewrite Hap. simpl. eexists _, _. split_and!; try done.
    + rewrite extraction_rows_eq, Hx. simpl. by rewrite rows_drop, decide_True.
    + rewrite proposals_of_eq, Hp. simpl. by rewrite rows_drop, decide_True.
    + rewrite Hw'. simpl. rewrite lookup_insert_eq. by intros ? [= <-].
    + rewrite Hw'. simpl. by rewrite lookup_insert_eq.
  - assert (write_status_of r.(run_st) = None) as Hn
      by (destruct Hst as [Hp|Hp]; [by destruct (run_st r)|done]).
    rewrite Hn in Hag. simpl.
    match goal with |- context [update_run ?d _ _ _] =>
      destruct (cancel_tail db d id r at_ eid None
        (Some (cause_text cause)) (if automation_source_loss_requires_review (cause_text cause)
          then None else Some at_)) as (db2 & db3 & Hu & Hap & Hrow & Hx & Hp & Hw'); try done end.
    rewrite Hu. simpl. rewrite Hap. simpl. eexists _, _. split_and!; try done.
    + rewrite extraction_rows_eq, Hx. simpl. by rewrite rows_drop, decide_True.
    + rewrite proposals_of_eq, Hp. simpl. by rewrite rows_drop, decide_True.
    + rewrite Hw'. done.
    + by rewrite Hw'.
Qed.

(** Cleanup spares writes in flight: purging expired runs keeps, with its log,
    payloads and write, every run that is being written or reconciled and every run
    whose lifetime has not ended; every purged run loses all its rows at once. *)
Theorem purge_spares_writing (db : Db) (now : text) (id : text) (r : AutomationRun)
    (Hrun : db.(db_runs) !! id = Some r) :
  let db' := purge_expired_automation_tombstones db now in
  (r.(run_st) = RWriting ∨ r.(run_st) = RReconciling ∨
   (∃ e n, aware_iso_epoch r.(run_key).(rk_expires_at) = Some e ∧ aware_iso_epoch now = Some n ∧ n < e) →
   untouched db db' id) ∧
  (tombstone_expired now r = true →
   db'.(db_runs) !! id = None ∧ events_of db' id = [] ∧ extraction_rows db' id = [] ∧
   proposals_of db' id = [] ∧ db'.(db_writes) !! id = None).
Proof.
  intros db'. subst db'. split.
  - intros Hkeep. assert (¬ purged db now id) as Hn.
    { intros (x & Hx & Ht). rewrite Hrun in Hx. injection Hx as <-. unfold tombstone_expired in Ht.
      bools. destruct Hkeep as [Hs|[Hs|(e & n & He & Hnow & Hlt)]]; try congruence.
      rewrite He, Hnow in *. by apply Z.leb_gt in Hlt; congruence. }
    split_and!; unfold extraction_rows, proposals_of;
      rewrite ?purge_runs, ?purge_events_of, ?purge_writes, ?decide_False by done; try done.
    all: simpl; rewrite filter_gone, decide_False; [done|by rewrite purged_spec].
  - intros Ht. assert (purged db now id) as Hp by (by exists r).
    split_and!; unfold extraction_rows, proposals_of;
      rewrite ?purge_runs, ?purge_events_of, ?purge_writes, ?decide_True by done; try done.
    all: simpl; rewrite filter_gone, decide_True; [done|by rewrite purged_spec].
Qed.

(** Runs are isolated: a committed transaction on one run leaves every row of
    every other run as it was.  For each run, a ledger step leaves all its rows alone,
    or advances exactly that run, or admits it, or leaves its state, log and write
    alone, or purges it. *)
Theorem runs_isolated (db db' : Db) (id : text) (Hr : reachable db) (Hs : ledger_step db db') :
  touch db db' id.
Proof. apply ledger_step_touch; [done|]. by apply reachable_store_inv. Qed.

End Proposals.
