(* ===== verification/AutomationWitness.v ===== *)
(** * A run from detection to the calendar, evaluated

    One concrete run through the store, with instances of the library parameters
    (ASCII text, plain addresses, the UTC zone): admitted, extracted, proposed,
    confirmed, submitted and completed; and the branch in which its source is lost
    after consent.  The states witness the hypotheses of the automation theorems. *)

From S2P Require Export CalendarTheorems.
From stdpp Require Import options.

Local Open Scope Z_scope.

Module Demo.

Global Instance demo_unicode : Unicode := ascii_unicode.
Global Instance demo_addresses : AddressLib := {| parseaddr := fun t => t; idna := fun t => Some t |}.
Global Instance demo_zones : Zones := {|
  zone_info := fun t => if decide (t = str "UTC") then Some (fun _ => 0) else None;
  system_instant := fun w => Some w |}.

Definition uuid (n : N) : text := (str "00000000-0000-4000-8000-0000000000" ++ [48 + n / 10; 48 + n mod 10])%N%list.
Definition identity : text := Sha256.hexdigest (str "mailbox").
Definition run : text := uuid 1.

Definition sources : SourceTables := {|
  st_messages := [{| ms_message_id := str "m1"; ms_provider := str "gmail"; ms_account_id := str "a";
    ms_mailbox_identity_key := Some identity; ms_provider_message_id := str "p1";
    ms_logical_of := None; ms_thread_key := None; ms_received_at := None;
    ms_discovered_at := None |}];
  st_thread_follow := []; st_mail_accounts := []; st_has_removal_schema := false;
  st_intents := []; st_targets := [] |}.

(** 2026-03-01T09:00:00Z *)
Definition t0 : Z := ymd_days 2026 3 1 * DAY + 9 * 3600 * US.
Definition at_minute (n : Z) : datetime := utc (t0 + n * MINUTE).

Abbreviation db0 := (empty_db sources).

(** The database a transaction commits. *)
Definition committed {A} (m : py (A * Db)) : Db :=
  match m with Ret (_, db) => db | Raise _ => db0 end.

Abbreviation admission := (admit_scheduling_automation db0 (str "gmail") (str "a") identity (str "p1")
  identity (isoformat (at_minute 0)) (isoformat (at_minute 600)) run (uuid 10)).
Definition db1 : Db := Eval vm_compute in committed (db ← admission; Ret (tt, db)).

Abbreviation reserve := (reserve_automation_extraction db1 run 1 identity (str "2026-03-01")
  (str "UTC") 4000 (str "me@example.com") (at_minute 1) (uuid 2) (uuid 3) (uuid 11)).
Definition db2 : Db := Eval vm_compute in committed reserve.

Definition result_json : bytes := str "{}".
Abbreviation result := (record_automation_extraction db2 run 2 (uuid 2)
  (Sha256.hexdigest result_json) result_json [] (Some RProposing) None (at_minute 2) (uuid 12)).
Definition db3 : Db := Eval vm_compute in committed result.

Definition start : text := isoformat (at_minute 60).
Definition end_ : text := isoformat (at_minute 90).
Abbreviation propose := (record_automation_proposal db3 run 3 (uuid 2) identity (str "Call")
  [str "you@example.com"] (Some start) (Some end_) (Some (str "UTC")) (Some (str "free")) None
  (at_minute 3) (uuid 4) (uuid 13)).
Definition db4 : Db := Eval vm_compute in committed propose.

Definition proposal_hash : text := Eval vm_compute in
  match db4.(db_proposals) with p :: _ => p.(pr_proposal_sha256) | [] => [] end.
Abbreviation confirm := (decide_automation_proposal db4 run 4 1 proposal_hash (str "confirm") true
  (at_minute 5) (uuid 5) (uuid 14)).
Definition db5 : Db := Eval vm_compute in committed confirm.

Abbreviation submit := (begin_automation_calendar_write db5 run 5 (t0 + 6 * MINUTE) (uuid 15)).
Definition db6 : Db := Eval vm_compute in committed submit.

Abbreviation complete := (transition_automation_calendar_write db6 run 6 RCompleted None
  (Some (str "graph-1")) (t0 + 7 * MINUTE) (uuid 16)).
Definition db7 : Db := Eval vm_compute in committed complete.

(** The source message is removed after consent. *)
Abbreviation lose := (mark_automation_sources_unavailable db5 [str "m1"] [uuid 17]
  (isoformat (at_minute 6)) CauseSourceUnavailable).
Definition db8 : Db := Eval vm_compute in
  match lose with Ret (db, _) => db | Raise _ => db0 end.

Definition row_of (db : Db) : option AutomationRun := db.(db_runs) !! run.

Lemma states :
  (run_st <$> row_of db1, run_st <$> row_of db2, run_st <$> row_of db3, run_st <$> row_of db4) =
    (Some RDetected, Some RExtracting, Some RProposing, Some RAwaitingConfirmation) ∧
  (run_st <$> row_of db5, run_st <$> row_of db6, run_st <$> row_of db7, run_st <$> row_of db8) =
    (Some RWriteAuthorized, Some RWriting, Some RCompleted, Some RSourceUnavailable).
Proof. by vm_compute. Qed.

Lemma snd_inv {A B} (m : py (A * B)) b : snd <$> m = Ret b → ∃ a, m = Ret (a, b).
Proof. destruct m as [[a b']|]; simpl; [|done]. intros [= <-]. by exists a. Qed.

Lemma fst_inv {A B} (m : py (A * B)) a : fst <$> m = Ret a → ∃ b, m = Ret (a, b).
Proof. destruct m as [[a' b]|]; simpl; [|done]. intros [= <-]. by exists b. Qed.

Lemma admitted : admission = Ret db1.
Proof. vm_compute. reflexivity. Qed.

Lemma reserved : snd <$> reserve = Ret db2.
Proof. vm_compute. reflexivity. Qed.

Lemma extracted : snd <$> result = Ret db3.
Proof. vm_compute. reflexivity. Qed.

Lemma proposed : snd <$> propose = Ret db4.
Proof. vm_compute. reflexivity. Qed.

Lemma confirmed : snd <$> confirm = Ret db5.
Proof. vm_compute. reflexivity. Qed.

Lemma submitted : snd <$> submit = Ret db6.
Proof. vm_compute. reflexivity. Qed.

Lemma completed : snd <$> complete = Ret db7.
Proof. vm_compute. reflexivity. Qed.

Lemma lost : fst <$> lose = Ret db8.
Proof. vm_compute. reflexivity. Qed.

Lemma fresh4 : fresh_transaction db4 (uuid 5).
Proof.
  assert (forallb (fun o => negb (bool_decide (o.(ev_transaction_id) = Some (uuid 5))))
            db4.(db_events) = true) as Hf by (vm_compute; reflexivity).
  rewrite forallb_elem in Hf. intros o Ho. apply Hf in Ho. by bools.
Qed.

Lemma reach_step db db' : reachable db → store_step db db' → reachable db'.
Proof. intros [s Hs] Hst. exists s. by eapply rtc_r. Qed.

Lemma reach3 : reachable db3.
Proof.
  exists sources. destruct (snd_inv _ _ reserved) as [x Hx], (snd_inv _ _ extracted) as [r Hr].
  eapply rtc_l; [by eapply SAdmit, admitted|]. eapply rtc_l; [by eapply SReserve, Hx|].
  apply rtc_once. by eapply SResult, Hr.
Qed.

Lemma reach4 : reachable db4.
Proof.
  destruct (snd_inv _ _ proposed) as [p Hp]. eapply reach_step; [apply reach3|]. by eapply SPropose, Hp.
Qed.

Lemma step5 : store_step db4 db5.
Proof. destruct (snd_inv _ _ confirmed) as [x Hx]. eapply SDecide; [apply fresh4|exact Hx]. Qed.

Lemma reach5 : reachable db5.
Proof. eapply reach_step; [apply reach4|apply step5]. Qed.

Lemma step6 : store_step db5 db6.
Proof. destruct (snd_inv _ _ submitted) as [x Hx]. by eapply SBegin, Hx. Qed.

Lemma step7 : store_step db6 db7.
Proof. destruct (snd_inv _ _ completed) as [x Hx]. by eapply STransition, Hx. Qed.

Lemma reach7 : reachable db7.
Proof. eapply reach_step; [eapply reach_step; [apply reach5|apply step6]|apply step7]. Qed.

Lemma step8 : store_step db5 db8.
Proof. destruct (fst_inv _ _ lost) as [n Hn]. by eapply SMarkUnavailable, Hn. Qed.

Lemma reach8 : reachable db8.
Proof. eapply reach_step; [apply reach5|apply step8]. Qed.

(** Rows of the reached stores. *)
Lemma row3 : ∃ r, db3.(db_runs) !! run = Some r ∧ r.(run_st) = RProposing.
Proof. eexists. split; [vm_compute; reflexivity|reflexivity]. Qed.

Lemma row4 : ∃ r, db4.(db_runs) !! run = Some r ∧ r.(run_st) = RAwaitingConfirmation.
Proof. eexists. split; [vm_compute; reflexivity|reflexivity]. Qed.

Lemma row5 : ∃ r, db5.(db_runs) !! run = Some r ∧ r.(run_st) = RWriteAuthorized.
Proof. eexists. split; [vm_compute; reflexivity|reflexivity]. Qed.

Lemma row6 : ∃ r, db6.(db_runs) !! run = Some r ∧ r.(run_st) = RWriting.
Proof. eexists. split; [vm_compute; reflexivity|reflexivity]. Qed.

Lemma row7 : ∃ r, db7.(db_runs) !! run = Some r ∧ r.(run_st) = RCompleted.
Proof. eexists. split; [vm_compute; reflexivity|reflexivity]. Qed.

Lemma row8 : ∃ r, db8.(db_runs) !! run = Some r ∧ r.(run_st) = RSourceUnavailable.
Proof. eexists. split; [vm_compute; reflexivity|reflexivity]. Qed.

Lemma write7 : ∃ w, db7.(db_writes) !! run = Some w ∧ w.(wr_status) = WCompleted.
Proof. eexists. split; [vm_compute; reflexivity|reflexivity]. Qed.

(** Consent and cancellation in the log of the lost run. *)
Lemma pair8 : ∃ a c, a ∈ automation_events db8 run ∧ c ∈ automation_events db8 run ∧
  cancelled_pair run 5 None a c = true ∧ c.(ev_state_version) = 6 ∧ cancels c.
Proof.
  eexists _, _. split_and!.
  - apply (list_elem_of_lookup_2 _ 4). vm_compute. reflexivity.
  - apply (list_elem_of_lookup_2 _ 5). vm_compute. reflexivity.
  - vm_compute. reflexivity.
  - reflexivity.
  - split; reflexivity.
Qed.

(** The authorized write, its consent and its proposal. *)
Lemma consent5 : ∃ w a p, db5.(db_writes) !! run = Some w ∧ w.(wr_status) = WAuthorized ∧
  a ∈ automation_events db5 run ∧ consent a w ∧
  proposal_by_identity db5 run w.(wr_proposal_version) w.(wr_proposal_sha256) = Some p.
Proof.
  eexists _, _, _. split_and!.
  - vm_compute. reflexivity.
  - reflexivity.
  - apply (list_elem_of_lookup_2 _ 4). vm_compute. reflexivity.
  - split_and!; vm_compute; reflexivity.
  - vm_compute. reflexivity.
Qed.

(** The confirmation returns the authorized run. *)
Lemma confirm_run : ∃ r, confirm = Ret (RunResult r, db5) ∧ r.(run_st) = RWriteAuthorized.
Proof. eexists. split; [vm_compute; reflexivity|reflexivity]. Qed.

Lemma fresh_event5 : fresh_event db5 (uuid 20).
Proof.
  split; [reflexivity|].
  assert (forallb (fun o => negb (bool_decide (o.(ev_event_id) = uuid 20))) db5.(db_events) = true)
    as Hf by (vm_compute; reflexivity).
  rewrite forallb_elem in Hf. intros o Ho. apply Hf in Ho. by bools.
Qed.

Lemma fresh_event4 : fresh_event db4 (uuid 14).
Proof.
  split; [reflexivity|].
  assert (forallb (fun o => negb (bool_decide (o.(ev_event_id) = uuid 14))) db4.(db_events) = true)
    as Hf by (vm_compute; reflexivity).
  rewrite forallb_elem in Hf. intros o Ho. apply Hf in Ho. by bools.
Qed.

Lemma clock5 : astimezone_utc (at_minute 5) = Ret (t0 + 5 * MINUTE).
Proof. vm_compute. reflexivity. Qed.

Lemma clock9 : astimezone_utc (at_minute 9) = Ret (t0 + 9 * MINUTE).
Proof. vm_compute. reflexivity. Qed.

Lemma end_nonempty : end_ ≠ [].
Proof. vm_compute. discriminate. Qed.

Lemma utc_nonempty : str "UTC" ≠ [].
Proof. vm_compute. discriminate. Qed.

Lemma uuid5_length : length (uuid 5) = 36%nat.
Proof. vm_compute. reflexivity. Qed.

(** The open proposal of the waiting run. *)
Lemma open4 : ∃ r p, db4.(db_runs) !! run = Some r ∧
  proposal_by_identity db4 run 1 proposal_hash = Some p ∧
  current_proposal db4 r 4 1 proposal_hash p ∧ proposal_open r p (t0 + 5 * MINUTE) ∧
  p.(pr_end) = Some end_ ∧ p.(pr_timezone) = Some (str "UTC").
Proof.
  eexists _, _. split_and!.
  - vm_compute. reflexivity.
  - vm_compute. reflexivity.
  - split_and!; try (vm_compute; reflexivity).
    apply (list_elem_of_lookup_2 _ 0). vm_compute. reflexivity.
  - split; [vm_compute; reflexivity|].
    exists (t0 + 18 * MINUTE), (t0 + 60 * MINUTE).
    split_and!; vm_compute; reflexivity.
  - vm_compute. reflexivity.
  - vm_compute. reflexivity.
Qed.

End Demo.

Import Demo.

Lemma reachable_inv_witness : reachable db7 ∧ Inv db7.
Proof. split; [exact reach7|exact (reachable_inv db7 reach7)]. Defined.

Lemma store_refines_ledger_witness : store_step db5 db8 ∧ rtc ledger_step db5 db8.
Proof. split; [exact step8|exact (store_refines_ledger db5 db8 reach5 step8)]. Defined.

Lemma event_log_complete_witness : ∃ r, db7.(db_runs) !! run = Some r ∧
  automation_events db7 run = events_of db7 run ∧ log_ok r (automation_events db7 run).
Proof.
  destruct row7 as (r & Hr & _). exists r. split; [exact Hr|].
  exact (event_log_complete db7 run r reach7 Hr).
Defined.

Lemma write_has_consent_witness : ∃ w r a, db7.(db_writes) !! run = Some w ∧
  db7.(db_runs) !! run = Some r ∧ a ∈ automation_events db7 run ∧ consent a w.
Proof.
  destruct write7 as (w & Hw & _).
  destruct (write_has_consent db7 run w reach7 Hw) as (r & a & Hr & Ha & Hc & _).
  exists w, r, a. split_and!; assumption.
Defined.

Lemma extraction_budget_witness : (length (extractions_of db7 run) <= 2)%nat.
Proof. exact (proj1 (extraction_budget db7 run reach7)). Defined.

Lemma settled_run_final_witness : unmoved db7 (set_sources db7 sources) run.
Proof.
  destruct row7 as (r & Hr & Hst).
  apply (settled_run_final db7 (set_sources db7 sources) run r reach7).
  - eapply SSources. reflexivity.
  - exact Hr.
  - rewrite Hst. reflexivity.
  - exists r. exact Hr.
Defined.

Lemma cancelled_begin_replays_witness : ∃ run' outcome,
  begin_automation_calendar_write db8 run 5 (t0 + 8 * MINUTE) (uuid 21)
    = Ret (CancelledResult run' outcome, db8) ∧ outcome.(wo_status) = WCancelled.
Proof.
  destruct row8 as (r & Hr & _), pair8 as (a & c & Ha & Hc & Hp & _).
  eexists _, _. split.
  - exact (cancelled_begin_replays db8 run r 5 (t0 + 8 * MINUTE) (uuid 21) a c reach8 Hr Ha Hc Hp).
  - reflexivity.
Defined.

Lemma db5_writes_changed : db5.(db_writes) ≠ db4.(db_writes).
Proof.
  intros Heq. assert (is_none (db5.(db_writes) !! run) = is_none (db4.(db_writes) !! run)) as Hn
    by by rewrite Heq. vm_compute in Hn. discriminate Hn.
Qed.

Lemma authorization_needs_open_proposal_witness : ∃ r stamp p,
  db4.(db_runs) !! run = Some r ∧ current_proposal db4 r 4 1 proposal_hash p ∧
  proposal_open r p stamp.
Proof.
  destruct (snd_inv _ _ confirmed) as [res Hres].
  destruct (authorization_needs_open_proposal _ _ _ _ _ _ _ _ _ _ _ _ reach4 Hres db5_writes_changed)
    as (_ & _ & r & stamp & p & w & Hr & _ & Hc & Ho & _).
  exists r, stamp, p. split_and!; assumption.
Defined.

Lemma cancelled_confirm_replays_witness : ∃ run' outcome,
  decide_automation_proposal db8 run 4 1 proposal_hash (str "confirm") true (at_minute 9)
    (uuid 22) (uuid 23) = Ret (CancelledResult run' outcome, db8) ∧
  outcome.(wo_transaction_id) = Some (uuid 5).
Proof.
  destruct row4 as (r4 & Hr4 & Hst4), row8 as (r8 & Hr8 & _), pair8 as (a & c & _ & Hc & _ & Hcv & Hcan).
  destruct confirm_run as (r5 & Hr5 & Hst5).
  eexists _, _. split.
  - exact (cancelled_confirm_replays db4 db5 db8 run r4 r5 r8 4 1 proposal_hash (uuid 5) (uuid 14) true
      (at_minute 5) c true (at_minute 9) (t0 + 9 * MINUTE) (uuid 22) (uuid 23)
      reach4 fresh4 Hr4 Hst4 Hr5 Hst5 (rtc_once _ _ step8) Hr8 Hc Hcv Hcan clock9).
  - reflexivity.
Defined.

Lemma confirm_idempotent_witness : ∃ r v pv sha,
  decide_automation_proposal db5 run v pv sha (str "confirm") true (at_minute 9) (uuid 22) (uuid 23)
    = Ret (RunResult r, db5).
Proof.
  destruct row5 as (r & Hr & _), consent5 as (w & a & p & Hw & Hst & Ha & Hc & Hp).
  exists r, (a.(ev_state_version) - 1), w.(wr_proposal_version), w.(wr_proposal_sha256).
  apply (confirm_idempotent db5 run r w a p true (at_minute 9) (t0 + 9 * MINUTE) (uuid 22) (uuid 23)
    reach5 Hr Hw ltac:(rewrite Hst; discriminate) Ha Hc Hp clock9).
Defined.

Lemma confirm_progress_witness : ∃ r' db' ,
  decide_automation_proposal db4 run 4 1 proposal_hash (str "confirm") true (at_minute 5)
    (uuid 5) (uuid 14) = Ret (RunResult r', db') ∧ r'.(run_st) = RWriteAuthorized.
Proof.
  destruct open4 as (r & p & Hr & Hp & Hcur & Hopen & He & Hz).
  destruct (confirm_progress db4 run r p 4 1 proposal_hash end_ (str "UTC") (at_minute 5)
    (t0 + 5 * MINUTE) (uuid 5) (uuid 14) reach4 Hr Hp Hcur Hopen clock5
    (conj He end_nonempty) (conj Hz utc_nonempty) (conj uuid5_length fresh4) fresh_event4) as (r' & db' & w & Hop & Hst & _).
  exists r', db'. split; assumption.
Defined.

Lemma proposal_window_bounded_witness : ∃ p, p ∈ db4.(db_proposals) ∧
  ∃ e, stored_instant p.(pr_expires_at) = Some e.
Proof.
  destruct (snd_inv _ _ proposed) as [r' Hop], row3 as (r & Hr & _).
  destruct (proposal_window_bounded _ _ _ _ _ _ _ _ _ _ _ _ _ _ _ _ r r' reach3 Hr Hop)
    as (p & zone & stamp & sa & ea & ex & Hp & _ & _ & _ & _ & _ & _ & _ & _ & _ & _ & _ & _ & He).
  exists p. split; [assumption|]. eexists. exact He.
Defined.

Lemma proposal_version_fresh_witness : ∃ p, p ∈ db4.(db_proposals) ∧
  p.(pr_proposal_version) = calendar_proposal_generation db3 run None + 1.
Proof.
  destruct (snd_inv _ _ proposed) as [r' Hop], row3 as (r & Hr & _).
  destruct (proposal_version_fresh _ _ _ _ _ _ _ _ _ _ _ _ _ _ _ _ r r' reach3 Hr Hop)
    as (p & atts & json & Hp & _ & _ & Hv & _).
  exists p. split; assumption.
Defined.

Lemma source_loss_cancels_witness : ∃ db' r r', db5.(db_runs) !! run = Some r ∧
  cancel_automation_source db5 r (wr_transaction_id <$> db5.(db_writes) !! run)
    (isoformat (at_minute 6)) CauseThreadUnfollowed (uuid 20) = Ret (db', true) ∧
  db'.(db_runs) !! run = Some r' ∧ r'.(run_st) = RSourceUnavailable.
Proof.
  destruct row5 as (r & Hr & Hst).
  destruct (source_loss_cancels db5 run r (isoformat (at_minute 6)) CauseThreadUnfollowed (uuid 20)
    reach5 Hr (or_intror Hst) fresh_event5) as (db' & r' & Hop & Hr' & Hst' & _).
  exists db', r, r'. split_and!; assumption.
Defined.

Lemma purge_spares_writing_witness :
  untouched db6 (purge_expired_automation_tombstones db6 (isoformat (at_minute 100000))) run.
Proof.
  destruct row6 as (r & Hr & Hst).
  exact (proj1 (purge_spares_writing db6 (isoformat (at_minute 100000)) run r Hr) (or_introl Hst)).
Defined.

Lemma runs_isolated_witness : touch db7 (set_sources db7 sources) run.
Proof. exact (runs_isolated db7 (set_sources db7 sources) run reach7 (LSources _ _ sources eq_refl)). Defined.
