(* ===== verification/StampOrder.v ===== *)
(** * The order of time stamps

    The statements of [src/src/eom_email_watcher/db.py] compare times as texts.  On the
    stamps the program writes, [datetime.isoformat()] of a UTC time, with or without
    microseconds, the order of the texts is the order of the instants. *)

From S2P Require Export IsoTimeFacts JsonFacts GmailCodec.
From stdpp Require Import options.

Local Open Scope Z_scope.

(** ** Texts of fixed width *)

Lemma text_ltb_same_length u v x y : length u = length v →
  text_ltb (u ++ x) (v ++ y) = text_ltb u v || (bool_decide (u = v) && text_ltb x y).
Proof.
  revert v. induction u as [|c u IH]; intros [|d v] Hl; simplify_eq/=; [done|].
  rewrite IH by done. destruct (N.ltb_spec c d); simpl; [done|].
  destruct (N.eqb_spec c d) as [->|Hn]; simpl.
  - destruct (text_ltb u v); simpl; [done|]. repeat case_bool_decide; simplify_eq/=; done.
  - rewrite bool_decide_eq_false_2 by congruence. done.
Qed.

Lemma text_ltb_digit a b : 0 <= a < 10 → 0 <= b < 10 → text_ltb [digit a] [digit b] = (a <? b).
Proof. intros. unfold digit. simpl. destruct (Z.ltb_spec a b); lia. Qed.

Lemma fmt_inj k a b : 0 <= a < 10 ^ Z.of_nat k → 0 <= b < 10 ^ Z.of_nat k → fmt k a = fmt k b → a = b.
Proof.
  intros Ha Hb E. apply number_from_fmt in Ha, Hb. congruence.
Qed.

Lemma text_ltb_fmt k a b : 0 <= a < 10 ^ Z.of_nat k → 0 <= b < 10 ^ Z.of_nat k →
  text_ltb (fmt k a) (fmt k b) = (a <? b).
Proof.
  revert a b. induction k as [|k IH]; intros a b Ha Hb; [simpl in *; lia|].
  rewrite Nat2Z.inj_succ, Z.pow_succ_r in Ha, Hb by lia.
  assert (0 <= a / 10 < 10 ^ Z.of_nat k) by (split; [apply Z.div_pos; lia|apply Z.div_lt_upper_bound; lia]).
  assert (0 <= b / 10 < 10 ^ Z.of_nat k) by (split; [apply Z.div_pos; lia|apply Z.div_lt_upper_bound; lia]).
  cbn [fmt]. rewrite text_ltb_same_length by by rewrite !fmt_length.
  rewrite IH by done. rewrite text_ltb_digit by (apply Z.mod_pos_bound; lia).
  pose proof (Z.div_mod a 10). pose proof (Z.div_mod b 10).
  pose proof (Z.mod_pos_bound a 10). pose proof (Z.mod_pos_bound b 10).
  case_bool_decide as E.
  - apply fmt_inj in E; [|done..]. lia.
  - assert (a / 10 ≠ b / 10) by congruence. lia.
Qed.

(** A number of fixed width decides, or leaves the decision to what follows. *)
Lemma text_ltb_number k a b x y : 0 <= a < 10 ^ Z.of_nat k → 0 <= b < 10 ^ Z.of_nat k →
  text_ltb (fmt k a ++ x) (fmt k b ++ y) = (a <? b) || ((a =? b) && text_ltb x y).
Proof.
  intros Ha Hb. rewrite text_ltb_same_length by by rewrite !fmt_length.
  rewrite text_ltb_fmt by done. f_equal. f_equal. case_bool_decide as E.
  - apply fmt_inj in E; [|done..]. lia.
  - destruct (Z.eqb_spec a b); [congruence|done].
Qed.

Lemma text_ltb_mark c x y : text_ltb ([c] ++ x) ([c] ++ y) = text_ltb x y.
Proof. simpl. by rewrite N.ltb_irrefl, N.eqb_refl. Qed.

(** ** The calendar *)

Definition months : list Z := [1; 2; 3; 4; 5; 6; 7; 8; 9; 10; 11; 12].

Definition year_length (y : Z) : Z := if is_leap y then 366 else 365.

Definition months_check (y : Z) : bool :=
  forallb (fun m => (days_before_month y m + days_in_month y m <=? year_length y) &&
    forallb (fun m' => (m' <=? m) || (days_before_month y m + days_in_month y m <=? days_before_month y m')) months) months.

Lemma month_in m : 1 <= m <= 12 → m ∈ months.
Proof. intros. unfold months. rewrite !elem_of_cons. lia. Qed.

Lemma leap_representative y : ∃ y', is_leap y = is_leap y' ∧ months_check y' = true.
Proof. destruct (is_leap y); [exists 4|exists 1]; split; vm_compute; done. Qed.

Lemma month_end y m : 1 <= m <= 12 →
  days_before_month y m + days_in_month y m <= year_length y ∧
  ∀ m', m < m' <= 12 → days_before_month y m + days_in_month y m <= days_before_month y m'.
Proof.
  intros Hm. destruct (leap_representative y) as (y' & Hl & Hc).
  unfold months_check in Hc. rewrite forallb_elem in Hc. specialize (Hc m (month_in _ Hm)). bools.
  rewrite forallb_elem in H0. unfold year_length in *.
  rewrite (days_in_month_leap y y'), !(days_before_month_leap y y'), Hl by done.
  split; [lia|]. intros m' Hm'. specialize (H0 m' (month_in m' ltac:(lia))).
  rewrite !(days_before_month_leap y y' m') by done. lia.
Qed.

Lemma year_end y y' : y < y' → days_before_year y + year_length y <= days_before_year y'.
Proof.
  intros Hy. unfold year_length, days_before_year. pose proof (is_leap_mod y) as Hl.
  destruct (is_leap y).
  - destruct Hl as [Hl _]. specialize (Hl eq_refl). Z.to_euclidean_division_equations. lia.
  - Z.to_euclidean_division_equations. lia.
Qed.

Lemma days_before_month_nonneg y m : 0 <= days_before_month y m.
Proof.
  unfold days_before_month. induction (seq 1 (Z.to_nat (m - 1))) as [|k l IH]; simpl; [done|].
  assert (0 <= days_in_month y (Z.of_nat k)); [|lia]. unfold days_in_month. repeat case_match; lia.
Qed.

(** Later days have later dates. *)
Definition date_ltb (x y : Z * Z * Z) : bool :=
  (x.1.1 <? y.1.1) || ((x.1.1 =? y.1.1) && ((x.1.2 <? y.1.2) || ((x.1.2 =? y.1.2) && (x.2 <? y.2)))).

Lemma ymd_days_lt y m d y' m' d' : valid_date y m d = true → valid_date y' m' d' = true →
  date_ltb (y, m, d) (y', m', d') = true → ymd_days y m d < ymd_days y' m' d'.
Proof.
  unfold valid_date, date_ltb, ymd_days. simpl. intros Hv Hv' Hlt. bools.
  destruct (month_end y m) as [Hend Hnext]; [lia|].
  pose proof (days_before_month_nonneg y' m').
  apply orb_true_iff in Hlt as [Hy|[Hy Hlt]%andb_true_iff].
  - pose proof (year_end y y' ltac:(lia)). lia.
  - apply Z.eqb_eq in Hy as <-. apply orb_true_iff in Hlt as [Hm|[Hm Hd]%andb_true_iff].
    + specialize (Hnext m' ltac:(lia)). lia.
    + apply Z.eqb_eq in Hm as <-. lia.
Qed.

Lemma date_ltb_total x y : date_ltb x y = false → date_ltb y x = false → x = y.
Proof. destruct x as [[]], y as [[]]. unfold date_ltb. simpl. intros. f_equal; [f_equal|]; lia. Qed.

Lemma days_ymd_order n n' : 0 <= n < MAX_DAYS → 0 <= n' < MAX_DAYS →
  date_ltb (days_ymd n) (days_ymd n') = (n <? n') ∧
  (days_ymd n = days_ymd n' ↔ n = n').
Proof.
  intros Hn Hn'. destruct (days_ymd n) as [[y m] d] eqn:E, (days_ymd n') as [[y' m'] d'] eqn:E'.
  apply days_ymd_spec in E as [Hv Ed], E' as [Hv' Ed']; [|done..].
  destruct (date_ltb (y, m, d) (y', m', d')) eqn:L; [|destruct (date_ltb (y', m', d') (y, m, d)) eqn:L'].
  - pose proof (ymd_days_lt _ _ _ _ _ _ Hv Hv' L). split; [lia|]. split; [intros [= -> -> ->]; lia|lia].
  - pose proof (ymd_days_lt _ _ _ _ _ _ Hv' Hv L'). split; [lia|]. split; [intros [= -> -> ->]; lia|lia].
  - pose proof (date_ltb_total _ _ L L') as [= -> -> ->]. split; [lia|]. split; [lia|done].
Qed.

(** ** Stamps *)

Lemma date_part y m d y' m' d' x x' :
  valid_date y m d = true → valid_date y' m' d' = true →
  text_ltb (fmt 4 y ++ [dash] ++ fmt 2 m ++ [dash] ++ fmt 2 d ++ [84%N] ++ x)
           (fmt 4 y' ++ [dash] ++ fmt 2 m' ++ [dash] ++ fmt 2 d' ++ [84%N] ++ x') =
  date_ltb (y, m, d) (y', m', d') || (bool_decide ((y, m, d) = (y', m', d')) && text_ltb x x').
Proof.
  unfold valid_date, days_in_month, date_ltb. intros Hv Hv'. bools. simpl fst. simpl snd.
  assert (d <= 31 ∧ d' <= 31) as [? ?] by (split; repeat case_match; lia).
  rewrite text_ltb_number, text_ltb_mark, text_ltb_number, text_ltb_mark, text_ltb_number, text_ltb_mark
    by (simpl Z.of_nat; lia).
  case_bool_decide; simplify_eq; [lia|].
  destruct (text_ltb x x'); [|lia]. assert (y ≠ y' ∨ m ≠ m' ∨ d ≠ d'); [|lia].
  destruct (decide (y = y')), (decide (m = m')), (decide (d = d')); subst; tauto.
Qed.

Lemma time_part u u' : 0 <= u < DAY → 0 <= u' < DAY →
  text_ltb (fmt_time u ++ str "+00:00") (fmt_time u' ++ str "+00:00") = (u <? u').
Proof.
  unfold DAY, US. intros Hu Hu'. unfold fmt_time. rewrite <- !app_assoc.
  set (s := u / US). set (s' := u' / US). set (f := u mod US). set (f' := u' mod US).
  assert (u = US * s + f ∧ u' = US * s' + f' ∧ 0 <= f < US ∧ 0 <= f' < US) as (? & ? & ? & ?).
  { unfold s, s', f, f', US. Z.to_euclidean_division_equations. lia. }
  unfold US in *.
  assert (text_ltb ((if f =? 0 then [] else [46%N] ++ fmt 6 f) ++ str "+00:00")
            ((if f' =? 0 then [] else [46%N] ++ fmt 6 f') ++ str "+00:00") = (f <? f')) as Hf.
  { destruct (Z.eqb_spec f 0), (Z.eqb_spec f' 0); try (simpl; lia).
    rewrite <- !app_assoc, text_ltb_mark, text_ltb_number by (simpl Z.of_nat; lia).
    replace (text_ltb (str "+00:00") (str "+00:00")) with false by done. lia. }
  rewrite text_ltb_number, text_ltb_mark, text_ltb_number, text_ltb_mark, text_ltb_number, Hf
    by (simpl Z.of_nat; clearbody s s' f f'; Z.to_euclidean_division_equations; lia).
  clearbody s s' f f'. subst. clear Hf. Z.to_euclidean_division_equations. lia.
Qed.

(** Stamps are compared as the instants they stand for. *)
Lemma stamp_ltb a b : wall_ok a = true → wall_ok b = true →
  text_ltb (isoformat (utc a)) (isoformat (utc b)) = (a <? b).
Proof.
  unfold wall_ok, isoformat. cbn [dt_wall dt_offset utc]. intros Ha Hb. bools.
  destruct (days_ymd_order (a / DAY) (b / DAY)) as [Ho He].
  { unfold DAY, US, MAX_DAYS in *. Z.to_euclidean_division_equations. lia. }
  { unfold DAY, US, MAX_DAYS in *. Z.to_euclidean_division_equations. lia. }
  destruct (days_ymd (a / DAY)) as [[y m] d] eqn:E, (days_ymd (b / DAY)) as [[y' m'] d'] eqn:E'.
  rewrite fmt_offset_utc. apply days_ymd_spec in E as [Hv _], E' as [Hv' _].
  2-3: unfold DAY, US, MAX_DAYS in *; Z.to_euclidean_division_equations; lia.
  rewrite date_part, Ho, time_part by (done || apply Z.mod_pos_bound; done).
  rewrite (bool_decide_ext _ _ He).
  unfold DAY, US. case_bool_decide; Z.to_euclidean_division_equations; lia.
Qed.

Lemma stamp_leb a b : wall_ok a = true → wall_ok b = true →
  text_leb (isoformat (utc a)) (isoformat (utc b)) = (a <=? b).
Proof. intros. unfold text_leb. rewrite stamp_ltb by done. lia. Qed.

Lemma stamp_nonempty d : isoformat d ≠ [].
Proof.
  unfold isoformat. destruct (days_ymd _) as [[y m] dd]. intros E. apply app_eq_nil in E as [E _].
  by apply (f_equal length) in E; rewrite fmt_length in E.
Qed.
