(* ===== verification/AnalysisStore.v ===== *)
(** * The analysis of a message

    Models, of [src/src/eom_email_watcher/db.py], the life of a captured message: the
    request that is reserved for its analysis, failures and retries, the completion
    [Store.mark_analyzed] (which evaluates the rules, admits their fires and the scheduling
    run in one transaction), delivery, and the notifications
    ([Store.notification_intents], [Store.acknowledge_notification]).

    The store composes the components: the rules, the queue with its fires, and the
    scheduling runs.  The message tables are shared; the queue and the runs carry them too,
    and [coherent] (in [AnalysisInvariant]) says that they are the same. *)

From S2P Require Export FireStore AutomationOps.
From stdpp Require Import options.

Local Open Scope Z_scope.

Inductive analysis_status := APending | AAnalyzed | ASummarized | ASkipped.

Global Instance analysis_status_eq_dec : EqDecision analysis_status.
Proof. solve_decision. Defined.

(** The classification of a message. *)
Record AnalysisResult := mk_result {
  ar_category : text;
  ar_priority : text;
  ar_summary : text;
  ar_action_required : bool;
  ar_suggested_action : option text;
  ar_deadline_text : option text;
  ar_deadline_iso : option text;
  ar_confidence : float64 }.

Record AnalysisRequest := mk_analysis_request {
  aq_request_id : text;
  aq_context_at : text;
  aq_body_char_limit : Z }.

(** Retries of a pending or undelivered message. *)
Record RetryState := mk_retry {
  re_attempts : Z;
  re_next_retry_at : option text;
  re_last_error : option text;
  re_retryable : option bool;
  re_error_code : option text;
  re_retry_after_seconds : option Z }.

(** What a completed analysis writes. *)
Record Completion := mk_completion {
  cm_analysis_at : text;
  cm_result : AnalysisResult;
  cm_body_chars : option Z;
  cm_body_source_chars : option Z;
  cm_rules_revision : Z;
  cm_rules_error : option text }.

(** The columns of [messages] that belong to the analysis; those of a request are
    nullable one by one, those of a completion are written together. *)
Record AnalysisRow := mk_analysis {
  ay_sender : text;
  ay_sender_name : option text;
  ay_subject : text;
  ay_status : analysis_status;
  ay_retry : RetryState;
  ay_request_id : option text;
  ay_context_at : option text;
  ay_body_char_limit : option Z;
  ay_fallback_notified_at : option text;
  ay_notified_at : option text;
  ay_completion : option Completion }.

Definition no_retry : RetryState := mk_retry 0 None None None None None.

(** A row as it is captured. *)
Definition captured_row (sender : text) (sender_name : option text) (subject : text) : AnalysisRow :=
  mk_analysis sender sender_name subject APending no_retry None None None None None None.

Definition in_status (status : analysis_status) (r : AnalysisRow) : AnalysisRow :=
  mk_analysis r.(ay_sender) r.(ay_sender_name) r.(ay_subject) status r.(ay_retry) r.(ay_request_id)
    r.(ay_context_at) r.(ay_body_char_limit) r.(ay_fallback_notified_at) r.(ay_notified_at) r.(ay_completion).
Definition with_retry (retry : RetryState) (r : AnalysisRow) : AnalysisRow :=
  mk_analysis r.(ay_sender) r.(ay_sender_name) r.(ay_subject) r.(ay_status) retry r.(ay_request_id)
    r.(ay_context_at) r.(ay_body_char_limit) r.(ay_fallback_notified_at) r.(ay_notified_at) r.(ay_completion).
Definition with_request (request : option AnalysisRequest) (r : AnalysisRow) : AnalysisRow :=
  mk_analysis r.(ay_sender) r.(ay_sender_name) r.(ay_subject) r.(ay_status) r.(ay_retry)
    (aq_request_id <$> request) (aq_context_at <$> request) (aq_body_char_limit <$> request)
    r.(ay_fallback_notified_at) r.(ay_notified_at) r.(ay_completion).
Definition with_notified (fallback notified : option text) (r : AnalysisRow) : AnalysisRow :=
  mk_analysis r.(ay_sender) r.(ay_sender_name) r.(ay_subject) r.(ay_status) r.(ay_retry) r.(ay_request_id)
    r.(ay_context_at) r.(ay_body_char_limit) fallback notified r.(ay_completion).
Definition with_completion (c : Completion) (r : AnalysisRow) : AnalysisRow :=
  mk_analysis r.(ay_sender) r.(ay_sender_name) r.(ay_subject) r.(ay_status) r.(ay_retry) r.(ay_request_id)
    r.(ay_context_at) r.(ay_body_char_limit) r.(ay_fallback_notified_at) r.(ay_notified_at) (Some c).

Section Analysis.
Context `{Unicode} `{AddressLib} `{ConnectLib}.

Record analysis_store := mk_analysis_store {
  an_sources : SourceTables;
  an_rows : gmap text AnalysisRow;
  an_attachments : gmap (text * text) AttachmentDescriptor;
  an_rules : rule_store;
  an_queue : connect_store;
  an_runs : Db }.

Implicit Types a : analysis_store.

Definition set_rows (rows : gmap text AnalysisRow) a : analysis_store :=
  mk_analysis_store a.(an_sources) rows a.(an_attachments) a.(an_rules) a.(an_queue) a.(an_runs).
Definition set_queue (q : connect_store) a : analysis_store :=
  mk_analysis_store a.(an_sources) a.(an_rows) a.(an_attachments) a.(an_rules) q a.(an_runs).
Definition set_automation (d : Db) a : analysis_store :=
  mk_analysis_store a.(an_sources) a.(an_rows) a.(an_attachments) a.(an_rules) a.(an_queue) d.

Definition alter_row (f : AnalysisRow → AnalysisRow) (message_id : text) a : analysis_store :=
  set_rows (alter f message_id a.(an_rows)) a.

Definition stored_message (message_id : text) (st : SourceTables) : option MessageRow :=
  List.find (fun m => bool_decide (m.(ms_message_id) = message_id)) st.(st_messages).

(** ** Requests and retries *)

(** [Store.reserve_analysis_request] *)
Definition reserve_analysis_request (message_id : text) (body_char_limit : Z) (now : datetime) (request_id : text) a
    : py (AnalysisRequest * analysis_store) :=
  _ ← require (1 <=? body_char_limit) (ValueError "body_char_limit must be positive");
  _ ← require (message_available a.(an_sources) CONTENT message_id) (KeyError message_id);
  row ← require_some (a.(an_rows) !! message_id) (KeyError message_id);
  _ ← require (bool_decide (row.(ay_status) = APending))
        (RuntimeError "Analysis request can only be reserved for a pending message");
  match row.(ay_request_id), row.(ay_context_at), row.(ay_body_char_limit) with
  | None, None, None =>
      let request := mk_analysis_request request_id (isoformat now) body_char_limit in
      Ret (request, alter_row (with_request (Some request)) message_id a)
  | Some request_id, Some context_at, Some limit => Ret (mk_analysis_request request_id context_at limit, a)
  | _, _, _ => Raise (RuntimeError "Pending message has incomplete analysis request state")
  end.

(** [delays[min(attempts, len(delays) - 1)]], in minutes; a negative index counts from the end. *)
Definition RETRY_DELAYS : list Z := [5; 15; 60; 360; 1440].
Definition retry_delay (attempts : Z) : option Z :=
  let i := Z.min attempts 4 in
  if 0 <=? i then RETRY_DELAYS !! Z.to_nat i
  else if 0 <=? i + 5 then RETRY_DELAYS !! Z.to_nat (i + 5) else None.

(** [Store.record_failure] *)
Definition record_failure (message_id error : text) (attempts now : Z) a : py analysis_store :=
  delay ← require_some (retry_delay attempts) IndexError;
  retry ← plus_us now (delay * MINUTE);
  Ret (alter_row (fun r => let e := r.(ay_retry) in
         with_retry (mk_retry (e.(re_attempts) + 1) (Some (isoformat (utc retry))) (Some (take 500 error))
                       e.(re_retryable) e.(re_error_code) e.(re_retry_after_seconds)) r) message_id a).

(** When the analysis is tried again; never without [retryable]. *)
Definition next_retry (attempts : Z) (retryable : bool) (retry_after_seconds : option Z) (now : Z) : py (option Z) :=
  if negb retryable then Ret None
  else
    match retry_after_seconds with
    | None => delay ← require_some (retry_delay attempts) IndexError; at_ ← plus_us now (delay * MINUTE); Ret (Some at_)
    | Some seconds => at_ ← plus_us now (seconds * US); Ret (Some at_)
    end.

(** [Store.record_analysis_failure] *)
Definition record_analysis_failure (message_id error : text) (attempts : Z) (retryable : bool)
    (error_code : option text) (retry_after_seconds : option Z) (now : Z) a : py analysis_store :=
  _ ← require (match retry_after_seconds with Some s => 1 <=? s | None => true end)
        (ValueError "retry_after_seconds must be positive");
  retry_at ← next_retry attempts retryable retry_after_seconds now;
  row ← require_some (a.(an_rows) !! message_id) (RuntimeError "Analysis failure target is no longer pending");
  _ ← require (bool_decide (row.(ay_status) = APending)) (RuntimeError "Analysis failure target is no longer pending");
  Ret (alter_row (with_retry (mk_retry (row.(ay_retry).(re_attempts) + 1) ((fun w => isoformat (utc w)) <$> retry_at)
                                (Some (take 500 error)) (Some retryable) error_code retry_after_seconds)) message_id a).

(** [Store.requeue_analysis] *)
Definition requeue_analysis (message_id : text) a : py analysis_store :=
  row ← require_some (a.(an_rows) !! message_id) (KeyError message_id);
  _ ← require (bool_decide (row.(ay_status) = APending) &&
               bool_decide (row.(ay_retry).(re_retryable) = Some false))
        (RuntimeError "Message does not have a permanently paused analysis");
  Ret (alter_row (fun r => with_request None
         (with_retry (mk_retry 0 None r.(ay_retry).(re_last_error) None None None) r)) message_id a).

(** [Store.mark_fallback_notified] *)
Definition mark_fallback_notified (message_id : text) (now : Z) a : analysis_store :=
  if message_available a.(an_sources) CONTENT message_id
  then alter_row (fun r => with_notified (Some (isoformat (utc now))) r.(ay_notified_at) r) message_id a else a.

(** [Store.mark_skipped] *)
Definition skipped_row (r : AnalysisRow) : AnalysisRow :=
  in_status ASkipped (with_request None
    (with_retry (mk_retry r.(ay_retry).(re_attempts) None (Some (str "message unavailable (skipped)")) None None None) r)).

Definition mark_skipped (message_id : text) a : analysis_store := alter_row skipped_row message_id a.

(** The columns of [_requeue_if_skipped]; the binding of a legacy identity is another writer. *)
Definition requeued_row (r : AnalysisRow) : AnalysisRow :=
  if bool_decide (r.(ay_status) = ASkipped) then
    in_status APending
      (with_retry (mk_retry 0 None None r.(ay_retry).(re_retryable) r.(ay_retry).(re_error_code)
                     r.(ay_retry).(re_retry_after_seconds)) r)
  else r.

Definition requeue_if_skipped (message_id : text) a : analysis_store := alter_row requeued_row message_id a.

(** [Store.mark_delivery_complete] *)
Definition mark_delivery_complete (message_id : text) (notified : bool) (now : Z) a : analysis_store :=
  if message_available a.(an_sources) CONTENT message_id
  then alter_row (fun r => let e := r.(ay_retry) in
         in_status ASummarized
           (with_notified r.(ay_fallback_notified_at) (if notified then Some (isoformat (utc now)) else None)
             (with_retry (mk_retry e.(re_attempts) None None e.(re_retryable) e.(re_error_code)
                            e.(re_retry_after_seconds)) r))) message_id a
  else a.

(** ** Completion *)

(** [_automation_expiry] *)
Definition MAX_RETENTION_DAYS : Z := 3650.
Definition automation_expiry (observed_at : text) (admitted_at : Z) : py text :=
  let observed :=
    match fromisoformat observed_at with
    | Some d => match d.(dt_offset) with
                | Some _ => match astimezone_utc d with Ret w => w | Raise _ => admitted_at end
                | None => admitted_at
                end
    | None => admitted_at
    end in
  expires ← plus_us (Z.min observed admitted_at) (MAX_RETENTION_DAYS * DAY);
  Ret (isoformat (utc expires)).

(** The classification as the rules see it. *)
Definition result_view (r : AnalysisResult) : gmap text operand :=
  <[str "category" := VStr r.(ar_category)]>
    (<[str "priority" := VStr r.(ar_priority)]> {[ str "action_required" := VBool r.(ar_action_required) ]}).

(** The stored descriptors of a message, in their order. *)
Definition message_attachments (message_id : text) a : list AttachmentDescriptor :=
  sort_attachments
    ((fun e : text * text * AttachmentDescriptor =>
        let d := e.2 in
        mk_attachment e.1.2 d.(att_attachment_id) d.(att_filename) d.(att_media_type) d.(att_byte_size)
          d.(att_position) d.(att_byte_size_known) None) <$>
       List.filter (fun e => bool_decide (e.1.1 = message_id)) (map_to_list a.(an_attachments))).

(** The rules that match, or the fan-out error that is recorded in their place. *)
Definition evaluate_rules (rules : list MatchRule) (m : MessageRow) (row : AnalysisRow) (mailbox_identity_key : text)
    (result : AnalysisResult) (attachments : list AttachmentDescriptor) : py (list MatchedFire + text) :=
  let limit := Ret (inr (str "automation_fanout_limit")) in
  if bool_decide (MAX_AUTOMATION_ATTACHMENTS < length attachments)%nat then limit
  else
    match match_rules rules (mk_message m.(ms_provider) m.(ms_account_id) mailbox_identity_key row.(ay_sender)
                               row.(ay_sender_name) row.(ay_subject) (result_view result)) attachments with
    | Ret matched => Ret (inl matched)
    | Raise (AutomationFanoutLimit _) => limit
    | Raise e => Raise e
    end.

(** The version of a rule is a stored definition. *)
Definition rule_known (s : rule_store) (rule_id : text) (version : Z) : bool :=
  match s.(rs_versions) !! (rule_id, version) with Some v => is_definition v | None => false end.

(** The fires of the matches; each takes two random identifiers. *)
Fixpoint insert_fires (rules : rule_store) (event_id message_id stamp : text) (scope : MailScope) (uuids : nat → text)
    (n : nat) (matched : list MatchedFire) (q : connect_store) : py connect_store :=
  match matched with
  | [] => Ret q
  | f :: matched' =>
      q ← insert_fire (uuids n) (uuids (S n))
            (mk_fire_source event_id f.(mf_rule_id) f.(mf_rule_version) message_id f.(mf_part_id) stamp) scope
            (rule_known rules f.(mf_rule_id) f.(mf_rule_version)) q;
      insert_fires rules event_id message_id stamp scope uuids (S (S n)) matched' q
  end.

(** The parameters of a statement: a text needs UTF-8, an integer 64 bits. *)
Definition binds_text (t : text) : bool := is_some (Utf8.encode t).
Definition binds_int (z : Z) : bool := (- 2 ^ 63 <=? z) && (z <? 2 ^ 63).
Definition option_texts (l : list (option text)) : list text := omap id l.

Definition result_texts (r : AnalysisResult) : list text :=
  [r.(ar_category); r.(ar_priority); r.(ar_summary)] ++
  option_texts [r.(ar_suggested_action); r.(ar_deadline_text); r.(ar_deadline_iso)].

Definition bind_completion (r : AnalysisResult) (body_chars body_source_chars : option Z) : py unit :=
  _ ← require (forallb binds_text (result_texts r)) UnicodeEncodeError;
  require (forallb binds_int (omap id [body_chars; body_source_chars])) OverflowError.

(** The trigger [messages_body_counts_consistent_update] and the checks of the two columns. *)
Definition check_body_counts (body_chars body_source_chars : option Z) : py unit :=
  _ ← require (match body_chars, body_source_chars with
               | None, None => true
               | Some c, Some s => c <=? s
               | _, _ => false
               end) (IntegrityError "message body counts are inconsistent");
  require (forallb (fun c => 0 <=? c) (omap id [body_chars; body_source_chars])) (IntegrityError "CHECK constraint failed").

Definition completed_row (c : Completion) (r : AnalysisRow) : AnalysisRow :=
  in_status AAnalyzed (with_completion c (with_request None (with_retry no_retry r))).

(** The fires of an evaluation without an error. *)
Definition admit_matches (rules : rule_store) (m : MessageRow) (mailbox_identity_key stamp : text) (uuids : nat → text)
    (evaluated : list MatchedFire + text) (q : connect_store) : py connect_store :=
  match evaluated with
  | inl matched =>
      event_id ← require_some (message_suppression_key m.(ms_provider) m.(ms_account_id) m.(ms_provider_message_id)
                                 (Some mailbox_identity_key)) UnicodeEncodeError;
      insert_fires rules event_id m.(ms_message_id) stamp
        (m.(ms_provider), m.(ms_account_id), mailbox_identity_key) uuids 0 matched q
  | inr _ => Ret q
  end.

Definition fire_count (evaluated : list MatchedFire + text) : nat :=
  match evaluated with inl matched => length matched | inr _ => O end.

(** The scheduling run of a message that was classified as such. *)
Definition admit_run (m : MessageRow) (result : AnalysisResult) (mailbox_identity_key : text) (principal : option text)
    (now : Z) (run_id event_id : text) (d : Db) : py Db :=
  match principal with
  | Some p =>
      if bool_decide (result.(ar_category) = str "scheduling") then
        expires_at ← automation_expiry (default (str "None") m.(ms_discovered_at)) now;
        admit_scheduling_automation d m.(ms_provider) m.(ms_account_id) p m.(ms_provider_message_id)
          mailbox_identity_key (isoformat (utc now)) expires_at run_id event_id
      else Ret d
  | None => Ret d
  end.

(** [Store.mark_analyzed] *)
Definition mark_analyzed (message_id : text) (result : AnalysisResult) (mailbox_identity_key : text)
    (body_chars body_source_chars : option Z) (principal : option text) (now : Z) (uuids : nat → text) a
    : py analysis_store :=
  _ ← require (identity_key_ok mailbox_identity_key)
        (ValueError "mailbox identity key must be a lower-case SHA-256 digest");
  _ ← require (match principal with Some p => len_is 64 p | None => true end)
        (ValueError "scheduling automation principal key must be a 64-character string");
  let stamp := isoformat (utc now) in
  _ ← require (message_available a.(an_sources) CONTENT message_id) (KeyError message_id);
  m ← require_some (stored_message message_id a.(an_sources)) (KeyError message_id);
  row ← require_some (a.(an_rows) !! message_id) (KeyError message_id);
  _ ← require (bool_decide (row.(ay_status) = APending))
        (RuntimeError "Analysis can only complete for a pending message");
  _ ← require (bool_decide (a.(an_rules).(rs_mail_accounts) !! (m.(ms_provider), m.(ms_account_id))
                            = Some (Some mailbox_identity_key)) &&
               bool_decide (m.(ms_mailbox_identity_key) = Some mailbox_identity_key))
        (MailboxIdentityChanged "mailbox identity changed");
  revision ← require_some a.(an_rules).(rs_revision) (RuntimeError "automation rule-set authority is missing");
  rules ← _current_match_rules a.(an_rules);
  evaluated ← evaluate_rules rules m row mailbox_identity_key result (message_attachments message_id a);
  let completion := mk_completion stamp result body_chars body_source_chars revision
                      (match evaluated with inl _ => None | inr e => Some e end) in
  _ ← bind_completion result body_chars body_source_chars;
  _ ← check_body_counts body_chars body_source_chars;
  let a := alter_row (completed_row completion) message_id a in
  q ← admit_matches a.(an_rules) m mailbox_identity_key stamp uuids evaluated a.(an_queue);
  let n := (2 * fire_count evaluated)%nat in
  d ← admit_run m result mailbox_identity_key principal now (uuids n) (uuids (S n)) a.(an_runs);
  Ret (set_automation d (set_queue q a)).

End Analysis.

(** * Work lists and notifications of the analysis

    Models, of [src/src/eom_email_watcher/db.py], [Store.pending],
    [Store.has_current_pending_mailbox_work], [Store.pending_delivery],
    [Store.notification_intents], [Store.notification_intent_count] and
    [Store.acknowledge_notification].  Of an intent its identity is modelled, not the texts
    that are shown. *)

Inductive notification_kind := NAnalysis | NFallback | NReview.

Global Instance notification_kind_eq_dec : EqDecision notification_kind.
Proof. solve_decision. Defined.

Definition kind_text (k : notification_kind) : text :=
  match k with
  | NAnalysis => str "analysis"
  | NFallback => str "fallback"
  | NReview => str "automation_review"
  end.

(** The identity of an intent and the time it is ordered by. *)
Record NotificationIntent := mk_intent {
  ni_subject_type : text;
  ni_subject_id : text;
  ni_revision : text;
  ni_message_id : text;
  ni_kind : notification_kind;
  ni_sort_at : text }.

(** [LIMIT ?]: a negative limit is none. *)
Definition sql_limit {A} (n : Z) (l : list A) : list A := if n <? 0 then l else take (Z.to_nat n) l.

(** [int(value)] of a text: surrounding space, a sign, and decimal digits in groups joined
    by single underscores; more than 4300 digits are refused. *)
Section PythonInt.
Context `{Unicode}.

Fixpoint int_digits (acc : Z) (after_digit : bool) (t : text) : option Z :=
  match t with
  | [] => if after_digit then Some acc else None
  | c :: t' =>
      match uni_decimal c with
      | Some d => int_digits (acc * 10 + Z.of_N d) true t'
      | None => if bool_decide (c = 95%N) && after_digit then int_digits acc false t' else None
      end
  end.

Definition int_literal (digits : text) : option Z :=
  if bool_decide (length (List.filter (fun c => is_some (uni_decimal c)) digits) <= JsonParse.INT_MAX_STR_DIGITS)%nat
  then int_digits 0 false digits else None.

Definition python_int (value : text) : option Z :=
  match strip value with
  | 45%N :: digits => Z.opp <$> int_literal digits
  | 43%N :: digits => int_literal digits
  | digits => int_literal digits
  end.
End PythonInt.

Section Reads.
Context `{Unicode} `{AddressLib} `{ConnectLib}.
Implicit Types a : analysis_store.

(** ** Work lists *)

(** [logical_messages AS m WHERE (eligible)] with their columns. *)
Definition live_rows a : list (MessageRow * AnalysisRow) :=
  let st := a.(an_sources) in
  omap (fun m => r ← a.(an_rows) !! m.(ms_message_id); Some (m, r))
    (List.filter (content_available st) (logical_messages st)).

(** [next_retry_at IS NULL OR next_retry_at <= ?] *)
Definition retry_due (stamp : text) (r : AnalysisRow) : bool :=
  match r.(ay_retry).(re_next_retry_at) with Some t => text_leb t stamp | None => true end.

(** [COALESCE(analysis_retryable, 1) = 1] *)
Definition retry_allowed (r : AnalysisRow) : bool := default true r.(ay_retry).(re_retryable).

Definition received_leb (x y : MessageRow * AnalysisRow) : bool :=
  text_leb (default [] x.1.(ms_received_at)) (default [] y.1.(ms_received_at)).

Definition pending_row (stamp : text) (scope : option (text * text)) (e : MessageRow * AnalysisRow) : bool :=
  bool_decide (e.2.(ay_status) = APending) && retry_allowed e.2 && retry_due stamp e.2 &&
  match scope with
  | Some (provider, account_id) =>
      bool_decide (e.1.(ms_provider) = provider) && bool_decide (e.1.(ms_account_id) = account_id)
  | None => true
  end.

(** [Store.pending] *)
Definition pending (now limit : Z) (provider account_id : option text) a : py (list (MessageRow * AnalysisRow)) :=
  _ ← require (Bool.eqb (is_none provider) (is_none account_id))
        (ValueError "provider and account_id must be supplied together");
  let scope := match provider, account_id with Some p, Some i => Some (p, i) | _, _ => None end in
  Ret (sql_limit limit (sort_by received_leb (List.filter (pending_row (isoformat (utc now)) scope) (live_rows a)))).

(** [Store.has_current_pending_mailbox_work] *)
Definition has_current_pending_mailbox_work (provider account_id mailbox_identity_key : text) a : py bool :=
  _ ← require (identity_key_ok mailbox_identity_key)
        (ValueError "mailbox identity key must be a lower-case SHA-256 digest");
  Ret (existsb (fun e : MessageRow * AnalysisRow =>
         bool_decide (e.2.(ay_status) = APending) && retry_allowed e.2 &&
         bool_decide (e.1.(ms_provider) = provider) && bool_decide (e.1.(ms_account_id) = account_id) &&
         bool_decide (e.1.(ms_mailbox_identity_key) = Some mailbox_identity_key) &&
         bool_decide (a.(an_rules).(rs_mail_accounts) !! (provider, account_id) = Some (Some mailbox_identity_key)))
       (live_rows a)).

(** [Store.pending_delivery] *)
Definition pending_delivery (now limit : Z) a : list (MessageRow * AnalysisRow) :=
  sql_limit limit (sort_by received_leb
    (List.filter (fun e => bool_decide (e.2.(ay_status) = AAnalyzed) && retry_due (isoformat (utc now)) e.2)
       (live_rows a))).

(** ** Notifications *)

Definition message_intent_due (r : AnalysisRow) : bool :=
  (bool_decide (r.(ay_status) = AAnalyzed) && is_none r.(ay_notified_at)) ||
  (bool_decide (r.(ay_status) = APending) && is_some r.(ay_retry).(re_last_error) &&
   is_none r.(ay_fallback_notified_at)).

Definition message_intent (e : MessageRow * AnalysisRow) : NotificationIntent :=
  mk_intent (str "message") e.1.(ms_message_id)
    (match e.2.(ay_completion) with Some c => c.(cm_analysis_at) | None => str "fallback" end) e.1.(ms_message_id)
    (if bool_decide (e.2.(ay_status) = AAnalyzed) then NAnalysis else NFallback) (default [] e.1.(ms_received_at)).

(** [_RUN_OF_A_CHILD_ROW] *)
Definition run_of_child_row (st : SourceTables) (r : AutomationRun) : bool :=
  let k := r.(run_key) in
  existsb (fun child =>
    is_some child.(ms_logical_of) && bool_decide (child.(ms_provider) = k.(rk_provider)) &&
    bool_decide (child.(ms_account_id) = k.(rk_account_id)) &&
    sql_eq (message_suppression_key child.(ms_provider) child.(ms_account_id) child.(ms_provider_message_id)
              child.(ms_mailbox_identity_key)) (Some k.(rk_source_message_key))) st.(st_messages).

Definition review_state (r : AutomationRun) : bool :=
  bool_decide (r.(run_st) = RAmbiguous) || bool_decide (r.(run_st) = RManualReview) ||
  bool_decide (r.(run_st) = RSourceUnavailable).

Definition run_intent_due a (r : AutomationRun) : bool :=
  review_state r && is_none r.(run_review_notified_at) && negb (run_of_child_row a.(an_sources) r) &&
  (negb a.(an_sources).(st_has_removal_schema) || run_source_available a.(an_runs) r CONTENT).

(** The messages a run is joined with: one row each, one row without any. *)
Definition run_intent (r : AutomationRun) : NotificationIntent :=
  mk_intent (str "automation_run") r.(run_key).(rk_run_id) (int_text r.(run_version)) r.(run_key).(rk_run_id) NReview
    r.(run_updated_at).

Definition run_intents a (r : AutomationRun) : list NotificationIntent :=
  match List.filter (automation_message_binding r (identity_of a.(an_runs) r.(run_key).(rk_run_id)))
          a.(an_sources).(st_messages) with
  | [] => [run_intent r]
  | messages => (fun _ => run_intent r) <$> messages
  end.

Definition sort_at_leb (x y : NotificationIntent) : bool := text_leb x.(ni_sort_at) y.(ni_sort_at).

Definition due_runs a : list AutomationRun := List.filter (run_intent_due a) (all_runs a.(an_runs)).

(** [Store.notification_intents] *)
Definition notification_intents (limit : Z) (kind : option text) a : list NotificationIntent :=
  let intents := ((message_intent <$> List.filter (fun e => message_intent_due e.2) (live_rows a)) ++
                  flat_map (run_intents a) (due_runs a))%list in
  sql_limit limit (sort_by sort_at_leb
    (List.filter (fun i => match kind with Some k => bool_decide (kind_text i.(ni_kind) = k) | None => true end) intents)).

(** [Store.notification_intent_count] *)
Definition notification_intent_count a : Z :=
  Z.of_nat (length (List.filter (fun e => message_intent_due e.2) (live_rows a))) + Z.of_nat (length (due_runs a)).

(** The delivery columns of an acknowledged analysis. *)
Definition delivered_row (stamp : text) (r : AnalysisRow) : AnalysisRow :=
  let e := r.(ay_retry) in
  in_status ASummarized
    (with_notified r.(ay_fallback_notified_at) (Some stamp)
      (with_retry (mk_retry e.(re_attempts) None None e.(re_retryable) e.(re_error_code)
                     e.(re_retry_after_seconds)) r)).

(** The notification of a message. *)
Definition acknowledge_message (message_id : text) (kind : notification_kind) (analysis_at : option text) (stamp : text) a
    : py (bool * analysis_store) :=
  _ ← require (message_available a.(an_sources) CONTENT message_id) (KeyError message_id);
  row ← require_some (a.(an_rows) !! message_id) (KeyError message_id);
  match kind with
  | NFallback =>
      if is_some row.(ay_fallback_notified_at) then Ret (false, a)
      else
        _ ← require (bool_decide (row.(ay_status) = APending) && is_some row.(ay_retry).(re_last_error))
              (RuntimeError "Fallback notification intent is no longer current");
        Ret (true, alter_row (fun r => with_notified (Some stamp) r.(ay_notified_at) r) message_id a)
  | _ =>
      let current := RuntimeError "Analysis notification intent is no longer current" in
      _ ← require (bool_decide (cm_analysis_at <$> row.(ay_completion) = analysis_at)) current;
      if bool_decide (row.(ay_status) = ASummarized) && is_some row.(ay_notified_at) then Ret (false, a)
      else
        _ ← require (bool_decide (row.(ay_status) = AAnalyzed)) current;
        Ret (true, alter_row (delivered_row stamp) message_id a)
  end.

(** [Store.acknowledge_notification]; the result tells whether it was acknowledged now. *)
Definition acknowledge_notification (message_id kind : text) (analysis_at subject_type subject_id revision : option text)
    (now : Z) a : py (bool * analysis_store) :=
  let stamp := isoformat (utc now) in
  let nonempty (o : option text) := match o with Some t => truthy t | None => false end in
  _ ← require (bool_decide (kind ∈ [str "analysis"; str "fallback"; str "automation_review"]))
        (ValueError "Notification kind is not supported");
  _ ← (if is_some subject_type || is_some subject_id || is_some revision then
         _ ← require (nonempty subject_type && nonempty subject_id && is_some revision)
               (ValueError "Notification subject identity must be complete");
         require (bool_decide (subject_id = Some message_id))
           (ValueError "Notification compatibility identity does not match its subject")
       else Ret tt);
  if bool_decide (kind = str "automation_review") then
    _ ← require (bool_decide (subject_type = None) || bool_decide (subject_type = Some (str "automation_run")))
          (ValueError "Automation notification subject is invalid");
    let run_id := if nonempty subject_id then default message_id subject_id else message_id in
    let version_text := if nonempty revision then revision else analysis_at in
    state_version ← require_some (python_int (default [] version_text))
                      (ValueError "Automation notification revision is invalid");
    '(acknowledged, d) ← acknowledge_automation_review a.(an_runs) run_id state_version stamp;
    Ret (acknowledged, set_automation d a)
  else
    _ ← require (negb (bool_decide (kind = str "analysis")) || nonempty analysis_at)
          (ValueError "analysis_at is required for an analysis notification");
    acknowledge_message message_id (if bool_decide (kind = str "fallback") then NFallback else NAnalysis) analysis_at
      stamp a.

End Reads.
