(* ===== verification/AnalysisSystem.v ===== *)
(** * The composed store

    The operations on the analysis of messages together with those of the rules, of the
    queue and of the scheduling runs, as one step relation on the composed store; its
    invariant; and the life of one message, which every step follows. *)

From S2P Require Export AnalysisStore StampOrder RuleStoreTheorems ConnectTheorems AutomationReach.
From stdpp Require Import options.

Local Open Scope Z_scope.

(** What the other writers of the message tables do to a row. *)
Inductive row_write : option AnalysisRow → option AnalysisRow → Prop :=
| write_same o : row_write o o
| write_capture sender sender_name subject : row_write None (Some (captured_row sender sender_name subject))
| write_delete r : row_write (Some r) None
| write_requeue r : row_write (Some r) (Some (requeued_row r)).

(** The life of a message. *)
Inductive life : option AnalysisRow → option AnalysisRow → Prop :=
| life_write o o' : row_write o o' → life o o'
| life_request r q :
    r.(ay_status) = APending → r.(ay_request_id) = None → life (Some r) (Some (with_request (Some q) r))
| life_retry r e :
    r.(ay_status) = APending ∨ e.(re_retryable) = r.(ay_retry).(re_retryable) →
    life (Some r) (Some (with_retry e r))
| life_restart r e :
    r.(ay_status) = APending → r.(ay_retry).(re_retryable) = Some false →
    life (Some r) (Some (with_request None (with_retry e r)))
| life_notified r t : life (Some r) (Some (with_notified (Some t) r.(ay_notified_at) r))
| life_skip r : life (Some r) (Some (skipped_row r))
| life_complete r c : r.(ay_status) = APending → c.(cm_analysis_at) ≠ [] → life (Some r) (Some (completed_row c r))
| life_deliver r e n :
    e.(re_retryable) = r.(ay_retry).(re_retryable) →
    life (Some r) (Some (in_status ASummarized (with_notified r.(ay_fallback_notified_at) n (with_retry e r)))).

(** A request is stored whole or not at all, and an analyzed message has its result. *)
Record row_ok (r : AnalysisRow) : Prop := {
  ro_request : (∃ q, r.(ay_request_id) = Some q.(aq_request_id) ∧ r.(ay_context_at) = Some q.(aq_context_at) ∧
                     r.(ay_body_char_limit) = Some q.(aq_body_char_limit)) ∨
               (r.(ay_request_id) = None ∧ r.(ay_context_at) = None ∧ r.(ay_body_char_limit) = None);
  ro_result : r.(ay_status) = AAnalyzed → is_some r.(ay_completion) = true;
  ro_stamp : ∀ c, r.(ay_completion) = Some c → c.(cm_analysis_at) ≠ [] }.

Lemma life_ok r o : life o (Some r) → (∀ r0, o = Some r0 → row_ok r0) → row_ok r.
Proof.
  intros Hl Ho. inversion Hl as [? ? Hw|r0 q|r0 e|r0 e|r0 t|r0|r0 c|r0 e n]; subst;
    try (destruct (Ho r0 eq_refl) as [Hq Hr Hs]; split; simpl;
         (done || (by right) || (by left; exists q) || (by intros ? [= <-]) || eauto)).
  inversion Hw; subst; [by apply Ho|by split; [right|..]|].
  destruct (Ho r0 eq_refl) as [Hq Hr Hs]. unfold requeued_row. case_bool_decide; by split.
Qed.

Section System.
Context `{Unicode} `{AddressLib} `{ConnectLib} `{Zones}.
Implicit Types a : analysis_store.

Definition set_rules (s : rule_store) a : analysis_store :=
  mk_analysis_store a.(an_sources) a.(an_rows) a.(an_attachments) s a.(an_queue) a.(an_runs).

(** The message tables are written by another component, in all their copies. *)
Definition set_tables (st : SourceTables) (rows : gmap text AnalysisRow)
    (attachments : gmap (text * text) AttachmentDescriptor) a : analysis_store :=
  mk_analysis_store st rows attachments a.(an_rules) (ConnectStore.set_sources st (dom attachments) a.(an_queue))
    (AutomationStore.set_sources a.(an_runs) st).

Inductive system_step a : analysis_store → Prop :=
| sys_reserve id limit now uuid q a' :
    reserve_analysis_request id limit now uuid a = Ret (q, a') → system_step a a'
| sys_failure id error attempts now a' : record_failure id error attempts now a = Ret a' → system_step a a'
| sys_analysis_failure id error attempts retryable code after now a' :
    record_analysis_failure id error attempts retryable code after now a = Ret a' → system_step a a'
| sys_requeue id a' : requeue_analysis id a = Ret a' → system_step a a'
| sys_fallback id now : system_step a (mark_fallback_notified id now a)
| sys_skip id : system_step a (mark_skipped id a)
| sys_analyzed id result key chars source_chars principal now uuids a' :
    mark_analyzed id result key chars source_chars principal now uuids a = Ret a' → system_step a a'
| sys_delivered id notified now : system_step a (mark_delivery_complete id notified now a)
| sys_acknowledge id kind at_ subject_type subject_id revision now b a' :
    acknowledge_notification id kind at_ subject_type subject_id revision now a = Ret (b, a') → system_step a a'
| sys_requeue_skipped id : system_step a (requeue_if_skipped id a)
| sys_rules s : rule_step a.(an_rules) s → system_step a (set_rules s a)
(** only [mark_analyzed] admits fires *)
| sys_queue q :
    queue_step a.(an_queue) q → q.(cs_sources) = a.(an_queue).(cs_sources) →
    q.(cs_attachments) = a.(an_queue).(cs_attachments) →
    (∀ k, a.(an_queue).(cs_fires) !! k = None → q.(cs_fires) !! k = None) → system_step a (set_queue q a)
| sys_runs d :
    store_step a.(an_runs) d → d.(db_sources) = a.(an_runs).(db_sources) → system_step a (set_automation d a)
| sys_tables st rows attachments :
    (∀ id, row_write (a.(an_rows) !! id) (rows !! id)) → system_step a (set_tables st rows attachments a).

(** Every fire names a stored definition, and no rule version fires twice for a part. *)
Definition same_target (x y : FireSource) : Prop :=
  x.(fs_message_id) = y.(fs_message_id) ∧ x.(fs_part_id) = y.(fs_part_id) ∧
  x.(fs_rule_id) = y.(fs_rule_id) ∧ x.(fs_rule_version) = y.(fs_rule_version).

Record fires_sound (rules : rule_store) (q : connect_store) : Prop := {
  fd_known : ∀ k f, q.(cs_fires) !! k = Some f →
    rule_known rules f.(fi_source).(fs_rule_id) f.(fi_source).(fs_rule_version) = true;
  fd_unique : ∀ k k' f f', q.(cs_fires) !! k = Some f → q.(cs_fires) !! k' = Some f' →
    same_target f.(fi_source) f'.(fi_source) → k = k' }.

Record system_inv a : Prop := {
  si_rules : rules_inv a.(an_rules);
  si_queue : queue_inv a.(an_queue);
  si_runs : Inv a.(an_runs);
  si_fires : fires_sound a.(an_rules) a.(an_queue);
  si_rows : ∀ id r, a.(an_rows) !! id = Some r → row_ok r;
  si_queue_sources : a.(an_queue).(cs_sources) = a.(an_sources);
  si_queue_attachments : a.(an_queue).(cs_attachments) = dom a.(an_attachments);
  si_run_sources : a.(an_runs).(db_sources) = a.(an_sources) }.

Definition empty_system (st : SourceTables) (attachments : gmap (text * text) AttachmentDescriptor)
    (accounts : gmap (text * text) (option text)) (rows : gmap text AnalysisRow) : analysis_store :=
  mk_analysis_store st rows attachments (empty_rule_store accounts) (empty_connect st (dom attachments)) (empty_db st).

(** From a store with captured messages only. *)
Definition system_reachable a : Prop :=
  ∃ st attachments accounts rows,
    (∀ id r, rows !! id = Some r → row_write None (Some r)) ∧
    rtc system_step (empty_system st attachments accounts rows) a.

Lemma empty_system_inv st attachments accounts rows :
  (∀ id r, rows !! id = Some r → row_write None (Some r)) →
  system_inv (empty_system st attachments accounts rows).
Proof.
  intros Hrows. split; simpl; [apply empty_rules_inv|apply empty_queue_inv|apply empty_inv|..|done|done|done].
  - split; simpl; intros; simplify_map_eq.
  - intros id r Hr. by eapply life_ok; [eapply life_write, Hrows|].
Qed.

(** ** The admission of fires *)

Lemma duplicate_spec source q : fire_duplicate source q = false ↔
  ∀ k f, q.(cs_fires) !! k = Some f → ¬ same_target f.(fi_source) source.
Proof.
  unfold fire_duplicate. rewrite <- not_true_iff_false, existsb_exists. split.
  - intros Hn k f Hf (E1 & E2 & E3 & E4). apply Hn. exists (k, f).
    split; [by apply list_elem_of_In, elem_of_map_to_list|]. simpl.
    rewrite !bool_decide_eq_true_2 by done. rewrite E4. simpl. lia.
  - intros Hn ([k f] & Hin & Hb). apply list_elem_of_In, elem_of_map_to_list in Hin. simpl in Hb. bools.
    apply (Hn k f Hin). by split_and!; [..|lia].
Qed.

Lemma insert_fire_result fire_id request_id source scope known q q' :
  insert_fire fire_id request_id source scope known q = Ret q' →
  known = true ∧ q.(cs_fires) !! fire_id = None ∧ fire_duplicate source q = false ∧
  q'.(cs_fires) = <[fire_id := new_fire source]> q.(cs_fires) ∧
  q'.(cs_sources) = q.(cs_sources) ∧ q'.(cs_attachments) = q.(cs_attachments).
Proof.
  unfold insert_fire. intros Hi. peel. bools. simplify_eq/=.
  by destruct (cs_fires q !! fire_id).
Qed.

Lemma insert_fire_sound rules fire_id request_id source scope q q' :
  insert_fire fire_id request_id source scope
    (rule_known rules source.(fs_rule_id) source.(fs_rule_version)) q = Ret q' →
  fires_sound rules q → fires_sound rules q'.
Proof.
  intros (Hk & Hn & Hd & Hf & _)%insert_fire_result [Hknown Hunique].
  pose proof (proj1 (duplicate_spec _ _) Hd) as Hdup. split; rewrite Hf.
  - intros k f. rewrite lookup_insert_Some. intros [[<- <-]|[_ Hx]]; [done|by eapply Hknown].
  - intros k k' f f'. rewrite !lookup_insert_Some. unfold same_target.
    intros [[<- <-]|[? Hx]] [[<- <-]|[? Hx']] Ht; [done|..]; simpl in Ht.
    + exfalso. eapply (Hdup _ _ Hx'). unfold same_target. naive_solver.
    + exfalso. by eapply (Hdup _ _ Hx).
    + by eapply Hunique.
Qed.

(** The queue after the fires of an analysis. *)
Record admitted_after (rules : rule_store) (q q' : connect_store) : Prop := {
  aa_inv : queue_inv q → queue_inv q';
  aa_sound : fires_sound rules q → fires_sound rules q';
  aa_sources : q'.(cs_sources) = q.(cs_sources);
  aa_attachments : q'.(cs_attachments) = q.(cs_attachments) }.

Lemma insert_fires_admitted rules event_id id stamp scope uuids n matched q q' :
  insert_fires rules event_id id stamp scope uuids n matched q = Ret q' → admitted_after rules q q'.
Proof using H H1.
  revert n q. induction matched as [|f matched IH]; intros n q Hi; simpl in Hi; [by simplify_eq|].
  apply bind_ret_inv in Hi as (q1 & Hf1 & Hi). destruct (IH _ _ Hi) as [I2 S2 E2 A2].
  pose proof (insert_fire_result _ _ _ _ _ _ _ Hf1) as (_ & _ & _ & _ & E1 & A1).
  split; [|intros Hs; apply S2; by apply (insert_fire_sound _ _ _ _ _ _ _ Hf1)|congruence|congruence].
  intros Hq. eapply I2, queue_step_inv; [by eapply step_admit|done].
Qed.

(** ** The steps *)

(** A row of the composed store. *)
Lemma alter_row_lookup f id a i :
  (alter_row f id a).(an_rows) !! i = (if decide (i = id) then f <$> a.(an_rows) !! i else a.(an_rows) !! i).
Proof.
  unfold alter_row. simpl. case_decide as E; [subst; apply lookup_alter_eq|by apply lookup_alter_ne].
Qed.

Lemma alter_life f id a i :
  (∀ r, a.(an_rows) !! id = Some r → life (Some r) (Some (f r))) →
  life (a.(an_rows) !! i) ((alter_row f id a).(an_rows) !! i).
Proof.
  intros Hf. rewrite alter_row_lookup. case_decide as E; [subst|apply life_write, write_same].
  destruct (an_rows a !! id) as [r|] eqn:E; simpl; [by apply Hf|apply life_write, write_same].
Qed.

(** A step on the rows of one message leaves the components alone. *)
Definition same_components a a' : Prop :=
  a'.(an_sources) = a.(an_sources) ∧ a'.(an_attachments) = a.(an_attachments) ∧ a'.(an_rules) = a.(an_rules) ∧
  a'.(an_queue) = a.(an_queue) ∧ a'.(an_runs) = a.(an_runs).

Definition row_life a a' : Prop :=
  same_components a a' ∧ ∀ i, life (a.(an_rows) !! i) (a'.(an_rows) !! i).

Lemma alter_row_life f id a :
  (∀ r, a.(an_rows) !! id = Some r → life (Some r) (Some (f r))) → row_life a (alter_row f id a).
Proof. intros Hf. split; [done|]. intros i. by apply alter_life. Qed.

Lemma row_life_refl a : row_life a a.
Proof. split; [done|]. intros i. apply life_write, write_same. Qed.

Lemma reserve_life id limit now uuid a q a' :
  reserve_analysis_request id limit now uuid a = Ret (q, a') → row_life a a'.
Proof.
  unfold reserve_analysis_request. intros Hr. peel; bools; simplify_eq; [apply row_life_refl|].
  apply alter_row_life. intros r Hr. simplify_eq. by apply life_request.
Qed.

Lemma failure_life id error attempts now a a' : record_failure id error attempts now a = Ret a' → row_life a a'.
Proof.
  unfold record_failure. intros Hr. peel. simplify_eq. apply alter_row_life. intros r _.
  apply life_retry. by right.
Qed.

Lemma analysis_failure_life id error attempts retryable code after now a a' :
  record_analysis_failure id error attempts retryable code after now a = Ret a' → row_life a a'.
Proof.
  unfold record_analysis_failure. intros Hr. peel. bools. simplify_eq. apply alter_row_life. intros r Hr.
  simplify_eq. apply life_retry. by left.
Qed.

Lemma requeue_life id a a' : requeue_analysis id a = Ret a' → row_life a a'.
Proof.
  unfold requeue_analysis. intros Hr. peel. bools. simplify_eq. apply alter_row_life. intros r Hr.
  simplify_eq. by apply life_restart.
Qed.

Lemma fallback_life id now a : row_life a (mark_fallback_notified id now a).
Proof.
  unfold mark_fallback_notified. case_match; [|apply row_life_refl].
  apply alter_row_life. intros r _. apply life_notified.
Qed.

Lemma skip_life id a : row_life a (mark_skipped id a).
Proof. apply alter_row_life. intros r _. apply life_skip. Qed.

Lemma requeue_skipped_life id a : row_life a (requeue_if_skipped id a).
Proof. apply alter_row_life. intros r _. apply life_write, write_requeue. Qed.

Lemma delivered_life id notified now a : row_life a (mark_delivery_complete id notified now a).
Proof.
  unfold mark_delivery_complete. case_match; [|apply row_life_refl].
  apply alter_row_life. intros r _. by apply life_deliver.
Qed.

Lemma acknowledge_message_life id kind at_ stamp a b a' :
  acknowledge_message id kind at_ stamp a = Ret (b, a') → row_life a a'.
Proof.
  unfold acknowledge_message. intros Hr. peel; simplify_eq; try apply row_life_refl;
    apply alter_row_life; intros r _; first [apply life_notified | by apply life_deliver].
Qed.

(** What the completion of an analysis does to the components. *)
Record analyzed_step a a' : Prop := {
  az_sources : a'.(an_sources) = a.(an_sources);
  az_attachments : a'.(an_attachments) = a.(an_attachments);
  az_rules : a'.(an_rules) = a.(an_rules);
  az_queue : admitted_after a.(an_rules) a.(an_queue) a'.(an_queue);
  az_runs : a'.(an_runs) = a.(an_runs) ∨ store_step a.(an_runs) a'.(an_runs);
  az_run_sources : a'.(an_runs).(db_sources) = a.(an_runs).(db_sources);
  az_rows : ∀ i, life (a.(an_rows) !! i) (a'.(an_rows) !! i) }.

Lemma admitted_refl rules q : admitted_after rules q q.
Proof. by split. Qed.

Lemma admit_keeps_sources d prov acct principal pmid mid created expires id eid d' :
  admit_scheduling_automation d prov acct principal pmid mid created expires id eid = Ret d' →
  d'.(db_sources) = d.(db_sources).
Proof.
  unfold admit_scheduling_automation, append_automation_event, insert_event, insert_run.
  intros Hr. by peel; simplify_eq/=.
Qed.

(** A completed analysis, part by part. *)
Record analyzed_parts (id : text) (result : AnalysisResult) (key : text) (chars source_chars : option Z)
    (principal : option text) (now : Z) (uuids : nat → text) a a' (m : MessageRow) (row : AnalysisRow)
    (rules : list MatchRule) (evaluated : list MatchedFire + text)
    (q : connect_store) (d : Db) (revision : Z) : Prop := {
  ap_key : identity_key_ok key = true;
  ap_available : message_available a.(an_sources) CONTENT id = true;
  ap_message : stored_message id a.(an_sources) = Some m;
  ap_row : a.(an_rows) !! id = Some row;
  ap_pending : row.(ay_status) = APending;
  ap_account : a.(an_rules).(rs_mail_accounts) !! (m.(ms_provider), m.(ms_account_id)) = Some (Some key);
  ap_identity : m.(ms_mailbox_identity_key) = Some key;
  ap_revision : a.(an_rules).(rs_revision) = Some revision;
  ap_rules : _current_match_rules a.(an_rules) = Ret rules;
  ap_evaluated : evaluate_rules rules m row key result (message_attachments id a) = Ret evaluated;
  ap_fires : admit_matches a.(an_rules) m key (isoformat (utc now)) uuids evaluated a.(an_queue) = Ret q;
  ap_run : admit_run m result key principal now (uuids (2 * fire_count evaluated)%nat)
             (uuids (S (2 * fire_count evaluated))) a.(an_runs) = Ret d;
  ap_result : a' = set_automation d (set_queue q (alter_row (completed_row
      (mk_completion (isoformat (utc now)) result chars source_chars revision
         (match evaluated with inl _ => None | inr e => Some e end))) id a)) }.

Lemma analyzed_parts_ret id result key chars source_chars principal now uuids a a' :
  mark_analyzed id result key chars source_chars principal now uuids a = Ret a' →
  ∃ m row rules evaluated q d revision,
    analyzed_parts id result key chars source_chars principal now uuids a a' m row rules evaluated q d revision.
Proof.
  unfold mark_analyzed. intros Hr.
  apply bind_ret_inv in Hr as (? & Hkey%require_ret_inv & Hr).
  apply bind_ret_inv in Hr as (? & _ & Hr).
  apply bind_ret_inv in Hr as (? & Hav%require_ret_inv & Hr).
  apply bind_ret_inv in Hr as (m & Hm%require_some_ret_inv & Hr).
  apply bind_ret_inv in Hr as (row & Hrow%require_some_ret_inv & Hr).
  apply bind_ret_inv in Hr as (? & Hp%require_ret_inv & Hr).
  apply bind_ret_inv in Hr as (? & Hi%require_ret_inv & Hr).
  apply bind_ret_inv in Hr as (revision & Hrev%require_some_ret_inv & Hr).
  apply bind_ret_inv in Hr as (rules & Hrules & Hr).
  apply bind_ret_inv in Hr as (evaluated & He & Hr).
  do 2 apply bind_ret_inv in Hr as (? & _ & Hr).
  apply bind_ret_inv in Hr as (q & Hq & Hr).
  apply bind_ret_inv in Hr as (d & Hd & Hr). bools. injection Hr as <-.
  by exists m, row, rules, evaluated, q, d, revision.
Qed.

Lemma admit_matches_admitted rules m key stamp uuids evaluated q q' :
  admit_matches rules m key stamp uuids evaluated q = Ret q' → admitted_after rules q q'.
Proof using H H1.
  unfold admit_matches. destruct evaluated; intros Hr; peel; [by eapply insert_fires_admitted|].
  simplify_eq. apply admitted_refl.
Qed.

Lemma admit_run_steps m result key principal now run_id event_id d d' :
  admit_run m result key principal now run_id event_id d = Ret d' →
  (d' = d ∨ store_step d d') ∧ d'.(db_sources) = d.(db_sources).
Proof.
  unfold admit_run. intros Hr. destruct principal; [case_match|]; peel; simplify_eq; try (split; [by left|done]).
  split; [right; by eapply SAdmit|by eapply admit_keeps_sources].
Qed.

Lemma analyzed_life id result key chars source_chars principal now uuids a a' :
  mark_analyzed id result key chars source_chars principal now uuids a = Ret a' → analyzed_step a a'.
Proof using H H0 H1 H2.
  intros (m & row & rules & evaluated & q & d & revision & [])%analyzed_parts_ret. subst a'.
  apply admit_run_steps in ap_run0 as [Hd Hds]. split; simpl; try done.
  - by eapply admit_matches_admitted.
  - intros i. apply alter_life. intros r Hr. simplify_eq.
    apply life_complete; [done|apply stamp_nonempty].
Qed.

Lemma acknowledge_life id kind at_ subject_type subject_id revision now a b a' :
  acknowledge_notification id kind at_ subject_type subject_id revision now a = Ret (b, a') →
  row_life a a' ∨ ∃ d, a' = set_automation d a ∧ store_step a.(an_runs) d ∧ d.(db_sources) = a.(an_runs).(db_sources).
Proof.
  unfold acknowledge_notification. intros Hr.
  apply bind_ret_inv in Hr as (? & _ & Hr). apply bind_ret_inv in Hr as (? & _ & Hr).
  case_match.
  - right. apply bind_ret_inv in Hr as (? & _ & Hr). apply bind_ret_inv in Hr as (version & _ & Hr).
    apply bind_ret_inv in Hr as ([b' d] & Hd & Hr). simplify_eq. exists d.
    split; [done|]. split; [by eapply SAcknowledge|].
    unfold acknowledge_automation_review, update_run in Hd. peel; by simplify_eq/=.
  - left. apply bind_ret_inv in Hr as (? & _ & Hr). by eapply acknowledge_message_life.
Qed.

(** Every step follows the life of every message. *)
Lemma system_step_life a a' i : system_step a a' → life (a.(an_rows) !! i) (a'.(an_rows) !! i).
Proof.
  intros Hs. assert (∀ a1, row_life a a1 → life (an_rows a !! i) (an_rows a1 !! i)) as Hrow by (intros a1 [_ Hl]; done).
  destruct Hs as [| | | | | |? ? ? ? ? ? ? ? ? Hm| |? ? ? ? ? ? ? ? ? Hack| | | | |st rows attachments Hw];
    try (apply life_write, write_same).
  - by eapply Hrow, reserve_life.
  - by eapply Hrow, failure_life.
  - by eapply Hrow, analysis_failure_life.
  - by eapply Hrow, requeue_life.
  - apply Hrow, fallback_life.
  - apply Hrow, skip_life.
  - by destruct (analyzed_life _ _ _ _ _ _ _ _ _ _ Hm).
  - apply Hrow, delivered_life.
  - apply acknowledge_life in Hack as [Hr|(d & -> & _)]; [by apply Hrow|apply life_write, write_same].
  - apply Hrow, requeue_skipped_life.
  - by apply life_write.
Qed.

(** ** The invariant *)

Lemma rows_kept a a' : (∀ i, life (a.(an_rows) !! i) (a'.(an_rows) !! i)) →
  (∀ id r, a.(an_rows) !! id = Some r → row_ok r) → ∀ id r, a'.(an_rows) !! id = Some r → row_ok r.
Proof. intros Hl Hr id r Hr'. eapply life_ok; [rewrite <- Hr'; apply Hl|]. apply Hr. Qed.

Lemma row_life_inv a a' : row_life a a' → system_inv a → system_inv a'.
Proof.
  intros [(E1 & E2 & E3 & E4 & E5) Hl] []. split; rewrite ?E1, ?E2, ?E3, ?E4, ?E5; try done.
  by eapply rows_kept.
Qed.

Lemma analyzed_step_inv a a' : analyzed_step a a' → system_inv a → system_inv a'.
Proof.
  intros [E1 E2 E3 [Hq Hf Q1 Q2] Hd D1 Hl] []. split; rewrite ?E1, ?E2, ?E3, ?D1, ?Q1, ?Q2; auto.
  - destruct Hd as [->|Hd]; [done|by eapply store_step_inv].
  - by eapply rows_kept.
Qed.

(** A rule keeps its stored versions. *)
Lemma rule_known_extends s s' id version : store_extends s s' → rule_known s id version = true →
  rule_known s' id version = true.
Proof.
  intros (Hv & _ & _). unfold rule_known. destruct (rs_versions s !! (id, version)) as [v|] eqn:E; [|done].
  by rewrite (lookup_weaken _ _ _ _ E Hv).
Qed.

(** A queue without new fires keeps their sources. *)
Lemma fires_sound_kept rules q q' :
  queue_step q q' → (∀ k, q.(cs_fires) !! k = None → q'.(cs_fires) !! k = None) →
  fires_sound rules q → fires_sound rules q'.
Proof.
  intros Hs Hn [Hk Hu].
  assert (∀ k f', q'.(cs_fires) !! k = Some f' → ∃ f, q.(cs_fires) !! k = Some f ∧ f'.(fi_source) = f.(fi_source)) as Hb.
  { intros k f' Hf'. destruct (q.(cs_fires) !! k) as [f|] eqn:E; [|by rewrite (Hn _ E) in Hf'].
    destruct (queue_step_kept _ _ _ _ Hs E) as (cert & Hp & _). rewrite Hf' in Hp. exists f. split; [done|]. apply Hp. }
  split.
  - intros k f' (f & Hf & ->)%Hb. by eapply Hk.
  - intros k k' f1 f1' (f & Hf & ->)%Hb (f' & Hf' & ->)%Hb. by eapply Hu.
Qed.

Lemma system_step_inv a a' : system_step a a' → system_inv a → system_inv a'.
Proof.
  intros Hs Hi. pose proof (fun i => system_step_life a a' i Hs) as Hl.
  pose proof (rows_kept _ _ Hl (si_rows _ Hi)) as Hrows. pose proof Hi as [].
  destruct Hs as [| | | | | |? ? ? ? ? ? ? ? ? Hm| |? ? ? ? ? ? ? ? ? Hack| |s Hr|q Hq E1 E2 Hn|d Hd E|st rows atts Hw].
  - by eapply row_life_inv; [eapply reserve_life|].
  - by eapply row_life_inv; [eapply failure_life|].
  - by eapply row_life_inv; [eapply analysis_failure_life|].
  - by eapply row_life_inv; [eapply requeue_life|].
  - by eapply row_life_inv; [apply fallback_life|].
  - by eapply row_life_inv; [apply skip_life|].
  - by eapply analyzed_step_inv; [eapply analyzed_life|].
  - by eapply row_life_inv; [apply delivered_life|].
  - apply acknowledge_life in Hack as [Hr|(d & -> & Hd & E)]; [by eapply row_life_inv|].
    split; simpl; try done; [by eapply store_step_inv|congruence].
  - by eapply row_life_inv; [apply requeue_skipped_life|].
  - split; simpl; try done; [by eapply rule_step_inv|]. destruct si_fires0 as [Hk Hu]. split; [|done].
    intros k f Hf. eapply rule_known_extends; [by eapply step_extends|by eapply Hk].
  - split; simpl; try done; [by eapply queue_step_inv|by eapply fires_sound_kept|congruence|congruence].
  - split; simpl; try done; [by eapply store_step_inv|congruence].
  - split; simpl; try done.
    + eapply queue_step_inv; [apply step_sources|done].
    + eapply store_step_inv; [by apply (SSources _ _ st)|done].
    + eapply fires_sound_kept; [apply step_sources|done|done].
Qed.

Lemma reachable_system_inv a : system_reachable a → system_inv a.
Proof.
  intros (st & atts & accounts & rows & Hrows & Hs).
  assert (system_inv (empty_system st atts accounts rows)) as Hi by by apply empty_system_inv.
  revert Hi. induction Hs; eauto using system_step_inv.
Qed.

End System.
