(* ===== verification/AnalysisExact.v ===== *)
(** * The completion of an analysis

    What [Store.mark_analyzed] does: the message gets its result, and exactly the
    attachments that a current rule selects get a fire, in one transaction. *)

From S2P Require Export AnalysisSystem.
From S2P Require Import BodyTheorems.
From stdpp Require Import options.

Local Open Scope Z_scope.

(** ** The matches *)

Section Matches.
Context `{Unicode} `{AddressLib}.

(** A current rule selects the part. *)
Definition rule_hit (view : message_view) (rules : list MatchRule) (attachments : list AttachmentDescriptor)
    (rule_id : text) (version : Z) (part_id : text) : Prop :=
  ∃ rule d, rule ∈ rules ∧ d ∈ attachments ∧ rule.(mr_rule_id) = rule_id ∧ rule.(mr_version) = version ∧
    d.(att_part_id) = part_id ∧ rule_fires view (Z.of_nat (length attachments)) rule d.

Definition match_key (f : MatchedFire) : text * Z * text := (f.(mf_rule_id), f.(mf_rule_version), f.(mf_part_id)).

(** The fires of the rules, block by block. *)
Definition rule_blocks (view : message_view) (attachments : list AttachmentDescriptor) : list MatchRule → list (list MatchedFire) → Prop :=
  Forall2 (λ rule block, ∃ chosen : AttachmentDescriptor → bool,
    (∀ d, chosen d = true ↔ rule_fires view (Z.of_nat (length attachments)) rule d) ∧
    block = fire rule <$> List.filter chosen (sort_attachments attachments)).

Lemma blocks_hits view attachments rules blocks :
  rule_blocks view attachments rules blocks → ∀ rule_id version part_id,
  (∃ f, f ∈ concat blocks ∧ match_key f = (rule_id, version, part_id)) ↔
  rule_hit view rules attachments rule_id version part_id.
Proof.
  intros Hb rule_id version part_id. unfold rule_hit.
  induction Hb as [|rule block rules blocks (chosen & Hc & ->) _ IH]; simpl.
  { split; [intros (f & Hf & _); by apply not_elem_of_nil in Hf|intros (rule & d & Hr & _); by apply not_elem_of_nil in Hr]. }
  setoid_rewrite elem_of_app. setoid_rewrite elem_of_cons. split.
  - intros (f & [Hf|Hf] & Hk).
    + apply list_elem_of_fmap in Hf as (d & -> & [Hd Hs]%elem_of_filter_b).
      rewrite sort_attachments_perm in Hd. apply Hc in Hs. unfold match_key in Hk. simplify_eq/=.
      exists rule, d. split_and!; try done. by left.
    + destruct (proj1 IH) as (r & d & Hr & Hrest); [by exists f|]. exists r, d. split; [by right|done].
  - intros (r & d & [->|Hr] & Hd & <- & <- & <- & Hf).
    + exists (fire rule d). split; [left|done]. apply list_elem_of_fmap. exists d. split; [done|].
      apply elem_of_filter_b. rewrite sort_attachments_perm. split; [done|]. by apply Hc.
    + destruct (proj2 IH) as (f & Hin & Hk); [by exists r, d|]. exists f. split; [by right|done].
Qed.

Lemma filter_parts_nodup (chosen : AttachmentDescriptor → bool) l :
  NoDup (att_part_id <$> l) → NoDup (att_part_id <$> List.filter chosen l).
Proof.
  induction l as [|d l IH]; simpl; [done|]. rewrite list.NoDup_cons. intros [Hd Hl].
  destruct (chosen d); [|by apply IH]. simpl. rewrite list.NoDup_cons. split; [|by apply IH].
  intros Hin. apply Hd. apply list_elem_of_fmap in Hin as (x & -> & [Hx _]%elem_of_filter_b).
  by apply list_elem_of_fmap_2.
Qed.

Lemma blocks_rule_ids view attachments rules blocks f :
  rule_blocks view attachments rules blocks → f ∈ concat blocks → f.(mf_rule_id) ∈ mr_rule_id <$> rules.
Proof.
  intros Hb Hf. destruct (proj1 (blocks_hits _ _ _ _ Hb f.(mf_rule_id) f.(mf_rule_version) f.(mf_part_id)))
    as (rule & d & Hin & _ & <- & _); [by exists f|]. by apply list_elem_of_fmap_2.
Qed.

Lemma blocks_nodup view attachments rules blocks :
  rule_blocks view attachments rules blocks → NoDup (mr_rule_id <$> rules) → NoDup (att_part_id <$> attachments) →
  NoDup (match_key <$> concat blocks).
Proof.
  intros Hb Hr Ha. induction Hb as [|rule block rules blocks (chosen & Hc & ->) Hrest IH]; simpl; [constructor|].
  rewrite fmap_cons, list.NoDup_cons in Hr. destruct Hr as [Hrule Hrules]. rewrite fmap_app, list.NoDup_app. split_and!.
  - apply (NoDup_fmap_1 (λ k : text * Z * text, k.2)). rewrite <- !list_fmap_compose.
    change (NoDup (att_part_id <$> List.filter chosen (sort_attachments attachments))). apply filter_parts_nodup.
    by rewrite sort_attachments_perm.
  - intros k (f & -> & Hf)%list_elem_of_fmap (f' & Hk & Hf')%list_elem_of_fmap.
    apply list_elem_of_fmap in Hf as (d & -> & _). unfold match_key in Hk. simplify_eq/=.
    apply Hrule. replace (mr_rule_id rule) with (mf_rule_id f'). by eapply blocks_rule_ids.
  - by apply IH.
Qed.

(** The evaluation of valid rules: all hits, or the fan-out limit. *)
Definition fanned_out (view : message_view) (rules : list MatchRule) (attachments : list AttachmentDescriptor) : Prop :=
  (MAX_AUTOMATION_ATTACHMENTS < length attachments)%nat ∨
  ∃ hits : list (text * Z * text), NoDup hits ∧ (MAX_AUTOMATION_FIRES_PER_MESSAGE < length hits)%nat ∧
    ∀ h, h ∈ hits → rule_hit view rules attachments h.1.1 h.1.2 h.2.

Lemma matches_exact rules view attachments :
  classified view → Forall valid_rule rules → NoDup (mr_rule_id <$> rules) → NoDup (att_part_id <$> attachments) →
  (∃ matched, match_rules rules view attachments = Ret matched ∧ NoDup (match_key <$> matched) ∧
     (length matched <= MAX_AUTOMATION_FIRES_PER_MESSAGE)%nat ∧
     ∀ rule_id version part_id, (∃ f, f ∈ matched ∧ match_key f = (rule_id, version, part_id)) ↔
       rule_hit view rules attachments rule_id version part_id) ∨
  (fanned_out view rules attachments ∧ ∃ e, match_rules rules view attachments = Raise (AutomationFanoutLimit e)).
Proof.
  intros Hc Hv Hr Ha. destruct (match_rules_blocks rules view attachments Hc Hv) as (blocks & Hb & ->).
  case_decide as Hn; [right; split; [by left|eauto]|]. case_decide as Hl.
  - left. exists (concat blocks). split_and!; [done|by eapply blocks_nodup|done|by apply blocks_hits].
  - right. split; [right|eauto]. exists (match_key <$> concat blocks).
    split_and!; [by eapply blocks_nodup|rewrite length_fmap; lia|].
    intros h (f & -> & Hf)%list_elem_of_fmap. eapply blocks_hits; [done|]. by exists f.
Qed.

End Matches.

(** ** The admission of the matches *)

Section Admission.
Context `{Unicode} `{AddressLib} `{ConnectLib}.
Implicit Types q : connect_store.

Lemma request_used_spec request_id q : request_id_used request_id q = false ↔
  ∀ k x, q.(cs_attempts) !! k = Some x → x.(at_dispatch_request_id) ≠ request_id.
Proof.
  unfold request_id_used. rewrite <- not_true_iff_false, existsb_exists. split.
  - intros Hn k x Hx E. apply Hn. exists (k, x). split; [by apply list_elem_of_In, elem_of_map_to_list|].
    by apply bool_decide_eq_true_2.
  - intros Hn ([k x] & Hin & Hb). apply list_elem_of_In, elem_of_map_to_list in Hin. simpl in Hb. bools.
    by eapply Hn.
Qed.

(** The random identifiers from the [n]-th up to [bound] are new. *)
Record fresh_ids (uuids : nat → text) (n bound : nat) q : Prop := {
  fr_distinct : ∀ i j, (i < bound)%nat → (j < bound)%nat → uuids i = uuids j → i = j;
  fr_length : ∀ i, (i < bound)%nat → sql_length (uuids i) = 36%nat;
  fr_fire : ∀ i, (n <= i < bound)%nat → q.(cs_fires) !! uuids i = None;
  fr_identity : ∀ i, (n <= i < bound)%nat → q.(cs_identities) !! uuids i = None;
  fr_attempt : ∀ i, (n <= i < bound)%nat → q.(cs_attempts) !! (uuids i, 1) = None;
  fr_request : ∀ i k x, (n <= i < bound)%nat → q.(cs_attempts) !! k = Some x → x.(at_dispatch_request_id) ≠ uuids i }.

Definition admitted_store (fire_id request_id : text) (source : FireSource) (scope : MailScope) q : connect_store :=
  set_attempts (<[(fire_id, 1) := mk_attempt request_id None source.(fs_created_at)]> q.(cs_attempts))
    (ConnectStore.set_identities (<[fire_id := (scope, source.(fs_message_id), source.(fs_part_id))]> q.(cs_identities))
       (set_fires (<[fire_id := new_fire source]> q.(cs_fires)) q)).

Lemma insert_fire_returns fire_id request_id source scope q : fire_row_ok request_id source = true →
  q.(cs_fires) !! fire_id = None → q.(cs_identities) !! fire_id = None → q.(cs_attempts) !! (fire_id, 1) = None →
  request_id_used request_id q = false → fire_duplicate source q = false →
  (source.(fs_message_id), source.(fs_part_id)) ∈ q.(cs_attachments) →
  identity_row_ok fire_id (scope, source.(fs_message_id), source.(fs_part_id)) = true →
  insert_fire fire_id request_id source scope true q = Ret (admitted_store fire_id request_id source scope q).
Proof.
  intros Hok H1f H2f H3f Hu Hd Ha Hi. unfold insert_fire. rewrite Hok, H1f, Hd, bool_decide_eq_true_2 by done.
  cbn [is_none negb andb require mbind py_bind set_fires cs_identities cs_attempts ConnectStore.set_identities].
  rewrite H2f, Hi. cbn [is_none negb andb require mbind py_bind].
  rewrite H3f. cbn [is_none negb andb require mbind py_bind].
  change (request_id_used request_id _) with (request_id_used request_id q) at 1. rewrite Hu. done.
Qed.

Lemma fresh_ids_next uuids n bound source scope q :
  (S n < bound)%nat → fresh_ids uuids n bound q →
  fresh_ids uuids (S (S n)) bound (admitted_store (uuids n) (uuids (S n)) source scope q).
Proof.
  intros Hb [Hd Hl Hf Hi Ha Hr]. split; simpl; [done|done|..].
  - intros i ?. rewrite lookup_insert_ne; [apply Hf; lia|]. intros E%Hd; lia.
  - intros i ?. rewrite lookup_insert_ne; [apply Hi; lia|]. intros E%Hd; lia.
  - intros i ?. rewrite lookup_insert_ne; [apply Ha; lia|]. intros [= E%Hd]; lia.
  - intros i k x ?. rewrite lookup_insert_Some. intros [[<- <-]|[_ Hx]]; simpl; [intros E%Hd; lia|].
    eapply Hr; [|done]. lia.
Qed.

(** The queue besides the rows of new fires. *)
Definition same_work q q' : Prop :=
  q'.(cs_jobs) = q.(cs_jobs) ∧ q'.(cs_dispatch) = q.(cs_dispatch) ∧ q'.(cs_confirmations) = q.(cs_confirmations) ∧
  q'.(cs_certificates) = q.(cs_certificates) ∧ q'.(cs_policies) = q.(cs_policies).

Definition match_source (event_id id stamp : text) (f : MatchedFire) : FireSource :=
  mk_fire_source event_id f.(mf_rule_id) f.(mf_rule_version) id f.(mf_part_id) stamp.

Lemma insert_fires_exact rules event_id id stamp scope uuids bound matched : ∀ n q,
  (∀ i part, (i < bound)%nat → identity_row_ok (uuids i) (scope, id, part) = true) →
  sql_length event_id = 64%nat → id ≠ [] →
  (∀ f, f ∈ matched → sql_length f.(mf_rule_id) = 36%nat ∧ 1 <= f.(mf_rule_version)) →
  fresh_ids uuids n bound q → (n + 2 * length matched <= bound)%nat →
  (∀ f, f ∈ matched → rule_known rules f.(mf_rule_id) f.(mf_rule_version) = true ∧
                      (id, f.(mf_part_id)) ∈ q.(cs_attachments)) →
  NoDup (match_key <$> matched) →
  (∀ k x f, q.(cs_fires) !! k = Some x → f ∈ matched → ¬ same_target x.(fi_source) (match_source event_id id stamp f)) →
  ∃ q', insert_fires rules event_id id stamp scope uuids n matched q = Ret q' ∧ same_work q q' ∧
    ∀ k x, q'.(cs_fires) !! k = Some x ↔ q.(cs_fires) !! k = Some x ∨
      ∃ i f, matched !! i = Some f ∧ k = uuids (n + 2 * i)%nat ∧ x = new_fire (match_source event_id id stamp f).
Proof.
  induction matched as [|f matched IH]; intros n q Hid Hev Hne Hrow Hfr Hlen Hok Hnd Hnew; simpl.
  { exists q. split_and!; try done. intros k x. split; [by left|]. by intros [?|(i & f & ? & _)]. }
  simpl in Hlen. rewrite fmap_cons, list.NoDup_cons in Hnd. destruct Hnd as [Hf Hnd].
  destruct (Hok f) as [Hk Ha]; [apply elem_of_cons; by left|]. rewrite Hk.
  rewrite (insert_fire_returns _ _ (match_source event_id id stamp f)).
  2: { destruct (Hrow f) as [Hrid Hver]; [apply elem_of_cons; by left|]. unfold fire_row_ok. simpl.
       rewrite Hev, Hrid, (fr_length _ _ _ _ Hfr) by lia. rewrite (proj2 (Z.leb_le 1 _) Hver).
       by rewrite (bool_decide_eq_false_2 _ Hne). }
  2-4: apply Hfr; lia. 2: apply request_used_spec; intros k x Hx; eapply fr_request; [done| |done]; lia.
  2: apply duplicate_spec; intros k x Hx; eapply Hnew; [done|apply elem_of_cons; by left]. 2: done. 2: apply Hid; lia.
  cbn [mbind py_bind].
  destruct (IH (S (S n)) (admitted_store (uuids n) (uuids (S n)) (match_source event_id id stamp f) scope q))
    as (q' & -> & (W1 & W2 & W3 & W4 & W5) & Hq'); try done.
  - intros f' Hf'. apply Hrow, elem_of_cons. by right.
  - apply fresh_ids_next; [lia|done].
  - lia.
  - intros f' Hf'. apply Hok, elem_of_cons. by right.
  - intros k x f' Hx Hf' Ht. simpl in Hx. apply lookup_insert_Some in Hx as [[<- <-]|[_ Hx]].
    + apply Hf. apply list_elem_of_fmap. exists f'. split; [|done]. unfold match_key. destruct Ht as (_ & E1 & E2 & E3).
      simpl in *. congruence.
    + eapply (Hnew k x f'); [done|apply elem_of_cons; by right|done].
  - exists q'. split_and!; try done. intros k x. rewrite Hq'. simpl. rewrite lookup_insert_Some. split.
    + intros [[[<- <-]|[_ Hx]]|(i & f' & Hf' & -> & ->)]; [right|by left|right].
      * exists O, f. split_and!; try done. f_equal. lia.
      * exists (S i), f'. split_and!; try done. f_equal. lia.
    + intros [Hx|([|i] & f' & Hf' & -> & ->)].
      * left. right. split; [|done]. intros <-. rewrite (fr_fire _ _ _ _ Hfr) in Hx; [done|lia].
      * simplify_eq/=. left. left. split; [f_equal; lia|done].
      * right. exists i, f'. split_and!; try done. f_equal. lia.
Qed.

End Admission.

(** ** The transaction *)

Section Exact.
Context `{Unicode} `{AddressLib} `{ConnectLib} `{Zones}.
Implicit Types a : analysis_store.

Lemma message_attachment_elem id a d : d ∈ message_attachments id a → (id, d.(att_part_id)) ∈ dom a.(an_attachments).
Proof.
  unfold message_attachments. rewrite sort_attachments_perm, list_elem_of_fmap.
  intros ([[i part] x] & -> & [Hin Hb]%elem_of_filter_b). apply elem_of_map_to_list in Hin. simpl in *. bools. subst i.
  by apply elem_of_dom_2 in Hin.
Qed.

Lemma message_attachment_parts id a : NoDup (att_part_id <$> message_attachments id a).
Proof.
  unfold message_attachments. rewrite sort_attachments_perm, <- list_fmap_compose.
  pose proof (NoDup_map_to_list a.(an_attachments)) as Hn. revert Hn.
  assert (∀ e e', e ∈ map_to_list a.(an_attachments) → e' ∈ map_to_list a.(an_attachments) → e.1 = e'.1 → e = e') as Hkey.
  { intros [k x] [k' x'] Hx Hx' E. simpl in E. subst. apply elem_of_map_to_list in Hx, Hx'. congruence. }
  revert Hkey. generalize (map_to_list (an_attachments a)). intros l Hkey Hn.
  induction Hn as [|e l He Hn IH]; simpl; [constructor|].
  assert (NoDup (att_part_id ∘ (λ e : text * text * AttachmentDescriptor, mk_attachment e.1.2 e.2.(att_attachment_id)
      e.2.(att_filename) e.2.(att_media_type) e.2.(att_byte_size) e.2.(att_position) e.2.(att_byte_size_known) None) <$>
      List.filter (λ e, bool_decide (e.1.1 = id)) l)) as Hl.
  { apply IH. intros x y Hx Hy. apply Hkey; by right. }
  case_bool_decide as E; [|done]. rewrite fmap_cons, list.NoDup_cons. split; [|done].
  rewrite list_elem_of_fmap. intros (x & Hp & [Hx Hb]%elem_of_filter_b). bools. simpl in Hp.
  destruct e as [[i p] d], x as [[i' p'] d']. simpl in *. subst. apply He.
  rewrite (Hkey (id, p', d) (id, p', d')); [done|by left|by right|done].
Qed.

Lemma classified_result provider account_id key sender sender_name subject result :
  classified (mk_message provider account_id key sender sender_name subject (result_view result)).
Proof. exists result.(ar_category), result.(ar_priority), result.(ar_action_required). by split_and!. Qed.

(** The message as the rules see it. *)
Definition view_of (m : MessageRow) (row : AnalysisRow) (key : text) (result : AnalysisResult) : message_view :=
  mk_message m.(ms_provider) m.(ms_account_id) key row.(ay_sender) row.(ay_sender_name) row.(ay_subject) (result_view result).

Lemma evaluate_exact rules m row key result id a :
  Forall valid_rule rules → NoDup (mr_rule_id <$> rules) →
  let atts := message_attachments id a in let view := view_of m row key result in
  (∃ matched, evaluate_rules rules m row key result atts = Ret (inl matched) ∧ NoDup (match_key <$> matched) ∧
     (length matched <= MAX_AUTOMATION_FIRES_PER_MESSAGE)%nat ∧
     ∀ rule_id version part_id, (∃ f, f ∈ matched ∧ match_key f = (rule_id, version, part_id)) ↔
       rule_hit view rules atts rule_id version part_id) ∨
  (fanned_out view rules atts ∧ evaluate_rules rules m row key result atts = Ret (inr (str "automation_fanout_limit"))).
Proof.
  intros Hv Hr atts view. unfold evaluate_rules. fold atts. case_bool_decide as Hn.
  { right. split; [by left|done]. }
  destruct (matches_exact rules view atts) as [(matched & E & Hm)|(Hf & e & E)]; [apply classified_result|done|done|..].
  - apply message_attachment_parts.
  - left. exists matched. fold view in E. unfold view, view_of in E. rewrite E. done.
  - right. split; [done|]. unfold view, view_of in E. by rewrite E.
Qed.

(** What the fires of an analysis are. *)
Record fires_admitted (event_id id stamp : text) (hit : text → Z → text → Prop) (q q' : connect_store) : Prop := {
  fa_work : same_work q q';
  fa_old : ∀ k x, q.(cs_fires) !! k = Some x → q'.(cs_fires) !! k = Some x;
  fa_new : ∀ k x, q'.(cs_fires) !! k = Some x → q.(cs_fires) !! k = Some x ∨
    ∃ rule_id version part_id, hit rule_id version part_id ∧
      x = new_fire (mk_fire_source event_id rule_id version id part_id stamp);
  fa_all : ∀ rule_id version part_id, hit rule_id version part_id →
    ∃ k, q.(cs_fires) !! k = None ∧
      q'.(cs_fires) !! k = Some (new_fire (mk_fire_source event_id rule_id version id part_id stamp)) }.

Lemma current_rules_known s : rules_inv s →
  ∃ rules, _current_match_rules s = Ret rules ∧ Forall valid_rule rules ∧ NoDup (mr_rule_id <$> rules) ∧
    ∀ rule, rule ∈ rules → rule_known s rule.(mr_rule_id) rule.(mr_version) = true.
Proof.
  intros Hi. destruct (current_rules_loaded s Hi) as (rules & Hl & Hv & Hn & Hc & Hall). exists rules.
  split_and!; [done|done|done|]. intros rule Hr. specialize (Hc rule Hr).
  destruct (canonical_rule_definition (mr_definition rule)) as [encoded|] eqn:E; [|done].
  destruct (proj1 (Hall rule.(mr_rule_id) rule.(mr_version) rule.(mr_scope_mailbox_identity_key) encoded))
    as (r & v & _ & _ & _ & _ & Ev & _ & Hk); [by exists rule|].
  unfold rule_known, is_definition. by rewrite Ev, Hk.
Qed.

Lemma stored_message_id id st m : stored_message id st = Some m → m.(ms_message_id) = id.
Proof. unfold stored_message. intros [_ E]%List.find_some. by apply bool_decide_eq_true_1 in E. Qed.

Lemma suppression_key_length provider account_id message_id key event_id :
  message_suppression_key provider account_id message_id key = Some event_id → sql_length event_id = 64%nat.
Proof. unfold message_suppression_key. intros Hk. repeat case_match; simplify_eq/=; apply digest_sql_length. Qed.

Lemma rule_known_checked s rule_id version : rules_inv s → rule_known s rule_id version = true →
  sql_length rule_id = 36%nat ∧ 1 <= version.
Proof.
  unfold rule_known. intros Hi. destruct (rs_versions s !! _) as [v|] eqn:Ev; [|done]. intros _.
  pose proof (ri_checked _ Hi _ _ _ Ev) as Hc. unfold version_row_ok in Hc. bools. split; [done|lia].
Qed.

(** The fires of the matches of a message that has none. *)
Lemma admit_matches_exact rules m key stamp uuids event_id matched hit q :
  identity_key_ok key = true → m.(ms_provider) ≠ [] → m.(ms_account_id) ≠ [] → m.(ms_message_id) ≠ [] →
  message_suppression_key m.(ms_provider) m.(ms_account_id) m.(ms_provider_message_id) (Some key) = Some event_id →
  fresh_ids uuids 0 (2 * MAX_AUTOMATION_FIRES_PER_MESSAGE) q →
  (∀ k x, q.(cs_fires) !! k = Some x → x.(fi_source).(fs_message_id) ≠ m.(ms_message_id)) →
  NoDup (match_key <$> matched) → (length matched <= MAX_AUTOMATION_FIRES_PER_MESSAGE)%nat →
  (∀ rule_id version part_id, (∃ f, f ∈ matched ∧ match_key f = (rule_id, version, part_id)) ↔ hit rule_id version part_id) →
  (∀ rule_id version part_id, hit rule_id version part_id →
     rule_known rules rule_id version = true ∧ (m.(ms_message_id), part_id) ∈ q.(cs_attachments)) →
  (∀ rule_id version part_id, hit rule_id version part_id → sql_length rule_id = 36%nat ∧ 1 <= version) →
  ∃ q', admit_matches rules m key stamp uuids (inl matched) q = Ret q' ∧
    fires_admitted event_id m.(ms_message_id) stamp hit q q'.
Proof.
  intros Hkey Hp Hacc Hid Hev Hfr Hnone Hnd Hlen Hhit Hok Hrow. unfold admit_matches. rewrite Hev. cbn [require_some mbind py_bind].
  destruct (insert_fires_exact rules event_id m.(ms_message_id) stamp (m.(ms_provider), m.(ms_account_id), key) uuids
              (2 * MAX_AUTOMATION_FIRES_PER_MESSAGE) matched 0 q) as (q' & Hq' & Hw & Hfires); try done.
  - intros i part Hi. unfold identity_row_ok. rewrite (fr_length _ _ _ _ Hfr i Hi), Hkey.
    by rewrite (bool_decide_eq_false_2 _ Hp), (bool_decide_eq_false_2 _ Hacc), (bool_decide_eq_false_2 _ Hid).
  - by eapply suppression_key_length.
  - intros f Hf. apply (Hrow f.(mf_rule_id) f.(mf_rule_version) f.(mf_part_id)), Hhit. by exists f.
  - lia.
  - intros f Hf. apply (Hok f.(mf_rule_id) f.(mf_rule_version)), Hhit. by exists f.
  - intros k x f Hx _ [E _]. by eapply Hnone.
  - exists q'. split; [done|]. split; [done|..].
    + intros k x Hx. apply Hfires. by left.
    + intros k x [Hx|(i & f & Hf & -> & ->)]%Hfires; [by left|right].
      exists f.(mf_rule_id), f.(mf_rule_version), f.(mf_part_id). split; [|done]. apply Hhit.
      exists f. split; [by eapply list_elem_of_lookup_2|done].
    + intros rule_id version part_id (f & Hf & Hk)%Hhit. apply list_elem_of_lookup in Hf as [i Hi].
      exists (uuids (2 * i)%nat). pose proof (lookup_lt_Some _ _ _ Hi). split; [apply (fr_fire _ _ _ _ Hfr); lia|].
      apply Hfires. right. exists i, f. split_and!; try done. unfold match_key in Hk. by simplify_eq.
Qed.

(** The values SQLite stores with a result: texts that have UTF-8, and body counts that are
    both absent or both given, in order and within 64 bits. *)
Definition storable (result : AnalysisResult) (chars source_chars : option Z) : Prop :=
  Forall (fun t => is_Some (Utf8.encode t)) (result_texts result) ∧
  (chars = None ∧ source_chars = None ∨
   ∃ c s, chars = Some c ∧ source_chars = Some s ∧ 0 <= c <= s ∧ s < 2 ^ 63).

Lemma storable_spec result chars source_chars :
  (storable result chars source_chars →
     bind_completion result chars source_chars = Ret tt ∧ check_body_counts chars source_chars = Ret tt) ∧
  (bind_completion result chars source_chars = Ret tt → check_body_counts chars source_chars = Ret tt →
     storable result chars source_chars).
Proof.
  assert (Ht : forallb binds_text (result_texts result) = true ↔ Forall (fun t => is_Some (Utf8.encode t)) (result_texts result)).
  { rewrite List.forallb_forall, list.Forall_forall. unfold binds_text. split; intros Hall t Ht.
    - apply list_elem_of_In in Ht. specialize (Hall t Ht). by destruct (Utf8.encode t); [eexists|].
    - apply list_elem_of_In in Ht. by destruct (Hall t Ht) as [? ->]. }
  unfold bind_completion, check_body_counts, storable. rewrite <- Ht. split.
  - intros [-> [[-> ->]|(c & s & -> & -> & Hc & Hs)]]; [done|]. unfold binds_int. simpl.
    rewrite !andb_true_r. cbn [require mbind py_bind].
    rewrite (proj2 (Z.leb_le c s)), (proj2 (Z.leb_le 0 c)), (proj2 (Z.leb_le 0 s)) by lia.
    rewrite (proj2 (Z.leb_le (- 2 ^ 63) c)), (proj2 (Z.ltb_lt c (2 ^ 63))), (proj2 (Z.leb_le (- 2 ^ 63) s)), (proj2 (Z.ltb_lt s (2 ^ 63))) by lia.
    done.
  - intros (? & Hb%require_ret_inv & Hi%require_ret_inv)%bind_ret_inv (? & Hc%require_ret_inv & Hn%require_ret_inv)%bind_ret_inv.
    split; [done|]. destruct chars as [c|], source_chars as [s|]; try done; [right|by left]. simpl in Hi, Hn. unfold binds_int in Hi.
    exists c, s. bools. split_and!; try done; lia.
Qed.


End Exact.
