(* ===== verification/AnalysisTheorems.v ===== *)
(** * Guarantees of the analysis *)

From S2P Require Export AnalysisSystem.
From S2P Require Import BodyTheorems.
From stdpp Require Import options.

Local Open Scope Z_scope.

Section Guarantees.
Context `{Unicode} `{AddressLib} `{ConnectLib} `{Zones}.
Implicit Types a : analysis_store.

(** A path on which the row of a message keeps a condition. *)
Definition while (P : AnalysisRow → Prop) (id : text) a : Prop :=
  ∃ r, a.(an_rows) !! id = Some r ∧ P r.

Definition path_while (P : AnalysisRow → Prop) (id : text) : relation analysis_store :=
  rtc (λ x y, system_step x y ∧ while P id y).

(** What a path preserves, when each step of the life of the message does. *)
Lemma path_while_ind (P Q : AnalysisRow → Prop) id a a' :
  (∀ r r', P r → P r' → Q r → life (Some r) (Some r') → Q r') →
  path_while P id a a' → while P id a → while Q id a → while (λ r, P r ∧ Q r) id a'.
Proof.
  intros Hstep Hs. induction Hs as [a|a a1 a' [Hs HP] _ IH]; intros (r & Hr & Hp) (r0 & Hr0 & Hq); simplify_eq.
  - by exists r.
  - destruct HP as (r1 & Hr1 & Hp1). apply IH; exists r1; (split; [done|]); [done|].
    pose proof (system_step_life _ _ id Hs) as Hl. rewrite Hr, Hr1 in Hl. by eapply Hstep.
Qed.

(** ** Requests *)

Definition requested (q : AnalysisRequest) (r : AnalysisRow) : Prop :=
  r.(ay_request_id) = Some q.(aq_request_id) ∧ r.(ay_context_at) = Some q.(aq_context_at) ∧
  r.(ay_body_char_limit) = Some q.(aq_body_char_limit).

(** Pending, and not paused for good. *)
Definition awaiting (r : AnalysisRow) : Prop :=
  r.(ay_status) = APending ∧ r.(ay_retry).(re_retryable) ≠ Some false.

Lemma awaiting_requested q r r' :
  awaiting r → awaiting r' → requested q r → life (Some r) (Some r') → requested q r'.
Proof.
  intros [Hp Hn] [Hp' _] (E1 & E2 & E3) Hl. inversion Hl as [? ? Hw| | | | | | |]; simplify_eq/=; try done.
  inversion Hw; subst; try done. unfold requeued_row. by rewrite bool_decide_eq_false_2 by congruence.
Qed.

Lemma reserved_requested id limit now uuid a q a' :
  reserve_analysis_request id limit now uuid a = Ret (q, a') → while (requested q) id a'.
Proof.
  unfold reserve_analysis_request. intros Hr. peel; bools; simplify_eq.
  - eexists. split; [done|]. done.
  - eexists. rewrite alter_row_lookup, decide_True by done. rewrite Hsome. split; done.
Qed.

(** C12: The request of an analysis is made once: after a reservation, and as long as the
    message is pending and not paused for good, whatever else the system does, every
    further reservation returns the same identifier, time and body limit and changes
    nothing. *)
Theorem reservation_stable id limit now uuid a q a1 a' limit' now' uuid' :
  reserve_analysis_request id limit now uuid a = Ret (q, a1) → while awaiting id a1 →
  path_while awaiting id a1 a' → 1 <= limit' → message_available a'.(an_sources) CONTENT id = true →
  reserve_analysis_request id limit' now' uuid' a' = Ret (q, a').
Proof.
  intros Hr Hw Hs Hl Hav.
  destruct (path_while_ind awaiting (requested q) id _ _ (awaiting_requested q) Hs Hw)
    as (r & Hr' & [Hp _] & E1 & E2 & E3); [by eapply reserved_requested|].
  unfold reserve_analysis_request. rewrite (proj2 (Z.leb_le 1 limit') Hl), Hav, Hr'. simpl.
  rewrite bool_decide_eq_true_2, E1, E2, E3 by done. by destruct q.
Qed.

(** ** Results *)

Definition completed (c : Completion) (r : AnalysisRow) : Prop :=
  (r.(ay_status) = AAnalyzed ∨ r.(ay_status) = ASummarized) ∧ r.(ay_completion) = Some c.

Lemma completed_stays c r r' :
  r.(ay_status) ≠ ASkipped → r'.(ay_status) ≠ ASkipped → completed c r → life (Some r) (Some r') → completed c r'.
Proof.
  intros Hn Hn' [Hs Hc] Hl. inversion Hl as [? ? Hw| | | | | | |]; simplify_eq/=; try done.
  - inversion Hw; subst; [done|]. unfold requeued_row. by rewrite bool_decide_eq_false_2.
  - destruct Hs; congruence.
  - split; [by right|done].
Qed.

(** C9: A message is analyzed once: as long as it is not skipped or removed, its result, the
    time and the rule revision of its analysis never change, whatever the system does, and
    a second completion raises. *)
Theorem analysis_final id result key chars source_chars principal now uuids a a1 a' :
  mark_analyzed id result key chars source_chars principal now uuids a = Ret a1 →
  path_while (λ r, r.(ay_status) ≠ ASkipped) id a1 a' →
  ∃ r c, a'.(an_rows) !! id = Some r ∧ completed c r ∧
    c.(cm_result) = result ∧ c.(cm_analysis_at) = isoformat (utc now) ∧
    Some c.(cm_rules_revision) = a.(an_rules).(rs_revision) ∧
    ∀ result' key' chars' source_chars' principal' now' uuids',
      is_ret (mark_analyzed id result' key' chars' source_chars' principal' now' uuids' a') = false.
Proof.
  intros (m & row & rules & evaluated & q & d & revision & [])%analyzed_parts_ret Hs.
  set (c := mk_completion (isoformat (utc now)) result chars source_chars revision
              (match evaluated with inl _ => None | inr e => Some e end)) in *.
  assert (a1.(an_rows) !! id = Some (completed_row c row)) as Hr1.
  { subst a1. simpl. rewrite lookup_alter_eq, ap_row. done. }
  destruct (path_while_ind (λ r, r.(ay_status) ≠ ASkipped) (completed c) id _ _ (completed_stays c) Hs)
    as (r & Hr & _ & Hc).
  { by exists (completed_row c row). }
  { exists (completed_row c row). split; [done|]. by split; [left|]. }
  exists r, c. split_and!; try done.
  intros. destruct (mark_analyzed _ _ _ _ _ _ _ _ a') eqn:E; [|done].
  apply analyzed_parts_ret in E as (m' & row' & rules' & evaluated' & q' & d' & revision' & []).
  destruct Hc as [[Hc|Hc] _]; congruence.
Qed.

(** ** Retries *)

Lemma live_rows_spec a m r : (m, r) ∈ live_rows a ↔
  m ∈ logical_messages a.(an_sources) ∧ content_available a.(an_sources) m = true ∧
  a.(an_rows) !! m.(ms_message_id) = Some r.
Proof.
  unfold live_rows. rewrite list_elem_of_omap. split.
  - intros (x & [Hx Hav]%elem_of_filter_b & Hr). apply bind_Some in Hr as (y & Hy & Heq). by simplify_eq.
  - intros (Hm & Hav & Hr). exists m. rewrite elem_of_filter_b, Hr. done.
Qed.

(** The message is in the work list, which is read without a limit. *)
Definition listed (id : text) (t : Z) a : Prop :=
  ∃ l e, AnalysisStore.pending t (-1) None None a = Ret l ∧ e ∈ l ∧ e.1.(ms_message_id) = id.

Lemma listed_spec id t a : listed id t a ↔
  ∃ m r, (m, r) ∈ live_rows a ∧ m.(ms_message_id) = id ∧ r.(ay_status) = APending ∧
    retry_allowed r = true ∧ retry_due (isoformat (utc t)) r = true.
Proof.
  unfold listed, AnalysisStore.pending. simpl. split.
  - intros (l & [m r] & [= <-] & He & Hid). unfold sql_limit in He. simpl in He.
    rewrite sort_by_perm, elem_of_filter_b in He. destruct He as [He Hp]. unfold pending_row in Hp. simpl in Hp. bools.
    by exists m, r.
  - intros (m & r & He & Hid & Hp & Hr & Hd). eexists _, (m, r). split_and!; [done| |done].
    unfold sql_limit. simpl. rewrite sort_by_perm, elem_of_filter_b. split; [done|].
    unfold pending_row. simpl. by rewrite bool_decide_eq_true_2, Hr, Hd.
Qed.

(** The wait before the next attempt, in seconds. *)
Definition backoff (attempts : Z) (after : option Z) : Z :=
  match after with
  | Some seconds => seconds
  | None => 60 * (if attempts <=? 0 then 5 else if attempts =? 1 then 15 else if attempts =? 2 then 60
                  else if attempts =? 3 then 360 else 1440)
  end.

Lemma retry_delay_backoff attempts : 0 <= attempts →
  ∃ delay, retry_delay attempts = Some delay ∧ delay * MINUTE = backoff attempts None * US.
Proof.
  intros Ha. unfold retry_delay, backoff, MINUTE, US.
  assert (attempts = 0 ∨ attempts = 1 ∨ attempts = 2 ∨ attempts = 3 ∨ 4 <= attempts) as [->|[->|[->|[->|Hb]]]] by lia.
  1-4: eexists; split; reflexivity.
  rewrite (Z.min_r attempts 4) by done. exists 1440. split; [reflexivity|].
  repeat case_match; lia.
Qed.

Lemma next_retry_backoff attempts retryable after now o : 0 <= attempts →
  next_retry attempts retryable after now = Ret o →
  match o with
  | Some t => retryable = true ∧ t = now + backoff attempts after * US ∧ wall_ok t = true
  | None => retryable = false
  end.
Proof.
  intros Ha Hn. unfold next_retry in Hn. destruct retryable; simpl in Hn; [|by simplify_eq].
  destruct after as [seconds|]; simpl in Hn; unfold plus_us in Hn; peel; simplify_eq; simpl.
  - done.
  - destruct (retry_delay_backoff attempts Ha) as (delay & Hd & Hb). rewrite Hd in Hsome. simplify_eq.
    rewrite Hb in *. done.
Qed.

Lemma live_rows_alter f id a m r : (m, r) ∈ live_rows (alter_row f id a) ↔
  ∃ r0, (m, r0) ∈ live_rows a ∧ r = (if decide (m.(ms_message_id) = id) then f r0 else r0).
Proof.
  setoid_rewrite live_rows_spec. rewrite alter_row_lookup. simpl. case_decide.
  - rewrite fmap_Some. naive_solver.
  - naive_solver.
Qed.

(** C40: A recorded failure decides when a message is analyzed again: with a permanent one it
    is in no work list; with a retryable one exactly from the announced number of seconds
    on, by default 5, 15, 60, 360 and from then on 1440 minutes after the failure.  The
    stamps are compared as texts, to the microsecond.  Other messages are unaffected. *)
Theorem retry_window id error attempts retryable code after now a a' m r t :
  0 <= attempts → wall_ok t = true → (m, r) ∈ live_rows a → m.(ms_message_id) = id →
  record_analysis_failure id error attempts retryable code after now a = Ret a' →
  (listed id t a' ↔ retryable = true ∧ now + backoff attempts after * US <= t) ∧
  ∀ other, other ≠ id → (listed other t a' ↔ listed other t a).
Proof.
  intros Ha Ht Hm Hid Hf. unfold record_analysis_failure in Hf.
  apply bind_ret_inv in Hf as (? & _ & Hf). apply bind_ret_inv in Hf as (o & Ho & Hf).
  apply (next_retry_backoff _ _ _ _ _ Ha) in Ho. peel. bools. subst a'.
  pose proof Hm as (Hlog & Hav & Hrow)%live_rows_spec. rewrite Hid in Hrow. simplify_eq.
  split.
  - rewrite listed_spec. setoid_rewrite live_rows_alter. split.
    + intros (m' & r' & (r0 & Hm' & ->) & Hid' & _ & Hr & Hd). rewrite decide_True in Hr, Hd by done.
      unfold retry_allowed, retry_due in Hr, Hd. simpl in Hr, Hd. subst retryable.
      destruct o as [w|]; [|done]. destruct Ho as (_ & -> & Hw). split; [done|]. simpl in Hd.
      rewrite stamp_leb in Hd by done. lia.
    + intros [-> Hle]. destruct o as [w|]; [|done]. destruct Ho as (_ & -> & Hw).
      eexists m, _. split_and!; [exists a0; by split|done|..]; rewrite decide_True by done; try done.
      unfold retry_due. simpl. rewrite stamp_leb by done. lia.
  - intros other Hne. rewrite !listed_spec. setoid_rewrite live_rows_alter. split.
    + intros (m' & r' & (r0 & Hm' & ->) & <- & Hs). rewrite decide_False in Hs by done. by exists m', r0.
    + intros (m' & r' & Hm' & <- & Hs). exists m', r'. split; [|done]. exists r'. by rewrite decide_False.
Qed.

(** ** The composed store *)

Lemma known_definition rules id version : rules_inv rules → rule_known rules id version = true →
  ∃ d, automation_fire_definition rules id version = Ret d ∧ definition_ok d = true.
Proof.
  intros Hi. unfold rule_known, is_definition, automation_fire_definition.
  destruct (rs_versions rules !! (id, version)) as [v|] eqn:E; [|done].
  destruct (vr_kind v) as [encoded digest|] eqn:Ek; [|done]. intros _.
  destruct (sound_reads _ _ (ri_sound _ Hi _ _ _ _ E Ek)) as (d & Hok & Hc & _ & Hread & ->).
  exists d. split; [|done]. destruct v as [kind ? ? ? ?]. simpl in Ek. subst kind.
  rewrite bool_decide_eq_true_2 by done. cbn [mbind py_bind require].
  destruct (JsonParse.loads_bytes encoded) as [j|e]; [|done]. cbn [mbind py_bind] in *. rewrite Hread. cbn [mbind py_bind].
  rewrite Hc. cbn [mbind py_bind]. by rewrite bool_decide_eq_true_2.
Qed.

(** C10: The components fit together: in every store reached by the operations on messages,
    rules, queue and scheduling runs in any order, the invariants of the rules, the queue
    and the runs hold, all see the same message tables, an analysis request is stored
    whole, every analyzed message has its result, no rule version has fired twice for an
    attachment, and the definition a fire was admitted for can be read. *)
Theorem analysis_system_sound a :
  system_reachable a →
  system_inv a ∧
  ∀ k f, a.(an_queue).(cs_fires) !! k = Some f →
    ∃ d, automation_fire_definition a.(an_rules) f.(fi_source).(fs_rule_id) f.(fi_source).(fs_rule_version) = Ret d ∧
      definition_ok d = true.
Proof.
  intros Hr. pose proof (reachable_system_inv _ Hr) as Hi. split; [done|].
  intros k f Hf. apply known_definition; [apply Hi|]. by eapply fd_known; [apply Hi|].
Qed.

End Guarantees.

(** * Notifications

    An intent that is listed can be acknowledged, once, and is then listed no more. *)

(** The decimal digits of ASCII are digits of their value, and no space. *)
Definition plain_digits `{Unicode} : Prop :=
  ∀ c, is_digit c = true → uni_decimal c = Some (c - 48)%N ∧ uni_isspace c = false.

(** ** The text of a version *)

Lemma int_digits_number `{Unicode} ds acc b : plain_digits → forallb is_digit ds = true → ds ≠ [] ∨ b = true →
  int_digits (Z.of_N acc) b ds = Some (Z.of_N (fold_left (fun n c => 10 * n + (c - 48)) ds acc)%N).
Proof.
  intros Hp. revert acc b. induction ds as [|c ds IH]; intros acc b Hd Hb; simpl in *.
  { destruct Hb as [Hb| ->]; done. }
  bools. destruct (Hp c) as [-> _]; [done|].
  replace (Z.of_N acc * 10 + Z.of_N (c - 48)) with (Z.of_N (10 * acc + (c - 48))%N) by lia.
  apply IH; [done|by right].
Qed.

Lemma lstrip_digits `{Unicode} ds : plain_digits → forallb is_digit ds = true → lstrip ds = ds.
Proof. intros Hp. destruct ds as [|c ds]; simpl; [done|]. intros Hd. bools. by destruct (Hp c) as [_ ->]. Qed.

Lemma strip_digits `{Unicode} ds : plain_digits → forallb is_digit ds = true → strip ds = ds.
Proof.
  intros Hp Hd. unfold strip. rewrite (lstrip_digits ds), lstrip_digits, reverse_involutive; try done.
  rewrite forallb_forall in *. intros c Hc. apply Hd. rewrite <- list_elem_of_In in *. by rewrite <- elem_of_reverse.
Qed.

Lemma python_int_text `{Unicode} z : plain_digits → 0 < z < 2 ^ 63 → python_int (int_text z) = Some z.
Proof.
  intros Hp Hz. destruct z as [|p|p]; try lia. simpl int_text.
  destruct (decimal_spec (Npos p)) as (Hd & Hn & Hne & _). unfold python_int. rewrite strip_digits by done.
  assert (int_literal (decimal (Npos p)) = Some (Zpos p)) as Hl.
  { unfold int_literal. rewrite bool_decide_eq_true_2.
    - rewrite (int_digits_number _ 0%N) by auto. unfold JsonParse.number_of in Hn. by rewrite Hn.
    - etrans; [apply List.filter_length_le|]. etrans; [apply (decimal_length_bound _ 63); lia|]. vm_compute. lia. }
  destruct (decimal (Npos p)) as [|c ds] eqn:E; [done|]. simpl in Hd. bools.
  destruct (decide (c = 45%N)) as [->|]; [done|]. destruct (decide (c = 43%N)) as [->|]; [done|].
  repeat case_match; simplify_eq; done.
Qed.

Section Notifications.
Context `{Unicode} `{AddressLib} `{ConnectLib} `{Zones}.
Implicit Types a : analysis_store.

(** ** The list *)

Lemma run_intents_elem a r i : i ∈ run_intents a r ↔ i = run_intent r.
Proof.
  unfold run_intents. destruct (List.filter _ _) as [|m l]; [by rewrite list_elem_of_singleton|].
  rewrite list_elem_of_fmap. split; [by intros (x & -> & _)|]. intros ->. exists m. split; [done|]. apply elem_of_cons. by left.
Qed.

Lemma notification_intents_elem kind a i : i ∈ notification_intents (-1) kind a ↔
  (∀ k, kind = Some k → kind_text i.(ni_kind) = k) ∧
  ((∃ m r, (m, r) ∈ live_rows a ∧ message_intent_due r = true ∧ i = message_intent (m, r)) ∨
   (∃ r, r ∈ due_runs a ∧ i = run_intent r)).
Proof.
  unfold notification_intents, sql_limit. simpl. rewrite sort_by_perm, elem_of_filter_b, elem_of_app, list_elem_of_fmap.
  rewrite (list_elem_of_In (flat_map _ _)), in_flat_map. split.
  - intros [Hi Hk]. split.
    + intros k ->. by apply bool_decide_eq_true_1 in Hk.
    + destruct Hi as [([m r] & -> & [Hm Hd]%elem_of_filter_b)|(r & Hr & Hin)]; [by left; exists m, r|right].
      apply list_elem_of_In in Hr. apply list_elem_of_In, run_intents_elem in Hin. by exists r.
  - intros [Hk Hi]. split.
    + destruct Hi as [(m & r & Hm & Hd & ->)|(r & Hr & ->)].
      * left. exists (m, r). split; [done|]. by apply elem_of_filter_b.
      * right. exists r. split; apply list_elem_of_In; [done|by apply run_intents_elem].
    + destruct kind as [k|]; [|done]. apply bool_decide_eq_true_2. by apply Hk.
Qed.

Lemma all_runs_elem (d : Db) r : keyed d → r ∈ all_runs d ↔ d.(db_runs) !! r.(run_key).(rk_run_id) = Some r.
Proof.
  intros Hk. unfold all_runs. rewrite list_elem_of_fmap. split.
  - intros ([id x] & -> & Hx%elem_of_map_to_list). simpl. by rewrite (Hk _ _ Hx).
  - intros Hr. exists ((run_key r).(rk_run_id), r). split; [done|]. by apply elem_of_map_to_list.
Qed.

Lemma live_available a m r : NoDup (ms_message_id <$> a.(an_sources).(st_messages)) → (m, r) ∈ live_rows a →
  message_available a.(an_sources) CONTENT m.(ms_message_id) = true ∧ a.(an_rows) !! m.(ms_message_id) = Some r.
Proof.
  intros Hn (Hm & Hav & Hr)%live_rows_spec. split; [|done].
  unfold message_available. by rewrite (BodyTheorems.find_message _ _ Hn (logical_stored _ _ Hm)).
Qed.

(** ** The subject of an intent *)

Definition same_subject (i j : NotificationIntent) : Prop :=
  j.(ni_subject_type) = i.(ni_subject_type) ∧ j.(ni_subject_id) = i.(ni_subject_id).

(** The caller names an intent by what was listed. *)
Definition acknowledge (i : NotificationIntent) (now : Z) a : py (bool * analysis_store) :=
  acknowledge_notification i.(ni_message_id) (kind_text i.(ni_kind)) (Some i.(ni_revision)) (Some i.(ni_subject_type))
    (Some i.(ni_subject_id)) (Some i.(ni_revision)) now a.

(** The acknowledged intent goes, the others stay. *)
Record acknowledged (i : NotificationIntent) a a' : Prop := {
  ak_gone : ∀ j, j ∈ notification_intents (-1) None a' → ¬ same_subject i j;
  ak_others : ∀ j, ¬ same_subject i j →
    (j ∈ notification_intents (-1) None a' ↔ j ∈ notification_intents (-1) None a) }.

Lemma acknowledge_message_intent m r now a : m.(ms_message_id) ≠ [] →
  acknowledge (message_intent (m, r)) now a =
  _ ← require (negb (bool_decide (kind_text (message_intent (m, r)).(ni_kind) = str "analysis")) ||
               truthy (message_intent (m, r)).(ni_revision))
        (ValueError "analysis_at is required for an analysis notification");
  acknowledge_message m.(ms_message_id) (message_intent (m, r)).(ni_kind) (Some (message_intent (m, r)).(ni_revision))
    (isoformat (utc now)) a.
Proof.
  intros Hne. unfold acknowledge, acknowledge_notification. simpl ni_message_id. simpl ni_subject_id.
  assert (truthy m.(ms_message_id) = true) as Ht by by apply bool_decide_eq_true_2.
  destruct (bool_decide (ay_status r = AAnalyzed)) eqn:E; unfold message_intent; simpl; rewrite E; simpl;
    rewrite Ht; simpl; rewrite bool_decide_eq_true_2 by done; simpl; done.
Qed.

(** ** Messages *)

Lemma alter_acknowledged f m r a :
  (m, r) ∈ live_rows a → message_intent_due (f r) = false →
  acknowledged (message_intent (m, r)) a (alter_row f m.(ms_message_id) a).
Proof.
  intros Hm Hd. pose proof Hm as (_ & _ & Hr)%live_rows_spec. split.
  - intros j [_ [(m' & r' & Hm' & Hd' & ->)|(r' & _ & ->)]]%notification_intents_elem [Ht Hs]; simpl in *; [|done].
    apply live_rows_alter in Hm' as (r0 & Hm' & ->). rewrite decide_True in Hd' by done.
    apply live_rows_spec in Hm' as (_ & _ & Hr'). congruence.
  - intros j Hj. rewrite !notification_intents_elem. apply and_iff_compat_l, or_iff_compat_r. split.
    + intros (m' & r' & Hm' & Hd' & ->). apply live_rows_alter in Hm' as (r0 & Hm' & ->).
      case_decide; [|by exists m', r0]. by destruct Hj.
    + intros (m' & r' & Hm' & Hd' & ->). exists m', r'. split; [|done]. apply live_rows_alter. exists r'.
      split; [done|]. case_decide; [|done]. by destruct Hj.
Qed.

Lemma acknowledge_analysis id stamp stamp' r c a :
  message_available a.(an_sources) CONTENT id = true → a.(an_rows) !! id = Some r →
  r.(ay_status) = AAnalyzed → r.(ay_completion) = Some c →
  let a' := alter_row (delivered_row stamp) id a in
  acknowledge_message id NAnalysis (Some c.(cm_analysis_at)) stamp a = Ret (true, a') ∧
  acknowledge_message id NAnalysis (Some c.(cm_analysis_at)) stamp' a' = Ret (false, a').
Proof.
  intros Hav Hr Est Ec a'. assert (a'.(an_rows) !! id = Some (delivered_row stamp r)) as Hr'.
  { unfold a'. by rewrite alter_row_lookup, decide_True, Hr. }
  unfold acknowledge_message. replace (an_sources a') with (an_sources a) by done.
  rewrite Hav, Hr, Hr'. simpl. rewrite Ec, Est. simpl.
  rewrite !(bool_decide_eq_true_2 (Some _ = Some _)) by done. done.
Qed.

Lemma acknowledge_fallback id stamp stamp' at_ r a :
  message_available a.(an_sources) CONTENT id = true → a.(an_rows) !! id = Some r →
  r.(ay_status) = APending → is_some r.(ay_retry).(re_last_error) = true → r.(ay_fallback_notified_at) = None →
  let a' := alter_row (fun r => with_notified (Some stamp) r.(ay_notified_at) r) id a in
  acknowledge_message id NFallback at_ stamp a = Ret (true, a') ∧
  acknowledge_message id NFallback at_ stamp' a' = Ret (false, a').
Proof.
  intros Hav Hr Est He Hf a'.
  assert (a'.(an_rows) !! id = Some (with_notified (Some stamp) r.(ay_notified_at) r)) as Hr'.
  { unfold a'. by rewrite alter_row_lookup, decide_True, Hr. }
  unfold acknowledge_message. replace (an_sources a') with (an_sources a) by done.
  rewrite Hav, Hr, Hr'. simpl. rewrite Hf, Est, He. simpl. done.
Qed.

Lemma message_acknowledged m r now a :
  NoDup (ms_message_id <$> a.(an_sources).(st_messages)) → (m, r) ∈ live_rows a → row_ok r →
  m.(ms_message_id) ≠ [] → message_intent_due r = true →
  ∃ a', acknowledge (message_intent (m, r)) now a = Ret (true, a') ∧
    (∀ now', acknowledge (message_intent (m, r)) now' a' = Ret (false, a')) ∧
    acknowledged (message_intent (m, r)) a a'.
Proof.
  intros Hn Hm Hok Hne Hd. destruct (live_available _ _ _ Hn Hm) as [Hav Hr].
  assert ((r.(ay_status) = AAnalyzed ∧ r.(ay_notified_at) = None) ∨
    (r.(ay_status) = APending ∧ is_some r.(ay_retry).(re_last_error) = true ∧ r.(ay_fallback_notified_at) = None))
    as [[Est _]|(Est & He & Hf)].
  { unfold message_intent_due in Hd. apply orb_true_iff in Hd as [Hd|Hd]; bools; [left|right]; split_and!; try done;
      [by destruct (ay_notified_at r)|by destruct (ay_fallback_notified_at r)]. }
  - pose proof (ro_result _ Hok Est) as Hc. destruct (ay_completion r) as [c|] eqn:Ec; [|done].
    assert (truthy c.(cm_analysis_at) = true) as Hts by (apply bool_decide_eq_true_2; by eapply ro_stamp).
    exists (alter_row (delivered_row (isoformat (utc now))) m.(ms_message_id) a). split_and!.
    + rewrite acknowledge_message_intent by done. simpl. rewrite Est, Ec. simpl. rewrite Hts. simpl.
      by destruct (acknowledge_analysis _ (isoformat (utc now)) (isoformat (utc now)) _ _ _ Hav Hr Est Ec).
    + intros now'. rewrite acknowledge_message_intent by done. simpl. rewrite Est, Ec. simpl. rewrite Hts. simpl.
      by destruct (acknowledge_analysis _ (isoformat (utc now)) (isoformat (utc now')) _ _ _ Hav Hr Est Ec).
    + by apply alter_acknowledged.
  - exists (alter_row (fun r => with_notified (Some (isoformat (utc now))) r.(ay_notified_at) r) m.(ms_message_id) a).
    split_and!.
    + rewrite acknowledge_message_intent by done. simpl. rewrite Est. simpl.
      by eapply (acknowledge_fallback _ (isoformat (utc now)) (isoformat (utc now)) _ _ _ Hav Hr Est He Hf).
    + intros now'. rewrite acknowledge_message_intent by done. simpl. rewrite Est. simpl.
      by eapply (acknowledge_fallback _ (isoformat (utc now)) (isoformat (utc now')) _ _ _ Hav Hr Est He Hf).
    + apply alter_acknowledged; [done|]. unfold message_intent_due. simpl. rewrite Est. simpl.
      by rewrite andb_false_r.
Qed.

(** ** Runs *)

Definition notified_run (stamp : text) (r : AutomationRun) : AutomationRun :=
  set_run r r.(run_st) r.(run_version) r.(run_failure_code) r.(run_context)
    r.(run_current_payload_id) r.(run_current_payload_sha256) (Some stamp) r.(run_updated_at).

Lemma run_version_positive r : run_row_ok r = true → 0 < r.(run_version).
Proof.
  unfold run_row_ok. intros Hok. do 6 apply andb_prop in Hok as [Hok _]. apply andb_prop in Hok as [_ Hok].
  apply Z.leb_le in Hok. by apply Z.lt_le_trans with 1.
Qed.

Lemma run_reviewed r : review_state r = true ↔
  r.(run_st) = RAmbiguous ∨ r.(run_st) = RManualReview ∨ r.(run_st) = RSourceUnavailable.
Proof. unfold review_state. rewrite !orb_true_iff, !bool_decide_eq_true. tauto. Qed.

Lemma review_acknowledged (d : Db) r stamp stamp' :
  let id := r.(run_key).(rk_run_id) in
  let d' := set_runs d (<[id := notified_run stamp r]> d.(db_runs)) in
  d.(db_runs) !! id = Some r → run_row_ok r = true → review_state r = true → r.(run_review_notified_at) = None →
  automation_source_available d id CONTENT = true →
  acknowledge_automation_review d id r.(run_version) stamp = Ret (true, d') ∧
  acknowledge_automation_review d' id r.(run_version) stamp' = Ret (false, d').
Proof.
  intros id d' Hr Hok Hs Hn Hav. unfold acknowledge_automation_review.
  assert (automation_source_available d' id CONTENT = true) as Hav'.
  { revert Hav. unfold automation_source_available. unfold d' at 1. simpl. rewrite Hr, lookup_insert_eq. done. }
  rewrite Hav, Hav', Hr. unfold d' at 2. simpl. rewrite lookup_insert_eq. simpl. rewrite Z.eqb_refl.
  rewrite !bool_decide_eq_true_2 by (by apply run_reviewed in Hs). simpl. rewrite Hn. simpl.
  unfold update_run. rewrite Hr. cbv beta. rewrite Z.eqb_refl, Hn. cbn [andb is_none]. split; [|done].
  change (run_row_ok (notified_run stamp r) = true) in Hok. unfold notified_run in Hok. by rewrite Hok.
Qed.

Lemma due_runs_elem a r : keyed a.(an_runs) → r ∈ due_runs a ↔
  a.(an_runs).(db_runs) !! r.(run_key).(rk_run_id) = Some r ∧ run_intent_due a r = true.
Proof. intros Hk. unfold due_runs. by rewrite elem_of_filter_b, all_runs_elem. Qed.

Lemma run_acknowledged a r stamp :
  keyed a.(an_runs) → r ∈ due_runs a →
  acknowledged (run_intent r) a
    (set_automation (set_runs a.(an_runs) (<[r.(run_key).(rk_run_id) := notified_run stamp r]> a.(an_runs).(db_runs))) a).
Proof.
  intros Hk Hr. set (a' := set_automation _ a).
  assert (keyed a'.(an_runs)) as Hk'.
  { intros id x. simpl. rewrite lookup_insert_Some. intros [[<- <-]|[_ Hx]]; [done|by apply Hk]. }
  assert (∀ x, run_intent_due a' x = run_intent_due a x) as Hdue by done.
  apply due_runs_elem in Hr as [Hr Hd]; [|done]. split.
  - intros j [_ [(m & x & _ & _ & ->)|(x & Hx & ->)]]%notification_intents_elem [Ht Hs]; [done|]. simpl in Hs.
    apply due_runs_elem in Hx as [Hx Hdx]; [|done]. simpl in Hx. rewrite Hs, lookup_insert_eq in Hx. simplify_eq.
    unfold run_intent_due in Hdx. simpl in Hdx. by rewrite andb_false_r in Hdx.
  - intros j Hj. rewrite !notification_intents_elem. apply and_iff_compat_l, or_iff_compat_l.
    assert (∀ x, j = run_intent x → (x ∈ due_runs a' ↔ x ∈ due_runs a)) as Hsame.
    { intros x ->. rewrite !due_runs_elem by done. rewrite Hdue. simpl.
      rewrite lookup_insert_ne; [done|]. intros E. by destruct Hj. }
    split; intros (x & Hx & ->); exists x; split; (done || by apply Hsame).
Qed.

Lemma acknowledge_run_intent r now a : plain_digits → r.(run_key).(rk_run_id) ≠ [] → 0 < r.(run_version) < 2 ^ 63 →
  acknowledge (run_intent r) now a =
  '(b, d) ← acknowledge_automation_review a.(an_runs) r.(run_key).(rk_run_id) r.(run_version) (isoformat (utc now));
  Ret (b, set_automation d a).
Proof.
  intros Hp Hne Hv. unfold acknowledge, acknowledge_notification. simpl.
  assert (truthy r.(run_key).(rk_run_id) = true) as -> by by apply bool_decide_eq_true_2. simpl.
  rewrite bool_decide_eq_true_2 by done. simpl.
  assert (truthy (int_text r.(run_version)) = true) as ->.
  { apply bool_decide_eq_true_2. destruct (run_version r) as [|p|p]; simpl; try done.
    apply (decimal_spec (Npos p)). }
  simpl. by rewrite python_int_text.
Qed.

(** C23: A listed notification can be delivered once: acknowledging an intent of the list, of
    an analysis, of a fallback or of a run under review, by the identity it is listed with
    returns acknowledged; a second time it returns already acknowledged and changes
    nothing; the subject is listed no more, and the intents of all others are as before. *)
Theorem listed_notification_acknowledged kind a i now :
  system_reachable a → plain_digits →
  NoDup (ms_message_id <$> a.(an_sources).(st_messages)) →
  (∀ id r, a.(an_runs).(db_runs) !! id = Some r → r.(run_version) < 2 ^ 63) →
  i.(ni_subject_id) ≠ [] → i ∈ notification_intents (-1) kind a →
  ∃ a', acknowledge i now a = Ret (true, a') ∧ (∀ now', acknowledge i now' a' = Ret (false, a')) ∧
    acknowledged i a a'.
Proof.
  intros Hreach Hp Hn Hv Hne [_ [(m & r & Hm & Hd & ->)|(r & Hr & ->)]]%notification_intents_elem.
  - apply message_acknowledged; try done. apply live_rows_spec in Hm as (_ & _ & Hr).
    by eapply si_rows; [apply reachable_system_inv|].
  - pose proof (reachable_system_inv _ Hreach) as Hi. assert (LogInv a.(an_runs)) as HL by apply Hi.
    pose proof (inv_keyed _ HL) as Hk. pose proof Hr as [Hrow Hdue]%due_runs_elem; [|done].
    pose proof (inv_rows _ HL _ _ Hrow) as Hok.
    unfold run_intent_due in Hdue. rewrite !andb_true_iff in Hdue. destruct Hdue as [[[Hrev Hnot] _] Hsrc].
    assert (0 < r.(run_version) < 2 ^ 63).
    { split; [by apply run_version_positive|by eapply Hv]. }
    assert (automation_source_available a.(an_runs) r.(run_key).(rk_run_id) CONTENT = true) as Hav.
    { unfold automation_source_available. rewrite Hrow, (si_run_sources _ Hi). by destruct (st_has_removal_schema _). }
    assert (r.(run_review_notified_at) = None) as Hnone by by destruct (run_review_notified_at r).
    eexists. split_and!; [..|by apply (run_acknowledged a r (isoformat (utc now)))].
    + rewrite acknowledge_run_intent by done.
      by rewrite (proj1 (review_acknowledged a.(an_runs) r (isoformat (utc now)) [] Hrow Hok Hrev Hnone Hav)).
    + intros now'. rewrite acknowledge_run_intent by done. simpl an_runs.
      by rewrite (proj2 (review_acknowledged a.(an_runs) r (isoformat (utc now)) (isoformat (utc now')) Hrow Hok Hrev Hnone Hav)).
Qed.

End Notifications.
