(* ===== verification/AnalysisWitness.v ===== *)
(** * A message, evaluated

    One message of a mailbox with a rule: its request is reserved, a first attempt fails,
    the second completes; the rule fires for one attachment, a scheduling run is admitted,
    and the notification is acknowledged.  The states witness the hypotheses of the
    theorems on the analysis. *)

From S2P Require Export AnalysisTheorems AnalysisExact.
From S2P Require Import ConnectWitness.
From stdpp Require Import options.

Local Open Scope Z_scope.

Module AnalysisDemo.

Import RuleDemo.
Local Existing Instance ascii_unicode.
Local Existing Instance plain_addresses.
Local Existing Instance RuleStoreDemo.no_capabilities.

Definition utc_zone : Zones := {|
  zone_info := fun t => if decide (t = str "UTC") then Some (fun _ => 0) else None;
  system_instant := Some |}.
Local Existing Instance utc_zone.

Definition msg : text := str "m1".
Definition mailbox : text := RuleStoreDemo.mailbox.
Definition noon : Z := ConnectDemo.noon.
Definition uuids : nat → text := ConnectDemo.uuids.

Definition source : MessageRow := {|
  ms_message_id := msg; ms_provider := str "gmail"; ms_account_id := str "me";
  ms_mailbox_identity_key := Some mailbox; ms_provider_message_id := str "p1"; ms_logical_of := None;
  ms_thread_key := Some (str "t1"); ms_received_at := Some (isoformat (utc noon));
  ms_discovered_at := Some (isoformat (utc noon)) |}.

Definition tables : SourceTables := {|
  st_messages := [source]; st_thread_follow := []; st_mail_accounts := [];
  st_has_removal_schema := true; st_intents := []; st_targets := [] |}.

Definition parts : gmap (text * text) AttachmentDescriptor :=
  {[ (msg, str "1") := pdf "1" 0;
     (msg, str "2") := mk_attachment (str "2") None (str "logo.png") (str "image/png") 10 1 true None ]}.

Definition rows : gmap text AnalysisRow :=
  {[ msg := captured_row (str "billing@acme.example") None (str "Your Invoice 17") ]}.

Definition after {A} (r : py (A * analysis_store)) (a : analysis_store) : analysis_store :=
  match r with Ret (_, a') => a' | Raise _ => a end.
Definition done_ (r : py analysis_store) (a : analysis_store) : analysis_store :=
  match r with Ret a' => a' | Raise _ => a end.

Lemma after_ret {A} (r : py (A * analysis_store)) a : is_ret r = true → ∃ x, r = Ret (x, after r a).
Proof. destruct r as [[x a']|e]; [eauto|done]. Qed.
Lemma done_ret (r : py analysis_store) a : is_ret r = true → r = Ret (done_ r a).
Proof. by destruct r. Qed.

Definition a0 : analysis_store := empty_system tables parts RuleStoreDemo.accounts rows.
Definition a1 : analysis_store := set_rules RuleStoreDemo.s1 a0.
Abbreviation reserved := (reserve_analysis_request msg 4000 (utc noon) (uuids 90) a1).
Definition a2 : analysis_store := after reserved a1.
Abbreviation failed := (record_analysis_failure msg (str "model busy") 0 true (Some (str "busy")) None noon a2).
Definition a3 : analysis_store := done_ failed a2.

Definition result : AnalysisResult :=
  mk_result (str "invoice") (str "normal") (str "An invoice.") true None None None (Float64.of_decimal false 9 (-1)).
Abbreviation analyzed := (mark_analyzed msg result mailbox (Some 12) (Some 12) None (noon + 10 * MINUTE) uuids a3).
Definition a4 : analysis_store := done_ analyzed a3.

Lemma reserved_ret : ∃ q, reserved = Ret (q, a2).
Proof. apply after_ret. vm_compute. reflexivity. Qed.
Lemma failed_ret : failed = Ret a3.
Proof. apply done_ret. vm_compute. reflexivity. Qed.
Lemma analyzed_ret : analyzed = Ret a4.
Proof. apply done_ret. vm_compute. reflexivity. Qed.

Lemma a0_reachable : system_reachable a0.
Proof.
  exists tables, parts, RuleStoreDemo.accounts, rows. split; [|done].
  intros id r. unfold rows. intros [<- <-]%lookup_singleton_Some. apply write_capture.
Qed.

Lemma system_reachable_step a a' : system_reachable a → system_step a a' → system_reachable a'.
Proof. intros (st & atts & accounts & rs & Hr & Hs) Hstep. exists st, atts, accounts, rs. split; [done|]. by eapply rtc_r. Qed.

Lemma a1_reachable : system_reachable a1.
Proof.
  eapply system_reachable_step; [apply a0_reachable|]. apply sys_rules. simpl.
  destruct RuleStoreDemo.created_ret as [detail Hc]. eapply step_put; [apply RuleStoreDemo.keys_eq|exact Hc].
Qed.
Lemma a2_reachable : system_reachable a2.
Proof. destruct reserved_ret as [q Hq]. eapply system_reachable_step; [apply a1_reachable|]. by eapply sys_reserve. Qed.
Lemma a3_reachable : system_reachable a3.
Proof. eapply system_reachable_step; [apply a2_reachable|]. eapply sys_analysis_failure, failed_ret. Qed.
Lemma a4_reachable : system_reachable a4.
Proof. eapply system_reachable_step; [apply a3_reachable|]. eapply sys_analyzed, analyzed_ret. Qed.

(** One fire, of the document. *)
Lemma one_fire : (λ e : text * AutomationFire, e.2.(fi_source).(fs_part_id)) <$> map_to_list a4.(an_queue).(cs_fires) = [str "1"].
Proof. vm_compute. reflexivity. Qed.

(** ** Witnesses *)

Lemma analysis_system_sound_witness : system_inv a4.
Proof. apply (analysis_system_sound a4), a4_reachable. Defined.

Lemma reservation_stable_witness :
  ∃ q, reserved = Ret (q, a2) ∧ reserve_analysis_request msg 9 (utc (noon + 1)) (uuids 91) a3 = Ret (q, a3).
Proof.
  destruct reserved_ret as [q Hq]. exists q. split; [exact Hq|].
  eapply (reservation_stable msg 4000 (utc noon) (uuids 90) a1 q a2 a3); [exact Hq|..].
  - eexists. split; [vm_compute; reflexivity|]. by split; vm_compute.
  - apply rtc_once. split; [eapply sys_analysis_failure, failed_ret|].
    eexists. split; [vm_compute; reflexivity|]. by split; vm_compute.
  - done.
  - vm_compute. reflexivity.
Defined.

Lemma analysis_final_witness :
  ∃ r c, (mark_delivery_complete msg true noon a4).(an_rows) !! msg = Some r ∧ completed c r ∧ c.(cm_result) = result.
Proof.
  destruct (analysis_final msg result mailbox (Some 12) (Some 12) None (noon + 10 * MINUTE) uuids a3 a4
    (mark_delivery_complete msg true noon a4) analyzed_ret) as (r & c & Hr & Hc & Hres & _).
  - apply rtc_once. split; [apply sys_delivered|]. eexists. split; [vm_compute; reflexivity|]. by vm_compute.
  - exists r, c. exact (conj Hr (conj Hc Hres)).
Defined.

Definition pending_row_of (a : analysis_store) : AnalysisRow :=
  default (captured_row [] None []) (a.(an_rows) !! msg).

Lemma a2_live : (source, pending_row_of a2) ∈ live_rows a2.
Proof. vm_compute. left. Qed.

(** Five minutes after the failure. *)
Lemma retry_window_witness : listed msg (noon + 5 * MINUTE) a3 ∧ ¬ listed msg (noon + 5 * MINUTE - 1) a3.
Proof.
  pose proof (λ (t : Z) (Ht : wall_ok t = true), proj1 (retry_window msg (str "model busy") 0 true (Some (str "busy")) None noon a2 a3 source
    (pending_row_of a2) t (Z.le_refl 0) Ht a2_live eq_refl failed_ret)) as Hw.
  split.
  - apply Hw; [vm_compute; reflexivity|]. split; [reflexivity|]. vm_compute. discriminate.
  - intros Hl. apply Hw in Hl; [|vm_compute; reflexivity]. destruct Hl as [_ Hl]. vm_compute in Hl. by apply Hl.
Defined.

Lemma fresh_start : fresh_ids uuids 0 (2 * MAX_AUTOMATION_FIRES_PER_MESSAGE) a3.(an_queue).
Proof.
  assert (a3.(an_queue) = empty_connect tables (dom parts)) as -> by (vm_compute; reflexivity).
  split; try (intros; apply lookup_empty).
  - intros i j _ _. unfold uuids, ConnectDemo.uuids. intros E. apply app_inv_head in E. injection E as E1 E2.
    pose proof (N.div_mod (N.of_nat i) 10). pose proof (N.div_mod (N.of_nat j) 10). lia.
  - intros i _. unfold uuids, ConnectDemo.uuids. rewrite sql_length_plain; [done|].
    apply Forall_app. split; [by vm_compute; repeat constructor|]. repeat constructor; lia.
  - intros i k x _ Hx. simpl in Hx. by rewrite lookup_empty in Hx.
Qed.


Lemma digits_plain : plain_digits.
Proof.
  intros c Hc. simpl. rewrite Hc. split; [done|]. unfold is_digit in Hc. lia.
Qed.

Definition intent : NotificationIntent := message_intent (source, pending_row_of a4).

(** The analysis is announced. *)
Lemma listed_notification_acknowledged_witness :
  ∃ a', acknowledge intent noon a4 = Ret (true, a') ∧ acknowledge intent (noon + 1) a' = Ret (false, a').
Proof.
  destruct (listed_notification_acknowledged None a4 intent noon) as (a' & H1 & H2 & _).
  - apply a4_reachable.
  - apply digits_plain.
  - assert (a4.(an_sources) = tables) as -> by (vm_compute; reflexivity). apply NoDup_singleton.
  - intros id r. assert (a4.(an_runs).(db_runs) = ∅) as -> by (vm_compute; reflexivity). by rewrite lookup_empty.
  - discriminate.
  - vm_compute. left.
  - exists a'. exact (conj H1 (H2 (noon + 1))).
Defined.

End AnalysisDemo.
