(* ===== verification/RemovalKey.v ===== *)
(** * The keys of removal requests

    Models, of [src/src/eom_email_watcher/removal.py], the fingerprint of a request, the
    signed key that is issued for it, and its validation.  [hmac] is the construction of
    RFC 2104 on the SHA-256 of [Sha256]; [datetime.timestamp()] is the correctly rounded
    float of the microseconds since 1970. *)

From S2P Require Export CertificateRecord ConnectQueue AutomationOps.
From S2P Require Import RuleTheorems JsonFacts.
From stdpp Require Import options.

Local Open Scope Z_scope.

Definition removal_kind_text (k : removal_kind) : text :=
  match k with KDelete => str "delete" | KClear => str "clear" | KUnfollow => str "unfollow" end.

Definition removal_kind_of (t : text) : option removal_kind :=
  if bool_decide (t = str "delete") then Some KDelete
  else if bool_decide (t = str "clear") then Some KClear
  else if bool_decide (t = str "unfollow") then Some KUnfollow else None.

(** [allow_nan=False] *)
Fixpoint json_finite (j : json) : bool :=
  match j with
  | JFloat f => is_some (finite_number (inr f))
  | JArr items => forallb json_finite items
  | JObj members => forallb (fun m => json_finite m.2) members
  | _ => true
  end.

(** [request_hash]: the kind that is named, and the fingerprint of the request. *)
Definition request_hash (kind : text) (parameters : json) : py (removal_kind * text) :=
  let invalid := RemovalRequestInvalid "Invalid local removal parameters" in
  match removal_kind_of kind, parameters with
  | Some k, JObj _ =>
      let payload := JObj [(str "kind", JStr kind); (str "parameters", parameters)] in
      _ ← require (json_finite payload) invalid;
      encoded ← require_some (Utf8.encode (dumps true payload)) invalid;
      Ret (k, Sha256.hexdigest encoded)
  | _, _ => Raise (RemovalRequestInvalid "Invalid local removal request")
  end.

(** ** Signatures *)

Definition unhex (c : N) : N := if (c <? 58)%N then (c - 48)%N else (c - 87)%N.

(** [bytes.fromhex] of lower-case digits *)
Fixpoint fromhex (t : text) : bytes :=
  match t with
  | a :: b :: t' => (unhex a * 16 + unhex b)%N :: fromhex t'
  | _ => []
  end.

Definition HMAC_BLOCK : nat := 64.

(** [hmac.new(key, message, hashlib.sha256)] for a key no longer than a block *)
Definition hmac_sha256 (key message : bytes) : text :=
  let padded := (key ++ repeat 0%N (HMAC_BLOCK - length key))%list in
  let pad (b : N) := N.lxor b <$> padded in
  Sha256.hexdigest (pad 92%N ++ Sha256.digest (pad 54%N ++ message))%list.

(** [_signature], with the stored signing key *)
Definition _signature (signing_key : option text) (unsigned : text) (kind : removal_kind) (parameters_sha256 : text)
    : py text :=
  let unavailable := RemovalRequestInvalid "Local removal key authority is unavailable" in
  secret ← require_some signing_key unavailable;
  _ ← require (identity_key_ok secret) unavailable;
  message ← require_some (Utf8.encode (unsigned ++ str ":" ++ removal_kind_text kind ++ str ":" ++ parameters_sha256))
              UnicodeEncodeError;
  Ret (hmac_sha256 (fromhex secret) message).

(** ** Times *)

(** [datetime.timestamp()] *)
Definition timestamp (now : Z) : float64 :=
  Float64.of_decimal (now <? EPOCH) (Z.abs_N (now - EPOCH)) (-6).

(** [int(value)] of a finite float *)
Definition truncated (f : float64) : Z :=
  match finite_number (inr f) with
  | Some (m, e) => if 0 <=? e then m * 2 ^ e else Z.quot m (2 ^ (- e))
  | None => 0
  end.

(** ** Keys *)

Fixpoint split_dots (t : text) : list text :=
  match t with
  | [] => [[]]
  | c :: t' =>
      match split_dots t' with
      | part :: parts => if bool_decide (c = 46%N) then [] :: part :: parts else (c :: part) :: parts
      | [] => []
      end
  end.

Definition hex_text (n : nat) (t : text) : bool :=
  bool_decide (length t = n) && forallb (fun c => ((48 <=? c) && (c <=? 57) || (97 <=? c) && (c <=? 102))%N) t.

(** [[1-9][0-9]{0,11}] *)
Definition expiry_digits (t : text) : bool :=
  match t with
  | c :: t' => ((49 <=? c) && (c <=? 57))%N && bool_decide (length t' <= 11)%nat && forallb is_digit t'
  | [] => false
  end.

(** The groups of [KEY.fullmatch] *)
Definition key_groups (key : text) : option (text * text * text) :=
  match split_dots key with
  | [prefix; expiry; nonce; signature] =>
      if bool_decide (prefix = str "rm1") && expiry_digits expiry && hex_text 32 nonce && hex_text 64 signature
      then Some (expiry, nonce, signature) else None
  | _ => None
  end.

Definition unsigned_key (expiry nonce : text) : text := (str "rm1." ++ expiry ++ str "." ++ nonce)%list.

(** [_parse_key]: the expiry of a key that was signed for the request *)
Definition _parse_key (signing_key : option text) (key : text) (kind : removal_kind) (fingerprint : text) : py Z :=
  '(expiry, nonce, signature) ← require_some (key_groups key)
                                  (RemovalRequestInvalid "Malformed local removal request key");
  expected ← _signature signing_key (unsigned_key expiry nonce) kind fingerprint;
  _ ← require (bool_decide (signature = expected))
        (RemovalRequestInvalid "Local removal request key does not match its parameters");
  require_some (number_from 0 expiry) (ValueError "invalid literal for int()").

(** [validate_key] *)
Definition validate_key (signing_key : option text) (key : text) (kind : removal_kind) (fingerprint : text) (now : Z)
    : py unit :=
  expiry ← _parse_key signing_key key kind fingerprint;
  require (negb (number_leb (inl expiry) (inr (timestamp now))))
    (RemovalRequestInvalid "Local removal request key has expired; start a new request").

(** [_issue_key]; [nonce] is [secrets.token_hex(16)] *)
Definition _issue_key (signing_key : option text) (kind : text) (parameters : json) (retention_days now : Z)
    (nonce : text) : py text :=
  let invalid := RemovalRequestInvalid "Invalid removal retention interval" in
  _ ← require (1 <=? retention_days) invalid;
  expires_at ← match plus_us now (retention_days * DAY) with Ret w => Ret w | Raise _ => Raise invalid end;
  let unsigned := unsigned_key (int_text (truncated (timestamp expires_at))) nonce in
  '(k, fingerprint) ← request_hash kind parameters;
  signature ← _signature signing_key unsigned k fingerprint;
  Ret (unsigned ++ str "." ++ signature)%list.

(** * Facts about the keys of removal requests *)

(** ** Parts *)

Definition dotless (t : text) : Prop := Forall (fun c => c ≠ 46%N) t.

Lemma split_dots_plain t : dotless t → split_dots t = [t].
Proof.
  induction 1 as [|c t Hc _ IH]; simpl; [done|]. rewrite IH. by rewrite bool_decide_eq_false_2.
Qed.

Lemma split_dots_nonempty t : split_dots t ≠ [].
Proof. induction t as [|c t IH]; simpl; [done|]. destruct (split_dots t); [done|]. by case_bool_decide. Qed.

Lemma split_dots_cons t t' : dotless t → split_dots (t ++ 46%N :: t') = t :: split_dots t'.
Proof.
  induction 1 as [|c t Hc _ IH]; simpl; [|rewrite IH; by rewrite bool_decide_eq_false_2].
  pose proof (split_dots_nonempty t'). destruct (split_dots t'); [done|]. done.
Qed.

(** ** Digits *)

Lemma digits_dotless t : forallb is_digit t = true → dotless t.
Proof.
  intros Hd. apply Forall_forall. intros c Hc ->. rewrite forallb_forall in Hd. by apply Hd in Hc.
Qed.

Lemma number_from_digits t : ∀ acc, forallb is_digit t = true →
  number_from (Z.of_N acc) t = Some (Z.of_N (fold_left (fun n c => 10 * n + (c - 48)) t acc)%N).
Proof.
  induction t as [|c t IH]; intros acc Hd; simpl in *; [done|]. bools. rewrite H.
  replace (10 * Z.of_N acc + (Z.of_N c - 48)) with (Z.of_N (10 * acc + (c - 48))%N); [by apply IH|].
  unfold is_digit in H. rewrite andb_true_iff, !N.leb_le in H. lia.
Qed.

Lemma digits_bound t : ∀ acc, (acc * 10 ^ N.of_nat (length t) <= fold_left (fun n c => 10 * n + (c - 48)) t acc)%N.
Proof.
  induction t as [|c t IH]; intros acc; [simpl; lia|]. cbn [fold_left length]. etrans; [|apply IH].
  rewrite Nat2N.inj_succ, N.pow_succ_r'. nia.
Qed.

(** The decimal of a number of at most twelve digits is an expiry. *)
Lemma expiry_text z : 1 <= z < 10 ^ 12 → expiry_digits (int_text z) = true ∧ number_from 0 (int_text z) = Some z ∧ dotless (int_text z).
Proof.
  intros Hz. destruct z as [|p|p]; try lia. simpl int_text. destruct (decimal_spec (Npos p)) as (Hd & Hn & Hne & Hh).
  unfold JsonParse.number_of in Hn. split_and!.
  - destruct (decimal (Npos p)) as [|c ds]; [done|]. specialize (Hh eq_refl). simpl in Hd, Hh. bools. unfold expiry_digits.
    unfold is_digit in H. rewrite andb_true_iff, !N.leb_le in H.
    assert (c ≠ 48%N) as Hc by congruence. pose proof (digits_bound ds (10 * 0 + (c - 48))%N) as Hb.
    change (fold_left _ (c :: ds) 0%N) with (fold_left (fun n c => 10 * n + (c - 48))%N ds (10 * 0 + (c - 48))%N) in Hn.
    rewrite Hn in Hb. rewrite !andb_true_iff, !N.leb_le, bool_decide_eq_true. split_and!; [lia|lia| |done].
    destruct (decide (length ds <= 11)%nat) as [|Hlen]; [done|].
    assert (10 ^ 12 <= 10 ^ N.of_nat (length ds))%N as Hp by (apply N.pow_le_mono_r; lia).
    change (10 ^ 12)%N with 1000000000000%N in Hp. change (10 ^ 12) with 1000000000000 in Hz. nia.
  - rewrite (number_from_digits _ 0%N) by done. by rewrite Hn.
  - by apply digits_dotless.
Qed.

(** ** Digests *)

Lemma lower_hex_digit d : (d < 16)%N →
  let c := Sha256.hex_digit d in ((48 <=? c) && (c <=? 57) || (97 <=? c) && (c <=? 102))%N = true.
Proof.
  intros Hd. unfold Sha256.hex_digit. simpl. destruct (d <? 10)%N eqn:E.
  - apply N.ltb_lt in E. apply orb_true_iff. left. rewrite andb_true_iff, !N.leb_le. lia.
  - apply N.ltb_ge in E. apply orb_true_iff. right. rewrite andb_true_iff, !N.leb_le. lia.
Qed.

Lemma be_bytes_small k x b : b ∈ Sha256.be_bytes k x → (b < 256)%N.
Proof.
  induction k as [|k IH]; simpl; [by intros ?%not_elem_of_nil|]. intros [->|?]%elem_of_cons; [|auto].
  change 255%N with (N.ones 8). rewrite N.land_ones. by apply N.mod_lt.
Qed.

Lemma hexdigest_hex data : hex_text 64 (Sha256.hexdigest data) = true.
Proof.
  unfold hex_text. rewrite bool_decide_eq_true_2 by apply hexdigest_length. simpl. unfold Sha256.hexdigest.
  assert (∀ b, b ∈ Sha256.digest data → (b < 256)%N) as Hb.
  { unfold Sha256.digest. intros b Hin. apply list_elem_of_In, in_flat_map in Hin as (w & _ & Hw%list_elem_of_In). by eapply be_bytes_small. }
  revert Hb. induction (Sha256.digest data) as [|b l IH]; intros Hb; simpl; [done|].
  rewrite !lower_hex_digit; [apply IH; intros; apply Hb; by right| |].
  - change 15%N with (N.ones 4). rewrite N.land_ones. by apply N.mod_lt.
  - rewrite N.shiftr_div_pow2. apply N.Div0.div_lt_upper_bound. assert (b < 256)%N by (apply Hb; by left). simpl. lia.
Qed.

Lemma hex_dotless n t : hex_text n t = true → dotless t.
Proof.
  unfold hex_text. rewrite andb_true_iff. intros [_ Hd]. apply Forall_forall. intros c Hc ->. rewrite forallb_forall in Hd.
  by apply Hd in Hc.
Qed.

(** ** Keys *)

Lemma key_groups_issued z nonce data : 1 <= z < 10 ^ 12 → hex_text 32 nonce = true →
  key_groups (unsigned_key (int_text z) nonce ++ str "." ++ Sha256.hexdigest data) =
    Some (int_text z, nonce, Sha256.hexdigest data).
Proof.
  intros Hz Hn. destruct (expiry_text z Hz) as (He & _ & Hd). unfold key_groups, unsigned_key.
  rewrite <- !app_assoc.
  change (str "rm1." ++ int_text z ++ str "." ++ nonce ++ str "." ++ Sha256.hexdigest data)%list
    with (str "rm1" ++ 46%N :: (int_text z ++ 46%N :: (nonce ++ 46%N :: Sha256.hexdigest data)))%list.
  rewrite !split_dots_cons, split_dots_plain; [|by eapply hex_dotless, hexdigest_hex|by eapply hex_dotless|done|].
  - by rewrite He, Hn, hexdigest_hex.
  - repeat (constructor; [done|]). constructor.
Qed.

Lemma signature_digest signing_key unsigned kind fingerprint t : _signature signing_key unsigned kind fingerprint = Ret t →
  ∃ data, t = Sha256.hexdigest data.
Proof. unfold _signature, hmac_sha256. intros. peel. subst. eauto. Qed.

Lemma ret_inj {A} (a b : A) : Ret a = Ret b → a = b.
Proof. congruence. Qed.

(** C39: A key that was issued for a request parses, for that request, to the expiry it was
    issued with, and it validates exactly as long as the clock has not reached that expiry.
    The nonce is 32 hexadecimal digits and the expiry lies between 1970 and the year 33658. *)
Theorem issued_key_valid signing_key kind parameters retention_days now nonce key :
  _issue_key signing_key kind parameters retention_days now nonce = Ret key → hex_text 32 nonce = true →
  let expiry := truncated (timestamp (now + retention_days * DAY)) in 1 <= expiry < 10 ^ 12 →
  ∃ k fingerprint, request_hash kind parameters = Ret (k, fingerprint) ∧
    _parse_key signing_key key k fingerprint = Ret expiry ∧
    ∀ later, validate_key signing_key key k fingerprint later =
      if number_leb (inl expiry) (inr (timestamp later))
      then Raise (RemovalRequestInvalid "Local removal request key has expired; start a new request") else Ret tt.
Proof.
  intros Hi Hn expiry He. unfold _issue_key in Hi. apply bind_ret_inv in Hi as ([] & _ & Hi).
  apply bind_ret_inv in Hi as (w & Hw & Hi). unfold plus_us in Hw. destruct (wall_ok _); [|done]. simplify_eq. fold expiry in Hi.
  lazy zeta in Hi. apply bind_ret_inv in Hi as ([k fp] & Hh & Hi). lazy beta iota in Hi.
  apply bind_ret_inv in Hi as (signature & Hs & Hi). apply ret_inj in Hi. subst key. exists k, fp. split; [done|].
  assert (_parse_key signing_key (unsigned_key (int_text expiry) nonce ++ str "." ++ signature) k fp = Ret expiry) as Hp.
  { destruct (signature_digest _ _ _ _ _ Hs) as [data ->]. unfold _parse_key. rewrite key_groups_issued by done.
    cbn [require_some mbind py_bind]. rewrite Hs. cbn [mbind py_bind]. rewrite bool_decide_eq_true_2 by done.
    destruct (expiry_text expiry He) as (_ & -> & _). done. }
  split; [done|]. intros later. unfold validate_key. rewrite Hp. cbn [mbind py_bind]. by destruct (number_leb _ _).
Qed.
