(* ===== verification/RemovalOps.v ===== *)
(** * Removal requests

    Models, of [src/src/eom_email_watcher/removal.py], the durable requests to delete a
    message, to clear the inbox or to drop the content of unfollowed threads: acceptance,
    which freezes the logical messages and withdraws them at once, completion, which
    removes them physically under the source locks, receipts, and retirement.

    The native lock and capability objects that guard acceptance are not modelled; the
    outcome of every acquisition of source locks is a parameter of [resume].  The deletion
    of a message row fires the triggers on locations, observations and bodies, on the rows
    of the same logical message, and those of the Connect queue ([FireSources]). *)

From S2P Require Export RemovalKey FireStore.
From stdpp Require Import options.

Local Open Scope Z_scope.

(** ** Tables *)

(** [message_removal_requests], without its key *)
Record RemovalRequest := mk_removal_request {
  rq_kind : removal_kind;
  rq_parameters_sha256 : text;
  rq_accepted_at : text }.

(** [message_removal_intents], without its key; [ix_pending] is the state *)
Record RemovalIntent := mk_removal_intent {
  ix_request_id : text;
  ix_kind : removal_kind;
  ix_provider : text;
  ix_account_id : text;
  ix_mailbox_identity_key : option text;
  ix_accepted_at : text;
  ix_pending : bool;
  ix_requested : Z;
  ix_completed : Z;
  ix_settled_at : option text }.

(** One source of a frozen message *)
Record FrozenSource := mk_frozen {
  fz_identity : SourceIdentity;
  fz_received_at : text }.

Global Instance source_identity_eq_dec : EqDecision SourceIdentity.
Proof. solve_decision. Defined.
Global Instance frozen_source_eq_dec : EqDecision FrozenSource.
Proof. solve_decision. Defined.

(** [message_removal_targets], without its key (intent and message) *)
Record RemovalTarget := mk_removal_target {
  tg_logical_id : text;
  tg_provider : text;
  tg_account_id : text;
  tg_stored_identity_key : option text;
  tg_provider_message_id : text;
  tg_sources : list FrozenSource;
  tg_pending : bool;
  tg_settled_at : option text }.

Definition intent_row_ok (intent_id : text) (i : RemovalIntent) : bool :=
  bool_decide (sql_length intent_id = 36%nat) && truthy i.(ix_provider) && truthy i.(ix_account_id) &&
  match i.(ix_mailbox_identity_key) with Some k => truthy k | None => true end && truthy i.(ix_accepted_at) &&
  (0 <? i.(ix_requested)) && (0 <=? i.(ix_completed)) && (i.(ix_completed) <=? i.(ix_requested)) &&
  Bool.eqb (negb i.(ix_pending)) (i.(ix_completed) =? i.(ix_requested)) &&
  Bool.eqb (negb i.(ix_pending)) (is_some i.(ix_settled_at)).

Definition target_row_ok (message_id : text) (t : RemovalTarget) : bool :=
  truthy message_id && truthy t.(tg_provider_message_id) && Bool.eqb (negb t.(tg_pending)) (is_some t.(tg_settled_at)).

Record removal_store := mk_removal {
  rm_signing_key : option text;
  rm_requests : gmap text RemovalRequest;
  rm_intents : gmap text RemovalIntent;
  rm_targets : gmap (text * text) RemovalTarget;
  rm_messages : list MessageRow;
  rm_follow : list ThreadFollowRow;
  rm_accounts : list MailAccountRow;
  rm_locations : LocationTables;
  rm_bodies : BodyTables;
  rm_suppressed : gmap (text * text * text) text;
  rm_queue : connect_store;
  rm_runs : Db }.

Implicit Types s : removal_store.

(** ** The eligibility of a message *)

Definition intent_view (e : text * RemovalIntent) : RemovalIntentRow := {|
  ri_intent_id := e.1; ri_kind := e.2.(ix_kind); ri_mailbox_identity_key := e.2.(ix_mailbox_identity_key);
  ri_pending := e.2.(ix_pending) |}.

Definition target_view (e : text * text * RemovalTarget) : RemovalTargetRow := {|
  rt_intent_id := e.1.1; rt_message_id := e.1.2; rt_provider := e.2.(tg_provider);
  rt_account_id := e.2.(tg_account_id); rt_stored_identity_key := e.2.(tg_stored_identity_key);
  rt_provider_message_id := e.2.(tg_provider_message_id); rt_source_identities := fz_identity <$> e.2.(tg_sources);
  rt_pending := e.2.(tg_pending) |}.

(** The tables as [AutomationSources] reads them. *)
Definition tables s : SourceTables := {|
  st_messages := s.(rm_messages); st_thread_follow := s.(rm_follow); st_mail_accounts := s.(rm_accounts);
  st_has_removal_schema := true;
  st_intents := intent_view <$> map_to_list s.(rm_intents);
  st_targets := target_view <$> map_to_list s.(rm_targets) |}.

(** ** Setters *)

Definition set_removal_requests x s : removal_store :=
  mk_removal s.(rm_signing_key) x s.(rm_intents) s.(rm_targets) s.(rm_messages) s.(rm_follow) s.(rm_accounts)
    s.(rm_locations) s.(rm_bodies) s.(rm_suppressed) s.(rm_queue) s.(rm_runs).
Definition set_removal_intents x s : removal_store :=
  mk_removal s.(rm_signing_key) s.(rm_requests) x s.(rm_targets) s.(rm_messages) s.(rm_follow) s.(rm_accounts)
    s.(rm_locations) s.(rm_bodies) s.(rm_suppressed) s.(rm_queue) s.(rm_runs).
Definition set_removal_targets x s : removal_store :=
  mk_removal s.(rm_signing_key) s.(rm_requests) s.(rm_intents) x s.(rm_messages) s.(rm_follow) s.(rm_accounts)
    s.(rm_locations) s.(rm_bodies) s.(rm_suppressed) s.(rm_queue) s.(rm_runs).
Definition set_removal_bodies x s : removal_store :=
  mk_removal s.(rm_signing_key) s.(rm_requests) s.(rm_intents) s.(rm_targets) s.(rm_messages) s.(rm_follow)
    s.(rm_accounts) s.(rm_locations) x s.(rm_suppressed) s.(rm_queue) s.(rm_runs).
Definition set_suppressed x s : removal_store :=
  mk_removal s.(rm_signing_key) s.(rm_requests) s.(rm_intents) s.(rm_targets) s.(rm_messages) s.(rm_follow)
    s.(rm_accounts) s.(rm_locations) s.(rm_bodies) x s.(rm_queue) s.(rm_runs).
Definition set_work q d s : removal_store :=
  mk_removal s.(rm_signing_key) s.(rm_requests) s.(rm_intents) s.(rm_targets) s.(rm_messages) s.(rm_follow)
    s.(rm_accounts) s.(rm_locations) s.(rm_bodies) s.(rm_suppressed) q d.

(** ** Logical messages *)

Definition message_in (message_id : text) (messages : list MessageRow) : option MessageRow :=
  List.find (fun m => bool_decide (m.(ms_message_id) = message_id)) messages.
Definition row_of_message (message_id : text) s : option MessageRow := message_in message_id s.(rm_messages).

Record LogicalUnit := mk_unit {
  lu_rows : list text;
  lu_sources : list FrozenSource }.

(** A dictionary keyed by the source: assignment, and [setdefault]. *)
Fixpoint put_source (x : FrozenSource) (l : list FrozenSource) : list FrozenSource :=
  match l with
  | [] => [x]
  | y :: l' => if bool_decide (y.(fz_identity) = x.(fz_identity)) then x :: l' else y :: put_source x l'
  end.

Definition default_source (x : FrozenSource) (l : list FrozenSource) : list FrozenSource :=
  if existsb (fun y => bool_decide (y.(fz_identity) = x.(fz_identity))) l then l else (l ++ [x])%list.

Definition shown (o : option text) : text := default (str "None") o.

Definition member_source (m : MessageRow) : FrozenSource :=
  mk_frozen {| si_provider := m.(ms_provider); si_account_id := m.(ms_account_id);
               si_mailbox_identity_key := m.(ms_mailbox_identity_key);
               si_provider_message_id := m.(ms_provider_message_id) |} (shown m.(ms_received_at)).

Definition location_source (m : MessageRow) (e : SourceKey * text * Location) : FrozenSource :=
  mk_frozen {| si_provider := m.(ms_provider); si_account_id := m.(ms_account_id);
               si_mailbox_identity_key := Some e.1.1.1.2; si_provider_message_id := e.1.1.2 |}
    (shown (match e.2.(lo_received_at) with Some t => Some t | None => m.(ms_received_at) end)).

Definition message_leb (x y : MessageRow) : bool := text_leb x.(ms_message_id) y.(ms_message_id).

Definition unit_members (canonical : text) (messages : list MessageRow) : list MessageRow :=
  sort_by message_leb (List.filter (fun m => bool_decide (m.(ms_message_id) = canonical) ||
                                             bool_decide (m.(ms_logical_of) = Some canonical)) messages).

(** The rows and the source identities of the logical message with this canonical id. *)
Definition unit_of_canonical (canonical : text) (messages : list MessageRow) (locations : LocationTables) : LogicalUnit :=
  let members := unit_members canonical messages in
  let sources := foldl (fun l m => put_source (member_source m) l) [] members in
  let located := map_to_list (filter (fun e => e.2.(lo_message_id) = canonical) locations.(lt_locations)) in
  let sources := match message_in canonical messages with
                 | Some c => foldl (fun l e => default_source (location_source c e) l) sources located
                 | None => sources
                 end in
  mk_unit (ms_message_id <$> members) sources.

(** [_logical_unit] *)
Definition logical_unit (message_id : text) s : option LogicalUnit :=
  m ← row_of_message message_id s;
  Some (unit_of_canonical (canonical_id m) s.(rm_messages) s.(rm_locations)).

(** * Operations on removal requests

    Models, of [src/src/eom_email_watcher/removal.py], [outcome], [status], [retire],
    [freeze], [_accept_in_transaction], [accept_unfollow_units] and [resume], with
    [_suppression_expiry] of [db.py] and the batches of [source_locks.cleanup_groups]. *)

(** ** Receipts *)

Record Outcome := mk_outcome {
  oc_request_id : text;
  oc_intent_ids : list text;
  oc_kind : removal_kind;
  oc_requested : Z;
  oc_completed : Z }.

(** [Outcome.pending] *)
Definition oc_pending (o : Outcome) : Z := o.(oc_requested) - o.(oc_completed).

Definition intent_leb (x y : text * RemovalIntent) : bool := text_leb x.1 y.1.

(** The intents of a request, by their id. *)
Definition request_intents (key : text) s : list (text * RemovalIntent) :=
  sort_by intent_leb (List.filter (fun e => bool_decide (e.2.(ix_request_id) = key)) (map_to_list s.(rm_intents))).

Definition total (l : list Z) : Z := foldr Z.add 0 l.

Definition receipt (key : text) (kind : removal_kind) s : Outcome :=
  let children := request_intents key s in
  mk_outcome key children.*1 kind (total ((fun e => e.2.(ix_requested)) <$> children))
    (total ((fun e => e.2.(ix_completed)) <$> children)).

(** [outcome] *)
Definition outcome (key : text) (kind : option removal_kind) (fingerprint : option text) s : py (option Outcome) :=
  match s.(rm_requests) !! key with
  | None => Ret None
  | Some request =>
      _ ← require (match kind with Some k => bool_decide (request.(rq_kind) = k) | None => true end &&
                   match fingerprint with Some f => bool_decide (request.(rq_parameters_sha256) = f) | None => true end)
            (RemovalRequestInvalid "Removal request key was already used with different parameters");
      Ret (Some (receipt key request.(rq_kind) s))
  end.

(** [status] *)
Definition status (key : text) (request : option (text * json)) (now : Z) s : py (option Outcome) :=
  named ← match request with
          | Some (kind, parameters) => r ← request_hash kind parameters; Ret (Some r)
          | None => Ret None
          end;
  result ← outcome key (fst <$> named) (snd <$> named) s;
  match result, named with
  | Some o, _ => Ret (Some o)
  | None, None => Raise (RemovalRequestInvalid "Local removal request has not been accepted")
  | None, Some (kind, fingerprint) => _ ← validate_key s.(rm_signing_key) key kind fingerprint now; Ret None
  end.

(** ** Acceptance *)

(** Dictionaries in insertion order. *)
Section Dict.
Context {K V : Type} `{EqDecision K}.

Fixpoint dict_put (k : K) (v : V) (l : list (K * V)) : list (K * V) :=
  match l with
  | [] => [(k, v)]
  | (k', v') :: l' => if bool_decide (k' = k) then (k, v) :: l' else (k', v') :: dict_put k v l'
  end.

Definition dict_find (k : K) (l : list (K * V)) : option V :=
  snd <$> List.find (fun e => bool_decide (e.1 = k)) l.
End Dict.

(** Provider, account and effective identity. *)
Abbreviation Binding := (text * text * option text)%type.
Abbreviation Groups := (list (Binding * list (text * LogicalUnit))).

Definition frozen_canonical (m : MessageRow) : text :=
  match m.(ms_logical_of) with
  | Some l => if truthy l then l else m.(ms_message_id)
  | None => m.(ms_message_id)
  end.

Definition add_group (message_id : text) s (groups : Groups) : Groups :=
  match row_of_message message_id s, logical_unit message_id s with
  | Some m, Some u =>
      let binding := (m.(ms_provider), m.(ms_account_id), effective_message_identity (tables s) m) in
      dict_put binding (dict_put (frozen_canonical m) u (default [] (dict_find binding groups))) groups
  | _, _ => groups
  end.

Definition removal_groups (message_ids : list text) s : Groups :=
  foldl (fun groups id => add_group id s groups) [] message_ids.

(** The unique indexes over the intents of a request. *)
Definition binding_used (i : RemovalIntent) s : bool :=
  existsb (fun e => bool_decide (e.2.(ix_request_id) = i.(ix_request_id)) &&
                    bool_decide (e.2.(ix_provider) = i.(ix_provider)) &&
                    bool_decide (e.2.(ix_account_id) = i.(ix_account_id)) &&
                    bool_decide (e.2.(ix_mailbox_identity_key) = i.(ix_mailbox_identity_key)))
    (map_to_list s.(rm_intents)).

Definition insert_intent (intent_id : text) (i : RemovalIntent) s : py removal_store :=
  _ ← require (is_none (s.(rm_intents) !! intent_id) && intent_row_ok intent_id i && negb (binding_used i s) &&
               bool_decide (rq_kind <$> s.(rm_requests) !! i.(ix_request_id) = Some i.(ix_kind)))
        (IntegrityError "message_removal_intents");
  Ret (set_removal_intents (<[intent_id := i]> s.(rm_intents)) s).

Definition target_of (canonical : text) (sources : list FrozenSource) (m : MessageRow) : RemovalTarget :=
  mk_removal_target canonical m.(ms_provider) m.(ms_account_id) m.(ms_mailbox_identity_key)
    m.(ms_provider_message_id) sources true None.

(** One row of a unit; the intent is of the same mailbox. *)
Definition insert_target (intent_id canonical : text) (sources : list FrozenSource) s (message_id : text)
    : py removal_store :=
  m ← require_some (row_of_message message_id s) (TypeError "'NoneType' object is not subscriptable");
  let t := target_of canonical sources m in
  _ ← require (is_none (s.(rm_targets) !! (intent_id, message_id)) && target_row_ok message_id t &&
               bool_decide ((fun i => (i.(ix_provider), i.(ix_account_id))) <$> s.(rm_intents) !! intent_id =
                            Some (t.(tg_provider), t.(tg_account_id))))
        (IntegrityError "message_removal_targets");
  Ret (set_removal_targets (<[(intent_id, message_id) := t]> s.(rm_targets)) s).

Fixpoint foldl_py {A B} (f : B → A → py B) (l : list A) (b : B) : py B :=
  match l with
  | [] => Ret b
  | a :: l' => b ← f b a; foldl_py f l' b
  end.

Definition insert_unit (intent_id : text) s (u : text * LogicalUnit) : py removal_store :=
  foldl_py (insert_target intent_id u.1 u.2.(lu_sources)) u.2.(lu_rows) s.

(** [freeze], from the [n]-th random identifier on *)
Fixpoint freeze (key : text) (kind : removal_kind) (accepted_at : text) (uuids : nat → text) (n : nat)
    (groups : Groups) s : py removal_store :=
  match groups with
  | [] => Ret s
  | ((provider, account_id, identity), units) :: groups' =>
      s ← insert_intent (uuids n) (mk_removal_intent key kind provider account_id identity accepted_at true
                                     (Z.of_nat (length units)) 0 None) s;
      s ← foldl_py (insert_unit (uuids n)) units s;
      freeze key kind accepted_at uuids (S n) groups' s
  end.

(** The messages of a request. *)
Definition selected_messages (key : text) s : list text :=
  (fun e : text * text * RemovalTarget => e.1.2) <$>
    List.filter (fun e => bool_decide (ix_request_id <$> s.(rm_intents) !! e.1.1 = Some key)) (map_to_list s.(rm_targets)).

(** [_mark_automation_sources_unavailable], with the Connect jobs of the messages *)
Definition withdraw_work (message_ids event_ids : list text) (stamp sql_now sql_now_utc : text) (cause : source_cause) s
    : py removal_store :=
  let q := foldl (fun q id => connect_source_unavailable id sql_now sql_now_utc q) s.(rm_queue) message_ids in
  '(d, _) ← mark_automation_sources_unavailable (AutomationStore.set_sources s.(rm_runs) (tables s)) message_ids event_ids
              stamp cause;
  Ret (set_work q d s).

Definition removal_cause (kind : removal_kind) : source_cause :=
  match kind with KUnfollow => CauseThreadUnfollowed | _ => CauseSourceUnavailable end.

(** The identifiers and clocks a transaction takes. *)
Record Supplies := mk_supplies {
  su_uuids : nat → text;
  su_event_ids : list text;
  su_sql_now : text;
  su_sql_now_utc : text }.

Definition json_text (j : json) : option text := match j with JStr t => Some t | _ => None end.

(** The messages a request names; the callers pass the id of a deletion as a text. *)
Definition requested_messages (kind : removal_kind) (parameters : json) (message_ids : option (list text)) s
    : py (list text) :=
  match kind, message_ids with
  | KDelete, _ =>
      message ← require_some (match parameters with JObj m => dict_find (str "message_id") m | _ => None end)
                  (KeyError (str "message_id"));
      id ← require_some (json_text message) (TypeError "message_id");
      _ ← require (message_available (tables s) RECORD id) (KeyError id);
      Ret [id]
  | KClear, _ => Ret (ms_message_id <$> logical_messages (tables s))
  | KUnfollow, Some ids => Ret ids
  | KUnfollow, None => Raise (RemovalRequestInvalid "Unfollow acceptance belongs to the derived owner")
  end.

(** [_accept_in_transaction] *)
Definition _accept_in_transaction (key kind : text) (parameters : json) (message_ids : option (list text)) (now : Z)
    (supplies : Supplies) s : py (Outcome * bool * removal_store) :=
  '(k, fingerprint) ← request_hash kind parameters;
  previous ← outcome key (Some k) (Some fingerprint) s;
  match previous with
  | Some o => Ret (o, false, s)
  | None =>
      _ ← validate_key s.(rm_signing_key) key k fingerprint now;
      ids ← requested_messages k parameters message_ids s;
      let stamp := isoformat (utc now) in
      let s := set_removal_requests (<[key := mk_removal_request k fingerprint stamp]> s.(rm_requests)) s in
      s ← freeze key k stamp supplies.(su_uuids) 0 (removal_groups ids s) s;
      s ← withdraw_work (selected_messages key s) supplies.(su_event_ids) stamp supplies.(su_sql_now)
            supplies.(su_sql_now_utc) (removal_cause k) s;
      Ret (receipt key k s, true, s)
  end.

(** [accept] up to the completion, which the caller starts with [resume] for a new request *)
Definition accept (key kind : text) (parameters : json) (now : Z) (supplies : Supplies) s
    : py (Outcome * bool * removal_store) :=
  _accept_in_transaction key kind parameters None now supplies s.

(** ** Unfollowed content *)

(** A logical message whose stored content is to be dropped: it is not followed, none of its
    rows awaits a removal, and one of them has content. *)
Definition unfollow_candidate (u : LogicalUnit) (canonical : text) s : bool :=
  negb (existsb (fun m => bool_decide (m.(ms_message_id) = canonical) &&
                          existsb (followed_message (tables s) m) s.(rm_follow)) s.(rm_messages)) &&
  forallb (message_available (tables s) CONTENT) u.(lu_rows) &&
  existsb (fun id => is_some (s.(rm_bodies).(bt_bodies) !! id) || is_some (s.(rm_bodies).(bt_unavailable) !! id))
    u.(lu_rows).

(** The units, each with the first candidate that names it. *)
Definition select_unfollow s (selected : list (list text * text)) (message_id : text) : list (list text * text) :=
  match row_of_message message_id s, logical_unit message_id s with
  | Some m, Some u =>
      if is_some (dict_find u.(lu_rows) selected) then selected
      else if unfollow_candidate u (canonical_id m) s then dict_put u.(lu_rows) message_id selected else selected
  | _, _ => selected
  end.

Definition MAX_UNFOLLOW_RETENTION_DAYS : Z := 3650.

(** [accept_unfollow_units], with its authority; the key that is accepted *)
Definition accept_unfollow_units (candidates : list text) (now : Z) (nonce : text) (supplies : Supplies) s
    : py (option text * removal_store) :=
  match foldl (select_unfollow s) [] candidates with
  | [] => Ret (None, s)
  | selected =>
      let ids := selected.*2 in
      let parameters := JObj [(str "message_ids", JArr (JStr <$> sort_by text_leb ids))] in
      key ← _issue_key s.(rm_signing_key) (str "unfollow") parameters MAX_UNFOLLOW_RETENTION_DAYS now nonce;
      '(_, s) ← _accept_in_transaction key (str "unfollow") parameters (Some ids) now supplies s;
      Ret (Some key, s)
  end.

(** The messages with content of threads that are not followed, by their id. *)
Definition saved_unfollowed s : list text :=
  sort_by text_leb (ms_message_id <$>
    List.filter (fun m => negb (existsb (followed_message (tables s) m) s.(rm_follow)) &&
                          (is_some (s.(rm_bodies).(bt_bodies) !! m.(ms_message_id)) ||
                           is_some (s.(rm_bodies).(bt_unavailable) !! m.(ms_message_id)))) s.(rm_messages)).

(** [convert_saved_unfollow] *)
Definition convert_saved_unfollow (now : Z) (nonce : text) (supplies : Supplies) s : py (option text * removal_store) :=
  accept_unfollow_units (saved_unfollowed s) now nonce supplies s.

(** ** Completion *)

(** [_suppression_expiry] *)
Definition _suppression_expiry (received_at : text) (now : Z) : py text :=
  let received :=
    match fromisoformat received_at with
    | Some d => match d.(dt_offset) with
                | Some _ => match astimezone_utc d with Ret w => w | Raise _ => now end
                | None => now
                end
    | None => now
    end in
  expires ← plus_us (Z.min received now) (3650 * DAY);
  Ret (isoformat (utc expires)).

(** The marker that keeps a removed source from being captured again. *)
Definition suppress (now : Z) s (x : FrozenSource) : py removal_store :=
  let d := x.(fz_identity) in
  message_key ← require_some (message_suppression_key d.(si_provider) d.(si_account_id) d.(si_provider_message_id)
                                d.(si_mailbox_identity_key)) UnicodeEncodeError;
  expires_at ← _suppression_expiry x.(fz_received_at) now;
  Ret (set_suppressed (<[(d.(si_provider), d.(si_account_id), message_key) := expires_at]> s.(rm_suppressed)) s).

(** The rows that go with a message: those of the same logical message. *)
Fixpoint deleted_with (fuel : nat) (ids : list text) (messages : list MessageRow) : list text :=
  match fuel with
  | O => ids
  | S fuel' =>
      match List.filter (fun m => match m.(ms_logical_of) with Some l => bool_decide (l ∈ ids) | None => false end)
              messages with
      | [] => ids
      | children => (ids ++ deleted_with fuel' (ms_message_id <$> children) messages)%list
      end
  end.

Definition without_rows {A} (ids : list text) (m : gmap text A) : gmap text A := foldr delete m ids.

(** [DELETE FROM messages WHERE message_id = ?] *)
Definition delete_message_row (message_id sql_now sql_now_utc : text) s : removal_store :=
  match row_of_message message_id s with
  | None => s
  | Some _ =>
      let doomed := deleted_with (length s.(rm_messages)) [message_id] s.(rm_messages) in
      let lt := s.(rm_locations) in
      mk_removal s.(rm_signing_key) s.(rm_requests) s.(rm_intents) s.(rm_targets)
        (List.filter (fun m => negb (bool_decide (m.(ms_message_id) ∈ doomed))) s.(rm_messages)) s.(rm_follow) s.(rm_accounts)
        (mk_location_tables (filter (fun e => e.2.(ob_message_id) ∉ doomed) lt.(lt_observations))
           (filter (fun e => e.2.(lo_message_id) ∉ doomed) lt.(lt_locations)) lt.(lt_returned))
        (mk_body_tables (without_rows doomed s.(rm_bodies).(bt_bodies)) (without_rows doomed s.(rm_bodies).(bt_unavailable))
           s.(rm_bodies).(bt_checkpoint))
        s.(rm_suppressed) (foldl (fun q id => messages_delete id sql_now sql_now_utc q) s.(rm_queue) doomed) s.(rm_runs)
  end.

(** The stored row is still the one that was frozen. *)
Definition target_row (message_id : text) (t : RemovalTarget) s : option MessageRow :=
  List.find (fun m => bool_decide (m.(ms_message_id) = message_id) && bool_decide (m.(ms_provider) = t.(tg_provider)) &&
                      bool_decide (m.(ms_account_id) = t.(tg_account_id)) &&
                      bool_decide (m.(ms_mailbox_identity_key) = t.(tg_stored_identity_key)) &&
                      bool_decide (m.(ms_provider_message_id) = t.(tg_provider_message_id))) s.(rm_messages).

Definition remove_target (kind : removal_kind) (sql_now sql_now_utc : text) s (e : text * RemovalTarget) : removal_store :=
  match target_row e.1 e.2 s with
  | None => s
  | Some m =>
      match kind with
      | KUnfollow =>
          let b := s.(rm_bodies) in
          set_removal_bodies (mk_body_tables (delete m.(ms_message_id) b.(bt_bodies)) (delete m.(ms_message_id) b.(bt_unavailable))
                                b.(bt_checkpoint)) s
      | _ => delete_message_row m.(ms_message_id) sql_now sql_now_utc s
      end
  end.

(** The pending rows of a unit. *)
Definition unit_targets (intent_id logical_id : text) s : list (text * RemovalTarget) :=
  (fun e : text * text * RemovalTarget => (e.1.2, e.2)) <$>
    List.filter (fun e => bool_decide (e.1.1 = intent_id) && bool_decide (e.2.(tg_logical_id) = logical_id) && e.2.(tg_pending))
      (map_to_list s.(rm_targets)).

Definition settle (intent_id logical_id stamp : text) (k : text * text) (t : RemovalTarget) : RemovalTarget :=
  if bool_decide (k.1 = intent_id) && bool_decide (t.(tg_logical_id) = logical_id) && t.(tg_pending)
  then mk_removal_target t.(tg_logical_id) t.(tg_provider) t.(tg_account_id) t.(tg_stored_identity_key)
         t.(tg_provider_message_id) t.(tg_sources) false (Some stamp)
  else t.

(** [COUNT(DISTINCT logical_target_id)] of the completed rows *)
Definition completed_units (intent_id : text) s : Z :=
  Z.of_nat (length (remove_dups ((fun e : text * text * RemovalTarget => e.2.(tg_logical_id)) <$>
    List.filter (fun e => bool_decide (e.1.1 = intent_id) && negb e.2.(tg_pending)) (map_to_list s.(rm_targets))))).

(** Every frozen source of a unit is suppressed, unless it was only unfollowed. *)
Definition suppress_unit (kind : removal_kind) (targets : list (text * RemovalTarget)) (now : Z) s : py removal_store :=
  match kind with
  | KUnfollow => Ret s
  | _ => foldl_py (fun s frozen => foldl_py (suppress now) frozen s)
           (remove_dups ((fun e => e.2.(tg_sources)) <$> targets)) s
  end.

(** One unit, in the transaction of its batch. *)
Definition complete_unit (now : Z) (sql_now sql_now_utc : text) s (unit : text * text) : py removal_store :=
  let '(intent_id, logical_id) := unit in
  let stamp := isoformat (utc now) in
  match unit_targets intent_id logical_id s with
  | [] => Ret s
  | targets =>
      intent ← require_some (s.(rm_intents) !! intent_id) (TypeError "'NoneType' object is not subscriptable");
      s ← suppress_unit intent.(ix_kind) targets now s;
      let s := foldl (remove_target intent.(ix_kind) sql_now sql_now_utc) s targets in
      let s := match intent.(ix_kind) with
               | KUnfollow => s
               | _ => set_work s.(rm_queue) (purge_expired_automation_tombstones s.(rm_runs) stamp) s
               end in
      let s := set_removal_targets (map_imap (fun k t => Some (settle intent_id logical_id stamp k t)) s.(rm_targets)) s in
      let completed := completed_units intent_id s in
      let settled := completed =? intent.(ix_requested) in
      let i := mk_removal_intent intent.(ix_request_id) intent.(ix_kind) intent.(ix_provider) intent.(ix_account_id)
                 intent.(ix_mailbox_identity_key) intent.(ix_accepted_at) (negb settled) intent.(ix_requested) completed
                 (if settled then Some stamp else None) in
      _ ← require (intent_row_ok intent_id i) (IntegrityError "message_removal_intents");
      Ret (set_removal_intents (<[intent_id := i]> s.(rm_intents)) s)
  end.

(** ** Batches *)

(** [source_locks.cleanup_groups]: whole units, up to the limit of rows *)
Fixpoint cleanup_groups (limit : option nat) (keys : list (text * text)) (rows : gset text)
    (units : list (text * text * list text)) : list (list (text * text) * gset text) :=
  match units with
  | [] => match keys with [] => [] | _ => [(keys, rows)] end
  | (key, current) :: units' =>
      let current := list_to_set current in
      match keys, limit with
      | _ :: _, Some n =>
          if bool_decide (n < size (rows ∪ current))%nat
          then (keys, rows) :: cleanup_groups limit [key] current units'
          else cleanup_groups limit (keys ++ [key])%list (rows ∪ current) units'
      | _, _ => cleanup_groups limit (keys ++ [key])%list (rows ∪ current) units'
      end
  end.

Fixpoint batches {A} (n fuel : nat) (l : list A) : list (list A) :=
  match fuel, l with
  | S fuel', _ :: _ => take n l :: batches n fuel' (drop n l)
  | _, _ => []
  end.

Definition SOURCE_CLEANUP_LOCK_BATCH_SIZE : nat := 32.

Definition unit_leb (x y : text * text * RemovalTarget) : bool :=
  let key (e : text * text * RemovalTarget) := (e.1.1, e.2.(tg_logical_id), e.1.2) in
  let '(a, b, c) := key x in let '(a', b', c') := key y in
  if bool_decide (a = a') then if bool_decide (b = b') then text_leb c c' else text_leb b b' else text_leb a a'.

(** The units with pending rows, by intent and logical message. *)
Definition pending_units s : list (text * text * list text) :=
  foldl (fun (units : list (text * text * list text)) (e : text * text * RemovalTarget) =>
           let key := (e.1.1, e.2.(tg_logical_id)) in
           dict_put key (default [] (dict_find key units) ++ [e.1.2])%list units)
    [] (sort_by unit_leb (List.filter (fun e => e.2.(tg_pending)) (map_to_list s.(rm_targets)))).

(** What the acquisition of the locks of a batch comes to. *)
Inductive lock_outcome := LocksAcquired | LocksRefused | LocksBusy.

(** A batch is one transaction. *)
Definition complete_batch (now : Z) (sql_now sql_now_utc : text) (got : gset text → lock_outcome) s
    (batch : list (text * text) * gset text) : py removal_store :=
  match got batch.2 with
  | LocksAcquired => foldl_py (complete_unit now sql_now sql_now_utc) batch.1 s
  | LocksRefused | LocksBusy => Ret s
  end.

(** [resume]; [limit] is set while the source-lock protocol is not ready *)
Definition resume (limit : option nat) (now : Z) (sql_now sql_now_utc : text) (got : gset text → lock_outcome) s
    : py removal_store :=
  let units := pending_units s in
  foldl_py (complete_batch now sql_now sql_now_utc got)
    (flat_map (cleanup_groups limit [] ∅) (batches SOURCE_CLEANUP_LOCK_BATCH_SIZE (length units) units)) s.

(** ** Retirement *)

(** [datetime.fromisoformat(value) > cutoff] *)
Definition after_cutoff (value : text) (cutoff : Z) : py bool :=
  match fromisoformat value with
  | None => Raise (ValueError "Invalid isoformat string")
  | Some d => i ← require_some (instant d) (TypeError "can't compare offset-naive and offset-aware datetimes");
              Ret (cutoff <? i)
  end.

(** An intent that keeps its request. *)
Definition keeps_request (cutoff : Z) (i : RemovalIntent) : py bool :=
  if i.(ix_pending) then Ret true
  else settled_at ← require_some i.(ix_settled_at) (TypeError "fromisoformat: argument must be str"); after_cutoff settled_at cutoff.

Fixpoint any_py {A} (f : A → py bool) (l : list A) : py bool :=
  match l with
  | [] => Ret false
  | x :: l' => f x ≫= fun b : bool => if b then Ret true else any_py f l'
  end.

Definition request_kept (cutoff : Z) (request : RemovalRequest) (intents : list RemovalIntent) : py bool :=
  after_cutoff request.(rq_accepted_at) cutoff ≫= fun recent : bool =>
  if recent then Ret true else any_py (keeps_request cutoff) intents.

Definition retire_request (cutoff now : Z) s (e : text * RemovalRequest) : py removal_store :=
  let '(key, request) := e in
  expiry ← _parse_key s.(rm_signing_key) key request.(rq_kind) request.(rq_parameters_sha256);
  if negb (number_leb (inl expiry) (inr (timestamp now))) then Ret s
  else
    keep ← request_kept cutoff request (request_intents key s).*2;
    if (keep : bool) then Ret s
    else
      let doomed := (request_intents key s).*1 in
      Ret (set_removal_requests (delete key s.(rm_requests))
             (set_removal_targets (filter (fun e : text * text * RemovalTarget => e.1.1 ∉ doomed) s.(rm_targets))
                (set_removal_intents (without_rows doomed s.(rm_intents)) s))).

(** [retire] *)
Definition retire (retention_days now : Z) s : py removal_store :=
  cutoff ← plus_us now (- (retention_days * DAY));
  foldl_py (retire_request cutoff now) (map_to_list s.(rm_requests)) s.
