(* ===== verification/RemovalAccept.v ===== *)
(** * The invariant of the removal tables

    Every target belongs to an intent of a request; the rows of a logical message are
    pending or completed together; the counts of an intent are the numbers of its frozen
    and of its completed logical messages. *)

From S2P Require Export RemovalOps.
From S2P Require Import RuleTheorems GmailCodec.
From stdpp Require Import options.

Local Open Scope Z_scope.

Implicit Types s : removal_store.
Implicit Types T : gmap (text * text) RemovalTarget.

(** ** Folds that may fail *)

Lemma foldl_py_app {A B} (f : B → A → py B) l l' b :
  foldl_py f (l ++ l') b = b' ← foldl_py f l b; foldl_py f l' b'.
Proof. revert b. induction l as [|x l IH]; intros b; simpl; [done|]. destruct (f b x); simpl; [apply IH|done]. Qed.

Lemma foldl_py_ind {A B} (f : B → A → py B) (P : B → Prop) l b b' :
  (∀ x y z, x ∈ l → P y → f y x = Ret z → P z) → P b → foldl_py f l b = Ret b' → P b'.
Proof.
  revert b. induction l as [|x l IH]; intros b Hf Hb Hr; simpl in Hr; [by simplify_eq|].
  apply bind_ret_inv in Hr as (b1 & H1 & Hr). eapply IH; [|eapply (Hf x)|done]; [|by left|done|done].
  intros y u v Hy. apply Hf. by right.
Qed.

(** ** Logical messages of an intent *)

Definition logical_ids (iid : text) T : gset text :=
  list_to_set ((fun e : text * text * RemovalTarget => e.2.(tg_logical_id)) <$>
    List.filter (fun e => bool_decide (e.1.1 = iid)) (map_to_list T)).

Definition completed_ids (iid : text) T : gset text :=
  list_to_set ((fun e : text * text * RemovalTarget => e.2.(tg_logical_id)) <$>
    List.filter (fun e => bool_decide (e.1.1 = iid) && negb e.2.(tg_pending)) (map_to_list T)).

Lemma elem_of_logical_ids iid T l : l ∈ logical_ids iid T ↔ ∃ mid t, T !! (iid, mid) = Some t ∧ t.(tg_logical_id) = l.
Proof.
  unfold logical_ids. rewrite elem_of_list_to_set, list_elem_of_fmap. split.
  - intros ([[i mid] t] & -> & [Hin Hb]%elem_of_filter_b). apply elem_of_map_to_list in Hin. simpl in *. bools. subst. eauto.
  - intros (mid & t & Ht & <-). exists (iid, mid, t). split; [done|]. apply elem_of_filter_b.
    rewrite elem_of_map_to_list. split; [done|]. by apply bool_decide_eq_true_2.
Qed.

Lemma elem_of_completed_ids iid T l : l ∈ completed_ids iid T ↔
  ∃ mid t, T !! (iid, mid) = Some t ∧ t.(tg_logical_id) = l ∧ t.(tg_pending) = false.
Proof.
  unfold completed_ids. rewrite elem_of_list_to_set, list_elem_of_fmap. split.
  - intros ([[i mid] t] & -> & [Hin Hb]%elem_of_filter_b). apply elem_of_map_to_list in Hin. simpl in *. bools. subst. eauto.
  - intros (mid & t & Ht & <- & Hp). exists (iid, mid, t). split; [done|]. apply elem_of_filter_b.
    rewrite elem_of_map_to_list. split; [done|]. simpl. by rewrite bool_decide_eq_true_2, Hp.
Qed.

Lemma size_remove_dups (l : list text) : size (list_to_set l : gset text) = length (remove_dups l).
Proof.
  rewrite <- (size_list_to_set (C := gset text) (remove_dups l)) by apply NoDup_remove_dups.
  f_equal. apply set_eq. intros x. by rewrite !elem_of_list_to_set, elem_of_remove_dups.
Qed.

Lemma completed_units_size iid s : completed_units iid s = Z.of_nat (size (completed_ids iid s.(rm_targets))).
Proof. unfold completed_units, completed_ids. by rewrite size_remove_dups. Qed.

Lemma ids_frame iid T T' : (∀ mid, T' !! (iid, mid) = T !! (iid, mid)) →
  logical_ids iid T' = logical_ids iid T ∧ completed_ids iid T' = completed_ids iid T.
Proof.
  intros E. split; apply set_eq; intros l; rewrite ?elem_of_logical_ids, ?elem_of_completed_ids; by setoid_rewrite E.
Qed.

(** ** The invariant *)

Record removal_inv s : Prop := {
  rn_intent : ∀ iid i, s.(rm_intents) !! iid = Some i → intent_row_ok iid i = true;
  rn_request : ∀ iid i, s.(rm_intents) !! iid = Some i → rq_kind <$> s.(rm_requests) !! i.(ix_request_id) = Some i.(ix_kind);
  rn_owned : ∀ iid mid t, s.(rm_targets) !! (iid, mid) = Some t → is_Some (s.(rm_intents) !! iid);
  rn_target : ∀ iid mid t, s.(rm_targets) !! (iid, mid) = Some t → target_row_ok mid t = true;
  rn_uniform : ∀ iid mid mid' t t', s.(rm_targets) !! (iid, mid) = Some t → s.(rm_targets) !! (iid, mid') = Some t' →
    t.(tg_logical_id) = t'.(tg_logical_id) → t.(tg_pending) = t'.(tg_pending);
  rn_counts : ∀ iid i, s.(rm_intents) !! iid = Some i →
    i.(ix_requested) = Z.of_nat (size (logical_ids iid s.(rm_targets))) ∧
    i.(ix_completed) = Z.of_nat (size (completed_ids iid s.(rm_targets))) }.

(** The removal tables only. *)
Definition same_removals s s' : Prop :=
  s'.(rm_requests) = s.(rm_requests) ∧ s'.(rm_intents) = s.(rm_intents) ∧ s'.(rm_targets) = s.(rm_targets).

Lemma same_removals_inv s s' : same_removals s s' → removal_inv s → removal_inv s'.
Proof. intros (E1 & E2 & E3) []. split; rewrite ?E1, ?E2, ?E3; done. Qed.

(** An open target keeps its intent open. *)
Lemma pending_intent s iid mid t i :
  removal_inv s → s.(rm_targets) !! (iid, mid) = Some t → s.(rm_intents) !! iid = Some i → t.(tg_pending) = true →
  i.(ix_pending) = true.
Proof.
  intros [] Ht Hi Hp. destruct (rn_counts0 _ _ Hi) as [Er Ec]. specialize (rn_intent0 _ _ Hi).
  assert (completed_ids iid s.(rm_targets) ⊂ logical_ids iid s.(rm_targets)) as Hs.
  { split.
    - intros l. rewrite elem_of_completed_ids, elem_of_logical_ids. naive_solver.
    - intros Hsub. assert (t.(tg_logical_id) ∈ completed_ids iid s.(rm_targets)) as Hc.
      { apply Hsub, elem_of_logical_ids. eauto. }
      apply elem_of_completed_ids in Hc as (mid' & t' & Ht' & El & Hf). pose proof (rn_uniform0 _ _ _ _ _ Ht' Ht El). congruence. }
  apply subset_size in Hs. unfold intent_row_ok in rn_intent0. rewrite !andb_true_iff in rn_intent0.
  destruct rn_intent0 as [[_ Hst%eqb_prop] _]. destruct (ix_pending i); [done|]. simpl in Hst. lia.
Qed.

(** * What a request freezes *)

(** ** Dictionaries *)

Section Dict.
Context {K V : Type} `{EqDecision K}.
Implicit Types l : list (K * V).

Lemma dict_put_keys (k : K) (v : V) l k' : k' ∈ (dict_put k v l).*1 ↔ k' = k ∨ k' ∈ l.*1.
Proof.
  induction l as [|[x y] l IH]; simpl.
  { rewrite list_elem_of_singleton, elem_of_nil. tauto. }
  case_bool_decide as E; simpl; rewrite ?elem_of_cons, ?IH; [subst|]; tauto.
Qed.

Lemma dict_put_nodup (k : K) (v : V) l : NoDup l.*1 → NoDup (dict_put k v l).*1.
Proof.
  induction l as [|[x y] l IH]; simpl; [intros _; apply NoDup_singleton|].
  rewrite list.NoDup_cons. intros [Hx Hl]. case_bool_decide as E; simpl; rewrite list.NoDup_cons.
  - subst. done.
  - split; [|by apply IH]. rewrite dict_put_keys. intros [->|?]; done.
Qed.

Lemma dict_put_elem (k : K) (v : V) l k' v' : NoDup l.*1 →
  (k', v') ∈ dict_put k v l ↔ (k' = k ∧ v' = v) ∨ (k' ≠ k ∧ (k', v') ∈ l).
Proof.
  induction l as [|[x y] l IH]; simpl.
  { intros _. rewrite list_elem_of_singleton, elem_of_nil. split; [intros [= -> ->]; by left|]. by intros [[-> ->]|[_ []]]. }
  rewrite list.NoDup_cons. intros [Hx Hl]. case_bool_decide as E; rewrite !elem_of_cons.
  - subst. split.
    + intros [[= -> ->]|Hin]; [by left|]. right. split; [|by right].
      intros ->. apply Hx. by apply (list_elem_of_fmap_2 fst) in Hin.
    + intros [[-> ->]|[Hn [[= -> ->]|Hin]]]; [by left|done|by right].
  - rewrite IH by done. split.
    + intros [[= -> ->]|[?|[? ?]]]; [right; split; [done|by left]|by left|by right; split; [|right]].
    + intros [?|[? [[= -> ->]|?]]]; [right; by left|by left|right; by right].
Qed.

Lemma dict_find_elem (k : K) (v : V) l : NoDup l.*1 → dict_find k l = Some v ↔ (k, v) ∈ l.
Proof.
  unfold dict_find. induction l as [|[x y] l IH]; simpl.
  { intros _. split; [done|]. by intros ?%not_elem_of_nil. }
  rewrite list.NoDup_cons. intros [Hx Hl]. case_bool_decide as E; simpl; rewrite elem_of_cons.
  - subst. split; [intros [= ->]; by left|]. intros [[= ->]|Hin]; [done|]. destruct Hx. by apply (list_elem_of_fmap_2 fst) in Hin.
  - rewrite IH by done. split; [by right|]. intros [[= -> ->]|?]; done.
Qed.

Lemma dict_find_none (k : K) l : dict_find k l = None ↔ k ∉ l.*1.
Proof.
  unfold dict_find. induction l as [|[x y] l IH]; simpl; [split; [by intros _ ?%not_elem_of_nil|done]|].
  case_bool_decide as E; simpl; rewrite elem_of_cons; [split; [done|]; intros Hn; destruct Hn; by left|].
  rewrite IH. split; [intros Hn [->|?]; done|]. intros Hn Hin. apply Hn. by right.
Qed.
End Dict.

(** ** Groups *)

Definition binding_of (m : MessageRow) s : Binding :=
  (m.(ms_provider), m.(ms_account_id), effective_message_identity (tables s) m).

(** What a unit of a group stands for. *)
Definition unit_of s (b : Binding) (c : text) (u : LogicalUnit) : Prop :=
  ∃ id m, row_of_message id s = Some m ∧ logical_unit id s = Some u ∧ b = binding_of m s ∧ c = frozen_canonical m.

Record groups_ok s (groups : Groups) : Prop := {
  gr_bindings : NoDup groups.*1;
  gr_units : ∀ b units, (b, units) ∈ groups → units ≠ [] ∧ NoDup units.*1 ∧
    ∀ c u, (c, u) ∈ units → unit_of s b c u }.

Lemma logical_unit_some id s m : row_of_message id s = Some m → is_Some (logical_unit id s).
Proof. unfold logical_unit. intros ->. simpl. eauto. Qed.

Lemma groups_find_ok s groups b : groups_ok s groups →
  NoDup (default [] (dict_find b groups)).*1 ∧
  ∀ c u, (c, u) ∈ default [] (dict_find b groups) → unit_of s b c u.
Proof.
  intros [Hn Hu]. destruct (dict_find b groups) as [units|] eqn:E; simpl.
  - apply dict_find_elem in E; [|done]. by destruct (Hu _ _ E) as (_ & ? & ?).
  - split; [constructor|]. by intros c u ?%not_elem_of_nil.
Qed.

Lemma add_group_ok id s groups : groups_ok s groups → groups_ok s (add_group id s groups).
Proof.
  intros Hg. unfold add_group. destruct (row_of_message id s) as [m|] eqn:Em; [|done].
  destruct (logical_unit id s) as [u|] eqn:Eu; [|done].
  change (ms_provider m, ms_account_id m, effective_message_identity (tables s) m) with (binding_of m s).
  destruct (groups_find_ok s groups (binding_of m s) Hg) as [Hn Hu]. split; [by apply dict_put_nodup, Hg|].
  intros b units [[-> ->]|[_ Hin]]%dict_put_elem; [..|apply Hg]; [|by apply Hg in Hin].
  split_and!.
  - destruct (default [] _) as [|[x y] l]; simpl; [done|]. by case_bool_decide.
  - by apply dict_put_nodup.
  - intros c v [[-> ->]|[_ Hin]]%dict_put_elem; [by exists id, m|by apply Hu|done].
Qed.

Lemma removal_groups_ok ids s : groups_ok s (removal_groups ids s).
Proof.
  unfold removal_groups. assert (groups_ok s []) as H0 by (split; [constructor|]; by intros ? ? ?%not_elem_of_nil).
  revert H0. generalize ([] : Groups). induction ids as [|id ids IH]; simpl; [done|].
  intros g Hg. apply IH. by apply add_group_ok.
Qed.

(** Units that were put in stay, up to the same canonical message. *)
Definition has_unit (groups : Groups) (b : Binding) (c : text) : Prop :=
  ∃ units u, (b, units) ∈ groups ∧ (c, u) ∈ units.

Lemma add_group_keeps id s groups b c : groups_ok s groups → has_unit groups b c → has_unit (add_group id s groups) b c.
Proof.
  intros Hg (units & u & Hb & Hc). unfold add_group. destruct (row_of_message id s) as [m|]; [|by exists units, u].
  destruct (logical_unit id s) as [v|]; [|by exists units, u].
  change (ms_provider m, ms_account_id m, effective_message_identity (tables s) m) with (binding_of m s).
  destruct (decide (b = binding_of m s)) as [->|Hne].
  - pose proof Hb as Hf. apply dict_find_elem in Hf; [|apply Hg]. rewrite Hf. simpl.
    destruct (gr_units _ _ Hg _ _ Hb) as (_ & Hn & _).
    destruct (decide (c = frozen_canonical m)) as [->|Hcn].
    + eexists _, v. split; apply dict_put_elem; [apply Hg|by left|done|by left].
    + eexists _, u. split; apply dict_put_elem; [apply Hg|by left|done|by right].
  - exists units, u. split; [|done]. apply dict_put_elem; [apply Hg|]. by right.
Qed.

Lemma removal_groups_complete ids s id m : id ∈ ids → row_of_message id s = Some m →
  has_unit (removal_groups ids s) (binding_of m s) (frozen_canonical m).
Proof.
  unfold removal_groups. assert (groups_ok s []) as H0 by (split; [constructor|]; by intros ? ? ?%not_elem_of_nil).
  intros Hid Hm. revert H0. generalize ([] : Groups).
  assert (∀ ids g, groups_ok s g → has_unit g (binding_of m s) (frozen_canonical m) →
    has_unit (foldl (fun groups id => add_group id s groups) g ids) (binding_of m s) (frozen_canonical m)) as Hkeep.
  { clear Hid. intros l. induction l as [|x l IH]; simpl; [done|]. intros g Hg Hh. apply IH; [by apply add_group_ok|by apply add_group_keeps]. }
  induction ids as [|x ids IH]; simpl; [by apply not_elem_of_nil in Hid|]. intros g Hg.
  apply elem_of_cons in Hid as [<-|Hid]; [|apply IH; [done|by apply add_group_ok]].
  apply Hkeep; [by apply add_group_ok|]. unfold add_group. rewrite Hm.
  destruct (logical_unit_some _ _ _ Hm) as [u Hu]. rewrite Hu.
  change (ms_provider m, ms_account_id m, effective_message_identity (tables s) m) with (binding_of m s).
  destruct (groups_find_ok s g (binding_of m s) Hg) as [Hn _].
  eexists _, u. split; apply dict_put_elem; [apply Hg|by left|done|by left].
Qed.

(** ** Units *)

Lemma row_of_message_elem id s m : row_of_message id s = Some m → m ∈ s.(rm_messages) ∧ m.(ms_message_id) = id.
Proof. unfold row_of_message. intros [Hin E]%List.find_some. bools. split; [by apply list_elem_of_In|done]. Qed.

Lemma unit_members_elem c messages m : m ∈ unit_members c messages ↔
  m ∈ messages ∧ (m.(ms_message_id) = c ∨ m.(ms_logical_of) = Some c).
Proof. unfold unit_members. rewrite sort_by_perm, elem_of_filter_b, orb_true_iff, !bool_decide_eq_true. tauto. Qed.

Lemma logical_unit_rows id s m u : row_of_message id s = Some m → logical_unit id s = Some u →
  lu_rows u = ms_message_id <$> unit_members (canonical_id m) s.(rm_messages) ∧ id ∈ lu_rows u.
Proof.
  intros Hm. unfold logical_unit. rewrite Hm. simpl. intros [= <-]. simpl. split; [done|].
  destruct (row_of_message_elem _ _ _ Hm) as [Hin <-]. apply list_elem_of_fmap. exists m. split; [done|].
  apply unit_members_elem. split; [done|]. unfold canonical_id. destruct (ms_logical_of m); simpl; [by right|by left].
Qed.

(** ** Inserts *)

(** The frozen rows of the units of an intent. *)
Definition frozen_row (units : list (text * LogicalUnit)) s (mid : text) (t : RemovalTarget) : Prop :=
  ∃ c u m, (c, u) ∈ units ∧ mid ∈ u.(lu_rows) ∧ row_of_message mid s = Some m ∧ t = target_of c u.(lu_sources) m ∧
    target_row_ok mid t = true.

Lemma insert_rows_result iid c src : ∀ rows s s',
  foldl_py (insert_target iid c src) rows s = Ret s' →
  ∃ T', s' = set_removal_targets T' s ∧ ∀ k t, T' !! k = Some t ↔ s.(rm_targets) !! k = Some t ∨
    ∃ mid, k = (iid, mid) ∧ frozen_row [(c, mk_unit rows src)] s mid t.
Proof.
  induction rows as [|mid rows IH]; intros s s' Hr; simpl in Hr.
  { simplify_eq. exists s'.(rm_targets). split; [by destruct s'|]. intros k t. split; [by left|].
    intros [?|(mid & _ & c' & u & m & Hu & Hmid & _)]; [done|]. apply list_elem_of_singleton in Hu. simplify_eq.
    by apply not_elem_of_nil in Hmid. }
  apply bind_ret_inv in Hr as (s1 & H1 & Hr). unfold insert_target in H1. peel. bools. clear u. subst s1.
  apply IH in Hr as (T' & -> & HT). exists T'. split; [done|]. intros k t. rewrite HT. simpl.
  rewrite lookup_insert_Some. destruct (rm_targets s !! (iid, mid)) eqn:En; [done|]. split.
  - intros [[[<- <-]|[_ ?]]|(mid' & -> & c' & u & m & Hu & Hmid & Hm & -> & Hok)].
    + right. exists mid. split; [done|]. exists c, (mk_unit (mid :: rows) src), a. split_and!; try done; by left.
    + by left.
    + right. exists mid'. split; [done|]. apply list_elem_of_singleton in Hu. simplify_eq/=.
      exists c, (mk_unit (mid :: rows) src), m. split_and!; try done; [by left|by right].
  - intros [Ht|(mid' & -> & c' & u & m & Hu & Hmid & Hm & -> & Hok)].
    + left. right. split; [|done]. intros <-. congruence.
    + apply list_elem_of_singleton in Hu. simplify_eq/=. apply elem_of_cons in Hmid as [->|Hmid].
      * left. left. split; [done|]. congruence.
      * right. exists mid'. split; [done|]. exists c, (mk_unit rows src), m. split_and!; try done. by left.
Qed.

Lemma insert_units_result iid : ∀ units s s',
  foldl_py (insert_unit iid) units s = Ret s' →
  ∃ T', s' = set_removal_targets T' s ∧ ∀ k t, T' !! k = Some t ↔ s.(rm_targets) !! k = Some t ∨
    ∃ mid, k = (iid, mid) ∧ frozen_row units s mid t.
Proof.
  induction units as [|[c u] units IH]; intros s s' Hr; simpl in Hr.
  { simplify_eq. exists s'.(rm_targets). split; [by destruct s'|]. intros k t. split; [by left|].
    intros [?|(mid & _ & c' & u & m & Hu & _)]; [done|]. by apply not_elem_of_nil in Hu. }
  apply bind_ret_inv in Hr as (s1 & H1 & Hr). unfold insert_unit in H1. simpl in H1.
  apply insert_rows_result in H1 as (T1 & -> & HT1). apply IH in Hr as (T' & -> & HT). exists T'.
  split; [done|]. intros k t. rewrite HT. simpl. rewrite HT1. unfold frozen_row. split.
  - intros [[?|(mid & -> & c' & u' & m & Hu & Hx)]|(mid & -> & c' & u' & m & Hu & Hx)]; [by left|right..];
      exists mid; (split; [done|]).
    + apply list_elem_of_singleton in Hu. simplify_eq/=. exists c, u, m. split; [by left|done].
    + exists c', u', m. split; [by right|done].
  - intros [?|(mid & -> & c' & u' & m & Hu & Hx)]; [by left; left|]. apply elem_of_cons in Hu as [[= -> ->]|Hu].
    + left. right. exists mid. split; [done|]. exists c, (mk_unit u.(lu_rows) u.(lu_sources)), m. split; [by left|done].
    + right. exists mid. split; [done|]. exists c', u', m. done.
Qed.

(** An intent that freezes its units. *)
Definition new_intent (key : text) (kind : removal_kind) (stamp : text) (b : Binding) (units : list (text * LogicalUnit))
    : RemovalIntent :=
  mk_removal_intent key kind b.1.1 b.1.2 b.2 stamp true (Z.of_nat (length units)) 0 None.

(** The messages of a store do not depend on the removal tables. *)
Lemma frozen_row_frame units s s' mid t : s'.(rm_messages) = s.(rm_messages) → frozen_row units s mid t → frozen_row units s' mid t.
Proof. intros E (c & u & m & ? & ? & Hm & ?). exists c, u, m. unfold row_of_message in *. rewrite E. done. Qed.

(** The rows of every unit are frozen. *)
Lemma insert_rows_all iid c src : ∀ rows s s' mid,
  foldl_py (insert_target iid c src) rows s = Ret s' → mid ∈ rows →
  ∃ t, frozen_row [(c, mk_unit rows src)] s mid t.
Proof.
  intros rows s s' mid. revert s. induction rows as [|x rows IH]; intros s Hr Hin; [by apply not_elem_of_nil in Hin|].
  simpl in Hr. apply bind_ret_inv in Hr as (s1 & H1 & Hr). unfold insert_target in H1. peel. bools. clear u. subst s1.
  apply elem_of_cons in Hin as [->|Hin].
  - eexists _, c, (mk_unit (x :: rows) src), a. split_and!; [by left|by left|done|done|done].
  - destruct (IH _ Hr Hin) as (t & c' & u & m & Hu & Hmid & Hm & -> & Hok). apply list_elem_of_singleton in Hu. simplify_eq/=.
    eexists _, c, (mk_unit (x :: rows) src), m. split_and!; [by left|by right|done|done|done].
Qed.

Lemma insert_units_all iid : ∀ units s s' c u mid,
  foldl_py (insert_unit iid) units s = Ret s' → (c, u) ∈ units → mid ∈ u.(lu_rows) →
  ∃ m, row_of_message mid s = Some m ∧ target_row_ok mid (target_of c u.(lu_sources) m) = true.
Proof.
  induction units as [|[c0 u0] units IH]; intros s s' c u mid Hr Hu Hmid; [by apply not_elem_of_nil in Hu|].
  simpl in Hr. apply bind_ret_inv in Hr as (s1 & H1 & Hr). unfold insert_unit in H1. simpl in H1.
  apply elem_of_cons in Hu as [[= <- <-]|Hu].
  - destruct (insert_rows_all _ _ _ _ _ _ _ H1 Hmid) as (t & c' & u' & m & Hu' & _ & Hm & -> & Hok).
    apply list_elem_of_singleton in Hu'. simplify_eq/=. by exists m.
  - apply insert_rows_result in H1 as (T1 & -> & _). destruct (IH _ _ _ _ _ Hr Hu Hmid) as (m & Hm & Hok). by exists m.
Qed.

(** * Acceptance of a removal request

    [freeze] keeps the invariant and adds, for every group of the request, one intent with
    the rows of its logical messages as pending targets. *)

Section Group.
Context (iid key : text) (kind : removal_kind) (stamp : text) (b : Binding) (units : list (text * LogicalUnit)).
Context (s : removal_store) (T' : gmap (text * text) RemovalTarget).
Context (Hinv : removal_inv s).
Context (Hnone : s.(rm_intents) !! iid = None).
Context (HT : ∀ k t, T' !! k = Some t ↔ s.(rm_targets) !! k = Some t ∨ ∃ mid, k = (iid, mid) ∧ frozen_row units s mid t).

Lemma group_fresh mid : s.(rm_targets) !! (iid, mid) = None.
Proof using Hinv Hnone.
  destruct (rm_targets s !! (iid, mid)) as [t|] eqn:E; [|done]. apply (rn_owned _ Hinv) in E as [i Hi]. congruence.
Qed.

Lemma group_target mid t : T' !! (iid, mid) = Some t ↔ frozen_row units s mid t.
Proof using All.
  rewrite HT, group_fresh. split; [intros [?|(mid' & [= <-] & ?)]; done|]. intros Hf. right. by exists mid.
Qed.

Lemma group_other jid mid : jid ≠ iid → T' !! (jid, mid) = s.(rm_targets) !! (jid, mid).
Proof using HT.
  intros Hne. apply option_eq. intros t. rewrite HT. split; [|by left]. by intros [?|(? & [= ? ?] & _)].
Qed.

Lemma group_logical_ids : (∀ c u, (c, u) ∈ units → ∃ mid t, frozen_row [(c, u)] s mid t) →
  logical_ids iid T' = list_to_set units.*1.
Proof using All.
  intros Hrows. apply set_eq. intros l. rewrite elem_of_logical_ids, elem_of_list_to_set, list_elem_of_fmap.
  setoid_rewrite group_target. split.
  - intros (mid & t & (c & u & m & Hu & _ & _ & -> & _) & <-). by exists (c, u).
  - intros ([c u] & -> & Hu). destruct (Hrows _ _ Hu) as (mid & t & c' & u' & m & Hu' & Hmid & Hm & -> & Hok).
    apply list_elem_of_singleton in Hu'. simplify_eq. exists mid, (target_of c u.(lu_sources) m). split; [|done].
    by exists c, u, m.
Qed.

Lemma group_completed_ids : completed_ids iid T' = ∅.
Proof using All.
  apply set_eq. intros l. rewrite elem_of_completed_ids, elem_of_empty. split; [|done].
  intros (mid & t & Ht & _ & Hp). apply group_target in Ht as (c & u & m & _ & _ & _ & -> & _). done.
Qed.

Lemma group_inv :
  intent_row_ok iid (new_intent key kind stamp b units) = true → rq_kind <$> s.(rm_requests) !! key = Some kind →
  NoDup units.*1 → (∀ c u, (c, u) ∈ units → ∃ mid t, frozen_row [(c, u)] s mid t) →
  removal_inv (set_removal_targets T' (set_removal_intents (<[iid := new_intent key kind stamp b units]> s.(rm_intents)) s)).
Proof using Hinv Hnone HT.
  intros Hok Hreq Hnd Hrows. destruct (Hinv) as [Ri Rq Ro Rt Ru Rc]. split; simpl.
  - intros jid i. rewrite lookup_insert_Some. intros [[<- <-]|[_ ?]]; [done|by apply Ri].
  - intros jid i. rewrite lookup_insert_Some. intros [[<- <-]|[_ ?]]; [done|by eapply Rq].
  - intros jid mid t [?|(mid' & [= -> ->] & _)]%HT; [|by rewrite lookup_insert_eq].
    destruct (decide (iid = jid)) as [->|?]; [by rewrite lookup_insert_eq|]. rewrite lookup_insert_ne by done. by eapply Ro.
  - intros jid mid t [?|(mid' & [= -> ->] & (_ & _ & _ & _ & _ & _ & _ & ?))]%HT; [by eapply Rt|done].
  - intros jid mid mid' t t'. destruct (decide (jid = iid)) as [->|?].
    + rewrite !group_target. by intros (? & ? & ? & _ & _ & _ & -> & _) (? & ? & ? & _ & _ & _ & -> & _).
    + rewrite !group_other by done. apply Ru.
  - intros jid i. rewrite lookup_insert_Some. intros [[<- <-]|[Hne Hi]].
    + rewrite group_logical_ids, group_completed_ids, size_list_to_set, length_fmap by done. done.
    + destruct (ids_frame jid s.(rm_targets) T') as [-> ->]; [intros mid; by apply group_other|]. by apply Rc.
Qed.
End Group.

(** ** All the groups *)

(** What [freeze] adds to the removal tables. *)
Record frozen (key : text) (kind : removal_kind) (stamp : text) (groups : Groups) s s' : Prop := {
  fr_frame : s' = set_removal_targets s'.(rm_targets) (set_removal_intents s'.(rm_intents) s);
  fr_inv : removal_inv s';
  fr_intents : s.(rm_intents) ⊆ s'.(rm_intents);
  fr_targets : s.(rm_targets) ⊆ s'.(rm_targets);
  fr_new : ∀ b units, (b, units) ∈ groups → ∃ iid,
    s'.(rm_intents) !! iid = Some (new_intent key kind stamp b units) ∧
    ∀ c u mid, (c, u) ∈ units → mid ∈ u.(lu_rows) → ∃ m,
      row_of_message mid s = Some m ∧ s'.(rm_targets) !! (iid, mid) = Some (target_of c u.(lu_sources) m);
  fr_only : ∀ iid i, s.(rm_intents) !! iid = None → s'.(rm_intents) !! iid = Some i →
    ∃ b units, (b, units) ∈ groups ∧ i = new_intent key kind stamp b units;
  fr_owned : ∀ iid mid t, is_Some (s.(rm_intents) !! iid) → s'.(rm_targets) !! (iid, mid) = Some t →
    s.(rm_targets) !! (iid, mid) = Some t }.

Lemma freeze_frozen key kind stamp uuids : ∀ groups n s s',
  removal_inv s → rq_kind <$> s.(rm_requests) !! key = Some kind →
  (∀ b units, (b, units) ∈ groups → NoDup units.*1 ∧ ∀ c u, (c, u) ∈ units → ∃ mid, mid ∈ u.(lu_rows)) →
  freeze key kind stamp uuids n groups s = Ret s' → frozen key kind stamp groups s s'.
Proof.
  induction groups as [|[[[p a] d] units] groups IH]; intros n s s' Hinv Hreq Hg Hr; simpl in Hr.
  { simplify_eq. split; try done; [by destruct s'|by intros ? ? ?%not_elem_of_nil|by intros ? ? ->]. }
  apply bind_ret_inv in Hr as (s1 & H1 & Hr). apply bind_ret_inv in Hr as (s2 & H2 & Hr).
  unfold insert_intent in H1. apply bind_ret_inv in H1 as ([] & Hq & H1). apply require_ret_inv in Hq. bools. simplify_eq.
  set (iid := uuids n) in *. destruct (rm_intents s !! iid) as [|] eqn:Hnone; [done|].
  change (mk_removal_intent key kind p a d stamp true (Z.of_nat (length units)) 0 None)
    with (new_intent key kind stamp (p, a, d) units) in *.
  pose proof (fun c u mid => insert_units_all iid units _ _ c u mid H2) as Hall.
  apply insert_units_result in H2 as (T' & -> & HT). simpl in HT.
  destruct (Hg (p, a, d) units) as [Hnd Hne]; [by left|].
  assert (removal_inv (set_removal_targets T' (set_removal_intents (<[iid := new_intent key kind stamp (p, a, d) units]> s.(rm_intents)) s))) as Hinv2.
  { apply group_inv; try done. intros c u Hu. destruct (Hne _ _ Hu) as [mid Hmid].
    destruct (Hall _ _ _ Hu Hmid) as (m & Hm & Hok). exists mid, (target_of c (lu_sources u) m), c, u, m. split_and!; try done. by left. }
  apply IH in Hr; [|done|done|intros; apply (Hg b); by right].
  destruct Hr as [Ef Ei Hi Ht Hn Ho Hw]. simpl in *.
  assert (rm_intents s ⊆ <[iid := new_intent key kind stamp (p, a, d) units]> (rm_intents s)) as Hsub by by apply insert_subseteq.
  split.
  - by rewrite Ef.
  - done.
  - by transitivity (<[iid := new_intent key kind stamp (p, a, d) units]> (rm_intents s)).
  - transitivity T'; [|done]. apply map_subseteq_spec. intros k t Hk. apply HT. by left.
  - intros b us Hin. apply elem_of_cons in Hin as [[= -> ->]|Hin]; [|by apply Hn].
    exists iid. split.
    + eapply lookup_weaken; [|done]. by rewrite lookup_insert_eq.
    + intros c u mid Hu Hmid. destruct (Hall _ _ _ Hu Hmid) as (m & Hm & Hok). exists m. split; [done|].
      eapply lookup_weaken; [|done]. apply HT. right. exists mid. split; [done|]. by exists c, u, m.
  - intros jid i Hj Hi'. destruct (decide (jid = iid)) as [->|Hne'].
    + assert (rm_intents s' !! iid = Some (new_intent key kind stamp (p, a, d) units)) as E.
      { eapply lookup_weaken; [|done]. by rewrite lookup_insert_eq. }
      simplify_eq. exists (p, a, d), units. split; [by left|done].
    + destruct (Ho jid i) as (b & us & Hin & ->); [by rewrite lookup_insert_ne|done|]. exists b, us. split; [by right|done].
  - intros jid mid t Hj Ht'. apply Hw in Ht'; [|by apply lookup_insert_is_Some'; right].
    rewrite (group_other iid units s T') in Ht'; [done|done|]. intros ->. rewrite Hnone in Hj. by destruct Hj.
Qed.

(** ** The transaction *)

(** A request that is stored for the first time, before its messages are frozen. *)
Definition request_stored (key : text) (kind : removal_kind) (fingerprint stamp : text) s : removal_store :=
  set_removal_requests (<[key := mk_removal_request kind fingerprint stamp]> s.(rm_requests)) s.

Lemma request_stored_inv key kind fingerprint stamp s :
  s.(rm_requests) !! key = None → removal_inv s → removal_inv (request_stored key kind fingerprint stamp s).
Proof.
  intros Hn [Ri Rq Ro Rt Ru Rc]. split; try done. simpl. intros iid i Hi. specialize (Rq _ _ Hi).
  rewrite lookup_insert_ne; [done|]. intros E. by rewrite <- E, Hn in Rq.
Qed.

(** How [_accept_in_transaction] stores a new request. *)
Record accepted (key : text) (kind : removal_kind) (fingerprint stamp : text) (ids : list text) s s' : Prop := {
  ac_new : s.(rm_requests) !! key = None;
  ac_request : s'.(rm_requests) = <[key := mk_removal_request kind fingerprint stamp]> s.(rm_requests);
  ac_frozen : ∃ s1, frozen key kind stamp (removal_groups ids (request_stored key kind fingerprint stamp s))
                      (request_stored key kind fingerprint stamp s) s1 ∧ s' = set_work s'.(rm_queue) s'.(rm_runs) s1 }.

Lemma outcome_inv key kind fingerprint s o : outcome key (Some kind) (Some fingerprint) s = Ret o →
  match s.(rm_requests) !! key with
  | None => o = None
  | Some r => r.(rq_kind) = kind ∧ r.(rq_parameters_sha256) = fingerprint ∧ o = Some (receipt key kind s)
  end.
Proof. unfold outcome. destruct (rm_requests s !! key); intros; peel; bools; subst; done. Qed.

Lemma removal_groups_units ids s b units : (b, units) ∈ removal_groups ids s →
  NoDup units.*1 ∧ ∀ c u, (c, u) ∈ units → ∃ mid, mid ∈ u.(lu_rows).
Proof.
  intros Hin. destruct (gr_units _ _ (removal_groups_ok ids s) _ _ Hin) as (_ & Hnd & Hu). split; [done|].
  intros c u (id & m & Hm & Hl & _)%Hu. exists id. by destruct (logical_unit_rows _ _ _ _ Hm Hl).
Qed.

Lemma accept_inv key kind parameters mids now supplies s o fresh s' :
  removal_inv s → _accept_in_transaction key kind parameters mids now supplies s = Ret (o, fresh, s') →
  ∃ k fingerprint, request_hash kind parameters = Ret (k, fingerprint) ∧ o = receipt key k s' ∧
    if fresh then ∃ ids, validate_key s.(rm_signing_key) key k fingerprint now = Ret tt ∧
                         requested_messages k parameters mids s = Ret ids ∧
                         accepted key k fingerprint (isoformat (utc now)) ids s s'
    else s' = s ∧ ∃ r, s.(rm_requests) !! key = Some r ∧ r.(rq_kind) = k ∧ r.(rq_parameters_sha256) = fingerprint.
Proof.
  intros Hinv. unfold _accept_in_transaction. intros Hr. apply bind_ret_inv in Hr as ([k fp] & Hh & Hr). lazy beta iota in Hr.
  apply bind_ret_inv in Hr as (prev & Hp & Hr). apply outcome_inv in Hp. exists k, fp. split; [done|].
  destruct (rm_requests s !! key) as [r|] eqn:Er.
  { destruct Hp as (? & ? & ->). simplify_eq. eauto 10. }
  subst prev. apply bind_ret_inv in Hr as ([] & Hv & Hr). apply bind_ret_inv in Hr as (ids & Hids & Hr). lazy zeta in Hr.
  apply bind_ret_inv in Hr as (s1 & Hf & Hr). apply bind_ret_inv in Hr as (s2 & Hw & Hr). simplify_eq. split; [done|].
  exists ids. split; [done|]. split; [done|].
  fold (request_stored key k fp (isoformat (utc now)) s) in Hf.
  apply freeze_frozen in Hf; [|by apply request_stored_inv|by simpl; rewrite lookup_insert_eq|by intros ? ? ?%removal_groups_units].
  unfold withdraw_work in Hw. apply bind_ret_inv in Hw as ([d n] & _ & Hw). simplify_eq. simpl. split; simpl; [done| |by exists s1].
  by rewrite (fr_frame _ _ _ _ _ _ Hf).
Qed.

Lemma accepted_inv key kind fingerprint stamp ids s s' : accepted key kind fingerprint stamp ids s s' → removal_inv s'.
Proof. intros [_ _ (s1 & Hf & ->)]. eapply same_removals_inv; [|apply (fr_inv _ _ _ _ _ _ Hf)]. done. Qed.

(** ** Withholding *)

(** An open target withholds its message; an unfollowed one only its content. *)
Lemma pending_withholds s iid mid t i m (eligibility : bool) :
  s.(rm_targets) !! (iid, mid) = Some t → s.(rm_intents) !! iid = Some i → t.(tg_pending) = true → i.(ix_pending) = true →
  row_of_message mid s = Some m → t.(tg_provider) = m.(ms_provider) → t.(tg_account_id) = m.(ms_account_id) →
  t.(tg_stored_identity_key) = m.(ms_mailbox_identity_key) → t.(tg_provider_message_id) = m.(ms_provider_message_id) →
  eligibility = CONTENT ∨ i.(ix_kind) ≠ KUnfollow →
  message_available (tables s) eligibility mid = false.
Proof.
  intros Ht Hi Hp Hip Hm E1 E2 E3 E4 Hk. unfold message_available. simpl. unfold row_of_message, message_in in Hm. rewrite Hm. simpl.
  unfold available. apply negb_false_iff, existsb_exists. exists (target_view (iid, mid, t)). split.
  { apply list_elem_of_In, list_elem_of_fmap_2. by apply elem_of_map_to_list. }
  apply existsb_exists. exists (intent_view (iid, i)). split.
  { apply filter_In. split; [|by apply bool_decide_eq_true_2]. apply list_elem_of_In, list_elem_of_fmap_2.
    by apply elem_of_map_to_list. }
  unfold target_matches. simpl. rewrite Hp, Hip, E1, E2, E3, E4.
  apply row_of_message_elem in Hm as [_ ->]. unfold sql_is.
  rewrite (bool_decide_eq_true_2 (ms_provider m = ms_provider m)), (bool_decide_eq_true_2 (ms_account_id m = ms_account_id m)),
    (bool_decide_eq_true_2 (mid = mid)), (bool_decide_eq_true_2 (ms_mailbox_identity_key m = ms_mailbox_identity_key m)),
    (bool_decide_eq_true_2 (ms_provider_message_id m = ms_provider_message_id m)) by done.
  destruct Hk as [->|Hk]; [done|]. rewrite bool_decide_eq_false_2 by done. by rewrite orb_true_r.
Qed.

(** Every row of a logical message that is frozen is withheld. *)
Lemma accepted_withheld key kind fingerprint stamp ids s s' id m mid m' eligibility :
  accepted key kind fingerprint stamp ids s s' →
  (∀ x, x ∈ s.(rm_messages) → x.(ms_logical_of) ≠ Some []) →
  id ∈ ids → row_of_message id s = Some m → row_of_message mid s = Some m' → canonical_id m' = canonical_id m →
  eligibility = CONTENT ∨ kind ≠ KUnfollow →
  message_available (tables s') eligibility mid = false.
Proof.
  intros [_ _ (s1 & Hf & ->)] Hl Hid Hm Hm' Ec Hk. set (s0 := request_stored key kind fingerprint stamp s) in *.
  assert (∀ x, x ∈ s.(rm_messages) → frozen_canonical x = canonical_id x) as Hfc.
  { intros x Hx. unfold frozen_canonical, canonical_id. specialize (Hl _ Hx). destruct (ms_logical_of x) as [[|c l]|]; done. }
  destruct (removal_groups_complete ids s0 id m Hid Hm) as (units & u & Hg & Hu).
  destruct (fr_new _ _ _ _ _ _ Hf _ _ Hg) as (iid & Hi & Hrows).
  destruct (gr_units _ _ (removal_groups_ok ids s0) _ _ Hg) as (_ & _ & Hunits).
  destruct (Hunits _ _ Hu) as (id2 & m2 & Hm2 & Hu2 & _ & Ec2).
  destruct (row_of_message_elem _ _ _ Hm) as [Hin _]. destruct (row_of_message_elem _ _ _ Hm2) as [Hin2 _].
  destruct (row_of_message_elem _ _ _ Hm') as [Hin' Eid].
  rewrite !Hfc in Ec2 by done.
  assert (mid ∈ lu_rows u) as Hmid.
  { destruct (logical_unit_rows _ _ _ _ Hm2 Hu2) as [-> _]. apply list_elem_of_fmap. exists m'. split; [done|].
    apply unit_members_elem. split; [done|]. rewrite <- Ec2, <- Ec. unfold canonical_id.
    destruct (ms_logical_of m'); [by right|by left]. }
  destruct (Hrows _ _ _ Hu Hmid) as (m3 & Hm3 & Ht).
  assert (m3 = m') as -> by (unfold row_of_message in *; simpl in Hm3; congruence).
  change (message_available (tables s1) eligibility mid = false).
  eapply pending_withholds; [exact Ht|exact Hi|done|done| |done|done|done|done|done].
  rewrite (fr_frame _ _ _ _ _ _ Hf). done.
Qed.
