(* ===== verification/RemovalSteps.v ===== *)
(** * Completion and retirement of removal requests *)

From S2P Require Export RemovalAccept.
From S2P Require Import RuleTheorems GmailCodec.
From stdpp Require Import options.

Local Open Scope Z_scope.

Implicit Types s : removal_store.
Implicit Types T : gmap (text * text) RemovalTarget.

(** ** Suppression *)

(** The place of a source in [suppressed_messages]. *)
Definition suppressed (x : FrozenSource) s : Prop :=
  ∃ key, message_suppression_key x.(fz_identity).(si_provider) x.(fz_identity).(si_account_id)
           x.(fz_identity).(si_provider_message_id) x.(fz_identity).(si_mailbox_identity_key) = Some key ∧
         is_Some (s.(rm_suppressed) !! (x.(fz_identity).(si_provider), x.(fz_identity).(si_account_id), key)).

(** Only the suppression table grows. *)
Definition suppresses s s' : Prop :=
  s' = set_suppressed s'.(rm_suppressed) s ∧ ∀ k, is_Some (s.(rm_suppressed) !! k) → is_Some (s'.(rm_suppressed) !! k).

Lemma suppresses_refl s : suppresses s s.
Proof. split; [by destruct s|done]. Qed.

Lemma suppresses_trans s s1 s2 : suppresses s s1 → suppresses s1 s2 → suppresses s s2.
Proof. intros [E1 H1] [E2 H2]. split; [by rewrite E2, E1|]. auto. Qed.

Lemma suppressed_keep s s' x : suppresses s s' → suppressed x s → suppressed x s'.
Proof. intros [_ Hs] (key & E & Hk). exists key. auto. Qed.

Lemma suppress_inv now s x s' : suppress now s x = Ret s' → suppresses s s' ∧ suppressed x s'.
Proof.
  unfold suppress. intros Hr. apply bind_ret_inv in Hr as (key & Hk%require_some_ret_inv & Hr).
  apply bind_ret_inv in Hr as (e & _ & Hr). simplify_eq. split.
  - split; [done|]. simpl. intros k Hs. by apply lookup_insert_is_Some'; right.
  - exists key. split; [done|]. simpl. by rewrite lookup_insert_eq.
Qed.

Lemma suppress_all_inv now l : ∀ s s', foldl_py (suppress now) l s = Ret s' →
  suppresses s s' ∧ ∀ x, x ∈ l → suppressed x s'.
Proof.
  induction l as [|y l IH]; intros s s' Hr; simpl in Hr.
  { simplify_eq. split; [apply suppresses_refl|]. by intros x ?%not_elem_of_nil. }
  apply bind_ret_inv in Hr as (s1 & [H1 Hy]%suppress_inv & [H2 Hl]%IH). split; [by eapply suppresses_trans|].
  intros x [->|?]%elem_of_cons; [by eapply suppressed_keep|auto].
Qed.

Lemma suppress_lists_inv now ls : ∀ s s', foldl_py (fun s frozen => foldl_py (suppress now) frozen s) ls s = Ret s' →
  suppresses s s' ∧ ∀ l x, l ∈ ls → x ∈ l → suppressed x s'.
Proof.
  induction ls as [|y l IH]; intros s s' Hr; simpl in Hr.
  { simplify_eq. split; [apply suppresses_refl|]. by intros ? ? ?%not_elem_of_nil. }
  apply bind_ret_inv in Hr as (s1 & [H1 Hy]%suppress_all_inv & [H2 Hl]%IH). split; [by eapply suppresses_trans|].
  intros l' x [->|?]%elem_of_cons Hx; [eapply suppressed_keep; eauto|eauto].
Qed.

Lemma suppress_unit_inv kind targets now s s' : suppress_unit kind targets now s = Ret s' →
  suppresses s s' ∧ (kind ≠ KUnfollow → ∀ e x, e ∈ targets → x ∈ e.2.(tg_sources) → suppressed x s').
Proof.
  unfold suppress_unit. intros Hr. destruct kind; [| |simplify_eq; split; [apply suppresses_refl|done]];
    apply suppress_lists_inv in Hr as [Hs Hx]; (split; [done|]); intros _ e x He Hin; eapply Hx;
    [apply elem_of_remove_dups, list_elem_of_fmap; by exists e|done|apply elem_of_remove_dups, list_elem_of_fmap; by exists e|done].
Qed.

(** ** Removal of the rows *)

(** The removal tables and the suppressions stay, rows only go. *)
Record clears s s' : Prop := {
  cl_same : same_removals s s';
  cl_key : s'.(rm_signing_key) = s.(rm_signing_key);
  cl_suppressed : s'.(rm_suppressed) = s.(rm_suppressed);
  cl_messages : ∀ m, m ∈ s'.(rm_messages) → m ∈ s.(rm_messages);
  cl_bodies : ∀ mid, s.(rm_bodies).(bt_bodies) !! mid = None → s'.(rm_bodies).(bt_bodies) !! mid = None;
  cl_unavailable : ∀ mid, s.(rm_bodies).(bt_unavailable) !! mid = None → s'.(rm_bodies).(bt_unavailable) !! mid = None }.

Lemma clears_refl s : clears s s.
Proof. by split. Qed.

Lemma clears_trans s s1 s2 : clears s s1 → clears s1 s2 → clears s s2.
Proof.
  intros [(A1 & A2 & A3) ?????] [(B1 & B2 & B3) ?????]. split; [split_and!|..]; try congruence; auto.
Qed.

Lemma without_rows_none {A} (ids : list text) (m : gmap text A) (mid : text) : mid ∈ ids ∨ m !! mid = None → without_rows ids m !! mid = None.
Proof.
  unfold without_rows. induction ids as [|x ids IH]; simpl; [by intros [?%not_elem_of_nil|]|].
  intros Hm. apply lookup_delete_None. rewrite elem_of_cons in Hm. destruct (decide (x = mid)); [by left|]. right. apply IH.
  naive_solver.
Qed.

Lemma deleted_with_self fuel (ids : list text) messages id : id ∈ ids → id ∈ deleted_with fuel ids messages.
Proof.
  destruct fuel; simpl; [done|]. intros Hin. destruct (List.filter _ _); [done|]. apply elem_of_app. by left.
Qed.

Lemma delete_message_row_clears id n1 n2 s : clears s (delete_message_row id n1 n2 s).
Proof.
  unfold delete_message_row. destruct (row_of_message id s); [|apply clears_refl]. split; try done; simpl.
  - intros m1 [Hin _]%elem_of_filter_b. done.
  - intros mid Hn. apply without_rows_none. by right.
  - intros mid Hn. apply without_rows_none. by right.
Qed.

Lemma delete_message_row_gone id n1 n2 s m : m ∈ (delete_message_row id n1 n2 s).(rm_messages) → m.(ms_message_id) ≠ id.
Proof.
  unfold delete_message_row. destruct (row_of_message id s) as [r|] eqn:E.
  - simpl. intros [_ Hb]%elem_of_filter_b <-. bools. by apply Hb, deleted_with_self, list_elem_of_singleton.
  - intros Hin Ei. unfold row_of_message in E. eapply List.find_none in E; [|by apply list_elem_of_In].
    by rewrite bool_decide_eq_true_2 in E.
Qed.

(** The frozen row is not stored any more, or its content is gone. *)
Definition removed (kind : removal_kind) (e : text * RemovalTarget) s : Prop :=
  match kind with
  | KUnfollow => target_row e.1 e.2 s = None ∨
                 s.(rm_bodies).(bt_bodies) !! e.1 = None ∧ s.(rm_bodies).(bt_unavailable) !! e.1 = None
  | _ => target_row e.1 e.2 s = None
  end.

Lemma target_row_some mid t s m : target_row mid t s = Some m → m ∈ s.(rm_messages) ∧ m.(ms_message_id) = mid.
Proof. unfold target_row. intros [Hin E]%List.find_some. bools. split; [by apply list_elem_of_In|done]. Qed.

Lemma target_row_keep mid t s s' : (∀ m, m ∈ s'.(rm_messages) → m ∈ s.(rm_messages)) →
  target_row mid t s = None → target_row mid t s' = None.
Proof.
  unfold target_row. intros Hm Hn. destruct (List.find _ (rm_messages s')) as [m|] eqn:E; [|done].
  apply List.find_some in E as [Hin E]. eapply List.find_none in Hn; [|apply list_elem_of_In, Hm, list_elem_of_In; exact Hin]. congruence.
Qed.

Lemma removed_shrink kind e s s' : (∀ m, m ∈ s'.(rm_messages) → m ∈ s.(rm_messages)) →
  (∀ mid, s.(rm_bodies).(bt_bodies) !! mid = None → s'.(rm_bodies).(bt_bodies) !! mid = None) →
  (∀ mid, s.(rm_bodies).(bt_unavailable) !! mid = None → s'.(rm_bodies).(bt_unavailable) !! mid = None) →
  removed kind e s → removed kind e s'.
Proof.
  intros Hm Hb Hu. destruct kind; simpl; try (by apply target_row_keep).
  intros [?|[? ?]]; [left; by eapply target_row_keep|right]. auto.
Qed.

Lemma removed_keep kind e s s' : clears s s' → removed kind e s → removed kind e s'.
Proof. intros []. by apply removed_shrink. Qed.

Lemma remove_target_clears kind n1 n2 s e : clears s (remove_target kind n1 n2 s e) ∧ removed kind e (remove_target kind n1 n2 s e).
Proof.
  unfold remove_target. destruct (target_row e.1 e.2 s) as [m|] eqn:E.
  2: { split; [apply clears_refl|]. destruct kind; simpl; auto. }
  destruct (target_row_some _ _ _ _ E) as [_ Eid].
  assert (removed KDelete e (delete_message_row m.(ms_message_id) n1 n2 s)) as Hd.
  { simpl. destruct (target_row e.1 e.2 (delete_message_row _ _ _ _)) as [m'|] eqn:E'; [|done].
    destruct (target_row_some _ _ _ _ E') as [Hin E2]. apply delete_message_row_gone in Hin. congruence. }
  destruct kind; [by split; [apply delete_message_row_clears|]..|].
  split; [split; try done; simpl; intros mid Hn; apply lookup_delete_None; by right|].
  simpl. right. rewrite Eid. by rewrite !lookup_delete_eq.
Qed.

Lemma remove_targets_clears kind n1 n2 targets : ∀ s, 
  clears s (foldl (remove_target kind n1 n2) s targets) ∧
  ∀ e, e ∈ targets → removed kind e (foldl (remove_target kind n1 n2) s targets).
Proof.
  induction targets as [|y l IH]; intros s; simpl; [split; [apply clears_refl|]; by intros ? ?%not_elem_of_nil|].
  destruct (remove_target_clears kind n1 n2 s y) as [Hc Hy]. destruct (IH (remove_target kind n1 n2 s y)) as [Hc2 Hl].
  split; [by eapply clears_trans|]. intros e [->|?]%elem_of_cons; [by eapply removed_keep|auto].
Qed.

(** ** One unit *)

Lemma unit_targets_elem iid lid s mid t : (mid, t) ∈ unit_targets iid lid s ↔
  s.(rm_targets) !! (iid, mid) = Some t ∧ t.(tg_logical_id) = lid ∧ t.(tg_pending) = true.
Proof.
  unfold unit_targets. rewrite list_elem_of_fmap. split.
  - intros ([[i mid'] t'] & [= -> ->] & [Hin Hb]%elem_of_filter_b). simpl in Hb. bools. apply elem_of_map_to_list in Hin. by subst.
  - intros (Ht & El & Hp). exists (iid, mid, t). split; [done|]. apply elem_of_filter_b. rewrite elem_of_map_to_list. split; [done|].
    simpl. by rewrite !bool_decide_eq_true_2, Hp.
Qed.

(** The targets after a unit is settled. *)
Definition settled_targets (iid lid stamp : text) T : gmap (text * text) RemovalTarget :=
  map_imap (fun k t => Some (settle iid lid stamp k t)) T.

(** The intent after one of its units is settled. *)
Definition progressed (i : RemovalIntent) (completed : Z) (stamp : text) : RemovalIntent :=
  mk_removal_intent i.(ix_request_id) i.(ix_kind) i.(ix_provider) i.(ix_account_id) i.(ix_mailbox_identity_key)
    i.(ix_accepted_at) (negb (completed =? i.(ix_requested))) i.(ix_requested) completed
    (if completed =? i.(ix_requested) then Some stamp else None).

Record unit_done (now : Z) (iid lid : text) (i : RemovalIntent) s s' : Prop := {
  ud_intent : s.(rm_intents) !! iid = Some i;
  ud_requests : s'.(rm_requests) = s.(rm_requests);
  ud_key : s'.(rm_signing_key) = s.(rm_signing_key);
  ud_targets : s'.(rm_targets) = settled_targets iid lid (isoformat (utc now)) s.(rm_targets);
  ud_intents : s'.(rm_intents) = <[iid := progressed i (Z.of_nat (size (completed_ids iid s'.(rm_targets)))) (isoformat (utc now))]> s.(rm_intents);
  ud_row : intent_row_ok iid (progressed i (Z.of_nat (size (completed_ids iid s'.(rm_targets)))) (isoformat (utc now))) = true;
  ud_suppressed : i.(ix_kind) ≠ KUnfollow → ∀ e x, e ∈ unit_targets iid lid s → x ∈ e.2.(tg_sources) → suppressed x s';
  ud_kept : ∀ k, is_Some (s.(rm_suppressed) !! k) → is_Some (s'.(rm_suppressed) !! k);
  ud_removed : ∀ e, e ∈ unit_targets iid lid s → removed i.(ix_kind) e s';
  ud_messages : ∀ m, m ∈ s'.(rm_messages) → m ∈ s.(rm_messages) }.

(** The work that is over is dropped after the rows. *)
Definition after_rows (kind : removal_kind) (stamp : text) s : removal_store :=
  match kind with
  | KUnfollow => s
  | _ => set_work s.(rm_queue) (purge_expired_automation_tombstones s.(rm_runs) stamp) s
  end.

Lemma after_rows_clears kind stamp s : clears s (after_rows kind stamp s).
Proof. destruct kind; by split. Qed.

Lemma complete_unit_inv now n1 n2 s iid lid s' : complete_unit now n1 n2 s (iid, lid) = Ret s' →
  (unit_targets iid lid s = [] ∧ s' = s) ∨ ∃ i, unit_done now iid lid i s s'.
Proof.
  unfold complete_unit. destruct (unit_targets iid lid s) as [|e0 l0] eqn:Eu; [intros [= <-]; by left|]. intros Hr. right.
  rewrite <- Eu in Hr. clear e0 l0 Eu.
  apply bind_ret_inv in Hr as (i & Hi%require_some_ret_inv & Hr). exists i.
  apply bind_ret_inv in Hr as (s1 & [[Es Hk] Hs]%suppress_unit_inv & Hr). lazy zeta in Hr.
  set (stamp := isoformat (utc now)) in *.
  fold (after_rows i.(ix_kind) stamp (foldl (remove_target i.(ix_kind) n1 n2) s1 (unit_targets iid lid s))) in Hr.
  destruct (remove_targets_clears i.(ix_kind) n1 n2 (unit_targets iid lid s) s1) as [Hc Hrm].
  set (s2 := foldl _ _ _) in *. pose proof (after_rows_clears i.(ix_kind) stamp s2) as Hc2.
  set (s3 := after_rows _ _ _) in *.
  assert (clears s1 s3) as Hc3 by by eapply clears_trans.
  destruct Hc3 as [(E1 & E2 & E3) Ek Esu Hm Hb Hn]. rewrite Es in E1, E2, E3, Ek, Hm. simpl in E1, E2, E3, Ek, Hm.
  rewrite completed_units_size in Hr. simpl in Hr. rewrite E3, E2 in Hr.
  fold (settled_targets iid lid stamp (rm_targets s)) in Hr.
  match type of Hr with context [completed_ids iid ?t] => fold (progressed i (Z.of_nat (size (completed_ids iid t))) stamp) in Hr end.
  apply bind_ret_inv in Hr as ([] & Hok%require_ret_inv & Hr). simplify_eq. split; simpl; try done; fold stamp.
  - intros Hkind e x He Hx. destruct (Hs Hkind e x He Hx) as (key & Ekey & Hin). exists key. split; [done|]. simpl.
    rewrite Esu. done.
  - intros k Hkk. rewrite Esu. auto.
  - intros e He. destruct Hc2. apply (removed_shrink _ _ s2); [done..|by apply Hrm].
Qed.

(** ** Settlement *)

Lemma settled_lookup iid lid stamp T jid mid t : settled_targets iid lid stamp T !! (jid, mid) = Some t ↔
  ∃ t0, T !! (jid, mid) = Some t0 ∧ t = settle iid lid stamp (jid, mid) t0.
Proof.
  unfold settled_targets. rewrite map_lookup_imap. destruct (T !! (jid, mid)) as [t0|]; simpl; [|naive_solver].
  split; [intros [= <-]; eauto|intros (? & [= <-] & ->); done].
Qed.

Lemma settle_logical iid lid stamp k t : (settle iid lid stamp k t).(tg_logical_id) = t.(tg_logical_id).
Proof. unfold settle. by destruct (_ && _). Qed.

Lemma settle_other iid lid stamp jid mid t : jid ≠ iid → settle iid lid stamp (jid, mid) t = t.
Proof. intros Hne. unfold settle. simpl. by rewrite bool_decide_eq_false_2. Qed.

(** A settled row stays settled, and the pending ones of the unit are settled. *)
Lemma settle_pending iid lid stamp jid mid t : (settle iid lid stamp (jid, mid) t).(tg_pending) =
  t.(tg_pending) && negb (bool_decide (jid = iid) && bool_decide (t.(tg_logical_id) = lid)).
Proof.
  unfold settle. simpl. destruct (bool_decide (jid = iid)), (bool_decide (tg_logical_id t = lid)), (tg_pending t) eqn:E; simpl; done.
Qed.

Lemma settled_other iid lid stamp T jid mid : jid ≠ iid → settled_targets iid lid stamp T !! (jid, mid) = T !! (jid, mid).
Proof.
  intros Hne. apply option_eq. intros t. rewrite settled_lookup. split; [intros (t0 & ? & ->); by rewrite settle_other|].
  intros Ht. exists t. by rewrite settle_other.
Qed.

Lemma settled_logical_ids iid lid stamp T jid : logical_ids jid (settled_targets iid lid stamp T) = logical_ids jid T.
Proof.
  apply set_eq. intros l. rewrite !elem_of_logical_ids. setoid_rewrite settled_lookup. split.
  - intros (mid & t & (t0 & Ht & ->) & <-). rewrite settle_logical. eauto.
  - intros (mid & t & Ht & <-). eexists mid, _. split; [by exists t|]. apply settle_logical.
Qed.

Lemma settled_completed_ids iid lid stamp T jid : completed_ids jid T ⊆ completed_ids jid (settled_targets iid lid stamp T).
Proof.
  intros l. rewrite !elem_of_completed_ids. intros (mid & t & Ht & <- & Hp).
  exists mid, (settle iid lid stamp (jid, mid) t). rewrite settled_lookup, settle_logical, settle_pending, Hp. eauto.
Qed.

Lemma unit_done_inv now iid lid i s s' : unit_done now iid lid i s s' → removal_inv s → removal_inv s'.
Proof.
  intros [Hi Eq _ ET EI Hok _ _ _ _] [Ri Rq Ro Rt Ru Rc]. split; rewrite ?Eq.
  - rewrite EI. intros jid j. rewrite lookup_insert_Some. intros [[<- <-]|[_ ?]]; [done|by apply Ri].
  - rewrite EI. intros jid j. rewrite lookup_insert_Some. intros [[<- <-]|[_ ?]]; [exact (Rq _ _ Hi)|by eapply Rq].
  - rewrite EI, ET. intros jid mid t (t0 & Ht & _)%settled_lookup. apply Ro in Ht. by apply lookup_insert_is_Some'; right.
  - rewrite ET. intros jid mid t (t0 & Ht & ->)%settled_lookup. apply Rt in Ht. unfold target_row_ok in *. unfold settle.
    destruct (_ && tg_pending t0); [|done]. apply andb_prop in Ht as [Ht _]. simpl. by rewrite Ht.
  - rewrite ET. intros jid mid mid' t t' (t0 & Ht & ->)%settled_lookup (t0' & Ht' & ->)%settled_lookup.
    rewrite !settle_logical, !settle_pending. intros El. by rewrite (Ru _ _ _ _ _ Ht Ht' El), El.
  - intros jid j. rewrite EI, lookup_insert_Some. intros [[<- <-]|[Hne Hj]].
    + simpl. split; [|done]. rewrite ET, settled_logical_ids. by apply Rc.
    + rewrite ET. destruct (ids_frame jid s.(rm_targets) (settled_targets iid lid (isoformat (utc now)) s.(rm_targets))) as [-> ->];
        [intros mid; by apply settled_other|]. by apply Rc.
Qed.

(** * The life of removal requests

    Retirement, the steps that change the removal tables, the invariant in every reachable
    store, and the progress of receipts. *)

(** ** Retirement *)

Lemma request_intents_elem key s iid i : (iid, i) ∈ request_intents key s ↔
  s.(rm_intents) !! iid = Some i ∧ i.(ix_request_id) = key.
Proof.
  unfold request_intents. rewrite sort_by_perm, elem_of_filter_b, elem_of_map_to_list, bool_decide_eq_true. done.
Qed.

(** What is left when the request of a key is gone. *)
Record retired (key : text) s s' : Prop := {
  re_requests : s'.(rm_requests) = delete key s.(rm_requests);
  re_intents : ∀ iid i, s'.(rm_intents) !! iid = Some i ↔ s.(rm_intents) !! iid = Some i ∧ i.(ix_request_id) ≠ key;
  re_targets : ∀ iid mid t, s'.(rm_targets) !! (iid, mid) = Some t ↔
    s.(rm_targets) !! (iid, mid) = Some t ∧ ∀ i, s.(rm_intents) !! iid = Some i → i.(ix_request_id) ≠ key;
  re_frame : s' = set_removal_requests s'.(rm_requests) (set_removal_targets s'.(rm_targets) (set_removal_intents s'.(rm_intents) s)) }.

(** What retirement has checked: the key is past its expiry, and the request and each of its
    intents, all completed, are not younger than the cutoff. *)
Record retirable (cutoff now : Z) (key : text) (r : RemovalRequest) s : Prop := {
  rb_expiry : ∃ expiry, _parse_key s.(rm_signing_key) key r.(rq_kind) r.(rq_parameters_sha256) = Ret expiry ∧
    number_leb (inl expiry) (inr (timestamp now)) = true;
  rb_accepted : after_cutoff r.(rq_accepted_at) cutoff = Ret false;
  rb_settled : ∀ iid i, s.(rm_intents) !! iid = Some i → i.(ix_request_id) = key → i.(ix_pending) = false ∧
    ∃ settled_at, i.(ix_settled_at) = Some settled_at ∧ after_cutoff settled_at cutoff = Ret false }.

Lemma any_py_false {A} (f : A → py bool) l : any_py f l = Ret false → ∀ x, x ∈ l → f x = Ret false.
Proof.
  induction l as [|y l IH]; simpl; [by intros _ x ?%not_elem_of_nil|]. intros Hr x.
  apply bind_ret_inv in Hr as ([] & Hy & Hr); [done|]. intros [->|?]%elem_of_cons; auto.
Qed.

Lemma keeps_request_false cutoff i : keeps_request cutoff i = Ret false →
  i.(ix_pending) = false ∧ ∃ st, i.(ix_settled_at) = Some st ∧ after_cutoff st cutoff = Ret false.
Proof.
  unfold keeps_request. destruct (ix_pending i); [done|]. intros Hr. apply bind_ret_inv in Hr as (st & Hst%require_some_ret_inv & Hr). eauto.
Qed.

Lemma retire_request_inv cutoff now s key r s' : retire_request cutoff now s (key, r) = Ret s' →
  s' = s ∨ retired key s s' ∧ retirable cutoff now key r s.
Proof.
  unfold retire_request. intros Hr. apply bind_ret_inv in Hr as (expiry & He & Hr).
  destruct (number_leb _ _) eqn:El; simpl in Hr; [|simplify_eq; by left].
  apply bind_ret_inv in Hr as ([] & Hk & Hr); [simplify_eq; by left|]. simplify_eq. right.
  unfold request_kept in Hk. apply bind_ret_inv in Hk as ([] & Ha & Hk); [done|]. split.
  - assert (∀ iid, iid ∉ (request_intents key s).*1 ↔ ∀ i, s.(rm_intents) !! iid = Some i → i.(ix_request_id) ≠ key) as Hd.
    { intros iid. rewrite list_elem_of_fmap. split.
      - intros Hn i Hi Ei. apply Hn. exists (iid, i). by rewrite request_intents_elem.
      - intros Hn ([iid' i] & -> & [Hi Ei]%request_intents_elem). by eapply Hn. }
    split; simpl; [done| | |done].
    + intros iid i. unfold without_rows. rewrite lookup_foldr_delete_Some, Hd. naive_solver.
    + intros iid mid t. rewrite map_lookup_filter_Some. simpl. by rewrite Hd.
  - split; [eauto|done|]. intros iid i Hi Ei. apply keeps_request_false. eapply any_py_false; [exact Hk|].
    apply list_elem_of_fmap. exists (iid, i). by rewrite request_intents_elem.
Qed.

Lemma retired_inv key s s' : retired key s s' → removal_inv s → removal_inv s'.
Proof.
  intros [Eq Ei Et _] [Ri Rq Ro Rt Ru Rc].
  assert (∀ iid i, s'.(rm_intents) !! iid = Some i → ∀ mid, s'.(rm_targets) !! (iid, mid) = s.(rm_targets) !! (iid, mid)) as Hsame.
  { intros iid i [Hi Hne]%Ei mid. apply option_eq. intros t. rewrite Et. split; [tauto|]. intros Ht. split; [done|].
    intros j Hj. by simplify_eq. }
  split.
  - intros iid i [Hi _]%Ei. by apply Ri.
  - intros iid i [Hi Hne]%Ei. rewrite Eq, lookup_delete_ne by done. by eapply Rq.
  - intros iid mid t [Ht Hne]%Et. destruct (Ro _ _ _ Ht) as [i Hi]. exists i. apply Ei. auto.
  - intros iid mid t [Ht _]%Et. by eapply Rt.
  - intros iid mid mid' t t' [Ht _]%Et [Ht' _]%Et. by eapply Ru.
  - intros iid i Hi. destruct (ids_frame iid s.(rm_targets) s'.(rm_targets)) as [-> ->]; [by eapply Hsame|].
    apply Rc. by apply Ei.
Qed.

(** ** Steps *)

(** An acceptance, the completion of a unit, the retirement of a request, or a write to
    other tables. *)
Inductive removal_step s s' : Prop :=
| removal_accept key kind parameters mids now supplies o fresh :
    _accept_in_transaction key kind parameters mids now supplies s = Ret (o, fresh, s') → removal_step s s'
| removal_complete now n1 n2 unit :
    complete_unit now n1 n2 s unit = Ret s' → removal_step s s'
| removal_retire cutoff now key r :
    s.(rm_requests) !! key = Some r → retire_request cutoff now s (key, r) = Ret s' → removal_step s s'
| removal_other :
    same_removals s s' → removal_step s s'.

Inductive removal_reachable : removal_store → Prop :=
| removal_initial s : s.(rm_requests) = ∅ → s.(rm_intents) = ∅ → s.(rm_targets) = ∅ → removal_reachable s
| removal_next s s' : removal_reachable s → removal_step s s' → removal_reachable s'.

Lemma removal_step_inv s s' : removal_step s s' → removal_inv s → removal_inv s'.
Proof.
  intros [key kind parameters mids now supplies o fresh Ha|now n1 n2 [iid lid] Hc|cutoff now key r _ Hr|Hs] Hinv.
  - apply accept_inv in Ha as (k & fp & _ & _ & Hf); [|done]. destruct fresh.
    + destruct Hf as (ids & _ & _ & Hacc). by eapply accepted_inv.
    + by destruct Hf as [-> _].
  - apply complete_unit_inv in Hc as [[_ ->]|[i Hd]]; [done|by eapply unit_done_inv].
  - apply retire_request_inv in Hr as [->|[Hr _]]; [done|by eapply retired_inv].
  - by eapply same_removals_inv.
Qed.

Lemma removal_reachable_inv s : removal_reachable s → removal_inv s.
Proof.
  induction 1 as [s E1 E2 E3|s s' _ IH Hs]; [|by eapply removal_step_inv].
  split; rewrite ?E1, ?E2, ?E3; by intros *; rewrite ?lookup_empty.
Qed.

(** ** Receipts *)

(** A later receipt of the same request: nothing is added, completions are not taken back. *)
Record receipt_grows (o o' : Outcome) : Prop := {
  rg_request : o'.(oc_request_id) = o.(oc_request_id);
  rg_kind : o'.(oc_kind) = o.(oc_kind);
  rg_intents : o'.(oc_intent_ids) ≡ₚ o.(oc_intent_ids);
  rg_requested : o'.(oc_requested) = o.(oc_requested);
  rg_completed : o.(oc_completed) <= o'.(oc_completed) }.

Global Instance receipt_grows_preorder : PreOrder receipt_grows.
Proof.
  split; [split; done|]. intros o1 o2 o3 [? ? E1 ? ?] [? ? E2 ? ?]. split; try congruence; [by rewrite E2, E1|lia].
Qed.

Lemma total_perm (l l' : list Z) : l ≡ₚ l' → RemovalOps.total l = RemovalOps.total l'.
Proof. induction 1; simpl; lia. Qed.

Lemma total_mono {A} (f g : A → Z) l : (∀ x, x ∈ l → f x <= g x) → RemovalOps.total (f <$> l) <= RemovalOps.total (g <$> l).
Proof.
  intros Hfg. induction l as [|x l IH]; [done|]. rewrite !fmap_cons.
  change (f x + RemovalOps.total (f <$> l) <= g x + RemovalOps.total (g <$> l)).
  assert (f x <= g x) by (apply Hfg; by left). enough (RemovalOps.total (f <$> l) <= RemovalOps.total (g <$> l)) by lia.
  apply IH. intros y Hy. apply Hfg. by right.
Qed.

Lemma request_intents_nodup key s : NoDup (request_intents key s).*1.
Proof.
  unfold request_intents. rewrite sort_by_perm. generalize (NoDup_fst_map_to_list s.(rm_intents)).
  generalize (map_to_list s.(rm_intents)). intros l. induction l as [|[x y] l IH]; simpl; [done|].
  rewrite list.NoDup_cons. intros [Hx Hl]. case_bool_decide; simpl; [|auto]. rewrite list.NoDup_cons. split; [|auto].
  intros ([x' y'] & -> & [Hin _]%elem_of_filter_b)%list_elem_of_fmap. apply Hx. by apply (list_elem_of_fmap_2 fst) in Hin.
Qed.

(** The intents of a request stay, with their requested counts and no fewer completions. *)
Definition intents_grow (key : text) s s' : Prop :=
  (∀ iid i, s.(rm_intents) !! iid = Some i → i.(ix_request_id) = key → ∃ i', s'.(rm_intents) !! iid = Some i' ∧
     i'.(ix_request_id) = key ∧ i'.(ix_requested) = i.(ix_requested) ∧ i.(ix_completed) <= i'.(ix_completed)) ∧
  (∀ iid i', s'.(rm_intents) !! iid = Some i' → i'.(ix_request_id) = key → ∃ i, s.(rm_intents) !! iid = Some i ∧ i.(ix_request_id) = key).

Lemma receipt_grow key kind s s' : intents_grow key s s' → receipt_grows (receipt key kind s) (receipt key kind s').
Proof.
  intros [Hf Hb]. set (later := fun e : text * RemovalIntent => (e.1, default e.2 (s'.(rm_intents) !! e.1))).
  assert (request_intents key s' ≡ₚ later <$> request_intents key s) as Hp.
  { apply NoDup_Permutation.
    - eapply NoDup_fmap_1, request_intents_nodup.
    - apply (NoDup_fmap_1 fst). rewrite <- list_fmap_compose. exact (request_intents_nodup key s).
    - intros [iid i']. rewrite list_elem_of_fmap, request_intents_elem. split.
      + intros [Hi E]. destruct (Hb _ _ Hi E) as (i & Hi0 & E0). exists (iid, i). rewrite request_intents_elem.
        split; [|done]. unfold later. simpl. by rewrite Hi.
      + intros ([iid0 i] & E & [Hi0 E0]%request_intents_elem). destruct (Hf _ _ Hi0 E0) as (i2 & Hi2 & E2 & _).
        unfold later in E. simpl in E. rewrite Hi2 in E. simpl in E. by simplify_eq. }
  assert (∀ e, e ∈ request_intents key s → (later e).2.(ix_requested) = e.2.(ix_requested) ∧ e.2.(ix_completed) <= (later e).2.(ix_completed)) as Hl.
  { intros [iid i] [Hi E]%request_intents_elem. destruct (Hf _ _ Hi E) as (i2 & Hi2 & _ & ? & ?). unfold later. simpl.
    by rewrite Hi2. }
  unfold receipt. split; simpl; try done.
  - rewrite Hp, <- list_fmap_compose. done.
  - rewrite (total_perm _ ((λ e, ix_requested e.2) <$> (later <$> request_intents key s))) by by rewrite Hp.
    rewrite <- list_fmap_compose. f_equal. apply list_fmap_ext. intros n e He. apply Hl. by eapply list_elem_of_lookup_2.
  - rewrite (total_perm ((λ e, ix_completed e.2) <$> request_intents key s') ((λ e, ix_completed e.2) <$> (later <$> request_intents key s)))
      by by rewrite Hp.
    rewrite <- list_fmap_compose. apply total_mono. intros e He. by apply Hl.
Qed.

Lemma intents_grow_refl key s s' : s'.(rm_intents) = s.(rm_intents) → intents_grow key s s'.
Proof. intros E. split; rewrite E; eauto with lia. Qed.

(** Every step keeps a stored request and its receipt, or retires it. *)
Lemma removal_step_receipt s s' key r : removal_inv s → removal_step s s' → s.(rm_requests) !! key = Some r →
  s'.(rm_requests) !! key = Some r ∧ intents_grow key s s' ∨
  s'.(rm_requests) !! key = None ∧ ∃ cutoff now, retirable cutoff now key r s.
Proof.
  intros Hinv Hs Hr.
  destruct Hs as [key' kind parameters mids now supplies o fresh Ha|now n1 n2 [iid lid] Hc|cutoff now key' r' Hr' Ht|(E1 & E2 & _)].
  - left. apply accept_inv in Ha as (k & fp & _ & _ & Hf); [|done]. destruct fresh.
    2: { destruct Hf as [-> _]. split; [done|by apply intents_grow_refl]. }
    destruct Hf as (ids & _ & _ & [Hn Eq (s1 & Hz & Es)]). rewrite Eq. split.
    { rewrite lookup_insert_ne; [done|]. intros ->. congruence. }
    assert (s'.(rm_intents) = s1.(rm_intents)) as Ei by by rewrite Es. split; rewrite Ei.
    + intros iid i Hi Ek. exists i. split; [|auto with lia]. eapply lookup_weaken; [|apply (fr_intents _ _ _ _ _ _ Hz)]. done.
    + intros iid i' Hi' Ek. destruct (s.(rm_intents) !! iid) as [i|] eqn:Hi.
      * exists i. split; [done|]. eapply lookup_weaken in Hi; [|apply (fr_intents _ _ _ _ _ _ Hz)]. by simplify_eq.
      * destruct (fr_only _ _ _ _ _ _ Hz iid i') as (b & us & _ & ->); [done|done|]. simpl in Ek. congruence.
  - left. apply complete_unit_inv in Hc as [[_ ->]|[i Hd]]; [split; [done|by apply intents_grow_refl]|].
    destruct Hd as [Hi Eq _ ET EI _ _ _ _ _]. rewrite Eq. split; [done|]. split; rewrite EI.
    + intros jid j Hj Ek. destruct (decide (jid = iid)) as [->|Hne].
      * simplify_eq. eexists. rewrite lookup_insert_eq. split_and!; try done. simpl.
        destruct (rn_counts _ Hinv _ _ Hi) as [_ ->]. apply inj_le, subseteq_size. rewrite ET. apply settled_completed_ids.
      * exists j. rewrite lookup_insert_ne by done. auto with lia.
    + intros jid j. rewrite lookup_insert_Some. intros [[<- <-]|[_ Hj]] Ek; eauto.
  - apply retire_request_inv in Ht as [->|[Ht Hb]]; [left; split; [done|by apply intents_grow_refl]|].
    destruct Ht as [Eq Ei _ _]. destruct (decide (key' = key)) as [->|Hne].
    + right. rewrite Eq, lookup_delete_eq. simplify_eq. eauto.
    + left. rewrite Eq, lookup_delete_ne by done. split; [done|]. split.
      * intros iid i Hi Ek. exists i. rewrite Ei. split_and!; try done. congruence.
      * intros iid i [Hi _]%Ei Ek. eauto.
  - left. rewrite E1. split; [done|by apply intents_grow_refl].
Qed.

(** * Resumption

    With every source lock granted, [resume] settles whatever is pending.  The frozen
    sources must have a suppression key, and the clock must be at least ten years from the
    end of the calendar. *)

(** ** A unit that can be completed *)

Definition sources_keyed (sources : list FrozenSource) : Prop :=
  ∀ x, x ∈ sources → is_Some (message_suppression_key x.(fz_identity).(si_provider) x.(fz_identity).(si_account_id)
                               x.(fz_identity).(si_provider_message_id) x.(fz_identity).(si_mailbox_identity_key)).

(** The sources that are still to be suppressed. *)
Definition pending_keyed s : Prop :=
  ∀ k t, s.(rm_targets) !! k = Some t → t.(tg_pending) = true → sources_keyed t.(tg_sources).

(** The counts of an intent stay within its bounds. *)
Lemma progressed_ok iid i completed stamp : intent_row_ok iid i = true → 0 <= completed <= i.(ix_requested) →
  intent_row_ok iid (progressed i completed stamp) = true.
Proof.
  unfold intent_row_ok. rewrite !andb_true_iff, !Z.leb_le. intros (((((((((A & B) & C) & D) & E) & F) & _) & _) & _) & _) Hc.
  simpl. rewrite A, B, C, D, E, F. destruct (completed =? ix_requested i); simpl; lia.
Qed.

Section Clock.
Context (now : Z) (n1 n2 : text).
Context (Hnow : wall_ok now = true) (Hlater : wall_ok (now + 3650 * DAY) = true).

Lemma suppression_expiry_total t : ∃ e, _suppression_expiry t now = Ret e.
Proof using Hnow Hlater.
  unfold _suppression_expiry. set (r := match fromisoformat t with Some _ => _ | None => _ end).
  assert (wall_ok r = true) as Hr.
  { unfold r. destruct (fromisoformat t) as [d|]; [|done]. destruct (dt_offset d) as [off|] eqn:Eo; [|done].
    unfold astimezone_utc. rewrite Eo. destruct (wall_ok (dt_wall d - off)) eqn:E; done. }
  assert (wall_ok (Z.min r now + 3650 * DAY) = true) as Hm.
  { clearbody r. revert Hnow Hlater Hr. unfold wall_ok. rewrite !andb_true_iff, !Z.leb_le, !Z.ltb_lt.
    assert (0 <= 3650 * DAY) as Hd by done. revert Hd. generalize (3650 * DAY) (MAX_DAYS * DAY). lia. }
  unfold plus_us. rewrite Hm. simpl. eauto.
Qed.

Lemma suppress_all_total l : ∀ s, sources_keyed l → ∃ s', foldl_py (suppress now) l s = Ret s'.
Proof using Hnow Hlater.
  induction l as [|x l IH]; intros s Hk; simpl; [eauto|].
  assert (∃ s1, suppress now s x = Ret s1) as [s1 ->].
  { unfold suppress. destruct (Hk x) as [key Ek]; [by left|]. rewrite Ek. simpl.
    destruct (suppression_expiry_total x.(fz_received_at)) as [e Ee]. rewrite Ee. simpl. eauto. }
  apply IH. intros y Hy. apply Hk. by right.
Qed.

Lemma suppress_lists_total ls : ∀ s, (∀ l, l ∈ ls → sources_keyed l) →
  ∃ s', foldl_py (fun s frozen => foldl_py (suppress now) frozen s) ls s = Ret s'.
Proof using Hnow Hlater.
  induction ls as [|l ls IH]; intros s Hk; simpl; [eauto|].
  destruct (suppress_all_total l s) as [s1 E]; [apply Hk; by left|]. rewrite E. simpl. apply IH. intros y Hy. apply Hk. by right.
Qed.

Lemma suppress_unit_total kind targets s : (∀ e, e ∈ targets → sources_keyed e.2.(tg_sources)) →
  ∃ s', suppress_unit kind targets now s = Ret s'.
Proof using Hnow Hlater.
  intros Hk. unfold suppress_unit. destruct kind; [| |eauto]; apply suppress_lists_total;
    intros l ([? e] & -> & He)%elem_of_remove_dups%list_elem_of_fmap; by apply Hk in He.
Qed.

Lemma complete_unit_total s iid lid : removal_inv s → pending_keyed s →
  ∃ s', complete_unit now n1 n2 s (iid, lid) = Ret s'.
Proof using Hnow Hlater.
  intros Hinv Hk. unfold complete_unit. destruct (unit_targets iid lid s) as [|[mid0 t0] l0] eqn:Eu; [eauto|].
  assert ((mid0, t0) ∈ unit_targets iid lid s) as H0 by (rewrite Eu; by left). apply unit_targets_elem in H0 as (H0 & _).
  rewrite <- Eu. clear l0 Eu. destruct (rn_owned _ Hinv _ _ _ H0) as [i Hi]. rewrite Hi. simpl.
  destruct (suppress_unit_total i.(ix_kind) (unit_targets iid lid s) s) as [s1 E1].
  { intros [mid t] (Ht & _ & Hp)%unit_targets_elem. by eapply Hk. }
  rewrite E1. simpl. apply suppress_unit_inv in E1 as [[Es _] _]. set (stamp := isoformat (utc now)).
  fold (after_rows i.(ix_kind) stamp (foldl (remove_target i.(ix_kind) n1 n2) s1 (unit_targets iid lid s))).
  destruct (remove_targets_clears i.(ix_kind) n1 n2 (unit_targets iid lid s) s1) as [Hc _].
  set (s2 := foldl _ _ _) in *. pose proof (after_rows_clears i.(ix_kind) stamp s2) as Hc2. set (s3 := after_rows _ _ _) in *.
  destruct (clears_trans _ _ _ Hc Hc2) as [(_ & _ & E3) _ _ _ _ _]. rewrite Es in E3. simpl in E3. rewrite completed_units_size.
  simpl. rewrite E3. fold (settled_targets iid lid stamp (rm_targets s)).
  match goal with |- context [completed_ids iid ?t] => fold (progressed i (Z.of_nat (size (completed_ids iid t))) stamp) end.
  rewrite progressed_ok; [simpl; eauto|by apply (rn_intent _ Hinv)|]. split; [lia|].
  destruct (rn_counts _ Hinv _ _ Hi) as [-> _]. apply inj_le. rewrite <- (settled_logical_ids iid lid stamp). apply subseteq_size.
  intros l. rewrite elem_of_completed_ids, elem_of_logical_ids. naive_solver.
Qed.
End Clock.

(** ** Many units *)

(** What is pending afterwards was pending before. *)
Definition pending_within s s' : Prop :=
  ∀ k t, s'.(rm_targets) !! k = Some t → t.(tg_pending) = true → s.(rm_targets) !! k = Some t.

Lemma unit_done_within now iid lid i s s' : unit_done now iid lid i s s' →
  pending_within s s' ∧ unit_targets iid lid s' = [].
Proof.
  intros [_ _ _ ET _ _ _ _ _ _]. split.
  - intros [jid mid] t. rewrite ET. intros (t0 & Ht & ->)%settled_lookup. rewrite settle_pending. unfold settle. simpl.
    destruct (tg_pending t0), (bool_decide (jid = iid)), (bool_decide (tg_logical_id t0 = lid)); simpl; done.
  - destruct (unit_targets iid lid s') as [|[mid t] l] eqn:E; [done|].
    assert ((mid, t) ∈ unit_targets iid lid s') as He by (rewrite E; by left). apply unit_targets_elem in He as (Ht & El & Hp).
    rewrite ET in Ht. apply settled_lookup in Ht as (t0 & Ht & ->). rewrite settle_logical in El. rewrite settle_pending in Hp.
    rewrite !bool_decide_eq_true_2 in Hp by done. by rewrite andb_false_r in Hp.
Qed.

Lemma complete_unit_within now n1 n2 s iid lid s' : complete_unit now n1 n2 s (iid, lid) = Ret s' →
  pending_within s s' ∧ unit_targets iid lid s' = [].
Proof. intros [[E ->]|[i Hd]]%complete_unit_inv; [by split; [intros ? ?|]|by eapply unit_done_within]. Qed.

Lemma units_total now n1 n2 units : wall_ok now = true → wall_ok (now + 3650 * DAY) = true → ∀ s,
  removal_inv s → pending_keyed s → ∃ s', foldl_py (complete_unit now n1 n2) units s = Ret s' ∧ removal_inv s' ∧
    pending_within s s' ∧ ∀ iid lid, (iid, lid) ∈ units → unit_targets iid lid s' = [].
Proof.
  intros Hw Hl. induction units as [|[iid lid] units IH]; intros s Hinv Hk; cbn [foldl_py].
  { exists s. split_and!; [done|done|by intros k t|by intros ? ? ?%not_elem_of_nil]. }
  destruct (complete_unit_total now n1 n2 Hw Hl s iid lid Hinv Hk) as [s1 E1]. rewrite E1. cbn [mbind py_bind].
  destruct (complete_unit_within _ _ _ _ _ _ _ E1) as [Hp1 Hu1].
  assert (removal_inv s1) as Hinv1 by (eapply removal_step_inv; [by eapply removal_complete|done]).
  destruct (IH s1 Hinv1) as (s' & E' & Hinv' & Hp' & Hu'); [intros k t Ht Hp; eapply Hk; [by apply Hp1|done]|].
  exists s'. split_and!; try done.
  - intros k t Ht Hp. apply Hp1; [|done]. by apply Hp'.
  - intros jid kid [[= -> ->]|?]%elem_of_cons; [|auto]. destruct (unit_targets iid lid s') as [|[mid t] l] eqn:E; [done|].
    assert ((mid, t) ∈ unit_targets iid lid s') as He by (rewrite E; by left). apply unit_targets_elem in He as (Ht & El & Hp).
    assert ((mid, t) ∈ unit_targets iid lid s1) as He by (apply unit_targets_elem; split_and!; try done; by apply Hp').
    rewrite Hu1 in He. by apply not_elem_of_nil in He.
Qed.

(** ** Batches *)

Lemma cleanup_groups_keys limit units : ∀ keys rows,
  concat (cleanup_groups limit keys rows units).*1 = (keys ++ units.*1)%list.
Proof.
  induction units as [|[key current] units IH]; intros keys rows; simpl.
  { destruct keys as [|k keys]; simpl; by rewrite ?app_nil_r. }
  destruct keys as [|k keys], limit as [n|]; simpl; rewrite ?IH; simpl; [done|done| |by rewrite <- app_assoc].
  case_bool_decide; simpl; rewrite IH; simpl; [done|by rewrite <- app_assoc].
Qed.

Lemma batches_concat {A} n (l : list A) : ∀ fuel, (0 < n)%nat → (length l <= fuel)%nat → concat (batches n fuel l) = l.
Proof.
  intros fuel Hn. revert l. induction fuel as [|fuel IH]; intros [|x l] Hl; simpl in *; [done|lia|done|].
  rewrite IH; [by rewrite take_drop|]. rewrite length_drop. simpl. lia.
Qed.

Lemma groups_keys limit bs : concat (flat_map (cleanup_groups limit [] ∅) bs).*1 = (concat bs).*1.
Proof.
  induction bs as [|b bs IH]; simpl; [done|]. by rewrite !fmap_app, concat_app, IH, cleanup_groups_keys.
Qed.

Lemma foldl_py_concat {A B C} (f : B → A → py B) (l : list (list A * C)) : ∀ b,
  foldl_py (fun b x => foldl_py f x.1 b) l b = foldl_py f (concat l.*1) b.
Proof.
  induction l as [|x l IH]; intros b; simpl; [done|]. rewrite foldl_py_app. destruct (foldl_py f x.1 b); simpl; [apply IH|done].
Qed.

(** With every lock granted, the pending units are completed one after the other. *)
Lemma resume_units limit now n1 n2 got s : (∀ rows, got rows = LocksAcquired) →
  resume limit now n1 n2 got s = foldl_py (complete_unit now n1 n2) (pending_units s).*1 s.
Proof.
  intros Hg. unfold resume.
  transitivity (foldl_py (fun s (x : list (text * text) * gset text) => foldl_py (complete_unit now n1 n2) x.1 s)
    (flat_map (cleanup_groups limit [] ∅) (batches SOURCE_CLEANUP_LOCK_BATCH_SIZE (length (pending_units s)) (pending_units s))) s).
  { generalize (flat_map (cleanup_groups limit [] ∅)
      (batches SOURCE_CLEANUP_LOCK_BATCH_SIZE (length (pending_units s)) (pending_units s))).
    intros l. generalize s. induction l as [|b l IH]; intros s0; cbn [foldl_py]; [done|].
    assert (complete_batch now n1 n2 got s0 b = foldl_py (complete_unit now n1 n2) b.1 s0) as ->
      by (unfold complete_batch; by rewrite Hg).
    destruct (foldl_py _ b.1 s0); [apply IH|done]. }
  rewrite foldl_py_concat, groups_keys, batches_concat; [done| |done]. unfold SOURCE_CLEANUP_LOCK_BATCH_SIZE. lia.
Qed.

(** Every pending row is in a unit. *)
Lemma pending_units_cover s iid mid t : s.(rm_targets) !! (iid, mid) = Some t → t.(tg_pending) = true →
  (iid, t.(tg_logical_id)) ∈ (pending_units s).*1.
Proof.
  intros Ht Hp. unfold pending_units.
  assert ((iid, mid, t) ∈ sort_by unit_leb (List.filter (fun e : text * text * RemovalTarget => tg_pending e.2) (map_to_list s.(rm_targets)))) as Hin.
  { rewrite sort_by_perm. apply elem_of_filter_b. by rewrite elem_of_map_to_list. }
  revert Hin. generalize (sort_by unit_leb (List.filter (fun e : text * text * RemovalTarget => tg_pending e.2) (map_to_list s.(rm_targets)))).
  intros l. set (put := fun (units : list (text * text * list text)) (e : text * text * RemovalTarget) => _).
  assert (∀ l units, (iid, t.(tg_logical_id)) ∈ units.*1 → (iid, t.(tg_logical_id)) ∈ (foldl put units l).*1) as Hkeep.
  { intros l0. induction l0 as [|e l0 IH]; intros units Hu; simpl; [done|]. apply IH. apply dict_put_keys. by right. }
  generalize ([] : list (text * text * list text)). induction l as [|e l IH]; intros units Hin; simpl; [by apply not_elem_of_nil in Hin|].
  apply elem_of_cons in Hin as [<-|Hin]; [|by apply IH]. apply Hkeep, dict_put_keys. by left.
Qed.

(** An intent has a pending row, or none of its rows is. *)
Lemma unit_open iid s : (∃ mid t, s.(rm_targets) !! (iid, mid) = Some t ∧ t.(tg_pending) = true) ∨
  ∀ mid t, s.(rm_targets) !! (iid, mid) = Some t → t.(tg_pending) = false.
Proof.
  destruct (existsb (fun e : text * text * RemovalTarget => bool_decide (e.1.1 = iid) && e.2.(tg_pending)) (map_to_list s.(rm_targets))) eqn:E.
  - left. apply existsb_exists in E as ([[j mid] t] & Hin%list_elem_of_In & Hb). apply elem_of_map_to_list in Hin. simpl in Hb. bools.
    subst. eauto.
  - right. intros mid t Ht. destruct (tg_pending t) eqn:Ep; [|done]. rewrite <- E. symmetry. apply existsb_exists.
    exists (iid, mid, t). split; [by apply list_elem_of_In, elem_of_map_to_list|]. simpl. by rewrite bool_decide_eq_true_2.
Qed.

(** An intent without pending rows is settled. *)
Lemma settled_intent s iid i : removal_inv s → s.(rm_intents) !! iid = Some i →
  (∀ mid t, s.(rm_targets) !! (iid, mid) = Some t → t.(tg_pending) = false) →
  i.(ix_pending) = false ∧ i.(ix_completed) = i.(ix_requested).
Proof.
  intros Hinv Hi Hp. destruct (rn_counts _ Hinv _ _ Hi) as [Er Ec]. pose proof (rn_intent _ Hinv _ _ Hi) as Hok.
  assert (i.(ix_completed) = i.(ix_requested)) as E.
  { rewrite Er, Ec. do 2 f_equal. apply set_eq. intros l. rewrite elem_of_completed_ids, elem_of_logical_ids. naive_solver. }
  split; [|done]. unfold intent_row_ok in Hok. rewrite !andb_true_iff in Hok. destruct Hok as [[_ Hst%eqb_prop] _].
  destruct (ix_pending i); [|done]. simpl in Hst. symmetry in Hst. apply Z.eqb_neq in Hst. done.
Qed.

(** ** Receipts *)

Lemma total_eq {A} (f g : A → Z) l : (∀ x, x ∈ l → f x = g x) → RemovalOps.total (f <$> l) = RemovalOps.total (g <$> l).
Proof.
  intros Hfg. apply Z.le_antisymm; apply total_mono; intros x Hx; rewrite (Hfg x Hx); lia.
Qed.

(** The receipt of a request without open intents has nothing pending. *)
Lemma receipt_settled key kind s : removal_inv s →
  (∀ iid i, s.(rm_intents) !! iid = Some i → i.(ix_request_id) = key → i.(ix_pending) = false) →
  oc_pending (receipt key kind s) = 0.
Proof.
  intros Hinv Hp. unfold oc_pending, receipt. simpl. rewrite (total_eq (fun e => ix_completed e.2) (fun e => ix_requested e.2)); [lia|].
  intros [iid i] [Hi Ek]%request_intents_elem. simpl. specialize (Hp _ _ Hi Ek). pose proof (rn_intent _ Hinv _ _ Hi) as Hok.
  unfold intent_row_ok in Hok. rewrite !andb_true_iff in Hok. destruct Hok as [[_ Hst%eqb_prop] _]. rewrite Hp in Hst. simpl in Hst. lia.
Qed.

(** A receipt that was just written has completed nothing. *)
Lemma accepted_completed key kind fingerprint stamp ids s s' : removal_inv s → accepted key kind fingerprint stamp ids s s' →
  (receipt key kind s').(oc_completed) = 0.
Proof.
  intros Hinv [Hn _ (s1 & Hf & ->)]. unfold receipt. simpl.
  assert (∀ e, e ∈ request_intents key (set_work (rm_queue s') (rm_runs s') s1) → ix_completed e.2 = 0) as Hz.
  { intros [iid i] [Hi Ek]%request_intents_elem. simpl in *. destruct (s.(rm_intents) !! iid) as [j|] eqn:Ej.
    - pose proof Ej as Ej'. eapply lookup_weaken in Ej'; [|apply (fr_intents _ _ _ _ _ _ Hf)]. simplify_eq.
      pose proof (rn_request _ Hinv _ _ Ej) as Hq. rewrite Hn in Hq. done.
    - destruct (fr_only _ _ _ _ _ _ Hf iid i Ej Hi) as (b & us & _ & ->). done. }
  rewrite (total_eq _ (fun _ => 0)) by done. clear. by induction (request_intents key _).
Qed.

Lemma request_hash_kind kind parameters k fingerprint : request_hash kind parameters = Ret (k, fingerprint) → removal_kind_of kind = Some k.
Proof. unfold request_hash. destruct (removal_kind_of kind); [|done]. destruct parameters; try done. intros; peel; congruence. Qed.

(** ** What one completion counts *)

Lemma settled_completed iid lid stamp s mid t : removal_inv s →
  s.(rm_targets) !! (iid, mid) = Some t → t.(tg_logical_id) = lid → t.(tg_pending) = true →
  completed_ids iid (settled_targets iid lid stamp s.(rm_targets)) = {[lid]} ∪ completed_ids iid s.(rm_targets) ∧
  lid ∉ completed_ids iid s.(rm_targets).
Proof.
  intros Hinv Ht El Hp. split.
  - apply set_eq. intros l. rewrite elem_of_union, elem_of_singleton, !elem_of_completed_ids. setoid_rewrite settled_lookup. split.
    + intros (m' & t' & (t0 & Ht0 & ->) & <- & Hf). rewrite settle_logical. rewrite settle_pending, bool_decide_eq_true_2 in Hf by done.
      simpl in Hf. destruct (decide (tg_logical_id t0 = lid)) as [->|Hne]; [by left|]. rewrite bool_decide_eq_false_2 in Hf by done.
      simpl in Hf. rewrite andb_true_r in Hf. right. eauto.
    + intros [->|(m' & t' & Ht' & <- & Hf)].
      * exists mid, (settle iid lid stamp (iid, mid) t). split; [eauto|]. rewrite settle_logical, settle_pending.
        rewrite !bool_decide_eq_true_2 by done. by rewrite andb_false_r.
      * exists m', (settle iid lid stamp (iid, m') t'). split; [eauto|]. by rewrite settle_logical, settle_pending, Hf.
  - intros (m' & t' & Ht' & El' & Hf)%elem_of_completed_ids. rewrite <- El in El'.
    pose proof (rn_uniform _ Hinv _ _ _ _ _ Ht' Ht El'). congruence.
Qed.
