(* ===== verification/RemovalTheorems.v ===== *)
(** * Theorems about removal requests

    The removal tables stay consistent in every reachable store; what a request names is
    withheld from the moment of acceptance; a receipt never loses a completion until its
    request is retired; a completed unit is gone and cannot be captured again; with the
    source locks granted nothing stays pending. *)

From S2P Require Export RemovalSteps RemovalKey.
From S2P Require Import AnalysisWitness.
From stdpp Require Import options.

Local Open Scope Z_scope.

Implicit Types s : removal_store.

(** C11: In every store reached by acceptances, completions, retirements and writes to other
    tables: an intent belongs to a stored request of its kind, a target to a stored intent;
    the rows of a frozen logical message are pending or completed together; the counts of an
    intent are the numbers of its frozen and of its completed logical messages; and an intent
    is open exactly while one of its targets is. *)
Theorem removal_tables_sound s : removal_reachable s →
  removal_inv s ∧
  ∀ iid i, s.(rm_intents) !! iid = Some i →
    (i.(ix_pending) = true ↔ ∃ mid t, s.(rm_targets) !! (iid, mid) = Some t ∧ t.(tg_pending) = true).
Proof.
  intros Hinv%removal_reachable_inv. split; [done|]. intros iid i Hi. split; [|by intros (mid & t & Ht & Hp); eapply pending_intent].
  intros Hp. destruct (unit_open iid s) as [?|Hn]; [done|]. destruct (settled_intent s iid i Hinv Hi Hn). congruence.
Qed.

(** C7: Once a request is accepted, every stored row of a logical message it names is
    withheld: its content is not available, and unless the request only unfollows, its record
    is not available either.  No message row is deleted by the acceptance itself, and the
    receipt has completed nothing yet. *)
Theorem accepted_removal_withholds key kind parameters mids now supplies s o s' :
  removal_inv s → (∀ x, x ∈ s.(rm_messages) → x.(ms_logical_of) ≠ Some []) →
  _accept_in_transaction key kind parameters mids now supplies s = Ret (o, true, s') →
  s'.(rm_messages) = s.(rm_messages) ∧ o.(oc_completed) = 0 ∧
  ∃ k ids, removal_kind_of kind = Some k ∧ requested_messages k parameters mids s = Ret ids ∧
    ∀ id m mid m', id ∈ ids → row_of_message id s = Some m → row_of_message mid s = Some m' →
      canonical_id m' = canonical_id m →
      message_available (tables s') CONTENT mid = false ∧
      (k ≠ KUnfollow → message_available (tables s') RECORD mid = false).
Proof.
  intros Hinv Hl Ha. apply accept_inv in Ha as (k & fp & Hh & -> & ids & _ & Hids & Hacc); [|done].
  split; [|split; [by eapply accepted_completed|exists k, ids; split; [by eapply request_hash_kind|split; [done|]]]].
  - destruct Hacc as [_ _ (s1 & Hf & ->)]. simpl. by rewrite (fr_frame _ _ _ _ _ _ Hf).
  - intros id m mid m' Hid Hm Hm' Ec. split; [|intros Hk]; eapply accepted_withheld; eauto.
Qed.

(** C38: Accepting the same request again returns the receipt of the stored request and
    changes nothing, whatever the time and the state of the key; a stored key that comes with
    another kind or other parameters is refused. *)
Theorem repeated_accept key kind parameters mids now supplies s r k fingerprint :
  s.(rm_requests) !! key = Some r → request_hash kind parameters = Ret (k, fingerprint) →
  _accept_in_transaction key kind parameters mids now supplies s =
    if bool_decide (r.(rq_kind) = k) && bool_decide (r.(rq_parameters_sha256) = fingerprint)
    then Ret (receipt key k s, false, s)
    else Raise (RemovalRequestInvalid "Removal request key was already used with different parameters").
Proof.
  intros Hr Hh. unfold _accept_in_transaction. rewrite Hh. simpl. unfold outcome. rewrite Hr. simpl.
  destruct (bool_decide (rq_kind r = k) && bool_decide (rq_parameters_sha256 r = fingerprint)) eqn:E; simpl; [|done].
  bools. by subst.
Qed.

(** C22: A step from a reachable store keeps a stored request, with the same intents and
    requested count and at least as many completions in its receipt, unless it retires the
    request: then its key had expired, nothing of it was pending, and the request and its
    settlements were not younger than the retention cutoff. *)
Theorem receipt_until_retired s s' key r : removal_reachable s → removal_step s s' → s.(rm_requests) !! key = Some r →
  s'.(rm_requests) !! key = Some r ∧ receipt_grows (receipt key r.(rq_kind) s) (receipt key r.(rq_kind) s') ∨
  s'.(rm_requests) !! key = None ∧ oc_pending (receipt key r.(rq_kind) s) = 0 ∧
    ∃ cutoff now, retirable cutoff now key r s.
Proof.
  intros Hinv%removal_reachable_inv Hs Hr. destruct (removal_step_receipt _ _ _ _ Hinv Hs Hr) as [[? Hg]|(? & cutoff & now & Hb)].
  - left. split; [done|by apply receipt_grow].
  - right. split; [done|]. split; [|eauto]. apply receipt_settled; [done|]. intros iid i Hi Ek. by apply (rb_settled _ _ _ _ _ Hb iid).
Qed.

(** C21: Completing a unit that has a pending row settles every pending row of it and no
    other target, and adds one to the completed count of its intent.  For a deletion or a
    clearing each frozen row is not stored any more and every frozen source is suppressed;
    for an unfollowing the stored content of each frozen row is gone.  No earlier suppression
    is dropped and no message row appears. *)
Theorem completion_exact now n1 n2 s iid lid s' mid t i :
  removal_inv s → s.(rm_targets) !! (iid, mid) = Some t → t.(tg_logical_id) = lid → t.(tg_pending) = true →
  s.(rm_intents) !! iid = Some i → complete_unit now n1 n2 s (iid, lid) = Ret s' →
  (∀ k t', s'.(rm_targets) !! k = Some t' ↔ ∃ t0, s.(rm_targets) !! k = Some t0 ∧ t' = settle iid lid (isoformat (utc now)) k t0) ∧
  (∃ i', s'.(rm_intents) = <[iid := i']> s.(rm_intents) ∧ i'.(ix_completed) = i.(ix_completed) + 1) ∧
  removed i.(ix_kind) (mid, t) s' ∧
  (i.(ix_kind) ≠ KUnfollow → ∀ x, x ∈ t.(tg_sources) → suppressed x s') ∧
  (∀ k, is_Some (s.(rm_suppressed) !! k) → is_Some (s'.(rm_suppressed) !! k)) ∧
  (∀ m, m ∈ s'.(rm_messages) → m ∈ s.(rm_messages)).
Proof.
  intros Hinv Ht El Hp Hi Hc. assert ((mid, t) ∈ unit_targets iid lid s) as Hu by by apply unit_targets_elem.
  apply complete_unit_inv in Hc as [[E _]|[j Hd]]; [rewrite E in Hu; by apply not_elem_of_nil in Hu|].
  destruct Hd as [Hj _ _ ET EI _ Hs Hk Hr Hm]. simplify_eq. split_and!; try done; [|eexists; split; [exact EI|]|by apply Hr|].
  - intros [jid mid'] t'. rewrite ET. apply settled_lookup.
  - simpl. rewrite ET. destruct (settled_completed iid (tg_logical_id t) (isoformat (utc now)) s mid t Hinv Ht eq_refl Hp) as [-> Hn].
    rewrite size_union, size_singleton by set_solver. destruct (rn_counts _ Hinv _ _ Hi) as [_ ->]. lia.
  - intros Hkind x Hx. by apply (Hs Hkind (mid, t)).
Qed.


(** * A removal, evaluated

    A message and its alias: a key is issued, the deletion is accepted, and [resume] removes
    both rows; the states witness the hypotheses of the theorems on removal requests. *)

Module RemovalDemo.

Definition noon : Z := AnalysisDemo.noon.
Definition uuids : nat → text := AnalysisDemo.uuids.
Definition secret : text := replicate 64 97%N.
Definition nonce : text := replicate 32 98%N.

Definition alias_row : MessageRow := {|
  ms_message_id := str "m2"; ms_provider := str "gmail"; ms_account_id := str "me";
  ms_mailbox_identity_key := Some AnalysisDemo.mailbox; ms_provider_message_id := str "p2";
  ms_logical_of := Some AnalysisDemo.msg; ms_thread_key := Some (str "t1");
  ms_received_at := Some (isoformat (utc noon)); ms_discovered_at := Some (isoformat (utc noon)) |}.

Definition s0 : removal_store :=
  mk_removal (Some secret) ∅ ∅ ∅ [AnalysisDemo.source; alias_row] [] [] (mk_location_tables ∅ ∅ ∅) (mk_body_tables ∅ ∅ None) ∅
    (empty_connect AnalysisDemo.tables ∅) (empty_db AnalysisDemo.tables).

Definition parameters : json := JObj [(str "message_id", JStr (str "m2"))].
Abbreviation issued := (_issue_key (Some secret) (str "delete") parameters 30 noon nonce).
Definition key : text := Eval vm_compute in match issued with Ret k => k | Raise _ => [] end.
Definition supplies : Supplies := mk_supplies uuids [] (isoformat (utc noon)) (isoformat (utc noon)).

Abbreviation accepting := (_accept_in_transaction key (str "delete") parameters None noon supplies s0).
Definition result (r : py (Outcome * bool * removal_store)) : Outcome * bool * removal_store :=
  match r with Ret x => x | Raise _ => (mk_outcome [] [] KDelete 0 0, false, s0) end.
Definition o1 : Outcome := (result accepting).1.1.
Definition s1 : removal_store := (result accepting).2.
Abbreviation resuming := (resume None (noon + DAY) (isoformat (utc noon)) (isoformat (utc noon)) (fun _ => LocksAcquired) s1).
Definition s2 : removal_store := match resuming with Ret s => s | Raise _ => s1 end.

Lemma result_ret r : (is_ret r && (result r).1.2) = true → r = Ret ((result r).1.1, true, (result r).2).
Proof. destruct r as [[[o f] s]|e]; simpl; [by intros ->|done]. Qed.

Lemma issued_ret : issued = Ret key.
Proof. vm_compute. reflexivity. Qed.
Lemma deletion_accepted : accepting = Ret (o1, true, s1).
Proof. apply result_ret. vm_compute. reflexivity. Qed.

(** One logical message with its two rows; both go. *)
Example requested_one : o1.(oc_requested) = 1 ∧ size s1.(rm_targets) = 2%nat.
Proof. vm_compute. done. Qed.
Example rows_gone : s2.(rm_messages) = [].
Proof. vm_compute. reflexivity. Qed.

Definition fingerprint : text := Eval vm_compute in
  match request_hash (str "delete") parameters with Ret (_, f) => f | Raise _ => [] end.
Lemma fingerprint_ret : request_hash (str "delete") parameters = Ret (KDelete, fingerprint).
Proof. vm_compute. reflexivity. Qed.

Lemma removal0_reachable : removal_reachable s0.
Proof. by apply removal_initial. Qed.
Lemma removal1_reachable : removal_reachable s1.
Proof. eapply removal_next; [apply removal0_reachable|]. eapply removal_accept, deletion_accepted. Qed.

(** ** Witnesses *)

Lemma issued_key_valid_witness : ∃ k fingerprint, request_hash (str "delete") parameters = Ret (k, fingerprint) ∧
  validate_key (Some secret) key k fingerprint noon = Ret tt.
Proof.
  destruct (issued_key_valid (Some secret) (str "delete") parameters 30 noon nonce key issued_ret eq_refl)
    as (k & fp & Hh & _ & Hv).
  - split; vm_compute; [discriminate|reflexivity].
  - exists k, fp. split; [exact Hh|]. rewrite Hv. vm_compute. reflexivity.
Defined.

Lemma removal_tables_sound_witness : removal_inv s1.
Proof. apply (removal_tables_sound s1 removal1_reachable). Defined.

Lemma accepted_removal_withholds_witness : message_available (tables s1) CONTENT (str "m1") = false.
Proof.
  destruct (accepted_removal_withholds key (str "delete") parameters None noon supplies s0 o1 s1
    (removal_reachable_inv _ removal0_reachable)) as (_ & _ & k & ids & Hk & Hids & Hw).
  - intros x [->|[->|Hx%not_elem_of_nil]%elem_of_cons]%elem_of_cons; done.
  - exact deletion_accepted.
  - simpl in Hk. injection Hk as <-.
    assert (requested_messages KDelete parameters None s0 = Ret [str "m2"]) as Hr by (vm_compute; reflexivity).
    rewrite Hr in Hids. injection Hids as <-.
    assert (row_of_message (str "m2") s0 = Some alias_row) as H2 by reflexivity.
    assert (row_of_message (str "m1") s0 = Some AnalysisDemo.source) as H1 by reflexivity.
    assert (canonical_id AnalysisDemo.source = canonical_id alias_row) as Ec by reflexivity.
    assert (str "m2" ∈ [str "m2"]) as Hin by by left.
    exact (proj1 (Hw _ _ _ _ Hin H2 H1 Ec)).
Defined.

Lemma stored_request : ∃ r, s1.(rm_requests) !! key = Some r.
Proof. assert (is_some (s1.(rm_requests) !! key) = true) as Hr by (vm_compute; reflexivity). destruct (_ !! key); [eauto|done]. Qed.

Lemma repeated_accept_witness : is_Some (s1.(rm_requests) !! key) ∧
  _accept_in_transaction key (str "delete") parameters None (noon + 365 * DAY) supplies s1 = Ret (receipt key KDelete s1, false, s1).
Proof.
  destruct (s1.(rm_requests) !! key) as [r|] eqn:Hr; [|exfalso; clear -Hr; vm_compute in Hr; discriminate].
  split; [by eexists|].
  assert (rq_kind <$> s1.(rm_requests) !! key = Some KDelete) as Hk by (vm_compute; reflexivity).
  assert (rq_parameters_sha256 <$> s1.(rm_requests) !! key = Some fingerprint) as Hp by (vm_compute; reflexivity).
  rewrite Hr in Hk, Hp. simpl in Hk, Hp. injection Hk as Hk. injection Hp as Hp.
  rewrite (repeated_accept key (str "delete") parameters None (noon + 365 * DAY) supplies s1 r KDelete fingerprint Hr fingerprint_ret).
  rewrite Hk, Hp, !bool_decide_eq_true_2 by reflexivity. reflexivity.
Defined.

(** The two rows of the one intent. *)
Definition intent_id : text := uuids 0.

Definition keyed (x : FrozenSource) : bool :=
  is_some (message_suppression_key x.(fz_identity).(si_provider) x.(fz_identity).(si_account_id)
             x.(fz_identity).(si_provider_message_id) x.(fz_identity).(si_mailbox_identity_key)).

Lemma keyed_check s : forallb (fun e => forallb keyed e.2.(tg_sources)) (map_to_list s.(rm_targets)) = true → pending_keyed s.
Proof.
  rewrite forallb_forall. intros Hall k t Ht _ x Hx. specialize (Hall (k, t)).
  rewrite <- list_elem_of_In, elem_of_map_to_list in Hall. specialize (Hall Ht). simpl in Hall. rewrite forallb_forall in Hall.
  specialize (Hall x). rewrite <- list_elem_of_In in Hall. specialize (Hall Hx). unfold keyed in Hall.
  destruct (message_suppression_key _ _ _ _); [by eexists|done].
Qed.

Lemma s1_keyed : pending_keyed s1.
Proof. apply keyed_check. vm_compute. reflexivity. Qed.


Abbreviation completing := (complete_unit (noon + DAY) (isoformat (utc noon)) (isoformat (utc noon)) s1 (intent_id, str "m1")).
Definition s3 : removal_store := match completing with Ret s => s | Raise _ => s1 end.
Lemma completed_ret : completing = Ret s3.
Proof. assert (is_ret completing = true) as Hr by (vm_compute; reflexivity). unfold s3. by destruct completing. Qed.

Lemma receipt_until_retired_witness : ∃ r, s1.(rm_requests) !! key = Some r ∧
  (s3.(rm_requests) !! key = Some r ∧ receipt_grows (receipt key r.(rq_kind) s1) (receipt key r.(rq_kind) s3) ∨
   s3.(rm_requests) !! key = None ∧ oc_pending (receipt key r.(rq_kind) s1) = 0 ∧ ∃ cutoff now, retirable cutoff now key r s1).
Proof.
  destruct stored_request as [r Hr]. exists r.
  exact (conj Hr (receipt_until_retired s1 s3 key r removal1_reachable (removal_complete _ _ _ _ _ _ completed_ret) Hr)).
Defined.

Lemma completion_exact_witness : ∃ t, s1.(rm_targets) !! (intent_id, str "m1") = Some t ∧ removed KDelete (str "m1", t) s3.
Proof.
  destruct (s1.(rm_targets) !! (intent_id, str "m1")) as [t|] eqn:Ht; [|exfalso; clear -Ht; vm_compute in Ht; discriminate].
  destruct (s1.(rm_intents) !! intent_id) as [i|] eqn:Hi; [|exfalso; clear -Hi; vm_compute in Hi; discriminate].
  assert ((fun t => (t.(tg_logical_id), t.(tg_pending))) <$> s1.(rm_targets) !! (intent_id, str "m1") = Some (str "m1", true)) as Et
    by (vm_compute; reflexivity).
  assert (ix_kind <$> s1.(rm_intents) !! intent_id = Some KDelete) as Ek by (vm_compute; reflexivity).
  rewrite Ht in Et. rewrite Hi in Ek. cbn [fmap option_fmap option_map] in Et, Ek. injection Et as El Ep. injection Ek as Ek.
  destruct (completion_exact (noon + DAY) (isoformat (utc noon)) (isoformat (utc noon)) s1 intent_id (str "m1") s3 (str "m1") t i
    (removal_reachable_inv _ removal1_reachable) Ht El Ep Hi completed_ret) as (_ & _ & Hr & _).
  exists t. split; [reflexivity|]. rewrite Ek in Hr. exact Hr.
Defined.

End RemovalDemo.
