(* ===== verification/DerivedState.v ===== *)
(** * Derived attribution and followed threads

    Models, of [src/src/eom_email_watcher/db.py], the one writer of [message_derived] and
    [thread_follow]: the attribution of every logical message to a vendor, the owner of
    every thread, and the recomputation that runs before an input transaction commits
    ([_recompute_derived], [_thread_member], [_follow_owner]), with the evidence its triggers
    collect ([_track_derived_rows], [_derived_record_scopes_sql], [_derived_scope_match_sql]);
    and [body_state.recompute], which drops the content of threads that are not followed.

    Received times are compared as instants ([IsoTime.aware_iso_epoch]); a member without a
    readable one has [None], which stands for the infinite float of the code. *)

From S2P Require Export RemovalOps Vendors ReconcileState.
From stdpp Require Import options.

Local Open Scope Z_scope.

(** ** Inputs *)

Inductive recipient_field := FieldTo | FieldCc.

Global Instance recipient_field_eq_dec : EqDecision recipient_field.
Proof. solve_decision. Defined.
Global Instance recipient_field_countable : Countable recipient_field.
Proof.
  refine (inj_countable' (fun f => match f with FieldTo => true | FieldCc => false end)
            (fun b : bool => if b then FieldTo else FieldCc) _); by intros [].
Defined.

(** The recipients of a message, by field and position. *)
Abbreviation Recipients := (gmap (recipient_field * nat) text).

(** [DERIVED_INPUT_TABLES]; the sender of a message is kept apart from its row. *)
Record DerivedInputs := mk_inputs {
  in_sources : SourceTables;
  in_locations : LocationTables;
  in_senders : gmap text text;
  in_recipients : gmap text Recipients;
  in_vendors : VendorTables }.

Implicit Types i : DerivedInputs.
Implicit Types m : MessageRow.

(** ** Outputs *)

(** [message_derived], without its key *)
Record DerivedRow := mk_derived_row {
  dr_outbound : bool;
  dr_match : option (text * match_kind) }.

(** [thread_follow], without its key; [followed] is the presence of an owner *)
Record FollowRow := mk_follow_row {
  fo_owner : option text;
  fo_owner_received : option (option Z);
  fo_owner_source : option text;
  fo_canonical_source : text }.

Abbreviation ThreadScope := (text * text * text * text)%type.

Record DerivedTables := mk_derived_tables {
  dv_messages : gmap text DerivedRow;
  dv_follow : gmap ThreadScope FollowRow }.

(** ** Attribution *)

Definition unit_of_row i (message_id : text) : LogicalUnit :=
  unit_of_canonical message_id i.(in_sources).(st_messages) i.(in_locations).

(** One copy of the logical message lies in the folder of sent mail. *)
Definition outbound i (u : LogicalUnit) : bool :=
  existsb (fun e : SourceKey * text * Location => bool_decide (e.2.(lo_message_id) ∈ u.(lu_rows)) && bool_decide (e.1.2 = SENT_LOCATION))
    (map_to_list i.(in_locations).(lt_locations)).

Definition position_leb (x y : recipient_field * nat * text) : bool := (x.1.2 <=? y.1.2)%nat.

Definition recipients_of i (message_id : text) (field : recipient_field) : list text :=
  snd <$> sort_by position_leb
    (List.filter (fun e : recipient_field * nat * text => bool_decide (e.1.1 = field))
       (map_to_list (default ∅ (i.(in_recipients) !! message_id)))).

Definition attribution_of (ix : VendorIndex) i m : option attribution :=
  attribute ix (default [] (i.(in_senders) !! m.(ms_message_id))) (outbound i (unit_of_row i m.(ms_message_id)))
    (recipients_of i m.(ms_message_id) FieldTo) (recipients_of i m.(ms_message_id) FieldCc).

Definition derived_row (ix : VendorIndex) i m : DerivedRow :=
  mk_derived_row (outbound i (unit_of_row i m.(ms_message_id)))
    ((fun a => (a.(va_vendor_id), a.(va_kind))) <$> attribution_of ix i m).

(** ** Threads *)

Record Member := mk_member {
  mb_newest : option Z;
  mb_source : text;
  mb_vendor : option text }.

(** [a <= b] where [None] is infinite *)
Definition newest_leb (a b : option Z) : bool :=
  match a, b with _, None => true | None, Some _ => false | Some x, Some y => x <=? y end.

(** The order of the tuples, for members with a vendor *)
Definition member_leb (x y : Member) : bool :=
  if bool_decide (x.(mb_newest) = y.(mb_newest)) then
    if bool_decide (x.(mb_source) = y.(mb_source)) then text_leb (default [] x.(mb_vendor)) (default [] y.(mb_vendor))
    else text_leb x.(mb_source) y.(mb_source)
  else newest_leb x.(mb_newest) y.(mb_newest).

(** [min] *)
Definition least {A} (leb : A → A → bool) (l : list A) : option A :=
  foldl (fun best x => match best with Some b => if leb b x then Some b else Some x | None => Some x end) None l.

(** [max(..., default=inf)] *)
Definition newest (stamps : list (option Z)) : option Z :=
  foldl (fun best x => match best, x with Some b, Some y => Some (Z.max b y) | None, Some y => Some y | _, None => best end)
    None stamps.

(** [_thread_member] *)
Definition thread_member (ix : VendorIndex) i m : Member :=
  let sources := (unit_of_row i m.(ms_message_id)).(lu_sources) in
  mk_member (newest ((fun x => aware_iso_epoch x.(fz_received_at)) <$> sources))
    (default [] (least text_leb ((fun x => x.(fz_identity).(si_provider_message_id)) <$> sources)))
    (va_vendor_id <$> attribution_of ix i m).

(** [_follow_owner] *)
Definition follow_owner (members : list Member) : option Member :=
  least member_leb (List.filter (fun x => is_some x.(mb_vendor)) members).

Definition follow_row (members : list Member) : FollowRow :=
  let winner := follow_owner members in
  mk_follow_row (winner ≫= mb_vendor) (mb_newest <$> winner) (mb_source <$> winner)
    (default [] (least text_leb (mb_source <$> members))).

Definition thread_scope (st : SourceTables) m : option ThreadScope :=
  identity ← effective_message_identity st m;
  Some (m.(ms_provider), m.(ms_account_id), identity, shown m.(ms_thread_key)).

(** The members of every thread, in the order of the rows. *)
Definition add_member (ix : VendorIndex) i (groups : list (ThreadScope * list Member)) m : list (ThreadScope * list Member) :=
  match thread_scope i.(in_sources) m with
  | Some k => dict_put k (default [] (dict_find k groups) ++ [thread_member ix i m])%list groups
  | None => groups
  end.

Definition thread_groups (ix : VendorIndex) i (rows : list MessageRow) : list (ThreadScope * list Member) :=
  foldl (add_member ix i) [] rows.

(** ** Evidence *)

(** [derived_changed_threads] *)
Abbreviation ChangedThread := (text * text * option text * option text)%type.

Record Changes := mk_changes {
  ch_messages : list text;
  ch_threads : list ChangedThread }.

Implicit Types c : Changes.

Definition row_scope (st : SourceTables) m : ChangedThread :=
  (m.(ms_provider), m.(ms_account_id), effective_message_identity st m, m.(ms_thread_key)).

(** [_derived_record_scopes_sql] for a message: its own thread, and that of its canonical row *)
Definition message_scopes (st : SourceTables) m : list ChangedThread :=
  row_scope st m ::
  match m.(ms_logical_of) with
  | Some canonical => match message_in canonical st.(st_messages) with Some x => [row_scope st x] | None => [] end
  | None => []
  end.

(** [_derived_record_scopes_sql] for a location or a recipient of a message *)
Definition source_scopes (st : SourceTables) (message_id : text) : list ChangedThread :=
  match message_in message_id st.(st_messages) with Some m => message_scopes st m | None => [] end.

(** The triggers of a write: the one after it sees the scopes of the old and the new record,
    and with the removal schema there is one before it that sees them too. *)
Definition track_message (before after : SourceTables) (records : list MessageRow) c : Changes :=
  mk_changes (c.(ch_messages) ++ (ms_message_id <$> records))
    (c.(ch_threads) ++ (if before.(st_has_removal_schema) then flat_map (message_scopes before) records else []) ++
     flat_map (message_scopes after) records).

Definition track_source (st : SourceTables) (ids : list text) c : Changes :=
  mk_changes (c.(ch_messages) ++ ids) (c.(ch_threads) ++ flat_map (source_scopes st) ids).

(** [_derived_scope_match_sql] *)
Definition scope_match (st : SourceTables) m (t : ChangedThread) : bool :=
  let '(p, a, d, k) := t in
  bool_decide (m.(ms_provider) = p) && bool_decide (m.(ms_account_id) = a) &&
  sql_is (effective_message_identity st m) d && sql_eq m.(ms_thread_key) k.

(** The rows that are computed again; all of them without evidence. *)
Definition reselected (ch : option Changes) (st : SourceTables) m : bool :=
  match ch with
  | None => true
  | Some c => bool_decide (m.(ms_message_id) ∈ c.(ch_messages)) || existsb (scope_match st m) c.(ch_threads)
  end.

Definition scope_changed (ch : option Changes) (k : ThreadScope) : bool :=
  match ch with
  | None => true
  | Some c => let '(p, a, d, key) := k in bool_decide ((p, a, Some d, Some key) ∈ c.(ch_threads))
  end.

(** ** The recomputation *)

Definition kept_attribution (ch : option Changes) (logical : list text) (message_id : text) : bool :=
  match ch with
  | None => bool_decide (message_id ∈ logical)
  | Some c => negb (bool_decide (message_id ∈ c.(ch_messages))) || bool_decide (message_id ∈ logical)
  end.

(** A thread without members goes. *)
Definition kept_thread (ch : option Changes) (groups : list (ThreadScope * list Member)) (k : ThreadScope) : bool :=
  is_some (dict_find k groups) || negb (scope_changed ch k).

Definition followed_in (follow : gmap ThreadScope FollowRow) (k : ThreadScope) : bool :=
  match follow !! k with Some f => is_some f.(fo_owner) | None => false end.

Definition mail_scope (k : ThreadScope) : MailScope := k.1.
Definition follow_view (e : ThreadScope * FollowRow) : ThreadFollowRow := {|
  tf_provider := e.1.1.1.1; tf_account_id := e.1.1.1.2; tf_mailbox_identity_key := e.1.1.2; tf_thread_key := e.1.2;
  tf_followed := is_some e.2.(fo_owner) |}.

(** The thread rows as the other components read them. *)
Definition with_follow (follow : gmap ThreadScope FollowRow) (d : ReconcileDb) : ReconcileDb :=
  let st := d.(r_sources) in
  mk_rdb {| st_messages := st.(st_messages); st_thread_follow := follow_view <$> map_to_list follow;
            st_mail_accounts := st.(st_mail_accounts); st_has_removal_schema := st.(st_has_removal_schema);
            st_intents := st.(st_intents); st_targets := st.(st_targets) |}
    d.(r_locations) d.(r_bodies) d.(r_generation) d.(r_coverage) d.(r_progress) d.(r_items) d.(r_catchup)
    d.(r_watermarks) d.(r_aliases).

(** The foreign key of [reconcile_catchup]: the targets of a deleted thread row go with it. *)
Definition cascade_targets (ch : option Changes) (groups : list (ThreadScope * list Member)) (follow : gmap ThreadScope FollowRow)
    (d : ReconcileDb) : ReconcileDb :=
  set_catchup (filter (fun e : MailScope * Z * text * text =>
    (is_some (follow !! (e.1.1.1, e.1.2)) && negb (kept_thread ch groups (e.1.1.1, e.1.2))) = false) d.(r_catchup)) d.

(** One thread; a thread that becomes followed gets its catch-up target. *)
Definition put_thread (now : Z) (x : gmap ThreadScope FollowRow * ReconcileDb) (group : ThreadScope * list Member)
    : py (gmap ThreadScope FollowRow * ReconcileDb) :=
  let '(follow, d) := x in
  let '(k, members) := group in
  let row := follow_row members in
  let starts := is_some row.(fo_owner) && negb (followed_in follow k) in
  let follow := <[k := row]> follow in
  let d := with_follow follow d in
  d ← if (starts : bool) then record_follow_transition (mail_scope k) k.2 now d else Ret d;
  Ret (follow, d).

(** [_recompute_derived] up to the effects of an unfollowing, with the evidence of the
    transaction; without it, everything is computed again *)
Definition recompute_derived (ch : option Changes) (coverage : list (MailScope * Z)) (now : Z) i
    (t : DerivedTables) (d : ReconcileDb) : py (DerivedTables * ReconcileDb) :=
  d ← flush_coverage_inputs coverage d;
  if (match ch with Some c => bool_decide (c.(ch_messages) = []) | None => false end) then Ret (t, d)
  else
    let ix := vendor_index i.(in_vendors) in
    let logical := logical_messages i.(in_sources) in
    let rows := List.filter (reselected ch i.(in_sources)) logical in
    let kept := filter (fun e => kept_attribution ch (ms_message_id <$> logical) e.1 = true) t.(dv_messages) in
    let messages := foldl (fun x m => <[m.(ms_message_id) := derived_row ix i m]> x) kept rows in
    let groups := thread_groups ix i rows in
    let follow := filter (fun e => kept_thread ch groups e.1 = true) t.(dv_follow) in
    let d := cascade_targets ch groups t.(dv_follow) d in
    '(follow, d) ← foldl_py (put_thread now) groups (follow, with_follow follow d);
    let watermarks := filter (fun e : MailScope * text * text => (scope_changed ch (e.1.1, e.1.2) && negb (followed_in follow (e.1.1, e.1.2))) = false)
                        d.(r_watermarks) in
    Ret (mk_derived_tables messages follow, set_watermarks watermarks d).

(** ** Content *)

(** [body_state.recompute]: the content of messages that are not followed goes, unless a
    removal owns it or its rows are too many to lock; [ready] is the source-lock protocol *)
Definition content_eligible (st : SourceTables) (message_id : text) : bool :=
  existsb (fun m => bool_decide (m.(ms_message_id) = message_id) && existsb (followed_message st m) st.(st_thread_follow))
    (logical_messages st).

Definition content_held (ready : bool) (st : SourceTables) (message_id : text) : bool :=
  existsb (fun m => bool_decide (m.(ms_message_id) = message_id) && negb (content_available st m)) st.(st_messages) ||
  (negb ready && negb (content_eligible st message_id) &&
   (SOURCE_CLEANUP_LOCK_BATCH_SIZE <? length (unit_members message_id st.(st_messages)))%nat).

Definition recompute_bodies (ready : bool) (st : SourceTables) (returned : gset text) (b : BodyTables) : BodyTables :=
  let keeps (id : text) := content_eligible st id || content_held ready st id in
  mk_body_tables (filter (fun e => keeps e.1 = true) b.(bt_bodies))
    (filter (fun e => keeps e.1 = true ∧ e.1 ∉ returned) b.(bt_unavailable)) b.(bt_checkpoint).
