(* ===== verification/DerivedTheorems.v ===== *)
(** * Theorems about the derived state

    The recomputation from the evidence of a transaction comes to what a recomputation of
    everything comes to. *)

From S2P Require Export DerivedState RemovalAccept.
From S2P Require Import RuleTheorems GmailCodec.
From stdpp Require Import options.

Local Open Scope Z_scope.

Implicit Types i : DerivedInputs.
Implicit Types m : MessageRow.
Implicit Types c : Changes.
Implicit Types ix : VendorIndex.

(** ** What the tables should hold *)

Definition members_of ix i (k : ThreadScope) (rows : list MessageRow) : list Member :=
  thread_member ix i <$> List.filter (fun m => bool_decide (thread_scope i.(in_sources) m = Some k)) rows.

(** The attribution of a logical message. *)
Definition attribution_spec i (message_id : text) : option DerivedRow :=
  derived_row (vendor_index i.(in_vendors)) i <$> message_in message_id (logical_messages i.(in_sources)).

(** The row of a thread with members. *)
Definition follow_spec i (k : ThreadScope) : option FollowRow :=
  match members_of (vendor_index i.(in_vendors)) i k (logical_messages i.(in_sources)) with
  | [] => None
  | members => Some (follow_row members)
  end.

(** ** Groups *)

Lemma members_of_snoc ix i k rows m : members_of ix i k (rows ++ [m]) =
  (members_of ix i k rows ++ if bool_decide (thread_scope i.(in_sources) m = Some k) then [thread_member ix i m] else [])%list.
Proof. unfold members_of. rewrite List.filter_app, fmap_app. simpl. by case_bool_decide. Qed.

Lemma dict_put_find {K V} `{EqDecision K} (k k' : K) (v : V) l :
  dict_find k' (dict_put k v l) = if bool_decide (k' = k) then Some v else dict_find k' l.
Proof.
  unfold dict_find. induction l as [|[x y] l IH]; simpl.
  { repeat case_bool_decide; simpl; congruence. }
  destruct (bool_decide_reflect (x = k)) as [->|Hn]; simpl.
  - repeat case_bool_decide; simpl; congruence.
  - destruct (bool_decide_reflect (x = k')) as [->|]; simpl; [by rewrite bool_decide_eq_false_2|done].
Qed.

Lemma thread_groups_find ix i k rows : dict_find k (thread_groups ix i rows) =
  match members_of ix i k rows with [] => None | members => Some members end.
Proof.
  unfold thread_groups. induction rows as [|m rows IH] using rev_ind; [done|].
  rewrite foldl_snoc, members_of_snoc. unfold add_member at 1.
  destruct (thread_scope (in_sources i) m) as [k'|] eqn:E.
  2: { rewrite bool_decide_eq_false_2, app_nil_r by done. done. }
  rewrite dict_put_find. destruct (bool_decide_reflect (k = k')) as [->|Hn].
  - rewrite bool_decide_eq_true_2 by done. rewrite IH. by destruct (members_of ix i k' rows).
  - rewrite bool_decide_eq_false_2, app_nil_r by congruence. done.
Qed.

Lemma thread_groups_nodup ix i rows : NoDup (thread_groups ix i rows).*1.
Proof.
  unfold thread_groups. induction rows as [|m rows IH] using rev_ind; [constructor|]. rewrite foldl_snoc. unfold add_member.
  destruct (thread_scope (in_sources i) m); [by apply dict_put_nodup|done].
Qed.

(** ** Threads *)

Lemma thread_row_found k f follow d : follow !! k = Some f → is_some (thread_row (mail_scope k) k.2 (with_follow follow d)) = true.
Proof.
  intros Hf. unfold thread_row. simpl.
  destruct (List.find _ (follow_view <$> map_to_list follow)) eqn:E; [done|].
  eapply List.find_none in E; [|apply list_elem_of_In, list_elem_of_fmap_2, elem_of_map_to_list; exact Hf].
  destruct k as [[[p a] x] key]. simpl in E. unfold in_mailbox in E. simpl in E. rewrite !bool_decide_eq_true_2 in E by done. done.
Qed.

(** The catch-up targets after some threads became followed at [now]. *)
Definition caught_up (now : Z) (progress : gmap MailScope ProgressRow) (starts : ThreadScope → bool)
    (catchup : gmap (MailScope * Z * text) text) (k : MailScope * Z * text) : option text :=
  match progress !! k.1.1 with
  | Some row => if bool_decide (row.(rp_generation) = k.1.2) && starts (k.1.1, k.2)
                then Some (match catchup !! k with Some t => text_max t (utc_stamp now) | None => utc_stamp now end)
                else catchup !! k
  | None => catchup !! k
  end.

(** A thread becomes followed. *)
Definition group_starts (groups : list (ThreadScope * list Member)) (follow : gmap ThreadScope FollowRow) (k : ThreadScope) : bool :=
  match dict_find k groups with
  | Some members => is_some (follow_row members).(fo_owner) && negb (followed_in follow k)
  | None => false
  end.

Lemma with_follow_twice follow follow' d : with_follow follow (with_follow follow' d) = with_follow follow d.
Proof. done. Qed.
Lemma with_follow_catchup follow cu d : with_follow follow (set_catchup cu d) = set_catchup cu (with_follow follow d).
Proof. done. Qed.

(** One thread changes its row and its catch-up target. *)
Lemma put_thread_ret now follow d k members : ∃ cu,
  put_thread now (follow, d) (k, members) =
    Ret (<[k := follow_row members]> follow, set_catchup cu (with_follow (<[k := follow_row members]> follow) d)) ∧
  ∀ x, cu !! x = caught_up now d.(r_progress) (group_starts [(k, members)] follow) d.(r_catchup) x.
Proof.
  assert (∀ k', group_starts [(k, members)] follow k' =
    bool_decide (k = k') && (is_some (follow_row members).(fo_owner) && negb (followed_in follow k))) as Hs.
  { intros k'. unfold group_starts, dict_find. simpl. by destruct (bool_decide_reflect (k = k')) as [<-|]. }
  unfold put_thread, caught_up. destruct (_ && _) eqn:E.
  - unfold record_follow_transition. cbn [r_progress with_follow]. destruct (r_progress d !! mail_scope k) as [row|] eqn:Er.
    + rewrite thread_row_found with (f := follow_row members) by apply lookup_insert_eq. simpl. eexists. split; [reflexivity|].
      intros [[s g] key]. simpl. rewrite Hs, andb_true_r. destruct k as [s0 key0]. simpl in *.
      destruct (decide ((s, g, key) = (s0, rp_generation row, key0))) as [E'|Hne].
      * injection E' as -> -> ->. by rewrite Er, lookup_insert_eq, !bool_decide_eq_true_2.
      * rewrite lookup_insert_ne by congruence. destruct (r_progress d !! s) as [row'|] eqn:E'; [|done].
        clear E Hs. destruct (_ && _) eqn:Eb; [|done]. apply andb_true_iff in Eb as [E1%bool_decide_eq_true E2%bool_decide_eq_true]. exfalso. injection E2 as <- <-. simplify_eq.
    + exists (r_catchup d). split; [reflexivity|]. intros [[s g] key]. simpl. rewrite Hs, andb_true_r.
      destruct (r_progress d !! s) as [row'|] eqn:E'; [|done]. clear E Hs. destruct (_ && _) eqn:Eb; [|done]. apply andb_true_iff in Eb as [E1%bool_decide_eq_true E2%bool_decide_eq_true]. exfalso. subst k. simpl in Er. congruence.
  - exists (r_catchup d). split; [reflexivity|]. intros [[s g] key]. simpl. rewrite Hs, !andb_false_r.
    destruct (r_progress d !! s); [by rewrite andb_false_r|done].
Qed.

Lemma caught_up_ext now progress starts starts' cu x : (∀ k, starts k = starts' k) →
  caught_up now progress starts cu x = caught_up now progress starts' cu x.
Proof. intros H. unfold caught_up. by rewrite H. Qed.

Lemma put_threads_ret now groups : NoDup groups.*1 → ∀ follow d, ∃ follow' cu,
  foldl_py (put_thread now) groups (follow, with_follow follow d) = Ret (follow', set_catchup cu (with_follow follow' d)) ∧
  (∀ k, follow' !! k = match dict_find k groups with Some members => Some (follow_row members) | None => follow !! k end) ∧
  ∀ x, cu !! x = caught_up now d.(r_progress) (group_starts groups follow) d.(r_catchup) x.
Proof.
  induction groups as [|[k members] groups IH]; intros Hnd follow d.
  { exists follow, (r_catchup d). split_and!; [done|done|]. intros x. unfold caught_up. destruct (r_progress d !! x.1.1); [|done]. by rewrite andb_false_r. }
  rewrite fmap_cons, list.NoDup_cons in Hnd. destruct Hnd as [Hk Hnd]. simpl in Hk.
  destruct (put_thread_ret now follow (with_follow follow d) k members) as (cu1 & E1 & H1).
  cbn [foldl_py]. rewrite E1, with_follow_twice. cbn [mbind py_bind]. rewrite <- with_follow_catchup.
  destruct (IH Hnd (<[k := follow_row members]> follow) (set_catchup cu1 d)) as (follow' & cu & E' & Hl & Hc). exists follow', cu.
  assert (dict_find k groups = None) as Hnone by by apply dict_find_none.
  assert (∀ k', dict_find k' ((k, members) :: groups) = if bool_decide (k = k') then Some members else dict_find k' groups) as Hfind.
  { intros k'. unfold dict_find. simpl. by destruct (bool_decide_reflect (k = k')). }
  split; [done|]. split.
  - intros k'. rewrite Hl, Hfind. destruct (bool_decide_reflect (k = k')) as [<-|Hn]; [by rewrite Hnone, lookup_insert_eq|].
    by rewrite lookup_insert_ne.
  - intros x. rewrite Hc. cbn [r_progress r_catchup set_catchup with_follow] in *. unfold caught_up in *. rewrite H1.
    destruct (r_progress d !! x.1.1) as [row|]; [|done]. destruct (bool_decide _); simpl; [|done].
    assert (dict_find (x.1.1, x.2) [(k, members)] = if bool_decide (k = (x.1.1, x.2)) then Some members else None) as Hone.
    { unfold dict_find. simpl. by destruct (bool_decide_reflect (k = (x.1.1, x.2))). }
    unfold group_starts, followed_in. rewrite Hfind, Hone.
    destruct (bool_decide_reflect (k = (x.1.1, x.2))) as [Ek|Hn].
    + by rewrite <- Ek, Hnone.
    + by rewrite lookup_insert_ne.
Qed.

(** ** One recomputation *)

Definition message_ids (rows : list MessageRow) : list text := ms_message_id <$> rows.

Lemma message_in_elem id rows m : message_in id rows = Some m → m ∈ rows ∧ m.(ms_message_id) = id.
Proof. unfold message_in. intros [Hin E]%List.find_some. bools. split; [by apply list_elem_of_In|done]. Qed.

Lemma message_in_nodup rows m : NoDup (message_ids rows) → m ∈ rows → message_in m.(ms_message_id) rows = Some m.
Proof.
  unfold message_in, message_ids. induction rows as [|x rows IH]; intros Hnd Hm; [by apply not_elem_of_nil in Hm|].
  rewrite fmap_cons, list.NoDup_cons in Hnd. destruct Hnd as [Hx Hnd]. simpl. apply elem_of_cons in Hm as [->|Hm].
  - by rewrite bool_decide_eq_true_2.
  - rewrite bool_decide_eq_false_2; [by apply IH|]. intros E. apply Hx. rewrite E. by apply list_elem_of_fmap_2.
Qed.

Lemma message_in_none id rows : message_in id rows = None ↔ id ∉ message_ids rows.
Proof.
  split.
  - intros Hn Hin. unfold message_ids in Hin. apply list_elem_of_fmap in Hin as (m & -> & Hm).
    unfold message_in in Hn. eapply List.find_none in Hn; [|by apply list_elem_of_In]. by rewrite bool_decide_eq_true_2 in Hn.
  - intros Hn. destruct (message_in id rows) as [m|] eqn:E; [|done]. apply message_in_elem in E as [Hm <-]. destruct Hn.
    by apply list_elem_of_fmap_2.
Qed.

Lemma filter_ids_nodup (P : MessageRow → bool) rows : NoDup (message_ids rows) → NoDup (message_ids (List.filter P rows)).
Proof.
  unfold message_ids. induction rows as [|x rows IH]; simpl; [done|]. rewrite list.NoDup_cons. intros [Hx Hnd].
  destruct (P x); [|auto]. simpl. rewrite list.NoDup_cons. split; [|auto]. intros (y & E & [Hy _]%elem_of_filter_b)%list_elem_of_fmap.
  apply Hx. rewrite E. by apply list_elem_of_fmap_2.
Qed.

Lemma put_rows_lookup {A} (f : MessageRow → A) rows : NoDup (message_ids rows) → ∀ (x : gmap text A) id,
  foldl (fun x m => <[m.(ms_message_id) := f m]> x) x rows !! id =
  match message_in id rows with Some m => Some (f m) | None => x !! id end.
Proof.
  induction rows as [|m rows IH]; intros Hnd x id; [done|].
  unfold message_ids in Hnd. rewrite fmap_cons, list.NoDup_cons in Hnd. destruct Hnd as [Hm Hnd]. simpl. rewrite IH by done.
  unfold message_in at 2. simpl. destruct (bool_decide_reflect (ms_message_id m = id)) as [<-|Hn].
  - assert (message_in (ms_message_id m) rows = None) as -> by by apply message_in_none. apply lookup_insert_eq.
  - fold (message_in id rows). destruct (message_in id rows); [done|]. by rewrite lookup_insert_ne.
Qed.

Lemma logical_nodup st : NoDup (message_ids st.(st_messages)) → NoDup (message_ids (logical_messages st)).
Proof. apply filter_ids_nodup. Qed.

(** The rows a recomputation computes again. *)
Definition again (ch : option Changes) i : list MessageRow :=
  List.filter (reselected ch i.(in_sources)) (logical_messages i.(in_sources)).

(** A thread row that is deleted, with its targets. *)
Definition dropped_thread (ch : option Changes) i (t : DerivedTables) (k : ThreadScope) : bool :=
  is_some (t.(dv_follow) !! k) && scope_changed ch k &&
  match members_of (vendor_index i.(in_vendors)) i k (again ch i) with [] => true | _ => false end.

(** The tables, catch-up targets and watermarks after a recomputation. *)
Record recomputed (ch : option Changes) (now : Z) i (t : DerivedTables) (d : ReconcileDb) (t' : DerivedTables)
    (cu : gmap (MailScope * Z * text) text) (w : gmap (MailScope * text) text) : Prop := {
  rd_messages : ∀ id, t'.(dv_messages) !! id =
    match message_in id (again ch i) with
    | Some m => Some (derived_row (vendor_index i.(in_vendors)) i m)
    | None => if kept_attribution ch (message_ids (logical_messages i.(in_sources))) id then t.(dv_messages) !! id else None
    end;
  rd_follow : ∀ k, t'.(dv_follow) !! k =
    match members_of (vendor_index i.(in_vendors)) i k (again ch i) with
    | [] => if scope_changed ch k then None else t.(dv_follow) !! k
    | members => Some (follow_row members)
    end;
  rd_catchup : ∃ cu0, (∀ x v, cu0 !! x = Some v ↔ d.(r_catchup) !! x = Some v ∧ dropped_thread ch i t (x.1.1, x.2) = false) ∧
    ∀ x, cu !! x = caught_up now d.(r_progress) (fun k =>
    match members_of (vendor_index i.(in_vendors)) i k (again ch i) with
    | [] => false
    | members => is_some (follow_row members).(fo_owner) && negb (followed_in t.(dv_follow) k)
    end) cu0 x;
  rd_watermarks : ∀ k v, w !! k = Some v ↔
    d.(r_watermarks) !! k = Some v ∧ (scope_changed ch k && negb (followed_in t'.(dv_follow) k)) = false }.

Lemma recompute_ret ch coverage now i t d d1 : NoDup (message_ids i.(in_sources).(st_messages)) →
  flush_coverage_inputs coverage d = Ret d1 → (match ch with Some c => c.(ch_messages) ≠ [] | None => True end) →
  ∃ t' cu w, recompute_derived ch coverage now i t d = Ret (t', set_watermarks w (set_catchup cu (with_follow t'.(dv_follow) d1))) ∧
    recomputed ch now i t d1 t' cu w.
Proof.
  intros Hnd Hfl Hch. unfold recompute_derived. rewrite Hfl. cbn [mbind py_bind].
  assert (match ch with Some c => bool_decide (c.(ch_messages) = []) | None => false end = false) as ->.
  { destruct ch as [c|]; [by apply bool_decide_eq_false_2|done]. }
  set (ix := vendor_index _). fold (again ch i). set (logical := logical_messages _). set (rows := again ch i). cbv zeta.
  set (kept := filter (fun e : ThreadScope * FollowRow => kept_thread ch _ e.1 = true) _).
  destruct (put_threads_ret now (thread_groups ix i rows) (thread_groups_nodup ix i rows) kept
    (cascade_targets ch (thread_groups ix i rows) t.(dv_follow) d1)) as (follow & cu & -> & Hf & Hc). cbn [mbind py_bind].
  assert (∀ k, kept !! k = if is_some (dict_find k (thread_groups ix i rows)) || negb (scope_changed ch k) then t.(dv_follow) !! k else None) as Hkept.
  { intros k. apply option_eq. intros v. unfold kept. rewrite map_lookup_filter_Some. simpl. unfold kept_thread.
    destruct (_ || _); naive_solver. }
  eexists (mk_derived_tables _ _), cu, _. split; [reflexivity|]. split; cbn [dv_messages dv_follow r_watermarks set_watermarks]; fold ix logical rows.
  - intros id. rewrite put_rows_lookup by by apply filter_ids_nodup, logical_nodup.
    destruct (message_in id rows); [done|]. apply option_eq. intros v. rewrite map_lookup_filter_Some. simpl. unfold message_ids.
    destruct (kept_attribution _ _ _); naive_solver.
  - intros k. rewrite Hf, Hkept, thread_groups_find. destruct (members_of ix i k rows) eqn:Em; [|done]. simpl. by destruct (scope_changed ch k).
  - eexists. split; [|intros x; rewrite Hc; apply caught_up_ext; intros k; unfold group_starts, followed_in; rewrite Hkept, thread_groups_find;
      by destruct (members_of ix i k rows)].
    intros [[s g] key] v. cbn [r_catchup set_catchup cascade_targets]. rewrite map_lookup_filter_Some. simpl.
    unfold kept_thread, dropped_thread. rewrite thread_groups_find. fold ix rows.
    destruct (members_of ix i (s, key) rows), (scope_changed ch (s, key)), (is_some _); simpl; naive_solver.
  - intros [s key] v. rewrite map_lookup_filter_Some. done.
Qed.

Lemma again_all i : again None i = logical_messages i.(in_sources).
Proof. unfold again. generalize (logical_messages i.(in_sources)). intros l. by induction l as [|x l IH]; simpl; [|rewrite IH]. Qed.

(** Without evidence the tables are what they should be. *)
Lemma recomputed_full now i t d t' cu w : recomputed None now i t d t' cu w →
  (∀ id, t'.(dv_messages) !! id = attribution_spec i id) ∧ (∀ k, t'.(dv_follow) !! k = follow_spec i k).
Proof.
  intros [Hm Hf _ _]. rewrite again_all in Hm, Hf. split.
  - intros id. rewrite Hm. unfold attribution_spec. destruct (message_in id _) eqn:Ei; [done|]. simpl.
    apply message_in_none in Ei. by rewrite bool_decide_eq_false_2.
  - intros k. rewrite Hf. unfold follow_spec. simpl. by destruct (members_of _ i k _).
Qed.

(** ** Writes and their evidence *)

Definition put_messages (messages : list MessageRow) (senders : gmap text text) i : DerivedInputs :=
  let st := i.(in_sources) in
  mk_inputs {| st_messages := messages; st_thread_follow := st.(st_thread_follow); st_mail_accounts := st.(st_mail_accounts);
               st_has_removal_schema := st.(st_has_removal_schema); st_intents := st.(st_intents); st_targets := st.(st_targets) |}
    i.(in_locations) senders i.(in_recipients) i.(in_vendors).

Definition put_locations (lt : LocationTables) i : DerivedInputs :=
  mk_inputs i.(in_sources) lt i.(in_senders) i.(in_recipients) i.(in_vendors).

Definition put_recipients (r : gmap text Recipients) i : DerivedInputs :=
  mk_inputs i.(in_sources) i.(in_locations) i.(in_senders) r i.(in_vendors).

Definition location_owner (l : option Location) : list text := match l with Some l => [l.(lo_message_id)] | None => [] end.

(** The writes to messages, locations and recipients, one row at a time, each with the
    evidence of its triggers; the other inputs are read again in full when they change. *)
Inductive input_write i c : DerivedInputs → Changes → Prop :=
| write_insert m sender :
    m.(ms_message_id) ∉ message_ids i.(in_sources).(st_messages) → is_Some m.(ms_thread_key) →
    let i' := put_messages (i.(in_sources).(st_messages) ++ [m]) (<[m.(ms_message_id) := sender]> i.(in_senders)) i in
    input_write i c i' (track_message i.(in_sources) i'.(in_sources) [m] c)
| write_delete m :
    m ∈ i.(in_sources).(st_messages) →
    let i' := put_messages (List.filter (fun x => negb (bool_decide (x.(ms_message_id) = m.(ms_message_id)))) i.(in_sources).(st_messages))
                (delete m.(ms_message_id) i.(in_senders)) i in
    input_write i c i' (track_message i.(in_sources) i'.(in_sources) [m] c)
| write_update m m' sender :
    m ∈ i.(in_sources).(st_messages) → m'.(ms_message_id) = m.(ms_message_id) → is_Some m'.(ms_thread_key) →
    let i' := put_messages ((fun x => if bool_decide (x.(ms_message_id) = m.(ms_message_id)) then m' else x) <$> i.(in_sources).(st_messages))
                (<[m.(ms_message_id) := sender]> i.(in_senders)) i in
    input_write i c i' (track_message i.(in_sources) i'.(in_sources) [m; m'] c)
| write_location key new :
    let lt := i.(in_locations) in
    let i' := put_locations (mk_location_tables lt.(lt_observations) (partial_alter (fun _ => new) key lt.(lt_locations)) lt.(lt_returned)) i in
    input_write i c i' (track_source i.(in_sources) (location_owner (lt.(lt_locations) !! key) ++ location_owner new) c)
| write_recipients id r :
    input_write i c (put_recipients (<[id := r]> i.(in_recipients)) i) (track_source i.(in_sources) [id] c)
| write_observation lt :
    lt.(lt_locations) = i.(in_locations).(lt_locations) → input_write i c (put_locations lt i) c.

Record inputs_ok i : Prop := {
  io_nodup : NoDup (message_ids i.(in_sources).(st_messages));
  io_keyed : ∀ m, m ∈ i.(in_sources).(st_messages) → is_Some m.(ms_thread_key) }.

(** The inputs that a write leaves alone. *)
Record fixed_inputs i i' : Prop := {
  fx_accounts : i'.(in_sources).(st_mail_accounts) = i.(in_sources).(st_mail_accounts);
  fx_schema : i'.(in_sources).(st_has_removal_schema) = i.(in_sources).(st_has_removal_schema);
  fx_intents : i'.(in_sources).(st_intents) = i.(in_sources).(st_intents);
  fx_targets : i'.(in_sources).(st_targets) = i.(in_sources).(st_targets);
  fx_vendors : i'.(in_vendors) = i.(in_vendors) }.

(** What the derived values of a logical message are computed from. *)
Record same_view i i' (id : text) : Prop := {
  sv_unit : unit_of_row i' id = unit_of_row i id;
  sv_outbound : outbound i' (unit_of_row i' id) = outbound i (unit_of_row i id);
  sv_sender : i'.(in_senders) !! id = i.(in_senders) !! id;
  sv_recipients : i'.(in_recipients) !! id = i.(in_recipients) !! id }.

Lemma same_view_trans i i1 i2 id : same_view i i1 id → same_view i1 i2 id → same_view i i2 id.
Proof. intros [] []. split; congruence. Qed.

Lemma same_view_values ix i i' m : same_view i i' m.(ms_message_id) →
  derived_row ix i' m = derived_row ix i m ∧ thread_member ix i' m = thread_member ix i m.
Proof.
  intros [Eu Eo Es Er].
  assert (attribution_of ix i' m = attribution_of ix i m) as Ea.
  { unfold attribution_of, recipients_of. by rewrite Es, Er, Eo. }
  unfold derived_row, thread_member. rewrite Ea, Eo, Eu. done.
Qed.

Lemma effective_fixed i i' m : fixed_inputs i i' →
  effective_message_identity i'.(in_sources) m = effective_message_identity i.(in_sources) m.
Proof. intros []. unfold effective_message_identity. by rewrite fx_accounts0. Qed.

Lemma row_scope_fixed i i' m : fixed_inputs i i' → row_scope i'.(in_sources) m = row_scope i.(in_sources) m.
Proof. intros Hf. unfold row_scope. by rewrite (effective_fixed i i'). Qed.

Lemma thread_scope_fixed i i' m : fixed_inputs i i' → thread_scope i'.(in_sources) m = thread_scope i.(in_sources) m.
Proof. intros Hf. unfold thread_scope. by rewrite (effective_fixed i i'). Qed.

Lemma logical_elem st m : m ∈ logical_messages st ↔ m ∈ st.(st_messages) ∧ m.(ms_logical_of) = None ∧
  (negb st.(st_has_removal_schema) || available st RECORD (source_of_message m)) = true.
Proof.
  unfold logical_messages. rewrite elem_of_filter_b, andb_true_iff. destruct (ms_logical_of m); simpl; naive_solver.
Qed.

Lemma logical_fixed i i' m : fixed_inputs i i' → (m ∈ i'.(in_sources).(st_messages) ↔ m ∈ i.(in_sources).(st_messages)) →
  m ∈ logical_messages i'.(in_sources) ↔ m ∈ logical_messages i.(in_sources).
Proof.
  intros [_ Es Ei Et _] Hm. rewrite !logical_elem, Hm, Es. unfold available, intents_of_target. by rewrite Ei, Et.
Qed.

(** ** One write *)

Definition in_unit (id : text) m : bool := bool_decide (m.(ms_message_id) = id) || bool_decide (m.(ms_logical_of) = Some id).

Lemma messages_view i messages senders id :
  List.filter (in_unit id) messages = List.filter (in_unit id) i.(in_sources).(st_messages) →
  message_in id messages = message_in id i.(in_sources).(st_messages) → senders !! id = i.(in_senders) !! id →
  same_view i (put_messages messages senders i) id.
Proof.
  intros Ef Em Es.
  assert (unit_of_row (put_messages messages senders i) id = unit_of_row i id) as Eu.
  { unfold unit_of_row, unit_of_canonical, unit_members. simpl. unfold in_unit in Ef. by rewrite Ef, Em. }
  split; [done| |done|done]. rewrite Eu. done.
Qed.

Lemma filter_snoc_false (P : MessageRow → bool) l x : P x = false → List.filter P (l ++ [x]) = List.filter P l.
Proof. intros Hx. rewrite List.filter_app. simpl. by rewrite Hx, app_nil_r. Qed.

Lemma filter_without (P Q : MessageRow → bool) l : (∀ x, x ∈ l → Q x = false → P x = false) →
  List.filter P (List.filter Q l) = List.filter P l.
Proof.
  induction l as [|x l IH]; simpl; [done|]. intros H. assert (∀ y, y ∈ l → Q y = false → P y = false) as H' by (intros y Hy; apply H; by right).
  specialize (IH H'). destruct (Q x) eqn:Eq; simpl; [destruct (P x); congruence|]. rewrite (H x) by (by left || done). done.
Qed.

Lemma filter_replaced (P : MessageRow → bool) (f : MessageRow → MessageRow) l :
  (∀ x, x ∈ l → f x = x ∨ P x = false ∧ P (f x) = false) → List.filter P (f <$> l) = List.filter P l.
Proof.
  induction l as [|x l IH]; intros H; [done|]. rewrite fmap_cons. cbn [List.filter].
  rewrite IH by (intros y Hy; apply H; by right). destruct (H x) as [->|[E1 E2]]; [by left|done|]. by rewrite E1, E2.
Qed.

(** A row that is not in the unit of [m], unless its evidence names the thread of [m]. *)
Lemma unit_evidence st m r : NoDup (message_ids st.(st_messages)) → m ∈ st.(st_messages) → m.(ms_message_id) ≠ r.(ms_message_id) →
  row_scope st m ∉ message_scopes st r → in_unit m.(ms_message_id) r = false.
Proof.
  intros Hnd Hm Hne Hs. unfold in_unit. rewrite bool_decide_eq_false_2 by done. simpl. apply bool_decide_eq_false_2.
  intros El. apply Hs. unfold message_scopes. rewrite El, message_in_nodup by done. by right; left.
Qed.

Definition untouched (ids : list text) m : bool := negb (bool_decide (m.(ms_message_id) ∈ ids)).

(** What a write and its evidence satisfy. *)
Record framed i i' (ids : list text) (scopes : list ChangedThread) : Prop := {
  fm_fixed : fixed_inputs i i';
  fm_ok : inputs_ok i';
  fm_list : List.filter (untouched ids) i'.(in_sources).(st_messages) = List.filter (untouched ids) i.(in_sources).(st_messages);
  fm_view : ∀ m, m ∈ i'.(in_sources).(st_messages) → m.(ms_message_id) ∉ ids → row_scope i.(in_sources) m ∉ scopes →
    same_view i i' m.(ms_message_id);
  fm_after : ∀ m, m.(ms_message_id) ∈ ids → m ∈ i'.(in_sources).(st_messages) → row_scope i.(in_sources) m ∈ scopes;
  fm_before : ∀ m, m.(ms_message_id) ∈ ids → m ∈ i.(in_sources).(st_messages) → row_scope i.(in_sources) m ∈ scopes;
  fm_empty : ids = [] → scopes = [] }.

Lemma put_messages_fixed i messages senders : fixed_inputs i (put_messages messages senders i).
Proof. by split. Qed.

Lemma message_ids_snoc l m : message_ids (l ++ [m]) = (message_ids l ++ [m.(ms_message_id)])%list.
Proof. unfold message_ids. by rewrite fmap_app. Qed.

Lemma row_scope_head st m : row_scope st m ∈ message_scopes st m.
Proof. by left. Qed.

Lemma frame_insert i m sender : inputs_ok i → m.(ms_message_id) ∉ message_ids i.(in_sources).(st_messages) → is_Some m.(ms_thread_key) →
  let i' := put_messages (i.(in_sources).(st_messages) ++ [m]) (<[m.(ms_message_id) := sender]> i.(in_senders)) i in
  framed i i' [m.(ms_message_id)] (message_scopes i.(in_sources) m ++ message_scopes i'.(in_sources) m).
Proof.
  intros [Hnd Hk] Hnew Hkey i'.
  assert (NoDup (message_ids i'.(in_sources).(st_messages))) as Hnd'.
  { simpl. rewrite message_ids_snoc. apply list.NoDup_app. split_and!; [done| |apply NoDup_singleton].
    intros x Hx ->%list_elem_of_singleton. done. }
  split.
  - apply put_messages_fixed.
  - split; [done|]. simpl. intros x [?| ->%list_elem_of_singleton]%elem_of_app; auto.
  - apply filter_snoc_false. unfold untouched. by rewrite bool_decide_eq_true_2 by by left.
  - intros x Hx' Hid Hs. pose proof Hx' as Hx. simpl in Hx. apply elem_of_app in Hx as [Hx| ->%list_elem_of_singleton]; [|destruct Hid; by left].
    rewrite list_elem_of_singleton in Hid. rewrite elem_of_app in Hs.
    apply messages_view; [|by rewrite !message_in_nodup|by rewrite lookup_insert_ne].
    apply filter_snoc_false. apply (unit_evidence i.(in_sources)); [done|done|done|]. tauto.
  - intros x Hid Hx. rewrite list_elem_of_singleton in Hid. simpl in Hx. apply elem_of_app in Hx as [Hx| ->%list_elem_of_singleton].
    + destruct Hnew. rewrite <- Hid. by apply list_elem_of_fmap_2.
    + apply elem_of_app. left. apply row_scope_head.
  - intros x Hid Hx. rewrite list_elem_of_singleton in Hid. destruct Hnew. rewrite <- Hid. by apply list_elem_of_fmap_2.
  - done.
Qed.

Lemma nodup_same l m m' : NoDup (message_ids l) → m ∈ l → m' ∈ l → m'.(ms_message_id) = m.(ms_message_id) → m' = m.
Proof. intros Hnd Hm Hm' E. apply message_in_nodup in Hm, Hm'; [|done..]. congruence. Qed.

Lemma frame_delete i m : inputs_ok i → m ∈ i.(in_sources).(st_messages) →
  let i' := put_messages (List.filter (fun x => negb (bool_decide (x.(ms_message_id) = m.(ms_message_id)))) i.(in_sources).(st_messages))
              (delete m.(ms_message_id) i.(in_senders)) i in
  framed i i' [m.(ms_message_id)] (message_scopes i.(in_sources) m ++ message_scopes i'.(in_sources) m).
Proof.
  intros [Hnd Hk] Hm i'.
  assert (NoDup (message_ids i'.(in_sources).(st_messages))) as Hnd' by by apply filter_ids_nodup.
  assert (∀ x, x ∈ i'.(in_sources).(st_messages) ↔ x ∈ i.(in_sources).(st_messages) ∧ x.(ms_message_id) ≠ m.(ms_message_id)) as Hel.
  { intros x. simpl. by rewrite elem_of_filter_b, negb_true_iff, bool_decide_eq_false. }
  split.
  - apply put_messages_fixed.
  - split; [done|]. intros x [Hx _]%Hel. auto.
  - apply filter_without. intros x _ E. unfold untouched. rewrite bool_decide_eq_true_2; [done|].
    apply negb_false_iff, bool_decide_eq_true_1 in E. rewrite E. by left.
  - intros x Hx' Hid Hs. pose proof Hx' as [Hx Hne]%Hel. rewrite elem_of_app in Hs.
    apply messages_view; [|by rewrite !message_in_nodup|by rewrite lookup_delete_ne].
    apply filter_without. intros y Hy E. apply negb_false_iff, bool_decide_eq_true_1 in E.
    assert (y = m) as -> by exact (nodup_same _ m y Hnd Hm Hy E). apply (unit_evidence i.(in_sources)); [done|done|done|]. tauto.
  - intros x Hid [_ Hne]%Hel. rewrite list_elem_of_singleton in Hid. done.
  - intros x Hid Hx. rewrite list_elem_of_singleton in Hid. assert (x = m) as -> by exact (nodup_same _ m x Hnd Hm Hx Hid).
    apply elem_of_app. left. apply row_scope_head.
  - done.
Qed.

Lemma frame_update i m m' sender : inputs_ok i → m ∈ i.(in_sources).(st_messages) → m'.(ms_message_id) = m.(ms_message_id) →
  is_Some m'.(ms_thread_key) →
  let i' := put_messages ((fun x => if bool_decide (x.(ms_message_id) = m.(ms_message_id)) then m' else x) <$> i.(in_sources).(st_messages))
              (<[m.(ms_message_id) := sender]> i.(in_senders)) i in
  framed i i' [m.(ms_message_id); m'.(ms_message_id)]
    ((message_scopes i.(in_sources) m ++ message_scopes i.(in_sources) m') ++ (message_scopes i'.(in_sources) m ++ message_scopes i'.(in_sources) m')).
Proof.
  intros [Hnd Hk] Hm Eid Hkey i'. set (f := fun x => if bool_decide (x.(ms_message_id) = m.(ms_message_id)) then m' else x) in *.
  assert (message_ids i'.(in_sources).(st_messages) = message_ids i.(in_sources).(st_messages)) as Eids.
  { unfold message_ids. simpl. rewrite <- list_fmap_compose. apply list_fmap_ext. intros n x Hx. simpl. unfold f. case_bool_decide; congruence. }
  assert (NoDup (message_ids i'.(in_sources).(st_messages))) as Hnd' by by rewrite Eids.
  assert (∀ x, x.(ms_message_id) ≠ m.(ms_message_id) → x ∈ i'.(in_sources).(st_messages) ↔ x ∈ i.(in_sources).(st_messages)) as Hel.
  { intros x Hx. simpl. rewrite list_elem_of_fmap. unfold f. split.
    - intros (y & E & Hy). case_bool_decide; subst; congruence.
    - intros Hin. exists x. by rewrite bool_decide_eq_false_2. }
  assert (∀ x, x ∈ i'.(in_sources).(st_messages) → x.(ms_message_id) = m.(ms_message_id) → x = m') as Hnew.
  { intros x Hx E. simpl in Hx. apply list_elem_of_fmap in Hx as (y & -> & Hy). unfold f in *. case_bool_decide; [done|congruence]. }
  assert (∀ x, x.(ms_message_id) ∉ [m.(ms_message_id); m'.(ms_message_id)] → x.(ms_message_id) ≠ m.(ms_message_id)) as Hno
    by (intros x Hx E; apply Hx; rewrite E; by left).
  split.
  - apply put_messages_fixed.
  - split; [done|]. intros x Hx. destruct (decide (x.(ms_message_id) = m.(ms_message_id))) as [E|Hne]; [by rewrite (Hnew x)|].
    apply Hk. by apply Hel.
  - apply filter_replaced. intros x _. unfold f. case_bool_decide as E; [|by left]. right. unfold untouched. rewrite E.
    by rewrite !bool_decide_eq_true_2 by (rewrite ?Eid; by left).
  - intros x Hx' Hid%Hno Hs. pose proof Hx' as Hx. apply Hel in Hx; [|done]. rewrite !elem_of_app in Hs.
    apply messages_view; [|by rewrite !message_in_nodup|by rewrite lookup_insert_ne].
    apply filter_replaced. intros y Hy. unfold f. case_bool_decide as E; [|by left]. right. assert (y = m) as -> by exact (nodup_same _ m y Hnd Hm Hy E).
    split; apply (unit_evidence i.(in_sources)); try done; [tauto|congruence|tauto].
  - intros x Hid Hx. assert (x.(ms_message_id) = m.(ms_message_id)) as E by (rewrite elem_of_cons, list_elem_of_singleton, Eid in Hid; tauto).
    rewrite (Hnew x) by done. rewrite !elem_of_app. left. right. apply row_scope_head.
  - intros x Hid Hx. assert (x.(ms_message_id) = m.(ms_message_id)) as E by (rewrite elem_of_cons, list_elem_of_singleton, Eid in Hid; tauto).
    assert (x = m) as -> by exact (nodup_same _ m x Hnd Hm Hx E). rewrite !elem_of_app. left. left. apply row_scope_head.
  - done.
Qed.

(** Rows of a unit whose evidence is not there are not named by the write. *)
Lemma unit_row_evidence i m ids x : inputs_ok i → m ∈ i.(in_sources).(st_messages) → m.(ms_message_id) ∉ ids →
  row_scope i.(in_sources) m ∉ flat_map (source_scopes i.(in_sources)) ids → x ∈ ids → x ∉ (unit_of_row i m.(ms_message_id)).(lu_rows).
Proof.
  intros [Hnd _] Hm Hid Hs Hx (r & -> & Hr)%list_elem_of_fmap. apply unit_members_elem in Hr as [Hr Hu].
  assert (in_unit m.(ms_message_id) r = false) as E.
  { apply (unit_evidence i.(in_sources)); [done|done|congruence|]. intros Hin. apply Hs. apply list_elem_of_In, in_flat_map.
    exists r.(ms_message_id). split; [by apply list_elem_of_In|]. unfold source_scopes. rewrite message_in_nodup by done. by apply list_elem_of_In. }
  unfold in_unit in E. bools. tauto.
Qed.

Lemma source_evidence i ids m : NoDup (message_ids i.(in_sources).(st_messages)) → m.(ms_message_id) ∈ ids →
  m ∈ i.(in_sources).(st_messages) → row_scope i.(in_sources) m ∈ flat_map (source_scopes i.(in_sources)) ids.
Proof.
  intros Hnd Hid Hm. apply list_elem_of_In, in_flat_map. exists m.(ms_message_id). split; [by apply list_elem_of_In|].
  unfold source_scopes. rewrite message_in_nodup by done. apply list_elem_of_In, row_scope_head.
Qed.

Lemma outbound_true i u : outbound i u = true ↔ ∃ (k : SourceKey) l, i.(in_locations).(lt_locations) !! (k, SENT_LOCATION) = Some l ∧
  l.(lo_message_id) ∈ u.(lu_rows).
Proof.
  unfold outbound. rewrite existsb_exists. split.
  - intros ([[k p] l] & Hin%list_elem_of_In & Hb). apply elem_of_map_to_list in Hin. simpl in Hb. bools. subst. eauto.
  - intros (k & l & Hl & Hr). exists (k, SENT_LOCATION, l). split; [by apply list_elem_of_In, elem_of_map_to_list|].
    simpl. by rewrite !bool_decide_eq_true_2.
Qed.

Lemma frame_location i key new : inputs_ok i →
  let lt := i.(in_locations) in
  let i' := put_locations (mk_location_tables lt.(lt_observations) (partial_alter (fun _ => new) key lt.(lt_locations)) lt.(lt_returned)) i in
  let ids := (location_owner (lt.(lt_locations) !! key) ++ location_owner new)%list in
  framed i i' ids (flat_map (source_scopes i.(in_sources)) ids).
Proof.
  intros Hok lt i' ids.
  assert (∀ k l, lt.(lt_locations) !! k = Some l → l.(lo_message_id) ∉ ids → i'.(in_locations).(lt_locations) !! k = Some l) as Hfwd.
  { intros k l Hl Hn. simpl. rewrite lookup_partial_alter_ne; [done|]. intros <-. apply Hn. unfold ids. rewrite Hl. by left. }
  assert (∀ k l, i'.(in_locations).(lt_locations) !! k = Some l → l.(lo_message_id) ∉ ids → lt.(lt_locations) !! k = Some l) as Hbwd.
  { intros k l Hl Hn. simpl in Hl. destruct (decide (key = k)) as [<-|Hne]; [|by rewrite lookup_partial_alter_ne in Hl].
    rewrite lookup_partial_alter_eq in Hl. destruct Hn. unfold ids. rewrite Hl. apply elem_of_app. right. by left. }
  split.
  - by split.
  - destruct Hok. by split.
  - done.
  - intros m Hm Hid Hs. simpl in Hm.
    assert (unit_of_row i' m.(ms_message_id) = unit_of_row i m.(ms_message_id)) as Eu.
    { unfold unit_of_row, unit_of_canonical.
      assert (filter (fun e : SourceKey * text * Location => e.2.(lo_message_id) = m.(ms_message_id)) i'.(in_locations).(lt_locations) =
              filter (fun e : SourceKey * text * Location => e.2.(lo_message_id) = m.(ms_message_id)) i.(in_locations).(lt_locations)) as ->; [|done].
      apply map_eq. intros k. apply option_eq. intros l. rewrite !map_lookup_filter_Some. simpl.
      split; intros [Hl E]; (split; [|done]); [apply Hbwd|apply Hfwd]; try done; congruence. }
    split; [done| |done|done]. rewrite Eu. apply eq_true_iff_eq. rewrite !outbound_true.
    assert (∀ x, x ∈ ids → x ∉ (unit_of_row i m.(ms_message_id)).(lu_rows)) as Hrows by (intros x; by apply unit_row_evidence).
    split; intros (k & l & Hl & Hr); exists k, l; (split; [|done]); [apply Hbwd|apply Hfwd]; try done; intros Hx; by apply (Hrows _ Hx).
  - intros m Hid Hm. destruct Hok. by apply source_evidence.
  - intros m Hid Hm. destruct Hok. by apply source_evidence.
  - by intros ->.
Qed.

Lemma frame_recipients i id r : inputs_ok i →
  framed i (put_recipients (<[id := r]> i.(in_recipients)) i) [id] (flat_map (source_scopes i.(in_sources)) [id]).
Proof.
  intros [Hnd Hk]. split; try done.
  - intros m Hm Hid _. rewrite list_elem_of_singleton in Hid. split; try done. simpl. by rewrite lookup_insert_ne.
  - intros m Hid Hm. by apply source_evidence.
  - intros m Hid Hm. by apply source_evidence.
Qed.

Lemma frame_observation i lt : inputs_ok i → lt.(lt_locations) = i.(in_locations).(lt_locations) → framed i (put_locations lt i) [] [].
Proof.
  intros [Hnd Hk] El. split; try done; try (by intros m ?%not_elem_of_nil). intros m Hm _ _.
  assert (unit_of_row (put_locations lt i) m.(ms_message_id) = unit_of_row i m.(ms_message_id)) as Eu.
  { unfold unit_of_row, unit_of_canonical. simpl. by rewrite El. }
  split; [done| |done|done]. rewrite Eu. unfold outbound. simpl. by rewrite El.
Qed.

(** The trigger before a write names no thread that the one after it does not name. *)
Lemma before_in_after i i' id records t : fixed_inputs i i' → NoDup (message_ids i'.(in_sources).(st_messages)) →
  (∀ x, x ∈ i.(in_sources).(st_messages) → x.(ms_message_id) ≠ id → x ∈ i'.(in_sources).(st_messages)) →
  (∀ x, x ∈ i.(in_sources).(st_messages) → x.(ms_message_id) = id → x ∈ records) →
  t ∈ flat_map (message_scopes i.(in_sources)) records → t ∈ flat_map (message_scopes i'.(in_sources)) records.
Proof.
  intros Hf Hnd Hother Hsame. rewrite !list_elem_of_In, !in_flat_map. intros (r & Hr & Ht).
  unfold message_scopes in Ht. destruct Ht as [<-|Ht].
  { exists r. split; [done|]. rewrite <- (row_scope_fixed i i') by done. apply list_elem_of_In, row_scope_head. }
  destruct (ms_logical_of r) as [c|] eqn:El; [|done]. destruct (message_in c _) as [x|] eqn:Ex; [|done].
  destruct Ht as [<-|[]]. apply List.find_some in Ex as [Hx Ex%bool_decide_eq_true_1]. apply list_elem_of_In in Hx.
  rewrite <- (row_scope_fixed i i') by done. destruct (decide (x.(ms_message_id) = id)) as [E|Hne].
  - exists x. split; [by apply list_elem_of_In, Hsame|]. apply list_elem_of_In, row_scope_head.
  - exists r. split; [done|]. unfold message_scopes. rewrite El, <- Ex, message_in_nodup by auto. by right; left.
Qed.

Lemma frame_tracked i i' ids id records scopes :
  framed i i' ids scopes →
  scopes = (flat_map (message_scopes i.(in_sources)) records ++ flat_map (message_scopes i'.(in_sources)) records)%list →
  (∀ x, x ∈ i.(in_sources).(st_messages) → x.(ms_message_id) ≠ id → x ∈ i'.(in_sources).(st_messages)) →
  (∀ x, x ∈ i.(in_sources).(st_messages) → x.(ms_message_id) = id → x ∈ records) →
  framed i i' ids ((if i.(in_sources).(st_has_removal_schema) then flat_map (message_scopes i.(in_sources)) records else []) ++
                   flat_map (message_scopes i'.(in_sources)) records).
Proof.
  intros Hfr -> Hother Hsame. destruct (st_has_removal_schema _); [done|]. simpl.
  destruct Hfr as [Hf [Hnd Hk] Hl Hv Ha Hb He].
  assert (∀ t, t ∈ (flat_map (message_scopes i.(in_sources)) records ++ flat_map (message_scopes i'.(in_sources)) records)%list →
               t ∈ flat_map (message_scopes i'.(in_sources)) records) as Hin.
  { intros t [Ht|Ht]%elem_of_app; [by eapply before_in_after|done]. }
  split; auto.
  - done.
  - intros Hi. specialize (He Hi). by apply app_eq_nil in He as [_ ->].
Qed.

Lemma write_framed i c i' c' : inputs_ok i → input_write i c i' c' → ∃ ids scopes,
  c' = mk_changes (c.(ch_messages) ++ ids) (c.(ch_threads) ++ scopes) ∧ framed i i' ids scopes.
Proof.
  intros Hok [m sender Hn Hk|m Hm|m m' sender Hm E Hk|key new|id r|lt El].
  - eexists _, _. split; [reflexivity|]. eapply frame_tracked; [by apply frame_insert|by simpl; rewrite !app_nil_r|..].
    + intros x Hx _. simpl. apply elem_of_app. by left.
    + intros x Hx E. destruct Hn. rewrite <- E. by apply list_elem_of_fmap_2.
  - eexists _, _. split; [reflexivity|]. eapply frame_tracked; [by apply frame_delete|by simpl; rewrite !app_nil_r|..].
    + intros x Hx Hne. simpl. by rewrite elem_of_filter_b, negb_true_iff, bool_decide_eq_false.
    + intros x Hx Ex. apply list_elem_of_singleton. destruct Hok as [Hnd _]. by apply (nodup_same _ m x Hnd).
  - eexists _, _. split; [reflexivity|]. eapply frame_tracked; [by apply frame_update|by simpl; rewrite !app_nil_r|..].
    + intros x Hx Hne. simpl. apply list_elem_of_fmap. exists x. by rewrite bool_decide_eq_false_2.
    + intros x Hx Ex. destruct Hok as [Hnd _]. rewrite (nodup_same _ m x Hnd Hm Hx Ex). by left.
  - eexists _, _. split; [reflexivity|by apply frame_location].
  - eexists _, _. split; [reflexivity|by apply frame_recipients].
  - exists [], []. split; [destruct c; simpl; by rewrite !app_nil_r|by apply frame_observation].
Qed.

(** ** Many writes *)

Lemma fm_rows i i' ids scopes m : framed i i' ids scopes → m.(ms_message_id) ∉ ids →
  m ∈ i'.(in_sources).(st_messages) ↔ m ∈ i.(in_sources).(st_messages).
Proof.
  intros Hf Hid. assert (∀ l, m ∈ l ↔ m ∈ List.filter (untouched ids) l) as Hl.
  { intros l. rewrite elem_of_filter_b. unfold untouched. rewrite bool_decide_eq_false_2 by done. tauto. }
  rewrite (Hl (st_messages (in_sources i'))), (Hl (st_messages (in_sources i))), (fm_list _ _ _ _ Hf). done.
Qed.

Lemma untouched_app A B m : untouched (A ++ B) m = untouched A m && untouched B m.
Proof.
  unfold untouched. rewrite <- negb_orb. f_equal. apply eq_true_iff_eq.
  by rewrite orb_true_iff, !bool_decide_eq_true, elem_of_app.
Qed.

Lemma filter_untouched_app A B l : List.filter (untouched (A ++ B)) l = List.filter (untouched A) (List.filter (untouched B) l).
Proof.
  induction l as [|x l IH]; simpl; [done|]. rewrite untouched_app, IH. destruct (untouched B x); simpl; [|by rewrite andb_false_r].
  by rewrite andb_true_r.
Qed.

Lemma filter_untouched_comm A B l : List.filter (untouched A) (List.filter (untouched B) l) = List.filter (untouched B) (List.filter (untouched A) l).
Proof. induction l as [|x l IH]; simpl; [done|]. destruct (untouched B x) eqn:Eb, (untouched A x) eqn:Ea; simpl; rewrite ?Ea, ?Eb, ?IH; done. Qed.

Lemma fixed_trans i i1 i2 : fixed_inputs i i1 → fixed_inputs i1 i2 → fixed_inputs i i2.
Proof. intros [] []. split; congruence. Qed.

Lemma framed_refl i : inputs_ok i → framed i i [] [].
Proof. intros Hok. split; try done; by intros m ?%not_elem_of_nil. Qed.

Lemma framed_trans i i1 i2 A S B T : framed i i1 A S → framed i1 i2 B T → framed i i2 (A ++ B) (S ++ T).
Proof.
  intros F1 F2. pose proof (fm_fixed _ _ _ _ F1) as X1. split.
  - eapply fixed_trans; [done|apply (fm_fixed _ _ _ _ F2)].
  - apply (fm_ok _ _ _ _ F2).
  - rewrite !filter_untouched_app, (fm_list _ _ _ _ F2), !(filter_untouched_comm A B). by rewrite (fm_list _ _ _ _ F1).
  - intros m Hm Hid Hs. rewrite elem_of_app in Hid. rewrite elem_of_app in Hs. apply same_view_trans with i1.
    + apply (fm_view _ _ _ _ F1); [|tauto|tauto]. apply (fm_rows _ _ _ _ m F2); tauto.
    + apply (fm_view _ _ _ _ F2); [done|tauto|]. rewrite (row_scope_fixed i i1); tauto.
  - intros m Hid Hm. apply elem_of_app. destruct (decide (m.(ms_message_id) ∈ B)) as [Hb|Hb].
    + right. rewrite <- (row_scope_fixed i i1) by done. by apply (fm_after _ _ _ _ F2).
    + left. rewrite elem_of_app in Hid. apply (fm_after _ _ _ _ F1); [tauto|]. by apply (fm_rows _ _ _ _ m F2).
  - intros m Hid Hm. apply elem_of_app. destruct (decide (m.(ms_message_id) ∈ A)) as [Ha|Ha].
    + left. by apply (fm_before _ _ _ _ F1).
    + right. rewrite elem_of_app in Hid. rewrite <- (row_scope_fixed i i1) by done. apply (fm_before _ _ _ _ F2); [tauto|].
      by apply (fm_rows _ _ _ _ m F1).
  - intros [Ea Eb]%app_eq_nil. by rewrite (fm_empty _ _ _ _ F1), (fm_empty _ _ _ _ F2).
Qed.

(** The inputs after some writes of a transaction, with the evidence so far. *)
Inductive tracked i0 : DerivedInputs → Changes → Prop :=
| tracked_start : tracked i0 i0 (mk_changes [] [])
| tracked_next i c i' c' : tracked i0 i c → input_write i c i' c' → tracked i0 i' c'.

Lemma tracked_framed i0 i c : inputs_ok i0 → tracked i0 i c → framed i0 i c.(ch_messages) c.(ch_threads).
Proof.
  intros Hok. induction 1 as [|i c i' c' _ IH Hw]; [by apply framed_refl|].
  destruct (write_framed _ _ _ _ (fm_ok _ _ _ _ IH) Hw) as (ids & scopes & -> & Hf). by eapply framed_trans.
Qed.

(** ** The evidence is enough *)

Lemma filter_ext_in {A} (P Q : A → bool) l : (∀ x, x ∈ l → P x = Q x) → List.filter P l = List.filter Q l.
Proof.
  induction l as [|x l IH]; simpl; [done|]. intros H. rewrite (H x) by by left. rewrite IH; [done|]. intros y Hy. apply H. by right.
Qed.

Lemma filter_nil_in {A} (P : A → bool) l : (∀ x, x ∈ l → P x = false) → List.filter P l = [].
Proof. induction l as [|x l IH]; simpl; [done|]. intros H. rewrite (H x) by by left. apply IH. intros y Hy. apply H. by right. Qed.

Lemma filter_filter {A} (P Q : A → bool) l : List.filter P (List.filter Q l) = List.filter (fun x => Q x && P x) l.
Proof. induction l as [|x l IH]; simpl; [done|]. destruct (Q x); simpl; [destruct (P x)|]; simpl; by rewrite IH. Qed.

Lemma scope_match_exact st m t : is_Some m.(ms_thread_key) → scope_match st m t = true ↔ t = row_scope st m.
Proof.
  intros [key Ek]. destruct t as [[[p a] d] k]. unfold scope_match, row_scope, sql_is. rewrite Ek. unfold sql_eq.
  rewrite !andb_true_iff, !bool_decide_eq_true. destruct k as [k|]; [rewrite bool_decide_eq_true|]; split; intros; simplify_eq; try done; naive_solver.
Qed.

Lemma scope_changed_row c st m k : is_Some m.(ms_thread_key) → thread_scope st m = Some k →
  scope_changed (Some c) k = true ↔ row_scope st m ∈ c.(ch_threads).
Proof.
  intros [key Ekey] Hk. unfold thread_scope in Hk. apply bind_Some in Hk as (d & Ed & Hk). simplify_eq. simpl.
  rewrite bool_decide_eq_true. unfold row_scope, shown. by rewrite Ed, Ekey.
Qed.

Section Incremental.
Context (i0 i : DerivedInputs) (c : Changes).
Context (Hok : inputs_ok i0) (Hf : framed i0 i c.(ch_messages) c.(ch_threads)).

Let keyed m : m ∈ i.(in_sources).(st_messages) → is_Some m.(ms_thread_key).
Proof. apply (io_keyed _ (fm_ok _ _ _ _ Hf)). Qed.

(** A row is computed again exactly when its thread is named. *)
Lemma reselected_iff m : m ∈ i.(in_sources).(st_messages) →
  reselected (Some c) i.(in_sources) m = true ↔ row_scope i.(in_sources) m ∈ c.(ch_threads).
Proof using Hf.
  intros Hm. unfold reselected. rewrite orb_true_iff, bool_decide_eq_true, existsb_exists. split.
  - intros [Hid|(t & Ht & E)].
    + rewrite (row_scope_fixed i0 i) by apply Hf. by apply (fm_after _ _ _ _ Hf).
    + apply scope_match_exact in E; [|by apply keyed]. subst. by apply list_elem_of_In.
  - intros Hs. right. eexists. split; [by apply list_elem_of_In|]. apply scope_match_exact; [by apply keyed|done].
Qed.

(** The members of a thread that is named are all computed again; of the others none. *)
Lemma members_reselected ix k :
  members_of ix i k (again (Some c) i) =
  if scope_changed (Some c) k then members_of ix i k (logical_messages i.(in_sources)) else [].
Proof using Hf.
  unfold members_of, again. rewrite filter_filter. destruct (scope_changed (Some c) k) eqn:Ec.
  - f_equal. apply filter_ext_in. intros m [Hm _]%logical_elem. case_bool_decide as E; [|by rewrite andb_false_r].
    rewrite andb_true_r. apply reselected_iff; [done|]. apply (scope_changed_row c _ m k); [by apply keyed|done|done].
  - rewrite filter_nil_in; [done|]. intros m [Hm _]%logical_elem. case_bool_decide as E; [|by rewrite andb_false_r]. rewrite andb_true_r.
    apply not_true_is_false. intros Hs%reselected_iff; [|done]. apply (scope_changed_row c _ m k) in Hs; [congruence|by apply keyed|done].
Qed.

(** Rows of a thread that is not named were not touched. *)
Lemma untouched_rows k m : scope_changed (Some c) k = false → thread_scope i0.(in_sources) m = Some k →
  m ∈ i.(in_sources).(st_messages) ∨ m ∈ i0.(in_sources).(st_messages) →
  m.(ms_message_id) ∉ c.(ch_messages) ∧ row_scope i0.(in_sources) m ∉ c.(ch_threads).
Proof using Hf Hok.
  intros Ec Hk Hm. assert (row_scope i0.(in_sources) m ∉ c.(ch_threads)) as Hs.
  { intros Hs. apply (scope_changed_row c _ m k) in Hs; [congruence| |done]. destruct Hm; [by apply keyed|by apply (io_keyed _ Hok)]. }
  split; [|done]. intros Hid. apply Hs. destruct Hm; [by apply (fm_after _ _ _ _ Hf)|by apply (fm_before _ _ _ _ Hf)].
Qed.

(** A thread that is not named has the members it had. *)
Lemma members_unchanged ix k : scope_changed (Some c) k = false →
  members_of ix i k (logical_messages i.(in_sources)) = members_of ix i0 k (logical_messages i0.(in_sources)).
Proof using Hf Hok.
  intros Ec. pose proof (fm_fixed _ _ _ _ Hf) as Hx. unfold members_of, logical_messages. rewrite !filter_filter.
  set (P := fun m => is_none m.(ms_logical_of) && (negb i0.(in_sources).(st_has_removal_schema) || available i0.(in_sources) RECORD (source_of_message m)) &&
                     bool_decide (thread_scope i0.(in_sources) m = Some k)).
  assert (∀ m, P m = true → thread_scope i0.(in_sources) m = Some k) as Hsc by (intros m Hm; unfold P in Hm; bools; done).
  assert (List.filter P i.(in_sources).(st_messages) = List.filter P i0.(in_sources).(st_messages)) as El.
  { transitivity (List.filter P (List.filter (untouched c.(ch_messages)) i.(in_sources).(st_messages))); [|rewrite (fm_list _ _ _ _ Hf)];
      rewrite filter_filter; [|symmetry]; apply filter_ext_in; intros m Hm; (destruct (P m) eqn:Ep; [|by rewrite andb_false_r]);
      rewrite andb_true_r; symmetry; apply negb_true_iff, bool_decide_eq_false_2; eapply untouched_rows; eauto. }
  rewrite (filter_ext_in _ P), El; [|intros m _; unfold P; rewrite (thread_scope_fixed i0 i) by done; destruct Hx as [_ Es Ei Et _];
    unfold available, intents_of_target; by rewrite Es, Ei, Et].
  apply list_fmap_ext. intros n m Hm%list_elem_of_lookup_2. assert (m ∈ List.filter P i.(in_sources).(st_messages)) as Hm' by by rewrite El.
  apply elem_of_filter_b in Hm' as [Hm' Hp]. destruct (untouched_rows k m Ec (Hsc m Hp) (or_introl Hm')) as [Hid Hs].
  apply same_view_values. by apply (fm_view _ _ _ _ Hf).
Qed.

Lemma follow_unchanged k : scope_changed (Some c) k = false → follow_spec i k = follow_spec i0 k.
Proof using Hf Hok.
  intros Ec. unfold follow_spec. rewrite <- (fx_vendors _ _ (fm_fixed _ _ _ _ Hf)). by rewrite members_unchanged.
Qed.

Lemma logical_in j id m : inputs_ok j → message_in id (logical_messages j.(in_sources)) = Some m ↔
  m ∈ logical_messages j.(in_sources) ∧ m.(ms_message_id) = id.
Proof using.
  intros [Hnd _]. split; [apply message_in_elem|]. intros [Hm <-]. apply message_in_nodup; [by apply logical_nodup|done].
Qed.

(** The attribution of a message that is not computed again stands. *)
Lemma attribution_unchanged id : id ∉ c.(ch_messages) →
  (∀ m, m ∈ logical_messages i.(in_sources) → m.(ms_message_id) = id → row_scope i.(in_sources) m ∉ c.(ch_threads)) →
  attribution_spec i id = attribution_spec i0 id.
Proof using Hf Hok.
  intros Hid Hs. pose proof (fm_fixed _ _ _ _ Hf) as Hx. pose proof (fm_ok _ _ _ _ Hf) as Hok'.
  assert (∀ m, m.(ms_message_id) = id → m ∈ logical_messages i.(in_sources) ↔ m ∈ logical_messages i0.(in_sources)) as Hl.
  { intros m E. apply logical_fixed; [done|]. apply (fm_rows _ _ _ _ m Hf). by rewrite E. }
  unfold attribution_spec. destruct (message_in id (logical_messages i.(in_sources))) as [m|] eqn:E.
  - apply logical_in in E as [Hm Em]; [|done].
    assert (message_in id (logical_messages i0.(in_sources)) = Some m) as -> by (apply logical_in; [done|]; by rewrite <- Hl).
    simpl. f_equal. rewrite (fx_vendors _ _ Hx). apply same_view_values, (fm_view _ _ _ _ Hf).
    + by apply logical_elem in Hm as [? _].
    + by rewrite Em.
    + rewrite <- (row_scope_fixed i0 i) by done. by apply Hs.
  - destruct (message_in id (logical_messages i0.(in_sources))) as [m|] eqn:E0; [|done]. apply logical_in in E0 as [Hm Em]; [|done].
    apply Hl in Hm; [|done]. assert (message_in id (logical_messages i.(in_sources)) = Some m) by by apply logical_in. congruence.
Qed.
End Incremental.

Lemma flush_frame rows d d1 : flush_coverage_inputs rows d = Ret d1 →
  d1.(r_sources) = d.(r_sources) ∧ d1.(r_watermarks) = d.(r_watermarks).
Proof.
  revert d. induction rows as [|[s n] rows IH]; simpl; intros d H; [by simplify_eq|].
  unfold bump_coverage_generation, ensure_generation in H.
  destruct (r_generation d !! s) as [g|] eqn:Eg; simpl in H; rewrite ?Eg, ?lookup_insert_eq in H; simpl in H;
    (destruct (n <? 0); [done|]); apply IH in H as [-> ->]; done.
Qed.

(** The derived tables and what hangs on them, for some inputs: every attribution (but for
    messages that are computed again anyway), every thread row, the thread rows the other
    components see, and watermarks only of followed threads. *)
Record derived_current i (pending : list text) (t : DerivedTables) (d : ReconcileDb) : Prop := {
  dc_messages : ∀ id, id ∉ pending → t.(dv_messages) !! id = attribution_spec i id;
  dc_follow : ∀ k, t.(dv_follow) !! k = follow_spec i k;
  dc_view : d.(r_sources).(st_thread_follow) = follow_view <$> map_to_list t.(dv_follow);
  dc_watermarks : ∀ k, is_Some (d.(r_watermarks) !! k) → followed_in t.(dv_follow) k = true }.

Lemma recomputed_current now i t d t' cu w : recomputed None now i t d t' cu w →
  derived_current i [] t' (set_watermarks w (set_catchup cu (with_follow t'.(dv_follow) d))).
Proof.
  intros Hr. destruct (recomputed_full _ _ _ _ _ _ _ Hr) as [Hm Hf]. destruct Hr as [_ _ _ Hw]. split; [auto|auto|done|].
  intros k [v [_ E]%Hw]. simpl in E. by destruct (followed_in _ k).
Qed.

Section Agree.
Context (i0 i : DerivedInputs) (c : Changes) (t : DerivedTables) (d : ReconcileDb).
Context (Hok : inputs_ok i0) (Hf : framed i0 i c.(ch_messages) c.(ch_threads)).
Context (Hcur : derived_current i0 c.(ch_messages) t d).

Lemma again_in id m : message_in id (again (Some c) i) = Some m → message_in id (logical_messages i.(in_sources)) = Some m.
Proof using Hf.
  intros [[Hm _]%elem_of_filter_b E]%message_in_elem. apply logical_in; [apply (fm_ok _ _ _ _ Hf)|done].
Qed.

Lemma again_attribution now t' cu w : recomputed (Some c) now i t d t' cu w → ∀ id, t'.(dv_messages) !! id = attribution_spec i id.
Proof using Hf Hok Hcur.
  intros Hr id. rewrite (rd_messages _ _ _ _ _ _ _ _ Hr). pose proof (fm_ok _ _ _ _ Hf) as Hok'.
  destruct (message_in id (again (Some c) i)) as [m|] eqn:E.
  { unfold attribution_spec. by rewrite (again_in _ _ E). }
  assert (∀ m, m ∈ logical_messages i.(in_sources) → m.(ms_message_id) = id → reselected (Some c) i.(in_sources) m = false) as Hn.
  { intros m Hm Em. apply not_true_is_false. intros Hs. apply message_in_none in E. apply E. rewrite <- Em. unfold message_ids.
    apply list_elem_of_fmap_2, elem_of_filter_b. done. }
  simpl. destruct (decide (id ∈ c.(ch_messages))) as [Hid|Hid].
  - assert (id ∉ message_ids (logical_messages i.(in_sources))) as Hl.
    { intros (m & Em & Hm)%list_elem_of_fmap. specialize (Hn m Hm (eq_sym Em)). unfold reselected in Hn.
      rewrite bool_decide_eq_true_2 in Hn by (by rewrite <- Em). done. }
    rewrite bool_decide_eq_true_2, bool_decide_eq_false_2 by done. simpl. unfold attribution_spec.
    apply message_in_none in Hl. by rewrite Hl.
  - rewrite bool_decide_eq_false_2 by done. simpl. rewrite (dc_messages _ _ _ _ Hcur) by done. symmetry.
    apply (attribution_unchanged i0 i c); [done|done|done|]. intros m Hm Em Hs.
    apply (reselected_iff i0 i c Hf) in Hs; [|by apply logical_elem in Hm as [? _]]. by rewrite Hn in Hs.
Qed.

Lemma again_follow now t' cu w : recomputed (Some c) now i t d t' cu w → ∀ k, t'.(dv_follow) !! k = follow_spec i k.
Proof using Hf Hok Hcur.
  intros Hr k. rewrite (rd_follow _ _ _ _ _ _ _ _ Hr), (members_reselected i0 i c Hf). destruct (scope_changed (Some c) k) eqn:Ec.
  - done.
  - rewrite (dc_follow _ _ _ _ Hcur). symmetry. by apply (follow_unchanged i0 i c).
Qed.

(** A thread that is not named does not become followed. *)
Lemma unnamed_follow k : scope_changed (Some c) k = false → follow_spec i k = t.(dv_follow) !! k.
Proof using Hf Hok Hcur. intros Ec. rewrite (follow_unchanged i0 i c) by done. symmetry. apply (dc_follow _ _ _ _ Hcur). Qed.

(** Such a thread row is not deleted, with or without evidence. *)
Lemma dropped_unnamed k : scope_changed (Some c) k = false → dropped_thread None i t k = false.
Proof using Hf Hok Hcur.
  intros Ec. unfold dropped_thread. rewrite again_all, <- unnamed_follow by done. unfold follow_spec.
  by destruct (members_of _ i k (logical_messages _)).
Qed.

Lemma dropped_agree k : dropped_thread (Some c) i t k = dropped_thread None i t k.
Proof using Hf Hok Hcur.
  destruct (scope_changed (Some c) k) eqn:Ec.
  - unfold dropped_thread. rewrite (members_reselected i0 i c Hf), again_all, Ec. done.
  - rewrite dropped_unnamed by done. unfold dropped_thread. by rewrite Ec, andb_false_r.
Qed.

Lemma again_catchup now t' cu w t'' cu' w' : recomputed (Some c) now i t d t' cu w → recomputed None now i t d t'' cu' w' → cu = cu'.
Proof using Hf Hok Hcur.
  intros [_ _ (b1 & B1 & H1) _] [_ _ (b2 & B2 & H2) _].
  assert (b1 = b2) as ->.
  { apply map_eq. intros x. apply option_eq. intros v. by rewrite B1, B2, dropped_agree. }
  apply map_eq. intros x. rewrite H1, H2. apply caught_up_ext. intros k.
  rewrite (members_reselected i0 i c Hf), again_all. destruct (scope_changed (Some c) k) eqn:Ec; [done|].
  pose proof (unnamed_follow k Ec) as E. unfold follow_spec in E.
  destruct (members_of _ i k (logical_messages _)) as [|x0 l]; [done|]. unfold followed_in. rewrite <- E. by destruct (is_some _).
Qed.

Lemma again_watermarks now t' cu w cu' w' : recomputed (Some c) now i t d t' cu w → recomputed None now i t d t' cu' w' → w = w'.
Proof using Hf Hok Hcur.
  intros R1 R2. pose proof (again_follow _ _ _ _ R1) as Hfo. destruct R1 as [_ _ _ H1], R2 as [_ _ _ H2].
  apply map_eq. intros k. apply option_eq. intros v. rewrite H1, H2. split; intros [Hw E]; (split; [done|]); change (scope_changed None k) with true in *; cbn [andb] in *.
  - destruct (scope_changed (Some c) k) eqn:Ec; [exact E|]. unfold followed_in. rewrite Hfo, unnamed_follow by done.
    apply negb_false_iff. apply (dc_watermarks _ _ _ _ Hcur). eauto.
  - by rewrite E, andb_false_r.
Qed.

Lemma tables_eq (x y : DerivedTables) : (∀ id, x.(dv_messages) !! id = y.(dv_messages) !! id) → (∀ k, x.(dv_follow) !! k = y.(dv_follow) !! k) → x = y.
Proof using. destruct x, y; simpl. intros ?%map_eq ?%map_eq. congruence. Qed.

(** Without evidence, the recomputation of everything changes nothing. *)
Lemma unnamed_all k : c.(ch_messages) = [] → scope_changed (Some c) k = false.
Proof using Hf. intros E. destruct k as [[[p a] x] key]. simpl. by rewrite (fm_empty _ _ _ _ Hf E). Qed.

Lemma nothing_recomputed now t' cu w : c.(ch_messages) = [] → recomputed None now i t d t' cu w →
  t' = t ∧ set_watermarks w (set_catchup cu (with_follow t'.(dv_follow) d)) = d.
Proof using Hf Hok Hcur.
  intros Hnil R. destruct (recomputed_full _ _ _ _ _ _ _ R) as [M F].
  assert (∀ k, follow_spec i k = t.(dv_follow) !! k) as Hs by (intros k; by apply unnamed_follow, unnamed_all).
  assert (t' = t) as ->.
  { apply tables_eq; intros x; rewrite ?M, ?F; [|apply Hs]. rewrite (dc_messages _ _ _ _ Hcur) by (rewrite Hnil; apply not_elem_of_nil).
    apply (attribution_unchanged i0 i c); [done|done|rewrite Hnil; apply not_elem_of_nil|].
    intros m _ _. rewrite (fm_empty _ _ _ _ Hf Hnil). apply not_elem_of_nil. }
  split; [done|]. destruct R as [_ _ (b & Hb & Hc) Hw].
  assert (b = d.(r_catchup)) as ->.
  { apply map_eq. intros x. apply option_eq. intros v. rewrite Hb, dropped_unnamed by by apply unnamed_all. tauto. }
  assert (w = d.(r_watermarks)) as ->.
  { apply map_eq. intros k. apply option_eq. intros v. rewrite Hw. simpl. split; [by intros [? _]|]. intros E. split; [done|].
    apply negb_false_iff, (dc_watermarks _ _ _ _ Hcur). eauto. }
  assert (cu = d.(r_catchup)) as ->.
  { apply map_eq. intros x. rewrite Hc. unfold caught_up. destruct (r_progress d !! x.1.1); [|done].
    assert (∀ k, match members_of (vendor_index (in_vendors i)) i k (again None i) with [] => false
      | members => is_some (fo_owner (follow_row members)) && negb (followed_in (dv_follow t) k) end = false) as ->; [|by rewrite andb_false_r].
    intros k. specialize (Hs k). rewrite again_all. unfold follow_spec in Hs. destruct (members_of _ i k _); [done|].
    unfold followed_in. rewrite <- Hs. by destruct (is_some _). }
  pose proof (dc_view _ _ _ _ Hcur) as Hv. unfold with_follow. rewrite <- Hv. destruct d as [[] ? ? ? ? ? ? ? ? ?]. done.
Qed.
End Agree.

(** C6: The recomputation of the derived state from the evidence of a transaction (the
    messages and threads its triggers collected) has the result of a recomputation of
    everything: whatever sequence of inserts, deletes and updates of messages, locations,
    recipients and observations the transaction made, both return, with the same attribution
    of every logical message, the same row of every thread, the same catch-up targets and the
    same watermarks; and that result is again what the tables should hold for the new inputs. *)
Theorem derived_incremental_exact i0 i c t d coverage now d1 :
  inputs_ok i0 → tracked i0 i c → derived_current i0 c.(ch_messages) t d → flush_coverage_inputs coverage d = Ret d1 →
  ∃ t' d', recompute_derived (Some c) coverage now i t d = Ret (t', d') ∧
    recompute_derived None coverage now i t d = Ret (t', d') ∧
    derived_current i [] t' d'.
Proof.
  intros Hok Htr Hcur Hfl. pose proof (tracked_framed _ _ _ Hok Htr) as Hf.
  pose proof (io_nodup _ (fm_ok _ _ _ _ Hf)) as Hnd. destruct (flush_frame _ _ _ Hfl) as [Es Ew].
  assert (derived_current i0 c.(ch_messages) t d1) as Hcur1.
  { destruct Hcur as [? ? ? ?]. split; rewrite ?Es, ?Ew; auto. }
  destruct (recompute_ret None coverage now i t d d1 Hnd Hfl I) as (t2 & cu2 & w2 & E2 & R2).
  destruct (recomputed_full _ _ _ _ _ _ _ R2) as [M2 F2].
  eexists t2, _. split; [|split; [exact E2|by eapply recomputed_current]].
  destruct (decide (c.(ch_messages) = [])) as [Hnil|Hne].
  - destruct (nothing_recomputed i0 i c t d1 Hok Hf Hcur1 _ _ _ _ Hnil R2) as [-> ->].
    unfold recompute_derived. rewrite Hfl. cbn [mbind py_bind]. by rewrite bool_decide_eq_true_2.
  - destruct (recompute_ret (Some c) coverage now i t d d1 Hnd Hfl Hne) as (t1 & cu1 & w1 & E1 & R1).
    assert (t1 = t2) as ->.
    { apply tables_eq; intros x; rewrite ?M2, ?F2; [by eapply again_attribution|by eapply again_follow]. }
    rewrite E1, (again_catchup i0 i c t d1 Hok Hf Hcur1 _ _ _ _ _ _ _ R1 R2), (again_watermarks i0 i c t d1 Hok Hf Hcur1 _ _ _ _ _ _ R1 R2).
    done.
Qed.

(** ** The owner of a thread *)

Lemma least_spec {A} (leb : A → A → bool) (l : list A) :
  (∀ x y, leb x y = false → leb y x = true) → (∀ x y z, leb x y = true → leb y z = true → leb x z = true) →
  match least leb l with
  | Some x => x ∈ l ∧ ∀ y, y ∈ l → leb x y = true
  | None => l = []
  end.
Proof.
  intros Htot Htr. assert (∀ x, leb x x = true) as Hrefl by (intros x; destruct (leb x x) eqn:E; [done|]; pose proof (Htot _ _ E); congruence).
  unfold least. induction l as [|x l IH] using rev_ind; [done|]. rewrite foldl_snoc. destruct (foldl _ None l) as [b|].
  - destruct IH as [Hb Hl]. destruct (leb b x) eqn:E.
    + split; [by apply elem_of_app; left|]. intros y [Hy|Hy]%elem_of_app; [auto|]. by apply list_elem_of_singleton in Hy as ->.
    + split; [apply elem_of_app; right; by left|]. intros y [Hy|Hy]%elem_of_app; [eauto|]. by apply list_elem_of_singleton in Hy as ->.
  - subst l. split; [by left|]. intros y Hy. by apply list_elem_of_singleton in Hy as ->.
Qed.

Lemma newest_leb_total a b : newest_leb a b = false → newest_leb b a = true.
Proof. destruct a, b; simpl; try done. lia. Qed.
Lemma newest_leb_trans a b (c : option Z) : newest_leb a b = true → newest_leb b c = true → newest_leb a c = true.
Proof. destruct a, b, c; simpl; try done. lia. Qed.
Lemma newest_leb_antisym a b : newest_leb a b = true → newest_leb b a = true → a = b.
Proof. destruct a, b; simpl; try done. intros ??. f_equal. lia. Qed.
Lemma text_leb_antisym a b : text_leb a b = true → text_leb b a = true → a = b.
Proof. unfold text_leb. intros H1 H2. bools. by apply text_ltb_antisym. Qed.

Lemma member_leb_total x y : member_leb x y = false → member_leb y x = true.
Proof.
  destruct x as [nx sx vx], y as [ny sy vy]. unfold member_leb. cbn [mb_newest mb_source mb_vendor].
  repeat case_bool_decide; subst; try done; auto using text_leb_total, newest_leb_total.
Qed.

Lemma member_leb_trans x y z : member_leb x y = true → member_leb y z = true → member_leb x z = true.
Proof.
  destruct x as [nx sx vx], y as [ny sy vy], z as [nz sz vz]. unfold member_leb. cbn [mb_newest mb_source mb_vendor].
  repeat case_bool_decide; subst; intros L1 L2; try done;
    first [by eapply text_leb_true_trans | by eapply newest_leb_trans
      | exfalso; eauto using text_leb_antisym, newest_leb_antisym].
Qed.

(** The source identities of a logical message: its rows and its locations. *)
Definition copies i m : list FrozenSource := (unit_of_row i m.(ms_message_id)).(lu_sources).

(** When a message was last received: the greatest readable time of its copies. *)
Definition last_received (sources : list FrozenSource) (t : option Z) : Prop :=
  match t with
  | Some z => (∃ x, x ∈ sources ∧ aware_iso_epoch x.(fz_received_at) = Some z) ∧
              ∀ x z', x ∈ sources → aware_iso_epoch x.(fz_received_at) = Some z' → z' <= z
  | None => ∀ x, x ∈ sources → aware_iso_epoch x.(fz_received_at) = None
  end.

(** The first provider id of some copies. *)
Definition first_source (sources : list FrozenSource) (p : text) : Prop :=
  (∃ x, x ∈ sources ∧ x.(fz_identity).(si_provider_message_id) = p) ∧
  ∀ x, x ∈ sources → text_ltb x.(fz_identity).(si_provider_message_id) p = false.

(** By time (a message without a readable one is last), then by provider id, then by vendor. *)
Definition precedes (t t' : option Z) (p p' v v' : text) : Prop :=
  match t, t' with Some z, Some z' => z < z' | Some _, None => True | None, _ => False end ∨
  t = t' ∧ (text_ltb p p' = true ∨ p = p' ∧ text_ltb v' v = false).

Lemma newest_last sources : last_received sources (newest ((fun x => aware_iso_epoch x.(fz_received_at)) <$> sources)).
Proof.
  unfold newest. induction sources as [|x l IH] using rev_ind; [by intros x ?%not_elem_of_nil|].
  rewrite fmap_app, fmap_cons, fmap_nil, foldl_snoc. destruct (foldl _ None _) as [b|]; simpl in IH.
  - destruct IH as [(y & Hy & Ey) Hb]. destruct (aware_iso_epoch (fz_received_at x)) as [z|] eqn:Ex; simpl.
    + split.
      * destruct (Z.max_spec b z) as [[_ ->]|[_ ->]]; [exists x|exists y]; (split; [|done]); apply elem_of_app; [right; by left|by left].
      * intros y' z' [Hy'|Hy']%elem_of_app E'; [specialize (Hb _ _ Hy' E'); lia|]. apply list_elem_of_singleton in Hy' as ->. simplify_eq. lia.
    + split; [exists y; split; [by apply elem_of_app; left|done]|]. intros y' z' [Hy'|Hy']%elem_of_app E'; [eauto|].
      apply list_elem_of_singleton in Hy' as ->. congruence.
  - destruct (aware_iso_epoch (fz_received_at x)) as [z|] eqn:Ex; simpl.
    + split; [exists x; split; [apply elem_of_app; right; by left|done]|]. intros y' z' [Hy'|Hy']%elem_of_app E'.
      * rewrite IH in E' by done. done.
      * apply list_elem_of_singleton in Hy' as ->. simplify_eq. lia.
    + intros y' [Hy'|Hy']%elem_of_app; [by apply IH|]. by apply list_elem_of_singleton in Hy' as ->.
Qed.

Lemma last_received_unique sources t t' : last_received sources t → last_received sources t' → t = t'.
Proof.
  destruct t as [z|], t' as [z'|]; simpl; try done.
  - intros [(x & Hx & Ex) Hz] [(y & Hy & Ey) Hz']. specialize (Hz _ _ Hy Ey). specialize (Hz' _ _ Hx Ex). f_equal. lia.
  - intros [(x & Hx & Ex) _] Hn. rewrite Hn in Ex; done.
  - intros Hn [(x & Hx & Ex) _]. rewrite Hn in Ex; done.
Qed.

Lemma least_first (sources : list FrozenSource) : sources ≠ [] →
  first_source sources (default [] (least text_leb ((fun x => x.(fz_identity).(si_provider_message_id)) <$> sources))).
Proof.
  intros Hne. pose proof (least_spec text_leb ((fun x => x.(fz_identity).(si_provider_message_id)) <$> sources)
    text_leb_total text_leb_true_trans) as Hl. destruct (least text_leb _) as [p|]; simpl.
  - destruct Hl as [(x & -> & Hx)%list_elem_of_fmap Hle]. split; [by exists x|]. intros y Hy.
    specialize (Hle _ (list_elem_of_fmap_2 (fun x => x.(fz_identity).(si_provider_message_id)) _ _ Hy)). unfold text_leb in Hle. by bools.
  - by apply fmap_nil_inv in Hl.
Qed.

Lemma first_source_unique sources p p' : first_source sources p → first_source sources p' → p = p'.
Proof. intros [(x & Hx & <-) Hp] [(y & Hy & <-) Hp']. apply text_ltb_antisym; auto. Qed.

Lemma put_source_nonempty x l : put_source x l ≠ [].
Proof. destruct l; simpl; [done|]. by case_bool_decide. Qed.

Lemma copies_nonempty i m : m ∈ i.(in_sources).(st_messages) → copies i m ≠ [].
Proof.
  intros Hm. unfold copies, unit_of_row, unit_of_canonical. cbn [lu_sources]. set (members := unit_members _ _).
  assert (m ∈ members) as Hin.
  { unfold members, unit_members. rewrite sort_by_perm. apply elem_of_filter_b. split; [done|]. by rewrite bool_decide_eq_true_2. }
  assert (∀ l, foldl (fun l m => put_source (member_source m) l) l members ≠ []) as Hne.
  { clear Hm. induction members as [|x members IH] using rev_ind; [by apply not_elem_of_nil in Hin|]. intros l.
    rewrite foldl_snoc. apply put_source_nonempty. }
  specialize (Hne []). destruct (message_in _ _); [|done]. revert Hne. generalize (foldl (fun l m => put_source (member_source m) l) [] members).
  generalize (map_to_list (filter (fun e : SourceKey * text * Location => e.2.(lo_message_id) = m.(ms_message_id)) i.(in_locations).(lt_locations))).
  intros located. induction located as [|e located IH]; intros l Hl; simpl; [done|]. apply IH. unfold default_source.
  destruct (existsb _ l); [done|]. by destruct l.
Qed.

Lemma member_precedes x y vx vy : x.(mb_vendor) = Some vx → y.(mb_vendor) = Some vy → member_leb x y = true →
  precedes x.(mb_newest) y.(mb_newest) x.(mb_source) y.(mb_source) vx vy.
Proof.
  destruct x as [nx sx wx], y as [ny sy wy]. unfold member_leb, precedes. cbn [mb_newest mb_source mb_vendor]. intros -> ->. simpl.
  repeat case_bool_decide; subst; intros Hle; unfold text_leb in *.
  - right. split; [done|]. right. split; [done|]. by bools.
  - right. split; [done|]. left. bools. destruct (text_ltb sx sy) eqn:E; [done|]. destruct H0. by apply text_ltb_antisym.
  - left. destruct nx, ny; simpl in *; try done. assert (z ≠ z0) by congruence. lia.
Qed.

(** The logical messages of a thread. *)
Definition in_thread i (k : ThreadScope) m : Prop :=
  m ∈ logical_messages i.(in_sources) ∧ thread_scope i.(in_sources) m = Some k.

Lemma members_in_thread ix i k x :
  x ∈ members_of ix i k (logical_messages i.(in_sources)) ↔ ∃ m, in_thread i k m ∧ x = thread_member ix i m.
Proof.
  unfold members_of, in_thread. rewrite list_elem_of_fmap. split.
  - intros (m & -> & [Hm E]%elem_of_filter_b). exists m. apply bool_decide_eq_true in E. done.
  - intros (m & [Hm E] & ->). exists m. split; [done|]. apply elem_of_filter_b. by rewrite bool_decide_eq_true_2.
Qed.

Lemma thread_member_exact ix i k m : in_thread i k m →
  last_received (copies i m) (thread_member ix i m).(mb_newest) ∧ first_source (copies i m) (thread_member ix i m).(mb_source).
Proof.
  intros [Hm _]. apply logical_elem in Hm as [Hm _]. split; [apply newest_last|]. by apply least_first, copies_nonempty.
Qed.

(** C20: A thread is followed exactly when one of its logical messages is attributed to a
    vendor.  Its owner is the vendor of the attributed message that comes first: the one
    whose last received time (the greatest readable time of its copies; none is later than
    all) is the smallest, then the one with the smaller first provider id of its copies,
    then the smaller vendor; that time and id are stored with it, and the canonical source
    of the thread is the smallest provider id of all copies of its messages. *)
Theorem thread_owner_first i k f : follow_spec i k = Some f →
  let vendor m := va_vendor_id <$> attribution_of (vendor_index i.(in_vendors)) i m in
  match f.(fo_owner) with
  | None => ∀ m, in_thread i k m → vendor m = None
  | Some v => ∃ m t p, in_thread i k m ∧ vendor m = Some v ∧ last_received (copies i m) t ∧ first_source (copies i m) p ∧
      f.(fo_owner_received) = Some t ∧ f.(fo_owner_source) = Some p ∧
      ∀ m' v' t' p', in_thread i k m' → vendor m' = Some v' → last_received (copies i m') t' → first_source (copies i m') p' →
        precedes t t' p p' v v'
  end ∧
  (∃ m x, in_thread i k m ∧ x ∈ copies i m ∧ x.(fz_identity).(si_provider_message_id) = f.(fo_canonical_source)) ∧
  ∀ m x, in_thread i k m → x ∈ copies i m → text_ltb x.(fz_identity).(si_provider_message_id) f.(fo_canonical_source) = false.
Proof.
  intros Hf vendor. set (ix := vendor_index (in_vendors i)). set (members := members_of ix i k (logical_messages i.(in_sources))).
  assert (f = follow_row members ∧ members ≠ []) as [-> Hne].
  { unfold follow_spec in Hf. fold ix members in Hf. destruct members; by simplify_eq. }
  unfold follow_row. cbn [fo_owner fo_owner_received fo_owner_source fo_canonical_source]. unfold follow_owner. split.
  - pose proof (least_spec member_leb (List.filter (fun x => is_some x.(mb_vendor)) members) member_leb_total member_leb_trans) as Hl.
    destruct (least member_leb _) as [x|]; simpl.
    + destruct Hl as [[Hx Hv]%elem_of_filter_b Hle]. destruct (mb_vendor x) as [v|] eqn:Ev; [|done].
      apply members_in_thread in Hx as (m & Hm & ->). destruct (thread_member_exact ix i k m Hm) as [Ht Hp].
      exists m, (thread_member ix i m).(mb_newest), (thread_member ix i m).(mb_source). split_and!; try done.
      intros m' v' t' p' Hm' Hv' Ht' Hp'. destruct (thread_member_exact ix i k m' Hm') as [Ht2 Hp2].
      rewrite (last_received_unique _ _ _ Ht' Ht2), (first_source_unique _ _ _ Hp' Hp2).
      apply member_precedes; [done|done|]. apply Hle, elem_of_filter_b. split; [|change (is_some (vendor m') = true); by rewrite Hv'].
      apply members_in_thread. by exists m'.
    + intros m Hm. destruct (vendor m) as [v|] eqn:Ev; [|done]. exfalso.
      assert (thread_member ix i m ∈ List.filter (fun x => is_some x.(mb_vendor)) members) as Hin.
      { apply elem_of_filter_b. split; [apply members_in_thread; by exists m|]. change (is_some (vendor m) = true). by rewrite Ev. }
      rewrite Hl in Hin. by apply not_elem_of_nil in Hin.
  - pose proof (least_spec text_leb (mb_source <$> members) text_leb_total text_leb_true_trans) as Hl.
    destruct (least text_leb _) as [q|]; simpl; [|by apply fmap_nil_inv in Hl].
    destruct Hl as [(x & -> & (m & Hm & ->)%members_in_thread)%list_elem_of_fmap Hle].
    destruct (thread_member_exact ix i k m Hm) as [_ [(y & Hy & Ey) _]]. split; [by exists m, y|].
    intros m' x Hm' Hx. destruct (thread_member_exact ix i k m' Hm') as [_ [_ Hmin]]. specialize (Hmin x Hx).
    assert (text_leb (mb_source (thread_member ix i m)) (mb_source (thread_member ix i m')) = true) as H1.
    { apply Hle, list_elem_of_fmap_2, members_in_thread. by exists m'. }
    unfold text_leb in H1. bools. by eapply text_leb_trans.
Qed.

(** ** A transaction *)

Module DerivedDemo.

Definition vendors : VendorTables :=
  mk_vendor_tables {[str "v1" := str "Acme"]} {[str "sales@acme.example" := str "v1"]} (Some ∅) [].

Definition sources : SourceTables := {|
  st_messages := []; st_thread_follow := []; st_mail_accounts := []; st_has_removal_schema := true; st_intents := []; st_targets := [] |}.

Definition empty : DerivedInputs := mk_inputs sources (mk_location_tables ∅ ∅ ∅) ∅ ∅ vendors.

Definition row : MessageRow := {|
  ms_message_id := str "m1"; ms_provider := str "gmail"; ms_account_id := str "me"; ms_mailbox_identity_key := Some (str "box");
  ms_provider_message_id := str "p1"; ms_logical_of := None; ms_thread_key := Some (str "t1");
  ms_received_at := Some (str "2026-01-02T03:04:05+00:00"); ms_discovered_at := None |}.

Abbreviation inserted := (put_messages ([] ++ [row]) (<[str "m1" := str "sales@acme.example"]> ∅) empty).
Abbreviation evidence := (track_message empty.(in_sources) inserted.(in_sources) [row] (mk_changes [] [])).
Definition thread : ThreadScope := (str "gmail", str "me", str "box", str "t1").

Definition none : DerivedTables := mk_derived_tables ∅ ∅.
Definition db : ReconcileDb := mk_rdb sources (mk_location_tables ∅ ∅ ∅) (mk_body_tables ∅ ∅ None) ∅ ∅ ∅ ∅ ∅ ∅ [].

Lemma insert_tracked : tracked empty inserted evidence.
Proof.
  eapply tracked_next; [apply tracked_start|]. apply (write_insert empty (mk_changes [] []) row (str "sales@acme.example")).
  - apply not_elem_of_nil.
  - by eexists.
Qed.

Lemma empty_current : derived_current empty (ch_messages evidence) none db.
Proof. split; try done. intros k [x Hx]. simpl in Hx. by rewrite lookup_empty in Hx. Qed.

Lemma derived_incremental_exact_witness : ∃ t' d',
  recompute_derived (Some evidence) [] 0 inserted none db = Ret (t', d') ∧
  recompute_derived None [] 0 inserted none db = Ret (t', d') ∧ derived_current inserted [] t' d'.
Proof.
  apply (derived_incremental_exact empty inserted evidence none db [] 0 db).
  - split; [constructor|]. intros m Hm. by apply not_elem_of_nil in Hm.
  - exact insert_tracked.
  - exact empty_current.
  - reflexivity.
Defined.

Definition followed : FollowRow := Eval vm_compute in
  match follow_spec inserted thread with Some f => f | None => mk_follow_row None None None [] end.

Lemma thread_owner_first_witness : followed.(fo_owner) = Some (str "v1") ∧
  ∃ m t, in_thread inserted thread m ∧ last_received (copies inserted m) t ∧ followed.(fo_owner_received) = Some t.
Proof.
  assert (follow_spec inserted thread = Some followed) as Hf by (vm_compute; reflexivity).
  split; [reflexivity|].
  pose proof (thread_owner_first inserted thread followed Hf) as [(m & t & p & Hm & _ & Ht & _ & Hr & _) _].
  exists m, t. exact (conj Hm (conj Ht Hr)).
Defined.
End DerivedDemo.
